(* ===== verification/_CoqProject ===== *)
-Q . S2P
Prelude.v
StateProg.v
Arith128.v
Dif.v
SafeMem.v
DifValidate.v
DifEmulate.v
DifSafety.v
DifObject.v
Aggregate.v
Buffer.v
Speculation.v
Match.v
ProbeHash.v
Probes.v
Dof.v
Ecb.v
EcbLayout.v
EcbLists.v
EcbHeld.v
EcbLife.v
Privilege.v
Enabling.v
EnablingLists.v
EnablingRefs.v
EnablingSpec.v
DynVar.v
DynKeys.v
DynLists.v
DynOps.v
DynSpec.v
DynClean.v
DynInit.v
DynHistory.v
Dispatch.v
DispatchSafe.v
DispatchTotal.v
Firing.v
Consumer.v
ConsumerMem.v
ConsumerGo.v
ConsumerLife.v
ConsumerEnd.v
ConsumerFire.v
ConsumerSteps.v
Lifetime.v
