(* ===== verification/Prelude.v ===== *)
(** * DTrace for Linux: the kernel side of DTrace

    DTrace compiles scripts into _enablings_: probe descriptions, each with a predicate
    and actions whose expressions are programs in DIF, the D intermediate format.  The
    driver (src/driver/dtrace.c) receives an enabling as a DOF image, checks it, finds the
    probes that match, and connects each with an ECB (enabling control block).  When a
    probe fires, the predicate and the actions run in probe context, where nothing may
    fault, loop or allocate; they store records into per-CPU buffers, which the consumer
    library (src/libdtrace) reads.  This development models the driver's own logic along
    that path and proves it safe and correct; where the code is wrong, an example shows it.

    ** Files, components and sources

    - Prelude: machine integers as [Z] with explicit wrap-around ([u32], [s64], ...),
      bounded loops ([zloop]), checked array access ([zlookup]), automation.
    - StateProg: programs on a state, and rules for what they return.
    - Arith128: dtrace_add_128(), dtrace_shift_128(), dtrace_multiply_128() of the driver,
      and dt_divide_128(), dt_sqrt_128(), dt_stddev() of libdtrace/dt_consume.c.
    - Dif: instruction words, types, variables and DIF objects (sys/dtrace.h).
    - SafeMem: memory access from probe context, dtrace_load*(), dtrace_canstore(),
      dtrace_canload(), dtrace_bcopy(), dtrace_strlen() and their like.
    - DifValidate: dtrace_difo_validate() and dtrace_difo_validate_helper().
    - DifEmulate, DifSafety: dtrace_dif_emulate(), every opcode, and its safety.
    - DifObject: life cycle of DIF objects, dtrace_difo_init() to dtrace_difo_release().
    - Aggregate: the aggregating functions and dtrace_aggregate().
    - Buffer: trace buffers, dtrace_buffer_alloc() to dtrace_buffer_free().
    - Speculation: speculative tracing, dtrace_speculation*(), also interleaved.
    - Match: globs and probe keys, dtrace_match_glob() to dtrace_match_probe().
    - ProbeHash: the hash tables over probes, dtrace_hash_*().
    - Probes: providers and probes, dtrace_probe_create(), dtrace_match(), dtrace_condense(),
      dtrace_register(), dtrace_unregister(), dtrace_module_unloaded().
    - Dof: the loader, dtrace_dof_copyin() to dtrace_dof_slurp(), with predicates and
      action descriptions.
    - Ecb: ECBs, formats and actions, dtrace_format_add() to dtrace_aggid2agg().
      EcbLayout: the layout of records, dtrace_ecb_resize().  EcbLists: the ECBs of a
      probe, dtrace_ecb_enable() and dtrace_ecb_disable().  EcbHeld, EcbLife: what ECBs
      hold, dtrace_ecb_create() and dtrace_ecb_destroy().
    - Privilege: the security table of driver/dtrace_linux.c, priv_policy_only(), and what
      dtrace_cred2priv(), dtrace_state_create() and dtrace_priv_*() make of it.
    - Enabling: enablings, dtrace_enabling_create() to dtrace_enabling_provide(), with
      dtrace_probe_enable() and dtrace_probe_provide().  EnablingLists: the list of the retained
      ones.  EnablingRefs: the references of descriptions.  EnablingSpec: what enablings
      promise, and that they keep it.
    - DynVar: dynamic variables, dtrace_dynvar(), dtrace_dynvar_clean(), dtrace_dstate_init().
      DynKeys: hashing, comparison and copying of keys.  DynLists: hash chains and lists of
      chunks.  DynOps, DynSpec, DynClean, DynInit: the operations.  DynHistory: what
      dynamic variables promise, and that they keep it.
    - Dispatch: the firing of a probe, dtrace_probe(), with predicates, the actions
      dtrace_action_*(), dtrace_probe_error() of driver/dtrace_asm.c and the recursion on the
      ERROR probe.  DispatchSafe: whom a firing concerns and what privileges allow.
      DispatchTotal: that a firing ends, and what it writes.  Firing: the promises.
    - Consumer: the life of a consumer, dtrace_state_create() to dtrace_state_destroy(), with options,
      start, cyclics and stop.  ConsumerMem, ConsumerGo: the memory it takes and gives back.
      ConsumerLife: its activities.  ConsumerEnd: its destruction.  ConsumerFire: what the
      firing of a probe does to it.  ConsumerSteps: its life as a step relation.  Lifetime: the
      promises, and a small system in which all of this runs.

    Definitions keep the names of the code; C structures are records or maps from
    addresses, linked lists are lists where only their order matters and pointers where
    the code that manipulates them is the subject (ProbeHash, EcbLists, EnablingLists,
    DynLists).  A result [None]
    (or [Oob], or [Panic]) stands for a failed ASSERT, an access outside of an array
    or a bad pointer, so that a theorem that a function returns [Some] rules these out;
    error codes are ordinary results.

    ** What the theorems show

    - Emulation: an object the validator accepts, whose variables are declared, runs to its end
      within the number of its instructions, touches no table out of bounds, and writes
      only to the consumer's own memory; faults give 0.  Validation is characterised exactly.
    - Memory: guarded loads and stores are confined as intended; copies are memmove.
    - Aggregation: the hash table in the buffer is a finite map from tuples to values folded by
      the aggregating function, over any sequence of calls; the functions count
      what they should; the 128-bit arithmetic is exact.
    - Buffers: under any sequence of reservations and commits a ring buffer stays a sequence of
      whole records; allocation is all or nothing.
    - Speculations: in every interleaving on any number of CPUs no assertion fails and no data leak
      from one speculation to the next; the operations as coded refine that protocol; the
      cleaner completes.
    - Probes: hash tables implement maps; in every history tables and probe array agree;
      the search of dtrace_match() equals a scan with a declarative meaning of globs.
    - Loading: from any DOF image of sane shape the loader stays inside of the image, hands out only
      validated and declared objects, and gives everything back when it refuses the image.
    - ECBs: records are aligned, in bounds and do not overwrite each other, in the shape the
      aggregations rely on; the ECBs of a probe form a list under enable and disable;
      creation returns an ECB or EINVAL, and destruction gives back all it took.
    - Enablings: sequences of creation, retention, replication, retraction and destruction
      implement a list with a limit per consumer; references are counted exactly, and
      retraction frees what only enablings held.
    - Dynamic variables: any sequence of lookups, allocations, deallocations and cleanings on any CPUs
      implements a finite map from tuples to chunks and writes only the space it was given;
      cleaning makes room.  Examples show the retries when another CPU interferes.
    - Firing: any sequence of firings ends without a failing assertion and writes only buffers and
      variables of consumers that may see it, for linear buffers, ECBs without actions on speculations
      and DIF without signed division and pushtr (which may trap or hang); consumers that are not
      concerned stay as they are; destructive actions need privileges; two activations of dtrace_probe()
      are enough; a predicate is decided by its low 32 bits.
    - Consumers: a start is refused and undone, or comes to BEGIN with all that it needs; over any sequence of
      steps BEGIN and END fire once and in order, nothing goes back, and destruction at any time
      destroys every ECB once and gives back all memory but the dtrace_state_t; dtrace_probe() acts on a
      consumer as this relies on.  A consumer traces all CPUs, asks for a principal buffer and for at
      least one speculation, and a start that ENOENT or ENOSPC refused is not repeated: examples show that
      the code fails otherwise.
    - Privileges: a consumer has all of them or none, which is not what the rules promise; the
      parser of rules ends, stays in the table and reads what the driver shows.

    ** Bounds and fuel

    Loops of the code without a structural measure run on fuel that their own bounds give: the length
    of the text for the emulator (branches go forward), half the buckets for hash growth, the
    size of a section for DOF entries, the number of ECBs or enablings for a walk along a list, two for
    the depth of dtrace_probe(), 64 for sizes that are halved.  Theorems
    state that the result is reached, not only what it is if reached.  Hypotheses that bound inputs
    (no more than 2^31 identifiers, records of an ECB within 2^32 bytes, buffers below
    the top of the address space) are stated where they are needed; where the code does
    not enforce them an example shows what happens.

    ** Parameters

    The kernel allocator, user memory, and the answers of providers are parameters with stated
    promises.  Builtin variables, subroutines, dynamic variables (modelled apart) and user
    loads are operations of a class ([dif_env]) the emulator is proved against.  The class [probe_env]
    adds what a firing uses of the system: the clock, stack walks, dtrace_action_ustack(), which
    runs helpers, dtps_usermode(), and tunables; a chill() that waits is bounded by the clock's progress.
    The class [consumer_env] has what a consumer's life uses of other components: the allocator, the
    CPUs, matching, the firing of probes and tunables; the firing is also given by Dispatch.

    ** Not modelled

    dtrace_dif_variable() and dtrace_dif_subr(), which
    read the running system; options from DOF, and anonymous state, which Linux never has; helpers; the instrumentation
    providers (fbt, sdt, systrace, profile, fasttrap) and the decoder they use; Linux glue; the D
    compiler, the rest of the consumer library, CTF, libproc and the commands.  Cross calls and
    interrupt masking are not modelled: an operation on one CPU's data is one step, except in
    Speculation, where the steps are the accesses to the shared state word, and in DynVar, where
    a parameter acts before every access that competes with other CPUs. *)
From Stdlib Require Export ZArith Lia Bool.
From stdpp Require Export base list numbers option.

#[global] Open Scope Z_scope.

(** Division and modulo by literals are linear problems once their defining
    equations are in the context. *)
Ltac Zify.zify_post_hook ::= Z.to_euclidean_division_equations.

Create HintDb dt.
Create Rewrite HintDb dt.

(** * Fixed-width integers

    A C integer of width w is a [Z]; [u8] ... [u64] reduce modulo 2^w (the
    conversion to the unsigned type), [s8] ... [s64] give the two's complement
    reading of the same bits (the conversion to the signed type). *)

Definition u8 (x : Z) : Z := x mod 256.
Definition u16 (x : Z) : Z := x mod 65536.
Definition u32 (x : Z) : Z := x mod 4294967296.
Definition u64 (x : Z) : Z := x mod 18446744073709551616.

Definition s8 (x : Z) : Z := if u8 x <? 128 then u8 x else u8 x - 256.
Definition s16 (x : Z) : Z := if u16 x <? 32768 then u16 x else u16 x - 65536.
Definition s32 (x : Z) : Z :=
  if u32 x <? 2147483648 then u32 x else u32 x - 4294967296.
Definition s64 (x : Z) : Z :=
  if u64 x <? 9223372036854775808 then u64 x else u64 x - 18446744073709551616.

(** [x] is the value of an object of the unsigned type of width [w]. *)
Definition is_u (w x : Z) : Prop := 0 <= x < 2 ^ w.
Abbreviation is_u8 := (is_u 8).
Abbreviation is_u32 := (is_u 32).
Abbreviation is_u64 := (is_u 64).

(** Turn boolean comparisons into case distinctions. *)
Ltac zcase :=
  repeat match goal with
  | H : context [?a <? ?b] |- _ => destruct (Z.ltb_spec a b)
  | H : context [?a <=? ?b] |- _ => destruct (Z.leb_spec a b)
  | H : context [?a =? ?b] |- _ => destruct (Z.eqb_spec a b)
  | |- context [?a <? ?b] => destruct (Z.ltb_spec a b)
  | |- context [?a <=? ?b] => destruct (Z.leb_spec a b)
  | |- context [?a =? ?b] => destruct (Z.eqb_spec a b)
  end.

(** Decide a goal of wrap-around arithmetic. *)
Ltac word :=
  unfold s8, s16, s32, s64, u8, u16, u32, u64, is_u in *; zcase; lia.

Lemma u64_range x : is_u 64 (u64 x).
Proof. word. Qed.

Lemma u32_range x : is_u 32 (u32 x).
Proof. word. Qed.

Lemma u8_range x : is_u 8 (u8 x).
Proof. word. Qed.

Lemma s64_range x : - 2 ^ 63 <= s64 x < 2 ^ 63.
Proof. word. Qed.

Lemma s32_range x : - 2 ^ 31 <= s32 x < 2 ^ 31.
Proof. word. Qed.

Lemma u64_id x : is_u 64 x -> u64 x = x.
Proof. word. Qed.

Lemma u32_id x : is_u 32 x -> u32 x = x.
Proof. word. Qed.

Lemma u8_id x : is_u 8 x -> u8 x = x.
Proof. word. Qed.

Lemma s64_u64 x : u64 (s64 x) = u64 x.
Proof. word. Qed.

Lemma u64_s64 x : s64 (u64 x) = s64 x.
Proof. word. Qed.

Lemma s64_id x : - 2 ^ 63 <= x < 2 ^ 63 -> s64 x = x.
Proof. word. Qed.

#[export] Hint Resolve u64_range u32_range u8_range s64_range s32_range : dt.
#[export] Hint Rewrite s64_u64 u64_s64 : dt.

(** * Bounded loops

    A C loop is a body [f] that either continues with a new loop state ([inl])
    or leaves the loop with a result ([inr]).  [zloop f n s] runs at most [n]
    iterations from [s]; [None] says that the loop did not leave within [n]
    iterations.  The recursion is on the binary representation of [n], so a
    bound as large as 2^64 still evaluates in the number of iterations that
    are really made. *)

Section Loop.
Context {S R : Type}.

Fixpoint loop_nat (f : S -> S + R) (n : nat) (s : S) : S + R :=
  match n with
  | O => inl s
  | Datatypes.S n =>
      match f s with inl s' => loop_nat f n s' | inr r => inr r end
  end.

Fixpoint loop_pos (f : S -> S + R) (p : positive) (s : S) : S + R :=
  match p with
  | xH => f s
  | xO p =>
      match loop_pos f p s with
      | inl s' => loop_pos f p s'
      | inr r => inr r
      end
  | xI p =>
      match f s with
      | inr r => inr r
      | inl s0 =>
          match loop_pos f p s0 with
          | inl s' => loop_pos f p s'
          | inr r => inr r
          end
      end
  end.

Definition zloop (f : S -> S + R) (n : Z) (s : S) : option R :=
  match n with
  | Zpos p => match loop_pos f p s with inl _ => None | inr r => Some r end
  | _ => None
  end.

Lemma loop_nat_add f m n s :
  loop_nat f (m + n) s =
  match loop_nat f m s with inl s' => loop_nat f n s' | inr r => inr r end.
Proof. revert s. induction m as [|m IH]; intros s; simpl; [done|]. by destruct (f s). Qed.

Lemma loop_pos_nat f p s : loop_pos f p s = loop_nat f (Pos.to_nat p) s.
Proof.
  revert s. induction p as [p IH|p IH|]; intros s; cbn [loop_pos].
  - rewrite Pos2Nat.inj_xI. replace (2 * Pos.to_nat p)%nat
      with (Pos.to_nat p + Pos.to_nat p)%nat by lia. cbn [loop_nat].
    destruct (f s) as [s0|r]; [|done]. rewrite loop_nat_add, IH.
    by destruct (loop_nat f (Pos.to_nat p) s0).
  - rewrite Pos2Nat.inj_xO. replace (2 * Pos.to_nat p)%nat
      with (Pos.to_nat p + Pos.to_nat p)%nat by lia.
    rewrite loop_nat_add, IH. by destruct (loop_nat f (Pos.to_nat p) s).
  - change (Pos.to_nat 1) with 1%nat. simpl. by destruct (f s).
Qed.

Lemma zloop_nat f n s :
  0 <= n ->
  zloop f n s = match loop_nat f (Z.to_nat n) s with
                | inl _ => None | inr r => Some r end.
Proof.
  intros Hn. destruct n as [|p|p]; simpl; [done| |lia].
  by rewrite loop_pos_nat.
Qed.

(** Total correctness: an invariant, a measure that every continuing
    iteration decreases, and a bound above the initial measure. *)
Lemma zloop_total (I : S -> Prop) (mu : S -> Z) (Q : R -> Prop) f n s :
  (forall s, I s -> 0 <= mu s /\
     match f s with inl s' => I s' /\ mu s' < mu s | inr r => Q r end) ->
  I s -> mu s < n ->
  exists r, zloop f n s = Some r /\ Q r.
Proof.
  intros Hstep HI Hn. destruct (Hstep s HI) as [H0 _].
  rewrite zloop_nat by lia.
  assert (Hm : mu s < Z.of_nat (Z.to_nat n)) by lia. clear H0 Hn. revert s HI Hm.
  induction (Z.to_nat n) as [|k IH]; intros s HI Hm.
  - destruct (Hstep s HI). lia.
  - simpl. destruct (Hstep s HI) as [H0 H1]. destruct (f s) as [s'|r]; [|eauto].
    destruct H1 as [HI' Hlt]. apply IH; [done|lia].
Qed.

(** The same with the measure kept outside of the loop state. *)
Lemma zloop_down (I : Z -> S -> Prop) (Q : R -> Prop) f n k s :
  (forall k s, I k s -> 0 <= k /\
     match f s with inl s' => I (k - 1) s' | inr r => Q r end) ->
  I k s -> k < n ->
  exists r, zloop f n s = Some r /\ Q r.
Proof.
  intros Hstep HI Hn. destruct (Hstep k s HI) as [H0 _].
  rewrite zloop_nat by lia.
  assert (Hm : k < Z.of_nat (Z.to_nat n)) by lia. clear H0 Hn. revert k s HI Hm.
  induction (Z.to_nat n) as [|j IH]; intros k s HI Hm.
  - destruct (Hstep k s HI). lia.
  - simpl. destruct (Hstep k s HI) as [H0 H1]. destruct (f s) as [s'|r]; [|eauto].
    apply (IH (k - 1)); [done|lia].
Qed.

(** Partial correctness, for loops that need not leave within the bound. *)
Lemma zloop_partial (I : S -> Prop) (Q : R -> Prop) f n s r :
  (forall s, I s -> match f s with inl s' => I s' | inr r => Q r end) ->
  I s -> zloop f n s = Some r -> Q r.
Proof.
  intros Hstep HI. destruct n as [|p|p]; simpl; try discriminate.
  rewrite loop_pos_nat. revert s HI.
  induction (Pos.to_nat p) as [|k IH]; intros s HI; simpl; [discriminate|].
  pose proof (Hstep s HI) as H1. destruct (f s) as [s'|r']; [by apply IH|].
  intros [= ->]. done.
Qed.

(** One unrolling of the loop. *)
Lemma zloop_unroll f n s :
  0 < n ->
  zloop f n s = match f s with inl s' => zloop f (n - 1) s' | inr r => Some r end.
Proof.
  intros Hn. rewrite zloop_nat by lia.
  replace (Z.to_nat n) with (Datatypes.S (Z.to_nat (n - 1))) by lia. simpl.
  destruct (f s); [|done]. by rewrite zloop_nat by lia.
Qed.
End Loop.

(** * Tables indexed by machine integers *)

(** [l[i]], [None] out of range; a huge index is never counted down in unary. *)
Definition zlookup {A} (l : list A) (i : Z) : option A :=
  if (0 <=? i) && (i <? Z.of_nat (length l)) then l !! Z.to_nat i else None.

Lemma zlookup_nat {A} (l : list A) i : 0 <= i -> zlookup l i = l !! Z.to_nat i.
Proof.
  intros Hi. unfold zlookup. destruct (Z.leb_spec 0 i); [|lia].
  destruct (Z.ltb_spec i (Z.of_nat (length l))); [done|].
  symmetry. apply lookup_ge_None_2. lia.
Qed.

(** * Powers of two and bits *)

Lemma pow2_pos n : 0 <= n -> 0 < 2 ^ n.
Proof. intros. apply Z.pow_pos_nonneg; lia. Qed.

Lemma pow2_succ n : 0 <= n -> 2 ^ (n + 1) = 2 * 2 ^ n.
Proof. intros. rewrite Z.pow_add_r by lia. lia. Qed.

Lemma div_zero_lt a b : 0 < b -> a / b <= 0 -> a < b.
Proof.
  intros Hb H. destruct (Z.lt_ge_cases a b) as [|Hge]; [done|].
  pose proof (Z.div_le_lower_bound a b 1 Hb). lia.
Qed.

Lemma land_ones_low x n : 0 <= n -> Z.land x (2 ^ n - 1) = x mod 2 ^ n.
Proof.
  intros Hn. replace (2 ^ n - 1) with (Z.ones n); [by apply Z.land_ones|].
  rewrite Z.ones_equiv. lia.
Qed.


(** A value below 2^n and a multiple of 2^n have no bit in common. *)
Lemma land_low_high a b n :
  0 <= n -> 0 <= a < 2 ^ n -> Z.land a (Z.shiftl b n) = 0.
Proof.
  intros Hn Ha. apply Z.bits_inj'. intros i Hi.
  rewrite Z.land_spec, Z.bits_0, Z.shiftl_spec by lia.
  destruct (Z.lt_ge_cases i n) as [Hlt|Hge].
  - rewrite (Z.testbit_neg_r b) by lia. by rewrite andb_false_r.
  - replace a with (a mod 2 ^ n) by (apply Z.mod_small; lia).
    by rewrite Z.mod_pow2_bits_high by lia.
Qed.

(** Clearing the low bits of a word. *)
Lemma land_clear_low y n : is_u64 y -> 0 <= n -> Z.land y (Z.ldiff (Z.ones 64) (Z.ones n)) = y - y mod 2 ^ n.
Proof.
  intros Hy Hn. rewrite (Z.ldiff_land (Z.ones 64)), Z.land_assoc, Z.land_ones by lia.
  rewrite (Z.mod_small y) by (unfold is_u in Hy; lia).
  rewrite <- Z.ldiff_land, Z.ldiff_ones_r by lia. rewrite Z.shiftl_mul_pow2, Z.shiftr_div_pow2 by lia.
  pose proof (Z.div_mod y (2 ^ n)). nia.
Qed.

(** Or-ing into the low zero bits of a shifted word is addition. *)
Lemma lor_low_high a b n :
  0 <= n -> 0 <= a < 2 ^ n -> Z.lor a (Z.shiftl b n) = a + b * 2 ^ n.
Proof.
  intros Hn Ha. pose proof (Z.add_lor_land a (Z.shiftl b n)) as H.
  rewrite land_low_high, Z.shiftl_mul_pow2 in H by lia.
  rewrite Z.shiftl_mul_pow2 by lia. lia.
Qed.

Lemma lor_low_mul a b n :
  0 <= n -> 0 <= a < 2 ^ n -> Z.lor a (b * 2 ^ n) = a + b * 2 ^ n.
Proof. intros. rewrite <- (Z.shiftl_mul_pow2 b n) at 1 by lia. by apply lor_low_high. Qed.
