(* ===== verification/StateProg.v ===== *)
(** Programs that read and change a state of any type, and rules to prove what they return. *)
From S2P Require Import Prelude.

(** No result: an assertion fails, a pointer is bad or a loop does not end. *)
Definition sprog (X A : Type) : Type := X -> option (A * X).

Section Programs.
Context {X : Type}.

Definition sret {A} (a : A) : sprog X A := fun x => Some (a, x).
Definition sbind {A B} (m : sprog X A) (f : A -> sprog X B) : sprog X B :=
  fun x => match m x with Some (a, x) => f a x | None => None end.
Definition sgets {A} (f : X -> option A) : sprog X A := fun x => match f x with Some a => Some (a, x) | None => None end.
Definition sputs (f : X -> X) : sprog X unit := fun x => Some (tt, f x).
Definition sassert (b : bool) : sprog X unit := fun x => if b then Some (tt, x) else None.
Definition sfail {A} : sprog X A := fun _ => None.

(** [m] returns, with a result and a state that satisfy [Q]. *)
Definition runs {A} (m : sprog X A) (x : X) (Q : A -> X -> Prop) : Prop := exists a x', m x = Some (a, x') /\ Q a x'.

Lemma runs_bind {A B} (m : sprog X A) (f : A -> sprog X B) x P Q :
  runs m x P -> (forall a x', P a x' -> runs (f a) x' Q) -> runs (sbind m f) x Q.
Proof. intros (a & x' & Hm & HP) Hf. destruct (Hf a x' HP) as (b & x2 & H2 & HQ). exists b, x2. split; [|done]. unfold sbind. by rewrite Hm. Qed.

Lemma runs_ret {A} (a : A) x (Q : A -> X -> Prop) : Q a x -> runs (sret a) x Q.
Proof. intros HQ. by exists a, x. Qed.

Lemma runs_puts (g : X -> X) x (Q : unit -> X -> Prop) : Q tt (g x) -> runs (sputs g) x Q.
Proof. intros HQ. by exists tt, (g x). Qed.

Lemma runs_weaken {A} (m : sprog X A) x (P Q : A -> X -> Prop) : runs m x P -> (forall a x', P a x' -> Q a x') -> runs m x Q.
Proof. intros (a & x' & Hm & HP) H. exists a, x'. split; [done|]. by apply H. Qed.

Lemma bind_gets {A B} (g : X -> option A) (f : A -> sprog X B) x a Q : g x = Some a -> runs (f a) x Q -> runs (sbind (sgets g) f) x Q.
Proof. intros Hg Hf. apply (runs_bind _ _ _ (fun b x' => b = a /\ x' = x)); [exists a, x; unfold sgets; by rewrite Hg|]. by intros b x' [-> ->]. Qed.

Lemma bind_puts {B} (g : X -> X) (f : unit -> sprog X B) x Q : runs (f tt) (g x) Q -> runs (sbind (sputs g) f) x Q.
Proof. intros Hf. by apply (runs_bind _ _ _ (fun _ x' => x' = g x)); [exists tt, (g x)|intros [] x' ->]. Qed.

Lemma bind_assert {B} (b : bool) (f : unit -> sprog X B) x Q : b = true -> runs (f tt) x Q -> runs (sbind (sassert b) f) x Q.
Proof. intros -> Hf. by apply (runs_bind _ _ _ (fun _ x' => x' = x)); [exists tt, x|intros [] x' ->]. Qed.

Lemma bind_ret {A B} (a : A) (f : A -> sprog X B) x Q : runs (f a) x Q -> runs (sbind (sret a) f) x Q.
Proof. intros Hf. by apply (runs_bind _ _ _ (fun b x' => b = a /\ x' = x)); [exists a, x|intros b x' [-> ->]]. Qed.

Lemma bind_assoc {A B C} (m : sprog X A) (f : A -> sprog X B) (g : B -> sprog X C) x Q :
  runs (sbind m (fun a => sbind (f a) g)) x Q -> runs (sbind (sbind m f) g) x Q.
Proof. unfold runs, sbind. destruct (m x) as [[a x']|]; done. Qed.

(** If [m] returns, its result and state satisfy [Q]. *)
Definition after {A} (m : sprog X A) (x : X) (Q : A -> X -> Prop) : Prop := forall a x', m x = Some (a, x') -> Q a x'.

Lemma after_bind {A B} (m : sprog X A) (f : A -> sprog X B) x Q : after m x (fun a x' => after (f a) x' Q) -> after (sbind m f) x Q.
Proof. intros H b x2. unfold sbind. destruct (m x) as [[a x1]|] eqn:E; [|done]. by apply H. Qed.

Lemma after_ret {A} (a : A) x (Q : A -> X -> Prop) : Q a x -> after (sret a) x Q.
Proof. by intros HQ b x' [= <- <-]. Qed.

Lemma after_gets {A} (g : X -> option A) x (Q : A -> X -> Prop) : (forall a, g x = Some a -> Q a x) -> after (sgets g) x Q.
Proof. intros HQ a x'. unfold sgets. destruct (g x) as [b|]; [|done]. intros [= <- <-]. by apply HQ. Qed.

Lemma after_puts (g : X -> X) x (Q : unit -> X -> Prop) : Q tt (g x) -> after (sputs g) x Q.
Proof. by intros HQ a x' [= <- <-]. Qed.

Lemma after_assert (b : bool) x (Q : unit -> X -> Prop) : (b = true -> Q tt x) -> after (sassert b) x Q.
Proof. intros HQ a x'. unfold sassert. destruct b; [|done]. intros [= <- <-]. by apply HQ. Qed.

Lemma after_fail {A} x (Q : A -> X -> Prop) : after sfail x Q.
Proof. done. Qed.

Lemma after_weaken {A} (m : sprog X A) x (Q Q' : A -> X -> Prop) : after m x Q -> (forall a x', Q a x' -> Q' a x') -> after m x Q'.
Proof. intros H HQ a x' Hm. by apply HQ, H. Qed.

(** Programs all of whose runs are related by [R]. *)
Definition within {A} (R : X -> X -> Prop) (m : sprog X A) : Prop := forall x, after m x (fun _ x' => R x x').

Section Within.
Context (R : X -> X -> Prop) `{!PreOrder R}.

Lemma within_bind {A B} (m : sprog X A) (f : A -> sprog X B) : within R m -> (forall a, within R (f a)) -> within R (sbind m f).
Proof. intros Hm Hf x. apply after_bind. eapply after_weaken; [apply Hm|]. intros a x1 H1. eapply after_weaken; [apply Hf|]. intros b x2 H2. etrans; [exact H1|exact H2]. Qed.

Lemma within_ret {A} (a : A) : within R (sret a).
Proof. intros x. by apply after_ret. Qed.

Lemma within_gets {A} (g : X -> option A) : within R (sgets g).
Proof. intros x. by apply after_gets. Qed.

Lemma within_puts (g : X -> X) : (forall x, R x (g x)) -> within R (sputs g).
Proof. intros H x. by apply after_puts. Qed.

Lemma within_assert (b : bool) : within R (sassert b).
Proof. intros x. by apply after_assert. Qed.

Lemma within_fail {A} : within R (@sfail A).
Proof. done. Qed.

Lemma within_if {A} (b : bool) (m1 m2 : sprog X A) : within R m1 -> within R m2 -> within R (if b then m1 else m2).
Proof. by destruct b. Qed.
End Within.
End Programs.

Create HintDb prog.
#[export] Hint Resolve within_ret within_gets within_assert within_fail : prog.

Declare Scope sprog_scope.
Delimit Scope sprog_scope with sprog.
Notation "x <~ m ; k" := (sbind m (fun x => k)) (at level 100, m at next level, right associativity) : sprog_scope.
Notation "m ~; k" := (sbind m (fun _ => k)) (at level 100, right associativity) : sprog_scope.
