(* ===== verification/Arith128.v ===== *)
(** 128-bit arithmetic behind the stddev() aggregating action.

    The kernel accumulates the sum of squares with [dtrace_add_128],
    [dtrace_shift_128] and [dtrace_multiply_128] (driver/dtrace.c); the consumer
    turns it into a standard deviation with the same three routines plus
    comparison, subtraction, long-hand division and long-hand square root
    (libdtrace/dt_consume.c).  A [uint64_t[2]] is a pair, low word first. *)
From S2P Require Import Prelude.

Definition w128 : Type := Z * Z.

(** The number a pair of words stands for, and the pairs that are words. *)
Definition val128 (a : w128) : Z := a.1 + a.2 * 2 ^ 64.
Definition wf128 (a : w128) : Prop := is_u64 a.1 /\ is_u64 a.2.

Definition DT_MASK_LO : Z := 0x00000000FFFFFFFF.

Definition dtrace_add_128 (addend1 addend2 : w128) : w128 :=
  let result0 := u64 (addend1.1 + addend2.1) in
  let result1 := u64 (addend1.2 + addend2.2 +
    (if (result0 <? addend1.1) || (result0 <? addend2.1) then 1 else 0)) in
  (result0, result1).

Definition dtrace_shift_128 (a : w128) (b : Z) : w128 :=
  if b =? 0 then a
  else if b <? 0 then
    let b := - b in
    if 64 <=? b then (Z.shiftr a.2 (b - 64), 0)
    else
      let a0 := Z.shiftr a.1 b in
      let mask := u64 (Z.shiftl 1 (64 - b)) in
      let mask := u64 (mask - 1) in
      (Z.lor a0 (u64 (Z.shiftl (Z.land a.2 mask) (64 - b))), Z.shiftr a.2 b)
  else
    if 64 <=? b then (0, u64 (Z.shiftl a.1 (b - 64)))
    else
      let a1 := u64 (Z.shiftl a.2 b) in
      let mask := Z.shiftr a.1 (64 - b) in
      (u64 (Z.shiftl a.1 b), Z.lor a1 mask).

Definition dtrace_multiply_128 (factor1 factor2 : Z) : w128 :=
  let hi1 := Z.shiftr factor1 32 in
  let hi2 := Z.shiftr factor2 32 in
  let lo1 := Z.land factor1 DT_MASK_LO in
  let lo2 := Z.land factor2 DT_MASK_LO in
  let product := (u64 (lo1 * lo2), u64 (hi1 * hi2)) in
  let tmp := dtrace_shift_128 (u64 (hi1 * lo2), 0) 32 in
  let product := dtrace_add_128 product tmp in
  let tmp := dtrace_shift_128 (u64 (hi2 * lo1), 0) 32 in
  dtrace_add_128 product tmp.

(** ** The consumer's routines (libdtrace/dt_consume.c)

    The first three have the text of their kernel counterparts. *)
Definition dt_add_128 (addend1 addend2 : w128) : w128 := dtrace_add_128 addend1 addend2.
Definition dt_shift_128 (a : w128) (b : Z) : w128 := dtrace_shift_128 a b.
Definition dt_multiply_128 (factor1 factor2 : Z) : w128 := dtrace_multiply_128 factor1 factor2.

Definition dt_gt_128 (a b : w128) : bool :=
  (b.2 <? a.2) || ((a.2 =? b.2) && (b.1 <? a.1)).
Definition dt_ge_128 (a b : w128) : bool :=
  (b.2 <? a.2) || ((a.2 =? b.2) && (b.1 <=? a.1)).
Definition dt_le_128 (a b : w128) : bool :=
  (a.2 <? b.2) || ((a.2 =? b.2) && (a.1 <=? b.1)).

Definition dt_subtract_128 (minuend subtrahend : w128) : w128 :=
  (u64 (minuend.1 - subtrahend.1),
   u64 (minuend.2 - subtrahend.2 - (if minuend.1 <? subtrahend.1 then 1 else 0))).

(** [while (dt_gt_128(tmp, zero)) { shift right by 1; nbits++ }]: a 128-bit
    value is zero after 128 shifts, so 129 iterations always suffice. *)
Definition dt_nbits_128 (a : w128) : option Z :=
  zloop (fun '(tmp, nbits) =>
    if dt_gt_128 tmp (0, 0) then inl (dt_shift_128 tmp (-1), nbits + 1)
    else inr nbits) 129 (dt_shift_128 a (-1), 0).

(** [while (divisor > 0) { log++; divisor >>= 1; }]: at most 64 shifts. *)
Definition dt_divide_log (divisor : Z) : option Z :=
  zloop (fun '(divisor, log) =>
    if 0 <? divisor then inl (Z.shiftr divisor 1, log + 1) else inr log)
    65 (divisor, 0).

Definition dt_divide_loop (divisor_128 : w128) (remainder subtrahend mask : w128)
  : option w128 :=
  zloop (fun '(remainder, subtrahend, mask, result) =>
    if dt_ge_128 remainder divisor_128 then
      let '(remainder, result) :=
        if dt_ge_128 remainder subtrahend then
          (dt_subtract_128 remainder subtrahend,
           (Z.lor result.1 mask.1, Z.lor result.2 mask.2))
        else (remainder, result) in
      inl (remainder, dt_shift_128 subtrahend (-1), dt_shift_128 mask (-1), result)
    else inr result) 129 (remainder, subtrahend, mask, (0, 0)).

(** [None] stands for the failed [assert(divisor != 0)]; the two loops return
    within their bounds ([dt_divide_128_correct]). *)
Definition dt_divide_128 (dividend : w128) (divisor : Z) : option w128 :=
  if divisor =? 0 then None
  else
    match dt_divide_log divisor with
    | None => None
    | Some log =>
        dt_divide_loop (divisor, 0) dividend
          (dt_shift_128 (divisor, 0) (128 - log))
          (dt_shift_128 (1, 0) (128 - log))
    end.

(** One turn of the [for] loop of dt_sqrt_128. *)
Definition dt_sqrt_step (square : w128) (st : w128 * w128 * Z) : w128 * w128 * Z :=
  let '(result, diff, pair_shift) := st in
  let next_pair := dt_shift_128 square (- pair_shift) in
  let next_pair := (Z.land next_pair.1 0x3, 0) in
  let diff := dt_shift_128 diff 2 in
  let diff := dt_add_128 diff next_pair in
  let next_try := dt_shift_128 result 2 in
  let next_try := dt_add_128 next_try (1, 0) in
  if dt_le_128 next_try diff then
    (dt_add_128 (dt_shift_128 result 1) (1, 0), dt_subtract_128 diff next_try,
     pair_shift - 2)
  else (dt_shift_128 result 1, diff, pair_shift - 2).

(** [None] is the failed final [assert(result[1] == 0)]. *)
Definition dt_sqrt_128 (square : w128) : option Z :=
  match dt_nbits_128 square with
  | None => None
  | Some nbits =>
      let bit_pairs := nbits / 2 in
      let '(result, _, _) :=
        Nat.iter (Z.to_nat (bit_pairs + 1)) (dt_sqrt_step square)
          ((0, 0), (0, 0), bit_pairs * 2) in
      if result.2 =? 0 then Some result.1 else None
  end.

(** [data] is {count, sum, sum of squares (two words)}; C's signed division
    truncates ([Z.quot]). *)
Definition dt_stddev (data0 data1 : Z) (data2 : w128) (normal : Z) : option Z :=
  match dt_divide_128 data2 normal with
  | None => None
  | Some avg_of_squares =>
  match dt_divide_128 avg_of_squares data0 with
  | None => None
  | Some avg_of_squares =>
      let norm_avg := s64 (Z.quot (Z.quot (s64 data1) (s64 normal)) (s64 data0)) in
      let norm_avg := if norm_avg <? 0 then s64 (- norm_avg) else norm_avg in
      let square_of_avg := dt_multiply_128 (u64 norm_avg) (u64 norm_avg) in
      dt_sqrt_128 (dt_subtract_128 avg_of_squares square_of_avg)
  end end.

(** * Correctness *)

(** Open pairs of words. *)
Ltac w128 := unfold wf128, val128, is_u in *; simpl fst in *; simpl snd in *.

Lemma val128_range a : wf128 a -> 0 <= val128 a < 2 ^ 128.
Proof. w128. lia. Qed.

Lemma val128_inj a b : wf128 a -> wf128 b -> val128 a = val128 b -> a = b.
Proof. destruct a, b. w128. intros ?? ?. f_equal; lia. Qed.

Lemma add_128_spec x y :
  wf128 x -> wf128 y ->
  wf128 (dtrace_add_128 x y) /\
  val128 (dtrace_add_128 x y) = (val128 x + val128 y) mod 2 ^ 128.
Proof.
  destruct x as [x0 x1], y as [y0 y1]. unfold dtrace_add_128. w128. intros Hx Hy.
  destruct (Z.ltb_spec (u64 (x0 + y0)) x0); destruct (Z.ltb_spec (u64 (x0 + y0)) y0);
    simpl; unfold u64 in *; lia.
Qed.

Lemma subtract_128_spec x y :
  wf128 x -> wf128 y ->
  wf128 (dt_subtract_128 x y) /\
  val128 (dt_subtract_128 x y) = (val128 x - val128 y) mod 2 ^ 128.
Proof.
  destruct x as [x0 x1], y as [y0 y1]. unfold dt_subtract_128. w128. intros Hx Hy.
  destruct (Z.ltb_spec x0 y0); unfold u64; lia.
Qed.

Lemma ge_128_spec a b : wf128 a -> wf128 b -> dt_ge_128 a b = (val128 b <=? val128 a).
Proof. destruct a, b. unfold dt_ge_128. w128. intros. zcase; simpl; lia || done. Qed.

Lemma le_128_spec a b : wf128 a -> wf128 b -> dt_le_128 a b = (val128 a <=? val128 b).
Proof. destruct a, b. unfold dt_le_128. w128. intros. zcase; simpl; lia || done. Qed.

Lemma gt_128_spec a b : wf128 a -> wf128 b -> dt_gt_128 a b = (val128 b <? val128 a).
Proof. destruct a, b. unfold dt_gt_128. w128. intros. zcase; simpl; lia || done. Qed.

(** The two complementary powers of a shift inside a 64-bit word. *)
Lemma pow2_split b : 0 <= b <= 64 -> 2 ^ b * 2 ^ (64 - b) = 2 ^ 64.
Proof. intros. rewrite <- Z.pow_add_r by lia. f_equal. lia. Qed.

Lemma mul_mod_pow2 a p q : 0 < p -> 0 < q -> (a * p) mod (p * q) = p * (a mod q).
Proof. intros. rewrite (Z.mul_comm a p). apply Z.mul_mod_distr_l; lia. Qed.

Lemma u64_mod x : u64 x = x mod 2 ^ 64.
Proof. reflexivity. Qed.

Lemma shift_128_left a b :
  wf128 a -> 0 <= b < 128 ->
  wf128 (dtrace_shift_128 a b) /\
  val128 (dtrace_shift_128 a b) = (val128 a * 2 ^ b) mod 2 ^ 128.
Proof.
  destruct a as [a0 a1]. intros [H0 H1] Hb. unfold dtrace_shift_128.
  destruct (Z.eqb_spec b 0) as [->|Hnz].
  { w128. rewrite Z.mod_small; lia. }
  destruct (Z.ltb_spec b 0); [lia|]. destruct (Z.leb_spec 64 b) as [Hge|Hlt].
  - set (c := b - 64). replace b with (64 + c) by lia.
    rewrite Z.shiftl_mul_pow2 by lia. w128.
    assert (0 < 2 ^ c) by (apply Z.pow_pos_nonneg; lia).
    rewrite Z.pow_add_r, u64_mod by lia.
    split; [lia|].
    replace (2 ^ 128) with (2 ^ 64 * 2 ^ 64) by reflexivity.
    rewrite Z.add_0_l, (Z.mul_comm _ (2^64)), <- Z.mul_mod_distr_l by lia.
    replace ((a0 + a1 * 2 ^ 64) * (2 ^ 64 * 2 ^ c))
      with (2 ^ 64 * (a0 * 2 ^ c) + (a1 * 2 ^ c) * (2 ^ 64 * 2 ^ 64)) by lia.
    by rewrite Z.mod_add by lia.
  - pose proof (pow2_split b ltac:(lia)) as Hpq.
    rewrite !Z.shiftl_mul_pow2, Z.shiftr_div_pow2, !u64_mod by lia.
    assert (Hp : 0 < 2 ^ b) by (apply Z.pow_pos_nonneg; lia).
    assert (Hq : 0 < 2 ^ (64 - b)) by (apply Z.pow_pos_nonneg; lia).
    rewrite <- Hpq, !mul_mod_pow2 by lia. w128.
    set (p := 2 ^ b) in *. set (q := 2 ^ (64 - b)) in *.
    pose proof (Z.mod_pos_bound a0 q Hq). pose proof (Z.mod_pos_bound a1 q Hq).
    assert (0 <= a0 / q < p).
    { split; [apply Z.div_pos; lia|]. apply Z.div_lt_upper_bound; lia. }
    replace (Z.lor (p * (a1 mod q)) (a0 / q)) with (a0 / q + (a1 mod q) * p).
    2:{ rewrite Z.lor_comm, (Z.mul_comm p). unfold p. by rewrite lor_low_mul by lia. }
    pose proof (Z.div_mod a0 q). pose proof (Z.div_mod a1 q).
    assert (a0 mod q * p <= (q - 1) * p) by nia.
    assert (a1 mod q * p <= (q - 1) * p) by nia.
    split; [nia|].
    apply Z.mod_unique with (q := a1 / q); [left; nia|].
    change (2 ^ 128) with (2 ^ 64 * 2 ^ 64). rewrite <- Hpq. nia.
Qed.

(** A right shift of [b] bits, as the words come out. *)
Lemma shift_128_right_words a0 a1 b :
  is_u64 a0 -> is_u64 a1 -> 0 < b < 64 ->
  dtrace_shift_128 (a0, a1) (- b) =
    (a0 / 2 ^ b + (2 ^ (64 - b) * (a1 mod 2 ^ Z.min b (64 - b))), a1 / 2 ^ b).
Proof.
  intros H0 H1 Hb. unfold dtrace_shift_128.
  destruct (Z.eqb_spec (- b) 0); [lia|]. destruct (Z.ltb_spec (- b) 0); [|lia].
  rewrite Z.opp_involutive. destruct (Z.leb_spec 64 b); [lia|]. simpl fst. simpl snd.
  pose proof (pow2_split b ltac:(lia)) as Hpq.
  assert (Hp : 0 < 2 ^ b) by (apply Z.pow_pos_nonneg; lia).
  assert (Hq : 1 < 2 ^ (64 - b)) by (apply Z.pow_gt_1; lia).
  assert (Hq' : 2 ^ (64 - b) < 2 ^ 64) by (apply Z.pow_lt_mono_r; lia).
  rewrite !Z.shiftl_mul_pow2, !Z.shiftr_div_pow2, Z.mul_1_l by lia.
  rewrite (u64_id (2 ^ (64 - b))), (u64_id (2 ^ (64 - b) - 1)) by (unfold is_u; lia).
  rewrite land_ones_low by lia. f_equal.
  rewrite u64_mod, <- Hpq, Z.mul_comm, (Z.mul_comm (2 ^ b)), Z.mul_mod_distr_l by lia.
  replace ((a1 mod 2 ^ (64 - b)) mod 2 ^ b) with (a1 mod 2 ^ Z.min b (64 - b)).
  - rewrite (Z.mul_comm (2 ^ (64 - b))), lor_low_mul; [done|lia|].
    unfold is_u in *. split; [apply Z.div_pos; lia|].
    apply Z.div_lt_upper_bound; lia.
  - destruct (Z.min_spec b (64 - b)) as [[? ->]|[? ->]].
    + symmetry. apply Z.mod_mod_divide.
      exists (2 ^ (64 - b - b)). rewrite <- Z.pow_add_r by lia. f_equal; lia.
    + symmetry. apply Z.mod_small. pose proof (Z.mod_pos_bound a1 (2 ^ (64 - b))).
      assert (2 ^ (64 - b) <= 2 ^ b) by (apply Z.pow_le_mono_r; lia). lia.
Qed.

Lemma shift_128_right_wf a b : wf128 a -> 0 <= b < 128 -> wf128 (dtrace_shift_128 a (- b)).
Proof.
  destruct a as [a0 a1]. intros [H0 H1] Hb.
  destruct (Z.eq_dec b 0) as [->|]; [done|].
  destruct (Z.lt_ge_cases b 64).
  - rewrite shift_128_right_words by (done || lia). w128.
    pose proof (pow2_split b ltac:(lia)) as Hpq.
    assert (Hp : 0 < 2 ^ b) by (apply Z.pow_pos_nonneg; lia).
    assert (Hq : 0 < 2 ^ (64 - b)) by (apply Z.pow_pos_nonneg; lia).
    assert (0 < 2 ^ Z.min b (64 - b) <= 2 ^ b).
    { split; [apply Z.pow_pos_nonneg; lia|apply Z.pow_le_mono_r; lia]. }
    pose proof (Z.mod_pos_bound a1 (2 ^ Z.min b (64 - b))).
    assert (0 <= a0 / 2 ^ b < 2 ^ (64 - b)).
    { split; [apply Z.div_pos; lia|]. apply Z.div_lt_upper_bound; lia. }
    assert (0 <= a1 / 2 ^ b <= a1).
    { split; [apply Z.div_pos; lia|]. apply Z.div_le_upper_bound; nia. }
    split; [|lia]. nia.
  - unfold dtrace_shift_128. destruct (Z.eqb_spec (- b) 0); [lia|].
    destruct (Z.ltb_spec (- b) 0); [|lia]. rewrite Z.opp_involutive.
    destruct (Z.leb_spec 64 b); [|lia]. w128. rewrite Z.shiftr_div_pow2 by lia.
    assert (0 < 2 ^ (b - 64)) by (apply Z.pow_pos_nonneg; lia).
    split; [|lia]. split; [apply Z.div_pos; lia|].
    enough (a1 / 2 ^ (b - 64) <= a1) by lia. apply Z.div_le_upper_bound; nia.
Qed.

Lemma shift_128_right a b :
  wf128 a -> 0 <= b <= 32 \/ 64 <= b < 128 ->
  val128 (dtrace_shift_128 a (- b)) = val128 a / 2 ^ b.
Proof.
  destruct a as [a0 a1]. intros [H0 H1] Hb.
  destruct (Z.eq_dec b 0) as [->|].
  { w128. rewrite Z.div_1_r. done. }
  destruct Hb as [Hb|Hb].
  - rewrite shift_128_right_words, Z.min_l by (done || lia). w128.
    pose proof (pow2_split b ltac:(lia)) as Hpq.
    assert (Hp : 0 < 2 ^ b) by (apply Z.pow_pos_nonneg; lia).
    pose proof (Z.mod_pos_bound a0 (2 ^ b) Hp).
    apply Z.div_unique with (r := a0 mod 2 ^ b); [left; lia|].
    pose proof (Z.div_mod a0 (2 ^ b)). pose proof (Z.div_mod a1 (2 ^ b)).
    rewrite <- Hpq. nia.
  - unfold dtrace_shift_128. destruct (Z.eqb_spec (- b) 0); [lia|].
    destruct (Z.ltb_spec (- b) 0); [|lia]. rewrite Z.opp_involutive.
    destruct (Z.leb_spec 64 b); [|lia]. w128. rewrite Z.shiftr_div_pow2 by lia.
    assert (0 < 2 ^ (b - 64)) by (apply Z.pow_pos_nonneg; lia).
    replace b with (64 + (b - 64)) at 2 by lia. rewrite Z.pow_add_r by lia.
    rewrite <- Z.div_div by lia. by rewrite Z.div_add, (Z.div_small a0), Z.mul_0_l, Z.add_0_l, Z.add_0_r by lia.
Qed.

Lemma multiply_128_spec f1 f2 :
  is_u64 f1 -> is_u64 f2 ->
  wf128 (dtrace_multiply_128 f1 f2) /\ val128 (dtrace_multiply_128 f1 f2) = f1 * f2.
Proof.
  intros H1 H2. unfold dtrace_multiply_128, DT_MASK_LO.
  change 0x00000000FFFFFFFF with (2 ^ 32 - 1).
  rewrite !land_ones_low, !Z.shiftr_div_pow2 by lia.
  unfold is_u in *.
  set (h1 := f1 / 2 ^ 32). set (h2 := f2 / 2 ^ 32).
  set (l1 := f1 mod 2 ^ 32). set (l2 := f2 mod 2 ^ 32).
  assert (E1 : f1 = h1 * 2 ^ 32 + l1) by (unfold h1, l1; lia).
  assert (E2 : f2 = h2 * 2 ^ 32 + l2) by (unfold h2, l2; lia).
  assert (0 <= h1 < 2 ^ 32) by (unfold h1; lia). assert (0 <= h2 < 2 ^ 32) by (unfold h2; lia).
  assert (0 <= l1 < 2 ^ 32) by (unfold l1; lia). assert (0 <= l2 < 2 ^ 32) by (unfold l2; lia).
  clearbody h1 h2 l1 l2.
  assert (B : forall x y, 0 <= x < 2 ^ 32 -> 0 <= y < 2 ^ 32 -> 0 <= x * y <= (2^32 - 1) * (2^32 - 1)) by nia.
  pose proof (B l1 l2 ltac:(lia) ltac:(lia)). pose proof (B h1 h2 ltac:(lia) ltac:(lia)).
  pose proof (B h1 l2 ltac:(lia) ltac:(lia)). pose proof (B h2 l1 ltac:(lia) ltac:(lia)). clear B.
  rewrite !u64_id by (unfold is_u; lia).
  destruct (shift_128_left (h1 * l2, 0) 32) as [W1 V1]; [w128; lia|lia|].
  destruct (shift_128_left (h2 * l1, 0) 32) as [W2 V2]; [w128; lia|lia|].
  assert (W0 : wf128 (l1 * l2, h1 * h2)) by (w128; lia).
  destruct (add_128_spec _ _ W0 W1) as [W3 V3].
  destruct (add_128_spec _ _ W3 W2) as [W4 V4].
  split; [done|]. rewrite V4, V3, V1, V2. unfold val128; simpl fst; simpl snd.
  replace (f1 * f2) with (l1 * l2 + (h1 * h2) * 2 ^ 64 + (h1 * l2) * 2 ^ 32 + (h2 * l1) * 2 ^ 32)
    by (rewrite E1, E2; ring). clear -H H0 H3 H4 H5 H6 H7 H8. lia.
Qed.

Lemma shift_128_right_1 a :
  wf128 a -> wf128 (dt_shift_128 a (-1)) /\ val128 (dt_shift_128 a (-1)) = val128 a / 2.
Proof.
  intros H. split; [by apply (shift_128_right_wf a 1)|]. by apply (shift_128_right a 1); [|lia].
Qed.

Lemma zero_wf : wf128 (0, 0).
Proof. w128. lia. Qed.

Lemma nbits_128_spec a : wf128 a -> dt_nbits_128 a = Some (Z.log2 (val128 a)).
Proof.
  intros Ha. pose proof (val128_range a Ha) as Hr. unfold dt_nbits_128.
  edestruct (zloop_total
    (fun '(tmp, n) => wf128 tmp /\ 0 <= n /\ val128 tmp = val128 a / 2 ^ (n + 1) /\
                      (n = 0 \/ 2 ^ n <= val128 a))
    (fun '(tmp, n) => 128 - n) (fun r => r = Z.log2 (val128 a)))
    as (r & -> & ->); [| | |done].
  - intros [tmp n] (Hw & Hn & Hv & Hlow). split.
    { destruct Hlow as [->|Hlow]; [lia|].
      assert (2 ^ n < 2 ^ 128) as ?%Z.pow_lt_mono_r_iff by lia; lia. }
    rewrite gt_128_spec by (done || apply zero_wf). change (val128 (0, 0)) with 0.
    pose proof (pow2_pos n Hn). pose proof (pow2_succ n Hn).
    destruct (Z.ltb_spec 0 (val128 tmp)).
    + destruct (shift_128_right_1 tmp Hw) as [Hw' Hv']. split; [|lia].
      split; [done|]. split; [lia|]. split.
      * rewrite Hv', Hv, Z.div_div, (pow2_succ (n + 1)) by lia. f_equal. lia.
      * right. rewrite Hv in H1.
        destruct (Z.lt_ge_cases (val128 a) (2 ^ (n + 1))); [|lia].
        rewrite Z.div_small in H1; lia.
    + assert (val128 a < 2 ^ (n + 1)).
      { apply div_zero_lt; lia. }
      destruct Hlow as [->|Hlow]; [|symmetry; apply Z.log2_unique; rewrite ?Z.pow_succ_r; lia].
      assert (val128 a = 0 \/ val128 a = 1) as [->| ->] by (simpl in *; lia); done.
  - destruct (shift_128_right_1 a Ha). split_and!; [done|lia|done|by left].
  - lia.
Qed.

Lemma divide_log_spec d :
  0 < d < 2 ^ 64 -> dt_divide_log d = Some (Z.log2 d + 1).
Proof.
  intros Hd. unfold dt_divide_log.
  edestruct (zloop_total
    (fun '(d', n) => 0 <= n /\ d' = d / 2 ^ n /\ (n = 0 \/ 2 ^ (n - 1) <= d))
    (fun '(d', n) => 64 - n) (fun r => r = Z.log2 d + 1))
    as (r & -> & ->); [| | |done].
  - intros [d' n] (Hn & -> & Hlow). split.
    { destruct Hlow as [->|Hlow]; [lia|].
      destruct (Z.lt_ge_cases 0 n); [|lia].
      assert (2 ^ (n - 1) < 2 ^ 64) as ?%Z.pow_lt_mono_r_iff by lia; lia. }
    pose proof (pow2_pos n Hn).
    destruct (Z.ltb_spec 0 (d / 2 ^ n)).
    + split; [|lia]. split; [lia|]. split.
      * rewrite Z.shiftr_div_pow2, Z.div_div, Z.pow_add_r by lia. done.
      * right. replace (n + 1 - 1) with n by lia.
        destruct (Z.lt_ge_cases d (2 ^ n)); [|lia]. rewrite Z.div_small in H0; lia.
    + assert (d < 2 ^ n).
      { apply div_zero_lt; lia. }
      destruct Hlow as [->|Hlow]; [simpl in *; lia|].
      destruct (Z.eq_dec n 0) as [->|]; [simpl in *; lia|].
      enough (Z.log2 d = n - 1) by lia. apply Z.log2_unique; [lia|].
      replace (Z.succ (n - 1)) with n by lia. lia.
  - split; [lia|]. rewrite Z.div_1_r. split; [done|by left].
  - lia.
Qed.

Lemma val128_lor a b :
  wf128 a -> wf128 b ->
  wf128 (Z.lor a.1 b.1, Z.lor a.2 b.2) /\
  val128 (Z.lor a.1 b.1, Z.lor a.2 b.2) = Z.lor (val128 a) (val128 b).
Proof.
  destruct a as [a0 a1], b as [b0 b1]. unfold wf128. simpl. intros [??] [??].
  assert (Hlor : forall x y, is_u64 x -> is_u64 y -> is_u64 (Z.lor x y)).
  { clear. unfold is_u. intros x y Hx Hy. split; [apply Z.lor_nonneg; lia|].
    destruct (Z.eq_dec (Z.lor x y) 0) as [->|]; [lia|].
    assert (0 <= Z.lor x y) by (apply Z.lor_nonneg; lia).
    apply Z.log2_lt_pow2; [lia|]. rewrite Z.log2_lor by lia.
    assert (forall z, 0 <= z < 2 ^ 64 -> Z.log2 z < 64) as Hl.
    { intros z Hz. destruct (Z.eq_dec z 0) as [->|]; [done|]. apply Z.log2_lt_pow2; lia. }
    pose proof (Hl x Hx). pose proof (Hl y Hy). lia. }
  split; [auto|].
  assert (Hv : forall x y, is_u64 x -> val128 (x, y) = Z.lor x (Z.shiftl y 64)).
  { intros x y ?. rewrite lor_low_high by (unfold is_u in *; lia). done. }
  rewrite !Hv by auto. rewrite Z.shiftl_lor. apply Z.bits_inj'. intros i _.
  rewrite !Z.lor_spec. by repeat destruct (Z.testbit _ i).
Qed.

(** Invariant of the long division: [k] is the position of the mask. *)
Definition div_inv (N d k : Z) (st : w128 * w128 * w128 * w128) : Prop :=
  let '(remainder, subtrahend, mask, result) := st in
  wf128 remainder /\ wf128 subtrahend /\ wf128 mask /\ wf128 result /\ -1 <= k /\
  val128 remainder + val128 result * d = N /\ val128 remainder < d * 2 ^ (k + 1) /\
  (exists m, val128 result = m * 2 ^ (k + 1)) /\
  (0 <= k -> val128 subtrahend = d * 2 ^ k /\ val128 mask = 2 ^ k).

Lemma div_shift_down d k x :
  wf128 x -> 0 < k -> val128 x = d * 2 ^ k -> val128 (dt_shift_128 x (-1)) = d * 2 ^ (k - 1).
Proof.
  intros Hw Hk Hx. destruct (shift_128_right_1 x Hw) as [_ ->]. rewrite Hx.
  replace k with (k - 1 + 1) at 1 by lia. rewrite pow2_succ by lia.
  replace (d * (2 * 2 ^ (k - 1))) with (d * 2 ^ (k - 1) * 2) by ring.
  by rewrite Z.div_mul by lia.
Qed.

Lemma div_step N d k rem sub mask res :
  0 < d -> div_inv N d k (rem, sub, mask, res) -> d <= val128 rem ->
  div_inv N d (k - 1)
    (let '(rem, res) :=
       if dt_ge_128 rem sub then
         (dt_subtract_128 rem sub, (Z.lor res.1 mask.1, Z.lor res.2 mask.2))
       else (rem, res) in
     (rem, dt_shift_128 sub (-1), dt_shift_128 mask (-1), res)).
Proof.
  intros Hd (Hr & Hs & Hm & Hq & Hk & HN & Hlt & [m Hres] & Hpos) Hge.
  assert (0 <= k) as Hk0.
  { destruct (Z.eq_dec k (-1)) as [->|]; [|lia]. simpl in Hlt. lia. }
  destruct (Hpos Hk0) as [Hsub Hmask]. rewrite ge_128_spec by done.
  destruct (shift_128_right_1 sub Hs) as [Hs' _]. destruct (shift_128_right_1 mask Hm) as [Hm' _].
  pose proof (pow2_succ k Hk0) as Hp. pose proof (pow2_pos k Hk0) as Hp0.
  assert (Hnext : 0 <= k - 1 -> val128 (dt_shift_128 sub (-1)) = d * 2 ^ (k - 1) /\
                                val128 (dt_shift_128 mask (-1)) = 2 ^ (k - 1)).
  { intros. split; [apply div_shift_down; (done || lia)|].
    rewrite (div_shift_down 1 k); (done || lia). }
  pose proof (val128_range rem Hr). pose proof (val128_range sub Hs).
  unfold div_inv. replace (k - 1 + 1) with k by lia.
  destruct (Z.leb_spec (val128 sub) (val128 rem)) as [Hle|Hgt].
  - destruct (subtract_128_spec rem sub Hr Hs) as [Hrw Hrv].
    destruct (val128_lor res mask Hq Hm) as [Hqw Hqv].
    rewrite Z.mod_small in Hrv by lia.
    assert (val128 (Z.lor res.1 mask.1, Z.lor res.2 mask.2) = val128 res + 2 ^ k) as Hv.
    { rewrite Hqv, Hmask, Hres, Z.lor_comm, lor_low_mul by lia. lia. }
    split_and!; try done; try lia; try nia.
    exists (2 * m + 1). rewrite Hv, Hres, Hp. ring.
  - split_and!; try done; try lia. exists (2 * m). rewrite Hres, Hp. ring.
Qed.

Lemma divide_loop_spec d rem sub mask k :
  0 < d < 2 ^ 64 -> k <= 127 -> div_inv (val128 rem) d k (rem, sub, mask, (0, 0)) ->
  exists q, dt_divide_loop (d, 0) rem sub mask = Some q /\ wf128 q /\
            val128 q = val128 rem / d.
Proof.
  intros Hd Hk Hinv. unfold dt_divide_loop.
  assert (Hdw : wf128 (d, 0)) by (w128; lia).
  assert (Hdv : val128 (d, 0) = d) by (w128; lia).
  set (N := val128 rem) in *. clearbody N.
  apply (zloop_down (fun k st => div_inv N d (k - 1) st)) with (k := k + 1); [| |lia].
  - clear k Hk Hinv. intros k [[[rem' sub'] mask'] res] Hinv.
    pose proof Hinv as (Hr & Hs & Hm & Hq & Hk & HN & Hlt & _). split; [lia|].
    rewrite ge_128_spec, Hdv by done.
    destruct (Z.leb_spec d (val128 rem')).
    + pose proof (div_step N d (k - 1) rem' sub' mask' res ltac:(lia) Hinv ltac:(lia)) as Hs'.
      by destruct (dt_ge_128 rem' sub').
    + split; [done|]. pose proof (val128_range rem' Hr).
      apply Z.div_unique with (r := val128 rem'); lia.
  - by replace (k + 1 - 1) with k by lia.
Qed.

Lemma divide_128_spec a d :
  wf128 a -> 0 < d < 2 ^ 64 ->
  exists q, dt_divide_128 a d = Some q /\ wf128 q /\ val128 q = val128 a / d.
Proof.
  intros Ha Hd. unfold dt_divide_128. destruct (Z.eqb_spec d 0); [lia|].
  rewrite divide_log_spec by lia.
  pose proof (Z.log2_nonneg d). assert (Z.log2 d < 64) by (apply Z.log2_lt_pow2; lia).
  pose proof (Z.log2_spec d ltac:(lia)) as [Hl1 Hl2].
  set (k := 128 - (Z.log2 d + 1)).
  assert (H1w : wf128 (1, 0)) by (w128; lia). assert (Hdw : wf128 (d, 0)) by (w128; lia).
  destruct (shift_128_left (d, 0) k Hdw ltac:(lia)) as [Hsw Hsv].
  destruct (shift_128_left (1, 0) k H1w ltac:(lia)) as [Hmw Hmv].
  assert (Hp : 2 ^ Z.succ (Z.log2 d) * 2 ^ k = 2 ^ 128).
  { rewrite <- Z.pow_add_r by lia. f_equal. lia. }
  pose proof (pow2_pos k ltac:(lia)) as Hk0.
  replace (val128 (d, 0)) with d in Hsv by (w128; lia).
  replace (val128 (1, 0)) with 1 in Hmv by (w128; lia).
  rewrite Z.mod_small in Hsv by nia.
  assert (2 ^ k < 2 ^ 128) by (apply Z.pow_lt_mono_r; lia).
  rewrite Z.mod_small in Hmv by lia.
  apply (divide_loop_spec d a _ _ k); [lia|lia|].
  unfold div_inv. pose proof (val128_range a Ha) as Hr. rewrite Z.pow_succ_r in Hl2, Hp by lia.
  split_and!; try done; try apply zero_wf; try lia.
  - change (val128 (0, 0)) with 0. lia.
  - rewrite pow2_succ by lia. nia.
  - by exists 0.
  - intros _. unfold dt_shift_128. rewrite Hsv, Hmv. lia.
Qed.

Lemma val128_mod4 a : val128 a mod 4 = a.1 mod 4.
Proof.
  unfold val128. change (2 ^ 64) with (2 ^ 62 * 4). by rewrite Z.mul_assoc, Z.mod_add.
Qed.

(** The pair of bits brought down is the right one, although a right shift by
    33 to 63 bits loses higher bits (see [shift_128_right_words]). *)
Lemma next_pair_spec a s :
  wf128 a -> 0 <= s <= 62 \/ 64 <= s < 128 ->
  Z.land (dt_shift_128 a (- s)).1 0x3 = (val128 a / 2 ^ s) mod 4.
Proof.
  intros Ha Hs. change 3 with (2 ^ 2 - 1). rewrite land_ones_low by lia. change (2 ^ 2) with 4.
  destruct (decide (32 < s < 64)) as [Hmid|].
  2:{ rewrite <- shift_128_right by (done || lia). by rewrite val128_mod4. }
  destruct a as [a0 a1]. destruct Ha as [H0 H1].
  unfold dt_shift_128. rewrite shift_128_right_words by (done || lia). simpl fst.
  pose proof (pow2_pos s ltac:(lia)). pose proof (pow2_split s ltac:(lia)) as Hpq.
  replace (val128 (a0, a1)) with (a0 + (a1 * 2 ^ (64 - s)) * 2 ^ s)
    by (unfold val128; simpl fst; simpl snd; rewrite <- Hpq; ring).
  rewrite Z.div_add by lia.
  replace (64 - s) with (2 + (62 - s)) by lia. rewrite (Z.pow_add_r 2 2) by lia.
  change (2 ^ 2) with 4. generalize (a0 / 2 ^ s), (2 ^ (62 - s)), (a1 mod 2 ^ Z.min s (2 + (62 - s))).
  intros x y z. replace (x + 4 * y * z) with (x + y * z * 4) by ring.
  replace (x + a1 * (4 * y)) with (x + (a1 * y) * 4) by ring. by rewrite !Z.mod_add by lia.
Qed.

(** Invariant of the long-hand square root: [result] is the root of the prefix
    of [v] above bit [s], [diff] what remains of that prefix. *)
Definition sqrt_inv (v s : Z) (st : w128 * w128 * Z) : Prop :=
  let '(result, diff, pair_shift) := st in
  let P := v / 2 ^ (s + 2) in
  pair_shift = s /\ wf128 result /\ wf128 diff /\
  val128 result = Z.sqrt P /\ val128 diff = P - Z.sqrt P * Z.sqrt P.

Lemma sqrt_refine P R c :
  0 <= P -> R = Z.sqrt P -> 0 <= c < 4 ->
  Z.sqrt (4 * P + c) = if 4 * R + 1 <=? 4 * (P - R * R) + c then 2 * R + 1 else 2 * R.
Proof.
  intros HP -> Hc. pose proof (Z.sqrt_spec P HP) as [H1 H2]. pose proof (Z.sqrt_nonneg P).
  destruct (Z.leb_spec (4 * Z.sqrt P + 1) (4 * (P - Z.sqrt P * Z.sqrt P) + c));
    apply Z.sqrt_unique; nia.
Qed.

Lemma sqrt_step square s st :
  wf128 square -> 0 <= s <= 62 \/ 64 <= s < 128 -> sqrt_inv (val128 square) s st ->
  sqrt_inv (val128 square) (s - 2) (dt_sqrt_step square st).
Proof.
  intros Hsq Hs. destruct st as [[R D] ps]. intros (-> & HR & HD & HRv & HDv).
  pose proof (val128_range square Hsq) as Hv. set (v := val128 square) in *.
  unfold dt_sqrt_step. rewrite next_pair_spec by done. fold v.
  set (P := v / 2 ^ (s + 2)) in *. pose proof (pow2_pos s ltac:(lia)).
  pose proof (pow2_pos (s + 2) ltac:(lia)).
  set (c := (v / 2 ^ s) mod 4). assert (Hc : 0 <= c < 4) by (unfold c; lia).
  assert (HP' : v / 2 ^ s = 4 * P + c).
  { unfold P, c. rewrite Z.pow_add_r by lia. rewrite <- Z.div_div by lia. change (2 ^ 2) with 4. lia. }
  assert (HP0 : 0 <= P) by (apply Z.div_pos; lia).
  assert (HPb : P < 2 ^ 126).
  { apply Z.div_lt_upper_bound; [lia|]. rewrite Z.pow_add_r by lia. nia. }
  pose proof (Z.sqrt_spec P HP0) as [HS1 HS2]. pose proof (Z.sqrt_nonneg P) as HS0.
  assert (HSb : Z.sqrt P < 2 ^ 63) by (change (2^126) with (2^63 * 2^63) in HPb; nia).
  assert (H1w : wf128 (1, 0)) by (w128; lia). assert (Hcw : wf128 (c, 0)) by (w128; lia).
  assert (H1v : val128 (1, 0) = 1) by done. assert (Hcv : val128 (c, 0) = c) by (w128; lia).
  unfold dt_shift_128, dt_add_128.
  destruct (shift_128_left D 2 HD ltac:(lia)) as [HD2 HD2v].
  destruct (add_128_spec _ _ HD2 Hcw) as [HD3 HD3v].
  destruct (shift_128_left R 2 HR ltac:(lia)) as [HT HTv].
  destruct (add_128_spec _ _ HT H1w) as [HT2 HT2v].
  destruct (shift_128_left R 1 HR ltac:(lia)) as [HR2 HR2v].
  destruct (add_128_spec _ _ HR2 H1w) as [HR3 HR3v].
  destruct (subtract_128_spec _ _ HD3 HT2) as [HD4 HD4v].
  rewrite H1v in *. rewrite Hcv in *. change (2 ^ 2) with 4 in *. change (2 ^ 1) with 2 in *.
  rewrite HRv, HDv in *.
  rewrite HD2v, Z.mod_small in HD3v by lia. rewrite Z.mod_small in HD3v by lia.
  rewrite HTv, Z.mod_small in HT2v by lia. rewrite Z.mod_small in HT2v by lia.
  rewrite Z.mod_small in HR2v by lia. rewrite HR2v, Z.mod_small in HR3v by lia.
  rewrite le_128_spec, HD3v, HT2v by done. unfold sqrt_inv.
  replace (s - 2 + 2) with s by lia. rewrite HP', (sqrt_refine P (Z.sqrt P) c) by (done || lia).
  replace (4 * Z.sqrt P + 1) with (Z.sqrt P * 4 + 1) by lia.
  replace (4 * (P - Z.sqrt P * Z.sqrt P) + c) with ((P - Z.sqrt P * Z.sqrt P) * 4 + c) by lia.
  destruct (Z.leb_spec (Z.sqrt P * 4 + 1) ((P - Z.sqrt P * Z.sqrt P) * 4 + c)).
  - rewrite HD3v, HT2v, Z.mod_small in HD4v by lia.
    split_and!; try done; lia.
  - split_and!; try done; lia.
Qed.

Lemma sqrt_128_spec a : wf128 a -> dt_sqrt_128 a = Some (Z.sqrt (val128 a)).
Proof.
  intros Ha. unfold dt_sqrt_128. rewrite nbits_128_spec by done.
  pose proof (val128_range a Ha) as Hv. set (v := val128 a) in *.
  set (bp := Z.log2 v / 2). pose proof (Z.log2_nonneg v).
  assert (Z.log2 v < 128) as Hl.
  { destruct (Z.eq_dec v 0) as [->|]; [done|]. apply Z.log2_lt_pow2; lia. }
  assert (Hvb : v < 2 ^ (bp * 2 + 2)).
  { destruct (Z.eq_dec v 0) as [->|]; [apply pow2_pos; lia|].
    pose proof (Z.log2_spec v ltac:(lia)).
    assert (2 ^ Z.succ (Z.log2 v) <= 2 ^ (bp * 2 + 2)) by (apply Z.pow_le_mono_r; lia). lia. }
  assert (Hinv : forall n, Z.of_nat n <= bp + 1 ->
     sqrt_inv v (bp * 2 - 2 * Z.of_nat n) (Nat.iter n (dt_sqrt_step a) ((0, 0), (0, 0), bp * 2))).
  { induction n as [|n IH]; intros Hn.
    - simpl Nat.iter. unfold sqrt_inv. replace (bp * 2 - 2 * Z.of_nat 0 + 2) with (bp * 2 + 2) by lia.
      rewrite Z.div_small by lia. split_and!; try apply zero_wf; (done || lia).
    - simpl Nat.iter. replace (bp * 2 - 2 * Z.of_nat (S n)) with (bp * 2 - 2 * Z.of_nat n - 2) by lia.
      apply sqrt_step; [done|lia|apply IH; lia]. }
  specialize (Hinv (Z.to_nat (bp + 1)) ltac:(lia)).
  replace (bp * 2 - 2 * Z.of_nat (Z.to_nat (bp + 1))) with (-2) in Hinv by lia.
  destruct (Nat.iter _ _ _) as [[r d] ps]. destruct Hinv as (_ & Hr & _ & Hrv & _).
  change (2 ^ (-2 + 2)) with 1 in Hrv. rewrite Z.div_1_r in Hrv.
  assert (val128 r < 2 ^ 64).
  { rewrite Hrv. apply Z.sqrt_lt_square; lia. }
  destruct r as [r0 r1]. w128. destruct (Z.eqb_spec r1 0); [f_equal; lia|lia].
Qed.

(** The mean of the squares is at least the square of the truncated mean. *)
Lemma square_of_avg_le S1 S2 n c :
  0 < n -> 0 < c -> S1 * S1 <= c * S2 ->
  Z.quot (Z.quot S1 n) c * Z.quot (Z.quot S1 n) c <= S2 / n / c.
Proof.
  intros Hn Hc HS. rewrite Z.div_div, Z.quot_quot by lia.
  assert (Hm : 0 < n * c) by (apply Z.mul_pos_pos; lia).
  apply Z.div_le_lower_bound; [done|]. set (q := Z.quot S1 (n * c)).
  assert (Hq : n * c * Z.abs q <= Z.abs S1).
  { assert (Z.abs q = Z.quot (Z.abs S1) (n * c)) as ->.
    { unfold q. rewrite <- Z.quot_abs, (Z.abs_eq (n * c)) by lia. done. }
    apply Z.mul_quot_le; lia. }
  assert (Hsq : (n * c * Z.abs q) * (n * c * Z.abs q) <= S1 * S1).
  { rewrite <- (Z.abs_square S1). apply Z.mul_le_mono_nonneg; lia. }
  replace (n * c * Z.abs q * (n * c * Z.abs q))
    with (c * (n * (n * c * (Z.abs q * Z.abs q)))) in Hsq by ring.
  rewrite Z.abs_square in Hsq.
  assert (n * (n * c * (q * q)) <= S2) by (apply (Z.mul_le_mono_pos_l _ _ c); lia).
  assert (0 <= n * c * (q * q)) by (apply Z.mul_nonneg_nonneg; [lia|apply Z.square_nonneg]).
  assert (1 * (n * c * (q * q)) <= n * (n * c * (q * q))) by (apply Z.mul_le_mono_nonneg_r; lia).
  lia.
Qed.

Lemma quot_range x m : - 2 ^ 63 <= x < 2 ^ 63 -> 0 < m -> - 2 ^ 63 <= Z.quot x m < 2 ^ 63.
Proof.
  intros Hx Hm.
  assert (Z.abs (Z.quot x m) <= Z.abs x).
  { rewrite <- Z.quot_abs, (Z.abs_eq m) by lia.
    apply Z.quot_le_upper_bound; [lia|]. rewrite <- (Z.mul_1_l (Z.abs x)) at 1.
    apply Z.mul_le_mono_nonneg_r; lia. }
  destruct (Z.le_gt_cases 0 x).
  - pose proof (Z.quot_pos x m ltac:(lia) Hm). lia.
  - pose proof (Z.quot_opp_l x m ltac:(lia)).
    pose proof (Z.quot_pos (- x) m ltac:(lia) Hm). lia.
Qed.

Lemma stddev_spec count sum squares normal :
  0 < count < 2 ^ 63 -> 0 < normal < 2 ^ 63 -> - 2 ^ 63 <= sum < 2 ^ 63 -> wf128 squares ->
  sum * sum <= count * val128 squares ->
  dt_stddev count (u64 sum) squares normal =
  Some (Z.sqrt (val128 squares / normal / count -
                Z.quot (Z.quot sum normal) count * Z.quot (Z.quot sum normal) count)).
Proof.
  intros Hc Hn Hs Hw HJ. unfold dt_stddev.
  destruct (divide_128_spec squares normal Hw ltac:(lia)) as (q1 & -> & Hw1 & Hv1).
  destruct (divide_128_spec q1 count Hw1 ltac:(lia)) as (q2 & -> & Hw2 & Hv2).
  rewrite u64_s64, !(s64_id sum), !(s64_id normal), !(s64_id count) by lia.
  set (q := Z.quot (Z.quot sum normal) count).
  pose proof (square_of_avg_le sum (val128 squares) normal count ltac:(lia) ltac:(lia) HJ) as Hle.
  fold q in Hle.
  assert (Hq : - 2 ^ 63 <= q < 2 ^ 63) by (apply quot_range; [apply quot_range|]; lia).
  clearbody q. rewrite (s64_id q) by lia.
  assert (u64 (if q <? 0 then s64 (- q) else q) = Z.abs q) as -> by (clear -Hq; word).
  destruct (multiply_128_spec (Z.abs q) (Z.abs q)) as [Hmw Hmv]; [unfold is_u; lia..|].
  destruct (subtract_128_spec q2 _ Hw2 Hmw) as [Hdw Hdv]. unfold dt_multiply_128.
  rewrite sqrt_128_spec by done. f_equal. f_equal. rewrite Hdv, Hmv, Hv2, Hv1.
  rewrite Z.abs_square. apply Z.mod_small.
  pose proof (val128_range q2 Hw2). pose proof (Z.square_nonneg q).
  rewrite Hv2, Hv1 in *. lia.
Qed.

(** * Properties *)

(** Dtrace_multiply_128() returns the exact 128-bit product of any two
    64-bit factors, in two well-formed words. *)
Theorem dtrace_multiply_128_exact f1 f2 :
  is_u64 f1 -> is_u64 f2 ->
  wf128 (dtrace_multiply_128 f1 f2) /\ val128 (dtrace_multiply_128 f1 f2) = f1 * f2.
Proof. apply multiply_128_spec. Qed.

Lemma dtrace_multiply_128_exact_witness :
  let m := 18446744073709551615 in
  is_u64 m /\ val128 (dtrace_multiply_128 m m) = m * m.
Proof.
  split; [unfold is_u; lia|].
  apply (dtrace_multiply_128_exact 18446744073709551615 18446744073709551615); unfold is_u; lia.
Defined.

(** Dtrace_shift_128() multiplies by 2^b modulo 2^128 for a left shift of
    0 to 127 bits, divides by 2^b for a right shift of up to 32 or of 64 to 127
    bits; a right shift of 33 to 63 bits instead keeps only the low 64 - b bits
    of the high word when it carries them into the low word. *)
Theorem dtrace_shift_128_behaviour a b :
  wf128 a -> 0 <= b < 128 ->
  val128 (dtrace_shift_128 a b) = (val128 a * 2 ^ b) mod 2 ^ 128 /\
  (if (32 <? b) && (b <? 64) then
     dtrace_shift_128 a (- b) =
       (a.1 / 2 ^ b + 2 ^ (64 - b) * (a.2 mod 2 ^ (64 - b)), a.2 / 2 ^ b)
   else val128 (dtrace_shift_128 a (- b)) = val128 a / 2 ^ b).
Proof.
  intros Ha Hb. split; [by apply shift_128_left|].
  destruct (Z.ltb_spec 32 b), (Z.ltb_spec b 64); simpl;
    try (apply shift_128_right; [done|lia]).
  destruct a as [a0 a1], Ha. rewrite shift_128_right_words by (done || lia).
  by rewrite Z.min_r by lia.
Qed.

Lemma dtrace_shift_128_behaviour_witness :
  val128 (dtrace_shift_128 (5, 7) 33) = ((5 + 7 * 2 ^ 64) * 2 ^ 33) mod 2 ^ 128 /\
  dtrace_shift_128 (5, 7) (- 33) = (7 * 2 ^ 31, 0).
Proof.
  split; [|reflexivity].
  refine (proj1 (dtrace_shift_128_behaviour (5, 7) 33 _ _)); [|lia].
  split; unfold is_u; simpl; lia.
Defined.

(** The right shift of the comment ("if b is negative, shift right") is not
    what a shift by 33 to 63 bits computes: a value whose only bit is bit
    128 - b is shifted to 0 instead of to 2^(128 - 2b). *)
Theorem dtrace_shift_128_right_drops_bits b :
  32 < b < 64 ->
  wf128 (0, 2 ^ (64 - b)) /\
  val128 (dtrace_shift_128 (0, 2 ^ (64 - b)) (- b)) = 0 /\
  val128 (0, 2 ^ (64 - b)) / 2 ^ b = 2 ^ (128 - 2 * b).
Proof.
  intros Hb. assert (Hw : is_u64 (2 ^ (64 - b))).
  { split; [apply Z.pow_nonneg; lia|apply Z.pow_lt_mono_r; lia]. }
  assert (Hz : is_u64 0) by (unfold is_u; lia).
  split; [done|]. split.
  - rewrite shift_128_right_words, Z.min_r, Z.mod_same by (done || lia || (apply Z.pow_nonzero; lia)).
    unfold val128. simpl fst. simpl snd. rewrite Z.div_0_l by (apply Z.pow_nonzero; lia).
    rewrite Z.div_small; [lia|]. unfold is_u in Hw. split; [lia|apply Z.pow_lt_mono_r; lia].
  - unfold val128. simpl fst. simpl snd. rewrite Z.add_0_l, <- Z.pow_add_r by lia.
    replace (64 - b + 64) with (128 - 2 * b + b) by lia.
    rewrite Z.pow_add_r by lia. apply Z.div_mul, Z.pow_nonzero; lia.
Qed.

Lemma dtrace_shift_128_right_drops_bits_witness :
  val128 (dtrace_shift_128 (0, 2 ^ 16) (- 48)) = 0 /\
  val128 (0, 2 ^ 16) / 2 ^ 48 = 2 ^ 32.
Proof. exact (proj2 (dtrace_shift_128_right_drops_bits 48 ltac:(lia))). Defined.

(** Dt_divide_128() terminates for every non-zero 64-bit divisor and
    returns the quotient of the 128-bit dividend, rounded down. *)
Theorem dt_divide_128_correct a d :
  wf128 a -> 0 < d < 2 ^ 64 ->
  exists q, dt_divide_128 a d = Some q /\ wf128 q /\ val128 q = val128 a / d.
Proof. apply divide_128_spec. Qed.

Lemma dt_divide_128_correct_witness :
  exists q, dt_divide_128 (17, 5) 12345 = Some q /\ wf128 q /\
            val128 q = val128 (17, 5) / 12345.
Proof. apply (dt_divide_128_correct (17, 5) 12345); [split; unfold is_u; simpl; lia|lia]. Defined.

(** Dt_sqrt_128() terminates, its final assertion holds, and it returns the
    integer square root of every 128-bit argument (although it relies on the
    right shift above for its bit pairs). *)
Theorem dt_sqrt_128_correct a : wf128 a -> dt_sqrt_128 a = Some (Z.sqrt (val128 a)).
Proof. apply sqrt_128_spec. Qed.

Lemma dt_sqrt_128_correct_witness : dt_sqrt_128 (17, 5) = Some 9603838834.
Proof. exact (dt_sqrt_128_correct (17, 5) ltac:(split; unfold is_u; simpl; lia)). Defined.


