(* ===== verification/Dif.v ===== *)
(** The DTrace Intermediate Format (uts/common/sys/dtrace.h): opcodes, the
    fields of an instruction word, types, variables and DIF objects, together
    with the per-consumer variable state of uts/common/sys/dtrace_impl.h that
    DIF programs refer to. *)
From S2P Require Import Prelude.

(** * Instruction words

    A [dif_instr_t] is a 32-bit word: opcode in the top byte. *)
Definition DIF_INSTR_OP (i : Z) : Z := Z.land (Z.shiftr i 24) 0xff.
Definition DIF_INSTR_R1 (i : Z) : Z := Z.land (Z.shiftr i 16) 0xff.
Definition DIF_INSTR_R2 (i : Z) : Z := Z.land (Z.shiftr i 8) 0xff.
Definition DIF_INSTR_RD (i : Z) : Z := Z.land i 0xff.
Definition DIF_INSTR_RS (i : Z) : Z := Z.land i 0xff.
Definition DIF_INSTR_LABEL (i : Z) : Z := Z.land i 0xffffff.
Definition DIF_INSTR_VAR (i : Z) : Z := Z.land (Z.shiftr i 8) 0xffff.
Definition DIF_INSTR_INTEGER (i : Z) : Z := Z.land (Z.shiftr i 8) 0xffff.
Definition DIF_INSTR_STRING (i : Z) : Z := Z.land (Z.shiftr i 8) 0xffff.
Definition DIF_INSTR_SUBR (i : Z) : Z := Z.land (Z.shiftr i 8) 0xffff.
Definition DIF_INSTR_TYPE (i : Z) : Z := Z.land (Z.shiftr i 16) 0xff.

Definition DIF_INSTR_FMT (op r1 r2 d : Z) : Z :=
  Z.lor (Z.lor (Z.lor (Z.shiftl op 24) (Z.shiftl r1 16)) (Z.shiftl r2 8)) d.
Definition DIF_INSTR_LOAD (op r1 d : Z) : Z := DIF_INSTR_FMT op r1 0 d.
Definition DIF_INSTR_BRANCH (op label : Z) : Z := Z.lor (Z.shiftl op 24) label.
Definition DIF_INSTR_RET (d : Z) : Z := DIF_INSTR_FMT 35 0 0 d.

(** The opcodes, in the numbering of the header. *)
Inductive dif_op : Set :=
  | DIF_OP_OR | DIF_OP_XOR | DIF_OP_AND | DIF_OP_SLL | DIF_OP_SRL
  | DIF_OP_SUB | DIF_OP_ADD | DIF_OP_MUL | DIF_OP_SDIV | DIF_OP_UDIV
  | DIF_OP_SREM | DIF_OP_UREM | DIF_OP_NOT | DIF_OP_MOV | DIF_OP_CMP
  | DIF_OP_TST | DIF_OP_BA | DIF_OP_BE | DIF_OP_BNE | DIF_OP_BG | DIF_OP_BGU
  | DIF_OP_BGE | DIF_OP_BGEU | DIF_OP_BL | DIF_OP_BLU | DIF_OP_BLE
  | DIF_OP_BLEU | DIF_OP_LDSB | DIF_OP_LDSH | DIF_OP_LDSW | DIF_OP_LDUB
  | DIF_OP_LDUH | DIF_OP_LDUW | DIF_OP_LDX | DIF_OP_RET | DIF_OP_NOP
  | DIF_OP_SETX | DIF_OP_SETS | DIF_OP_SCMP | DIF_OP_LDGA | DIF_OP_LDGS
  | DIF_OP_STGS | DIF_OP_LDTA | DIF_OP_LDTS | DIF_OP_STTS | DIF_OP_SRA
  | DIF_OP_CALL | DIF_OP_PUSHTR | DIF_OP_PUSHTV | DIF_OP_POPTS
  | DIF_OP_FLUSHTS | DIF_OP_LDGAA | DIF_OP_LDTAA | DIF_OP_STGAA
  | DIF_OP_STTAA | DIF_OP_LDLS | DIF_OP_STLS | DIF_OP_ALLOCS | DIF_OP_COPYS
  | DIF_OP_STB | DIF_OP_STH | DIF_OP_STW | DIF_OP_STX | DIF_OP_ULDSB
  | DIF_OP_ULDSH | DIF_OP_ULDSW | DIF_OP_ULDUB | DIF_OP_ULDUH | DIF_OP_ULDUW
  | DIF_OP_ULDX | DIF_OP_RLDSB | DIF_OP_RLDSH | DIF_OP_RLDSW | DIF_OP_RLDUB
  | DIF_OP_RLDUH | DIF_OP_RLDUW | DIF_OP_RLDX | DIF_OP_XLATE | DIF_OP_XLARG.

Definition dif_ops : list dif_op :=
  [ DIF_OP_OR; DIF_OP_XOR; DIF_OP_AND; DIF_OP_SLL; DIF_OP_SRL;
    DIF_OP_SUB; DIF_OP_ADD; DIF_OP_MUL; DIF_OP_SDIV; DIF_OP_UDIV;
    DIF_OP_SREM; DIF_OP_UREM; DIF_OP_NOT; DIF_OP_MOV; DIF_OP_CMP;
    DIF_OP_TST; DIF_OP_BA; DIF_OP_BE; DIF_OP_BNE; DIF_OP_BG; DIF_OP_BGU;
    DIF_OP_BGE; DIF_OP_BGEU; DIF_OP_BL; DIF_OP_BLU; DIF_OP_BLE;
    DIF_OP_BLEU; DIF_OP_LDSB; DIF_OP_LDSH; DIF_OP_LDSW; DIF_OP_LDUB;
    DIF_OP_LDUH; DIF_OP_LDUW; DIF_OP_LDX; DIF_OP_RET; DIF_OP_NOP;
    DIF_OP_SETX; DIF_OP_SETS; DIF_OP_SCMP; DIF_OP_LDGA; DIF_OP_LDGS;
    DIF_OP_STGS; DIF_OP_LDTA; DIF_OP_LDTS; DIF_OP_STTS; DIF_OP_SRA;
    DIF_OP_CALL; DIF_OP_PUSHTR; DIF_OP_PUSHTV; DIF_OP_POPTS;
    DIF_OP_FLUSHTS; DIF_OP_LDGAA; DIF_OP_LDTAA; DIF_OP_STGAA;
    DIF_OP_STTAA; DIF_OP_LDLS; DIF_OP_STLS; DIF_OP_ALLOCS; DIF_OP_COPYS;
    DIF_OP_STB; DIF_OP_STH; DIF_OP_STW; DIF_OP_STX; DIF_OP_ULDSB;
    DIF_OP_ULDSH; DIF_OP_ULDSW; DIF_OP_ULDUB; DIF_OP_ULDUH; DIF_OP_ULDUW;
    DIF_OP_ULDX; DIF_OP_RLDSB; DIF_OP_RLDSH; DIF_OP_RLDSW; DIF_OP_RLDUB;
    DIF_OP_RLDUH; DIF_OP_RLDUW; DIF_OP_RLDX; DIF_OP_XLATE; DIF_OP_XLARG ].

(** The opcode numbered [op]; [None] for 0 and for numbers above 79. *)
Definition op_of (op : Z) : option dif_op :=
  if (1 <=? op) && (op <=? 79) then dif_ops !! Z.to_nat (op - 1) else None.

(** The number of an opcode. *)
Definition op_num (o : dif_op) : Z :=
  match o with
  | DIF_OP_OR => 1 | DIF_OP_XOR => 2 | DIF_OP_AND => 3 | DIF_OP_SLL => 4
  | DIF_OP_SRL => 5 | DIF_OP_SUB => 6 | DIF_OP_ADD => 7 | DIF_OP_MUL => 8
  | DIF_OP_SDIV => 9 | DIF_OP_UDIV => 10 | DIF_OP_SREM => 11 | DIF_OP_UREM => 12
  | DIF_OP_NOT => 13 | DIF_OP_MOV => 14 | DIF_OP_CMP => 15 | DIF_OP_TST => 16
  | DIF_OP_BA => 17 | DIF_OP_BE => 18 | DIF_OP_BNE => 19 | DIF_OP_BG => 20
  | DIF_OP_BGU => 21 | DIF_OP_BGE => 22 | DIF_OP_BGEU => 23 | DIF_OP_BL => 24
  | DIF_OP_BLU => 25 | DIF_OP_BLE => 26 | DIF_OP_BLEU => 27 | DIF_OP_LDSB => 28
  | DIF_OP_LDSH => 29 | DIF_OP_LDSW => 30 | DIF_OP_LDUB => 31 | DIF_OP_LDUH => 32
  | DIF_OP_LDUW => 33 | DIF_OP_LDX => 34 | DIF_OP_RET => 35 | DIF_OP_NOP => 36
  | DIF_OP_SETX => 37 | DIF_OP_SETS => 38 | DIF_OP_SCMP => 39 | DIF_OP_LDGA => 40
  | DIF_OP_LDGS => 41 | DIF_OP_STGS => 42 | DIF_OP_LDTA => 43 | DIF_OP_LDTS => 44
  | DIF_OP_STTS => 45 | DIF_OP_SRA => 46 | DIF_OP_CALL => 47 | DIF_OP_PUSHTR => 48
  | DIF_OP_PUSHTV => 49 | DIF_OP_POPTS => 50 | DIF_OP_FLUSHTS => 51
  | DIF_OP_LDGAA => 52 | DIF_OP_LDTAA => 53 | DIF_OP_STGAA => 54 | DIF_OP_STTAA => 55
  | DIF_OP_LDLS => 56 | DIF_OP_STLS => 57 | DIF_OP_ALLOCS => 58 | DIF_OP_COPYS => 59
  | DIF_OP_STB => 60 | DIF_OP_STH => 61 | DIF_OP_STW => 62 | DIF_OP_STX => 63
  | DIF_OP_ULDSB => 64 | DIF_OP_ULDSH => 65 | DIF_OP_ULDSW => 66 | DIF_OP_ULDUB => 67
  | DIF_OP_ULDUH => 68 | DIF_OP_ULDUW => 69 | DIF_OP_ULDX => 70 | DIF_OP_RLDSB => 71
  | DIF_OP_RLDSH => 72 | DIF_OP_RLDSW => 73 | DIF_OP_RLDUB => 74 | DIF_OP_RLDUH => 75
  | DIF_OP_RLDUW => 76 | DIF_OP_RLDX => 77 | DIF_OP_XLATE => 78 | DIF_OP_XLARG => 79
  end.

Lemma op_of_num o : op_of (op_num o) = Some o.
Proof. by destruct o. Qed.

Lemma op_num_inj o o' : op_num o = op_num o' -> o = o'.
Proof. intros H. assert (Some o = Some o') by (rewrite <- !op_of_num; by rewrite H). congruence. Qed.

#[export] Instance dif_op_eq_dec : EqDecision dif_op.
Proof.
  refine (fun o o' => cast_if (decide (op_num o = op_num o'))); [by apply op_num_inj|congruence].
Defined.

Definition DIF_DIR_NREGS : Z := 8.
Definition DIF_DTR_NREGS : Z := 8.
Definition DIF_VAR_ARRAY_UBASE : Z := 0x0080.
Definition DIF_VAR_ARRAY_MAX : Z := 0x00ff.
Definition DIF_VAR_OTHER_MIN : Z := 0x0100.
Definition DIF_VAR_OTHER_UBASE : Z := 0x0500.
Definition DIF_VAR_OTHER_MAX : Z := 0xffff.
Definition DIF_VARIABLE_MAX : Z := 0xffff.
Definition DIF_VAR_CURTHREAD : Z := 0x0100.
Definition DIF_VAR_VTIMESTAMP : Z := 0x0102.
Definition DIF_VAR_ARG0 : Z := 0x0106.
Definition DIF_VAR_ARG9 : Z := 0x010f.
Definition DIF_VAR_PID : Z := 0x0116.
Definition DIF_VAR_TID : Z := 0x0117.
Definition DIF_VAR_EXECNAME : Z := 0x0118.
Definition DIF_VAR_ZONENAME : Z := 0x0119.
Definition DIF_VAR_PPID : Z := 0x011d.
Definition DIF_VAR_UID : Z := 0x011e.
Definition DIF_VAR_GID : Z := 0x011f.
Definition DIF_SUBR_COPYOUT : Z := 13.
Definition DIF_SUBR_COPYOUTSTR : Z := 14.
Definition DIF_SUBR_MAX : Z := 43.

#[global] Arguments op_of : simpl never.
#[global] Arguments DIF_INSTR_OP : simpl never.
#[global] Arguments DIF_INSTR_R1 : simpl never.
#[global] Arguments DIF_INSTR_R2 : simpl never.
#[global] Arguments DIF_INSTR_RD : simpl never.
#[global] Arguments DIF_INSTR_RS : simpl never.
#[global] Arguments DIF_INSTR_LABEL : simpl never.
#[global] Arguments DIF_INSTR_VAR : simpl never.
#[global] Arguments DIF_INSTR_SUBR : simpl never.
#[global] Arguments DIF_INSTR_TYPE : simpl never.

(** * Types and variables *)
Definition DIF_TYPE_CTF : Z := 0.
Definition DIF_TYPE_STRING : Z := 1.
Definition DIF_TF_BYREF : Z := 0x1.

Record dtrace_diftype := DifType {
  dtdt_kind : Z;
  dtdt_ckind : Z;
  dtdt_flags : Z;
  dtdt_size : Z
}.

(** [dtdt_flags & DIF_TF_BYREF]. *)
Definition byref (t : dtrace_diftype) : bool := negb (Z.land (dtdt_flags t) DIF_TF_BYREF =? 0).

Definition DIFV_KIND_ARRAY : Z := 0.
Definition DIFV_KIND_SCALAR : Z := 1.
Definition DIFV_SCOPE_GLOBAL : Z := 0.
Definition DIFV_SCOPE_THREAD : Z := 1.
Definition DIFV_SCOPE_LOCAL : Z := 2.

Record dtrace_difv := DifV {
  dtdv_name : Z;
  dtdv_id : Z;
  dtdv_kind : Z;
  dtdv_scope : Z;
  dtdv_flags : Z;
  dtdv_type : dtrace_diftype
}.

(** A DIF object.  [dtdo_strtab] is the address of the string table in kernel
    memory; the table lengths are the lengths of the lists. *)
Record dtrace_difo := Difo {
  dtdo_buf : list Z;
  dtdo_inttab : list Z;
  dtdo_strtab : Z;
  dtdo_strlen : Z;
  dtdo_vartab : list dtrace_difv;
  dtdo_rtype : dtrace_diftype;
  dtdo_refcnt : Z;
  dtdo_destructive : Z
}.

Definition dtdo_len (dp : dtrace_difo) : Z := Z.of_nat (length (dtdo_buf dp)).
Definition dtdo_intlen (dp : dtrace_difo) : Z := Z.of_nat (length (dtdo_inttab dp)).

(** * Variable state *)

(** A statically allocated variable: its data, or the address of its data. *)
Record dtrace_statvar := StatVar {
  dtsv_data : Z;
  dtsv_size : Z;
  dtsv_refcnt : Z;
  dtsv_var : dtrace_difv
}.

(** The dynamic variable space: a hash table, then chunks of equal size. *)
Record dtrace_dstate := DState {
  dtds_base : Z;
  dtds_size : Z;
  dtds_hashsize : Z;
  dtds_chunksize : Z
}.

(** LP64 sizes of dtrace_dynhash_t and dtrace_dynvar_t. *)
Definition sizeof_dynhash : Z := 64.
Definition sizeof_dynvar : Z := 48.

(** [None] is a NULL entry of dtvs_globals / dtvs_locals; [dtvs_strsize] and
    [dtvs_visible] are dts_options[DTRACEOPT_STRSIZE] and dts_cred.dcr_visible of
    the consumer that dtvs_state points to. *)
Record dtrace_vstate := VState {
  dtvs_strsize : Z;
  dtvs_visible : Z;
  dtvs_globals : list (option dtrace_statvar);
  dtvs_tlocals : list dtrace_difv;
  dtvs_locals : list (option dtrace_statvar);
  dtvs_dynvars : dtrace_dstate
}.

(** * Facts about instruction words *)

Lemma op_num_range o : 1 <= op_num o <= 79.
Proof. by destruct o. Qed.

Lemma op_num_of z o : op_of z = Some o -> op_num o = z.
Proof.
  assert (Hall : forallb (fun n => match dif_ops !! n with
    | Some o => op_num o =? Z.of_nat n + 1 | None => false end) (seq 0 79) = true)
    by reflexivity.
  unfold op_of. destruct (Z.leb_spec 1 z), (Z.leb_spec z 79); simpl; try discriminate.
  intros Ho. rewrite forallb_forall in Hall. specialize (Hall (Z.to_nat (z - 1))).
  rewrite Ho in Hall. apply Z.eqb_eq in Hall; [lia|]. apply in_seq. lia.
Qed.

Lemma field_range i s n : 0 <= n -> 0 <= Z.land (Z.shiftr i s) (2 ^ n - 1) < 2 ^ n.
Proof.
  intros. rewrite land_ones_low by lia. apply Z.mod_pos_bound, pow2_pos. lia.
Qed.

Lemma R1_range i : 0 <= DIF_INSTR_R1 i < 256.
Proof. apply (field_range i 16 8). lia. Qed.

Lemma R2_range i : 0 <= DIF_INSTR_R2 i < 256.
Proof. apply (field_range i 8 8). lia. Qed.

Lemma RD_range i : 0 <= DIF_INSTR_RD i < 256.
Proof. unfold DIF_INSTR_RD. rewrite <- (Z.shiftr_0_r i). apply (field_range i 0 8). lia. Qed.

Lemma LABEL_range i : 0 <= DIF_INSTR_LABEL i < 2 ^ 24.
Proof. unfold DIF_INSTR_LABEL. rewrite <- (Z.shiftr_0_r i). apply (field_range i 0 24). lia. Qed.

Lemma VAR_range i : 0 <= DIF_INSTR_VAR i < 65536.
Proof. apply (field_range i 8 16). lia. Qed.

#[export] Hint Resolve R1_range R2_range RD_range LABEL_range VAR_range : dt.

(** The four bytes of an instruction word assembled by DIF_INSTR_FMT. *)
Lemma FMT_sum op r1 r2 d :
  0 <= op < 256 -> 0 <= r1 < 256 -> 0 <= r2 < 256 -> 0 <= d < 256 ->
  DIF_INSTR_FMT op r1 r2 d = d + r2 * 2 ^ 8 + r1 * 2 ^ 16 + op * 2 ^ 24.
Proof.
  intros. unfold DIF_INSTR_FMT. rewrite !Z.shiftl_mul_pow2 by lia.
  rewrite (Z.lor_comm (op * _)), (lor_low_mul (r1 * 2 ^ 16) op 24) by lia.
  rewrite (Z.lor_comm _ (r2 * _)).
  replace (r1 * 2 ^ 16 + op * 2 ^ 24) with ((r1 + op * 2 ^ 8) * 2 ^ 16) by ring.
  rewrite lor_low_mul by lia.
  rewrite (Z.lor_comm _ d).
  replace (r2 * 2 ^ 8 + (r1 + op * 2 ^ 8) * 2 ^ 16)
    with ((r2 + (r1 + op * 2 ^ 8) * 2 ^ 8) * 2 ^ 8) by ring.
  rewrite lor_low_mul by lia. ring.
Qed.

Ltac fields :=
  unfold DIF_INSTR_OP, DIF_INSTR_R1, DIF_INSTR_R2, DIF_INSTR_RD;
  change 0xff with (2 ^ 8 - 1); rewrite ?land_ones_low, ?Z.shiftr_div_pow2 by lia.

Lemma OP_FMT op r1 r2 d :
  0 <= op < 256 -> 0 <= r1 < 256 -> 0 <= r2 < 256 -> 0 <= d < 256 ->
  DIF_INSTR_OP (DIF_INSTR_FMT op r1 r2 d) = op.
Proof. intros. rewrite FMT_sum by done. fields. lia. Qed.

Lemma R1_FMT op r1 r2 d :
  0 <= op < 256 -> 0 <= r1 < 256 -> 0 <= r2 < 256 -> 0 <= d < 256 ->
  DIF_INSTR_R1 (DIF_INSTR_FMT op r1 r2 d) = r1.
Proof. intros. rewrite FMT_sum by done. fields. lia. Qed.

Lemma R2_FMT op r1 r2 d :
  0 <= op < 256 -> 0 <= r1 < 256 -> 0 <= r2 < 256 -> 0 <= d < 256 ->
  DIF_INSTR_R2 (DIF_INSTR_FMT op r1 r2 d) = r2.
Proof. intros. rewrite FMT_sum by done. fields. lia. Qed.

Lemma RD_FMT op r1 r2 d :
  0 <= op < 256 -> 0 <= r1 < 256 -> 0 <= r2 < 256 -> 0 <= d < 256 ->
  DIF_INSTR_RD (DIF_INSTR_FMT op r1 r2 d) = d.
Proof. intros. rewrite FMT_sum by done. fields. lia. Qed.
