(* ===== verification/SafeMem.v ===== *)
(** Safe memory access from probe context (driver/dtrace.c, lines 385-1013).

    Probe context may not take a fault: loads go through [dtrace_load], which
    refuses misaligned and toxic addresses and recovers from a page fault; the
    string and block routines are built on it.  Stores and unprivileged loads
    are checked by [dtrace_canstore] and [dtrace_canload] first.

    Memory is a total function from 64-bit addresses to bytes; the per-CPU
    error flags and the faulting value are part of the state.  The toxic ranges
    and the set of accesses that page-fault belong to the platform: they are the
    fields of [platform]. *)
From S2P Require Import Prelude Dif.

(** * Per-CPU flags (include/sys/cpuvar_defs.h) *)
Definition CPU_DTRACE_NOFAULT : Z := 0x0001.
Definition CPU_DTRACE_DROP : Z := 0x0002.
Definition CPU_DTRACE_BADADDR : Z := 0x0004.
Definition CPU_DTRACE_BADALIGN : Z := 0x0008.
Definition CPU_DTRACE_DIVZERO : Z := 0x0010.
Definition CPU_DTRACE_ILLOP : Z := 0x0020.
Definition CPU_DTRACE_NOSCRATCH : Z := 0x0040.
Definition CPU_DTRACE_KPRIV : Z := 0x0080.
Definition CPU_DTRACE_UPRIV : Z := 0x0100.
Definition CPU_DTRACE_TUPOFLOW : Z := 0x0200.
Definition CPU_DTRACE_BADSTACK : Z := 0x1000.
Definition CPU_DTRACE_FAULT : Z :=
  Z.lor CPU_DTRACE_BADADDR (Z.lor CPU_DTRACE_BADALIGN (Z.lor CPU_DTRACE_DIVZERO
  (Z.lor CPU_DTRACE_ILLOP (Z.lor CPU_DTRACE_NOSCRATCH (Z.lor CPU_DTRACE_KPRIV
  (Z.lor CPU_DTRACE_UPRIV (Z.lor CPU_DTRACE_TUPOFLOW CPU_DTRACE_BADSTACK))))))).

(** * Machine state *)
Record mach := Mach {
  m_mem : Z -> Z;          (** kernel memory *)
  m_flags : Z;             (** cpuc_dtrace_flags *)
  m_illval : Z             (** cpuc_dtrace_illval *)
}.

Record dtrace_toxrange := ToxRange { dtt_base : Z; dtt_limit : Z }.

(** [load_traps addr size]: the load page-faults; the kernel's trap handler then
    records CPU_DTRACE_BADADDR and the address and resumes after the load. *)
Record platform := Platform {
  toxranges : list dtrace_toxrange;
  load_traps : Z -> Z -> bool
}.

Definition set_flag (f : Z) (m : mach) : mach :=
  Mach (m_mem m) (Z.lor (m_flags m) f) (m_illval m).
Definition clear_flag (f : Z) (m : mach) : mach :=
  Mach (m_mem m) (Z.ldiff (m_flags m) f) (m_illval m).
(** [*flags |= f; *illval = v]. *)
Definition raise (f v : Z) (m : mach) : mach :=
  Mach (m_mem m) (Z.lor (m_flags m) f) v.
Definition faulted (m : mach) : bool := negb (Z.land (m_flags m) CPU_DTRACE_FAULT =? 0).

Definition store8 (addr v : Z) (m : mach) : mach :=
  Mach (fun a => if a =? addr then u8 v else m_mem m a) (m_flags m) (m_illval m).

(** Little-endian words of [n] bytes. *)
Fixpoint read_le (mem : Z -> Z) (addr : Z) (n : nat) : Z :=
  match n with
  | O => 0
  | S n => mem addr + 256 * read_le mem (addr + 1) n
  end.

Fixpoint write_le (addr v : Z) (n : nat) (m : mach) : mach :=
  match n with
  | O => m
  | S n => write_le (addr + 1) (Z.shiftr v 8) n (store8 addr v m)
  end.

Section Access.
Context (P : platform).

(** The test DTRACE_LOADFUNC makes for each toxic range. *)
Definition toxic_hit (addr size : Z) (r : dtrace_toxrange) : bool :=
  if dtt_limit r <=? addr then false
  else if u64 (addr + size) <=? dtt_base r then false
  else true.

(** dtrace_load8/16/32/64: [size] is 1, 2, 4 or 8. *)
Definition dtrace_load (size addr : Z) (m : mach) : Z * mach :=
  if negb (Z.land addr (size - 1) =? 0) then (0, raise CPU_DTRACE_BADALIGN addr m)
  else if existsb (toxic_hit addr size) (toxranges P) then
    (0, raise CPU_DTRACE_BADADDR addr m)
  else
    let m := set_flag CPU_DTRACE_NOFAULT m in
    let rval := read_le (m_mem m) addr (Z.to_nat size) in
    let m := if load_traps P addr size then raise CPU_DTRACE_BADADDR addr m else m in
    let m := clear_flag CPU_DTRACE_NOFAULT m in
    (if faulted m then 0 else rval, m).

Definition dtrace_load8 := dtrace_load 1.
Definition dtrace_load16 := dtrace_load 2.
Definition dtrace_load32 := dtrace_load 4.
Definition dtrace_load64 := dtrace_load 8.

(** [len] is a uint_t, [lim] a size_t.  With [lim] below 2^32 the loop makes
    at most [lim] iterations; otherwise only a NUL byte (or a faulting load,
    which reads as NUL) ends it, and 2^64 iterations have then visited every
    address, so [None] is exactly non-termination. *)
Definition dtrace_strlen (s lim : Z) (m : mach) : option (Z * mach) :=
  zloop (fun '(s, len, m) =>
    if len =? lim then inr (len, m)
    else let '(c, m) := dtrace_load8 s m in
         if c =? 0 then inr (len, m) else inl (u64 (s + 1), u32 (len + 1), m))
    (2 ^ 64 + 1) (s, 0, m).

Definition dtrace_strncmp (s1 s2 limit : Z) (m : mach) : option (Z * mach) :=
  if (s1 =? s2) || (limit =? 0) then Some (0, m)
  else
    zloop (fun '(s1, s2, limit, m) =>
      let '(c1, s1, m) :=
        if s1 =? 0 then (0, s1, m)
        else let '(c, m) := dtrace_load8 s1 m in (c, u64 (s1 + 1), m) in
      let '(c2, s2, m) :=
        if s2 =? 0 then (0, s2, m)
        else let '(c, m) := dtrace_load8 s2 m in (c, u64 (s2 + 1), m) in
      if negb (c1 =? c2) then inr (c1 - c2, m)
      else
        let limit := limit - 1 in
        if negb (limit =? 0) && negb (c1 =? 0) && negb (faulted m)
        then inl (s1, s2, limit, m) else inr (0, m))
      limit (s1, s2, limit, m).

Definition dtrace_istoxic (kaddr size : Z) (m : mach) : bool * mach :=
  (fix go (l : list dtrace_toxrange) :=
     match l with
     | [] => (false, m)
     | r :: l =>
         let taddr := dtt_base r in
         let tsize := u64 (dtt_limit r - taddr) in
         if u64 (kaddr - taddr) <? tsize then
           (true, raise CPU_DTRACE_BADADDR kaddr m)
         else if u64 (taddr - kaddr) <? size then
           (true, raise CPU_DTRACE_BADADDR taddr m)
         else go l
     end) (toxranges P).

(** [*s1++ = dtrace_load8(s2++)] / [*--s1 = dtrace_load8(--s2)], [len] times. *)
Definition dtrace_bcopy (src dst len : Z) (m : mach) : option mach :=
  if len =? 0 then Some m
  else if dst <=? src then
    zloop (fun '(s1, s2, len, m) =>
      let '(c, m) := dtrace_load8 s2 m in
      let m := store8 s1 c m in
      let len := len - 1 in
      if negb (len =? 0) then inl (u64 (s1 + 1), u64 (s2 + 1), len, m) else inr m)
      len (dst, src, len, m)
  else
    zloop (fun '(s1, s2, len, m) =>
      let s2 := u64 (s2 - 1) in
      let '(c, m) := dtrace_load8 s2 m in
      let s1 := u64 (s1 - 1) in
      let m := store8 s1 c m in
      let len := len - 1 in
      if negb (len =? 0) then inl (s1, s2, len, m) else inr m)
      len (u64 (dst + len), u64 (src + len), len, m).

Definition dtrace_strcpy (src dst len : Z) (m : mach) : option mach :=
  if len =? 0 then Some m
  else
    zloop (fun '(s1, s2, len, m) =>
      let '(c, m) := dtrace_load8 s2 m in
      let m := store8 s1 c m in
      let len := len - 1 in
      if negb (len =? 0) && negb (c =? 0)
      then inl (u64 (s1 + 1), u64 (s2 + 1), len, m) else inr m)
      len (dst, src, len, m).

Definition dtrace_vcopy (src dst : Z) (type : dtrace_diftype) (m : mach) : option mach :=
  if dtdt_kind type =? DIF_TYPE_STRING then dtrace_strcpy src dst (dtdt_size type) m
  else dtrace_bcopy src dst (dtdt_size type) m.

(** [s2] is DTrace's own memory, read directly. *)
Definition dtrace_bcmp (s1 s2 len : Z) (m : mach) : option (Z * mach) :=
  if s1 =? s2 then Some (0, m)
  else if (s1 =? 0) || (s2 =? 0) then Some (1, m)
  else if len =? 0 then Some (0, m)
  else
    zloop (fun '(ps1, ps2, len, m) =>
      let '(c, m) := dtrace_load8 ps1 m in
      if negb (c =? m_mem m ps2) then inr (1, m)
      else
        let len := len - 1 in
        if negb (len =? 0) && negb (faulted m)
        then inl (u64 (ps1 + 1), u64 (ps2 + 1), len, m) else inr (0, m))
      len (s1, s2, len, m).
End Access.

(** * Access checks *)

Definition DTRACE_INRANGE (testaddr testsz baseaddr basesz : Z) : bool :=
  (u64 (testaddr - baseaddr) <? basesz) &&
  (u64 (u64 (testaddr + testsz) - baseaddr) <=? basesz) &&
  (testaddr <=? u64 (testaddr + testsz)).

Definition DTRACE_ACCESS_KERNEL : Z := 0x1.

Record dtrace_mstate := MState {
  dtms_scratch_base : Z;
  dtms_scratch_ptr : Z;
  dtms_scratch_size : Z;
  dtms_present : Z;
  dtms_fltoffs : Z;
  dtms_access : Z;
  dtms_difo : dtrace_difo
}.

Definition DTRACE_INSCRATCH (mstate : dtrace_mstate) (alloc_sz : Z) : bool :=
  alloc_sz <=? u64 (u64 (dtms_scratch_base mstate + dtms_scratch_size mstate) -
                    dtms_scratch_ptr mstate).

Definition dtrace_inscratch (dest size : Z) (mstate : dtrace_mstate) : bool :=
  if dest <? dtms_scratch_base mstate then false
  else if u64 (dest + size) <? dest then false
  else if dtms_scratch_ptr mstate <? u64 (dest + size) then false
  else true.

Fixpoint dtrace_canstore_statvar (addr sz : Z) (svars : list (option dtrace_statvar)) : bool :=
  match svars with
  | [] => false
  | None :: svars => dtrace_canstore_statvar addr sz svars
  | Some svar :: svars =>
      if dtsv_size svar =? 0 then dtrace_canstore_statvar addr sz svars
      else if DTRACE_INRANGE addr sz (dtsv_data svar) (dtsv_size svar) then true
      else dtrace_canstore_statvar addr sz svars
  end.

Definition dtrace_canstore (addr sz : Z) (mstate : dtrace_mstate) (vstate : dtrace_vstate) : bool :=
  if DTRACE_INRANGE addr sz (dtms_scratch_base mstate) (dtms_scratch_size mstate) then true
  else
    let dstate := dtvs_dynvars vstate in
    if DTRACE_INRANGE addr sz (dtds_base dstate) (dtds_size dstate) then
      let base := u64 (dtds_base dstate + u64 (dtds_hashsize dstate * sizeof_dynhash)) in
      if addr <? base then false
      else
        let chunkoffs := u64 (addr - base) mod dtds_chunksize dstate in
        if chunkoffs <? sizeof_dynvar then false
        else if dtds_chunksize dstate <? u64 (chunkoffs + sz) then false
        else true
    else if dtrace_canstore_statvar addr sz (dtvs_locals vstate) then true
    else if dtrace_canstore_statvar addr sz (dtvs_globals vstate) then true
    else false.

Definition dtrace_canload (addr sz : Z) (mstate : dtrace_mstate) (vstate : dtrace_vstate)
    (m : mach) : bool * mach :=
  if negb (Z.land (dtms_access mstate) DTRACE_ACCESS_KERNEL =? 0) then (true, m)
  else if dtrace_canstore addr sz mstate vstate then (true, m)
  else if DTRACE_INRANGE addr sz (dtdo_strtab (dtms_difo mstate)) (dtdo_strlen (dtms_difo mstate))
  then (true, m)
  else (false, raise CPU_DTRACE_KPRIV addr m).

Definition dtrace_strcanload (P : platform) (addr sz : Z) (mstate : dtrace_mstate)
    (vstate : dtrace_vstate) (m : mach) : option (bool * mach) :=
  if negb (Z.land (dtms_access mstate) DTRACE_ACCESS_KERNEL =? 0) then Some (true, m)
  else
    match dtrace_strlen P addr sz m with
    | None => None
    | Some (len, m) => Some (dtrace_canload addr (u64 (1 + len)) mstate vstate m)
    end.

Definition dtrace_vcanload (P : platform) (src : Z) (type : dtrace_diftype)
    (mstate : dtrace_mstate) (vstate : dtrace_vstate) (m : mach) : option (bool * mach) :=
  if negb (Z.land (dtms_access mstate) DTRACE_ACCESS_KERNEL =? 0) then Some (true, m)
  else if dtdt_kind type =? DIF_TYPE_STRING then
    match dtrace_strlen P src (dtvs_strsize vstate) m with
    | None => None
    | Some (len, m) => Some (dtrace_canload src (u64 (len + 1)) mstate vstate m)
    end
  else Some (dtrace_canload src (dtdt_size type) mstate vstate m).

(** * Loads *)

(** The NOFAULT bit is not a fault bit. *)
Lemma faulted_clear m : faulted (clear_flag CPU_DTRACE_NOFAULT m) = faulted m.
Proof.
  unfold faulted, clear_flag. simpl m_flags. do 2 f_equal.
  apply Z.bits_inj'. intros n Hn. rewrite !Z.land_spec, Z.ldiff_spec.
  destruct (Z.eq_dec n 0) as [->|].
  - change (Z.testbit CPU_DTRACE_FAULT 0) with false. by rewrite !andb_false_r.
  - unfold CPU_DTRACE_NOFAULT. rewrite (Z.bits_above_log2 1 n) by (simpl; lia).
    by rewrite andb_true_r.
Qed.

Lemma faulted_set m : faulted (set_flag CPU_DTRACE_NOFAULT m) = faulted m.
Proof.
  unfold faulted, set_flag. simpl m_flags.
  rewrite Z.land_lor_distr_l. change (Z.land CPU_DTRACE_NOFAULT CPU_DTRACE_FAULT) with 0.
  by rewrite Z.lor_0_r.
Qed.

Lemma faulted_raise f v m :
  Z.land f CPU_DTRACE_FAULT = f -> f <> 0 -> faulted (raise f v m) = true.
Proof.
  intros Hf Hnz. unfold faulted, raise. simpl m_flags. rewrite Z.land_lor_distr_l, Hf.
  destruct (Z.eqb_spec (Z.lor (Z.land (m_flags m) CPU_DTRACE_FAULT) f) 0) as [H|]; [|done].
  apply Z.lor_eq_0_iff in H. lia.
Qed.

#[export] Hint Rewrite faulted_clear faulted_set : dt.

Section AccessFacts.
Context (P : platform).

(** The byte at [a] can be loaded: it is not toxic and does not page-fault. *)
Definition readable (a : Z) : Prop :=
  existsb (toxic_hit a 1) (toxranges P) = false /\ load_traps P a 1 = false.

Lemma load_mem size a m : m_mem (dtrace_load P size a m).2 = m_mem m.
Proof.
  unfold dtrace_load. destruct (negb _); [done|]. destruct (existsb _ _); [done|].
  by destruct (load_traps P a size).
Qed.

Lemma load8_ok a m :
  readable a -> faulted m = false ->
  exists m', dtrace_load8 P a m = (m_mem m a, m') /\ faulted m' = false /\ m_mem m' = m_mem m.
Proof.
  intros [Ht Hl] Hf. unfold dtrace_load8, dtrace_load.
  rewrite Z.sub_diag, Z.land_0_r. simpl negb. cbv iota. rewrite Ht, Hl.
  rewrite faulted_clear, faulted_set, Hf.
  exists (clear_flag CPU_DTRACE_NOFAULT (set_flag CPU_DTRACE_NOFAULT m)).
  rewrite faulted_clear, faulted_set. split_and!; [|done|done].
  change (Z.to_nat 1) with 1%nat. cbn [read_le m_mem set_flag]. by rewrite Z.mul_0_r, Z.add_0_r.
Qed.

Lemma load_no_fault size a m v m' :
  0 < size -> is_u64 a -> a + size < 2 ^ 64 ->
  dtrace_load P size a m = (v, m') -> faulted m' = false ->
  v = read_le (m_mem m) a (Z.to_nat size) /\ Z.land a (size - 1) = 0 /\
  load_traps P a size = false /\
  (forall r, In r (toxranges P) -> a + size <= dtt_base r \/ dtt_limit r <= a).
Proof.
  intros Hs Ha Hend. unfold dtrace_load.
  destruct (Z.eqb_spec (Z.land a (size - 1)) 0) as [Hal|]; simpl negb; cbv iota.
  2:{ intros [= <- <-]. by rewrite faulted_raise. }
  destruct (existsb _ _) eqn:Hex.
  { intros [= <- <-]. by rewrite faulted_raise. }
  destruct (load_traps P a size) eqn:Htr; rewrite faulted_clear.
  { rewrite faulted_raise by done. intros [= _ <-]. by rewrite faulted_clear, faulted_raise. }
  rewrite faulted_set. intros [= <- <-]. rewrite faulted_clear, faulted_set. intros ->.
  split_and!; try done.
  intros r Hr. assert (Hh : toxic_hit a size r = false).
  { destruct (toxic_hit a size r) eqn:E; [|done].
    rewrite <- Hex. symmetry. apply existsb_exists. eauto. }
  unfold toxic_hit in Hh. rewrite u64_id in Hh by (unfold is_u in *; lia). zcase; done || lia.
Qed.

(** * Block copies *)

(** What memory holds once the bytes of [dst, dst + len) from offset [lo] to
    offset [hi] have received those of [src, src + len). *)
Definition copied (mem : Z -> Z) (src dst lo hi a : Z) : Z :=
  if (dst + lo <=? a) && (a <? dst + hi) then mem (src + (a - dst)) else mem a.

Section Copy.
Context (src dst len : Z) (m0 : mach).
Context (Hsrc : 0 <= src) (Hsrc' : src + len <= 2 ^ 64)
        (Hdst : 0 <= dst) (Hdst' : dst + len <= 2 ^ 64)
        (Hread : forall i, 0 <= i < len -> readable (src + i))
        (Hbytes : forall a, is_u8 (m_mem m0 a))
        (Hclean : faulted m0 = false).

Definition copied_to (m : mach) : Prop :=
  faulted m = false /\ forall a, m_mem m a = copied (m_mem m0) src dst 0 len a.

(** One byte of the copy: load offset [i], store it. *)
Lemma copy_byte lo hi i m :
  0 <= i < len -> (i = lo - 1 /\ src < dst \/ i = hi /\ dst <= src) -> 0 <= lo <= hi -> hi <= len ->
  faulted m = false -> (forall a, m_mem m a = copied (m_mem m0) src dst lo hi a) ->
  exists m', dtrace_load8 P (src + i) m = (m_mem m0 (src + i), m') /\
    faulted (store8 (dst + i) (m_mem m0 (src + i)) m') = false /\
    forall a, m_mem (store8 (dst + i) (m_mem m0 (src + i)) m') a =
              copied (m_mem m0) src dst (Z.min lo i) (Z.max hi (i + 1)) a.
Proof.
  intros Hi Hside Hlo Hhi Hf Hm.
  destruct (load8_ok (src + i) m (Hread i Hi) Hf) as (m' & -> & Hf' & Hmem).
  assert (Hv : m_mem m (src + i) = m_mem m0 (src + i)).
  { rewrite Hm. unfold copied. zcase; simpl; try done; lia. }
  rewrite Hv. exists m'. split_and!; [done|done|].
  intros a. unfold store8, copied. simpl m_mem. rewrite Hmem.
  pose proof (Hm a) as Ha. unfold copied in Ha. rewrite (u8_id _ (Hbytes _)). rewrite Ha.
  destruct (Z.eqb_spec a (dst + i)) as [->|]; zcase; simpl; try done; try lia; f_equal; lia.
Qed.

Lemma bcopy_ok : 0 <= len -> exists m', dtrace_bcopy P src dst len m0 = Some m' /\ copied_to m'.
Proof.
  intros Hlen. unfold dtrace_bcopy. destruct (Z.eqb_spec len 0) as [->|].
  { exists m0. split; [done|]. split; [done|]. intros a. unfold copied. zcase; (done || lia). }
  destruct (Z.leb_spec dst src).
  - apply (zloop_down (fun k '(s1, s2, l, m) => l = k + 1 /\ 0 <= k < len /\
      s1 = dst + (len - l) /\ s2 = src + (len - l) /\ faulted m = false /\
      forall a, m_mem m a = copied (m_mem m0) src dst 0 (len - l) a)) with (k := len - 1); [| |lia].
    + intros k [[[s1 s2] l] m] (-> & Hk & -> & -> & Hf & Hm). split; [lia|].
      destruct (copy_byte 0 (len - (k + 1)) (len - (k + 1)) m) as (m' & -> & Hf' & Hm');
        [lia..|done|done|].
      rewrite Z.min_l, Z.max_r in Hm' by lia.
      replace (k + 1 - 1) with k by lia. destruct (Z.eqb_spec k 0) as [->|]; simpl negb; cbv iota.
      * split; [done|]. intros a. rewrite Hm'. f_equal; lia.
      * rewrite !u64_id by (unfold is_u; lia). split_and!; try lia; [done|].
        intros a. rewrite Hm'. f_equal; lia.
    + split_and!; try lia; [done|]. intros a. unfold copied. zcase; (done || lia).
  - apply (zloop_down (fun k '(s1, s2, l, m) => l = k + 1 /\ 0 <= k < len /\
      s1 = u64 (dst + l) /\ s2 = u64 (src + l) /\ faulted m = false /\
      forall a, m_mem m a = copied (m_mem m0) src dst l len a)) with (k := len - 1); [| |lia].
    + intros k [[[s1 s2] l] m] (-> & Hk & -> & -> & Hf & Hm). split; [lia|].
      replace (u64 (u64 (src + (k + 1)) - 1)) with (src + k) by word.
      replace (u64 (u64 (dst + (k + 1)) - 1)) with (dst + k) by word.
      destruct (copy_byte (k + 1) len k m) as (m' & -> & Hf' & Hm'); [lia..|done|done|].
      rewrite Z.min_r, Z.max_l in Hm' by lia.
      replace (k + 1 - 1) with k by lia. destruct (Z.eqb_spec k 0) as [->|]; simpl negb; cbv iota.
      * by split.
      * replace (k - 1 + 1) with k by lia.
        rewrite !u64_id by (unfold is_u; lia). split_and!; (done || lia).
    + split_and!; try done; try lia; [by replace (len - 1 + 1) with len by lia..|].
      intros a. replace (len - 1 + 1) with len by lia. unfold copied. zcase; (done || lia).
Qed.
End Copy.

(** * String length *)

(** Reference: the number of bytes before the first NUL, at most [n]. *)
Fixpoint cstrnlen (mem : Z -> Z) (s : Z) (n : nat) : Z :=
  match n with
  | O => 0
  | S n => if mem s =? 0 then 0 else 1 + cstrnlen mem (s + 1) n
  end.

Lemma strlen_total s lim m :
  0 <= lim < 2 ^ 32 ->
  exists r, dtrace_strlen P s lim m = Some r /\ 0 <= r.1 <= lim /\ m_mem r.2 = m_mem m.
Proof.
  intros Hlim. unfold dtrace_strlen.
  apply (zloop_down (fun k '(_, len, m') => len = lim - k /\ 0 <= k <= lim /\ m_mem m' = m_mem m))
    with (k := lim); [|split_and!; (done || lia)|lia].
  intros k [[s' len] m'] (-> & Hk & Hm). split; [lia|].
  destruct (Z.eqb_spec (lim - k) lim); [simpl; split_and!; (done || lia)|].
  pose proof (load_mem 1 s' m') as Hload. unfold dtrace_load8.
  destruct (dtrace_load P 1 s' m') as [c m'']. simpl in Hload.
  destruct (c =? 0); [simpl; split_and!; (congruence || lia)|].
  rewrite u32_id by (unfold is_u; lia). split_and!; (congruence || lia).
Qed.

Lemma strlen_ok s lim m :
  0 <= lim < 2 ^ 32 -> 0 <= s -> s + lim < 2 ^ 64 ->
  (forall i, 0 <= i < lim -> readable (s + i)) -> faulted m = false ->
  exists m', dtrace_strlen P s lim m = Some (cstrnlen (m_mem m) s (Z.to_nat lim), m') /\
             m_mem m' = m_mem m /\ faulted m' = false.
Proof.
  intros Hlim Hs Hend Hread Hf. unfold dtrace_strlen.
  set (n := cstrnlen (m_mem m) s (Z.to_nat lim)).
  edestruct (zloop_down (fun k '(s', len, m') => len = lim - k /\ 0 <= k <= lim /\
      s' = s + len /\ m_mem m' = m_mem m /\ faulted m' = false /\
      n = len + cstrnlen (m_mem m) s' (Z.to_nat k))
    (fun r => r.1 = n /\ m_mem r.2 = m_mem m /\ faulted r.2 = false))
    with (k := lim) as ([r m'] & -> & Hr & Hm & Hf'); [| |lia|].
  - intros k [[s' len] m'] (-> & Hk & -> & Hm & Hf' & Hn). split; [lia|].
    destruct (Z.eqb_spec (lim - k) lim) as [|Hne].
    { replace k with 0 in * by lia. simpl in *. split_and!; (done || lia). }
    destruct (load8_ok (s + (lim - k)) m') as (m'' & -> & Hf'' & Hm''); [apply Hread; lia|done|].
    rewrite Hm in *. replace (Z.to_nat k) with (S (Z.to_nat (k - 1))) in Hn by lia.
    cbn [cstrnlen] in Hn.
    destruct (Z.eqb_spec (m_mem m (s + (lim - k))) 0).
    { simpl. split_and!; (done || lia). }
    rewrite u32_id, u64_id by (unfold is_u; lia).
    replace (s + (lim - k) + 1) with (s + (lim - k + 1)) in * by lia.
    split_and!; (done || lia).
  - split_and!; (done || lia).
  - exists m'. simpl in *. by subst r.
Qed.

Lemma strlen_diverges s lim m :
  2 ^ 32 <= lim -> is_u64 s -> (forall a, is_u64 a -> readable a) ->
  (forall a, m_mem m a <> 0) -> faulted m = false -> dtrace_strlen P s lim m = None.
Proof.
  intros Hlim Hs Hread Hnz Hf.
  destruct (dtrace_strlen P s lim m) as [r|] eqn:E; [exfalso|done]. revert E.
  unfold dtrace_strlen. apply (zloop_partial (fun '(s', len, m') =>
    is_u64 s' /\ is_u32 len /\ m_mem m' = m_mem m /\ faulted m' = false) (fun _ => False)).
  - intros [[s' len] m'] (Hs' & Hlen & Hm & Hf').
    destruct (Z.eqb_spec len lim); [unfold is_u in *; lia|].
    destruct (load8_ok s' m' (Hread _ Hs') Hf') as (m'' & -> & Hf'' & Hm'').
    rewrite Hm. destruct (Z.eqb_spec (m_mem m s') 0); [by eapply Hnz|].
    split_and!; [apply u64_range|apply u32_range|congruence|done].
  - split_and!; (done || unfold is_u; lia).
Qed.
End AccessFacts.

(** * Access checks *)

Lemma inrange_spec a sz base bsz :
  is_u64 a -> is_u64 sz -> 0 <= base -> 0 <= bsz -> base + bsz < 2 ^ 64 ->
  DTRACE_INRANGE a sz base bsz = true <-> base <= a < base + bsz /\ a + sz <= base + bsz.
Proof.
  unfold DTRACE_INRANGE, is_u. intros. rewrite !andb_true_iff, !Z.ltb_lt, !Z.leb_le.
  unfold u64. lia.
Qed.

(** The regions a DIF program may store to.  [dyn_chunk] is the payload of chunk
    [i] of the dynamic variable space, past the dtrace_dynvar_t at its start. *)
Inductive may_store (ms : dtrace_mstate) (vs : dtrace_vstate) (a sz : Z) : Prop :=
  | in_scratch :
      dtms_scratch_base ms <= a -> a + sz <= dtms_scratch_base ms + dtms_scratch_size ms ->
      may_store ms vs a sz
  | in_dyn_chunk i (ds := dtvs_dynvars vs)
      (chunk := dtds_base ds + dtds_hashsize ds * sizeof_dynhash + i * dtds_chunksize ds) :
      0 <= i -> chunk + sizeof_dynvar <= a -> a + sz <= chunk + dtds_chunksize ds ->
      a + sz <= dtds_base ds + dtds_size ds ->
      may_store ms vs a sz
  | in_statvar sv :
      In (Some sv) (dtvs_locals vs ++ dtvs_globals vs) ->
      dtsv_data sv <= a -> a + sz <= dtsv_data sv + dtsv_size sv ->
      may_store ms vs a sz.

(** No region wraps around the address space; the hash table fits. *)
Record regions_ok (ms : dtrace_mstate) (vs : dtrace_vstate) : Prop := {
  ro_scratch : 0 <= dtms_scratch_base ms /\ 0 <= dtms_scratch_size ms /\
    dtms_scratch_base ms + dtms_scratch_size ms < 2 ^ 64;
  ro_dyn : let ds := dtvs_dynvars vs in
    0 <= dtds_base ds /\ 0 <= dtds_size ds /\ dtds_base ds + dtds_size ds < 2 ^ 64 /\
    0 <= dtds_hashsize ds /\ dtds_hashsize ds * sizeof_dynhash <= dtds_size ds /\
    (dtds_size ds <> 0 -> 0 < dtds_chunksize ds);
  ro_stat : forall sv, In (Some sv) (dtvs_locals vs ++ dtvs_globals vs) ->
    dtsv_size sv <> 0 -> 0 <= dtsv_data sv /\ 0 <= dtsv_size sv /\ dtsv_data sv + dtsv_size sv < 2 ^ 64
}.

Lemma canstore_statvar_sound a sz svars :
  is_u64 a -> is_u64 sz ->
  (forall sv, In (Some sv) svars -> dtsv_size sv <> 0 ->
     0 <= dtsv_data sv /\ 0 <= dtsv_size sv /\ dtsv_data sv + dtsv_size sv < 2 ^ 64) ->
  dtrace_canstore_statvar a sz svars = true ->
  exists sv, In (Some sv) svars /\ dtsv_data sv <= a /\ a + sz <= dtsv_data sv + dtsv_size sv.
Proof.
  intros Ha Hsz. induction svars as [|[sv|] svars IH]; intros Hok; simpl; [done| |].
  - assert (Hrec : dtrace_canstore_statvar a sz svars = true ->
      exists sv', (Some sv = Some sv' \/ In (Some sv') svars) /\
        dtsv_data sv' <= a /\ a + sz <= dtsv_data sv' + dtsv_size sv').
    { intros H. destruct IH as (sv' & Hin & ?); [intros; apply Hok; simpl; auto|done|].
      exists sv'. auto. }
    destruct (Z.eqb_spec (dtsv_size sv) 0); [done|].
    destruct (DTRACE_INRANGE _ _ _ _) eqn:Hr; [|done]. intros _.
    destruct (Hok sv) as (? & ? & ?); [simpl; auto|done|].
    apply inrange_spec in Hr; [|done..]. exists sv. split; [auto|lia].
  - intros H. destruct IH as (sv' & Hin & ?); [intros; apply Hok; simpl; auto|done|].
    exists sv'. auto.
Qed.

Lemma canstore_sound a sz ms vs :
  is_u64 a -> is_u64 sz -> regions_ok ms vs ->
  dtrace_canstore a sz ms vs = true -> may_store ms vs a sz.
Proof.
  intros Ha Hsz [Hscr Hdyn Hstat]. unfold dtrace_canstore.
  destruct (DTRACE_INRANGE a sz (dtms_scratch_base ms) _) eqn:Hs.
  { intros _. apply inrange_spec in Hs; [|done || lia..]. apply in_scratch; lia. }
  destruct (DTRACE_INRANGE a sz (dtds_base _) _) eqn:Hd.
  - cbv zeta in Hdyn. apply inrange_spec in Hd; [|done || lia..].
    set (ds := dtvs_dynvars vs) in *. unfold sizeof_dynhash in *.
    rewrite !u64_id by (unfold is_u in *; rewrite ?u64_id by (unfold is_u; lia); lia).
    set (base := dtds_base ds + dtds_hashsize ds * 64).
    destruct (Z.ltb_spec a base); [done|]. rewrite (u64_id (a - base)) by (unfold is_u in *; lia).
    assert (0 < dtds_chunksize ds) as Hc by (apply Hdyn; lia).
    pose proof (Z.mod_pos_bound (a - base) (dtds_chunksize ds) Hc) as Hm.
    pose proof (Z.div_mod (a - base) (dtds_chunksize ds) ltac:(lia)) as Hdm.
    assert (0 <= (a - base) / dtds_chunksize ds) by (apply Z.div_pos; lia).
    assert ((a - base) mod dtds_chunksize ds <= a - base) by (apply Z.mod_le; lia).
    destruct (Z.ltb_spec ((a - base) mod dtds_chunksize ds) sizeof_dynvar); [done|].
    rewrite u64_id by (unfold is_u in *; lia).
    destruct (Z.ltb_spec (dtds_chunksize ds) ((a - base) mod dtds_chunksize ds + sz)); [done|intros _].
    apply (in_dyn_chunk ms vs a sz ((a - base) / dtds_chunksize ds));
      unfold sizeof_dynhash; fold ds; lia.
  - destruct (dtrace_canstore_statvar a sz (dtvs_locals vs)) eqn:Hl.
    { intros _. apply canstore_statvar_sound in Hl as (sv & Hin & ?); [|done..|].
      - apply (in_statvar ms vs a sz sv); [apply in_or_app; auto|lia..].
      - intros sv Hin. apply Hstat, in_or_app. auto. }
    destruct (dtrace_canstore_statvar a sz (dtvs_globals vs)) eqn:Hg; [|done]. intros _.
    apply canstore_statvar_sound in Hg as (sv & Hin & ?); [|done..|].
    + apply (in_statvar ms vs a sz sv); [apply in_or_app; auto|lia..].
    + intros sv Hin. apply Hstat, in_or_app. auto.
Qed.

(** * Footprints

    Whatever the loads do, the copies return and touch their destination only. *)
Section Footprint.
Context (P : platform).

Definition bytes_ok (m : mach) : Prop := forall a, is_u8 (m_mem m a).

(** [m'] agrees with [m] outside [dst, dst + len). *)
Definition only_wrote (dst len : Z) (m m' : mach) : Prop :=
  (bytes_ok m -> bytes_ok m') /\
  forall a, ~ dst <= a < dst + len -> m_mem m' a = m_mem m a.

Lemma only_wrote_refl dst len m m' : m_mem m' = m_mem m -> only_wrote dst len m m'.
Proof. intros H. unfold only_wrote, bytes_ok. rewrite H. auto. Qed.

Lemma only_wrote_trans dst len m1 m2 m3 :
  only_wrote dst len m1 m2 -> only_wrote dst len m2 m3 -> only_wrote dst len m1 m3.
Proof. intros [Hb1 H1] [Hb2 H2]. split; [auto|]. intros a Ha. rewrite H2, H1; auto. Qed.

Lemma store8_only a v dst len m :
  dst <= a < dst + len -> only_wrote dst len m (store8 a v m).
Proof.
  intros Ha. split.
  - intros Hb x. simpl. destruct (x =? a); [apply u8_range|apply Hb].
  - intros x Hx. simpl. destruct (Z.eqb_spec x a); [lia|done].
Qed.

(** One byte of a copy. *)
Lemma copy_byte_only s1 s2 dst len m :
  dst <= s1 < dst + len ->
  only_wrote dst len m
    (store8 s1 (dtrace_load8 P s2 m).1 (dtrace_load8 P s2 m).2).
Proof.
  intros H. eapply only_wrote_trans; [|by apply store8_only].
  apply only_wrote_refl, load_mem.
Qed.

Lemma bcopy_only src dst len m :
  0 <= len -> 0 <= dst -> dst + len <= 2 ^ 64 ->
  exists m', dtrace_bcopy P src dst len m = Some m' /\ only_wrote dst len m m'.
Proof.
  intros Hlen Hd Hd'. unfold dtrace_bcopy. destruct (Z.eqb_spec len 0) as [->|].
  { exists m. split; [done|]. by apply only_wrote_refl. }
  destruct (Z.leb_spec dst src).
  - apply (zloop_down (fun k '(s1, s2, l, m') => l = k + 1 /\ 0 <= k < len /\
      s1 = dst + (len - l) /\ only_wrote dst len m m')) with (k := len - 1); [| |lia].
    + intros k [[[s1 s2] l] m'] (-> & Hk & -> & Hw). split; [lia|].
      pose proof (copy_byte_only (dst + (len - (k + 1))) s2 dst len m' ltac:(lia)) as Hb.
      destruct (dtrace_load8 P s2 m') as [c m2]. simpl in Hb.
      pose proof (only_wrote_trans _ _ _ _ _ Hw Hb) as Hw'.
      replace (k + 1 - 1) with k by lia. destruct (Z.eqb_spec k 0); simpl negb; cbv iota; [done|].
      rewrite ?u64_id by (unfold is_u; lia). split_and!; (done || lia).
    + split_and!; try lia. by apply only_wrote_refl.
  - apply (zloop_down (fun k '(s1, s2, l, m') => l = k + 1 /\ 0 <= k < len /\
      s1 = u64 (dst + l) /\ only_wrote dst len m m')) with (k := len - 1); [| |lia].
    + intros k [[[s1 s2] l] m'] (-> & Hk & -> & Hw). split; [lia|].
      replace (u64 (u64 (dst + (k + 1)) - 1)) with (dst + k) by word.
      pose proof (copy_byte_only (dst + k) (u64 (s2 - 1)) dst len m' ltac:(lia)) as Hb.
      destruct (dtrace_load8 P (u64 (s2 - 1)) m') as [c m2]. simpl in Hb.
      pose proof (only_wrote_trans _ _ _ _ _ Hw Hb) as Hw'.
      replace (k + 1 - 1) with k by lia. destruct (Z.eqb_spec k 0); simpl negb; cbv iota; [done|].
      rewrite ?u64_id by (unfold is_u; lia). split_and!; (done || lia).
    + split_and!; try lia. by apply only_wrote_refl.
Qed.

Lemma strcpy_only src dst len m :
  0 <= len -> 0 <= dst -> dst + len <= 2 ^ 64 ->
  exists m', dtrace_strcpy P src dst len m = Some m' /\ only_wrote dst len m m'.
Proof.
  intros Hlen Hd Hd'. unfold dtrace_strcpy. destruct (Z.eqb_spec len 0) as [->|].
  { exists m. split; [done|]. by apply only_wrote_refl. }
  apply (zloop_down (fun k '(s1, s2, l, m') => l = k + 1 /\ 0 <= k < len /\
    s1 = dst + (len - l) /\ only_wrote dst len m m')) with (k := len - 1); [| |lia].
  - intros k [[[s1 s2] l] m'] (-> & Hk & -> & Hw). split; [lia|].
    pose proof (copy_byte_only (dst + (len - (k + 1))) s2 dst len m' ltac:(lia)) as Hb.
    destruct (dtrace_load8 P s2 m') as [c m2]. simpl in Hb.
    pose proof (only_wrote_trans _ _ _ _ _ Hw Hb) as Hw'.
    replace (k + 1 - 1) with k by lia.
    destruct (Z.eqb_spec k 0); simpl negb; simpl andb; cbv iota; [done|].
    destruct (c =? 0); simpl negb; cbv iota; [done|].
    rewrite ?u64_id by (unfold is_u; lia). split_and!; (done || lia).
  - split_and!; try lia. by apply only_wrote_refl.
Qed.

Lemma vcopy_only src dst t m :
  0 <= dtdt_size t -> 0 <= dst -> dst + dtdt_size t <= 2 ^ 64 ->
  exists m', dtrace_vcopy P src dst t m = Some m' /\ only_wrote dst (dtdt_size t) m m'.
Proof.
  intros. unfold dtrace_vcopy. destruct (_ =? _); [by apply strcpy_only|by apply bcopy_only].
Qed.

Lemma strncmp_total s1 s2 limit m :
  0 <= limit -> exists r m', dtrace_strncmp P s1 s2 limit m = Some (r, m') /\ m_mem m' = m_mem m.
Proof.
  intros Hl. unfold dtrace_strncmp. destruct ((s1 =? s2) || (limit =? 0)) eqn:E; [eauto|].
  apply orb_false_iff in E as [_ Hne%Z.eqb_neq].
  edestruct (zloop_down (fun k '((_, _, l, m') : Z * Z * Z * mach) => l = k + 1 /\ 0 <= k /\ m_mem m' = m_mem m)
    (fun r : Z * mach => m_mem r.2 = m_mem m)) with (k := limit - 1) as ([r m'] & -> & Hm); [| |lia|eauto].
  - intros k [[[a b] l] m'] (-> & Hk & Hm). split; [lia|].
    assert (Hl8 : forall p q, exists c p' q', (if p =? 0 then (0, p, q) else
       let '(c, q') := dtrace_load8 P p q in (c, u64 (p + 1), q')) = (c, p', q') /\
       m_mem q' = m_mem q).
    { intros p q. destruct (p =? 0); [eauto|]. pose proof (load_mem P 1 p q) as Hq.
      unfold dtrace_load8. destruct (dtrace_load P 1 p q) as [c q']. eauto 6. }
    destruct (Hl8 a m') as (c1 & a' & m1 & -> & Hm1).
    destruct (Hl8 b m1) as (c2 & b' & m2 & -> & Hm2).
    destruct (negb (c1 =? c2)); [simpl; congruence|].
    replace (k + 1 - 1) with k by lia.
    destruct (Z.eqb_spec k 0); simpl negb; simpl andb; cbv iota; [simpl; congruence|].
    destruct (negb (c1 =? 0) && negb (faulted m2)); [|simpl; congruence].
    split_and!; (lia || congruence).
  - split_and!; (done || lia).
Qed.

Lemma canload_mem a sz ms vs m : m_mem (dtrace_canload a sz ms vs m).2 = m_mem m.
Proof. unfold dtrace_canload. by repeat case_match. Qed.

Lemma strcanload_total a sz ms vs m :
  0 <= sz < 2 ^ 32 ->
  exists b m', dtrace_strcanload P a sz ms vs m = Some (b, m') /\ m_mem m' = m_mem m.
Proof.
  intros Hsz. unfold dtrace_strcanload. case_match; [eauto|].
  destruct (strlen_total P a sz m Hsz) as ([n m1] & -> & _ & Hm).
  pose proof (canload_mem a (u64 (1 + n)) ms vs m1) as Hc.
  destruct (dtrace_canload _ _ _ _ _) as [b m2]. exists b, m2. split; [done|].
  simpl in *. congruence.
Qed.

Lemma vcanload_total a t ms vs m :
  0 <= dtvs_strsize vs < 2 ^ 32 ->
  exists b m', dtrace_vcanload P a t ms vs m = Some (b, m') /\ m_mem m' = m_mem m.
Proof.
  intros Hsz. unfold dtrace_vcanload. case_match; [eauto|]. case_match.
  - destruct (strlen_total P a _ m Hsz) as ([n m1] & -> & _ & Hm).
    pose proof (canload_mem a (u64 (n + 1)) ms vs m1) as Hc.
    destruct (dtrace_canload _ _ _ _ _) as [b m2]. exists b, m2. split; [done|].
    simpl in *. congruence.
  - pose proof (canload_mem a (dtdt_size t) ms vs m) as Hc.
    destruct (dtrace_canload _ _ _ _ _) as [b m2]. eauto.
Qed.

Lemma read_le_range mem a n : (forall a, is_u8 (mem a)) -> 0 <= read_le mem a n < 256 ^ Z.of_nat n.
Proof.
  intros Hb. revert a. induction n as [|n IH]; intros a; cbn [read_le]; [simpl; lia|].
  specialize (IH (a + 1)). specialize (Hb a). unfold is_u in Hb.
  replace (Z.of_nat (S n)) with (Z.of_nat n + 1) by lia. rewrite Z.pow_add_r, Z.pow_1_r by lia. lia.
Qed.

Lemma load_range size a m :
  bytes_ok m -> 0 <= size -> 0 <= (dtrace_load P size a m).1 < 256 ^ size.
Proof.
  intros Hb Hs. assert (0 < 256 ^ size) by (apply Z.pow_pos_nonneg; lia).
  unfold dtrace_load. case_match; [simpl; lia|]. case_match; [simpl; lia|].
  simpl fst. case_match; [lia|].
  pose proof (read_le_range (m_mem m) a (Z.to_nat size) Hb) as Hr.
  rewrite Z2Nat.id in Hr by lia. exact Hr.
Qed.

Lemma write_le_only a v n m dst len :
  dst <= a -> a + Z.of_nat n <= dst + len -> only_wrote dst len m (write_le a v n m).
Proof.
  revert a v m. induction n as [|n IH]; intros a v m Ha Hn; cbn [write_le].
  - by apply only_wrote_refl.
  - apply (only_wrote_trans _ _ _ (store8 a v m)); [apply store8_only; lia|]. apply IH; lia.
Qed.
End Footprint.

(** Kernel memory that belongs to the consumer: its scratch space, its dynamic
    variable space and the storage of its static variables. *)
Definition writable (ms : dtrace_mstate) (vs : dtrace_vstate) (a : Z) : Prop :=
  dtms_scratch_base ms <= a < dtms_scratch_base ms + dtms_scratch_size ms \/
  dtds_base (dtvs_dynvars vs) <= a < dtds_base (dtvs_dynvars vs) + dtds_size (dtvs_dynvars vs) \/
  exists sv, In (Some sv) (dtvs_locals vs ++ dtvs_globals vs) /\
    dtsv_data sv <= a < dtsv_data sv + dtsv_size sv.

Lemma may_store_writable ms vs a sz x :
  regions_ok ms vs -> may_store ms vs a sz -> a <= x < a + sz -> writable ms vs x.
Proof.
  intros [_ Hdyn _] [? ?|i ds chunk ? ? ? ?|sv Hin ? ?] Hx.
  - left. lia.
  - right. left. cbv zeta in Hdyn. subst ds chunk.
    unfold sizeof_dynvar, sizeof_dynhash in *.
    assert (0 <= i * dtds_chunksize (dtvs_dynvars vs)) by (apply Z.mul_nonneg_nonneg; lia).
    lia.
  - right. right. exists sv. split; [done|lia].
Qed.

(** * Properties *)

(** C37: an address range that dtrace_canstore() approves lies entirely in the
    scratch area, in the payload of one dynamic-variable chunk (never in the
    hash table or in a chunk's dtrace_dynvar_t header, never across chunks), or
    in the storage of one static variable; no overflow of the 64-bit checks lets
    another range through. *)
Theorem dtrace_canstore_safe a sz ms vs :
  is_u64 a -> is_u64 sz -> regions_ok ms vs ->
  dtrace_canstore a sz ms vs = true -> may_store ms vs a sz.
Proof. apply canstore_sound. Qed.

(** A small consumer: 64 bytes of scratch at 0x1000, a dynamic space at 0x2000
    with one hash bucket and 96-byte chunks, one 16-byte global at 0x4000. *)
Definition demo_difo : dtrace_difo :=
  Difo [DIF_INSTR_RET 0] [] 0x5000 4 [] (DifType 0 0 0 8) 0 0.
Definition demo_mstate : dtrace_mstate := MState 0x1000 0x1000 64 0 0 0 demo_difo.
Definition demo_vstate : dtrace_vstate :=
  VState 256 0 [Some (StatVar 0x4000 16 1 (DifV 0 0x500 1 0 0 (DifType 0 0 1 8)))] []
    [] (DState 0x2000 1024 1 96).

Lemma demo_regions_ok : regions_ok demo_mstate demo_vstate.
Proof.
  constructor.
  - simpl. lia.
  - cbv zeta. unfold sizeof_dynhash. simpl. split_and!; done.
  - intros sv Hin _. simpl in Hin. destruct Hin as [Hin|Hin]; [|done].
    injection Hin as <-. simpl. lia.
Qed.

Lemma dtrace_canstore_safe_witness :
  may_store demo_mstate demo_vstate 0x2070 8 /\
  dtrace_canstore 0x2040 8 demo_mstate demo_vstate = false /\
  dtrace_canstore 0x2098 16 demo_mstate demo_vstate = false.
Proof.
  split; [|split; reflexivity].
  apply (dtrace_canstore_safe 0x2070 8 demo_mstate demo_vstate);
    [unfold is_u; lia|unfold is_u; lia|apply demo_regions_ok|reflexivity].
Defined.

(** A safe load that ends with no fault flag set returned the little-endian
    word at an aligned address that did not page-fault and that overlaps no
    toxic range, provided that the word ends below the top of the address
    space; memory is unchanged. *)
Theorem dtrace_load_safe P size a m v m' :
  0 < size -> is_u64 a -> a + size < 2 ^ 64 ->
  dtrace_load P size a m = (v, m') -> faulted m' = false ->
  v = read_le (m_mem m) a (Z.to_nat size) /\ Z.land a (size - 1) = 0 /\
  load_traps P a size = false /\ m_mem m' = m_mem m /\
  (forall r, In r (toxranges P) -> a + size <= dtt_base r \/ dtt_limit r <= a).
Proof.
  intros Hs Ha Hend Hl Hf.
  pose proof (load_mem P size a m) as Hm. rewrite Hl in Hm.
  destruct (load_no_fault P size a m v m') as (? & ? & ? & ?); auto.
Qed.

Definition demo_platform : platform :=
  Platform [ToxRange 0xa000 0xb000] (fun a _ => a =? 0).
Definition demo_mach : mach := Mach (fun a => u8 a) 0 0.

Lemma dtrace_load_safe_witness :
  let '(v, m') := dtrace_load demo_platform 4 0x1004 demo_mach in
  v = 0x07060504 /\ (0x1004 + 4 <= 0xa000 \/ 0xb000 <= 0x1004) /\
  faulted (dtrace_load demo_platform 4 0xa000 demo_mach).2 = true.
Proof.
  destruct (dtrace_load demo_platform 4 0x1004 demo_mach) as [v m'] eqn:E.
  destruct (dtrace_load_safe demo_platform 4 0x1004 demo_mach v m') as (-> & _ & _ & _ & Ht);
    [lia|unfold is_u; lia|lia|exact E| |].
  - assert (m' = (dtrace_load demo_platform 4 0x1004 demo_mach).2) as -> by (by rewrite E).
    reflexivity.
  - split; [reflexivity|]. split; [apply (Ht (ToxRange 0xa000 0xb000)); left; reflexivity|].
    reflexivity.
Defined.

(** The bound of the previous property is needed: because the end of the
    word is computed modulo 2^64, the toxic-range test of DTRACE_LOADFUNC never
    fires for the word that ends at the top of the address space, even when a
    toxic range covers it. *)
Theorem dtrace_load_top_word_unchecked P size m :
  (size = 2 \/ size = 4 \/ size = 8) ->
  Forall (fun r => 0 <= dtt_base r) (toxranges P) ->
  load_traps P (2 ^ 64 - size) size = false -> faulted m = false ->
  exists m', dtrace_load P size (2 ^ 64 - size) m =
    (read_le (m_mem m) (2 ^ 64 - size) (Z.to_nat size), m') /\ faulted m' = false.
Proof.
  intros Hsize Hbase Htrap Hf.
  assert (Hal : Z.land (2 ^ 64 - size) (size - 1) = 0)
    by (destruct Hsize as [->|[->| ->]]; reflexivity).
  assert (Hex : existsb (toxic_hit (2 ^ 64 - size) size) (toxranges P) = false).
  { apply not_true_is_false. rewrite existsb_exists. intros (r & Hin & Hr).
    rewrite List.Forall_forall in Hbase. specialize (Hbase r Hin). revert Hr. unfold toxic_hit.
    replace (u64 (2 ^ 64 - size + size)) with 0 by word. zcase; done || lia. }
  unfold dtrace_load. rewrite Hal, Hex, Htrap, faulted_clear, faulted_set, Hf. simpl negb. cbv iota.
  eexists. split; [reflexivity|]. by rewrite faulted_clear, faulted_set.
Qed.

Lemma dtrace_load_top_word_unchecked_witness :
  let P := Platform [ToxRange 0 (2 ^ 64 - 1)] (fun _ _ => false) in
  (exists m', dtrace_load P 8 (2 ^ 64 - 8) demo_mach =
     (read_le (m_mem demo_mach) (2 ^ 64 - 8) 8, m') /\ faulted m' = false) /\
  faulted (dtrace_load P 8 (2 ^ 64 - 16) demo_mach).2 = true.
Proof.
  split; [|reflexivity].
  apply (dtrace_load_top_word_unchecked
           (Platform [ToxRange 0 (2 ^ 64 - 1)] (fun _ _ => false)) 8 demo_mach);
    [auto| |reflexivity|reflexivity].
  constructor; [simpl; lia|constructor].
Defined.

(** Dtrace_bcopy() has the semantics of memmove: when the source bytes are
    readable and neither block wraps around, it terminates, leaves no fault, and
    the destination holds the original source bytes, whatever the overlap;
    every other byte is unchanged. *)
Theorem dtrace_bcopy_memmove P src dst len m :
  0 <= len -> 0 <= src -> src + len <= 2 ^ 64 -> 0 <= dst -> dst + len <= 2 ^ 64 ->
  (forall i, 0 <= i < len -> readable P (src + i)) ->
  (forall a, is_u8 (m_mem m a)) -> faulted m = false ->
  exists m', dtrace_bcopy P src dst len m = Some m' /\ faulted m' = false /\
    (forall i, 0 <= i < len -> m_mem m' (dst + i) = m_mem m (src + i)) /\
    (forall a, ~ dst <= a < dst + len -> m_mem m' a = m_mem m a).
Proof.
  intros Hlen ???? Hread Hb Hf.
  destruct (bcopy_ok P src dst len m) as (m' & -> & Hf' & Hm); [done..|].
  exists m'. split_and!; [done|done| |].
  - intros i Hi. rewrite Hm. unfold copied. zcase; simpl; try lia. f_equal. lia.
  - intros a Ha. rewrite Hm. unfold copied. zcase; simpl; (done || lia).
Qed.

Lemma dtrace_bcopy_memmove_witness :
  exists m', dtrace_bcopy demo_platform 0x1000 0x1002 8 demo_mach = Some m' /\
    faulted m' = false /\
    (forall i, 0 <= i < 8 -> m_mem m' (0x1002 + i) = m_mem demo_mach (0x1000 + i)) /\
    (forall a, ~ 0x1002 <= a < 0x1002 + 8 -> m_mem m' a = m_mem demo_mach a).
Proof.
  apply (dtrace_bcopy_memmove demo_platform 0x1000 0x1002 8 demo_mach); try lia.
  - intros i Hi. split; simpl.
    + unfold toxic_hit. simpl. rewrite u64_id by (unfold is_u; lia). zcase; simpl; (done || lia).
    + zcase; (done || lia).
  - intros a. apply u8_range.
  - reflexivity.
Defined.

(** With a limit below 2^32 dtrace_strlen() always terminates with a result
    between 0 and the limit and memory untouched; on readable memory the result
    is the index of the first NUL byte, or the limit if there is none. *)
Theorem dtrace_strlen_correct P s lim m :
  0 <= lim < 2 ^ 32 ->
  exists n m', dtrace_strlen P s lim m = Some (n, m') /\ 0 <= n <= lim /\ m_mem m' = m_mem m /\
    (0 <= s -> s + lim < 2 ^ 64 -> (forall i, 0 <= i < lim -> readable P (s + i)) ->
     faulted m = false -> n = cstrnlen (m_mem m) s (Z.to_nat lim) /\ faulted m' = false).
Proof.
  intros Hlim. destruct (strlen_total P s lim m Hlim) as ([n m'] & E & Hn & Hm).
  exists n, m'. split_and!; [done|apply Hn..|done|].
  intros Hs Hend Hr Hf. destruct (strlen_ok P s lim m) as (m2 & E2 & _ & Hf2); [done..|].
  rewrite E in E2. by injection E2 as -> ->.
Qed.

Lemma dtrace_strlen_correct_witness :
  exists n m', dtrace_strlen demo_platform 0x10f0 100 demo_mach = Some (n, m') /\ n = 16.
Proof.
  destruct (dtrace_strlen_correct demo_platform 0x10f0 100 demo_mach ltac:(lia))
    as (n & m' & E & _ & _ & Hf). exists n, m'. split; [exact E|].
  destruct Hf as [-> _]; [lia|lia| |reflexivity|reflexivity].
  intros i Hi. split; simpl.
  - unfold toxic_hit. simpl. rewrite u64_id by (unfold is_u; lia). zcase; simpl; (done || lia).
  - zcase; (done || lia).
Defined.

(** The limit does not ensure completion when it is 2^32 or more: the counter
    is a 32-bit uint_t that is compared with a 64-bit size_t, so on memory with
    no NUL byte the loop of dtrace_strlen() never ends. *)
Theorem dtrace_strlen_wide_limit_diverges P s lim m :
  2 ^ 32 <= lim -> is_u64 s -> (forall a, is_u64 a -> readable P a) ->
  (forall a, m_mem m a <> 0) -> faulted m = false -> dtrace_strlen P s lim m = None.
Proof. apply strlen_diverges. Qed.

Lemma dtrace_strlen_wide_limit_diverges_witness :
  dtrace_strlen (Platform [] (fun _ _ => false)) 0x1000 (2 ^ 32) (Mach (fun _ => 65) 0 0) = None.
Proof.
  apply (dtrace_strlen_wide_limit_diverges (Platform [] (fun _ _ => false)) 0x1000 (2 ^ 32)
           (Mach (fun _ => 65) 0 0));
    [lia|unfold is_u; lia|intros a _; split; reflexivity|intros a; discriminate|reflexivity].
Defined.
