(* ===== verification/DifValidate.v ===== *)
(** Validation of DIF objects (driver/dtrace.c, dtrace_difo_validate() and
    dtrace_difo_validate_helper()).

    Every DIF object that reaches the kernel goes through
    [dtrace_difo_validate] before it may be emulated.  The checks of one
    instruction are grouped as in the switch of the source; each group counts
    the errors it reports ([efunc] returns 1). *)
From S2P Require Import Prelude Dif.

(** The number of conditions that hold: each one is an [err += efunc(...)]. *)
Fixpoint errs (l : list bool) : Z :=
  match l with
  | [] => 0
  | b :: l => (if b then 1 else 0) + errs l
  end.

(** * The checks of one instruction *)
Section Checks.
Context (nregs : Z) (dp : dtrace_difo) (pc instr : Z).

Let r1 := DIF_INSTR_R1 instr.
Let r2 := DIF_INSTR_R2 instr.
Let rd := DIF_INSTR_RD instr.
Let rs := DIF_INSTR_RS instr.
Let v := DIF_INSTR_VAR instr.

(** Three-register instructions. *)
Definition check_alu : Z := errs [nregs <=? r1; nregs <=? r2; nregs <=? rd; rd =? 0].

(** not, mov, allocs, and all loads and stores. *)
Definition check_unary : Z := errs [nregs <=? r1; negb (r2 =? 0); nregs <=? rd; rd =? 0].
Definition check_load : Z := check_unary.
Definition check_rload : Z := check_unary.
Definition check_uload : Z := check_unary.
Definition check_store : Z := check_unary.

Definition check_cmp : Z := errs [nregs <=? r1; nregs <=? r2; negb (rd =? 0)].
Definition check_tst : Z := errs [nregs <=? r1; negb (r2 =? 0) || negb (rd =? 0)].

Definition check_branch : Z :=
  let label := DIF_INSTR_LABEL instr in
  errs [dtdo_len dp <=? label; label <=? pc].

Definition check_ret : Z := errs [negb (r1 =? 0) || negb (r2 =? 0); nregs <=? rd].
Definition check_nop : Z := errs [negb (r1 =? 0) || negb (r2 =? 0) || negb (rd =? 0)].

Definition check_setx : Z :=
  errs [dtdo_intlen dp <=? DIF_INSTR_INTEGER instr; nregs <=? rd; rd =? 0].
Definition check_sets : Z :=
  errs [dtdo_strlen dp <=? DIF_INSTR_STRING instr; nregs <=? rd; rd =? 0].

Definition check_lda : Z :=
  errs [DIF_VAR_ARRAY_MAX <? r1; nregs <=? r2; nregs <=? rd; rd =? 0].
Definition check_ldvar : Z :=
  errs [(v <? DIF_VAR_OTHER_MIN) || (DIF_VAR_OTHER_MAX <? v); nregs <=? rd; rd =? 0].
Definition check_stvar : Z :=
  errs [(v <? DIF_VAR_OTHER_UBASE) || (DIF_VAR_OTHER_MAX <? v); nregs <=? rs].

Definition check_call : Z :=
  errs [DIF_SUBR_MAX <? DIF_INSTR_SUBR instr; nregs <=? rd; rd =? 0].

Definition check_pushtr : Z :=
  let type := DIF_INSTR_TYPE instr in
  errs [negb (type =? DIF_TYPE_STRING) && negb (type =? DIF_TYPE_CTF);
        nregs <=? r2; nregs <=? rs].
Definition check_pushtv : Z :=
  errs [negb (DIF_INSTR_TYPE instr =? DIF_TYPE_CTF); nregs <=? r2; nregs <=? rs].

(** The switch; the default case reports an invalid opcode. *)
Definition check_instr : Z :=
  match op_of (DIF_INSTR_OP instr) with
  | Some (DIF_OP_OR | DIF_OP_XOR | DIF_OP_AND | DIF_OP_SLL | DIF_OP_SRL | DIF_OP_SRA
    | DIF_OP_SUB | DIF_OP_ADD | DIF_OP_MUL | DIF_OP_SDIV | DIF_OP_UDIV | DIF_OP_SREM
    | DIF_OP_UREM | DIF_OP_COPYS) => check_alu
  | Some (DIF_OP_NOT | DIF_OP_MOV | DIF_OP_ALLOCS) => check_unary
  | Some (DIF_OP_LDSB | DIF_OP_LDSH | DIF_OP_LDSW | DIF_OP_LDUB | DIF_OP_LDUH
    | DIF_OP_LDUW | DIF_OP_LDX) => check_load
  | Some (DIF_OP_RLDSB | DIF_OP_RLDSH | DIF_OP_RLDSW | DIF_OP_RLDUB | DIF_OP_RLDUH
    | DIF_OP_RLDUW | DIF_OP_RLDX) => check_rload
  | Some (DIF_OP_ULDSB | DIF_OP_ULDSH | DIF_OP_ULDSW | DIF_OP_ULDUB | DIF_OP_ULDUH
    | DIF_OP_ULDUW | DIF_OP_ULDX) => check_uload
  | Some (DIF_OP_STB | DIF_OP_STH | DIF_OP_STW | DIF_OP_STX) => check_store
  | Some (DIF_OP_CMP | DIF_OP_SCMP) => check_cmp
  | Some DIF_OP_TST => check_tst
  | Some (DIF_OP_BA | DIF_OP_BE | DIF_OP_BNE | DIF_OP_BG | DIF_OP_BGU | DIF_OP_BGE
    | DIF_OP_BGEU | DIF_OP_BL | DIF_OP_BLU | DIF_OP_BLE | DIF_OP_BLEU) => check_branch
  | Some DIF_OP_RET => check_ret
  | Some (DIF_OP_NOP | DIF_OP_POPTS | DIF_OP_FLUSHTS) => check_nop
  | Some DIF_OP_SETX => check_setx
  | Some DIF_OP_SETS => check_sets
  | Some (DIF_OP_LDGA | DIF_OP_LDTA) => check_lda
  | Some (DIF_OP_LDGS | DIF_OP_LDTS | DIF_OP_LDLS | DIF_OP_LDGAA | DIF_OP_LDTAA) => check_ldvar
  | Some (DIF_OP_STGS | DIF_OP_STTS | DIF_OP_STLS | DIF_OP_STGAA | DIF_OP_STTAA) => check_stvar
  | Some DIF_OP_CALL => check_call
  | Some DIF_OP_PUSHTR => check_pushtr
  | Some DIF_OP_PUSHTV => check_pushtv
  | Some (DIF_OP_XLATE | DIF_OP_XLARG) | None => 1
  end.
End Checks.

(** [op >= DIF_OP_LDSB && op <= DIF_OP_LDX]. *)
Definition is_kload (o : dif_op) : bool :=
  (op_num DIF_OP_LDSB <=? op_num o) && (op_num o <=? op_num DIF_OP_LDX).

(** The instruction left in dtdo_buf[pc]: without the privilege to read kernel
    memory, a load becomes the restricted load of the same width. *)
Definition rewrite_load (kcheckload : bool) (instr : Z) : Z :=
  match op_of (DIF_INSTR_OP instr) with
  | Some o =>
      if is_kload o && kcheckload then
        DIF_INSTR_LOAD (DIF_INSTR_OP instr + op_num DIF_OP_RLDSB - op_num DIF_OP_LDSB)
          (DIF_INSTR_R1 instr) (DIF_INSTR_RD instr)
      else instr
  | None => instr
  end.

(** A call to copyout() or copyoutstr() makes the object destructive. *)
Definition is_destructive (instr : Z) : bool :=
  match op_of (DIF_INSTR_OP instr) with
  | Some DIF_OP_CALL =>
      (DIF_INSTR_SUBR instr =? DIF_SUBR_COPYOUT) ||
      (DIF_INSTR_SUBR instr =? DIF_SUBR_COPYOUTSTR)
  | _ => false
  end.

#[global] Arguments check_instr : simpl never.
#[global] Arguments rewrite_load : simpl never.
#[global] Arguments is_destructive : simpl never.

(** The loop over the text: stops at the first instruction with an error.
    Returns the error count, the text and dtdo_destructive. *)
Fixpoint validate_text (kcheckload : bool) (nregs : Z) (dp : dtrace_difo) (pc : Z)
    (text : list Z) (destructive : Z) : Z * list Z * Z :=
  match text with
  | [] => (0, [], destructive)
  | instr :: text =>
      let err := check_instr nregs dp pc instr in
      let instr' := rewrite_load kcheckload instr in
      let destructive := if is_destructive instr then 1 else destructive in
      if err =? 0 then
        let '(err, text, destructive) :=
          validate_text kcheckload nregs dp (pc + 1) text destructive in
        (err, instr' :: text, destructive)
      else (err, instr' :: text, destructive)
  end.

Definition last_op_err (text : list Z) : Z :=
  match text !! pred (length text) with
  | Some instr => if DIF_INSTR_OP instr =? op_num DIF_OP_RET then 0 else 1
  | None => 0
  end.

Definition rtype_err (t : dtrace_diftype) : Z :=
  if byref t then 0
  else if existsb (Z.eqb (dtdt_size t)) [0; 1; 2; 4; 8] then 0 else 1.

(** The previous definition of the variable in the consumer's state, if any. *)
Definition existing_var (vstate : dtrace_vstate) (v : dtrace_difv) : option dtrace_difv :=
  let ndx := Z.to_nat (dtdv_id v - DIF_VAR_OTHER_UBASE) in
  if dtdv_scope v =? DIFV_SCOPE_GLOBAL then
    match dtvs_globals vstate !! ndx with
    | Some (Some svar) => Some (dtsv_var svar) | _ => None
    end
  else if dtdv_scope v =? DIFV_SCOPE_THREAD then dtvs_tlocals vstate !! ndx
  else
    match dtvs_locals vstate !! ndx with
    | Some (Some svar) => Some (dtsv_var svar) | _ => None
    end.

Section Validate.
(** The tunable dtrace_global_maxsize. *)
Context (dtrace_global_maxsize : Z).

(** One turn of the loop over the variable table. *)
Definition validate_var (vstate : dtrace_vstate) (v : dtrace_difv) : Z :=
  if negb (dtdv_scope v =? DIFV_SCOPE_GLOBAL) && negb (dtdv_scope v =? DIFV_SCOPE_THREAD) &&
     negb (dtdv_scope v =? DIFV_SCOPE_LOCAL) then 1
  else if negb (dtdv_kind v =? DIFV_KIND_ARRAY) && negb (dtdv_kind v =? DIFV_KIND_SCALAR) then 1
  else if DIF_VARIABLE_MAX <? dtdv_id v then 1
  else if dtdv_id v <? DIF_VAR_OTHER_UBASE then 0
  else
    let existing := existing_var vstate v in
    let vt := dtdv_type v in
    if byref vt && (dtdt_size vt =? 0) then 1
    else if byref vt && (dtdv_scope v =? DIFV_SCOPE_GLOBAL) &&
            (dtrace_global_maxsize <? dtdt_size vt) then 1
    else
      match existing with
      | None => 0
      | Some existing =>
          if dtdv_id existing =? 0 then 0
          else
            let err := if dtdv_kind existing =? dtdv_kind v then 0 else 1 in
            let et := dtdv_type existing in
            if negb (dtdt_flags vt =? dtdt_flags et) then err + 1
            else if negb (dtdt_size vt =? 0) && negb (dtdt_size vt =? dtdt_size et) then err + 1
            else err
      end.

Fixpoint validate_vars (vstate : dtrace_vstate) (vartab : list dtrace_difv) (err : Z) : Z :=
  match vartab with
  | [] => err
  | v :: vartab =>
      if err =? 0 then validate_vars vstate vartab (err + validate_var vstate v) else err
  end.

Definition DTRACE_CRV_KERNEL : Z := 0x02.

(** [cr] tells whether a credential was passed ([cr != NULL]).  Returns the
    error count and the object with its text rewritten. *)
Definition dtrace_difo_validate (dp : dtrace_difo) (vstate : dtrace_vstate) (nregs : Z)
    (cr : bool) : Z * dtrace_difo :=
  let kcheckload := negb cr || (Z.land (dtvs_visible vstate) DTRACE_CRV_KERNEL =? 0) in
  let '(err, text, destructive) := validate_text kcheckload nregs dp 0 (dtdo_buf dp) 0 in
  let err := err + last_op_err text in
  let err := err + rtype_err (dtdo_rtype dp) in
  let err := validate_vars vstate (dtdo_vartab dp) err in
  (err, Difo text (dtdo_inttab dp) (dtdo_strtab dp) (dtdo_strlen dp) (dtdo_vartab dp)
          (dtdo_rtype dp) (dtdo_refcnt dp) destructive).
End Validate.

(** * Helpers

    DIF objects of a helper (ustack helpers) are validated once more. *)

Definition helper_op (o : dif_op) : bool :=
  match o with
  | DIF_OP_OR | DIF_OP_XOR | DIF_OP_AND | DIF_OP_SLL | DIF_OP_SRL | DIF_OP_SRA | DIF_OP_SUB
  | DIF_OP_ADD | DIF_OP_MUL | DIF_OP_SDIV | DIF_OP_UDIV | DIF_OP_SREM | DIF_OP_UREM
  | DIF_OP_COPYS | DIF_OP_NOT | DIF_OP_MOV | DIF_OP_RLDSB | DIF_OP_RLDSH | DIF_OP_RLDSW
  | DIF_OP_RLDUB | DIF_OP_RLDUH | DIF_OP_RLDUW | DIF_OP_RLDX | DIF_OP_ULDSB | DIF_OP_ULDSH
  | DIF_OP_ULDSW | DIF_OP_ULDUB | DIF_OP_ULDUH | DIF_OP_ULDUW | DIF_OP_ULDX | DIF_OP_STB
  | DIF_OP_STH | DIF_OP_STW | DIF_OP_STX | DIF_OP_ALLOCS | DIF_OP_CMP | DIF_OP_SCMP
  | DIF_OP_TST | DIF_OP_BA | DIF_OP_BE | DIF_OP_BNE | DIF_OP_BG | DIF_OP_BGU | DIF_OP_BGE
  | DIF_OP_BGEU | DIF_OP_BL | DIF_OP_BLU | DIF_OP_BLE | DIF_OP_BLEU | DIF_OP_RET | DIF_OP_NOP
  | DIF_OP_POPTS | DIF_OP_FLUSHTS | DIF_OP_SETX | DIF_OP_SETS | DIF_OP_LDGA | DIF_OP_LDLS
  | DIF_OP_STGS | DIF_OP_STLS | DIF_OP_PUSHTR | DIF_OP_PUSHTV => true
  | _ => false
  end.

(** The variables a helper may load. *)
Definition helper_var (v : Z) : bool :=
  (DIF_VAR_OTHER_UBASE <=? v) || ((DIF_VAR_ARG0 <=? v) && (v <=? DIF_VAR_ARG9)) ||
  existsb (Z.eqb v) [DIF_VAR_CURTHREAD; DIF_VAR_PID; DIF_VAR_PPID; DIF_VAR_TID;
    DIF_VAR_EXECNAME; DIF_VAR_ZONENAME; DIF_VAR_UID; DIF_VAR_GID].

(** ALLOCA, BCOPY, COPYIN, COPYINTO, COPYINSTR, INDEX, INET_NTOA, INET_NTOA6,
    INET_NTOP, LLTOSTR, RINDEX, STRCHR, STRJOIN, STRRCHR, STRSTR, HTONS, HTONL,
    HTONLL, NTOHS, NTOHL, NTOHLL. *)
Definition helper_subr (subr : Z) : bool :=
  existsb (Z.eqb subr)
    [15; 16; 8; 17; 9; 33; 42; 43; 41; 24; 34; 28; 23; 29; 30; 35; 36; 37; 38; 39; 40].

Definition helper_instr_err (instr : Z) : Z :=
  match op_of (DIF_INSTR_OP instr) with
  | Some DIF_OP_LDGS => if helper_var (DIF_INSTR_VAR instr) then 0 else 1
  | Some DIF_OP_CALL => if helper_subr (DIF_INSTR_SUBR instr) then 0 else 1
  | Some o => if helper_op o then 0 else 1
  | None => 1
  end.

Definition dtrace_difo_validate_helper (dp : dtrace_difo) : Z :=
  fold_left (fun err instr => err + helper_instr_err instr) (dtdo_buf dp) 0.

(** * What the rules of the validator say

    [dif_reads] are the registers an instruction reads, [dif_dest] its
    destination register: the one it writes, or for a store or copys the one
    that holds the address it stores to. *)

Definition is_branch (o : dif_op) : bool :=
  (op_num DIF_OP_BA <=? op_num o) && (op_num o <=? op_num DIF_OP_BLEU).

Definition dif_reads (o : dif_op) (i : Z) : list Z :=
  match o with
  | DIF_OP_OR | DIF_OP_XOR | DIF_OP_AND | DIF_OP_SLL | DIF_OP_SRL | DIF_OP_SRA | DIF_OP_SUB
  | DIF_OP_ADD | DIF_OP_MUL | DIF_OP_SDIV | DIF_OP_UDIV | DIF_OP_SREM | DIF_OP_UREM
  | DIF_OP_COPYS | DIF_OP_CMP | DIF_OP_SCMP => [DIF_INSTR_R1 i; DIF_INSTR_R2 i]
  | DIF_OP_NOT | DIF_OP_MOV | DIF_OP_ALLOCS | DIF_OP_TST
  | DIF_OP_LDSB | DIF_OP_LDSH | DIF_OP_LDSW | DIF_OP_LDUB | DIF_OP_LDUH | DIF_OP_LDUW
  | DIF_OP_LDX | DIF_OP_RLDSB | DIF_OP_RLDSH | DIF_OP_RLDSW | DIF_OP_RLDUB | DIF_OP_RLDUH
  | DIF_OP_RLDUW | DIF_OP_RLDX | DIF_OP_ULDSB | DIF_OP_ULDSH | DIF_OP_ULDSW | DIF_OP_ULDUB
  | DIF_OP_ULDUH | DIF_OP_ULDUW | DIF_OP_ULDX
  | DIF_OP_STB | DIF_OP_STH | DIF_OP_STW | DIF_OP_STX => [DIF_INSTR_R1 i]
  | DIF_OP_LDGA | DIF_OP_LDTA => [DIF_INSTR_R2 i]
  | DIF_OP_RET | DIF_OP_STGS | DIF_OP_STTS | DIF_OP_STLS | DIF_OP_STGAA | DIF_OP_STTAA =>
      [DIF_INSTR_RD i]
  | DIF_OP_PUSHTR | DIF_OP_PUSHTV => [DIF_INSTR_R2 i; DIF_INSTR_RD i]
  | _ => []
  end.

Definition dif_dest (o : dif_op) (i : Z) : option Z :=
  match o with
  | DIF_OP_CMP | DIF_OP_SCMP | DIF_OP_TST | DIF_OP_RET | DIF_OP_NOP | DIF_OP_POPTS
  | DIF_OP_FLUSHTS | DIF_OP_STGS | DIF_OP_STTS | DIF_OP_STLS | DIF_OP_STGAA | DIF_OP_STTAA
  | DIF_OP_PUSHTR | DIF_OP_PUSHTV => None
  | o => if is_branch o then None else Some (DIF_INSTR_RD i)
  end.

(** The fields that must be zero (rule 4). *)
Definition dif_reserved (o : dif_op) (i : Z) : list Z :=
  match o with
  | DIF_OP_NOT | DIF_OP_MOV | DIF_OP_ALLOCS
  | DIF_OP_LDSB | DIF_OP_LDSH | DIF_OP_LDSW | DIF_OP_LDUB | DIF_OP_LDUH | DIF_OP_LDUW
  | DIF_OP_LDX | DIF_OP_RLDSB | DIF_OP_RLDSH | DIF_OP_RLDSW | DIF_OP_RLDUB | DIF_OP_RLDUH
  | DIF_OP_RLDUW | DIF_OP_RLDX | DIF_OP_ULDSB | DIF_OP_ULDSH | DIF_OP_ULDSW | DIF_OP_ULDUB
  | DIF_OP_ULDUH | DIF_OP_ULDUW | DIF_OP_ULDX
  | DIF_OP_STB | DIF_OP_STH | DIF_OP_STW | DIF_OP_STX => [DIF_INSTR_R2 i]
  | DIF_OP_CMP | DIF_OP_SCMP => [DIF_INSTR_RD i]
  | DIF_OP_TST => [DIF_INSTR_R2 i; DIF_INSTR_RD i]
  | DIF_OP_RET => [DIF_INSTR_R1 i; DIF_INSTR_R2 i]
  | DIF_OP_NOP | DIF_OP_POPTS | DIF_OP_FLUSHTS => [DIF_INSTR_R1 i; DIF_INSTR_R2 i; DIF_INSTR_RD i]
  | _ => []
  end.

(** The constraint on the immediate operand (rules 2 and 6). *)
Definition dif_operand (dp : dtrace_difo) (pc : Z) (o : dif_op) (i : Z) : Prop :=
  match o with
  | DIF_OP_SETX => DIF_INSTR_INTEGER i < dtdo_intlen dp
  | DIF_OP_SETS => DIF_INSTR_STRING i < dtdo_strlen dp
  | DIF_OP_LDGS | DIF_OP_LDTS | DIF_OP_LDLS | DIF_OP_LDGAA | DIF_OP_LDTAA =>
      DIF_VAR_OTHER_MIN <= DIF_INSTR_VAR i
  | DIF_OP_STGS | DIF_OP_STTS | DIF_OP_STLS | DIF_OP_STGAA | DIF_OP_STTAA =>
      DIF_VAR_OTHER_UBASE <= DIF_INSTR_VAR i
  | DIF_OP_CALL => DIF_INSTR_SUBR i <= DIF_SUBR_MAX
  | DIF_OP_PUSHTR => DIF_INSTR_TYPE i = DIF_TYPE_STRING \/ DIF_INSTR_TYPE i = DIF_TYPE_CTF
  | DIF_OP_PUSHTV => DIF_INSTR_TYPE i = DIF_TYPE_CTF
  | DIF_OP_XLATE | DIF_OP_XLARG => False
  | o => if is_branch o then pc < DIF_INSTR_LABEL i < dtdo_len dp else True
  end.

(** The instruction at [pc] obeys rules 1-4 and 6 of dtrace_difo_validate(). *)
Record instr_valid (nregs : Z) (dp : dtrace_difo) (pc i : Z) (o : dif_op) : Prop := {
  iv_op : op_of (DIF_INSTR_OP i) = Some o;
  iv_reads : Forall (fun r => r < nregs) (dif_reads o i);
  iv_dest : forall r, dif_dest o i = Some r -> 0 < r < nregs;
  iv_reserved : Forall (fun f => f = 0) (dif_reserved o i);
  iv_operand : dif_operand dp pc o i
}.

(** The whole text is valid and ends in a ret. *)
Record text_valid (nregs : Z) (dp : dtrace_difo) : Prop := {
  tv_instr : forall pc i, dtdo_buf dp !! pc = Some i ->
    exists o, instr_valid nregs dp (Z.of_nat pc) i o;
  tv_last : forall i, dtdo_buf dp !! pred (length (dtdo_buf dp)) = Some i ->
    op_of (DIF_INSTR_OP i) = Some DIF_OP_RET
}.

(** * Facts *)

Lemma errs_nonneg l : 0 <= errs l.
Proof. induction l as [|[] l IH]; simpl; lia. Qed.

Lemma errs_cons_zero b l : errs (b :: l) = 0 <-> b = false /\ errs l = 0.
Proof.
  pose proof (errs_nonneg l). destruct b; simpl.
  - split; [lia|by intros [? _]].
  - rewrite Z.add_0_l. by split; [|intros [_ ?]].
Qed.

Lemma errs_nil_zero : errs [] = 0 <-> True.
Proof. done. Qed.

Ltac reflect_checks :=
  rewrite ?errs_cons_zero, ?errs_nil_zero, ?orb_false_iff, ?andb_false_iff, ?negb_false_iff,
    ?Z.leb_gt, ?Z.ltb_ge, ?Z.eqb_eq, ?Z.eqb_neq.

(** The checks of the switch are the rules. *)
Lemma instr_valid_iff nregs dp pc i o :
  op_of (DIF_INSTR_OP i) = Some o -> check_instr nregs dp pc i = 0 <-> instr_valid nregs dp pc i o.
Proof.
  intros Ho. unfold check_instr. rewrite Ho.
  pose proof (RD_range i) as Hd. pose proof (R1_range i) as H1. pose proof (R2_range i) as H2.
  pose proof (VAR_range i) as Hv. pose proof (LABEL_range i) as Hl.
  change (DIF_INSTR_INTEGER i) with (DIF_INSTR_VAR i) in *.
  change (DIF_INSTR_RS i) with (DIF_INSTR_RD i) in *.
  trans (Forall (fun r => r < nregs) (dif_reads o i) /\
    (forall r, dif_dest o i = Some r -> 0 < r < nregs) /\
    Forall (fun f => f = 0) (dif_reserved o i) /\ dif_operand dp pc o i).
  2:{ split; [by intros (? & ? & ? & ?)|by intros []]. }
  destruct o; cbn [dif_reads dif_dest dif_reserved dif_operand];
    try change (is_branch _) with false; try change (is_branch _) with true; cbv iota;
    unfold check_rload, check_uload, check_store, check_load, check_alu, check_unary, check_cmp,
      check_tst, check_branch, check_ret, check_nop, check_setx, check_sets, check_lda,
      check_ldvar, check_stvar, check_call, check_pushtr, check_pushtv;
    cbv zeta; try reflect_checks; rewrite ?Forall_cons_iff, ?Forall_nil_iff;
    change (DIF_INSTR_INTEGER i) with (DIF_INSTR_VAR i);
    change (DIF_INSTR_RS i) with (DIF_INSTR_RD i);
    unfold DIF_VAR_ARRAY_MAX, DIF_VAR_OTHER_MAX.
  all: try (split; [intros H|intros (? & Hw & ? & ?); try specialize (Hw _ eq_refl); lia]).
  all: try (split_and!; try (intros ? [= <-]); lia).
Qed.

Lemma check_instr_nonneg nregs dp pc i : 0 <= check_instr nregs dp pc i.
Proof.
  unfold check_instr. destruct (op_of _) as [o|]; [|lia].
  destruct o; try apply errs_nonneg; lia.
Qed.

Lemma check_instr_zero nregs dp pc i :
  check_instr nregs dp pc i = 0 <-> exists o, instr_valid nregs dp pc i o.
Proof.
  split.
  - intros H. destruct (op_of (DIF_INSTR_OP i)) as [o|] eqn:Ho.
    + exists o. by apply instr_valid_iff.
    + unfold check_instr in H. by rewrite Ho in H.
  - intros (o & Hv). apply (instr_valid_iff _ _ _ _ o); [apply Hv|done].
Qed.

(** The loop accepts exactly the valid texts. *)
Lemma validate_text_spec k nregs dp pc text d :
  let '(err, text', d') := validate_text k nregs dp pc text d in
  0 <= err /\
  (err = 0 <-> forall j i, text !! j = Some i ->
     exists o, instr_valid nregs dp (pc + Z.of_nat j) i o) /\
  (err = 0 -> text' = map (rewrite_load k) text /\
  d' = (if existsb is_destructive text then 1 else d)).
Proof.
  revert pc d. induction text as [|i text IH]; intros pc d; cbn [validate_text existsb map].
  { split_and!; [done|split; [|done]|done]. intros _ j i. by rewrite lookup_nil. }
  pose proof (check_instr_nonneg nregs dp pc i) as Hpos.
  destruct (Z.eqb_spec (check_instr nregs dp pc i) 0) as [He|He].
  - specialize (IH (pc + 1) (if is_destructive i then 1 else d)).
    destruct (validate_text _ _ _ _ _ _) as [[err text'] d']. destruct IH as (Hp & Hiff & Hout).
    split_and!; [done| |].
    + rewrite Hiff. apply check_instr_zero in He. split.
      * intros H [|j] i'; [intros [= <-]; by rewrite Z.add_0_r|].
        intros Hj. destruct (H j i' Hj) as (o & Hv). exists o.
        by replace (pc + Z.of_nat (S j)) with (pc + 1 + Z.of_nat j) by lia.
      * intros H j i' Hj. destruct (H (S j) i' Hj) as (o & Hv). exists o.
        by replace (pc + 1 + Z.of_nat j) with (pc + Z.of_nat (S j)) by lia.
    + intros H. destruct (Hout H) as [-> ->]. split; [done|].
      destruct (is_destructive i); [by destruct existsb|done].
  - split_and!; [lia| |by intros ?]. split; [by intros ?|]. intros H. exfalso. apply He.
    apply check_instr_zero. destruct (H 0%nat i) as (o & Hv); [done|].
    exists o. by rewrite Z.add_0_r in Hv.
Qed.

(** The restricted load of each load. *)
Definition rld_of (o : dif_op) : dif_op :=
  match o with
  | DIF_OP_LDSB => DIF_OP_RLDSB | DIF_OP_LDSH => DIF_OP_RLDSH | DIF_OP_LDSW => DIF_OP_RLDSW
  | DIF_OP_LDUB => DIF_OP_RLDUB | DIF_OP_LDUH => DIF_OP_RLDUH | DIF_OP_LDUW => DIF_OP_RLDUW
  | DIF_OP_LDX => DIF_OP_RLDX | o => o
  end.

Lemma rewrite_load_spec i o :
  op_of (DIF_INSTR_OP i) = Some o -> is_kload o = true ->
  let i' := rewrite_load true i in
  op_of (DIF_INSTR_OP i') = Some (rld_of o) /\ DIF_INSTR_R1 i' = DIF_INSTR_R1 i /\
  DIF_INSTR_R2 i' = 0 /\ DIF_INSTR_RD i' = DIF_INSTR_RD i.
Proof.
  intros Ho Hk. unfold rewrite_load. rewrite Ho, Hk. simpl andb. cbv iota.
  apply op_num_of in Ho as Hn. unfold DIF_INSTR_LOAD. rewrite <- Hn.
  pose proof (R1_range i). pose proof (RD_range i).
  assert (op_num o + op_num DIF_OP_RLDSB - op_num DIF_OP_LDSB = op_num (rld_of o)) as ->
    by (destruct o; (discriminate Hk || reflexivity)).
  pose proof (op_num_range (rld_of o)).
  rewrite OP_FMT, R1_FMT, R2_FMT, RD_FMT by lia. by rewrite op_of_num.
Qed.

Lemma rewrite_load_other k i :
  (forall o, op_of (DIF_INSTR_OP i) = Some o -> is_kload o && k = false) -> rewrite_load k i = i.
Proof.
  intros H. unfold rewrite_load. destruct (op_of _) as [o|]; [|done]. by rewrite (H o).
Qed.

(** Rewriting keeps an instruction valid. *)
Lemma rewrite_load_valid k nregs dp pc i o :
  instr_valid nregs dp pc i o ->
  exists o', instr_valid nregs dp pc (rewrite_load k i) o' /\ (k = true -> is_kload o' = false).
Proof.
  intros Hv. destruct (is_kload o && k) eqn:E.
  - apply andb_true_iff in E as [Hk ->].
    destruct (rewrite_load_spec i o (iv_op _ _ _ _ _ Hv) Hk) as (Ho' & H1 & H2 & Hd).
    exists (rld_of o). split; [|by destruct o].
    destruct Hv as [Ho Hr Hw Hz Hop].
    destruct o; try discriminate Hk; simpl in *; split; simpl; try done;
      rewrite ?H1, ?H2, ?Hd; try done; by repeat constructor.
  - exists o. rewrite rewrite_load_other.
    + split; [done|]. intros ->. by rewrite andb_true_r in E.
    + intros o'. rewrite (iv_op _ _ _ _ _ Hv). by intros [= <-].
Qed.

(** * Variables *)

(** What the validator requires of a variable of the object's table. *)
Record var_valid (gmax : Z) (vs : dtrace_vstate) (v : dtrace_difv) : Prop := {
  vv_scope : dtdv_scope v = DIFV_SCOPE_GLOBAL \/ dtdv_scope v = DIFV_SCOPE_THREAD \/
             dtdv_scope v = DIFV_SCOPE_LOCAL;
  vv_kind : dtdv_kind v = DIFV_KIND_ARRAY \/ dtdv_kind v = DIFV_KIND_SCALAR;
  vv_id : dtdv_id v <= DIF_VARIABLE_MAX;
  vv_size : DIF_VAR_OTHER_UBASE <= dtdv_id v -> byref (dtdv_type v) = true ->
    dtdt_size (dtdv_type v) <> 0 /\
    (dtdv_scope v = DIFV_SCOPE_GLOBAL -> dtdt_size (dtdv_type v) <= gmax);
  vv_same : forall e, DIF_VAR_OTHER_UBASE <= dtdv_id v -> existing_var vs v = Some e ->
    dtdv_id e <> 0 ->
    dtdv_kind e = dtdv_kind v /\ dtdt_flags (dtdv_type v) = dtdt_flags (dtdv_type e) /\
    (dtdt_size (dtdv_type v) = 0 \/ dtdt_size (dtdv_type v) = dtdt_size (dtdv_type e))
}.

Lemma validate_var_nonneg gmax vs v : 0 <= validate_var gmax vs v.
Proof.
  unfold validate_var. repeat case_match; lia.
Qed.

Ltac reflect_conds :=
  rewrite ?andb_false_iff, ?negb_false_iff, ?Z.eqb_eq, ?Z.eqb_neq, ?Z.ltb_ge in *.

Lemma validate_var_zero gmax vs v : validate_var gmax vs v = 0 <-> var_valid gmax vs v.
Proof.
  split.
  - unfold validate_var. cbv zeta.
    destruct (negb (dtdv_scope v =? _) && _ && _) eqn:Escope; [done|]. destruct (negb (dtdv_kind v =? _) && _) eqn:Ekind; [done|].
    destruct (DIF_VARIABLE_MAX <? _) eqn:Eid; [done|].
    destruct (Z.ltb_spec (dtdv_id v) DIF_VAR_OTHER_UBASE) as [Hb|Hb].
    { intros _. reflect_conds. split; [tauto|tauto|done|lia|lia]. }
    destruct (byref (dtdv_type v) && _) eqn:Ez; [done|].
    destruct (byref (dtdv_type v) && _ && _) eqn:Eg; [done|]. intros H. reflect_conds.
    split; [tauto|tauto|done| |].
    + intros _ Hr. rewrite Hr in *. intuition congruence.
    + intros e _ He Hne. rewrite He in H. destruct (Z.eqb_spec (dtdv_id e) 0); [done|].
      destruct (Z.eqb_spec (dtdv_kind e) (dtdv_kind v)); zcase; simpl in H; lia.
  - intros [Hs Hk Hid Hsz Hsame]. unfold validate_var. cbv zeta.
    destruct (negb (dtdv_scope v =? _) && _ && _) eqn:Escope.
    { rewrite !andb_true_iff, !negb_true_iff, !Z.eqb_neq in Escope. tauto. }
    destruct (negb (dtdv_kind v =? _) && _) eqn:Ekind.
    { rewrite !andb_true_iff, !negb_true_iff, !Z.eqb_neq in Ekind. tauto. }
    destruct (Z.ltb_spec DIF_VARIABLE_MAX (dtdv_id v)); [lia|].
    destruct (Z.ltb_spec (dtdv_id v) DIF_VAR_OTHER_UBASE) as [Hb|Hb]; [done|].
    destruct (byref (dtdv_type v)); simpl andb; cbv iota.
    + destruct (Hsz Hb eq_refl) as [Hz Hg].
      destruct (Z.eqb_spec (dtdt_size (dtdv_type v)) 0); [done|].
      destruct (Z.eqb_spec (dtdv_scope v) DIFV_SCOPE_GLOBAL) as [E|E]; simpl andb; cbv iota;
        [specialize (Hg E); destruct (Z.ltb_spec gmax (dtdt_size (dtdv_type v))); [lia|]|];
        (destruct (existing_var vs v) as [e|]; [|done]);
        (destruct (Z.eqb_spec (dtdv_id e) 0) as [|Hne]; [done|]);
        destruct (Hsame e Hb eq_refl Hne) as (-> & -> & [?| ->]); try done;
        rewrite !Z.eqb_refl; change (negb true) with false; by rewrite ?andb_false_r, ?andb_false_l.
    + destruct (existing_var vs v) as [e|]; [|done].
      destruct (Z.eqb_spec (dtdv_id e) 0) as [|Hne]; [done|].
      destruct (Hsame e Hb eq_refl Hne) as (-> & -> & [->| ->]);
        rewrite !Z.eqb_refl; change (negb true) with false; by rewrite ?andb_false_r, ?andb_false_l.
Qed.

Lemma validate_vars_zero gmax vs vars err :
  0 <= err -> validate_vars gmax vs vars err = 0 <-> err = 0 /\ Forall (var_valid gmax vs) vars.
Proof.
  revert err. induction vars as [|v vars IH]; intros err Herr; cbn [validate_vars].
  { split; [done|by intros [? _]]. }
  pose proof (validate_var_nonneg gmax vs v).
  rewrite Forall_cons_iff, <- validate_var_zero. destruct (Z.eqb_spec err 0) as [->|].
  - rewrite IH by lia. simpl. tauto.
  - split; [done|by intros [? _]].
Qed.

(** * The whole object *)

Definition rtype_valid (t : dtrace_diftype) : Prop :=
  byref t = false -> In (dtdt_size t) [0; 1; 2; 4; 8].

Lemma rtype_err_zero t : rtype_err t = 0 <-> rtype_valid t.
Proof.
  unfold rtype_err, rtype_valid. destruct (byref t); [done|].
  destruct (existsb _ _) eqn:E.
  - apply existsb_exists in E as (x & Hin & ->%Z.eqb_eq). done.
  - split; [done|]. intros H. specialize (H eq_refl). exfalso.
    apply not_true_iff_false in E. apply E, existsb_exists. eexists. split; [exact H|].
    apply Z.eqb_refl.
Qed.

Lemma last_op_err_nonneg text : 0 <= last_op_err text.
Proof. unfold last_op_err. repeat case_match; lia. Qed.

Lemma rtype_err_nonneg t : 0 <= rtype_err t.
Proof. unfold rtype_err. repeat case_match; lia. Qed.

Lemma ret_code i : DIF_INSTR_OP i = op_num DIF_OP_RET <-> op_of (DIF_INSTR_OP i) = Some DIF_OP_RET.
Proof.
  split; [intros ->; apply op_of_num|]. intros H. by apply op_num_of in H.
Qed.

Lemma rewrite_load_ret k i :
  op_of (DIF_INSTR_OP (rewrite_load k i)) = Some DIF_OP_RET <->
  op_of (DIF_INSTR_OP i) = Some DIF_OP_RET.
Proof.
  destruct (op_of (DIF_INSTR_OP i)) as [o|] eqn:Ho.
  - destruct (is_kload o && k) eqn:E.
    + apply andb_true_iff in E as [Hk ->].
      destruct (rewrite_load_spec i o Ho Hk) as (-> & _). by destruct o.
    + rewrite rewrite_load_other; [by rewrite Ho|]. intros o'. rewrite Ho. by intros [= <-].
  - rewrite rewrite_load_other; [by rewrite Ho|]. intros o'. by rewrite Ho.
Qed.

Lemma last_op_err_zero k text :
  last_op_err (map (rewrite_load k) text) = 0 <->
  forall i, text !! pred (length text) = Some i -> op_of (DIF_INSTR_OP i) = Some DIF_OP_RET.
Proof.
  unfold last_op_err. rewrite length_map, list_lookup_fmap.
  destruct (text !! pred (length text)) as [i|]; cbn [fmap option_fmap option_map]; [|split; [intros _ ? [=]|reflexivity]].
  destruct (Z.eqb_spec (DIF_INSTR_OP (rewrite_load k i)) (op_num DIF_OP_RET)) as [E|E];
    rewrite ret_code, rewrite_load_ret in E.
  - split; [intros _ i' [= <-]; exact E|reflexivity].
  - split; [intros [=]|]. intros H. destruct (E (H i eq_refl)).
Qed.

(** The checks depend on the object only through the lengths of its tables. *)
Lemma instr_valid_tables nregs dp dp' pc i o :
  dtdo_len dp' = dtdo_len dp -> dtdo_intlen dp' = dtdo_intlen dp ->
  dtdo_strlen dp' = dtdo_strlen dp -> instr_valid nregs dp pc i o -> instr_valid nregs dp' pc i o.
Proof.
  intros Hl Hi Hs [Ho Hr Hw Hz Hop]. split; try done.
  destruct o; simpl in *; try done; try (unfold is_branch; simpl); by rewrite ?Hl, ?Hi, ?Hs.
Qed.

Definition kcheckload (vs : dtrace_vstate) (cr : bool) : bool :=
  negb cr || (Z.land (dtvs_visible vs) DTRACE_CRV_KERNEL =? 0).

Lemma difo_validate_exact gmax dp vs nregs cr :
  let '(err, dp') := dtrace_difo_validate gmax dp vs nregs cr in
  (err = 0 <-> text_valid nregs dp /\ rtype_valid (dtdo_rtype dp) /\
               Forall (var_valid gmax vs) (dtdo_vartab dp)) /\
  (err = 0 -> dp' = Difo (map (rewrite_load (kcheckload vs cr)) (dtdo_buf dp)) (dtdo_inttab dp)
     (dtdo_strtab dp) (dtdo_strlen dp) (dtdo_vartab dp) (dtdo_rtype dp) (dtdo_refcnt dp)
     (if existsb is_destructive (dtdo_buf dp) then 1 else 0)).
Proof.
  unfold dtrace_difo_validate. fold (kcheckload vs cr).
  pose proof (validate_text_spec (kcheckload vs cr) nregs dp 0 (dtdo_buf dp) 0) as Ht.
  destruct (validate_text _ _ _ _ _ _) as [[err text] d]. destruct Ht as (Hpos & Hiff & Hout).
  pose proof (last_op_err_nonneg text). pose proof (rtype_err_nonneg (dtdo_rtype dp)).
  rewrite validate_vars_zero by lia.
  assert (Hsum : err + last_op_err text + rtype_err (dtdo_rtype dp) = 0 <->
    err = 0 /\ last_op_err text = 0 /\ rtype_err (dtdo_rtype dp) = 0) by lia.
  rewrite Hsum, rtype_err_zero. split.
  - split.
    + intros ((He & Hl & Hr) & Hv). destruct (Hout He) as [-> ->].
      rewrite last_op_err_zero in Hl. split_and!; try done. split; [|done]. by apply Hiff.
    + intros ([Hi Hl] & Hr & Hv). assert (err = 0) as He by (apply Hiff; done).
      destruct (Hout He) as [-> ->]. by rewrite last_op_err_zero.
  - intros ((He & _ & _) & _). by destruct (Hout He) as [-> ->].
Qed.

(** What an accepted object looks like when validation returns. *)
Lemma difo_validate_accepted gmax dp vs nregs cr dp' :
  dtrace_difo_validate gmax dp vs nregs cr = (0, dp') ->
  text_valid nregs dp' /\
  (kcheckload vs cr = true -> forall pc i o, dtdo_buf dp' !! pc = Some i ->
     op_of (DIF_INSTR_OP i) = Some o -> is_kload o = false).
Proof.
  intros H. pose proof (difo_validate_exact gmax dp vs nregs cr) as Hx. rewrite H in Hx.
  destruct Hx as [Hiff Hout]. rewrite (Hout eq_refl). apply proj1 in Hiff.
  destruct (Hiff eq_refl) as ([Hi Hl] & _ & _).
  assert (Hinstr : forall pc i, map (rewrite_load (kcheckload vs cr)) (dtdo_buf dp) !! pc = Some i ->
    exists o, instr_valid nregs dp (Z.of_nat pc) i o /\ (kcheckload vs cr = true -> is_kload o = false)).
  { intros pc i. rewrite list_lookup_fmap. intros Hf.
    apply fmap_Some in Hf as (i0 & Hi0 & ->).
    destruct (Hi pc i0 Hi0) as (o & Hv). by eapply rewrite_load_valid. }
  split; [split|]; simpl dtdo_buf.
  - intros pc i Hf. destruct (Hinstr pc i Hf) as (o & Hv & _). exists o.
    eapply instr_valid_tables; [..|exact Hv]; try done. unfold dtdo_len. simpl. by rewrite length_map.
  - rewrite length_map, list_lookup_fmap. intros i Hf.
    apply fmap_Some in Hf as (i0 & Hi0 & ->). rewrite rewrite_load_ret. by apply Hl.
  - intros Hk pc i o Hf Ho. destruct (Hinstr pc i Hf) as (o' & Hv & Hk').
    pose proof (iv_op _ _ _ _ _ Hv). specialize (Hk' Hk). congruence.
Qed.

(** * Helpers *)

Lemma helper_instr_err_nonneg i : 0 <= helper_instr_err i.
Proof. unfold helper_instr_err. repeat case_match; lia. Qed.

Lemma validate_helper_zero dp :
  dtrace_difo_validate_helper dp = 0 <-> Forall (fun i => helper_instr_err i = 0) (dtdo_buf dp).
Proof.
  unfold dtrace_difo_validate_helper.
  assert (H : forall text err, 0 <= err ->
    0 <= fold_left (fun err i => err + helper_instr_err i) text err /\
    (fold_left (fun err i => err + helper_instr_err i) text err = 0 <->
     err = 0 /\ Forall (fun i => helper_instr_err i = 0) text)).
  { induction text as [|i text IH]; intros err He; cbn [fold_left].
    - split; [done|]. rewrite Forall_nil_iff. tauto.
    - pose proof (helper_instr_err_nonneg i). destruct (IH (err + helper_instr_err i)) as [Hp Hi];
        [lia|]. split; [done|]. rewrite Hi, Forall_cons_iff. split.
      + intros [Hz ?]. split_and!; (done || lia).
      + intros (? & ? & ?). split; [lia|done]. }
  destruct (H (dtdo_buf dp) 0) as [_ ->]; [lia|]. tauto.
Qed.

(** What may not occur in a helper: kernel loads, thread-local and dynamic
    variables, and the thread-local array. *)
Definition helper_forbidden (o : dif_op) : bool :=
  is_kload o || existsb (fun o' => bool_decide (o = o'))
    [DIF_OP_LDTA; DIF_OP_LDTS; DIF_OP_LDGAA; DIF_OP_LDTAA; DIF_OP_STTS; DIF_OP_STGAA; DIF_OP_STTAA].

Lemma helper_instr_ok i :
  helper_instr_err i = 0 ->
  is_destructive i = false /\ exists o, op_of (DIF_INSTR_OP i) = Some o /\ helper_forbidden o = false.
Proof.
  unfold helper_instr_err, is_destructive. destruct (op_of (DIF_INSTR_OP i)) as [o|]; [|done].
  intros H. split; [|exists o; split; [done|]; by destruct o].
  destruct o; try reflexivity. destruct (helper_subr (DIF_INSTR_SUBR i)) eqn:E; [|done].
  unfold helper_subr in E. apply existsb_exists in E as (x & Hin & ->%Z.eqb_eq).
  repeat (destruct Hin as [<-|Hin]; [reflexivity|]). destruct Hin.
Qed.

(** * Properties *)

(** C3: dtrace_difo_validate() accepts exactly the objects that follow its rules:
    every instruction has a known opcode, in-range registers, tables, variables
    and subroutines, zero reserved bits, a destination other than %r0 and only
    forward branches inside the text; the last instruction is a ret; the return
    size is that of a base type unless by reference; and every variable has a
    known scope and kind, an id in range, a legal size and agrees with the
    definition the consumer already has. *)
Theorem dtrace_difo_validate_exact gmax dp vs nregs cr :
  (dtrace_difo_validate gmax dp vs nregs cr).1 = 0 <->
  text_valid nregs dp /\ rtype_valid (dtdo_rtype dp) /\
  Forall (var_valid gmax vs) (dtdo_vartab dp).
Proof.
  pose proof (difo_validate_exact gmax dp vs nregs cr) as H.
  destruct (dtrace_difo_validate _ _ _ _ _). apply H.
Qed.

(** C4: the object an accepting validation leaves behind still follows the rules,
    differs from the input only in its text and destructive flag, is flagged
    destructive exactly if it calls copyout() or copyoutstr(), and contains no
    unrestricted kernel load unless the consumer may read kernel memory. *)
Theorem dtrace_difo_validate_restricts_loads gmax dp vs nregs cr dp' :
  dtrace_difo_validate gmax dp vs nregs cr = (0, dp') ->
  text_valid nregs dp' /\ dtdo_len dp' = dtdo_len dp /\
  dtdo_inttab dp' = dtdo_inttab dp /\ dtdo_vartab dp' = dtdo_vartab dp /\
  (dtdo_destructive dp' = 1 <-> exists i, In i (dtdo_buf dp) /\ is_destructive i = true) /\
  (cr = false \/ Z.land (dtvs_visible vs) DTRACE_CRV_KERNEL = 0 ->
   forall pc i o, dtdo_buf dp' !! pc = Some i -> op_of (DIF_INSTR_OP i) = Some o ->
   is_kload o = false).
Proof.
  intros H. destruct (difo_validate_accepted _ _ _ _ _ _ H) as [Hv Hk].
  pose proof (difo_validate_exact gmax dp vs nregs cr) as Hx. rewrite H in Hx.
  destruct Hx as [_ Hout]. specialize (Hout eq_refl). split; [done|].
  split; [rewrite Hout; unfold dtdo_len; simpl; by rewrite length_map|].
  split; [by rewrite Hout|]. split; [by rewrite Hout|]. split.
  - rewrite <- existsb_exists, Hout. simpl. by destruct existsb.
  - intros Hcr. apply Hk. unfold kcheckload. destruct Hcr as [->|Hc]; [done|].
    by rewrite Hc, orb_true_r.
Qed.

(** A small object: ldx [%r1], %r2; ret %r2. *)
Definition load_difo : dtrace_difo :=
  Difo [DIF_INSTR_LOAD 34 1 2; DIF_INSTR_RET 2] [] 0 0
    [DifV 0 0x500 1 0 0 (DifType 0 0 0 8)] (DifType 0 0 0 8) 1 0.
Definition empty_vstate : dtrace_vstate := VState 256 0 [] [] [] (DState 0 0 0 0).

Lemma dtrace_difo_validate_restricts_loads_witness :
  let '(err, dp') := dtrace_difo_validate 16384 load_difo empty_vstate 8 true in
  err = 0 /\ dtdo_buf dp' = [DIF_INSTR_LOAD 77 1 2; DIF_INSTR_RET 2] /\ text_valid 8 dp'.
Proof.
  destruct (dtrace_difo_validate 16384 load_difo empty_vstate 8 true) as [err dp'] eqn:E.
  assert (err = 0 /\ dtdo_buf dp' = [DIF_INSTR_LOAD 77 1 2; DIF_INSTR_RET 2]) as [-> Hb]
    by (vm_compute in E; injection E as <- <-; split; reflexivity).
  split; [reflexivity|]. split; [exact Hb|].
  exact (proj1 (dtrace_difo_validate_restricts_loads 16384 load_difo empty_vstate 8 true dp' E)).
Defined.

(** A DIF object that passes dtrace_difo_validate_helper() is not destructive
    and contains no unrestricted kernel load, no access to a thread-local or
    dynamic variable and no opcode unknown to the emulator; a call names one of
    the permitted subroutines, which copyout() and copyoutstr() are not. *)
Theorem dtrace_difo_validate_helper_safe dp :
  dtrace_difo_validate_helper dp = 0 ->
  existsb is_destructive (dtdo_buf dp) = false /\
  forall pc i, dtdo_buf dp !! pc = Some i ->
    exists o, op_of (DIF_INSTR_OP i) = Some o /\ helper_forbidden o = false /\
  (o = DIF_OP_CALL -> helper_subr (DIF_INSTR_SUBR i) = true) /\
  (o = DIF_OP_LDGS -> helper_var (DIF_INSTR_VAR i) = true).
Proof.
  rewrite validate_helper_zero, List.Forall_forall. intros H. split.
  - apply not_true_is_false. rewrite existsb_exists. intros (i & Hin & Hd).
    destruct (helper_instr_ok i (H i Hin)). congruence.
  - intros pc i Hi. apply list_elem_of_lookup_2, list_elem_of_In in Hi. specialize (H i Hi).
    destruct (helper_instr_ok i H) as (_ & o & Ho & Hf). exists o. split_and!; [done|done|..].
    + intros ->. unfold helper_instr_err in H. rewrite Ho in H. by destruct helper_subr.
    + intros ->. unfold helper_instr_err in H. rewrite Ho in H. by destruct helper_var.
Qed.

Lemma dtrace_difo_validate_helper_safe_witness :
  dtrace_difo_validate_helper load_difo = 1 /\
  existsb is_destructive (dtdo_buf (dtrace_difo_validate 16384 load_difo empty_vstate 8 false).2)
  = false.
Proof.
  split; [reflexivity|].
  apply (dtrace_difo_validate_helper_safe
    (dtrace_difo_validate 16384 load_difo empty_vstate 8 false).2). reflexivity.
Defined.
