(* ===== verification/DifEmulate.v ===== *)
(** The DIF virtual machine (driver/dtrace.c, dtrace_dif_emulate()).

    [dif_step] executes one instruction, [dtrace_dif_emulate] is the loop.  The
    source is deliberately void of run-time checks: an index outside a table
    is [Oob], the hardware divide trap is [DivTrap], a loop that does not end
    is [Hang].  The theorems say when none of them can happen.

    Builtin variables, subroutines, dynamic variables and user-memory loads are
    the operations of the class [dif_env]; [dif_env_ok] states what the
    emulator relies on. *)
From S2P Require Import Prelude Dif SafeMem DifValidate.

(** * Outcomes *)
Inductive res (A : Type) : Type :=
  | Ok (a : A)
  | Oob      (** access outside a table, or through a NULL table entry *)
  | DivTrap  (** INT64_MIN / -1: the x86-64 divide instruction traps *)
  | Hang.    (** the code does not return *)
Arguments Ok {A} _.
Arguments Oob {A}.
Arguments DivTrap {A}.
Arguments Hang {A}.

Definition mret {A} (a : A) : res A := Ok a.
Definition rbind {A B} (r : res A) (k : A -> res B) : res B :=
  match r with Ok a => k a | Oob => Oob | DivTrap => DivTrap | Hang => Hang end.

Declare Scope res_scope.
Delimit Scope res_scope with res.
Notation "'let*' p ':=' r 'in' k" := (rbind r (fun p => k))
  (at level 10, p pattern, r at level 200, k at level 200) : res_scope.
Open Scope res_scope.

(** A table access: [None] is out of range. *)
Definition in_table {A} (o : option A) : res A := match o with Some a => Ok a | None => Oob end.
(** A routine with a loop: [None] is divergence. *)
Definition finishes {A} (o : option A) : res A := match o with Some a => Ok a | None => Hang end.

(** * The operations the emulator calls *)

(** dtrace_key_t: value and size. *)
Definition dtrace_key : Type := Z * Z.

Inductive dtrace_dynvar_op : Set :=
  | DTRACE_DYNVAR_ALLOC | DTRACE_DYNVAR_NOALLOC | DTRACE_DYNVAR_DEALLOC.

Class dif_env := DifEnv {
  env_platform : platform;
  env_cpu : Z;                       (** cpu_get_id() *)
  env_ncpu : Z;                      (** NCPU *)
  env_thrkey : Z;                    (** DTRACE_TLS_THRKEY *)
  dtrace_strsize_default : Z;
  dtrace_dif_variable : Z -> Z -> dtrace_mstate -> mach -> Z * dtrace_mstate * mach;
  dtrace_dif_subr : Z -> Z -> list Z -> list dtrace_key -> Z -> dtrace_mstate -> mach ->
    list Z * dtrace_mstate * mach;
  dtrace_dynvar : list dtrace_key -> Z -> dtrace_dynvar_op -> dtrace_mstate -> dtrace_vstate ->
    mach -> option Z * mach;         (** dvar->dtdv_data, or NULL *)
  dtrace_fuword : Z -> Z -> mach -> Z * mach
}.

(** * Machine state of one emulation *)
Record emu := Emu {
  e_regs : list Z;             (** regs[DIF_DIR_NREGS] *)
  e_tup : list dtrace_key;     (** tupregs[DIF_DTR_NREGS + 2] *)
  e_ttop : Z;
  e_n : bool; e_z : bool; e_v : bool; e_c : bool;   (** cc_n, cc_z, cc_v, cc_c *)
  e_rval : Z;
  e_predcache : Z;             (** curthread->t_predcache *)
  e_ms : dtrace_mstate;
  e_vs : dtrace_vstate;
  e_m : mach
}.

Definition set_regs (rs : list Z) (st : emu) : emu :=
  Emu rs (e_tup st) (e_ttop st) (e_n st) (e_z st) (e_v st) (e_c st) (e_rval st)
    (e_predcache st) (e_ms st) (e_vs st) (e_m st).
Definition set_tup (tup : list dtrace_key) (ttop : Z) (st : emu) : emu :=
  Emu (e_regs st) tup ttop (e_n st) (e_z st) (e_v st) (e_c st) (e_rval st)
    (e_predcache st) (e_ms st) (e_vs st) (e_m st).
Definition set_cc (n z v c : bool) (st : emu) : emu :=
  Emu (e_regs st) (e_tup st) (e_ttop st) n z v c (e_rval st)
    (e_predcache st) (e_ms st) (e_vs st) (e_m st).
Definition set_rval (r : Z) (st : emu) : emu :=
  Emu (e_regs st) (e_tup st) (e_ttop st) (e_n st) (e_z st) (e_v st) (e_c st) r
    (e_predcache st) (e_ms st) (e_vs st) (e_m st).
Definition set_predcache (p : Z) (st : emu) : emu :=
  Emu (e_regs st) (e_tup st) (e_ttop st) (e_n st) (e_z st) (e_v st) (e_c st) (e_rval st)
    p (e_ms st) (e_vs st) (e_m st).
Definition set_ms (ms : dtrace_mstate) (st : emu) : emu :=
  Emu (e_regs st) (e_tup st) (e_ttop st) (e_n st) (e_z st) (e_v st) (e_c st) (e_rval st)
    (e_predcache st) ms (e_vs st) (e_m st).
Definition set_vs (vs : dtrace_vstate) (st : emu) : emu :=
  Emu (e_regs st) (e_tup st) (e_ttop st) (e_n st) (e_z st) (e_v st) (e_c st) (e_rval st)
    (e_predcache st) (e_ms st) vs (e_m st).
Definition set_m (m : mach) (st : emu) : emu :=
  Emu (e_regs st) (e_tup st) (e_ttop st) (e_n st) (e_z st) (e_v st) (e_c st) (e_rval st)
    (e_predcache st) (e_ms st) (e_vs st) m.

Definition getreg (r : Z) (st : emu) : res Z := in_table (e_regs st !! Z.to_nat r).
Definition setreg (r v : Z) (st : emu) : res emu :=
  if r <? Z.of_nat (length (e_regs st)) then Ok (set_regs (<[Z.to_nat r := v]> (e_regs st)) st)
  else Oob.
Definition raise_e (f v : Z) (st : emu) : emu := set_m (raise f v (e_m st)) st.
Definition flag_e (f : Z) (st : emu) : emu := set_m (set_flag f (e_m st)) st.

(** * Arithmetic and branches *)

(** The result and whether DIVZERO is flagged.  Shift counts are taken modulo 64,
    as the x86-64 shift instructions do. *)
Definition dif_alu (o : dif_op) (a b : Z) : res (Z * bool) :=
  match o with
  | DIF_OP_OR => Ok (Z.lor a b, false)
  | DIF_OP_XOR => Ok (Z.lxor a b, false)
  | DIF_OP_AND => Ok (Z.land a b, false)
  | DIF_OP_SLL => Ok (u64 (Z.shiftl a (Z.land b 63)), false)
  | DIF_OP_SRL => Ok (Z.shiftr a (Z.land b 63), false)
  | DIF_OP_SRA => Ok (u64 (Z.shiftr (s64 a) (Z.land b 63)), false)
  | DIF_OP_SUB => Ok (u64 (a - b), false)
  | DIF_OP_ADD => Ok (u64 (a + b), false)
  | DIF_OP_MUL => Ok (u64 (a * b), false)
  | DIF_OP_SDIV =>
      if b =? 0 then Ok (0, true)
      else if (s64 a =? - 2 ^ 63) && (s64 b =? -1) then DivTrap
      else Ok (u64 (Z.quot (s64 a) (s64 b)), false)
  | DIF_OP_UDIV => if b =? 0 then Ok (0, true) else Ok (a / b, false)
  | DIF_OP_SREM =>
      if b =? 0 then Ok (0, true)
      else if (s64 a =? - 2 ^ 63) && (s64 b =? -1) then DivTrap
      else Ok (u64 (Z.rem (s64 a) (s64 b)), false)
  | DIF_OP_UREM => if b =? 0 then Ok (0, true) else Ok (a mod b, false)
  | DIF_OP_NOT => Ok (u64 (Z.lnot a), false)
  | _ => Ok (a, false)   (** mov *)
  end.

Definition branch_taken (o : dif_op) (st : emu) : bool :=
  let n := e_n st in let z := e_z st in let v := e_v st in let c := e_c st in
  match o with
  | DIF_OP_BA => true
  | DIF_OP_BE => z
  | DIF_OP_BNE => negb z
  | DIF_OP_BG => negb (z || xorb n v)
  | DIF_OP_BGU => negb (c || z)
  | DIF_OP_BGE => negb (xorb n v)
  | DIF_OP_BGEU => negb c
  | DIF_OP_BL => xorb n v
  | DIF_OP_BLU => c
  | DIF_OP_BLE => z || xorb n v
  | _ => c || z   (** bleu *)
  end.

(** Bytes and signedness of a load. *)
Definition load_width (o : dif_op) : Z * bool :=
  match o with
  | DIF_OP_LDSB | DIF_OP_RLDSB | DIF_OP_ULDSB => (1, true)
  | DIF_OP_LDSH | DIF_OP_RLDSH | DIF_OP_ULDSH => (2, true)
  | DIF_OP_LDSW | DIF_OP_RLDSW | DIF_OP_ULDSW => (4, true)
  | DIF_OP_LDUB | DIF_OP_RLDUB | DIF_OP_ULDUB => (1, false)
  | DIF_OP_LDUH | DIF_OP_RLDUH | DIF_OP_ULDUH => (2, false)
  | DIF_OP_LDUW | DIF_OP_RLDUW | DIF_OP_ULDUW => (4, false)
  | _ => (8, false)
  end.

(** [(int8_t)], [(int16_t)] or [(int32_t)], then the conversion to uint64_t. *)
Definition extend (size : Z) (signed : bool) (v : Z) : Z :=
  if signed then
    u64 (if size =? 1 then s8 v else if size =? 2 then s16 v else s32 v)
  else v.

Definition store_width (o : dif_op) : Z :=
  match o with DIF_OP_STB => 1 | DIF_OP_STH => 2 | DIF_OP_STW => 4 | _ => 8 end.

Definition P2ROUNDUP (x align : Z) : Z := u64 (- Z.land (u64 (- x)) (u64 (- align))).

(** dtrace_bzero() takes an [int] length. *)
Definition dtrace_bzero (dst len : Z) (m : mach) : mach :=
  let len := s32 len in
  Mach (fun a => if (dst <=? a) && (a <? dst + len) then 0 else m_mem m a)
    (m_flags m) (m_illval m).

(** * The cases of the switch *)
Section Emulate.
Context {E : dif_env}.

Definition step_alu (o : dif_op) (i : Z) (st : emu) : res emu :=
  let* a := getreg (DIF_INSTR_R1 i) st in
  let* b := getreg (DIF_INSTR_R2 i) st in
  let* (v, divzero) := dif_alu o a b in
  let* st := setreg (DIF_INSTR_RD i) v st in
  mret (if divzero then flag_e CPU_DTRACE_DIVZERO st else st).

Definition step_unary (o : dif_op) (i : Z) (st : emu) : res emu :=
  let* a := getreg (DIF_INSTR_R1 i) st in
  let* (v, _) := dif_alu o a 0 in
  setreg (DIF_INSTR_RD i) v st.

Definition step_cmp (i : Z) (st : emu) : res emu :=
  let* a := getreg (DIF_INSTR_R1 i) st in
  let* b := getreg (DIF_INSTR_R2 i) st in
  let cc_r := s64 (a - b) in
  mret (set_cc (cc_r <? 0) (cc_r =? 0) false (a <? b) st).

Definition step_tst (i : Z) (st : emu) : res emu :=
  let* a := getreg (DIF_INSTR_R1 i) st in
  mret (set_cc false (a =? 0) false false st).

(** ld*, and rld* which first asks whether the program could store there. *)
Definition step_load (o : dif_op) (restricted : bool) (i : Z) (st : emu) : res emu :=
  let* a := getreg (DIF_INSTR_R1 i) st in
  let '(size, signed) := load_width o in
  if restricted && negb (dtrace_canstore a size (e_ms st) (e_vs st)) then
    mret (raise_e CPU_DTRACE_KPRIV a st)
  else
    let '(v, m) := dtrace_load env_platform size a (e_m st) in
    setreg (DIF_INSTR_RD i) (extend size signed v) (set_m m st).

Definition step_uload (o : dif_op) (i : Z) (st : emu) : res emu :=
  let* a := getreg (DIF_INSTR_R1 i) st in
  let '(size, signed) := load_width o in
  let '(v, m) := dtrace_fuword size a (e_m st) in
  setreg (DIF_INSTR_RD i) (extend size signed v) (set_m m st).

Definition step_store (o : dif_op) (i : Z) (st : emu) : res emu :=
  let size := store_width o in
  let* a := getreg (DIF_INSTR_RD i) st in
  let* v := getreg (DIF_INSTR_R1 i) st in
  if negb (dtrace_canstore a size (e_ms st) (e_vs st)) then
    mret (raise_e CPU_DTRACE_BADADDR a st)
  else if negb (Z.land a (size - 1) =? 0) then mret (raise_e CPU_DTRACE_BADALIGN a st)
  else mret (set_m (write_le a v (Z.to_nat size) (e_m st)) st).

Definition step_setx (dp : dtrace_difo) (i : Z) (st : emu) : res emu :=
  let* v := in_table (dtdo_inttab dp !! Z.to_nat (DIF_INSTR_INTEGER i)) in
  setreg (DIF_INSTR_RD i) v st.

Definition step_sets (dp : dtrace_difo) (i : Z) (st : emu) : res emu :=
  setreg (DIF_INSTR_RD i) (u64 (dtdo_strtab dp + DIF_INSTR_STRING i)) st.

(** [s != NULL && !dtrace_strcanload(s, sz, mstate, vstate)] leaves the case. *)
Definition scmp_load (s : Z) (st : emu) : res (bool * emu) :=
  if s =? 0 then mret (true, st)
  else
    let* (b, m) := finishes (dtrace_strcanload env_platform s (dtvs_strsize (e_vs st))
                          (e_ms st) (e_vs st) (e_m st)) in
    mret (b, set_m m st).

Definition step_scmp (i : Z) (st : emu) : res emu :=
  let* s1 := getreg (DIF_INSTR_R1 i) st in
  let* s2 := getreg (DIF_INSTR_R2 i) st in
  let* (ok1, st) := scmp_load s1 st in
  if negb ok1 then mret st
  else
    let* (ok2, st) := scmp_load s2 st in
    if negb ok2 then mret st
    else
      let* (cc_r, m) := finishes (dtrace_strncmp env_platform s1 s2 (dtvs_strsize (e_vs st)) (e_m st)) in
      mret (set_cc (cc_r <? 0) (cc_r =? 0) false false (set_m m st)).

Definition step_ldga (i : Z) (st : emu) : res emu :=
  let* ndx := getreg (DIF_INSTR_R2 i) st in
  let '(v, ms, m) := dtrace_dif_variable (DIF_INSTR_R1 i) ndx (e_ms st) (e_m st) in
  setreg (DIF_INSTR_RD i) v (set_m m (set_ms ms st)).

(** * Static variables *)

(** [table[id - DIF_VAR_OTHER_UBASE]], which must not be NULL. *)
Definition static_var (table : list (option dtrace_statvar)) (id : Z) : res dtrace_statvar :=
  let* o := in_table (zlookup table (u32 (id - DIF_VAR_OTHER_UBASE))) in
  in_table o.

(** A by-reference variable at [a]: NULL if its first byte is UINT8_MAX. *)
Definition byref_value (a : Z) (st : emu) : Z :=
  if m_mem (e_m st) a =? 255 then 0 else u64 (a + 8).

(** Store the data [src] refers to in the by-reference variable at [a]. *)
Definition byref_store (a src : Z) (t : dtrace_diftype) (st : emu) : res emu :=
  if src =? 0 then mret (set_m (store8 a 255 (e_m st)) st)
  else
    let st := set_m (store8 a 0 (e_m st)) st in
    let* (ok, m) := finishes (dtrace_vcanload env_platform src t (e_ms st) (e_vs st) (e_m st)) in
    if negb ok then mret (set_m m st)
    else
      let* m := finishes (dtrace_vcopy env_platform src (u64 (a + 8)) t m) in
      mret (set_m m st).

Definition set_global (ndx : nat) (svar : dtrace_statvar) (vs : dtrace_vstate) : dtrace_vstate :=
  VState (dtvs_strsize vs) (dtvs_visible vs) (<[ndx := Some svar]> (dtvs_globals vs))
    (dtvs_tlocals vs) (dtvs_locals vs) (dtvs_dynvars vs).

Definition step_ldgs (i : Z) (st : emu) : res emu :=
  let id := DIF_INSTR_VAR i in
  if DIF_VAR_OTHER_UBASE <=? id then
    let* svar := static_var (dtvs_globals (e_vs st)) id in
    if negb (byref (dtdv_type (dtsv_var svar))) then setreg (DIF_INSTR_RD i) (dtsv_data svar) st
    else setreg (DIF_INSTR_RD i) (byref_value (dtsv_data svar) st) st
  else
    let '(v, ms, m) := dtrace_dif_variable id 0 (e_ms st) (e_m st) in
    setreg (DIF_INSTR_RD i) v (set_m m (set_ms ms st)).

Definition step_stgs (i : Z) (st : emu) : res emu :=
  let id := DIF_INSTR_VAR i in
  let* svar := static_var (dtvs_globals (e_vs st)) id in
  let* v := getreg (DIF_INSTR_RD i) st in
  if byref (dtdv_type (dtsv_var svar)) then
    byref_store (dtsv_data svar) v (dtdv_type (dtsv_var svar)) st
  else
    mret (set_vs (set_global (Z.to_nat (u32 (id - DIF_VAR_OTHER_UBASE)))
      (StatVar v (dtsv_size svar) (dtsv_refcnt svar) (dtsv_var svar)) (e_vs st)) st).

(** The slot of the current CPU. *)
Definition local_slot (svar : dtrace_statvar) : Z :=
  if byref (dtdv_type (dtsv_var svar)) then
    u64 (dtsv_data svar + env_cpu * (dtdt_size (dtdv_type (dtsv_var svar)) + 8))
  else u64 (dtsv_data svar + env_cpu * 8).

Definition step_ldls (i : Z) (st : emu) : res emu :=
  let id := DIF_INSTR_VAR i in
  if id <? DIF_VAR_OTHER_UBASE then setreg (DIF_INSTR_RD i) 0 st
  else
    let* svar := static_var (dtvs_locals (e_vs st)) id in
    if byref (dtdv_type (dtsv_var svar)) then
      setreg (DIF_INSTR_RD i) (byref_value (local_slot svar) st) st
    else setreg (DIF_INSTR_RD i) (read_le (m_mem (e_m st)) (local_slot svar) 8) st.

Definition step_stls (i : Z) (st : emu) : res emu :=
  let* svar := static_var (dtvs_locals (e_vs st)) (DIF_INSTR_VAR i) in
  let* v := getreg (DIF_INSTR_RD i) st in
  if byref (dtdv_type (dtsv_var svar)) then
    byref_store (local_slot svar) v (dtdv_type (dtsv_var svar)) st
  else mret (set_m (write_le (local_slot svar) v 8 (e_m st)) st).

(** * Dynamic variables *)

Definition setkey (n : Z) (k : dtrace_key) (tup : list dtrace_key) : res (list dtrace_key) :=
  if n <? Z.of_nat (length tup) then Ok (<[Z.to_nat n := k]> tup) else Oob.

Definition var_index (i : Z) : Z := u32 (DIF_INSTR_VAR i - DIF_VAR_OTHER_UBASE).

(** Keys of a thread-local scalar: tupregs[8] and tupregs[9]. *)
Definition tls_keys (i : Z) (st : emu) : res emu :=
  let* tup := setkey DIF_DTR_NREGS (var_index i, 0) (e_tup st) in
  let* tup := setkey (DIF_DTR_NREGS + 1) (env_thrkey, 0) tup in
  mret (set_tup tup (e_ttop st) st).

(** The address of the data, or the value, of the variable that was found. *)
Definition dynvar_load (i data : Z) (v : dtrace_difv) (st : emu) : res emu :=
  if byref (dtdv_type v) then setreg (DIF_INSTR_RD i) data st
  else setreg (DIF_INSTR_RD i) (read_le (m_mem (e_m st)) data 8) st.

Definition dynvar_store (data src : Z) (v : dtrace_difv) (st : emu) : res emu :=
  if byref (dtdv_type v) then
    let* (ok, m) := finishes (dtrace_vcanload env_platform src (dtdv_type v) (e_ms st) (e_vs st)
                           (e_m st)) in
    if negb ok then mret (set_m m st)
    else
      let* m := finishes (dtrace_vcopy env_platform src data (dtdv_type v) m) in
      mret (set_m m st)
  else mret (set_m (write_le data src 8 (e_m st)) st).

(** [v->dtdv_type.dtdt_size > sizeof (uint64_t) ? ... : sizeof (uint64_t)]. *)
Definition dynvar_size (v : dtrace_difv) : Z :=
  if 8 <? dtdt_size (dtdv_type v) then dtdt_size (dtdv_type v) else 8.

Definition store_op (src : Z) : dtrace_dynvar_op :=
  if src =? 0 then DTRACE_DYNVAR_DEALLOC else DTRACE_DYNVAR_ALLOC.

Definition step_ldts (i : Z) (st : emu) : res emu :=
  let* st := tls_keys i st in
  let keys := take 2 (drop 8 (e_tup st)) in
  let '(dvar, m) := dtrace_dynvar keys 8 DTRACE_DYNVAR_NOALLOC (e_ms st) (e_vs st) (e_m st) in
  let st := set_m m st in
  match dvar with
  | None => setreg (DIF_INSTR_RD i) 0 st
  | Some data =>
      let* v := in_table (zlookup (dtvs_tlocals (e_vs st)) (var_index i)) in
      dynvar_load i data v st
  end.

Definition step_stts (i : Z) (st : emu) : res emu :=
  let* st := tls_keys i st in
  let* src := getreg (DIF_INSTR_RD i) st in
  let* v := in_table (zlookup (dtvs_tlocals (e_vs st)) (var_index i)) in
  let keys := take 2 (drop 8 (e_tup st)) in
  let '(dvar, m) := dtrace_dynvar keys (dynvar_size v) (store_op src) (e_ms st) (e_vs st)
                      (e_m st) in
  let st := set_predcache 0 (set_m m st) in
  match dvar with
  | None => mret st
  | Some data => dynvar_store data src v st
  end.

(** The keys of an associative array: the tuple, the variable and, for a
    thread-local one, the thread. *)
Definition aa_keys (tls : bool) (i : Z) (st : emu) : res (list dtrace_key * dtrace_difv * emu) :=
  let nkeys := e_ttop st in
  let* tup := setkey nkeys (var_index i, 0) (e_tup st) in
  if tls then
    let* tup := setkey (nkeys + 1) (env_thrkey, 0) tup in
    let* v := in_table (zlookup (dtvs_tlocals (e_vs st)) (var_index i)) in
    mret (take (Z.to_nat (nkeys + 2)) tup, v, set_tup tup (e_ttop st) st)
  else
    let* svar := static_var (dtvs_globals (e_vs st)) (DIF_INSTR_VAR i) in
    mret (take (Z.to_nat (nkeys + 1)) tup, dtsv_var svar, set_tup tup (e_ttop st) st).

Definition step_ldaa (tls : bool) (i : Z) (st : emu) : res emu :=
  let* (keys, v, st) := aa_keys tls i st in
  let '(dvar, m) := dtrace_dynvar keys (dynvar_size v) DTRACE_DYNVAR_NOALLOC (e_ms st) (e_vs st)
                      (e_m st) in
  let st := set_m m st in
  match dvar with
  | None => setreg (DIF_INSTR_RD i) 0 st
  | Some data => dynvar_load i data v st
  end.

Definition step_staa (tls : bool) (i : Z) (st : emu) : res emu :=
  let* (keys, v, st) := aa_keys tls i st in
  let* src := getreg (DIF_INSTR_RD i) st in
  let '(dvar, m) := dtrace_dynvar keys (dynvar_size v) (store_op src) (e_ms st) (e_vs st)
                      (e_m st) in
  let st := set_m m st in
  match dvar with
  | None => mret st
  | Some data => dynvar_store data src v st
  end.

(** * Tuples, scratch, calls *)

Definition step_pushtr (i : Z) (st : emu) : res emu :=
  if e_ttop st =? DIF_DTR_NREGS then mret (flag_e CPU_DTRACE_TUPOFLOW st)
  else
    let* v := getreg (DIF_INSTR_RD i) st in
    let* sz := getreg (DIF_INSTR_R2 i) st in
    if DIF_INSTR_R1 i =? DIF_TYPE_STRING then
      let* (len, m) := finishes (dtrace_strlen env_platform v
                          (if sz =? 0 then dtrace_strsize_default else sz) (e_m st)) in
      let* tup := setkey (e_ttop st) (v, len + 1) (e_tup st) in
      mret (set_tup tup (e_ttop st + 1) (set_m m st))
    else
      let* tup := setkey (e_ttop st) (v, sz) (e_tup st) in
      mret (set_tup tup (e_ttop st + 1) st).

Definition step_pushtv (i : Z) (st : emu) : res emu :=
  if e_ttop st =? DIF_DTR_NREGS then mret (flag_e CPU_DTRACE_TUPOFLOW st)
  else
    let* v := getreg (DIF_INSTR_RD i) st in
    let* tup := setkey (e_ttop st) (v, 0) (e_tup st) in
    mret (set_tup tup (e_ttop st + 1) st).

Definition step_popts (st : emu) : emu :=
  if e_ttop st =? 0 then st else set_tup (e_tup st) (e_ttop st - 1) st.

Definition step_call (i : Z) (st : emu) : res emu :=
  let '(regs, ms, m) := dtrace_dif_subr (DIF_INSTR_SUBR i) (DIF_INSTR_RD i) (e_regs st)
                          (e_tup st) (e_ttop st) (e_ms st) (e_m st) in
  mret (set_regs regs (set_m m (set_ms ms st))).

Definition set_scratch_ptr (p : Z) (ms : dtrace_mstate) : dtrace_mstate :=
  MState (dtms_scratch_base ms) p (dtms_scratch_size ms) (dtms_present ms) (dtms_fltoffs ms)
    (dtms_access ms) (dtms_difo ms).

Definition step_allocs (i : Z) (st : emu) : res emu :=
  let ms := e_ms st in
  let ptr := P2ROUNDUP (dtms_scratch_ptr ms) 8 in
  let* n := getreg (DIF_INSTR_R1 i) st in
  let size := u64 (ptr - dtms_scratch_ptr ms + n) in
  if (size <? n) || negb (DTRACE_INSCRATCH ms size) then
    setreg (DIF_INSTR_RD i) 0 (flag_e CPU_DTRACE_NOSCRATCH st)
  else
    setreg (DIF_INSTR_RD i) ptr
      (set_ms (set_scratch_ptr (u64 (dtms_scratch_ptr ms + size)) ms)
         (set_m (dtrace_bzero (dtms_scratch_ptr ms) size (e_m st)) st)).

Definition step_copys (i : Z) (st : emu) : res emu :=
  let* dst := getreg (DIF_INSTR_RD i) st in
  let* src := getreg (DIF_INSTR_R1 i) st in
  let* len := getreg (DIF_INSTR_R2 i) st in
  if negb (dtrace_canstore dst len (e_ms st) (e_vs st)) then
    mret (raise_e CPU_DTRACE_BADADDR dst st)
  else
    let '(ok, m) := dtrace_canload src len (e_ms st) (e_vs st) (e_m st) in
    if negb ok then mret (set_m m st)
    else
      let* m := finishes (dtrace_bcopy env_platform src dst len m) in
      mret (set_m m st).

(** ldta is reserved: it flags an illegal operation. *)
Definition step_ldta (i : Z) (st : emu) : res emu :=
  setreg (DIF_INSTR_RD i) 0 (flag_e CPU_DTRACE_ILLOP st).

(** * One instruction

    [pc] is the index of [i]; the result is the next index and state.  The
    switch has no default case: other opcodes do nothing. *)
Definition dif_step (dp : dtrace_difo) (pc i : Z) (st : emu) : res (Z * emu) :=
  let next := fun r : res emu => let* st := r in mret (pc + 1, st) in
  match op_of (DIF_INSTR_OP i) with
  | Some ((DIF_OP_OR | DIF_OP_XOR | DIF_OP_AND | DIF_OP_SLL | DIF_OP_SRL | DIF_OP_SRA
    | DIF_OP_SUB | DIF_OP_ADD | DIF_OP_MUL | DIF_OP_SDIV | DIF_OP_UDIV | DIF_OP_SREM
    | DIF_OP_UREM) as o) => next (step_alu o i st)
  | Some ((DIF_OP_NOT | DIF_OP_MOV) as o) => next (step_unary o i st)
  | Some DIF_OP_CMP => next (step_cmp i st)
  | Some DIF_OP_TST => next (step_tst i st)
  | Some ((DIF_OP_BA | DIF_OP_BE | DIF_OP_BNE | DIF_OP_BG | DIF_OP_BGU | DIF_OP_BGE
    | DIF_OP_BGEU | DIF_OP_BL | DIF_OP_BLU | DIF_OP_BLE | DIF_OP_BLEU) as o) =>
      mret (if branch_taken o st then DIF_INSTR_LABEL i else pc + 1, st)
  | Some ((DIF_OP_RLDSB | DIF_OP_RLDSH | DIF_OP_RLDSW | DIF_OP_RLDUB | DIF_OP_RLDUH
    | DIF_OP_RLDUW | DIF_OP_RLDX) as o) => next (step_load o true i st)
  | Some ((DIF_OP_LDSB | DIF_OP_LDSH | DIF_OP_LDSW | DIF_OP_LDUB | DIF_OP_LDUH
    | DIF_OP_LDUW | DIF_OP_LDX) as o) => next (step_load o false i st)
  | Some ((DIF_OP_ULDSB | DIF_OP_ULDSH | DIF_OP_ULDSW | DIF_OP_ULDUB | DIF_OP_ULDUH
    | DIF_OP_ULDUW | DIF_OP_ULDX) as o) => next (step_uload o i st)
  | Some DIF_OP_RET =>
      let* v := getreg (DIF_INSTR_RD i) st in mret (dtdo_len dp, set_rval v st)
  | Some DIF_OP_SETX => next (step_setx dp i st)
  | Some DIF_OP_SETS => next (step_sets dp i st)
  | Some DIF_OP_SCMP => next (step_scmp i st)
  | Some DIF_OP_LDGA => next (step_ldga i st)
  | Some DIF_OP_LDGS => next (step_ldgs i st)
  | Some DIF_OP_STGS => next (step_stgs i st)
  | Some DIF_OP_LDTA => next (step_ldta i st)
  | Some DIF_OP_LDLS => next (step_ldls i st)
  | Some DIF_OP_STLS => next (step_stls i st)
  | Some DIF_OP_LDTS => next (step_ldts i st)
  | Some DIF_OP_STTS => next (step_stts i st)
  | Some DIF_OP_CALL => next (step_call i st)
  | Some DIF_OP_PUSHTR => next (step_pushtr i st)
  | Some DIF_OP_PUSHTV => next (step_pushtv i st)
  | Some DIF_OP_POPTS => mret (pc + 1, step_popts st)
  | Some DIF_OP_FLUSHTS => mret (pc + 1, set_tup (e_tup st) 0 st)
  | Some DIF_OP_LDGAA => next (step_ldaa false i st)
  | Some DIF_OP_LDTAA => next (step_ldaa true i st)
  | Some DIF_OP_STGAA => next (step_staa false i st)
  | Some DIF_OP_STTAA => next (step_staa true i st)
  | Some DIF_OP_ALLOCS => next (step_allocs i st)
  | Some DIF_OP_COPYS => next (step_copys i st)
  | Some ((DIF_OP_STB | DIF_OP_STH | DIF_OP_STW | DIF_OP_STX) as o) => next (step_store o i st)
  | Some (DIF_OP_NOP | DIF_OP_XLATE | DIF_OP_XLARG) | None => mret (pc + 1, st)
  end.

(** The loop, [while (pc < textlen && !( *flags & CPU_DTRACE_FAULT))]: at most
    [fuel] instructions; [opc] is the index of the last one executed. *)
Fixpoint dif_run (fuel : nat) (dp : dtrace_difo) (pc opc : Z) (st : emu) : res (Z * emu) :=
  if (pc <? dtdo_len dp) && negb (faulted (e_m st)) then
    match fuel with
    | O => Hang
    | S fuel =>
        let* i := in_table (dtdo_buf dp !! Z.to_nat pc) in
        let* (pc', st) := dif_step dp pc i st in
        dif_run fuel dp pc' pc st
    end
  else Ok (opc, st).

Definition DTRACE_MSTATE_FLTOFFS : Z := 0x80.

(** [regs] and [tup] are the uninitialised contents of the automatic arrays.
    A validated text only branches forward, so its length bounds the number of
    instructions; a text that was not validated may loop. *)
Definition dtrace_dif_emulate (dp : dtrace_difo) (regs : list Z) (tup : list dtrace_key)
    (predcache : Z) (ms : dtrace_mstate) (vs : dtrace_vstate) (m : mach) : res (Z * emu) :=
  let ms := MState (dtms_scratch_base ms) (dtms_scratch_ptr ms) (dtms_scratch_size ms)
              (dtms_present ms) (dtms_fltoffs ms) (dtms_access ms) dp in
  let st := Emu (<[0%nat := 0]> regs) tup 0 false false false false 0 predcache ms vs m in
  let* (opc, st) := dif_run (length (dtdo_buf dp)) dp 0 0 st in
  if negb (faulted (e_m st)) then mret (e_rval st, st)
  else
    let ms := e_ms st in
    mret (0, set_ms (MState (dtms_scratch_base ms) (dtms_scratch_ptr ms) (dtms_scratch_size ms)
      (Z.lor (dtms_present ms) DTRACE_MSTATE_FLTOFFS) (opc * 4) (dtms_access ms) (dtms_difo ms)) st).
End Emulate.
