(* ===== verification/DifSafety.v ===== *)
(** Safety of the DIF virtual machine.

    The emulator checks nothing at run time: these proofs show that what
    dtrace_difo_validate() establishes, together with declared variables and the
    promises of [dif_env_ok], is enough for every table access to be in range,
    for every store to stay in the consumer's own memory and for the loop to
    end, and they show where it is not enough. *)
From S2P Require Import Prelude Dif SafeMem DifValidate DifEmulate.
Open Scope res_scope.

(** * What the emulator relies on *)

(** [ms'] is a later state of the same probe firing: same scratch area and
    rights, and an allocation pointer inside of the area. *)
Record ms_frame (ms ms' : dtrace_mstate) : Prop := {
  mf_base : dtms_scratch_base ms' = dtms_scratch_base ms;
  mf_size : dtms_scratch_size ms' = dtms_scratch_size ms;
  mf_access : dtms_access ms' = dtms_access ms;
  mf_ptr : dtms_scratch_base ms <= dtms_scratch_ptr ms' <=
           dtms_scratch_base ms + dtms_scratch_size ms
}.

Definition wrote_scratch (ms : dtrace_mstate) (m m' : mach) : Prop :=
  only_wrote (dtms_scratch_base ms) (dtms_scratch_size ms) m m'.

(** What the builtin variables, subroutines, dynamic variables and user loads
    promise: values are 64-bit words; only the scratch area, or for dynamic
    variables the dynamic variable space, is written; a subroutine writes no
    register but its destination; the data of a dynamic variable lie inside of
    the dynamic variable space. *)
Class dif_env_ok (E : dif_env) : Prop := {
  cpu_ok : 0 <= env_cpu < env_ncpu;
  strsize_default_ok : 0 <= dtrace_strsize_default < 2 ^ 32;
  variable_ok id ndx ms m : bytes_ok m -> ms_frame ms ms ->
    let '(v, ms', m') := dtrace_dif_variable id ndx ms m in
    is_u64 v /\ ms_frame ms ms' /\ wrote_scratch ms m m';
  subr_ok subr rd regs tup ttop ms m : bytes_ok m -> ms_frame ms ms -> Forall (is_u 64) regs ->
    let '(regs', ms', m') := dtrace_dif_subr subr rd regs tup ttop ms m in
    length regs' = length regs /\ Forall (is_u 64) regs' /\
    (forall r, r <> Z.to_nat rd -> regs' !! r = regs !! r) /\
    ms_frame ms ms' /\ wrote_scratch ms m m';
  dynvar_ok keys size op ms vs m :
    let ds := dtvs_dynvars vs in
    let '(dvar, m') := dtrace_dynvar keys size op ms vs m in
    only_wrote (dtds_base ds) (dtds_size ds) m m' /\
    forall data, dvar = Some data ->
      dtds_base ds <= data /\ data + size <= dtds_base ds + dtds_size ds;
  fuword_ok size a m : 1 <= size <= 8 ->
    let '(v, m') := dtrace_fuword size a m in 0 <= v < 256 ^ size /\ m_mem m' = m_mem m
}.

(** The storage dtrace_difo_init() gives a static variable. *)
Definition global_ok (sv : dtrace_statvar) : Prop :=
  is_u64 (dtsv_data sv) /\ 0 <= dtdt_size (dtdv_type (dtsv_var sv)) /\
  dtsv_size sv = if byref (dtdv_type (dtsv_var sv))
                 then dtdt_size (dtdv_type (dtsv_var sv)) + 8 else 0.
Definition local_ok (ncpu : Z) (sv : dtrace_statvar) : Prop :=
  is_u64 (dtsv_data sv) /\ 0 <= dtdt_size (dtdv_type (dtsv_var sv)) /\
  dtsv_size sv = ncpu * (if byref (dtdv_type (dtsv_var sv))
                         then dtdt_size (dtdv_type (dtsv_var sv)) + 8 else 8).

Record consumer_ok (ncpu : Z) (ms : dtrace_mstate) (vs : dtrace_vstate) : Prop := {
  co_regions : regions_ok ms vs;
  co_ptr : ms_frame ms ms;
  co_strsize : 0 <= dtvs_strsize vs < 2 ^ 32;
  co_globals : forall sv, In (Some sv) (dtvs_globals vs) -> global_ok sv;
  co_locals : forall sv, In (Some sv) (dtvs_locals vs) -> local_ok ncpu sv;
  co_tlocals : forall v, In v (dtvs_tlocals vs) -> 0 <= dtdt_size (dtdv_type v)
}.

(** The variables an instruction names have been declared. *)
Definition has_static (table : list (option dtrace_statvar)) (id : Z) : Prop :=
  DIF_VAR_OTHER_UBASE <= id /\
  exists sv, table !! Z.to_nat (id - DIF_VAR_OTHER_UBASE) = Some (Some sv).
Definition has_tlocal (vs : dtrace_vstate) (id : Z) : Prop :=
  DIF_VAR_OTHER_UBASE <= id /\
  exists v, dtvs_tlocals vs !! Z.to_nat (id - DIF_VAR_OTHER_UBASE) = Some v.

Definition declared (vs : dtrace_vstate) (o : dif_op) (i : Z) : Prop :=
  let id := DIF_INSTR_VAR i in
  match o with
  | DIF_OP_LDGS => DIF_VAR_OTHER_UBASE <= id -> has_static (dtvs_globals vs) id
  | DIF_OP_STGS | DIF_OP_LDGAA | DIF_OP_STGAA => has_static (dtvs_globals vs) id
  | DIF_OP_LDLS => DIF_VAR_OTHER_UBASE <= id -> has_static (dtvs_locals vs) id
  | DIF_OP_STLS => has_static (dtvs_locals vs) id
  | DIF_OP_LDTS | DIF_OP_STTS | DIF_OP_LDTAA | DIF_OP_STTAA => has_tlocal vs id
  | _ => True
  end.

(** Emulation changes the value of a by-value global and nothing else of the
    variable state. *)
Definition global_same (o o' : option dtrace_statvar) : Prop :=
  match o, o' with
  | None, None => True
  | Some sv, Some sv' =>
      dtsv_size sv' = dtsv_size sv /\ dtsv_var sv' = dtsv_var sv /\ is_u64 (dtsv_data sv') /\
      (byref (dtdv_type (dtsv_var sv)) = true -> dtsv_data sv' = dtsv_data sv)
  | _, _ => False
  end.
Record vs_same (vs vs' : dtrace_vstate) : Prop := {
  vs_strsize : dtvs_strsize vs' = dtvs_strsize vs;
  vs_tlocals : dtvs_tlocals vs' = dtvs_tlocals vs;
  vs_locals : dtvs_locals vs' = dtvs_locals vs;
  vs_dynvars : dtvs_dynvars vs' = dtvs_dynvars vs;
  vs_globals : Forall2 global_same (dtvs_globals vs) (dtvs_globals vs')
}.

(** * The invariant of the loop *)
Section Safety.
Context {E : dif_env} {HE : dif_env_ok E}.
Context (ms0 : dtrace_mstate) (vs0 : dtrace_vstate) (m0 : mach).
Context (Hco : consumer_ok env_ncpu ms0 vs0).

Record emu_inv (st : emu) : Prop := {
  ei_len : length (e_regs st) = 8%nat;
  ei_regs : Forall (is_u 64) (e_regs st);
  ei_r0 : e_regs st !! 0%nat = Some 0;
  ei_tup : length (e_tup st) = 10%nat;
  ei_ttop : 0 <= e_ttop st <= 8;
  ei_rval : is_u64 (e_rval st);
  ei_ms : ms_frame ms0 (e_ms st);
  ei_vs : vs_same vs0 (e_vs st);
  ei_bytes : bytes_ok (e_m st);
  ei_mem : forall a, ~ writable ms0 vs0 a -> m_mem (e_m st) a = m_mem m0 a
}.

(** Outcome of a step: the invariant, no access out of bounds; a divide trap or
    a divergence only under the stated conditions. *)
Definition post {A} (Q : A -> Prop) (dt hang : Prop) (r : res A) : Prop :=
  match r with Ok a => Q a | Oob => False | DivTrap => dt | Hang => hang end.

Lemma post_bind {A B} (Q : A -> Prop) (Q' : B -> Prop) dt hang r k :
  post Q dt hang r -> (forall a, Q a -> post Q' dt hang (k a)) -> post Q' dt hang (rbind r k).
Proof. destruct r; simpl; auto. Qed.

Lemma post_weaken {A} (Q Q' : A -> Prop) (dt dt' hang hang' : Prop) r :
  post Q dt hang r -> (forall a, Q a -> Q' a) -> (dt -> dt') -> (hang -> hang') ->
  post Q' dt' hang' r.
Proof. destruct r; simpl; auto. Qed.

Section Rules.
Context (dt hang : Prop).

Lemma post_getreg r st : emu_inv st -> 0 <= r < 8 -> post (is_u 64) dt hang (getreg r st).
Proof.
  intros [Hl Hr _ _ _ _ _ _ _ _] Hb. unfold getreg.
  destruct (e_regs st !! Z.to_nat r) as [v|] eqn:Ev; simpl.
  - eapply Forall_lookup_1; eauto.
  - apply lookup_ge_None in Ev. lia.
Qed.

Lemma post_setreg r v st :
  emu_inv st -> 0 < r < 8 -> is_u64 v -> post emu_inv dt hang (setreg r v st).
Proof.
  intros [Hl Hr H0 Ht Hk Hrv Hms Hvs Hb Hm] Hrb Hv. unfold setreg. rewrite Hl.
  destruct (Z.ltb_spec r (Z.of_nat 8)); [|lia]. simpl. split; simpl; try done.
  - by rewrite length_insert.
  - by apply Forall_insert.
  - rewrite list_lookup_insert_ne by lia. done.
Qed.

Lemma inv_set_m st m :
  emu_inv st -> bytes_ok m ->
  (forall a, ~ writable ms0 vs0 a -> m_mem m a = m_mem (e_m st) a) -> emu_inv (set_m m st).
Proof.
  intros [Hl Hr H0 Ht Hk Hrv Hms Hvs Hb Hm] Hb' Hm'. split; simpl; try done.
  intros a Ha. rewrite Hm', Hm; done.
Qed.

Lemma inv_same_mem st m : emu_inv st -> m_mem m = m_mem (e_m st) -> emu_inv (set_m m st).
Proof.
  intros Hi Hm. apply inv_set_m; [done| |intros a _; by rewrite Hm].
  unfold bytes_ok. rewrite Hm. apply (ei_bytes _ Hi).
Qed.

Lemma inv_wrote st m dst len :
  emu_inv st -> only_wrote dst len (e_m st) m ->
  (forall x, dst <= x < dst + len -> writable ms0 vs0 x) -> emu_inv (set_m m st).
Proof.
  intros Hi [Hb Hw] Hr. apply inv_set_m; [done|apply Hb, Hi|].
  intros a Ha. apply Hw. intros Hin. by apply Ha, Hr.
Qed.

Lemma inv_set_cc n z v c st : emu_inv st -> emu_inv (set_cc n z v c st).
Proof. by intros []. Qed.

Lemma inv_set_tup tup ttop st :
  emu_inv st -> length tup = 10%nat -> 0 <= ttop <= 8 -> emu_inv (set_tup tup ttop st).
Proof. by intros []. Qed.

Lemma inv_set_ms ms st : emu_inv st -> ms_frame ms0 ms -> emu_inv (set_ms ms st).
Proof. by intros []. Qed.

Lemma inv_set_predcache p st : emu_inv st -> emu_inv (set_predcache p st).
Proof. by intros []. Qed.

Lemma inv_set_rval v st : emu_inv st -> is_u64 v -> emu_inv (set_rval v st).
Proof. by intros []. Qed.

Lemma inv_raise f v st : emu_inv st -> emu_inv (raise_e f v st).
Proof. intros. by apply inv_same_mem. Qed.

Lemma inv_flag f st : emu_inv st -> emu_inv (flag_e f st).
Proof. intros. by apply inv_same_mem. Qed.

Lemma post_setkey n k tup :
  length tup = 10%nat -> 0 <= n < 10 ->
  post (fun tup' => length tup' = 10%nat) dt hang (setkey n k tup).
Proof.
  intros Hl Hn. unfold setkey. rewrite Hl. destruct (Z.ltb_spec n (Z.of_nat 10)); [|lia].
  simpl. by rewrite length_insert.
Qed.
End Rules.

(** ** The consumer's state during emulation *)

Lemma globals_now st sv' :
  emu_inv st -> In (Some sv') (dtvs_globals (e_vs st)) ->
  exists sv, In (Some sv) (dtvs_globals vs0) /\ global_same (Some sv) (Some sv').
Proof.
  intros Hi Hin. apply list_elem_of_In, list_elem_of_lookup in Hin as (n & Hn).
  destruct (Forall2_lookup_r _ _ _ _ _ (vs_globals _ _ (ei_vs _ Hi)) Hn) as ([sv|] & Hsv & Hs);
    [|done].
  exists sv. split; [|done]. apply list_elem_of_In, list_elem_of_lookup. eauto.
Qed.

Lemma statvars_now st sv' :
  emu_inv st -> In (Some sv') (dtvs_locals (e_vs st) ++ dtvs_globals (e_vs st)) ->
  dtsv_size sv' <> 0 ->
  exists sv, In (Some sv) (dtvs_locals vs0 ++ dtvs_globals vs0) /\
    dtsv_data sv = dtsv_data sv' /\ dtsv_size sv = dtsv_size sv'.
Proof.
  intros Hi Hin Hne. apply in_app_or in Hin as [Hin|Hin].
  - exists sv'. rewrite (vs_locals _ _ (ei_vs _ Hi)) in Hin. split; [|done]. apply in_or_app; auto.
  - destruct (globals_now _ _ Hi Hin) as (sv & Hin0 & Hsz & Hvar & _ & Hdata).
    exists sv. destruct (co_globals _ _ _ Hco sv Hin0) as (_ & _ & Hs).
    destruct (byref (dtdv_type (dtsv_var sv))); [|congruence].
    split; [apply in_or_app; auto|]. split; [symmetry; auto|done].
Qed.

Lemma regions_now st : emu_inv st -> regions_ok (e_ms st) (e_vs st).
Proof.
  intros Hi. pose proof (co_regions _ _ _ Hco) as [Hs Hd Hv]. pose proof (ei_ms _ Hi) as [Hb Hz _ _].
  split.
  - by rewrite Hb, Hz.
  - by rewrite (vs_dynvars _ _ (ei_vs _ Hi)).
  - intros sv' Hin Hne. destruct (statvars_now _ _ Hi Hin Hne) as (sv & Hin0 & <- & Hsz).
    rewrite <- Hsz in *. by apply Hv.
Qed.

Lemma writable_now st a : emu_inv st -> writable (e_ms st) (e_vs st) a -> writable ms0 vs0 a.
Proof.
  intros Hi. pose proof (ei_ms _ Hi) as [Hb Hz _ _]. unfold writable.
  rewrite Hb, Hz, (vs_dynvars _ _ (ei_vs _ Hi)).
  intros [?|[?|(sv' & Hin & Ha)]]; [auto..|]. right. right.
  destruct (statvars_now _ _ Hi Hin ltac:(lia)) as (sv & Hin0 & Hd & Hsz).
  exists sv. split; [done|]. lia.
Qed.

Lemma canstore_now st a sz :
  emu_inv st -> is_u64 a -> is_u64 sz -> dtrace_canstore a sz (e_ms st) (e_vs st) = true ->
  a + sz <= 2 ^ 64 /\ forall x, a <= x < a + sz -> writable ms0 vs0 x.
Proof.
  intros Hi Ha Hsz Hc. pose proof (regions_now st Hi) as Hr.
  pose proof (canstore_sound _ _ _ _ Ha Hsz Hr Hc) as Hms. split.
  - unfold is_u in *. destruct Hr as [Hs Hd Hv]. cbv zeta in Hd.
    destruct Hms as [? ?|? ? ? ? ? ? ?|sv Hin ? ?]; [lia| |].
    + subst ds. lia.
    + destruct (decide (dtsv_size sv = 0)); [lia|]. specialize (Hv sv Hin n). lia.
  - intros x Hx. apply (writable_now st); [done|]. by eapply may_store_writable.
Qed.

Lemma scratch_writable x :
  dtms_scratch_base ms0 <= x < dtms_scratch_base ms0 + dtms_scratch_size ms0 -> writable ms0 vs0 x.
Proof. by left. Qed.

Lemma dyn_writable x :
  dtds_base (dtvs_dynvars vs0) <= x < dtds_base (dtvs_dynvars vs0) + dtds_size (dtvs_dynvars vs0) ->
  writable ms0 vs0 x.
Proof. by right; left. Qed.

Lemma frame_now st : emu_inv st -> ms_frame (e_ms st) (e_ms st).
Proof. intros Hi. destruct (ei_ms _ Hi) as [Hb Hz Ha Hp]. split; try done. by rewrite Hb, Hz. Qed.

Lemma frame_trans st ms : emu_inv st -> ms_frame (e_ms st) ms -> ms_frame ms0 ms.
Proof.
  intros Hi [Hb Hz Ha Hp]. destruct (ei_ms _ Hi) as [Hb' Hz' Ha' _]. rewrite Hb', Hz' in *.
  split; congruence || done.
Qed.

Lemma inv_scratch st ms m :
  emu_inv st -> ms_frame (e_ms st) ms -> wrote_scratch (e_ms st) (e_m st) m ->
  emu_inv (set_m m (set_ms ms st)).
Proof.
  intros Hi Hf Hw. eapply inv_wrote; [apply inv_set_ms; [done|by eapply frame_trans]|exact Hw|].
  destruct (ei_ms _ Hi) as [-> -> _ _]. apply scratch_writable.
Qed.

(** ** Arithmetic, flags, loads and stores *)

Lemma bitop_range (f : Z -> Z -> Z) a b :
  (forall x y n, 0 <= n -> Z.testbit x n = false -> Z.testbit y n = false ->
     Z.testbit (f x y) n = false) ->
  (forall x y, 0 <= x -> 0 <= y -> 0 <= f x y) ->
  is_u64 a -> is_u64 b -> is_u64 (f a b).
Proof.
  intros Hf Hpos Ha Hb. unfold is_u in *. assert (0 <= f a b) by (apply Hpos; lia).
  split; [done|]. destruct (decide (f a b = 0)) as [->|]; [lia|].
  apply Z.log2_lt_pow2; [lia|]. apply Z.nle_gt. intros Hge.
  assert (Hbit : Z.testbit (f a b) (Z.log2 (f a b)) = true) by (apply Z.bit_log2; lia).
  assert (Hhigh : forall x, 0 <= x < 2 ^ 64 -> Z.testbit x (Z.log2 (f a b)) = false).
  { intros x Hx. destruct (decide (x = 0)) as [->|]; [apply Z.bits_0|].
    apply Z.bits_above_log2; [lia|]. assert (Z.log2 x < 64) by (apply Z.log2_lt_pow2; lia). lia. }
  rewrite Hf in Hbit; [done|apply Z.log2_nonneg|apply Hhigh; lia..].
Qed.

Lemma dif_alu_range o a b :
  is_u64 a -> is_u64 b ->
  post (fun '(v, _) => is_u64 v) (o = DIF_OP_SDIV \/ o = DIF_OP_SREM) False (dif_alu o a b).
Proof.
  intros Ha Hb. destruct o; simpl; try done; try apply u64_range.
  - apply (bitop_range Z.lor); [|by intros; apply Z.lor_nonneg|done..].
    intros x y n _ Hx Hy. by rewrite Z.lor_spec, Hx, Hy.
  - apply (bitop_range Z.lxor); [|intros; apply Z.lxor_nonneg; lia|done..].
    intros x y n _ Hx Hy. by rewrite Z.lxor_spec, Hx, Hy.
  - apply (bitop_range Z.land); [|by intros; apply Z.land_nonneg; left|done..].
    intros x y n _ Hx Hy. by rewrite Z.land_spec, Hx, Hy.
  - unfold is_u in *. rewrite Z.shiftr_div_pow2 by (apply Z.land_nonneg; lia).
    assert (0 < 2 ^ Z.land b 63) by (apply pow2_pos, Z.land_nonneg; lia).
    split; [apply Z.div_pos; lia|]. apply Z.div_lt_upper_bound; [lia|].
    nia.
  - destruct (Z.eqb_spec b 0); [simpl; unfold is_u; lia|].
    destruct (_ && _); simpl; [auto|apply u64_range].
  - destruct (Z.eqb_spec b 0); simpl; [unfold is_u; lia|]. unfold is_u in *.
    split; [apply Z.div_pos; lia|]. apply Z.div_lt_upper_bound; nia.
  - destruct (Z.eqb_spec b 0); [simpl; unfold is_u; lia|].
    destruct (_ && _); simpl; [auto|apply u64_range].
  - destruct (Z.eqb_spec b 0); simpl; unfold is_u in *; [lia|].
    pose proof (Z.mod_pos_bound a b ltac:(lia)). lia.
Qed.

Ltac reg := first [apply post_getreg; [eassumption|lia] | apply post_setreg; [eassumption|lia|]].
Ltac bind_reg x H := eapply post_bind; [reg|]; intros x H.

Lemma step_alu_inv o i st :
  emu_inv st -> DIF_INSTR_R1 i < 8 -> DIF_INSTR_R2 i < 8 -> 0 < DIF_INSTR_RD i < 8 ->
  post emu_inv (o = DIF_OP_SDIV \/ o = DIF_OP_SREM) False (step_alu o i st).
Proof.
  intros Hi H1 H2 Hd. pose proof (R1_range i). pose proof (R2_range i). unfold step_alu.
  bind_reg a Ha. bind_reg b Hb.
  eapply post_bind; [by apply dif_alu_range|]. intros [v dz] Hv.
  eapply post_bind; [by apply post_setreg|]. intros st' Hi'. destruct dz; [by apply inv_flag|done].
Qed.

Lemma step_unary_inv o i st :
  emu_inv st -> o <> DIF_OP_SDIV -> o <> DIF_OP_SREM -> DIF_INSTR_R1 i < 8 ->
  0 < DIF_INSTR_RD i < 8 -> post emu_inv False False (step_unary o i st).
Proof.
  intros Hi Ho Ho' H1 Hd. pose proof (R1_range i). unfold step_unary. bind_reg a Ha.
  eapply post_bind.
  { eapply post_weaken; [apply (dif_alu_range o a 0); [done|unfold is_u; lia]|by intros ? Hq; apply Hq| |done].
    tauto. }
  intros [v dz] Hv. reg. done.
Qed.

Lemma step_cmp_inv i st :
  emu_inv st -> DIF_INSTR_R1 i < 8 -> DIF_INSTR_R2 i < 8 ->
  post emu_inv False False (step_cmp i st).
Proof.
  intros Hi H1 H2. pose proof (R1_range i). pose proof (R2_range i). unfold step_cmp.
  bind_reg a Ha. bind_reg b Hb. by apply inv_set_cc.
Qed.

Lemma step_tst_inv i st :
  emu_inv st -> DIF_INSTR_R1 i < 8 -> post emu_inv False False (step_tst i st).
Proof.
  intros Hi H1. pose proof (R1_range i). unfold step_tst. bind_reg a Ha. by apply inv_set_cc.
Qed.

Lemma load_width_range o : 1 <= (load_width o).1 <= 8.
Proof. destruct o; simpl; lia. Qed.

Lemma extend_range o v :
  0 <= v < 256 ^ (load_width o).1 -> is_u64 (extend (load_width o).1 (load_width o).2 v).
Proof.
  unfold extend. destruct (load_width o).2; [intros; apply u64_range|].
  pose proof (load_width_range o) as Hw. generalize dependent (load_width o).1. intros w Hw Hv.
  assert (256 ^ w <= 256 ^ 8) by (apply Z.pow_le_mono_r; lia). unfold is_u. lia.
Qed.

Lemma step_load_inv o b i st :
  emu_inv st -> DIF_INSTR_R1 i < 8 -> 0 < DIF_INSTR_RD i < 8 ->
  post emu_inv False False (step_load o b i st).
Proof.
  intros Hi H1 Hd. pose proof (R1_range i). unfold step_load. bind_reg a Ha.
  pose proof (extend_range o) as Hx. pose proof (load_width_range o) as Hw.
  destruct (load_width o) as [size signed]. simpl in Hx, Hw.
  destruct (b && _); [by apply inv_raise|].
  pose proof (load_range env_platform size a (e_m st) (ei_bytes _ Hi) ltac:(lia)) as Hr.
  pose proof (load_mem env_platform size a (e_m st)) as Hm.
  destruct (dtrace_load env_platform size a (e_m st)) as [v m].
  apply post_setreg; [by apply inv_same_mem|lia|by apply Hx].
Qed.

Lemma step_uload_inv o i st :
  emu_inv st -> DIF_INSTR_R1 i < 8 -> 0 < DIF_INSTR_RD i < 8 ->
  post emu_inv False False (step_uload o i st).
Proof.
  intros Hi H1 Hd. pose proof (R1_range i). unfold step_uload. bind_reg a Ha.
  pose proof (extend_range o) as Hx. pose proof (load_width_range o) as Hw.
  destruct (load_width o) as [size signed]. simpl in Hx, Hw.
  pose proof (fuword_ok size a (e_m st) Hw) as Hf. destruct (dtrace_fuword _ _ _) as [v m].
  destruct Hf as [Hv Hm]. apply post_setreg; [by apply inv_same_mem|lia|by apply Hx].
Qed.

Lemma step_store_inv o i st :
  emu_inv st -> DIF_INSTR_R1 i < 8 -> DIF_INSTR_RD i < 8 ->
  post emu_inv False False (step_store o i st).
Proof.
  intros Hi H1 Hd. pose proof (R1_range i). pose proof (RD_range i). unfold step_store.
  bind_reg a Ha. bind_reg v Hv.
  assert (Hw : 1 <= store_width o <= 8) by (destruct o; simpl; lia).
  destruct (dtrace_canstore _ _ _ _) eqn:Hc; simpl negb; cbv iota; [|by apply inv_raise].
  destruct (_ =? 0); simpl negb; cbv iota; [|by apply inv_raise].
  destruct (canstore_now st a (store_width o)) as [_ Hreg]; [done|done|unfold is_u; lia|done|].
  eapply inv_wrote; [done|apply (write_le_only a v _ _ a (store_width o)); lia|done].
Qed.

Lemma in_table_lookup {A} (l : list A) n dt hang :
  (n < length l)%nat -> post (fun v => l !! n = Some v) dt hang (in_table (l !! n)).
Proof. intros Hn. destruct (lookup_lt_is_Some_2 l n Hn) as [v Hv]. by rewrite Hv. Qed.

Lemma step_setx_inv dp i st :
  emu_inv st -> Forall (is_u 64) (dtdo_inttab dp) -> DIF_INSTR_INTEGER i < dtdo_intlen dp ->
  0 < DIF_INSTR_RD i < 8 -> post emu_inv False False (step_setx dp i st).
Proof.
  intros Hi Hint Hn Hd. unfold step_setx, dtdo_intlen in *. pose proof (VAR_range i).
  change (DIF_INSTR_INTEGER i) with (DIF_INSTR_VAR i) in *.
  eapply post_bind; [apply in_table_lookup; lia|]. intros v Hv.
  apply post_setreg; [done|lia|]. exact (Forall_lookup_1 _ _ _ _ Hint Hv).
Qed.

Lemma step_sets_inv dp i st :
  emu_inv st -> 0 < DIF_INSTR_RD i < 8 -> post emu_inv False False (step_sets dp i st).
Proof. intros Hi Hd. unfold step_sets. reg. apply u64_range. Qed.

Lemma strsize_now st : emu_inv st -> 0 <= dtvs_strsize (e_vs st) < 2 ^ 32.
Proof. intros Hi. rewrite (vs_strsize _ _ (ei_vs _ Hi)). apply Hco. Qed.

Lemma scmp_load_inv s st :
  emu_inv st -> post (fun '(_, st') => emu_inv st') False False (scmp_load s st).
Proof.
  intros Hi. unfold scmp_load. destruct (s =? 0); [done|].
  destruct (strcanload_total env_platform s (dtvs_strsize (e_vs st)) (e_ms st) (e_vs st) (e_m st)
    (strsize_now st Hi)) as (b & m & -> & Hm). simpl. by apply inv_same_mem.
Qed.

Lemma step_scmp_inv i st :
  emu_inv st -> DIF_INSTR_R1 i < 8 -> DIF_INSTR_R2 i < 8 ->
  post emu_inv False False (step_scmp i st).
Proof.
  intros Hi H1 H2. pose proof (R1_range i). pose proof (R2_range i). unfold step_scmp.
  bind_reg a Ha. bind_reg b Hb.
  eapply post_bind; [by apply scmp_load_inv|]. intros [ok1 st1] Hi1.
  destruct (negb ok1); [done|].
  eapply post_bind; [by apply scmp_load_inv|]. intros [ok2 st2] Hi2.
  destruct (negb ok2); [done|].
  destruct (strncmp_total env_platform a b (dtvs_strsize (e_vs st2)) (e_m st2)) as (r & m & -> & Hm);
    [apply strsize_now, Hi2|]. simpl. by apply inv_set_cc, inv_same_mem.
Qed.

Lemma post_variable id ndx i st :
  emu_inv st -> 0 < DIF_INSTR_RD i < 8 ->
  post emu_inv False False
    (let '(v, ms, m) := dtrace_dif_variable id ndx (e_ms st) (e_m st) in
     setreg (DIF_INSTR_RD i) v (set_m m (set_ms ms st))).
Proof.
  intros Hi Hd. pose proof (variable_ok id ndx (e_ms st) (e_m st) (ei_bytes _ Hi) (frame_now st Hi)) as Hv.
  destruct (dtrace_dif_variable _ _ _ _) as [[v ms] m]. destruct Hv as (Hv & Hf & Hw).
  apply post_setreg; [by apply inv_scratch|lia|done].
Qed.

Lemma step_ldga_inv i st :
  emu_inv st -> DIF_INSTR_R2 i < 8 -> 0 < DIF_INSTR_RD i < 8 ->
  post emu_inv False False (step_ldga i st).
Proof.
  intros Hi H2 Hd. pose proof (R2_range i). unfold step_ldga. bind_reg ndx Hn.
  by apply post_variable.
Qed.

(** ** Static variables *)

Lemma var_index_declared i : DIF_VAR_OTHER_UBASE <= DIF_INSTR_VAR i ->
  u32 (DIF_INSTR_VAR i - DIF_VAR_OTHER_UBASE) = DIF_INSTR_VAR i - DIF_VAR_OTHER_UBASE.
Proof.
  intros H. pose proof (VAR_range i). apply u32_id.
  unfold is_u, DIF_VAR_OTHER_UBASE in *. lia.
Qed.

Lemma global_var i st :
  emu_inv st -> has_static (dtvs_globals vs0) (DIF_INSTR_VAR i) ->
  exists sv, static_var (dtvs_globals (e_vs st)) (DIF_INSTR_VAR i) = Ok sv /\
    dtvs_globals (e_vs st) !! Z.to_nat (u32 (DIF_INSTR_VAR i - DIF_VAR_OTHER_UBASE)) = Some (Some sv) /\
    global_ok sv.
Proof.
  intros Hi (Hb & sv0 & Hsv0). unfold static_var. rewrite var_index_declared, zlookup_nat by (done || unfold DIF_VAR_OTHER_UBASE in *; lia).
  destruct (Forall2_lookup_l _ _ _ _ _ (vs_globals _ _ (ei_vs _ Hi)) Hsv0) as ([sv|] & Hsv & Hs); [|done].
  exists sv. rewrite Hsv. split_and!; [done..|].
  destruct Hs as (Hsz & Hvar & Hd & _).
  destruct (co_globals _ _ _ Hco sv0) as (_ & H1 & H2);
    [by apply list_elem_of_In, list_elem_of_lookup_2 with (1 := Hsv0)|].
  unfold global_ok. by rewrite Hvar, Hsz.
Qed.

Lemma local_var i st :
  emu_inv st -> has_static (dtvs_locals vs0) (DIF_INSTR_VAR i) ->
  exists sv, static_var (dtvs_locals (e_vs st)) (DIF_INSTR_VAR i) = Ok sv /\
    In (Some sv) (dtvs_locals (e_vs st)) /\ local_ok env_ncpu sv.
Proof.
  intros Hi (Hb & sv & Hsv). unfold static_var. rewrite var_index_declared, zlookup_nat by (done || unfold DIF_VAR_OTHER_UBASE in *; lia).
  rewrite (vs_locals _ _ (ei_vs _ Hi)), Hsv. exists sv.
  assert (In (Some sv) (dtvs_locals vs0))
    by (by apply list_elem_of_In, list_elem_of_lookup_2 with (1 := Hsv)).
  split_and!; [done..|]. by apply (co_locals _ _ _ Hco).
Qed.

Lemma byref_store_inv a src t st :
  emu_inv st -> 0 <= a -> 0 <= dtdt_size t -> a + (dtdt_size t + 8) < 2 ^ 64 ->
  (forall x, a <= x < a + (dtdt_size t + 8) -> writable ms0 vs0 x) ->
  post emu_inv False False (byref_store a src t st).
Proof.
  intros Hi Ha Ht Hend Hw. unfold byref_store.
  assert (Hst : forall v, emu_inv (set_m (store8 a v (e_m st)) st)).
  { intros v. eapply inv_wrote; [done|apply (store8_only a v a 1); lia|].
    intros x Hx. apply Hw. lia. }
  destruct (src =? 0); [apply Hst|]. specialize (Hst 0).
  set (st' := set_m (store8 a 0 (e_m st)) st) in *.
  destruct (vcanload_total env_platform src t (e_ms st') (e_vs st') (e_m st')
    (strsize_now _ Hst)) as (b & m & -> & Hm). cbn [finishes rbind].
  destruct (negb b); [by apply inv_same_mem|].
  rewrite u64_id by (unfold is_u; lia).
  destruct (vcopy_only env_platform src (a + 8) t m) as (m' & -> & Hc); [lia..|].
  cbn [finishes rbind]. eapply (inv_wrote st' m' (a + 8) (dtdt_size t)); [done| |].
  - destruct Hc as [Hb Hc]. split; [|intros x Hx; by rewrite Hc, Hm].
    intros Hb'. apply Hb. unfold bytes_ok. by rewrite Hm.
  - intros x Hx. apply Hw. lia.
Qed.

Lemma byref_value_range a st : is_u64 (byref_value a st).
Proof. unfold byref_value. destruct (_ =? _); [unfold is_u; lia|apply u64_range]. Qed.

Lemma step_ldgs_inv i st :
  emu_inv st -> 0 < DIF_INSTR_RD i < 8 -> declared vs0 DIF_OP_LDGS i ->
  post emu_inv False False (step_ldgs i st).
Proof.
  intros Hi Hd Hdec. unfold step_ldgs.
  destruct (Z.leb_spec DIF_VAR_OTHER_UBASE (DIF_INSTR_VAR i)) as [Hb|]; [|by apply post_variable].
  destruct (global_var i st Hi (Hdec Hb)) as (sv & -> & _ & Hu & _). cbn [rbind].
  destruct (negb _); apply post_setreg; try done; apply byref_value_range.
Qed.

Lemma stat_region_now st sv :
  emu_inv st -> In (Some sv) (dtvs_locals (e_vs st) ++ dtvs_globals (e_vs st)) ->
  dtsv_size sv <> 0 ->
  0 <= dtsv_data sv /\ dtsv_data sv + dtsv_size sv < 2 ^ 64 /\
  forall x, dtsv_data sv <= x < dtsv_data sv + dtsv_size sv -> writable ms0 vs0 x.
Proof.
  intros Hi Hin Hne. destruct (ro_stat _ _ (regions_now st Hi) sv Hin Hne) as (? & ? & ?).
  split_and!; [done..|]. intros x Hx. apply (writable_now st); [done|].
  right. right. by exists sv.
Qed.

Lemma step_stgs_inv i st :
  emu_inv st -> DIF_INSTR_RD i < 8 -> declared vs0 DIF_OP_STGS i ->
  post emu_inv False False (step_stgs i st).
Proof.
  intros Hi Hd Hdec. pose proof (RD_range i). unfold step_stgs.
  destruct (global_var i st Hi Hdec) as (sv & -> & Hsv & Hu & Ht & Hsz). cbn [rbind].
  bind_reg v Hv. destruct (byref (dtdv_type (dtsv_var sv))) eqn:Hb.
  - assert (In (Some sv) (dtvs_globals (e_vs st)))
      by (by apply list_elem_of_In, list_elem_of_lookup_2 with (1 := Hsv)).
    destruct (stat_region_now st sv Hi) as (? & ? & ?); [apply in_or_app; auto|lia|].
    rewrite Hsz in *. by apply byref_store_inv.
  - destruct Hi as [Hl Hr Hr0 Htup Hk Hrv Hms Hvs Hby Hm]. split; try done. simpl.
    destruct Hvs as [V1 V2 V3 V4 V5]. split; try done. simpl.
    destruct (Forall2_lookup_r _ _ _ _ _ V5 Hsv) as ([sv0|] & Hsv0 & Hs); [|done].
    destruct Hs as (S1 & S2 & S3 & S4).
    rewrite <- (list_insert_id (dtvs_globals vs0) _ _ Hsv0).
    apply Forall2_insert; [done|]. by split_and!; rewrite <- ?S2, ?Hb.
Qed.

Lemma local_slot_region st sv :
  emu_inv st -> In (Some sv) (dtvs_locals (e_vs st)) -> local_ok env_ncpu sv ->
  let len := if byref (dtdv_type (dtsv_var sv))
             then dtdt_size (dtdv_type (dtsv_var sv)) + 8 else 8 in
  0 <= local_slot sv /\ local_slot sv + len < 2 ^ 64 /\
  forall x, local_slot sv <= x < local_slot sv + len -> writable ms0 vs0 x.
Proof.
  intros Hi Hin (Hu & Ht & Hsz) len. pose proof cpu_ok as Hcpu.
  assert (8 <= len) by (unfold len; case_match; lia).
  assert (Hmul : 0 <= env_cpu * len /\ env_cpu * len + len <= env_ncpu * len) by nia.
  fold len in Hsz. assert (dtsv_size sv <> 0) by nia.
  destruct (stat_region_now st sv Hi) as (Hlo & Hend & Hw); [apply in_or_app; auto|done|].
  assert (Hslot : local_slot sv = dtsv_data sv + env_cpu * len).
  { unfold local_slot. unfold len in *. destruct (byref _); apply u64_id; unfold is_u; lia. }
  rewrite Hslot. split_and!; [lia..|]. intros x Hx. apply Hw. lia.
Qed.

Lemma step_ldls_inv i st :
  emu_inv st -> 0 < DIF_INSTR_RD i < 8 -> declared vs0 DIF_OP_LDLS i ->
  post emu_inv False False (step_ldls i st).
Proof.
  intros Hi Hd Hdec. unfold step_ldls.
  destruct (Z.ltb_spec (DIF_INSTR_VAR i) DIF_VAR_OTHER_UBASE) as [|Hb].
  { by apply post_setreg. }
  destruct (local_var i st Hi (Hdec Hb)) as (sv & -> & _ & _). cbn [rbind].
  destruct (byref _); apply post_setreg; try done; [apply byref_value_range|].
  pose proof (read_le_range (m_mem (e_m st)) (local_slot sv) 8 (ei_bytes _ Hi)). done.
Qed.

Lemma step_stls_inv i st :
  emu_inv st -> DIF_INSTR_RD i < 8 -> declared vs0 DIF_OP_STLS i ->
  post emu_inv False False (step_stls i st).
Proof.
  intros Hi Hd Hdec. pose proof (RD_range i). unfold step_stls.
  destruct (local_var i st Hi Hdec) as (sv & -> & Hin & Hok). cbn [rbind].
  bind_reg v Hv. pose proof (local_slot_region st sv Hi Hin Hok) as (Hlo & Hend & Hw).
  destruct (byref _) eqn:Hb.
  - apply byref_store_inv; try done. apply Hok.
  - eapply inv_wrote; [done|apply (write_le_only (local_slot sv) v 8 _ (local_slot sv) 8); lia|done].
Qed.

(** ** Dynamic variables *)

Lemma tls_keys_inv i st : emu_inv st -> post emu_inv False False (tls_keys i st).
Proof.
  intros Hi. unfold tls_keys, DIF_DTR_NREGS.
  eapply post_bind; [apply post_setkey; [apply Hi|lia]|]. intros tup Ht.
  eapply post_bind; [by apply post_setkey|]. intros tup' Ht'.
  apply inv_set_tup; [done|done|apply Hi].
Qed.

Lemma tlocal_var i st :
  emu_inv st -> has_tlocal vs0 (DIF_INSTR_VAR i) ->
  exists v, zlookup (dtvs_tlocals (e_vs st)) (var_index i) = Some v /\
    0 <= dtdt_size (dtdv_type v).
Proof.
  intros Hi (Hb & v & Hv). unfold var_index. rewrite var_index_declared, zlookup_nat by (done || unfold DIF_VAR_OTHER_UBASE in *; lia).
  rewrite (vs_tlocals _ _ (ei_vs _ Hi)). exists v. split; [done|].
  apply (co_tlocals _ _ _ Hco). by apply list_elem_of_In, list_elem_of_lookup_2 with (1 := Hv).
Qed.

(** A call of dtrace_dynvar() keeps the invariant and finds room for the data. *)
Lemma dynvar_inv keys size op st :
  emu_inv st ->
  let '(dvar, m) := dtrace_dynvar keys size op (e_ms st) (e_vs st) (e_m st) in
  emu_inv (set_m m st) /\
  forall data, dvar = Some data -> 0 <= data /\ data + size < 2 ^ 64 /\
    forall x, data <= x < data + size -> writable ms0 vs0 x.
Proof.
  intros Hi. pose proof (dynvar_ok keys size op (e_ms st) (e_vs st) (e_m st)) as Hd. cbv zeta in Hd.
  destruct (dtrace_dynvar _ _ _ _ _ _) as [dvar m]. destruct Hd as [Hw Hdata].
  pose proof (ro_dyn _ _ (co_regions _ _ _ Hco)) as Hr. cbv zeta in Hr.
  rewrite (vs_dynvars _ _ (ei_vs _ Hi)) in *. split.
  - eapply inv_wrote; [done|exact Hw|apply dyn_writable].
  - intros data Hs. specialize (Hdata data Hs). split_and!; [lia..|].
    intros x Hx. apply dyn_writable. lia.
Qed.

Lemma dynvar_load_inv i data v st :
  emu_inv st -> 0 < DIF_INSTR_RD i < 8 -> is_u64 data ->
  post emu_inv False False (dynvar_load i data v st).
Proof.
  intros Hi Hd Hdata. unfold dynvar_load. destruct (byref _); apply post_setreg; try done.
  apply (read_le_range (m_mem (e_m st)) data 8 (ei_bytes _ Hi)).
Qed.

Lemma dynvar_size_ge v : 8 <= dynvar_size v /\ dtdt_size (dtdv_type v) <= dynvar_size v.
Proof. unfold dynvar_size. zcase; lia. Qed.

Lemma dynvar_store_inv data src v st :
  emu_inv st -> 0 <= data -> 0 <= dtdt_size (dtdv_type v) -> data + dynvar_size v < 2 ^ 64 ->
  (forall x, data <= x < data + dynvar_size v -> writable ms0 vs0 x) ->
  post emu_inv False False (dynvar_store data src v st).
Proof.
  intros Hi Hd Ht Hend Hw. pose proof (dynvar_size_ge v). unfold dynvar_store. destruct (byref _).
  - destruct (vcanload_total env_platform src (dtdv_type v) (e_ms st) (e_vs st) (e_m st)
      (strsize_now _ Hi)) as (b & m & -> & Hm). cbn [finishes rbind].
    destruct (negb b); [by apply inv_same_mem|].
    destruct (vcopy_only env_platform src data (dtdv_type v) m) as (m' & -> & Hb & Hc); [lia..|].
    cbn [finishes rbind]. apply (inv_wrote st m' data (dtdt_size (dtdv_type v))); [done| |].
    + split; [|intros x Hx; by rewrite Hc, Hm]. intros Hb'. apply Hb. unfold bytes_ok. by rewrite Hm.
    + intros x Hx. apply Hw. lia.
  - eapply (inv_wrote st _ data 8); [done|apply write_le_only; lia|]. intros x Hx. apply Hw. lia.
Qed.

Lemma step_ldts_inv i st :
  emu_inv st -> 0 < DIF_INSTR_RD i < 8 -> has_tlocal vs0 (DIF_INSTR_VAR i) ->
  post emu_inv False False (step_ldts i st).
Proof.
  intros Hi Hd Hdec. unfold step_ldts. eapply post_bind; [by apply tls_keys_inv|]. intros st1 Hi1.
  pose proof (dynvar_inv (take 2 (drop 8 (e_tup st1))) 8 DTRACE_DYNVAR_NOALLOC st1 Hi1) as Hdv.
  destruct (dtrace_dynvar _ _ _ _ _ _) as [dvar m]. destruct Hdv as [Hi2 Hdata].
  destruct dvar as [data|]; [|by apply post_setreg].
  destruct (tlocal_var i _ Hi2 Hdec) as (v & -> & _). cbn [in_table rbind].
  destruct (Hdata data eq_refl) as (? & ? & _). apply dynvar_load_inv; try done.
  unfold is_u. lia.
Qed.

Lemma step_stts_inv i st :
  emu_inv st -> DIF_INSTR_RD i < 8 -> has_tlocal vs0 (DIF_INSTR_VAR i) ->
  post emu_inv False False (step_stts i st).
Proof.
  intros Hi Hd Hdec. pose proof (RD_range i). unfold step_stts.
  eapply post_bind; [by apply tls_keys_inv|]. intros st1 Hi1. bind_reg src Hsrc.
  destruct (tlocal_var i _ Hi1 Hdec) as (v & -> & Ht). cbn [in_table rbind].
  pose proof (dynvar_inv (take 2 (drop 8 (e_tup st1))) (dynvar_size v) (store_op src) st1 Hi1) as Hdv.
  destruct (dtrace_dynvar _ _ _ _ _ _) as [dvar m]. destruct Hdv as [Hi2 Hdata].
  apply (inv_set_predcache 0) in Hi2. destruct dvar as [data|]; [|done].
  destruct (Hdata data eq_refl) as (? & ? & ?). by apply dynvar_store_inv.
Qed.

Lemma aa_keys_inv (tls : bool) i st :
  emu_inv st ->
  (if tls then has_tlocal vs0 (DIF_INSTR_VAR i) else has_static (dtvs_globals vs0) (DIF_INSTR_VAR i)) ->
  post (fun '(_, v, st') => emu_inv st' /\ 0 <= dtdt_size (dtdv_type v)) False False
    (aa_keys tls i st).
Proof.
  intros Hi Hdec. pose proof (ei_ttop _ Hi). unfold aa_keys.
  eapply post_bind; [apply post_setkey; [apply Hi|lia]|]. intros tup Ht. destruct tls.
  - eapply post_bind; [apply post_setkey; [done|lia]|]. intros tup' Ht'.
    destruct (tlocal_var i _ Hi Hdec) as (v & -> & Hs). cbn [in_table rbind].
    split; [by apply inv_set_tup|done].
  - destruct (global_var i st Hi Hdec) as (sv & -> & _ & _ & Hs & _). cbn [rbind].
    split; [by apply inv_set_tup|done].
Qed.

Lemma step_ldaa_inv (tls : bool) i st :
  emu_inv st -> 0 < DIF_INSTR_RD i < 8 ->
  (if tls then has_tlocal vs0 (DIF_INSTR_VAR i) else has_static (dtvs_globals vs0) (DIF_INSTR_VAR i)) ->
  post emu_inv False False (step_ldaa tls i st).
Proof.
  intros Hi Hd Hdec. unfold step_ldaa. eapply post_bind; [by apply aa_keys_inv|].
  intros [[keys v] st1] [Hi1 Ht].
  pose proof (dynvar_inv keys (dynvar_size v) DTRACE_DYNVAR_NOALLOC st1 Hi1) as Hdv.
  destruct (dtrace_dynvar _ _ _ _ _ _) as [dvar m]. destruct Hdv as [Hi2 Hdata].
  destruct dvar as [data|]; [|by apply post_setreg].
  destruct (Hdata data eq_refl) as (? & ? & _). pose proof (dynvar_size_ge v).
  apply dynvar_load_inv; try done. unfold is_u. lia.
Qed.

Lemma step_staa_inv (tls : bool) i st :
  emu_inv st -> DIF_INSTR_RD i < 8 ->
  (if tls then has_tlocal vs0 (DIF_INSTR_VAR i) else has_static (dtvs_globals vs0) (DIF_INSTR_VAR i)) ->
  post emu_inv False False (step_staa tls i st).
Proof.
  intros Hi Hd Hdec. pose proof (RD_range i). unfold step_staa.
  eapply post_bind; [by apply aa_keys_inv|]. intros [[keys v] st1] [Hi1 Ht]. bind_reg src Hsrc.
  pose proof (dynvar_inv keys (dynvar_size v) (store_op src) st1 Hi1) as Hdv.
  destruct (dtrace_dynvar _ _ _ _ _ _) as [dvar m]. destruct Hdv as [Hi2 Hdata].
  destruct dvar as [data|]; [|done].
  destruct (Hdata data eq_refl) as (? & ? & ?). by apply dynvar_store_inv.
Qed.

(** ** Tuples, calls, scratch *)

Lemma step_pushtr_inv i st :
  emu_inv st -> DIF_INSTR_R2 i < 8 -> DIF_INSTR_RD i < 8 ->
  post emu_inv False True (step_pushtr i st).
Proof.
  intros Hi H2 Hd. pose proof (RD_range i). pose proof (R2_range i). pose proof (ei_ttop _ Hi).
  unfold step_pushtr, DIF_DTR_NREGS. destruct (Z.eqb_spec (e_ttop st) 8); [by apply inv_flag|].
  bind_reg v Hv. bind_reg sz Hsz. destruct (_ =? _).
  - destruct (dtrace_strlen _ _ _ _) as [[len m]|] eqn:Es; [|done]. cbn [finishes rbind].
    eapply post_bind; [apply post_setkey; [apply Hi|lia]|]. intros tup Ht.
    apply inv_set_tup; [|done|lia]. apply inv_same_mem; [done|]. revert Es. unfold dtrace_strlen.
    apply (zloop_partial (fun '(_, _, m') => m_mem m' = m_mem (e_m st))
      (fun r => m_mem r.2 = m_mem (e_m st))); [|done].
    intros [[s l] m'] Hm. destruct (l =? _); [done|].
    pose proof (load_mem env_platform 1 s m') as Hl. unfold dtrace_load8.
    destruct (dtrace_load _ _ _ _) as [c m2]. simpl in Hl.
    destruct (c =? 0); simpl; congruence.
  - eapply post_bind; [apply post_setkey; [apply Hi|lia]|]. intros tup Ht.
    apply inv_set_tup; [done|done|lia].
Qed.

Lemma step_pushtv_inv i st :
  emu_inv st -> DIF_INSTR_RD i < 8 -> post emu_inv False False (step_pushtv i st).
Proof.
  intros Hi Hd. pose proof (RD_range i). pose proof (ei_ttop _ Hi).
  unfold step_pushtv, DIF_DTR_NREGS. destruct (Z.eqb_spec (e_ttop st) 8); [by apply inv_flag|].
  bind_reg v Hv. eapply post_bind; [apply post_setkey; [apply Hi|lia]|]. intros tup Ht.
  apply inv_set_tup; [done|done|lia].
Qed.

Lemma step_popts_inv st : emu_inv st -> emu_inv (step_popts st).
Proof.
  intros Hi. unfold step_popts. pose proof (ei_ttop _ Hi).
  destruct (Z.eqb_spec (e_ttop st) 0); [done|]. apply inv_set_tup; [done|apply Hi|lia].
Qed.

Lemma step_call_inv i st :
  emu_inv st -> 0 < DIF_INSTR_RD i < 8 -> post emu_inv False False (step_call i st).
Proof.
  intros Hi Hd. unfold step_call.
  pose proof (subr_ok (DIF_INSTR_SUBR i) (DIF_INSTR_RD i) (e_regs st) (e_tup st) (e_ttop st)
    (e_ms st) (e_m st) (ei_bytes _ Hi) (frame_now st Hi) (ei_regs _ Hi)) as Hs.
  destruct (dtrace_dif_subr _ _ _ _ _ _ _) as [[regs ms] m]. destruct Hs as (Hl & Hr & Hne & Hf & Hw).
  assert (Hr0 : regs !! 0%nat = Some 0) by (rewrite Hne by lia; apply Hi).
  pose proof (ei_len _ Hi). pose proof (inv_scratch st ms m Hi Hf Hw) as []. by split; simpl; try congruence.
Qed.

Lemma P2ROUNDUP_8 x : is_u64 x -> x + 7 < 2 ^ 64 -> x <= P2ROUNDUP x 8 < x + 8.
Proof.
  intros Hx Hend. unfold P2ROUNDUP.
  assert (Hland : forall y, is_u64 y -> Z.land y (u64 (- 8)) = y - y mod 8).
  { intros y Hy. change (u64 (- 8)) with (Z.ldiff (Z.ones 64) (Z.ones 3)). by apply (land_clear_low y 3). }
  rewrite Hland by apply u64_range. unfold u64, is_u in *. lia.
Qed.

Lemma bzero_only dst len n m :
  0 <= len <= n -> only_wrote dst n m (dtrace_bzero dst len m).
Proof.
  intros Hn. assert (s32 len <= len) by (unfold s32, u32; zcase; lia). split.
  - intros Hb a. simpl. destruct (_ && _); [done|apply Hb].
  - intros a Ha. simpl. destruct (Z.leb_spec dst a), (Z.ltb_spec a (dst + s32 len)); simpl; (done || lia).
Qed.

Lemma step_allocs_inv i st :
  emu_inv st -> dtms_scratch_base ms0 + dtms_scratch_size ms0 + 8 < 2 ^ 64 ->
  DIF_INSTR_R1 i < 8 -> 0 < DIF_INSTR_RD i < 8 -> post emu_inv False False (step_allocs i st).
Proof.
  intros Hi Htop H1 Hd. pose proof (R1_range i). unfold step_allocs. bind_reg n Hn.
  destruct (_ || _) eqn:Ec; [by apply post_setreg; [apply inv_flag| |]|].
  apply orb_false_iff in Ec as [Hlt Hin]. apply negb_false_iff in Hin.
  destruct (ei_ms _ Hi) as [Hb Hz Ha Hp]. pose proof (ro_scratch _ _ (co_regions _ _ _ Hco)) as Hs.
  unfold DTRACE_INSCRATCH in Hin. rewrite Hb, Hz in Hin. apply Z.leb_le in Hin.
  set (p := dtms_scratch_ptr (e_ms st)) in *. clearbody p.
  pose proof (P2ROUNDUP_8 p ltac:(unfold is_u; lia) ltac:(lia)) as Hptr.
  set (ptr := P2ROUNDUP p 8) in *. clearbody ptr. apply Z.ltb_ge in Hlt.
  set (size := u64 (ptr - p + n)) in *. assert (Hsz : is_u64 size) by apply u64_range. clearbody size.
  rewrite (u64_id (dtms_scratch_base ms0 + _)) in Hin by (unfold is_u; lia).
  rewrite u64_id in Hin by (unfold is_u; lia). unfold is_u in Hsz.
  apply post_setreg; [|lia|unfold is_u; lia].
  apply inv_set_ms.
  - eapply (inv_wrote st _ p size); [done|apply bzero_only; lia|].
    intros x Hx. apply scratch_writable. lia.
  - split; simpl; try done. rewrite u64_id by (unfold is_u; lia). lia.
Qed.

Lemma step_copys_inv i st :
  emu_inv st -> DIF_INSTR_R1 i < 8 -> DIF_INSTR_R2 i < 8 -> DIF_INSTR_RD i < 8 ->
  post emu_inv False False (step_copys i st).
Proof.
  intros Hi H1 H2 Hd. pose proof (R1_range i). pose proof (R2_range i). pose proof (RD_range i).
  unfold step_copys. bind_reg dst Hdst. bind_reg src Hsrc. bind_reg len Hlen.
  destruct (dtrace_canstore _ _ _ _) eqn:Hc; simpl negb; cbv iota; [|by apply inv_raise].
  destruct (canstore_now st dst len Hi Hdst Hlen Hc) as [Hend Hw].
  pose proof (canload_mem src len (e_ms st) (e_vs st) (e_m st)) as Hm.
  destruct (dtrace_canload _ _ _ _ _) as [ok m]. simpl in Hm.
  destruct (negb ok); [by apply inv_same_mem|]. unfold is_u in Hdst, Hlen.
  destruct (bcopy_only env_platform src dst len m) as (m' & -> & Hb & Hc'); [lia..|].
  cbn [finishes rbind]. apply (inv_wrote st m' dst len); [done| |done].
  split; [|intros x Hx; by rewrite Hc', Hm]. intros Hb'. apply Hb. unfold bytes_ok. by rewrite Hm.
Qed.

Lemma step_ldta_inv i st :
  emu_inv st -> 0 < DIF_INSTR_RD i < 8 -> post emu_inv False False (step_ldta i st).
Proof. intros. unfold step_ldta. apply post_setreg; [by apply inv_flag|done|unfold is_u; lia]. Qed.

(** ** One instruction, then the loop *)

Lemma valid_reads nregs dp pc i o r :
  instr_valid nregs dp pc i o -> In r (dif_reads o i) -> r < nregs.
Proof. intros Hv. apply (proj1 (List.Forall_forall _ _) (iv_reads _ _ _ _ _ Hv)). Qed.

(** A register the instruction reads exists. *)
Ltac read_ok :=
  match goal with H : forall r, In r _ -> r < 8 |- _ => apply H; simpl; auto end.

(** The lemma of the case at hand. *)
Ltac step_case :=
  lazymatch goal with
  | |- post _ _ _ (step_alu _ _ _) => apply step_alu_inv; [done|read_ok..|done]
  | |- post _ _ _ (step_unary _ _ _) => apply step_unary_inv; [done|done|done|read_ok|done]
  | |- post _ _ _ (step_cmp _ _) => apply step_cmp_inv; [done|read_ok..]
  | |- post _ _ _ (step_tst _ _) => apply step_tst_inv; [done|read_ok]
  | |- post _ _ _ (step_load _ _ _ _) => apply step_load_inv; [done|read_ok|done]
  | |- post _ _ _ (step_uload _ _ _) => apply step_uload_inv; [done|read_ok|done]
  | |- post _ _ _ (step_store _ _ _) => apply step_store_inv; [done|read_ok|lia]
  | |- post _ _ _ (step_setx _ _ _) => apply step_setx_inv; done
  | |- post _ _ _ (step_sets _ _ _) => apply step_sets_inv; done
  | |- post _ _ _ (step_scmp _ _) => apply step_scmp_inv; [done|read_ok..]
  | |- post _ _ _ (step_ldga _ _) => apply step_ldga_inv; [done|read_ok|done]
  | |- post _ _ _ (step_ldgs _ _) => apply step_ldgs_inv; done
  | |- post _ _ _ (step_stgs _ _) => apply step_stgs_inv; [done|read_ok|done]
  | |- post _ _ _ (step_ldls _ _) => apply step_ldls_inv; done
  | |- post _ _ _ (step_stls _ _) => apply step_stls_inv; [done|read_ok|done]
  | |- post _ _ _ (step_ldts _ _) => apply step_ldts_inv; done
  | |- post _ _ _ (step_stts _ _) => apply step_stts_inv; [done|read_ok|done]
  | |- post _ _ _ (step_call _ _) => apply step_call_inv; done
  | |- post _ _ _ (step_pushtr _ _) => apply step_pushtr_inv; [done|read_ok..]
  | |- post _ _ _ (step_pushtv _ _) => apply step_pushtv_inv; [done|read_ok]
  | |- post _ _ _ (step_ldaa _ _ _) => apply step_ldaa_inv; done
  | |- post _ _ _ (step_staa _ _ _) => apply step_staa_inv; [done|read_ok|done]
  | |- post _ _ _ (step_allocs _ _) => apply step_allocs_inv; [done|done|read_ok|done]
  | |- post _ _ _ (step_copys _ _) => apply step_copys_inv; [done|read_ok..|lia]
  | |- post _ _ _ (step_ldta _ _) => apply step_ldta_inv; done
  end.

(** A valid instruction whose variables are declared moves forward and keeps the
    invariant; only a signed division can trap, only pushtr can fail to end. *)
Lemma dif_step_inv dp pc i o st :
  dtms_scratch_base ms0 + dtms_scratch_size ms0 + 8 < 2 ^ 64 ->
  Forall (is_u 64) (dtdo_inttab dp) -> pc < dtdo_len dp ->
  instr_valid 8 dp pc i o -> declared vs0 o i -> emu_inv st ->
  post (fun '(pc', st') => pc < pc' <= dtdo_len dp /\ emu_inv st')
    (o = DIF_OP_SDIV \/ o = DIF_OP_SREM) (o = DIF_OP_PUSHTR) (dif_step dp pc i st).
Proof.
  intros Htop Hint Hpc Hv Hdec Hi.
  pose proof (fun r => valid_reads _ _ _ _ _ r Hv) as Hr. pose proof (iv_dest _ _ _ _ _ Hv) as Hw.
  pose proof (iv_operand _ _ _ _ _ Hv) as Hop. unfold dif_step. rewrite (iv_op _ _ _ _ _ Hv).
  assert (Hnext : forall dt hang r, post emu_inv dt hang r ->
    post (fun '(pc', st') => pc < pc' <= dtdo_len dp /\ emu_inv st') dt hang
      (let* st := r in mret (pc + 1, st))).
  { intros dt hang [] H; simpl in *; try done. split; [lia|done]. }
  destruct o; cbn [dif_reads dif_dest dif_operand declared] in *;
    try change (is_branch _) with false in *; try change (is_branch _) with true in *; cbv iota in *;
    try specialize (Hw _ eq_refl); try done;
    try (unfold mret; cbn [post]; destruct (branch_taken _ _); (split; [lia|assumption]));
    try (unfold mret; cbn [post]; split; [lia|assumption]).
  all: try (apply Hnext; eapply post_weaken;
    [step_case
    |done|try done; try tauto|try done; try tauto]).
  - eapply post_bind; [apply post_getreg; [done|]|].
    + pose proof (RD_range i). split; [lia|]. read_ok.
    + intros v Hval. split; [lia|]. by apply inv_set_rval.
  - split; [lia|]. by apply step_popts_inv.
  - split; [lia|]. apply inv_set_tup; [done|apply Hi|lia].
Qed.

Definition declared_text (dp : dtrace_difo) (vs : dtrace_vstate) : Prop :=
  forall pc i o, dtdo_buf dp !! pc = Some i -> op_of (DIF_INSTR_OP i) = Some o -> declared vs o i.

Definition has_op (dp : dtrace_difo) (o : dif_op) : Prop :=
  exists pc i, dtdo_buf dp !! pc = Some i /\ op_of (DIF_INSTR_OP i) = Some o.

Lemma dif_run_inv fuel dp pc opc st :
  dtms_scratch_base ms0 + dtms_scratch_size ms0 + 8 < 2 ^ 64 ->
  Forall (is_u 64) (dtdo_inttab dp) -> text_valid 8 dp -> declared_text dp vs0 ->
  emu_inv st -> 0 <= pc <= dtdo_len dp -> dtdo_len dp <= Z.of_nat fuel + pc ->
  post (fun '(opc', st') => emu_inv st' /\ (opc' = opc \/ pc <= opc' < dtdo_len dp))
    (has_op dp DIF_OP_SDIV \/ has_op dp DIF_OP_SREM) (has_op dp DIF_OP_PUSHTR)
    (dif_run fuel dp pc opc st).
Proof.
  intros Htop Hint Htext Hdec. revert pc opc st. induction fuel as [|fuel IH];
    intros pc opc st Hi Hpc Hfuel; cbn [dif_run].
  - destruct (Z.ltb_spec pc (dtdo_len dp)); [lia|]. simpl. auto.
  - destruct (Z.ltb_spec pc (dtdo_len dp)) as [Hlt|]; simpl andb; cbv iota; [|simpl; auto].
    destruct (faulted (e_m st)) eqn:Hf; simpl negb; cbv iota; [simpl; auto|].
    destruct (lookup_lt_is_Some_2 (dtdo_buf dp) (Z.to_nat pc)) as [i Hlook].
    { unfold dtdo_len in Hlt. lia. }
    rewrite Hlook. cbn [in_table rbind].
    destruct (tv_instr _ _ Htext _ _ Hlook) as (o & Hv).
    rewrite Z2Nat.id in Hv by lia. pose proof (Hdec _ _ _ Hlook (iv_op _ _ _ _ _ Hv)) as Hd.
    assert (Hop : has_op dp o) by (exists (Z.to_nat pc), i; split; [done|apply Hv]).
    eapply post_bind.
    { eapply post_weaken; [by eapply dif_step_inv|intros a Ha; exact Ha| |].
      - by intros [-> | ->]; auto.
      - by intros ->. }
    intros [pc' st'] [Hpc' Hi']. eapply post_weaken; [apply IH; try done; lia| |auto..].
    intros [opc' st''] (Hi'' & Hx). split; [done|]. lia.
Qed.

Lemma emu_inv_init dp regs tup predcache :
  length regs = 8%nat -> Forall (is_u 64) regs -> length tup = 10%nat -> bytes_ok m0 ->
  emu_inv (Emu (<[0%nat := 0]> regs) tup 0 false false false false 0 predcache
    (MState (dtms_scratch_base ms0) (dtms_scratch_ptr ms0) (dtms_scratch_size ms0)
       (dtms_present ms0) (dtms_fltoffs ms0) (dtms_access ms0) dp) vs0 m0).
Proof.
  intros Hl Hr Ht Hb. split; simpl; try done.
  - by rewrite length_insert.
  - apply Forall_insert; [done|unfold is_u; lia].
  - apply list_lookup_insert_eq. lia.
  - destruct (co_ptr _ _ _ Hco) as [_ _ _ Hp]. by split.
  - split; try done. apply Forall_Forall2_diag, List.Forall_forall. intros [sv|] Hin; [|done].
    destruct (co_globals _ _ _ Hco sv Hin). by split_and!.
Qed.
End Safety.

(** ** The whole emulation *)

(** The automatic arrays have their declared sizes; memory holds bytes; the
    integer table holds 64-bit words; the rounding of the scratch pointer does
    not wrap around. *)
Record emulation_ok (ncpu : Z) (dp : dtrace_difo) (regs : list Z) (tup : list dtrace_key)
    (ms : dtrace_mstate) (vs : dtrace_vstate) (m : mach) : Prop := {
  eo_consumer : consumer_ok ncpu ms vs;
  eo_top : dtms_scratch_base ms + dtms_scratch_size ms + 8 < 2 ^ 64;
  eo_int : Forall (is_u 64) (dtdo_inttab dp);
  eo_regs : length regs = 8%nat /\ Forall (is_u 64) regs;
  eo_tup : length tup = 10%nat;
  eo_bytes : bytes_ok m;
  eo_vars : declared_text dp vs
}.

Lemma emulate_post {E : dif_env} {HE : dif_env_ok E} dp regs tup predcache ms vs m :
  emulation_ok env_ncpu dp regs tup ms vs m -> text_valid DIF_DIR_NREGS dp ->
  post (fun '(v, st) => is_u64 v /\ e_regs st !! 0%nat = Some 0 /\
      ms_frame ms (e_ms st) /\ vs_same vs (e_vs st) /\
      (forall a, ~ writable ms vs a -> m_mem (e_m st) a = m_mem m a) /\
      (faulted (e_m st) = true -> v = 0 /\
         Z.land (dtms_present (e_ms st)) DTRACE_MSTATE_FLTOFFS <> 0 /\
         exists pc, dtms_fltoffs (e_ms st) = pc * 4 /\ (pc = 0 \/ 0 <= pc < dtdo_len dp)) /\
      bytes_ok (e_m st))
    (has_op dp DIF_OP_SDIV \/ has_op dp DIF_OP_SREM) (has_op dp DIF_OP_PUSHTR)
    (dtrace_dif_emulate dp regs tup predcache ms vs m).
Proof.
  intros [Hco Htop Hint [Hl Hr] Ht Hb Hvars] Htext. unfold dtrace_dif_emulate.
  pose proof (emu_inv_init ms vs m Hco dp regs tup predcache Hl Hr Ht Hb) as Hi.
  eapply post_bind.
  { eapply (dif_run_inv ms vs m Hco (length (dtdo_buf dp)) dp 0 0); try done.
    - unfold dtdo_len. lia.
    - unfold dtdo_len. lia. }
  intros [opc st] [Hi' Hopc].
  destruct (faulted (e_m st)) eqn:Hf; simpl negb; cbv iota; unfold mret; cbn [post].
  - destruct Hi' as [? ? ? ? ? ? [? ? ? ?] ? ? ?]. split_and!; try done.
    intros _. split_and!; [done| |exists opc; split; [done|lia]]. simpl.
    intros Hz. apply (f_equal (fun z => Z.testbit z 7)) in Hz. revert Hz.
    rewrite Z.land_spec, Z.lor_spec. change (Z.testbit DTRACE_MSTATE_FLTOFFS 7) with true.
    by rewrite orb_true_r, Z.bits_0.
  - destruct Hi'. split_and!; (done || congruence).
Qed.

(** ** Comparison and branches *)

(** The state after [cmp r1, r2]. *)
Definition after_cmp (a b : Z) (st : emu) : emu :=
  set_cc (s64 (a - b) <? 0) (s64 (a - b) =? 0) false (a <? b) st.

Lemma step_cmp_value i st a b :
  getreg (DIF_INSTR_R1 i) st = Ok a -> getreg (DIF_INSTR_R2 i) st = Ok b ->
  step_cmp i st = Ok (after_cmp a b st).
Proof. intros Ha Hb. unfold step_cmp. by rewrite Ha, Hb. Qed.

Lemma diff_zero a b : is_u64 a -> is_u64 b -> s64 (a - b) = 0 <-> a = b.
Proof. word. Qed.

Lemma diff_sign a b :
  is_u64 a -> is_u64 b -> - 2 ^ 63 <= s64 a - s64 b < 2 ^ 63 -> s64 (a - b) = s64 a - s64 b.
Proof. word. Qed.

(** * An environment

    Builtin variables read 0, subroutines store 0 in their destination register,
    there are no dynamic variables and user loads read 0. *)
Definition demo_env : dif_env := {|
  env_platform := demo_platform;
  env_cpu := 1;
  env_ncpu := 4;
  env_thrkey := 7;
  dtrace_strsize_default := 256;
  dtrace_dif_variable := fun _ _ ms m => (0, ms, m);
  dtrace_dif_subr := fun _ rd regs _ _ ms m => (<[Z.to_nat rd := 0]> regs, ms, m);
  dtrace_dynvar := fun _ _ _ _ _ m => (None, m);
  dtrace_fuword := fun _ _ m => (0, m)
|}.

#[export] Instance demo_env_ok : dif_env_ok demo_env.
Proof.
  split; simpl; try lia.
  - intros _ _ ms m _ Hf. split_and!; [unfold is_u; lia|done|by apply only_wrote_refl].
  - intros _ rd regs _ _ ms m _ Hf Hr. split_and!; [by rewrite length_insert| | |done|].
    + apply Forall_insert; [done|unfold is_u; lia].
    + intros r Hne. by rewrite list_lookup_insert_ne by done.
    + by apply only_wrote_refl.
  - intros keys size op ms vs m. split; [by apply only_wrote_refl|done].
  - intros size _ m Hs. split; [|done]. split; [lia|]. apply Z.pow_pos_nonneg; lia.
Qed.

(** Eight registers and ten tuple slots of garbage. *)
Definition demo_regs : list Z := [9; 9; 9; 9; 9; 9; 9; 9].
Definition demo_tup : list dtrace_key := repeat (3, 3) 10.

(** setx 0x1008, %r1; setx 42, %r2; stx %r2, [%r1]; ldgs g, %r3; add %r2, %r3, %r3;
    ret %r3.  Scratch is [0x1000, 0x1040), the global g holds 5. *)
Definition demo_prog : dtrace_difo :=
  Difo [DIF_INSTR_FMT 37 0 0 1; DIF_INSTR_FMT 37 0 1 2; DIF_INSTR_FMT 63 2 0 1;
        DIF_INSTR_FMT 41 0x05 0x00 3; DIF_INSTR_FMT 7 2 3 3; DIF_INSTR_RET 3]
    [0x1008; 42] 0 0 [DifV 0 0x500 1 0 0 (DifType 0 0 0 8)] (DifType 0 0 0 8) 1 0.
Definition prog_vstate : dtrace_vstate :=
  VState 256 0 [Some (StatVar 5 0 1 (DifV 0 0x500 1 0 0 (DifType 0 0 0 8)))] [] []
    (DState 0 0 0 0).

Lemma demo_emulation_ok : emulation_ok 4 demo_prog demo_regs demo_tup demo_mstate prog_vstate demo_mach.
Proof.
  split.
  - split.
    + constructor; [simpl; lia|cbv zeta; simpl; unfold sizeof_dynhash; lia|].
      intros sv Hin Hne. destruct Hin as [Hin|Hin]; [|done]. by injection Hin as <-.
    + split; simpl; (done || lia).
    + simpl. lia.
    + intros sv Hin. destruct Hin as [Hin|Hin]; [|done]. injection Hin as <-.
      unfold global_ok, is_u. simpl. lia.
    + intros sv Hin. destruct Hin.
    + intros v Hin. destruct Hin.
  - simpl. lia.
  - repeat constructor; simpl; unfold is_u; lia.
  - split; [done|]. repeat constructor; unfold is_u; lia.
  - done.
  - intros a. apply u8_range.
  - intros pc i o Hpc Ho.
    destruct pc as [|[|[|[|[|[|pc]]]]]]; [..|discriminate Hpc];
      injection Hpc as <-; vm_compute in Ho; injection Ho as <-; cbn [declared]; try exact I.
    intros _. split; [by vm_compute|]. eexists. vm_compute. reflexivity.
Qed.

(** * Properties *)

(** C1: emulating a DIF object that dtrace_difo_validate() accepted never reads or
    writes outside of the register file, the tuple stack, the text, the integer
    table or the variable tables, and it ends within as many instructions as the
    text is long, provided that the variables it names are declared.  Two
    exceptions, which the validator does not exclude: a signed division may
    take the hardware divide trap, and a pushtr of a string may scan forever. *)
Theorem dtrace_dif_emulate_total (E : dif_env) (HE : dif_env_ok E)
    gmax dp0 dp regs tup predcache ms vs m cr :
  dtrace_difo_validate gmax dp0 vs DIF_DIR_NREGS cr = (0, dp) ->
  emulation_ok env_ncpu dp regs tup ms vs m ->
  match dtrace_dif_emulate dp regs tup predcache ms vs m with
  | Ok _ => True
  | Oob => False
  | DivTrap => has_op dp DIF_OP_SDIV \/ has_op dp DIF_OP_SREM
  | Hang => has_op dp DIF_OP_PUSHTR
  end.
Proof.
  intros Hv Hok. destruct (difo_validate_accepted _ _ _ _ _ _ Hv) as [Ht _].
  pose proof (emulate_post dp regs tup predcache ms vs m Hok Ht) as Hp.
  by destruct (dtrace_dif_emulate _ _ _ _ _ _ _).
Qed.

Lemma dtrace_dif_emulate_total_witness :
  dtrace_difo_validate 16384 demo_prog prog_vstate DIF_DIR_NREGS true = (0, demo_prog) /\
  (exists st, @dtrace_dif_emulate demo_env demo_prog demo_regs demo_tup 0 demo_mstate prog_vstate
    demo_mach = Ok (47, st)) /\
  match @dtrace_dif_emulate demo_env demo_prog demo_regs demo_tup 0 demo_mstate prog_vstate
    demo_mach with
  | Ok _ => True
  | Oob => False
  | DivTrap => has_op demo_prog DIF_OP_SDIV \/ has_op demo_prog DIF_OP_SREM
  | Hang => has_op demo_prog DIF_OP_PUSHTR
  end.
Proof.
  split; [vm_compute; reflexivity|]. split; [eexists; lazy; reflexivity|].
  apply (dtrace_dif_emulate_total demo_env demo_env_ok 16384 demo_prog demo_prog demo_regs
    demo_tup 0 demo_mstate prog_vstate demo_mach true); [vm_compute; reflexivity|].
  apply demo_emulation_ok.
Defined.



(** C5: when emulation ends with a fault flag set, the result is 0 and the machine
    state records the byte offset of an instruction of the text as the place of
    the fault; otherwise the result is a 64-bit word. *)
Theorem dtrace_dif_emulate_fault_result (E : dif_env) (HE : dif_env_ok E)
    gmax dp0 dp regs tup predcache ms vs m cr v st :
  dtrace_difo_validate gmax dp0 vs DIF_DIR_NREGS cr = (0, dp) ->
  emulation_ok env_ncpu dp regs tup ms vs m ->
  dtrace_dif_emulate dp regs tup predcache ms vs m = Ok (v, st) ->
  is_u64 v /\
  (faulted (e_m st) = true -> v = 0 /\
     Z.land (dtms_present (e_ms st)) DTRACE_MSTATE_FLTOFFS <> 0 /\
     exists pc, dtms_fltoffs (e_ms st) = pc * 4 /\ (pc = 0 \/ 0 <= pc < dtdo_len dp)).
Proof.
  intros Hv Hok He. destruct (difo_validate_accepted _ _ _ _ _ _ Hv) as [Ht _].
  pose proof (emulate_post dp regs tup predcache ms vs m Hok Ht) as Hp. rewrite He in Hp.
  destruct Hp as (? & _ & _ & _ & _ & ? & _). by split.
Qed.

(** The same program run by a consumer whose scratch area is elsewhere. *)
Definition far_mstate : dtrace_mstate := MState 0x8000 0x8000 64 0 0 0 demo_difo.

Lemma far_emulation_ok : emulation_ok 4 demo_prog demo_regs demo_tup far_mstate prog_vstate demo_mach.
Proof.
  destruct demo_emulation_ok as [Hco Htop Hint Hr Ht Hb Hv]. split; try done.
  destruct Hco as [[_ Hd Hst] _ Hs Hg Hl Htl]. split; try done.
Qed.

Lemma dtrace_dif_emulate_fault_result_witness :
  match @dtrace_dif_emulate demo_env demo_prog demo_regs demo_tup 0 far_mstate prog_vstate demo_mach with
  | Ok (v, st) => faulted (e_m st) = true /\ v = 0 /\ dtms_fltoffs (e_ms st) = 2 * 4
  | _ => False
  end.
Proof.
  destruct (@dtrace_dif_emulate demo_env demo_prog demo_regs demo_tup 0 far_mstate prog_vstate
    demo_mach) as [[v st]| | |] eqn:He; [|vm_compute in He; discriminate He..].
  destruct (dtrace_dif_emulate_fault_result demo_env demo_env_ok 16384 demo_prog demo_prog demo_regs
    demo_tup 0 far_mstate prog_vstate demo_mach true v st ltac:(vm_compute; reflexivity)
    far_emulation_ok He) as (_ & Hz).
  assert (Hf : faulted (e_m st) = true) by (lazy in He; injection He as _ <-; reflexivity).
  split; [exact Hf|]. split; [apply (Hz Hf)|].
  lazy in He. injection He as _ <-. reflexivity.
Defined.

(** After cmp, the unsigned and equality branches decide the comparison of the
    two registers, and the signed branches decide the signed comparison whenever
    the difference fits in 64 bits. *)
Theorem dif_cmp_branches a b st :
  is_u64 a -> is_u64 b ->
  let st' := after_cmp a b st in
  (branch_taken DIF_OP_BE st' = true <-> a = b) /\
  (branch_taken DIF_OP_BNE st' = true <-> a <> b) /\
  (branch_taken DIF_OP_BLU st' = true <-> a < b) /\
  (branch_taken DIF_OP_BLEU st' = true <-> a <= b) /\
  (branch_taken DIF_OP_BGU st' = true <-> b < a) /\
  (branch_taken DIF_OP_BGEU st' = true <-> b <= a) /\
  (- 2 ^ 63 <= s64 a - s64 b < 2 ^ 63 ->
   (branch_taken DIF_OP_BL st' = true <-> s64 a < s64 b) /\
   (branch_taken DIF_OP_BLE st' = true <-> s64 a <= s64 b) /\
   (branch_taken DIF_OP_BG st' = true <-> s64 b < s64 a) /\
   (branch_taken DIF_OP_BGE st' = true <-> s64 b <= s64 a)).
Proof.
  intros Ha Hb st'. pose proof (diff_zero a b Ha Hb) as Hz.
  unfold st', after_cmp, branch_taken. simpl. rewrite !xorb_false_r.
  destruct (Z.eqb_spec (s64 (a - b)) 0) as [E0|E0]; destruct (Z.ltb_spec a b);
    simpl; rewrite ?orb_false_r, ?orb_true_r; simpl.
  all: split_and!; try (split; [(discriminate || (intros _; lia))|(reflexivity || lia)]).
  all: intros Hn; rewrite (diff_sign a b Ha Hb Hn) in *;
    destruct (Z.ltb_spec (s64 a - s64 b) 0); simpl;
    split_and!; (split; [(discriminate || (intros _; lia))|(reflexivity || lia)]).
Qed.

(** An idle machine. *)
Definition demo_emu : emu :=
  Emu demo_regs demo_tup 0 false false false false 0 0 demo_mstate prog_vstate demo_mach.

Lemma dif_cmp_branches_witness :
  branch_taken DIF_OP_BL (after_cmp (2 ^ 64 - 3) 4 demo_emu) = true.
Proof.
  destruct (dif_cmp_branches (2 ^ 64 - 3) 4 demo_emu) as (_ & _ & _ & _ & _ & _ & Hs);
    [unfold is_u; lia|unfold is_u; lia|].
  destruct Hs as [Hl _]; [vm_compute; split; congruence|]. by apply Hl.
Defined.

(** Cmp leaves the overflow flag clear, so when the difference of the operands
    does not fit in 64 bits every signed branch takes the wrong decision. *)
Theorem dif_cmp_signed_overflow a b st :
  is_u64 a -> is_u64 b -> ~ (- 2 ^ 63 <= s64 a - s64 b < 2 ^ 63) ->
  let st' := after_cmp a b st in
  (branch_taken DIF_OP_BL st' = true <-> s64 b < s64 a) /\
  (branch_taken DIF_OP_BGE st' = true <-> s64 a < s64 b).
Proof.
  intros Ha Hb Hn st'. unfold st', after_cmp, branch_taken. simpl. rewrite !xorb_false_r.
  assert (s64 (a - b) < 0 <-> s64 b < s64 a) as H by (revert Hn; word).
  rewrite negb_true_iff, Z.ltb_lt, Z.ltb_ge. lia.
Qed.

Lemma dif_cmp_signed_overflow_witness :
  s64 (2 ^ 63) < s64 1 /\
  branch_taken DIF_OP_BL (after_cmp (2 ^ 63) 1 demo_emu) = false.
Proof.
  split; [reflexivity|]. apply not_true_is_false. intros H.
  destruct (dif_cmp_signed_overflow (2 ^ 63) 1 demo_emu) as [Hl _];
    [unfold is_u; lia|unfold is_u; lia|vm_compute; intros [Hc _]; by apply Hc|].
  apply Hl in H. vm_compute in H. discriminate H.
Defined.

(** setx INT64_MIN, %r1; setx -1, %r2; sdiv %r1, %r2, %r3; ret %r3. *)
Definition sdiv_prog : dtrace_difo :=
  Difo [DIF_INSTR_FMT 37 0 0 1; DIF_INSTR_FMT 37 0 1 2; DIF_INSTR_FMT 9 1 2 3; DIF_INSTR_RET 3]
    [2 ^ 63; 2 ^ 64 - 1] 0 0 [] (DifType 0 0 0 8) 1 0.

(** ldtaa with the builtin variable id 0x100; ret %r1. *)
Definition ldtaa_prog : dtrace_difo :=
  Difo [DIF_INSTR_FMT 53 0x01 0x00 1; DIF_INSTR_RET 1] [] 0 0 [] (DifType 0 0 0 8) 1 0.

(** Two programs that the validator accepts and the emulator does not survive:
    a signed division of INT64_MIN by -1 takes the divide trap, and ldtaa with
    an id below DIF_VAR_OTHER_UBASE (the validator requires only
    DIF_VAR_OTHER_MIN) indexes the thread-local table out of bounds. *)
Theorem validated_programs_that_trap (E : dif_env) predcache mem illval :
  let m := Mach mem 0 illval in
  dtrace_difo_validate 16384 sdiv_prog prog_vstate DIF_DIR_NREGS true = (0, sdiv_prog) /\
  dtrace_dif_emulate sdiv_prog demo_regs demo_tup predcache demo_mstate prog_vstate m = DivTrap /\
  dtrace_difo_validate 16384 ldtaa_prog prog_vstate DIF_DIR_NREGS true = (0, ldtaa_prog) /\
  dtrace_dif_emulate ldtaa_prog demo_regs demo_tup predcache demo_mstate prog_vstate m = Oob.
Proof. intros m. split_and!; vm_compute; reflexivity. Qed.
