(* ===== verification/DifObject.v ===== *)
(** Life cycle of DIF objects (driver/dtrace.c, dtrace_difo_init() to
    dtrace_difo_release()): declaration of their variables in the consumer's
    variable state, reference counts, the dynamic variable chunk size.

    The kernel allocator is a parameter: [kmem_zalloc n h] returns the address of
    [n] fresh bytes.  A failed ASSERT is [None]. *)
From S2P Require Import Prelude Dif SafeMem DifValidate DifEmulate DifSafety.

Class kmem := Kmem {
  heap : Type;
  kmem_zalloc : Z -> heap -> Z * heap
}.
(** An allocation is not NULL and does not reach the top of the address space. *)
Class kmem_ok (A : kmem) : Prop :=
  zalloc_range n h : 0 <= n < 2 ^ 60 -> 0 < (kmem_zalloc n h).1 /\ (kmem_zalloc n h).1 + n < 2 ^ 64.

(** * Reference counts and caching *)

(** The cached builtins of dtrace_difo_cacheable(). *)
Definition cacheable_var (v : dtrace_difv) : bool :=
  negb (dtdv_scope v =? DIFV_SCOPE_GLOBAL) ||
  existsb (Z.eqb (dtdv_id v)) [DIF_VAR_CURTHREAD; DIF_VAR_PID; DIF_VAR_TID; DIF_VAR_EXECNAME;
    DIF_VAR_ZONENAME].

Definition uncacheable_op (instr : Z) : bool :=
  let op := DIF_INSTR_OP instr in
  ((op_num DIF_OP_LDSB <=? op) && (op <=? op_num DIF_OP_LDX)) ||
  ((op_num DIF_OP_ULDSB <=? op) && (op <=? op_num DIF_OP_ULDX)) ||
  ((op_num DIF_OP_RLDSB <=? op) && (op <=? op_num DIF_OP_RLDX)) ||
  (op =? op_num DIF_OP_LDGA) || (op =? op_num DIF_OP_STTS).

(** [None] is the NULL object. *)
Definition dtrace_difo_cacheable (dp : option dtrace_difo) : bool :=
  match dp with
  | None => false
  | Some dp => forallb cacheable_var (dtdo_vartab dp) && negb (existsb uncacheable_op (dtdo_buf dp))
  end.

Definition set_refcnt (n : Z) (dp : dtrace_difo) : dtrace_difo :=
  Difo (dtdo_buf dp) (dtdo_inttab dp) (dtdo_strtab dp) (dtdo_strlen dp) (dtdo_vartab dp)
    (dtdo_rtype dp) n (dtdo_destructive dp).

(** The references of a variable table to the virtual timestamp. *)
Fixpoint vtime_refs (vars : list dtrace_difv) : Z :=
  match vars with
  | [] => 0
  | v :: vars => (if dtdv_id v =? DIF_VAR_VTIMESTAMP then 1 else 0) + vtime_refs vars
  end.

(** dtrace_vtime_references, and whether virtual time is being kept. *)
Definition vtime : Type := Z * bool.

Definition vtime_hold (t : vtime) : vtime := (t.1 + 1, if t.1 =? 0 then true else t.2).
Definition vtime_release (t : vtime) : option vtime :=
  if 0 <? t.1 then Some (t.1 - 1, if t.1 - 1 =? 0 then false else t.2) else None.

Definition dtrace_difo_hold (dp : dtrace_difo) (t : vtime) : dtrace_difo * vtime :=
  (set_refcnt (dtdo_refcnt dp + 1) dp,
   fold_left (fun t v => if dtdv_id v =? DIF_VAR_VTIMESTAMP then vtime_hold t else t)
     (dtdo_vartab dp) t).

(** * Chunk size of dynamic variables *)

(** State of the scan: chunk size, sval, srd, the key sizes in tupregs, ttop. *)
Record chunk_scan := ChunkScan {
  cs_chunksize : Z; cs_sval : Z; cs_srd : Z; cs_sizes : list Z; cs_ttop : Z
}.

(** [key[n].dttk_size = sz]: [None] outside of tupregs[DIF_DTR_NREGS + 2]. *)
Definition key_size_set (n sz : Z) (l : list Z) : option (list Z) :=
  if n <? Z.of_nat (length l) then Some (<[Z.to_nat n := sz]> l) else None.

(** The size of the chunk that a store to variable [id] needs: [keys] are the
    sizes of its keys.  [None]: the variable is not in the table. *)
Definition dynvar_chunk (dp : dtrace_difo) (id scope : Z) (keys : list Z) : option Z :=
  let ksize := fold_left (fun ksize sz => u64 (ksize + P2ROUNDUP sz 8)) keys 0 in
  let size := u64 (sizeof_dynvar + 16 * (Z.of_nat (length keys) - 1) + ksize) in
  match find (fun v => (dtdv_id v =? id) && (dtdv_scope v =? scope)) (dtdo_vartab dp) with
  | None => None
  | Some v => Some (P2ROUNDUP (u64 (size + dtdt_size (dtdv_type v))) 8)
  end.

Section Chunk.
Context (strsize_default : Z).

(** A store of [keys] ends the step: [inr] leaves the function. *)
Definition chunk_store (dp : dtrace_difo) (i scope : Z) (sizes keys : list Z) (s : chunk_scan)
    : chunk_scan + Z :=
  match dynvar_chunk dp (DIF_INSTR_VAR i) scope keys with
  | None => inr (cs_chunksize s)
  | Some size =>
      inl (ChunkScan (if cs_chunksize s <? size then size else cs_chunksize s) 0 0 sizes (cs_ttop s))
  end.

(** One instruction: [None] is an access out of bounds, [inr] a return. *)
Definition chunk_step (dp : dtrace_difo) (i : Z) (s : chunk_scan) : option (chunk_scan + Z) :=
  let push := fun sz =>
    match key_size_set (cs_ttop s) sz (cs_sizes s) with
    | None => None
    | Some sizes => Some (inl (ChunkScan (cs_chunksize s) 0 0 sizes (cs_ttop s + 1)))
    end in
  match op_of (DIF_INSTR_OP i) with
  | Some DIF_OP_SETX =>
      match dtdo_inttab dp !! Z.to_nat (DIF_INSTR_INTEGER i) with
      | None => None
      | Some v => Some (inl (ChunkScan (cs_chunksize s) v (DIF_INSTR_RD i) (cs_sizes s) (cs_ttop s)))
      end
  | Some DIF_OP_STTS =>
      match key_size_set 8 0 (cs_sizes s) with
      | None => None
      | Some sizes =>
          match key_size_set 9 0 sizes with
          | None => None
          | Some sizes => Some (chunk_store dp i DIFV_SCOPE_THREAD sizes [0; 0] s)
          end
      end
  | Some DIF_OP_STGAA =>
      match key_size_set (cs_ttop s) 0 (cs_sizes s) with
      | None => None
      | Some sizes =>
          Some (chunk_store dp i DIFV_SCOPE_GLOBAL sizes (take (Z.to_nat (cs_ttop s + 1)) sizes) s)
      end
  | Some DIF_OP_STTAA =>
      match key_size_set (cs_ttop s) 0 (cs_sizes s) with
      | None => None
      | Some sizes =>
          match key_size_set (cs_ttop s + 1) 0 sizes with
          | None => None
          | Some sizes =>
              Some (chunk_store dp i DIFV_SCOPE_THREAD sizes (take (Z.to_nat (cs_ttop s + 2)) sizes) s)
          end
      end
  | Some DIF_OP_PUSHTR =>
      if cs_ttop s =? DIF_DTR_NREGS then Some (inr (cs_chunksize s))
      else if ((cs_srd s =? 0) || (cs_sval s =? 0)) && (DIF_INSTR_R1 i =? DIF_TYPE_STRING) then
        push strsize_default
      else if cs_srd s =? 0 then Some (inr (cs_chunksize s))
      else push (cs_sval s)
  | Some DIF_OP_PUSHTV =>
      if cs_ttop s =? DIF_DTR_NREGS then Some (inr (cs_chunksize s)) else push 0
  | Some DIF_OP_FLUSHTS => Some (inl (ChunkScan (cs_chunksize s) 0 0 (cs_sizes s) 0))
  | Some DIF_OP_POPTS =>
      Some (inl (ChunkScan (cs_chunksize s) 0 0 (cs_sizes s)
        (if cs_ttop s =? 0 then 0 else cs_ttop s - 1)))
  | _ => Some (inl (ChunkScan (cs_chunksize s) 0 0 (cs_sizes s) (cs_ttop s)))
  end.

Fixpoint chunk_loop (dp : dtrace_difo) (text : list Z) (s : chunk_scan) : option Z :=
  match text with
  | [] => Some (cs_chunksize s)
  | i :: text =>
      match chunk_step dp i s with
      | None => None
      | Some (inr c) => Some c
      | Some (inl s) => chunk_loop dp text s
      end
  end.

Definition set_chunksize (c : Z) (vs : dtrace_vstate) : dtrace_vstate :=
  let ds := dtvs_dynvars vs in
  VState (dtvs_strsize vs) (dtvs_visible vs) (dtvs_globals vs) (dtvs_tlocals vs) (dtvs_locals vs)
    (DState (dtds_base ds) (dtds_size ds) (dtds_hashsize ds) c).

(** [tup] is the uninitialised contents of the key sizes. *)
Definition dtrace_difo_chunksize (dp : dtrace_difo) (tup : list Z) (vs : dtrace_vstate)
    : option dtrace_vstate :=
  match chunk_loop dp (dtdo_buf dp) (ChunkScan (dtds_chunksize (dtvs_dynvars vs)) 0 0 tup 0) with
  | None => None
  | Some c => Some (set_chunksize c vs)
  end.
End Chunk.

(** * Declaring the variables of an object *)

(** [while (id >= n) { n <<= 1 or 1; ... }]: the table doubles, its new entries are
    zero. *)
Definition table_grow {A} (zero : A) (id : Z) (l : list A) : option (list A) :=
  zloop (fun l =>
    if Z.of_nat (length l) <=? id then
      inl (l ++ repeat zero (if (length l =? 0)%nat then 1 else length l))
    else inr l) (id + 2) l.

Definition zero_difv : dtrace_difv := DifV 0 0 0 0 0 (DifType 0 0 0 0).

Definition set_tlocals (l : list dtrace_difv) (vs : dtrace_vstate) : dtrace_vstate :=
  VState (dtvs_strsize vs) (dtvs_visible vs) (dtvs_globals vs) l (dtvs_locals vs) (dtvs_dynvars vs).

(** The table of a scope, global or clause-local. *)
Definition statics (scope : Z) (vs : dtrace_vstate) : list (option dtrace_statvar) :=
  if scope =? DIFV_SCOPE_GLOBAL then dtvs_globals vs else dtvs_locals vs.
Definition set_statics (scope : Z) (l : list (option dtrace_statvar)) (vs : dtrace_vstate)
    : dtrace_vstate :=
  if scope =? DIFV_SCOPE_GLOBAL then
    VState (dtvs_strsize vs) (dtvs_visible vs) l (dtvs_tlocals vs) (dtvs_locals vs) (dtvs_dynvars vs)
  else
    VState (dtvs_strsize vs) (dtvs_visible vs) (dtvs_globals vs) (dtvs_tlocals vs) l (dtvs_dynvars vs).

(** The bytes a static variable needs. *)
Definition static_size (ncpu scope : Z) (v : dtrace_difv) : Z :=
  if scope =? DIFV_SCOPE_GLOBAL then
    if byref (dtdv_type v) then dtdt_size (dtdv_type v) + 8 else 0
  else ncpu * (if byref (dtdv_type v) then dtdt_size (dtdv_type v) + 8 else 8).

Definition zero_fill (a n : Z) (m : mach) : mach :=
  Mach (fun x => if (a <=? x) && (x <? a + n) then 0 else m_mem m x) (m_flags m) (m_illval m).

Definition with_refcnt (n : Z) (sv : dtrace_statvar) : dtrace_statvar :=
  StatVar (dtsv_data sv) (dtsv_size sv) n (dtsv_var sv).

Section Life.
Context {A : kmem} (ncpu strsize_default : Z).

(** What dtrace_difo_init() changes. *)
Record kstate := KState { k_vs : dtrace_vstate; k_m : mach; k_heap : heap }.

(** A new variable: its descriptor, with zeroed data if it needs any. *)
Definition new_static (scope : Z) (v : dtrace_difv) (k : kstate) : dtrace_statvar * mach * heap :=
  let dsize := static_size ncpu scope v in
  if dsize =? 0 then (StatVar 0 0 0 v, k_m k, k_heap k)
  else
    let '(data, h) := kmem_zalloc dsize (k_heap k) in
    (StatVar data dsize 0 v, zero_fill data dsize (k_m k), h).

Definition init_static (scope : Z) (v : dtrace_difv) (k : kstate) : option kstate :=
  let id := dtdv_id v - DIF_VAR_OTHER_UBASE in
  match table_grow None id (statics scope (k_vs k)) with
  | None => None
  | Some tab =>
      match tab !! Z.to_nat id with
      | None => None
      | Some svar =>
          let '(svar, m, h) :=
            match svar with
            | Some svar => (svar, k_m k, k_heap k)
            | None => new_static scope v k
            end in
          Some (KState (set_statics scope
            (<[Z.to_nat id := Some (with_refcnt (dtsv_refcnt svar + 1) svar)]> tab) (k_vs k)) m h)
      end
  end.

Definition init_var (v : dtrace_difv) (k : kstate) : option kstate :=
  let scope := dtdv_scope v in
  if dtdv_id v <? DIF_VAR_OTHER_UBASE then Some k
  else if scope =? DIFV_SCOPE_THREAD then
    let id := dtdv_id v - DIF_VAR_OTHER_UBASE in
    match table_grow zero_difv id (dtvs_tlocals (k_vs k)) with
    | None => None
    | Some l => Some (KState (set_tlocals (<[Z.to_nat id := v]> l) (k_vs k)) (k_m k) (k_heap k))
    end
  else if (scope =? DIFV_SCOPE_LOCAL) || (scope =? DIFV_SCOPE_GLOBAL) then init_static scope v k
  else None.

Fixpoint init_vars (vars : list dtrace_difv) (k : kstate) : option kstate :=
  match vars with
  | [] => Some k
  | v :: vars => match init_var v k with None => None | Some k => init_vars vars k end
  end.

Definition dtrace_difo_init (dp : dtrace_difo) (tup : list Z) (k : kstate) (t : vtime)
    : option (dtrace_difo * kstate * vtime) :=
  if dtdo_len dp =? 0 then None   (* ASSERT(dp->dtdo_len != 0) *)
  else
    match init_vars (dtdo_vartab dp) k with
    | None => None
    | Some k =>
        match dtrace_difo_chunksize strsize_default dp tup (k_vs k) with
        | None => None
        | Some vs =>
            let '(dp, t) := dtrace_difo_hold dp t in
            Some (dp, KState vs (k_m k) (k_heap k), t)
        end
    end.

(** The copy shares nothing with the original; return type and destructive flag
    are those of a zeroed object. *)
Definition dtrace_difo_duplicate (dp : dtrace_difo) (strtab : Z) (tup : list Z) (k : kstate)
    (t : vtime) : option (dtrace_difo * kstate * vtime) :=
  if dtdo_refcnt dp =? 0 then None
  else
    dtrace_difo_init
      (Difo (dtdo_buf dp) (dtdo_inttab dp) (if dtdo_strtab dp =? 0 then 0 else strtab)
         (if dtdo_strtab dp =? 0 then 0 else dtdo_strlen dp) (dtdo_vartab dp)
         (DifType 0 0 0 0) 0 0) tup k t.

(** * Destruction *)

Definition destroy_static (scope : Z) (v : dtrace_difv) (vs : dtrace_vstate) : option dtrace_vstate :=
  let id := Z.to_nat (dtdv_id v - DIF_VAR_OTHER_UBASE) in
  match statics scope vs !! id with
  | Some (Some svar) =>
      if 0 <? dtsv_refcnt svar then
        let n := dtsv_refcnt svar - 1 in
        Some (set_statics scope
          (<[id := if 0 <? n then Some (with_refcnt n svar) else None]> (statics scope vs)) vs)
      else None
  | _ => None
  end.

Definition destroy_var (v : dtrace_difv) (vs : dtrace_vstate) : option dtrace_vstate :=
  let scope := dtdv_scope v in
  if scope =? DIFV_SCOPE_THREAD then Some vs
  else if (scope =? DIFV_SCOPE_LOCAL) || (scope =? DIFV_SCOPE_GLOBAL) then
    if dtdv_id v <? DIF_VAR_OTHER_UBASE then Some vs else destroy_static scope v vs
  else None.

Fixpoint destroy_vars (vars : list dtrace_difv) (vs : dtrace_vstate) : option dtrace_vstate :=
  match vars with
  | [] => Some vs
  | v :: vars => match destroy_var v vs with None => None | Some vs => destroy_vars vars vs end
  end.

Definition dtrace_difo_destroy (dp : dtrace_difo) (vs : dtrace_vstate) : option dtrace_vstate :=
  if dtdo_refcnt dp =? 0 then destroy_vars (dtdo_vartab dp) vs else None.

Fixpoint release_vtime (vars : list dtrace_difv) (t : vtime) : option vtime :=
  match vars with
  | [] => Some t
  | v :: vars =>
      if dtdv_id v =? DIF_VAR_VTIMESTAMP then
        match vtime_release t with None => None | Some t => release_vtime vars t end
      else release_vtime vars t
  end.

(** The object, or [None] once it has been freed. *)
Definition dtrace_difo_release (dp : dtrace_difo) (vs : dtrace_vstate) (t : vtime)
    : option (option dtrace_difo * dtrace_vstate * vtime) :=
  if dtdo_refcnt dp =? 0 then None
  else
    match release_vtime (dtdo_vartab dp) t with
    | None => None
    | Some t =>
        let dp := set_refcnt (dtdo_refcnt dp - 1) dp in
        if dtdo_refcnt dp =? 0 then
          match dtrace_difo_destroy dp vs with
          | None => None
          | Some vs => Some (None, vs, t)
          end
        else Some (Some dp, vs, t)
    end.
End Life.

(** * Facts *)

Lemma table_grow_spec {A} (zero : A) id l :
  0 <= id ->
  exists l', table_grow zero id l = Some l' /\ id < Z.of_nat (length l') /\
    (forall n x, l !! n = Some x -> l' !! n = Some x) /\
    (forall n x, l' !! n = Some x -> l !! n = Some x \/ x = zero).
Proof.
  intros Hid. unfold table_grow.
  apply (zloop_total (fun t =>
    (forall n x, l !! n = Some x -> t !! n = Some x) /\
    (forall n x, t !! n = Some x -> l !! n = Some x \/ x = zero))
    (fun t => Z.max 0 (id + 1 - Z.of_nat (length t)))); [|split; auto|lia].
  intros t [Hk Hn]. split; [lia|].
  destruct (Z.leb_spec (Z.of_nat (length t)) id); [|by split_and!; try lia].
  rewrite length_app, repeat_length. split.
  - split.
    + intros n x Hx. apply lookup_app_l_Some. auto.
    + intros n x Hx. apply lookup_app_Some in Hx as [Hx|[_ Hx]]; [auto|right].
      apply list_elem_of_lookup_2, list_elem_of_In in Hx. by apply repeat_spec in Hx.
  - destruct (length t); simpl; lia.
Qed.

(** References of a static variable; 0 for one that does not exist. *)
Definition refs (scope : Z) (vs : dtrace_vstate) (n : nat) : Z :=
  match statics scope vs !! n with Some (Some sv) => dtsv_refcnt sv | _ => 0 end.

(** The variable table entries for static variable [n] of a scope. *)
Definition names (scope : Z) (n : nat) (v : dtrace_difv) : bool :=
  (dtdv_scope v =? scope) && (dtdv_id v =? Z.of_nat n + DIF_VAR_OTHER_UBASE).
Fixpoint count (scope : Z) (n : nat) (vars : list dtrace_difv) : Z :=
  match vars with
  | [] => 0
  | v :: vars => (if names scope n v then 1 else 0) + count scope n vars
  end.

Definition is_static (scope : Z) : Prop := scope = DIFV_SCOPE_GLOBAL \/ scope = DIFV_SCOPE_LOCAL.

(** The storage of a static variable matches its type. *)
Definition static_ok (ncpu scope : Z) (sv : dtrace_statvar) : Prop :=
  0 <= dtdt_size (dtdv_type (dtsv_var sv)) /\ is_u64 (dtsv_data sv) /\
  dtsv_size sv = static_size ncpu scope (dtsv_var sv) /\
  (dtsv_size sv <> 0 -> dtsv_data sv + dtsv_size sv < 2 ^ 64) /\ 0 < dtsv_refcnt sv.

Record vstate_wf (ncpu : Z) (vs : dtrace_vstate) : Prop := {
  wf_statics : forall scope n sv, is_static scope -> statics scope vs !! n = Some (Some sv) ->
    static_ok ncpu scope sv;
  wf_tlocals : forall n v, dtvs_tlocals vs !! n = Some v -> 0 <= dtdt_size (dtdv_type v)
}.

(** What dtrace_difo_validate() and the 32-bit size field give. *)
Definition var_shape (v : dtrace_difv) : Prop :=
  (is_static (dtdv_scope v) \/ dtdv_scope v = DIFV_SCOPE_THREAD) /\
  0 <= dtdt_size (dtdv_type v) < 2 ^ 32.

Definition declared_var (vs : dtrace_vstate) (v : dtrace_difv) : Prop :=
  DIF_VAR_OTHER_UBASE <= dtdv_id v ->
  if dtdv_scope v =? DIFV_SCOPE_THREAD then has_tlocal vs (dtdv_id v)
  else has_static (statics (dtdv_scope v) vs) (dtdv_id v).

(** [vs'] declares what [vs] does; existing variables keep their storage. *)
Definition extends (vs vs' : dtrace_vstate) : Prop :=
  (forall scope n sv, is_static scope -> statics scope vs !! n = Some (Some sv) ->
     exists sv', statics scope vs' !! n = Some (Some sv') /\
       dtsv_data sv' = dtsv_data sv /\ dtsv_size sv' = dtsv_size sv /\ dtsv_var sv' = dtsv_var sv) /\
  (forall n v, dtvs_tlocals vs !! n = Some v -> exists v', dtvs_tlocals vs' !! n = Some v').

Lemma extends_refl vs : extends vs vs.
Proof. split; eauto. Qed.

Lemma extends_trans vs1 vs2 vs3 : extends vs1 vs2 -> extends vs2 vs3 -> extends vs1 vs3.
Proof.
  intros [H1 T1] [H2 T2]. split.
  - intros scope n sv Hs Hn. destruct (H1 _ _ _ Hs Hn) as (sv' & Hn' & ? & ? & ?).
    destruct (H2 _ _ _ Hs Hn') as (sv'' & ? & ? & ? & ?). exists sv''. split_and!; congruence.
  - intros n v Hn. destruct (T1 _ _ Hn) as (v' & Hn'). eauto.
Qed.

Lemma declared_extends vs vs' v :
  is_static (dtdv_scope v) \/ dtdv_scope v = DIFV_SCOPE_THREAD ->
  extends vs vs' -> declared_var vs v -> declared_var vs' v.
Proof.
  intros Hsc [He Ht] Hd Hid. specialize (Hd Hid).
  destruct (Z.eqb_spec (dtdv_scope v) DIFV_SCOPE_THREAD).
  - destruct Hd as (Hb & x & Hx). split; [done|eauto].
  - destruct Hd as (Hb & sv & Hsv). split; [done|].
    assert (Hst : is_static (dtdv_scope v)) by tauto.
    destruct (He _ _ _ Hst Hsv) as (sv' & ? & _). eauto.
Qed.

Lemma statics_set scope scope' l vs :
  is_static scope -> is_static scope' ->
  statics scope' (set_statics scope l vs) = if scope' =? scope then l else statics scope' vs.
Proof. by intros [->| ->] [->| ->]. Qed.

Lemma tlocals_set scope l vs : dtvs_tlocals (set_statics scope l vs) = dtvs_tlocals vs.
Proof. unfold set_statics. by destruct (_ =? _). Qed.

Lemma names_spec scope n v :
  DIF_VAR_OTHER_UBASE <= dtdv_id v ->
  names scope n v = (dtdv_scope v =? scope) && (bool_decide (n = Z.to_nat (dtdv_id v - DIF_VAR_OTHER_UBASE))).
Proof.
  intros Hid. unfold names. f_equal. destruct (Z.eqb_spec (dtdv_id v) (Z.of_nat n + DIF_VAR_OTHER_UBASE));
    symmetry; [apply bool_decide_eq_true_2|apply bool_decide_eq_false_2]; lia.
Qed.

Lemma names_builtin scope n v : dtdv_id v < DIF_VAR_OTHER_UBASE -> names scope n v = false.
Proof. intros. unfold names. destruct (Z.eqb_spec (dtdv_id v) (Z.of_nat n + DIF_VAR_OTHER_UBASE)); [lia|]. apply andb_false_r. Qed.

Section LifeFacts.
Context {A : kmem} {HA : kmem_ok A} (ncpu : Z).
Context (Hncpu : 0 < ncpu <= 2 ^ 20).

Lemma static_size_range scope v :
  0 <= dtdt_size (dtdv_type v) < 2 ^ 32 -> 0 <= static_size ncpu scope v < 2 ^ 60.
Proof.
  intros Hsz. unfold static_size. destruct (_ =? _), (byref _); nia.
Qed.

Lemma new_static_ok scope v k :
  0 <= dtdt_size (dtdv_type v) < 2 ^ 32 ->
  let sv := (new_static ncpu scope v k).1.1 in
  static_ok ncpu scope (with_refcnt (dtsv_refcnt sv + 1) sv) /\ dtsv_refcnt sv = 0.
Proof.
  intros Hsz. pose proof (static_size_range scope v Hsz) as Hr. unfold new_static.
  destruct (Z.eqb_spec (static_size ncpu scope v) 0) as [E|E].
  - split; [|done]. unfold static_ok. simpl. rewrite E. unfold is_u. lia.
  - pose proof (zalloc_range (static_size ncpu scope v) (k_heap k) Hr) as Hz.
    destruct (kmem_zalloc _ _) as [data h]. simpl in Hz. split; [|done].
    unfold static_ok, is_u. simpl. lia.
Qed.

(** One variable table entry. *)
Record declares (v : dtrace_difv) (k k' : kstate) : Prop := {
  d_wf : vstate_wf ncpu (k_vs k');
  d_refs : forall scope n, is_static scope ->
    refs scope (k_vs k') n = refs scope (k_vs k) n + (if names scope n v then 1 else 0);
  d_ext : extends (k_vs k) (k_vs k');
  d_decl : declared_var (k_vs k') v
}.

Lemma init_static_spec scope v k :
  is_static scope -> dtdv_scope v = scope -> DIF_VAR_OTHER_UBASE <= dtdv_id v ->
  0 <= dtdt_size (dtdv_type v) < 2 ^ 32 -> vstate_wf ncpu (k_vs k) ->
  exists k', init_static ncpu scope v k = Some k' /\ declares v k k'.
Proof.
  intros Hs Hsc Hid Hsz [Hwf Htl]. unfold init_static.
  destruct (table_grow_spec None (dtdv_id v - DIF_VAR_OTHER_UBASE) (statics scope (k_vs k)))
    as (tab & -> & Hlen & Hkeep & Hnew); [lia|].
  set (id := Z.to_nat (dtdv_id v - DIF_VAR_OTHER_UBASE)).
  destruct (lookup_lt_is_Some_2 tab id) as [o Ho]; [unfold id; lia|]. rewrite Ho.
  set (cell := match o with Some svar => (svar, k_m k, k_heap k) | None => new_static ncpu scope v k end).
  assert (Hcell : static_ok ncpu scope (with_refcnt (dtsv_refcnt cell.1.1 + 1) cell.1.1) /\
    dtsv_refcnt cell.1.1 = refs scope (k_vs k) id /\
    (forall sv, statics scope (k_vs k) !! id = Some (Some sv) -> sv = cell.1.1)).
  { unfold cell, refs. destruct o as [sv|].
    - destruct (Hnew _ _ Ho) as [Hold|]; [|done]. rewrite Hold. simpl.
      destruct (Hwf scope id sv Hs Hold) as (? & ? & ? & ? & ?).
      split_and!; [|done|by intros ? [= ->]]. split_and!; simpl; try done. lia.
    - destruct (new_static_ok scope v k Hsz) as [Hok H0]. split_and!; [done| |].
      + rewrite H0. destruct (statics scope (k_vs k) !! id) as [[sv|]|] eqn:E; try done.
        apply Hkeep in E. congruence.
      + intros sv E. apply Hkeep in E. congruence. }
  destruct cell as [[svar m] h]. simpl in Hcell. destruct Hcell as (Hok & Hrc & Hsame).
  set (new := with_refcnt (dtsv_refcnt svar + 1) svar) in *.
  assert (Hlook : forall n, <[id := Some new]> tab !! n =
    if decide (n = id) then Some (Some new) else tab !! n).
  { intros n. destruct (decide (n = id)) as [->|]; [|by rewrite list_lookup_insert_ne].
    apply list_lookup_insert_eq. by apply lookup_lt_Some in Ho. }
  eexists. split; [reflexivity|]. split; simpl.
  - split; [|by rewrite tlocals_set].
    intros scope' n sv' Hs'. rewrite statics_set by done.
    destruct (Z.eqb_spec scope' scope) as [->|]; [|by apply Hwf].
    rewrite Hlook. destruct (decide (n = id)); [by intros [= <-]|].
    intros Hn. destruct (Hnew _ _ Hn) as [Hold|]; [by apply (Hwf scope n)|done].
  - intros scope' n Hs'. unfold refs. rewrite statics_set, names_spec, Hsc by done. fold id.
    rewrite (Z.eqb_sym scope scope').
    destruct (Z.eqb_spec scope' scope) as [->|]; [|simpl; lia].
    rewrite Hlook. destruct (decide (n = id)) as [->|Hne].
    + rewrite bool_decide_eq_true_2 by done. simpl. by rewrite Hrc.
    + rewrite bool_decide_eq_false_2 by done. simpl.
      destruct (tab !! n) as [[sv|]|] eqn:E.
      * destruct (Hnew _ _ E) as [->|]; [lia|done].
      * destruct (statics scope (k_vs k) !! n) as [[sv|]|] eqn:E2; try lia. apply Hkeep in E2. congruence.
      * destruct (statics scope (k_vs k) !! n) as [[sv|]|] eqn:E2; try lia. apply Hkeep in E2. congruence.
  - split; [|intros n x Hx; rewrite tlocals_set; eauto].
    intros scope' n sv Hs' Hn. rewrite statics_set by done.
    destruct (Z.eqb_spec scope' scope) as [->|]; [|eauto].
    rewrite Hlook. destruct (decide (n = id)) as [->|].
    + exists new. by rewrite (Hsame sv Hn).
    + exists sv. split_and!; try done. by apply Hkeep.
  - intros _. rewrite Hsc. destruct (Z.eqb_spec scope DIFV_SCOPE_THREAD) as [->|].
    { by destruct Hs. }
    split; [done|]. exists new. rewrite statics_set by done. rewrite Z.eqb_refl. fold id.
    rewrite Hlook. by destruct (decide (id = id)).
Qed.

Lemma init_var_spec v k :
  var_shape v -> vstate_wf ncpu (k_vs k) ->
  exists k', init_var ncpu v k = Some k' /\ declares v k k'.
Proof.
  intros [Hsc Hsz] Hwf. unfold init_var.
  destruct (Z.ltb_spec (dtdv_id v) DIF_VAR_OTHER_UBASE) as [Hlt|Hid].
  { exists k. split; [done|]. split; [done| |apply extends_refl|intros ?; lia].
    intros scope n _. rewrite names_builtin by done. lia. }
  destruct (Z.eqb_spec (dtdv_scope v) DIFV_SCOPE_THREAD) as [Et|Et].
  - destruct (table_grow_spec zero_difv (dtdv_id v - DIF_VAR_OTHER_UBASE) (dtvs_tlocals (k_vs k)))
      as (l & -> & Hlen & Hkeep & Hnew); [lia|].
    eexists. split; [reflexivity|]. set (id := Z.to_nat (dtdv_id v - DIF_VAR_OTHER_UBASE)) in *.
    assert (Hidl : (id < length l)%nat) by (unfold id; lia).
    destruct Hwf as [Hst Htl]. split; simpl.
    + split; [done|]. simpl. intros n v'. destruct (decide (n = id)) as [->|].
      * rewrite list_lookup_insert_eq by done. intros [= <-]. lia.
      * rewrite list_lookup_insert_ne by done. intros Hn.
        destruct (Hnew _ _ Hn) as [Hold| ->]; [by eapply Htl|done].
    + intros scope n Hs. unfold names. rewrite Et.
      assert ((DIFV_SCOPE_THREAD =? scope) = false) as -> by (by destruct Hs as [->| ->]).
      simpl. change (refs scope (set_tlocals _ (k_vs k)) n) with (refs scope (k_vs k) n). lia.
    + split; [intros scope n sv Hs Hn; by eauto|]. simpl. intros n v' Hn.
      apply Hkeep in Hn. destruct (decide (n = id)) as [->|].
      * rewrite list_lookup_insert_eq by done. eauto.
      * rewrite list_lookup_insert_ne by done. eauto.
    + intros _. rewrite Et. simpl. split; [done|]. exists v. simpl. fold id.
      by rewrite list_lookup_insert_eq.
  - destruct Hsc as [Hs|]; [|done].
    assert ((dtdv_scope v =? DIFV_SCOPE_LOCAL) || (dtdv_scope v =? DIFV_SCOPE_GLOBAL) = true) as ->.
    { by destruct Hs as [->| ->]. }
    by apply init_static_spec.
Qed.

Lemma init_vars_spec vars k :
  Forall var_shape vars -> vstate_wf ncpu (k_vs k) ->
  exists k', init_vars ncpu vars k = Some k' /\ vstate_wf ncpu (k_vs k') /\
    (forall scope n, is_static scope ->
       refs scope (k_vs k') n = refs scope (k_vs k) n + count scope n vars) /\
    extends (k_vs k) (k_vs k') /\ Forall (declared_var (k_vs k')) vars.
Proof.
  revert k. induction vars as [|v vars IH]; intros k Hsh Hwf; cbn [init_vars count].
  { exists k. split_and!; try done; [intros; lia|apply extends_refl]. }
  apply Forall_cons_iff in Hsh as [Hv Hvars].
  destruct (init_var_spec v k Hv Hwf) as (k1 & -> & [Hwf1 Hr1 He1 Hd1]).
  destruct (IH k1 Hvars Hwf1) as (k2 & -> & Hwf2 & Hr2 & He2 & Hd2).
  exists k2. split_and!; try done.
  - intros scope n Hs. rewrite Hr2, Hr1 by done. lia.
  - by eapply extends_trans.
  - constructor; [|done]. eapply declared_extends; [apply Hv|exact He2|exact Hd1].
Qed.

(** ** Destruction *)

Lemma destroy_var_spec v vs :
  var_shape v -> vstate_wf ncpu vs ->
  (forall scope n, is_static scope -> names scope n v = true -> 0 < refs scope vs n) ->
  exists vs', destroy_var v vs = Some vs' /\ vstate_wf ncpu vs' /\
    (forall scope n, is_static scope ->
       refs scope vs' n = refs scope vs n - (if names scope n v then 1 else 0)).
Proof.
  intros [Hsc Hsz] Hwf Hpos. unfold destroy_var.
  destruct (Z.eqb_spec (dtdv_scope v) DIFV_SCOPE_THREAD) as [Et|Et].
  { exists vs. split_and!; try done. intros scope n Hs. unfold names. rewrite Et.
    assert ((DIFV_SCOPE_THREAD =? scope) = false) as -> by (by destruct Hs as [->| ->]). simpl. lia. }
  destruct Hsc as [Hs|]; [|done]. set (scope := dtdv_scope v) in *.
  assert ((scope =? DIFV_SCOPE_LOCAL) || (scope =? DIFV_SCOPE_GLOBAL) = true) as ->
    by (by destruct Hs as [->| ->]).
  destruct (Z.ltb_spec (dtdv_id v) DIF_VAR_OTHER_UBASE) as [Hlt|Hid].
  { exists vs. split_and!; try done. intros sc n _. rewrite names_builtin by done. lia. }
  unfold destroy_static. set (id := Z.to_nat (dtdv_id v - DIF_VAR_OTHER_UBASE)).
  assert (Hn : forall sc n, names sc n v = (scope =? sc) && bool_decide (n = id))
    by (intros; by apply names_spec).
  specialize (Hpos scope id Hs). rewrite Hn, Z.eqb_refl, bool_decide_eq_true_2 in Hpos by done.
  specialize (Hpos eq_refl). unfold refs in Hpos.
  destruct (statics scope vs !! id) as [[sv|]|] eqn:Esv; [|lia..].
  destruct (Z.ltb_spec 0 (dtsv_refcnt sv)); [|lia].
  eexists. split; [reflexivity|].
  set (cell := if 0 <? dtsv_refcnt sv - 1 then Some (with_refcnt (dtsv_refcnt sv - 1) sv) else None).
  assert (Hlook : forall n, <[id := cell]> (statics scope vs) !! n =
    if decide (n = id) then Some cell else statics scope vs !! n).
  { intros n. destruct (decide (n = id)) as [->|]; [|by rewrite list_lookup_insert_ne].
    apply list_lookup_insert_eq. by apply lookup_lt_Some in Esv. }
  destruct Hwf as [Hst Htl]. split.
  - split; [|by rewrite tlocals_set]. intros sc n sv' Hsc. rewrite statics_set by done.
    destruct (Z.eqb_spec sc scope) as [->|]; [|by apply Hst].
    rewrite Hlook. destruct (decide (n = id)); [|by apply Hst].
    unfold cell. destruct (Z.ltb_spec 0 (dtsv_refcnt sv - 1)); [|done]. intros [= <-].
    destruct (Hst scope id sv Hs Esv) as (? & ? & ? & ? & ?). by split_and!.
  - intros sc n Hsc. unfold refs. rewrite statics_set by done. rewrite Hn, (Z.eqb_sym scope sc).
    destruct (Z.eqb_spec sc scope) as [->|]; [|simpl; lia].
    rewrite Hlook. destruct (decide (n = id)) as [->|].
    + rewrite bool_decide_eq_true_2, Esv by done. simpl. unfold cell.
      destruct (Z.ltb_spec 0 (dtsv_refcnt sv - 1)); simpl; lia.
    + rewrite bool_decide_eq_false_2 by done. simpl. lia.
Qed.

Lemma count_nonneg scope n vars : 0 <= count scope n vars.
Proof. induction vars as [|v vars IH]; simpl; [lia|]. destruct (names _ _ _); lia. Qed.

Lemma destroy_vars_spec vars vs :
  Forall var_shape vars -> vstate_wf ncpu vs ->
  (forall scope n, is_static scope -> count scope n vars <= refs scope vs n) ->
  exists vs', destroy_vars vars vs = Some vs' /\ vstate_wf ncpu vs' /\
    (forall scope n, is_static scope -> refs scope vs' n = refs scope vs n - count scope n vars).
Proof.
  revert vs. induction vars as [|v vars IH]; intros vs Hsh Hwf Hc; cbn [destroy_vars count].
  { exists vs. split_and!; try done. intros; lia. }
  apply Forall_cons_iff in Hsh as [Hv Hvars].
  destruct (destroy_var_spec v vs Hv Hwf) as (vs1 & -> & Hwf1 & Hr1).
  { intros scope n Hs Hn. specialize (Hc scope n Hs). cbn [count] in Hc. rewrite Hn in Hc.
    pose proof (count_nonneg scope n vars). lia. }
  destruct (IH vs1 Hvars Hwf1) as (vs2 & -> & Hwf2 & Hr2).
  { intros scope n Hs. specialize (Hc scope n Hs). cbn [count] in Hc. rewrite Hr1 by done. lia. }
  exists vs2. split_and!; try done. intros scope n Hs. rewrite Hr2, Hr1 by done. lia.
Qed.
End LifeFacts.

(** ** Chunk size *)

Definition scan_ok (s : chunk_scan) : Prop :=
  length (cs_sizes s) = 10%nat /\ 0 <= cs_ttop s <= 8.

Lemma key_size_set_ok n sz l :
  length l = 10%nat -> 0 <= n < 10 ->
  exists l', key_size_set n sz l = Some l' /\ length l' = 10%nat.
Proof.
  intros Hl Hn. unfold key_size_set. rewrite Hl. destruct (Z.ltb_spec n (Z.of_nat 10)); [|lia].
  eexists. split; [reflexivity|]. by rewrite length_insert.
Qed.

(** A step stays inside of the tables and never lowers the chunk size. *)
Lemma chunk_step_ok ssd dp i s :
  scan_ok s -> (op_of (DIF_INSTR_OP i) = Some DIF_OP_SETX -> DIF_INSTR_INTEGER i < dtdo_intlen dp) ->
  match chunk_step ssd dp i s with
  | None => False
  | Some (inl s') => scan_ok s' /\ cs_chunksize s <= cs_chunksize s'
  | Some (inr c) => c = cs_chunksize s
  end.
Proof.
  intros [Hl Ht] Hint. unfold chunk_step, DIF_DTR_NREGS.
  assert (Hstore : forall scope sizes keys, length sizes = 10%nat ->
    match chunk_store dp i scope sizes keys s with
    | inl s' => scan_ok s' /\ cs_chunksize s <= cs_chunksize s'
    | inr c => c = cs_chunksize s
    end).
  { intros scope sizes keys Hs. unfold chunk_store. destruct (dynvar_chunk _ _ _ _); [|done].
    split; [by split|]. simpl. zcase; lia. }
  assert (Hpush : forall sz, cs_ttop s <> 8 ->
    match match key_size_set (cs_ttop s) sz (cs_sizes s) with
    | None => None
    | Some sizes => Some (inl (ChunkScan (cs_chunksize s) 0 0 sizes (cs_ttop s + 1)))
    end with
    | None => False
    | Some (inl s') => scan_ok s' /\ cs_chunksize s <= cs_chunksize s'
    | Some (inr c) => c = cs_chunksize s
    end).
  { intros sz Hne. destruct (key_size_set_ok (cs_ttop s) sz (cs_sizes s)) as (l & -> & Hl'); [done|lia|].
    simpl. split; [split; simpl; [done|lia]|lia]. }
  destruct (op_of (DIF_INSTR_OP i)) as [o|]; [|by split; [split|simpl; lia]].
  destruct o; try (by split; [split|simpl; lia]); cbv zeta.
  - specialize (Hint eq_refl). unfold dtdo_intlen in Hint. pose proof (VAR_range i).
    change (DIF_INSTR_INTEGER i) with (DIF_INSTR_VAR i) in *.
    destruct (lookup_lt_is_Some_2 (dtdo_inttab dp) (Z.to_nat (DIF_INSTR_VAR i))) as [v ->]; [lia|].
    by split; [split|simpl; lia].
  - destruct (key_size_set_ok 8 0 (cs_sizes s)) as (l & -> & Hl'); [done|lia|].
    destruct (key_size_set_ok 9 0 l) as (l' & -> & Hl''); [done|lia|]. by apply Hstore.
  - destruct (Z.eqb_spec (cs_ttop s) 8); [done|].
    destruct (((cs_srd s =? 0) || (cs_sval s =? 0)) && _); [by apply Hpush|].
    destruct (cs_srd s =? 0); [done|]. by apply Hpush.
  - destruct (Z.eqb_spec (cs_ttop s) 8); [done|]. by apply Hpush.
  - split; [split; simpl; [done|]|simpl; lia]. zcase; lia.
  - destruct (key_size_set_ok (cs_ttop s) 0 (cs_sizes s)) as (l & -> & Hl'); [done|lia|].
    by apply Hstore.
  - destruct (key_size_set_ok (cs_ttop s) 0 (cs_sizes s)) as (l & -> & Hl'); [done|lia|].
    destruct (key_size_set_ok (cs_ttop s + 1) 0 l) as (l' & -> & Hl''); [done|lia|]. by apply Hstore.
Qed.

Lemma chunk_loop_ok ssd dp text s :
  scan_ok s ->
  (forall i, In i text -> op_of (DIF_INSTR_OP i) = Some DIF_OP_SETX ->
     DIF_INSTR_INTEGER i < dtdo_intlen dp) ->
  exists c, chunk_loop ssd dp text s = Some c /\ cs_chunksize s <= c.
Proof.
  revert s. induction text as [|i text IH]; intros s Hs Hint; cbn [chunk_loop].
  { exists (cs_chunksize s). split; [done|lia]. }
  pose proof (chunk_step_ok ssd dp i s Hs (Hint i (or_introl eq_refl))) as Hstep.
  destruct (chunk_step ssd dp i s) as [[s'|c]|]; [|eexists; split; [reflexivity|lia]|done].
  destruct Hstep as [Hs' Hle]. destruct (IH s' Hs') as (c & Hc & Hle').
  { intros i' Hi'. apply Hint. by right. }
  exists c. split; [done|lia].
Qed.

Lemma chunksize_ok ssd dp tup vs nregs :
  text_valid nregs dp -> length tup = 10%nat ->
  exists c, dtrace_difo_chunksize ssd dp tup vs = Some (set_chunksize c vs) /\
    dtds_chunksize (dtvs_dynvars vs) <= c.
Proof.
  intros Ht Hl. unfold dtrace_difo_chunksize.
  destruct (chunk_loop_ok ssd dp (dtdo_buf dp) (ChunkScan (dtds_chunksize (dtvs_dynvars vs)) 0 0 tup 0))
    as (c & -> & Hle); [by split|..].
  - intros i Hin Ho. apply list_elem_of_In, list_elem_of_lookup in Hin as (pc & Hpc).
    destruct (tv_instr _ _ Ht pc i Hpc) as (o & Hv). pose proof (iv_op _ _ _ _ _ Hv) as Ho'.
    assert (o = DIF_OP_SETX) as -> by congruence. apply (iv_operand _ _ _ _ _ Hv).
  - eauto.
Qed.

(** ** Virtual time *)

Lemma vtime_refs_nonneg vars : 0 <= vtime_refs vars.
Proof. induction vars as [|v vars IH]; simpl; [lia|]. destruct (_ =? _); lia. Qed.

Lemma hold_vtime vars t :
  (fold_left (fun t v => if dtdv_id v =? DIF_VAR_VTIMESTAMP then vtime_hold t else t) vars t).1
  = t.1 + vtime_refs vars.
Proof.
  revert t. induction vars as [|v vars IH]; intros t; cbn [fold_left vtime_refs]; [lia|].
  rewrite IH. destruct (_ =? _); simpl; lia.
Qed.

Lemma release_vtime_ok vars t :
  vtime_refs vars <= t.1 -> exists b, release_vtime vars t = Some (t.1 - vtime_refs vars, b).
Proof.
  revert t. induction vars as [|v vars IH]; intros [n b] Hn; cbn [release_vtime vtime_refs] in *.
  { exists b. simpl. by rewrite Z.sub_0_r. }
  pose proof (vtime_refs_nonneg vars). destruct (_ =? _); simpl in *.
  - unfold vtime_release. simpl. destruct (Z.ltb_spec 0 n); [|lia].
    destruct (IH (n - 1, if n - 1 =? 0 then false else b)) as (b' & ->); [simpl; lia|].
    exists b'. simpl. do 2 f_equal. lia.
  - destruct (IH (n, b)) as (b' & ->); [simpl; lia|]. exists b'. simpl. do 2 f_equal.
Qed.

Lemma statics_chunksize scope c vs : statics scope (set_chunksize c vs) = statics scope vs.
Proof. unfold statics. by destruct (_ =? _). Qed.

Lemma refs_chunksize scope c vs n : refs scope (set_chunksize c vs) n = refs scope vs n.
Proof. unfold refs. by rewrite statics_chunksize. Qed.

Lemma wf_chunksize ncpu c vs : vstate_wf ncpu vs -> vstate_wf ncpu (set_chunksize c vs).
Proof.
  intros [Hs Ht]. split; [|done]. intros scope n sv H. rewrite statics_chunksize. by apply Hs.
Qed.

Lemma extends_chunksize vs vs' c : extends vs vs' -> extends vs (set_chunksize c vs').
Proof.
  intros [Hs Ht]. split; [|done]. intros scope n sv H. rewrite statics_chunksize. by apply Hs.
Qed.

Lemma difo_init_spec {A : kmem} {HA : kmem_ok A} ncpu ssd dp tup k t nregs :
  0 < ncpu <= 2 ^ 20 -> dtdo_buf dp <> [] -> text_valid nregs dp -> Forall var_shape (dtdo_vartab dp) ->
  length tup = 10%nat -> vstate_wf ncpu (k_vs k) ->
  exists k' t', dtrace_difo_init ncpu ssd dp tup k t = Some (set_refcnt (dtdo_refcnt dp + 1) dp, k', t') /\
    vstate_wf ncpu (k_vs k') /\ extends (k_vs k) (k_vs k') /\
    Forall (declared_var (k_vs k')) (dtdo_vartab dp) /\
    (forall scope n, is_static scope ->
       refs scope (k_vs k') n = refs scope (k_vs k) n + count scope n (dtdo_vartab dp)) /\
    dtds_chunksize (dtvs_dynvars (k_vs k)) <= dtds_chunksize (dtvs_dynvars (k_vs k')) /\
    t'.1 = t.1 + vtime_refs (dtdo_vartab dp).
Proof.
  intros Hn Hbuf Ht Hsh Hl Hwf. unfold dtrace_difo_init.
  destruct (Z.eqb_spec (dtdo_len dp) 0) as [E|_].
  { unfold dtdo_len in E. destruct (dtdo_buf dp); [done|simpl in E; lia]. }
  destruct (init_vars_spec ncpu Hn (dtdo_vartab dp) k Hsh Hwf) as (k1 & Hi & Hwf1 & Hr & He & Hd).
  rewrite Hi. destruct (chunksize_ok ssd dp tup (k_vs k1) nregs Ht Hl) as (c & -> & Hc).
  unfold dtrace_difo_hold. eexists _, _. split; [reflexivity|]. simpl.
  assert (Hdyn : dtvs_dynvars (k_vs k1) = dtvs_dynvars (k_vs k)).
  { clear -Hi. revert k Hi. induction (dtdo_vartab dp) as [|v vars IH]; intros k Hi; simpl in Hi.
    - by injection Hi as ->.
    - destruct (init_var ncpu v k) as [k2|] eqn:E; [|done]. rewrite (IH k2 Hi).
      unfold init_var, init_static in E. repeat case_match; simplify_eq; try done;
        unfold set_statics; simpl; by case_match. }
  split_and!.
  - by apply wf_chunksize.
  - by apply extends_chunksize.
  - rewrite List.Forall_forall in *. intros v Hin. apply (declared_extends (k_vs k1));
      [by apply (Hsh v Hin)|apply extends_chunksize, extends_refl|by apply Hd].
  - intros scope n Hs. rewrite refs_chunksize. by apply Hr.
  - by rewrite <- Hdyn.
  - apply hold_vtime.
Qed.

(** Releasing the only reference of an object that [difo_init_spec] declared. *)
Lemma difo_release_spec ncpu dp vs t :
  dtdo_refcnt dp = 1 -> Forall var_shape (dtdo_vartab dp) -> vstate_wf ncpu vs ->
  (forall scope n, is_static scope -> count scope n (dtdo_vartab dp) <= refs scope vs n) ->
  vtime_refs (dtdo_vartab dp) <= t.1 ->
  exists vs' t', dtrace_difo_release dp vs t = Some (None, vs', t') /\ vstate_wf ncpu vs' /\
    (forall scope n, is_static scope ->
       refs scope vs' n = refs scope vs n - count scope n (dtdo_vartab dp)) /\
    t'.1 = t.1 - vtime_refs (dtdo_vartab dp).
Proof.
  intros Hrc Hsh Hwf Hc Hv. unfold dtrace_difo_release. rewrite Hrc. simpl.
  destruct (release_vtime_ok _ _ Hv) as (b & ->). unfold dtrace_difo_destroy. simpl.
  destruct (destroy_vars_spec ncpu (dtdo_vartab dp) vs Hsh Hwf Hc) as (vs' & -> & Hwf' & Hr).
  exists vs', (t.1 - vtime_refs (dtdo_vartab dp), b). by split_and!.
Qed.

(** The validator's rules give the shape dtrace_difo_init() needs. *)
Lemma validated_shape gmax dp vs nregs cr dp' :
  dtrace_difo_validate gmax dp vs nregs cr = (0, dp') ->
  Forall (fun v => 0 <= dtdt_size (dtdv_type v) < 2 ^ 32) (dtdo_vartab dp) ->
  text_valid nregs dp' /\ Forall var_shape (dtdo_vartab dp').
Proof.
  intros H Hsz. destruct (difo_validate_accepted _ _ _ _ _ _ H) as [Ht _]. split; [done|].
  pose proof (difo_validate_exact gmax dp vs nregs cr) as Hx. rewrite H in Hx.
  destruct Hx as [Hiff Hout]. rewrite (Hout eq_refl). simpl.
  apply proj1 in Hiff. destruct (Hiff eq_refl) as (_ & _ & Hvars).
  rewrite List.Forall_forall in *. intros v Hin. split; [|by apply Hsz].
  destruct (vv_scope _ _ _ (Hvars v Hin)) as [?|[?|?]]; unfold is_static; auto.
Qed.

(** * Properties *)


(** A bump allocator. *)
#[export] Instance bump : kmem := {| heap := Z; kmem_zalloc := fun n h => (0x10000, h + n) |}.
#[export] Instance bump_ok : kmem_ok bump.
Proof. intros n h Hn. simpl. lia. Qed.

(** An object with a by-reference global of 24 bytes, used twice, a clause-local
    and a thread-local; and the state of a consumer with no variables. *)
Definition vars_difo : dtrace_difo :=
  Difo [DIF_INSTR_RET 0] [] 0 0
    [DifV 0 0x500 1 0 0 (DifType 0 0 1 24); DifV 0 0x502 1 2 0 (DifType 0 0 0 8);
     DifV 0 0x501 1 1 0 (DifType 0 0 0 8); DifV 0 0x500 1 0 0 (DifType 0 0 1 24);
     DifV 0 DIF_VAR_VTIMESTAMP 1 0 0 (DifType 0 0 0 8)]
    (DifType 0 0 0 8) 0 0.
Definition empty_kstate : @kstate bump := KState empty_vstate demo_mach (0 : @heap bump).

Lemma empty_wf : vstate_wf 4 empty_vstate.
Proof.
  split; [intros scope n sv [->| ->]|intros n v]; destruct n; discriminate.
Qed.

Lemma vars_shape : Forall (fun v => 0 <= dtdt_size (dtdv_type v) < 2 ^ 32) (dtdo_vartab vars_difo).
Proof. repeat constructor; simpl; lia. Qed.


(** C40: releasing the last reference of an initialised object undoes the
    initialisation: no assertion fails, the object is freed, every static
    variable has the reference count it had before (a variable the object
    introduced no longer exists), and the count of virtual-time references is
    what it was. *)
Theorem dtrace_difo_release_undoes_init (A : kmem) (HA : kmem_ok A) ncpu ssd dp tup k t :
  0 < ncpu <= 2 ^ 20 -> dtdo_buf dp <> [] -> dtdo_refcnt dp = 0 -> text_valid DIF_DIR_NREGS dp ->
  Forall var_shape (dtdo_vartab dp) -> length tup = 10%nat -> vstate_wf ncpu (k_vs k) -> 0 <= t.1 ->
  exists dp' k' t' vs'' t'',
    dtrace_difo_init ncpu ssd dp tup k t = Some (dp', k', t') /\
    dtrace_difo_release dp' (k_vs k') t' = Some (None, vs'', t'') /\
    vstate_wf ncpu vs'' /\ t''.1 = t.1 /\
    (forall scope n, is_static scope -> refs scope vs'' n = refs scope (k_vs k) n).
Proof.
  intros Hn Hb Hrc Ht Hsh Hl Hwf Hv.
  destruct (difo_init_spec ncpu ssd dp tup k t DIF_DIR_NREGS)
    as (k' & t' & Hi & Hwf' & _ & _ & Hr & _ & Ht'); try done.
  assert (Hpos : forall scope n, is_static scope -> 0 <= refs scope (k_vs k) n).
  { intros scope n Hs. unfold refs. destruct (statics scope (k_vs k) !! n) as [[sv|]|] eqn:E; try lia.
    destruct (wf_statics _ _ Hwf scope n sv Hs E) as (_ & _ & _ & _ & ?). lia. }
  destruct (difo_release_spec ncpu (set_refcnt (dtdo_refcnt dp + 1) dp) (k_vs k') t')
    as (vs'' & t'' & Hrel & Hwf'' & Hr'' & Ht''); try done.
  - simpl. lia.
  - intros scope n Hs. simpl. rewrite Hr by done. specialize (Hpos scope n Hs). lia.
  - simpl. lia.
  - exists (set_refcnt (dtdo_refcnt dp + 1) dp), k', t', vs'', t''. split_and!; try done.
    + simpl in Ht''. lia.
    + intros scope n Hs. rewrite Hr'', Hr by done. simpl. lia.
Qed.

Lemma dtrace_difo_release_undoes_init_witness :
  exists dp' k' t' vs'' t'',
    dtrace_difo_init 4 256 vars_difo (repeat 0 10) empty_kstate (0, false) = Some (dp', k', t') /\
    dtrace_difo_release dp' (k_vs k') t' = Some (None, vs'', t'') /\ t''.1 = 0 /\
    refs DIFV_SCOPE_GLOBAL vs'' 0 = 0.
Proof.
  destruct (dtrace_difo_release_undoes_init bump bump_ok 4 256 vars_difo (repeat 0 10) empty_kstate
    (0, false)) as (dp' & k' & t' & vs'' & t'' & Hi & Hrel & _ & Hv & Hr);
    [lia|discriminate|reflexivity| | |reflexivity|exact empty_wf|simpl; lia|].
  - apply (validated_shape 16384 vars_difo empty_vstate 8 true vars_difo);
      [vm_compute; reflexivity|exact vars_shape].
  - apply (validated_shape 16384 vars_difo empty_vstate 8 true vars_difo);
      [vm_compute; reflexivity|exact vars_shape].
  - exists dp', k', t', vs'', t''. split; [exact Hi|]. split; [exact Hrel|]. split; [exact Hv|].
    rewrite (Hr DIFV_SCOPE_GLOBAL 0%nat) by (left; reflexivity). reflexivity.
Defined.
