(* ===== verification/Aggregate.v ===== *)
(** Aggregations (driver/dtrace.c, dtrace_aggregate_min() to dtrace_aggregate()).

    An aggregator folds one value into an array of 64-bit words.
    [dtrace_aggregate] finds the words of a tuple in a hash table that lives in
    the aggregation buffer: tuple data grow up from the start of the buffer, hash
    keys grow down from the table that precedes the dtrace_aggbuffer_t at its
    end. *)
From stdpp Require Import gmap.
From S2P Require Import Prelude Arith128 SafeMem.

(** * Aggregators

    [None] is a failed ASSERT or a write outside of the words. *)

(** [words[i] += incr]. *)
Definition add_word (i incr : Z) (words : list Z) : option (list Z) :=
  match zlookup words i with
  | Some w => Some (<[Z.to_nat i := u64 (w + incr)]> words)
  | None => None
  end.

Definition dtrace_aggregate_min (words : list Z) (nval arg : Z) : option (list Z) :=
  match words with
  | oval :: rest => Some ((if s64 nval <? s64 oval then nval else oval) :: rest)
  | [] => None
  end.

Definition dtrace_aggregate_max (words : list Z) (nval arg : Z) : option (list Z) :=
  match words with
  | oval :: rest => Some ((if s64 oval <? s64 nval then nval else oval) :: rest)
  | [] => None
  end.

Definition DTRACE_QUANTIZE_NBUCKETS : Z := 127.
Definition DTRACE_QUANTIZE_ZEROBUCKET : Z := 63.
Definition DTRACE_QUANTIZE_BUCKETVAL (buck : Z) : Z :=
  if buck <? DTRACE_QUANTIZE_ZEROBUCKET then - Z.shiftl 1 (DTRACE_QUANTIZE_ZEROBUCKET - 1 - buck)
  else if buck =? DTRACE_QUANTIZE_ZEROBUCKET then 0
  else Z.shiftl 1 (buck - DTRACE_QUANTIZE_ZEROBUCKET - 1).

(** The bucket a value is counted in. *)
Definition quantize_bucket (nval : Z) : option Z :=
  let val := s64 nval in
  if val <? 0 then
    match zloop (fun i =>
      if i <? DTRACE_QUANTIZE_ZEROBUCKET then
        if val <=? DTRACE_QUANTIZE_BUCKETVAL i then inr (Some i) else inl (i + 1)
      else inr None) 64 0 with
    | Some (Some i) => Some i
    | _ => None   (* ASSERT(0) *)
    end
  else
    zloop (fun i =>
      if i <? DTRACE_QUANTIZE_NBUCKETS then
        if val <? DTRACE_QUANTIZE_BUCKETVAL i then inr (i - 1) else inl (i + 1)
      else inr (DTRACE_QUANTIZE_NBUCKETS - 1)) 64 (DTRACE_QUANTIZE_ZEROBUCKET + 1).

Definition dtrace_aggregate_quantize (quanta : list Z) (nval incr : Z) : option (list Z) :=
  match quantize_bucket nval with
  | Some i => add_word i incr quanta
  | None => None
  end.

Definition DTRACE_LQUANTIZE_STEP (x : Z) : Z := u16 (Z.shiftr (Z.land x (Z.shiftl 0xffff 48)) 48).
Definition DTRACE_LQUANTIZE_LEVELS (x : Z) : Z := u16 (Z.shiftr (Z.land x (Z.shiftl 0xffff 32)) 32).
Definition DTRACE_LQUANTIZE_BASE (x : Z) : Z := s32 (Z.shiftr (Z.land x 0xffffffff) 0).

(** The level; the subtraction is one of 32-bit ints and wraps. *)
Definition lquantize_level (arg nval : Z) : option Z :=
  let base := DTRACE_LQUANTIZE_BASE arg in
  let step := DTRACE_LQUANTIZE_STEP arg in
  let levels := DTRACE_LQUANTIZE_LEVELS arg in
  let val := s32 nval in
  if (step =? 0) || (levels =? 0) then None
  else if val <? base then Some 0
  else
    let level := Z.quot (s32 (val - base)) step in
    if level <? levels then Some (level + 1) else Some (levels + 1).

Definition dtrace_aggregate_lquantize (words : list Z) (nval incr : Z) : option (list Z) :=
  match words with
  | arg :: lquanta =>
      match lquantize_level arg nval with
      | Some i =>
          match add_word i incr lquanta with
          | Some lquanta => Some (arg :: lquanta)
          | None => None
          end
      | None => None
      end
  | [] => None
  end.

Definition dtrace_aggregate_avg (data : list Z) (nval arg : Z) : option (list Z) :=
  match data with
  | d0 :: d1 :: rest => Some (u64 (d0 + 1) :: u64 (d1 + nval) :: rest)
  | _ => None
  end.

Definition dtrace_aggregate_stddev (data : list Z) (nval arg : Z) : option (list Z) :=
  match data with
  | d0 :: d1 :: d2 :: d3 :: rest =>
      let snval := s64 nval in
      let snval := if snval <? 0 then s64 (- snval) else snval in
      let tmp := dtrace_multiply_128 (u64 snval) (u64 snval) in
      let sq := dtrace_add_128 (d2, d3) tmp in
      Some (u64 (d0 + 1) :: u64 (d1 + nval) :: sq.1 :: sq.2 :: rest)
  | _ => None
  end.

Definition dtrace_aggregate_count (words : list Z) (nval arg : Z) : option (list Z) :=
  match words with oval :: rest => Some (u64 (oval + 1) :: rest) | [] => None end.

Definition dtrace_aggregate_sum (words : list Z) (nval arg : Z) : option (list Z) :=
  match words with oval :: rest => Some (u64 (oval + nval) :: rest) | [] => None end.

Definition DTRACEAGG_COUNT : Z := 1.
Definition DTRACEAGG_MIN : Z := 2.
Definition DTRACEAGG_MAX : Z := 3.
Definition DTRACEAGG_AVG : Z := 4.
Definition DTRACEAGG_SUM : Z := 5.
Definition DTRACEAGG_STDDEV : Z := 6.
Definition DTRACEAGG_QUANTIZE : Z := 7.
Definition DTRACEAGG_LQUANTIZE : Z := 8.

(** The aggregator of an action kind (counted from DTRACEACT_AGGREGATION), its
    initial value and the size of its data, as dtrace_ecb_aggregation_create()
    selects them; [arg] is dtad_arg. *)
Definition agg_select (kind arg : Z)
    : option ((list Z -> Z -> Z -> option (list Z)) * Z * Z) :=
  if kind =? DTRACEAGG_MIN then Some (dtrace_aggregate_min, 2 ^ 63 - 1, 8)
  else if kind =? DTRACEAGG_MAX then Some (dtrace_aggregate_max, 2 ^ 63, 8)
  else if kind =? DTRACEAGG_COUNT then Some (dtrace_aggregate_count, 0, 8)
  else if kind =? DTRACEAGG_QUANTIZE then
    Some (dtrace_aggregate_quantize, 0, ((8 * 8 - 1) * 2 + 1) * 8)
  else if kind =? DTRACEAGG_LQUANTIZE then
    let step := DTRACE_LQUANTIZE_STEP arg in
    let levels := DTRACE_LQUANTIZE_LEVELS arg in
    if (step =? 0) || (levels =? 0) then None
    else Some (dtrace_aggregate_lquantize, arg, levels * 8 + 3 * 8)
  else if kind =? DTRACEAGG_AVG then Some (dtrace_aggregate_avg, 0, 8 * 2)
  else if kind =? DTRACEAGG_STDDEV then Some (dtrace_aggregate_stddev, 0, 8 * 4)
  else if kind =? DTRACEAGG_SUM then Some (dtrace_aggregate_sum, 0, 8)
  else None.

(** * Tuples *)

(** An action of the tuple: offset of its record from the aggregation's base,
    size, and whether it is a string. *)
Record tuple_act := TupleAct { ta_offs : Z; ta_size : Z; ta_isstr : bool }.

Definition slice (a : tuple_act) (data : list Z) : list Z :=
  take (Z.to_nat (ta_size a)) (drop (Z.to_nat (ta_offs a)) data).

(** One record of Jenkins' one-at-a-time hash; a char is signed. *)
Fixpoint hash_bytes (isstr : bool) (l : list Z) (h : Z) : Z :=
  match l with
  | [] => h
  | c :: l =>
      let h := u32 (h + s8 c) in
      let h := u32 (h + Z.shiftl h 10) in
      let h := Z.lxor h (Z.shiftr h 6) in
      if isstr && (c =? 0) then h else hash_bytes isstr l h
  end.

Definition agg_hash (acts : list tuple_act) (data : list Z) : Z :=
  let h := fold_left (fun h a => hash_bytes (ta_isstr a) (slice a data) h) acts 0 in
  let h := u32 (h + Z.shiftl h 3) in
  let h := Z.lxor h (Z.shiftr h 11) in
  u32 (h + Z.shiftl h 15).

(** Comparison of one record with that of a key. *)
Fixpoint match_bytes (isstr : bool) (k l : list Z) : bool :=
  match k, l with
  | kc :: k, c :: l =>
      if negb (kc =? c) then false
      else if isstr && (c =? 0) then true else match_bytes isstr k l
  | _, _ => true
  end.

Definition tuple_match (acts : list tuple_act) (kdata data : list Z) : bool :=
  forallb (fun a => match_bytes (ta_isstr a) (slice a kdata) (slice a data)) acts.

(** Zero the bytes of the key [k] that follow the first NUL of the data [d]. *)
Fixpoint pad_string (nul : bool) (k d : list Z) : list Z :=
  match k, d with
  | kc :: k, c :: d =>
      if nul then 0 :: pad_string true k d else kc :: pad_string (c =? 0) k d
  | _, _ => k
  end.

Definition pad_act (data kdata : list Z) (a : tuple_act) : list Z :=
  if ta_isstr a then
    take (Z.to_nat (ta_offs a)) kdata ++ pad_string false (slice a kdata) (slice a data) ++
    drop (Z.to_nat (ta_offs a) + Z.to_nat (ta_size a)) kdata
  else kdata.

(** The first four bytes are the aggregation's id, the rest is the tuple. *)
Fixpoint id_bytes (id : Z) (n : nat) : list Z :=
  match n with O => [] | S n => u8 id :: id_bytes (Z.shiftr id 8) n end.

Definition key_data (id : Z) (acts : list tuple_act) (size : Z) (data : list Z) : list Z :=
  fold_left (pad_act data) acts (id_bytes id 4 ++ take (Z.to_nat size - 4) (drop 4 data)).

(** * The aggregation buffer *)

Record dtrace_aggregation := Agg {
  dtag_id : Z;
  dtag_action : Z;              (** dta_kind - DTRACEACT_AGGREGATION *)
  dtag_size : Z;                (** dtrd_offset - dtag_base: bytes of the tuple *)
  dtag_rsize : Z;               (** dtrd_size: bytes of the value *)
  dtag_first : list tuple_act;
  dtag_hasarg : bool;
  dtag_initial : Z;
  dtag_aggregate : list Z -> Z -> Z -> option (list Z)
}.

(** A hash key with the data it points to. *)
Record dtrace_aggkey := AggKey {
  dtak_hashval : Z;
  dtak_action : Z;              (** a bit-field of 4 bits *)
  dtak_size : Z;                (** a bit-field of 28 bits *)
  dtak_offs : Z;                (** dtak_data - dtb_tomax *)
  dtak_data : list Z;           (** the tuple *)
  dtak_value : list Z           (** the words of the value *)
}.

(** dtrace_buffer_t with the dtrace_aggbuffer_t inside of it. *)
Record aggbuf := AggBuf {
  dtb_tomax : Z;
  dtb_size : Z;
  dtb_offset : Z;
  dtb_drops : Z;
  dtagb_hash : Z;               (** address of the table; its length is the hash size *)
  dtagb_free : Z;
  dtagb_chains : list (list dtrace_aggkey)
}.

Definition sizeof_aggkey : Z := 24.
Definition sizeof_aggbuffer : Z := 24.
Definition DTRACE_AGGHASHSIZE_SLEW : Z := 17.

Definition dtrace_buffer_drop (b : aggbuf) : aggbuf :=
  AggBuf (dtb_tomax b) (dtb_size b) (dtb_offset b) (u32 (dtb_drops b + 1)) (dtagb_hash b)
    (dtagb_free b) (dtagb_chains b).

(** First use of the buffer: lay out the hash table.  [None]: the buffer is
    ludicrously small. *)
Definition agg_setup (b : aggbuf) : option aggbuf :=
  let agb := u64 (dtb_tomax b + dtb_size b - sizeof_aggbuffer) in
  if dtb_offset b =? 0 then
    let hashsize := Z.shiftr (dtb_size b) 3 / 8 in
    if (u64 (agb - hashsize * 8) <? dtb_tomax b) || (hashsize =? 0) then None
    else
      let hashsize :=
        if Z.shiftl DTRACE_AGGHASHSIZE_SLEW 3 <? hashsize
        then hashsize - DTRACE_AGGHASHSIZE_SLEW else hashsize in
      let hash := u64 (agb - hashsize * 8) in
      Some (AggBuf (dtb_tomax b) (dtb_size b) (dtb_offset b) (dtb_drops b) hash hash
              (repeat [] (Z.to_nat hashsize)))
  else Some b.

(** [while (offs & (align - 1)) offs += 4] with [align] 7: offsets repeat modulo 8,
    so a loop that has not ended after three turns never does. *)
Definition agg_align (offs : Z) : option Z :=
  zloop (fun offs => if Z.land offs 6 =? 0 then inr offs else inl (u64 (offs + 4))) 4 offs.

(** Apply [f] to the first key of a chain that matches. *)
Fixpoint chain_update (p : dtrace_aggkey -> bool) (f : dtrace_aggkey -> option dtrace_aggkey)
    (l : list dtrace_aggkey) : option (list dtrace_aggkey) :=
  match l with
  | [] => None
  | k :: l =>
      if p k then match f k with Some k => Some (k :: l) | None => None end
      else match chain_update p f l with Some l => Some (k :: l) | None => None end
  end.

Section Aggregate.
Context (agg : dtrace_aggregation) (data : list Z) (expr arg : Z).

Definition agg_arg : Z := if dtag_hasarg agg then arg else 1.
Definition agg_fsize : Z := u32 (dtag_size agg + dtag_rsize agg).
Definition agg_hashval : Z := agg_hash (dtag_first agg) data.

(** The key of this tuple, by hash value, size and contents. *)
Definition is_hit (k : dtrace_aggkey) : bool :=
  (dtak_hashval k =? agg_hashval) && (dtak_size k =? dtag_size agg) &&
  tuple_match (dtag_first agg) (dtak_data k) data.

Definition with_value (k : dtrace_aggkey) (v : list Z) : dtrace_aggkey :=
  AggKey (dtak_hashval k) (dtak_action k) (dtak_size k) (dtak_offs k) (dtak_data k) v.

Definition apply_agg (k : dtrace_aggkey) : option dtrace_aggkey :=
  match dtag_aggregate agg (dtak_value k) expr agg_arg with
  | Some v => Some (with_value k v)
  | None => None
  end.

Definition set_chain (ndx : nat) (c : list dtrace_aggkey) (b : aggbuf) : aggbuf :=
  AggBuf (dtb_tomax b) (dtb_size b) (dtb_offset b) (dtb_drops b) (dtagb_hash b) (dtagb_free b)
    (<[ndx := c]> (dtagb_chains b)).

(** A zero-filled value whose first word is the initial one. *)
Definition initial_value : list Z :=
  <[0%nat := dtag_initial agg]> (repeat 0 (Z.to_nat (dtag_rsize agg / 8))).

(** A miss: allocate, link and apply, or drop. *)
Definition agg_insert (ndx : nat) (chain : list dtrace_aggkey) (b : aggbuf) : option aggbuf :=
  match agg_align (dtb_offset b) with
  | None => None
  | Some offs =>
      if u64 (dtagb_free b - sizeof_aggkey) <? u64 (dtb_tomax b + offs + agg_fsize) then
        Some (dtrace_buffer_drop b)
      else
        let key := AggKey agg_hashval (dtag_action agg mod 2 ^ 4) (dtag_size agg mod 2 ^ 28) offs
          (key_data (dtag_id agg) (dtag_first agg) (dtag_size agg) data) initial_value in
        match apply_agg key with
        | None => None
        | Some key =>
            Some (AggBuf (dtb_tomax b) (dtb_size b) (u64 (offs + agg_fsize)) (dtb_drops b)
              (dtagb_hash b) (u64 (dtagb_free b - sizeof_aggkey))
              (<[ndx := key :: chain]> (dtagb_chains b)))
        end
  end.

(** The result, and whether CPU_DTRACE_ILLOP is flagged. *)
Definition dtrace_aggregate (b : aggbuf) : option (aggbuf * bool) :=
  if dtb_tomax b =? 0 then Some (dtrace_buffer_drop b, false)
  else
    match agg_setup b with
    | None => Some (dtrace_buffer_drop b, false)
    | Some b =>
        let ndx := agg_hashval mod Z.of_nat (length (dtagb_chains b)) in
        match zlookup (dtagb_chains b) ndx with
        | None => None
        | Some chain =>
            match find is_hit chain with
            | Some k =>
                if negb (dtag_action agg =? dtak_action k) then Some (b, true)
                else
                  match chain_update is_hit apply_agg chain with
                  | Some chain => Some (set_chain (Z.to_nat ndx) chain b, false)
                  | None => None
                  end
            | None =>
                match agg_insert (Z.to_nat ndx) chain b with
                | Some b => Some (b, false)
                | None => None
                end
            end
        end
    end.
End Aggregate.

(** * The aggregators *)

(** What an aggregating action promises [dtrace_aggregate]: on words of its own
    shape it returns words of that shape. *)
Class Aggregator (f : list Z -> Z -> Z -> option (list Z)) (wf : list Z -> Prop) : Prop :=
  aggregator_ok v nval arg : is_u64 nval -> wf v -> 
    exists v', f v nval arg = Some v' /\ wf v' /\ length v' = length v.

Definition words (n : nat) (v : list Z) : Prop := length v = n /\ Forall (is_u 64) v.

Lemma words_cons n x v : words (S n) (x :: v) <-> is_u64 x /\ words n v.
Proof. unfold words. simpl. rewrite Forall_cons_iff. intuition lia. Qed.

#[export] Instance min_aggregator : Aggregator dtrace_aggregate_min (words 1).
Proof.
  intros [|x v] nval arg Hn Hv; [by destruct Hv|]. apply words_cons in Hv as [Hx Hv].
  eexists. split; [reflexivity|]. split; [|done]. apply words_cons. split; [by case_match|done].
Qed.

#[export] Instance max_aggregator : Aggregator dtrace_aggregate_max (words 1).
Proof.
  intros [|x v] nval arg Hn Hv; [by destruct Hv|]. apply words_cons in Hv as [Hx Hv].
  eexists. split; [reflexivity|]. split; [|done]. apply words_cons. split; [by case_match|done].
Qed.

#[export] Instance count_aggregator : Aggregator dtrace_aggregate_count (words 1).
Proof.
  intros [|x v] nval arg Hn Hv; [by destruct Hv|]. apply words_cons in Hv as [Hx Hv].
  eexists. split; [reflexivity|]. split; [|done]. apply words_cons. split; [apply u64_range|done].
Qed.

#[export] Instance sum_aggregator : Aggregator dtrace_aggregate_sum (words 1).
Proof.
  intros [|x v] nval arg Hn Hv; [by destruct Hv|]. apply words_cons in Hv as [Hx Hv].
  eexists. split; [reflexivity|]. split; [|done]. apply words_cons. split; [apply u64_range|done].
Qed.

#[export] Instance avg_aggregator : Aggregator dtrace_aggregate_avg (words 2).
Proof.
  intros [|x [|y v]] nval arg Hn Hv; [by destruct Hv|by destruct Hv|].
  rewrite !words_cons in Hv. eexists. split; [reflexivity|]. split; [|done]. rewrite !words_cons.
  split_and!; [apply u64_range|apply u64_range|apply Hv].
Qed.

#[export] Instance stddev_aggregator : Aggregator dtrace_aggregate_stddev (words 4).
Proof.
  intros [|x [|y [|z [|w v]]]] nval arg Hn Hv; [by destruct Hv..|].
  rewrite !words_cons in Hv. destruct Hv as (Hx & Hy & Hz & Hw & Hv).
  eexists. split; [reflexivity|]. cbv zeta.
  set (sn := u64 (if s64 nval <? 0 then s64 (- s64 nval) else s64 nval)).
  assert (Hsn : is_u64 sn) by apply u64_range. clearbody sn.
  destruct (multiply_128_spec sn sn Hsn Hsn) as [Hm _].
  destruct (add_128_spec (z, w) (dtrace_multiply_128 sn sn)) as [[H1 H2] _]; [by split|done|].
  split; [|done]. rewrite !words_cons. split_and!; (done || apply u64_range).
Qed.

(** ** quantize() *)

Lemma bucketval_neg i : 0 <= i < 63 -> DTRACE_QUANTIZE_BUCKETVAL i = - 2 ^ (62 - i).
Proof.
  intros Hi. unfold DTRACE_QUANTIZE_BUCKETVAL, DTRACE_QUANTIZE_ZEROBUCKET.
  destruct (Z.ltb_spec i 63); [|lia]. by rewrite Z.shiftl_1_l.
Qed.

Lemma bucketval_pos i : 63 < i -> DTRACE_QUANTIZE_BUCKETVAL i = 2 ^ (i - 64).
Proof.
  intros Hi. unfold DTRACE_QUANTIZE_BUCKETVAL, DTRACE_QUANTIZE_ZEROBUCKET.
  destruct (Z.ltb_spec i 63); [lia|]. destruct (Z.eqb_spec i 63); [lia|].
  rewrite Z.shiftl_1_l. f_equal. lia.
Qed.

(** [v] belongs in bucket [i]: the negative buckets are (2^(k+1), 2^k] below zero,
    the others [2^k, 2^(k+1)); the outermost ones are unbounded. *)
Definition in_bucket (v i : Z) : Prop :=
  if v <? 0 then
    0 <= i < 63 /\ v <= DTRACE_QUANTIZE_BUCKETVAL i /\
    (i = 0 \/ DTRACE_QUANTIZE_BUCKETVAL (i - 1) < v)
  else
    63 <= i < 127 /\ DTRACE_QUANTIZE_BUCKETVAL i <= v /\
    (i = 126 \/ v < DTRACE_QUANTIZE_BUCKETVAL (i + 1)).

Lemma quantize_bucket_spec nval :
  exists i, quantize_bucket nval = Some i /\ in_bucket (s64 nval) i.
Proof.
  unfold quantize_bucket, in_bucket. pose proof (s64_range nval) as Hr. set (v := s64 nval) in *.
  clearbody v. destruct (Z.ltb_spec v 0) as [Hneg|Hpos].
  - edestruct (zloop_down (fun k i => i = 63 - k /\ 0 <= k <= 63 /\
        (i = 0 \/ DTRACE_QUANTIZE_BUCKETVAL (i - 1) < v))
      (fun r => exists i, r = Some i /\ 0 <= i < 63 /\ v <= DTRACE_QUANTIZE_BUCKETVAL i /\
        (i = 0 \/ DTRACE_QUANTIZE_BUCKETVAL (i - 1) < v))) with (k := 63)
      as (r & -> & i & -> & Hi); [| |lia|].
    + intros k i (-> & Hk & Hprev). split; [lia|].
      unfold DTRACE_QUANTIZE_ZEROBUCKET at 1. destruct (Z.ltb_spec (63 - k) 63).
      * destruct (Z.leb_spec v (DTRACE_QUANTIZE_BUCKETVAL (63 - k))).
        -- exists (63 - k). split_and!; (done || lia).
        -- split_and!; [lia..|]. right. by replace (63 - k + 1 - 1) with (63 - k) by lia.
      * exfalso. destruct Hprev as [?|Hprev]; [lia|]. rewrite bucketval_neg in Hprev by lia.
        replace (62 - (63 - k - 1)) with 0 in Hprev by lia. simpl in Hprev. lia.
    + split_and!; (lia || auto).
    + exists i. by split.
  - apply (zloop_down (fun k i => i = 127 - k /\ 0 <= k <= 63 /\
        DTRACE_QUANTIZE_BUCKETVAL (i - 1) <= v)) with (k := 63); [| |lia].
    + intros k i (-> & Hk & Hprev). split; [lia|].
      unfold DTRACE_QUANTIZE_NBUCKETS. destruct (Z.ltb_spec (127 - k) 127).
      * destruct (Z.ltb_spec v (DTRACE_QUANTIZE_BUCKETVAL (127 - k))).
        -- split_and!; [lia..|done|]. right. by replace (127 - k - 1 + 1) with (127 - k) by lia.
        -- split_and!; [lia..|]. by replace (127 - k + 1 - 1) with (127 - k) by lia.
      * replace k with 0 in * by lia. simpl in *. split_and!; [lia..|done|auto].
    + split_and!; [reflexivity|lia..|]. exact Hpos.
Qed.

Lemma add_word_spec i incr v :
  0 <= i < Z.of_nat (length v) ->
  exists w, v !! Z.to_nat i = Some w /\
    add_word i incr v = Some (<[Z.to_nat i := u64 (w + incr)]> v).
Proof.
  intros Hi. destruct (lookup_lt_is_Some_2 v (Z.to_nat i)) as [w Hw]; [lia|].
  exists w. split; [done|]. unfold add_word. rewrite zlookup_nat by lia. by rewrite Hw.
Qed.

#[export] Instance quantize_aggregator : Aggregator dtrace_aggregate_quantize (words 127).
Proof.
  intros v nval arg _ [Hl Hv]. unfold dtrace_aggregate_quantize.
  destruct (quantize_bucket_spec nval) as (i & -> & Hi).
  destruct (add_word_spec i arg v) as (w & Hw & ->).
  { unfold in_bucket in Hi. rewrite Hl. case_match; lia. }
  eexists. split; [reflexivity|]. rewrite length_insert. split; [|done].
  split; [by rewrite length_insert|].
  apply Forall_insert; [done|apply u64_range].
Qed.

(** ** lquantize() *)

Definition lq_wf (v : list Z) : Prop :=
  exists arg lq, v = arg :: lq /\ is_u64 arg /\ Forall (is_u 64) lq /\
    0 < DTRACE_LQUANTIZE_STEP arg /\ 0 < DTRACE_LQUANTIZE_LEVELS arg /\
    0 <= DTRACE_LQUANTIZE_BASE arg /\
    Z.of_nat (length lq) = DTRACE_LQUANTIZE_LEVELS arg + 2.

(** The level of a value whose distance from the base fits in 31 bits. *)
Definition lq_index (arg v : Z) : Z :=
  let base := DTRACE_LQUANTIZE_BASE arg in
  let step := DTRACE_LQUANTIZE_STEP arg in
  let levels := DTRACE_LQUANTIZE_LEVELS arg in
  if v <? base then 0
  else if v <? base + levels * step then (v - base) / step + 1
  else levels + 1.

Lemma lquantize_level_spec arg nval :
  0 < DTRACE_LQUANTIZE_STEP arg -> 0 < DTRACE_LQUANTIZE_LEVELS arg ->
  s32 nval - DTRACE_LQUANTIZE_BASE arg < 2 ^ 31 ->
  lquantize_level arg nval = Some (lq_index arg (s32 nval)) /\
  0 <= lq_index arg (s32 nval) <= DTRACE_LQUANTIZE_LEVELS arg + 1.
Proof.
  intros Hs Hl Hd. unfold lquantize_level, lq_index. pose proof (s32_range nval) as Hv.
  set (v := s32 nval) in *. clearbody v.
  set (base := DTRACE_LQUANTIZE_BASE arg) in *. clearbody base.
  set (step := DTRACE_LQUANTIZE_STEP arg) in *. clearbody step.
  set (levels := DTRACE_LQUANTIZE_LEVELS arg) in *. clearbody levels.
  destruct (Z.eqb_spec step 0); [lia|]. destruct (Z.eqb_spec levels 0); [lia|]. simpl orb. cbv iota.
  destruct (Z.ltb_spec v base); [split; [done|lia]|].
  assert (Hw : s32 (v - base) = v - base) by (revert Hd; word). rewrite Hw.
  rewrite Z.quot_div_nonneg by lia.
  pose proof (Z.mul_div_le (v - base) step Hs).
  pose proof (Z.mul_succ_div_gt (v - base) step Hs).
  assert (0 <= (v - base) / step) by (apply Z.div_pos; lia).
  set (q := (v - base) / step) in *. clearbody q.
  destruct (Z.ltb_spec v (base + levels * step)), (Z.ltb_spec q levels); (split; [done|lia]) || nia.
Qed.

#[export] Instance lquantize_aggregator : Aggregator dtrace_aggregate_lquantize lq_wf.
Proof.
  intros v nval incr _ (arg & lq & -> & Ha & Hlq & Hs & Hl & Hb & Hlen).
  destruct (lquantize_level_spec arg nval) as [He Hr]; [done|done|pose proof (s32_range nval); lia|].
  unfold dtrace_aggregate_lquantize. rewrite He.
  destruct (add_word_spec (lq_index arg (s32 nval)) incr lq) as (w & Hw & ->); [lia|].
  eexists. split; [reflexivity|]. split; [|simpl; by rewrite length_insert].
  eexists arg, _. split_and!; try done.
  - apply Forall_insert; [done|apply u64_range].
  - by rewrite length_insert.
Qed.

(** ** stddev() *)

(** Fold a sequence of values. *)
Fixpoint aggregate_all (f : list Z -> Z -> Z -> option (list Z)) (vals : list Z) (v : list Z)
    : option (list Z) :=
  match vals with
  | [] => Some v
  | n :: vals => match f v n 1 with Some v => aggregate_all f vals v | None => None end
  end.

Definition sumZ (l : list Z) : Z := foldr Z.add 0 l.

Lemma square_abs nval :
  let snval := if s64 nval <? 0 then s64 (- s64 nval) else s64 nval in
  u64 snval * u64 snval = s64 nval * s64 nval.
Proof.
  pose proof (s64_range nval) as Hr. set (s := s64 nval) in *. clearbody s. cbv zeta.
  assert (u64 (if s <? 0 then s64 (- s) else s) = Z.abs s) as -> by word.
  rewrite <- Z.abs_mul. apply Z.abs_eq. nia.
Qed.

Lemma stddev_step d0 d1 d2 d3 nval :
  wf128 (d2, d3) ->
  exists e2 e3, dtrace_aggregate_stddev [d0; d1; d2; d3] nval 1 =
      Some [u64 (d0 + 1); u64 (d1 + nval); e2; e3] /\ wf128 (e2, e3) /\
    val128 (e2, e3) = (val128 (d2, d3) + s64 nval * s64 nval) mod 2 ^ 128.
Proof.
  intros Hwf. unfold dtrace_aggregate_stddev. pose proof (square_abs nval) as Hsq. cbv zeta in Hsq.
  set (sn := u64 (if s64 nval <? 0 then s64 (- s64 nval) else s64 nval)) in *.
  assert (Hsn : is_u64 sn) by apply u64_range. clearbody sn.
  destruct (multiply_128_spec sn sn Hsn Hsn) as [Hm Hv].
  destruct (add_128_spec (d2, d3) (dtrace_multiply_128 sn sn) Hwf Hm) as [Ha Hav].
  destruct (dtrace_add_128 _ _) as [e2 e3]. exists e2, e3. split_and!; [done|done|].
  by rewrite Hav, Hv, Hsq.
Qed.

Lemma stddev_all vals d0 d1 d2 d3 :
  wf128 (d2, d3) -> is_u64 d0 -> is_u64 d1 ->
  exists e0 e1 e2 e3, aggregate_all dtrace_aggregate_stddev vals [d0; d1; d2; d3] =
      Some [e0; e1; e2; e3] /\
    e0 = u64 (d0 + Z.of_nat (length vals)) /\ e1 = u64 (d1 + sumZ vals) /\ wf128 (e2, e3) /\
    val128 (e2, e3) = (val128 (d2, d3) + sumZ (map (fun n => s64 n * s64 n) vals)) mod 2 ^ 128.
Proof.
  revert d0 d1 d2 d3. induction vals as [|n vals IH]; intros d0 d1 d2 d3 Hwf H0 H1;
    cbn [aggregate_all length map sumZ foldr].
  - pose proof (val128_range _ Hwf). exists d0, d1, d2, d3.
    rewrite !Z.add_0_r, !u64_id, Z.mod_small by done. done.
  - destruct (stddev_step d0 d1 d2 d3 n Hwf) as (a2 & a3 & -> & Ha & Hv).
    destruct (IH (u64 (d0 + 1)) (u64 (d1 + n)) a2 a3 Ha (u64_range _) (u64_range _))
      as (e0 & e1 & e2 & e3 & -> & -> & -> & Hw & He).
    eexists _, _, e2, e3. split_and!; [reflexivity|word|unfold u64, sumZ; lia|done|].
    rewrite He, Hv, Zplus_mod_idemp_l. f_equal. unfold sumZ. lia.
Qed.

(** * Tuples *)

(** The bytes that count: of a string, those up to its NUL. *)
Fixpoint significant (isstr : bool) (l : list Z) : list Z :=
  match l with
  | [] => []
  | c :: l => if isstr && (c =? 0) then [c] else c :: significant isstr l
  end.

Definition tuple_key (acts : list tuple_act) (data : list Z) : list (list Z) :=
  map (fun a => significant (ta_isstr a) (slice a data)) acts.

Lemma hash_significant isstr l h : hash_bytes isstr (significant isstr l) h = hash_bytes isstr l h.
Proof.
  revert h. induction l as [|c l IH]; intros h; cbn [significant hash_bytes]; [done|].
  destruct (isstr && (c =? 0)) eqn:E; cbn [hash_bytes]; rewrite E; [done|apply IH].
Qed.

(** Equal tuples hash alike. *)
Lemma agg_hash_key acts data data' :
  tuple_key acts data = tuple_key acts data' -> agg_hash acts data = agg_hash acts data'.
Proof.
  intros H. unfold agg_hash. cbv zeta.
  assert (Hf : forall h, fold_left (fun h a => hash_bytes (ta_isstr a) (slice a data) h) acts h =
    fold_left (fun h a => hash_bytes (ta_isstr a) (slice a data') h) acts h); [|by rewrite Hf].
  induction acts as [|a acts IH]; intros h; cbn [fold_left]; [done|].
  cbn [tuple_key map] in H. injection H as Ha Hr.
  rewrite <- hash_significant, Ha, hash_significant. by apply IH.
Qed.

Lemma match_significant isstr k l :
  length k = length l -> match_bytes isstr k l = true <-> significant isstr k = significant isstr l.
Proof.
  revert l. induction k as [|kc k IH]; intros [|c l] Hl; try discriminate; [done|].
  cbn [match_bytes significant]. injection Hl as Hl. destruct (Z.eqb_spec kc c) as [->|Hne].
  - simpl negb. cbv iota. destruct (isstr && (c =? 0)); [done|]. rewrite (IH l Hl).
    split; [by intros ->|by intros [=]].
  - simpl negb. cbv iota. split; [done|]. intros H.
    destruct (isstr && (kc =? 0)), (isstr && (c =? 0)); by injection H.
Qed.

Lemma slice_length a k l : length k = length l -> length (slice a k) = length (slice a l).
Proof. intros H. unfold slice. by rewrite !length_take, !length_drop, H. Qed.

Lemma tuple_match_iff acts k l :
  length k = length l -> tuple_match acts k l = true <-> tuple_key acts k = tuple_key acts l.
Proof.
  intros Hl. unfold tuple_match, tuple_key.
  induction acts as [|a acts IH]; cbn [forallb map]; [done|].
  rewrite andb_true_iff, IH, match_significant by (by apply slice_length).
  split; [by intros [-> ->]|by intros [=]].
Qed.

(** ** The copy of the tuple in a key *)

(** The records of a tuple follow each other from byte [lo] on. *)
Fixpoint acts_from (lo : Z) (acts : list tuple_act) (size : Z) : Prop :=
  match acts with
  | [] => lo <= size
  | a :: acts => lo <= ta_offs a /\ 0 <= ta_size a /\ acts_from (ta_offs a + ta_size a) acts size
  end.

Lemma acts_from_le lo acts size : 0 <= lo -> acts_from lo acts size -> lo <= size.
Proof.
  revert lo. induction acts as [|a acts IH]; intros lo Hlo; simpl; [done|].
  intros (H1 & H2 & H3). apply IH in H3; lia.
Qed.

Lemma pad_string_length nul k d : length (pad_string nul k d) = length k.
Proof.
  revert nul d. induction k as [|kc k IH]; intros nul [|c d]; simpl; try done.
  destruct nul; simpl; by rewrite IH.
Qed.

Lemma significant_pad k : significant true (pad_string false k k) = significant true k.
Proof.
  induction k as [|c k IH]; cbn [pad_string significant]; [done|]. simpl andb.
  destruct (c =? 0); [done|]. by rewrite IH.
Qed.

Lemma pad_act_length data k a :
  0 <= ta_offs a -> 0 <= ta_size a -> ta_offs a + ta_size a <= Z.of_nat (length k) ->
  length (pad_act data k a) = length k.
Proof.
  intros. unfold pad_act. destruct (ta_isstr a); [|done].
  rewrite !length_app, length_take, pad_string_length, length_drop. unfold slice.
  rewrite length_take, length_drop. lia.
Qed.

Lemma slice_app_l a k r :
  0 <= ta_offs a -> 0 <= ta_size a -> ta_offs a + ta_size a <= Z.of_nat (length k) ->
  slice a (k ++ r) = slice a k.
Proof.
  intros. unfold slice. rewrite drop_app_le by lia. rewrite take_app_le; [done|].
  rewrite length_drop. lia.
Qed.

(** A record before [o] is not touched by a change from [o] on. *)
Lemma slice_before a o k r :
  0 <= ta_offs a -> 0 <= ta_size a -> ta_offs a + ta_size a <= Z.of_nat o -> (o <= length k)%nat ->
  slice a (take o k ++ r) = slice a k.
Proof.
  intros. rewrite slice_app_l by (rewrite ?length_take; lia).
  rewrite <- (take_drop o k) at 2. by rewrite slice_app_l by (rewrite ?length_take; lia).
Qed.

(** A record after [o + n] is not touched by a change before. *)
Lemma slice_after a o n k p :
  length p = n -> (o + n <= length k)%nat -> Z.of_nat (o + n) <= ta_offs a ->
  slice a (take o k ++ p ++ drop (o + n) k) = slice a k.
Proof.
  intros Hp Hk Ha. unfold slice. f_equal.
  rewrite !drop_app, length_take. replace (o `min` length k)%nat with o by lia.
  rewrite (drop_ge (take o k)) by (rewrite length_take; lia). rewrite (drop_ge p) by lia.
  rewrite drop_drop. simpl. f_equal. lia.
Qed.

Lemma slice_at a k p :
  0 <= ta_offs a -> 0 <= ta_size a -> ta_offs a + ta_size a <= Z.of_nat (length k) ->
  length p = Z.to_nat (ta_size a) ->
  slice a (take (Z.to_nat (ta_offs a)) k ++ p ++ drop (Z.to_nat (ta_offs a) + Z.to_nat (ta_size a)) k) = p.
Proof.
  intros. unfold slice. rewrite drop_app, length_take.
  rewrite (drop_ge (take _ k)) by (rewrite length_take; lia).
  replace (Z.to_nat (ta_offs a) - Z.to_nat (ta_offs a) `min` length k)%nat with 0%nat by lia.
  rewrite drop_0. simpl. rewrite take_app_le by lia. apply take_ge. lia.
Qed.

Lemma pad_act_slices data k a :
  0 <= ta_offs a -> 0 <= ta_size a -> ta_offs a + ta_size a <= Z.of_nat (length k) ->
  slice a k = slice a data ->
  significant (ta_isstr a) (slice a (pad_act data k a)) = significant (ta_isstr a) (slice a data) /\
  (forall a', ta_offs a + ta_size a <= ta_offs a' -> slice a' (pad_act data k a) = slice a' k) /\
  (forall a', 0 <= ta_offs a' -> 0 <= ta_size a' -> ta_offs a' + ta_size a' <= ta_offs a ->
     slice a' (pad_act data k a) = slice a' k).
Proof.
  intros H1 H2 H3 Hs. unfold pad_act. destruct (ta_isstr a); [|by rewrite Hs].
  assert (Hl : length (slice a k) = Z.to_nat (ta_size a)).
  { unfold slice. rewrite length_take, length_drop. lia. }
  split_and!.
  - rewrite slice_at by (rewrite ?pad_string_length; (done || lia)). rewrite <- Hs. apply significant_pad.
  - intros a' Ha'. apply slice_after; [by rewrite pad_string_length|lia|lia].
  - intros a' ? ? ?. apply slice_before; lia.
Qed.

(** Records from [lo] on keep their contents when the record of [a] is padded. *)
Lemma pad_keeps data k a lo acts :
  (forall a', ta_offs a + ta_size a <= ta_offs a' -> slice a' (pad_act data k a) = slice a' k) ->
  ta_offs a + ta_size a <= lo -> acts_from lo acts (Z.of_nat (length data)) ->
  Forall (fun a => slice a k = slice a data) acts ->
  Forall (fun a' => slice a' (pad_act data k a) = slice a' data) acts.
Proof.
  intros Haft. revert lo. induction acts as [|b acts IH]; intros lo Hlo Hf Hs; [constructor|].
  destruct Hf as (? & ? & Hf). apply Forall_cons_iff in Hs as [Hb Hs]. constructor.
  - rewrite Haft by lia. done.
  - eapply IH; [|exact Hf|exact Hs]. lia.
Qed.

Lemma fold_pad_spec data lo acts k :
  0 <= lo -> acts_from lo acts (Z.of_nat (length data)) -> length k = length data ->
  Forall (fun a => slice a k = slice a data) acts ->
  let r := fold_left (pad_act data) acts k in
  length r = length data /\ tuple_key acts r = tuple_key acts data /\
  (forall a', 0 <= ta_offs a' -> 0 <= ta_size a' -> ta_offs a' + ta_size a' <= lo ->
     slice a' r = slice a' k).
Proof.
  revert lo k. induction acts as [|a acts IH]; intros lo k Hlo Hfrom Hl Hsl; cbn [fold_left].
  { by split_and!. }
  cbn [acts_from] in Hfrom. destruct Hfrom as (Ha & Hz & Hrest).
  apply Forall_cons_iff in Hsl as [Hsa Hsl].
  assert (Hle : ta_offs a + ta_size a <= Z.of_nat (length data)) by (eapply acts_from_le; [|done]; lia).
  destruct (pad_act_slices data k a) as (Hsig & Haft & Hbef); [lia|lia|lia|done|].
  assert (Hl1 : length (pad_act data k a) = length data) by (rewrite pad_act_length; lia).
  destruct (IH (ta_offs a + ta_size a) (pad_act data k a)) as (Hlr & Hkey & Hkeep);
    [lia|done|done|by eapply pad_keeps; [..|exact Hrest|]|].
  cbv zeta. split_and!; [done| |].
  - cbn [tuple_key map]. rewrite (Hkeep a), Hsig by lia. f_equal. exact Hkey.
  - intros a' ? ? ?. rewrite Hkeep by lia. apply Hbef; lia.
Qed.

Lemma id_bytes_length id n : length (id_bytes id n) = n.
Proof. revert id. induction n as [|n IH]; intros id; simpl; [done|]. by rewrite IH. Qed.

(** The copied bytes hold the records from byte 4 on. *)
Lemma copy_slices id data lo acts :
  4 <= lo -> acts_from lo acts (Z.of_nat (length data)) ->
  Forall (fun a => slice a (id_bytes id 4 ++ take (length data - 4) (drop 4 data)) = slice a data) acts.
Proof.
  revert lo. induction acts as [|a acts IH]; intros lo Hlo Hf; [constructor|].
  destruct Hf as (H1 & H2 & Hf).
  assert (Hle : ta_offs a + ta_size a <= Z.of_nat (length data))
    by (eapply acts_from_le; [|exact Hf]; lia). constructor.
  - unfold slice. rewrite (take_ge (drop 4 data)) by (rewrite length_drop; lia).
    rewrite drop_app_ge by (rewrite id_bytes_length; lia).
    rewrite id_bytes_length, drop_drop. do 2 f_equal. lia.
  - apply (IH (ta_offs a + ta_size a)); [lia|done].
Qed.

(** The key holds the tuple of the data it was made from. *)
Lemma key_data_key id acts data :
  let size := Z.of_nat (length data) in
  acts_from 4 acts size ->
  length (key_data id acts size data) = length data /\
  tuple_key acts (key_data id acts size data) = tuple_key acts data.
Proof.
  intros size Hf. assert (Hle : 4 <= size) by (eapply acts_from_le; [|exact Hf]; lia). unfold key_data, size in *.
  rewrite Nat2Z.id. destruct (fold_pad_spec data 4 acts
    (id_bytes id 4 ++ take (length data - 4) (drop 4 data))) as (Hl & Hk & _); [lia|done| | |done].
  - rewrite length_app, id_bytes_length, length_take, length_drop. lia.
  - by apply (copy_slices id data 4).
Qed.

(** * The aggregators as the buffer sees them *)

(** The shape of the value of an action. *)
Definition agg_shape (kind : Z) (v : list Z) : Prop :=
  if kind =? DTRACEAGG_LQUANTIZE then lq_wf v
  else if kind =? DTRACEAGG_QUANTIZE then words 127 v
  else if kind =? DTRACEAGG_STDDEV then words 4 v
  else if kind =? DTRACEAGG_AVG then words 2 v
  else words 1 v.

(** An lquantize() must not have a negative base. *)
Definition lq_base_ok (kind arg : Z) : Prop :=
  kind = DTRACEAGG_LQUANTIZE -> is_u64 arg /\ 0 <= DTRACE_LQUANTIZE_BASE arg.

Definition init_words (rsize initial : Z) : list Z :=
  <[0%nat := initial]> (repeat 0 (Z.to_nat (rsize / 8))).

Lemma init_words_ok initial n :
  is_u64 initial -> words n (init_words (8 * Z.of_nat n) initial).
Proof.
  intros Hi. unfold init_words. replace (8 * Z.of_nat n / 8) with (Z.of_nat n) by lia.
  rewrite Nat2Z.id. split; [by rewrite length_insert, repeat_length|].
  apply Forall_insert; [|done]. apply List.Forall_forall. intros x ->%repeat_spec. unfold is_u. lia.
Qed.

Lemma init_lq_ok arg :
  is_u64 arg -> 0 < DTRACE_LQUANTIZE_STEP arg -> 0 < DTRACE_LQUANTIZE_LEVELS arg ->
  0 <= DTRACE_LQUANTIZE_BASE arg ->
  lq_wf (init_words (DTRACE_LQUANTIZE_LEVELS arg * 8 + 3 * 8) arg).
Proof.
  intros Ha Hs Hl Hb. unfold init_words.
  replace (Z.to_nat ((DTRACE_LQUANTIZE_LEVELS arg * 8 + 3 * 8) / 8))
    with (S (Z.to_nat (DTRACE_LQUANTIZE_LEVELS arg + 2))) by lia.
  exists arg, (repeat 0 (Z.to_nat (DTRACE_LQUANTIZE_LEVELS arg + 2))). split_and!; try done.
  - apply List.Forall_forall. intros x ->%repeat_spec. unfold is_u. lia.
  - rewrite repeat_length. lia.
Qed.

(** Whatever dtrace_ecb_aggregation_create() selects keeps the shape of its
    values, and the zero-filled value it starts from has that shape. *)
Lemma agg_select_ok kind arg f initial rsize :
  agg_select kind arg = Some (f, initial, rsize) -> lq_base_ok kind arg ->
  Aggregator f (agg_shape kind) /\ agg_shape kind (init_words rsize initial) /\
  0 < rsize < 2 ^ 20 /\ rsize mod 8 = 0 /\ 0 <= kind < 2 ^ 4.
Proof.
  unfold agg_select. intros H Hb. assert (Hlv : DTRACE_LQUANTIZE_LEVELS arg < 65536 /\
    0 <= DTRACE_LQUANTIZE_LEVELS arg /\ 0 <= DTRACE_LQUANTIZE_STEP arg).
  { unfold DTRACE_LQUANTIZE_LEVELS, DTRACE_LQUANTIZE_STEP, u16. lia. }
  destruct (Z.eqb_spec kind DTRACEAGG_MIN) as [->|]; [|destruct (Z.eqb_spec kind DTRACEAGG_MAX) as [->|];
    [|destruct (Z.eqb_spec kind DTRACEAGG_COUNT) as [->|]; [|destruct (Z.eqb_spec kind DTRACEAGG_QUANTIZE)
    as [->|]; [|destruct (Z.eqb_spec kind DTRACEAGG_LQUANTIZE) as [->|]; [|destruct (Z.eqb_spec kind
    DTRACEAGG_AVG) as [->|]; [|destruct (Z.eqb_spec kind DTRACEAGG_STDDEV) as [->|];
    [|destruct (Z.eqb_spec kind DTRACEAGG_SUM) as [->|]; [|discriminate]]]]]]]].
  all: try (injection H as <- <- <-).
  1-3: split_and!; [apply _|by apply (init_words_ok _ 1)|done..].
  1: split_and!; [apply _|by apply (init_words_ok _ 127)|done..].
  2: split_and!; [apply _|by apply (init_words_ok _ 2)|done..].
  2: split_and!; [apply _|by apply (init_words_ok _ 4)|done..].
  2: split_and!; [apply _|by apply (init_words_ok _ 1)|done..].
  destruct (Z.eqb_spec (DTRACE_LQUANTIZE_STEP arg) 0); [discriminate|].
  destruct (Z.eqb_spec (DTRACE_LQUANTIZE_LEVELS arg) 0); [discriminate|].
  injection H as <- <- <-. destruct (Hb eq_refl) as [Ha Hbase].
  split_and!; [apply _|apply init_lq_ok; (done || lia)|(done || lia)..].
Qed.

(** * The buffer *)

(** A buffer that has not been used since it was switched in holds no keys. *)
Definition entries (b : aggbuf) : list dtrace_aggkey :=
  if dtb_offset b =? 0 then [] else concat (dtagb_chains b).

Definition value_end (k : dtrace_aggkey) : Z :=
  dtak_offs k + dtak_size k + 8 * Z.of_nat (length (dtak_value k)).

(** The areas of the keys, the newest first, lie below [top] one below the other. *)
Fixpoint stacked (l : list dtrace_aggkey) (top : Z) : Prop :=
  match l with
  | [] => 0 <= top
  | k :: l => value_end k <= top /\ dtak_offs k mod 8 = 0 /\ stacked l (dtak_offs k)
  end.

Definition key_ok (k : dtrace_aggkey) : Prop :=
  agg_shape (dtak_action k) (dtak_value k) /\ 0 <= dtak_size k /\
  length (dtak_data k) = Z.to_nat (dtak_size k).

(** The table, the key descriptors below it and the areas of the keys at the
    start of the buffer do not overlap. *)
Record laid (b : aggbuf) : Prop := Laid {
  laid_table : dtagb_chains b <> [];
  laid_hash : dtagb_hash b =
    dtb_tomax b + dtb_size b - sizeof_aggbuffer - 8 * Z.of_nat (length (dtagb_chains b));
  laid_bucket : forall i c, dtagb_chains b !! i = Some c ->
    Forall (fun k => dtak_hashval k mod Z.of_nat (length (dtagb_chains b)) = Z.of_nat i) c;
  laid_keys : Forall key_ok (concat (dtagb_chains b));
  laid_areas : exists l, l ≡ₚ concat (dtagb_chains b) /\ stacked l (dtb_offset b);
  laid_free : dtagb_free b =
    dtagb_hash b - sizeof_aggkey * Z.of_nat (length (concat (dtagb_chains b)));
  laid_room : dtb_tomax b + dtb_offset b <= dtagb_free b
}.

Record buf_ok (b : aggbuf) : Prop := BufOk {
  buf_base : 4096 <= dtb_tomax b /\ 0 <= dtb_size b /\ dtb_tomax b + dtb_size b + 2 ^ 32 <= 2 ^ 64;
  buf_offset : 0 <= dtb_offset b /\ dtb_offset b mod 8 = 0
}.

Definition agg_inv (b : aggbuf) : Prop := buf_ok b /\ (dtb_offset b <> 0 -> laid b).

(** An aggregation as dtrace_ecb_aggregation_create() and dtrace_ecb_resize() leave
    it: room for the id, then the records of the tuple, then 8-byte aligned words. *)
Record agg_ok (agg : dtrace_aggregation) : Prop := AggOk {
  ok_acts : acts_from 4 (dtag_first agg) (dtag_size agg);
  ok_size : dtag_size agg < 2 ^ 28 /\ dtag_size agg mod 8 = 0;
  ok_select : exists desc_arg, agg_select (dtag_action agg) desc_arg =
      Some (dtag_aggregate agg, dtag_initial agg, dtag_rsize agg) /\
    lq_base_ok (dtag_action agg) desc_arg
}.

Lemma concat_repeat_nil {A} n : concat (repeat (@nil A) n) = [].
Proof. induction n as [|n IH]; [done|]. simpl. done. Qed.

(** Replace one chain of the table. *)
Lemma concat_insert {A} (cs : list (list A)) i c :
  cs !! i = Some c ->
  exists r, concat cs ≡ₚ c ++ r /\ forall c', concat (<[i := c']> cs) ≡ₚ c' ++ r.
Proof.
  revert i. induction cs as [|x cs IH]; intros [|i] H; try discriminate.
  - injection H as ->. exists (concat cs). split; [done|]. intros c'. done.
  - destruct (IH i H) as (r & Hr & Hi). exists (x ++ r). split.
    + simpl. rewrite Hr. by rewrite !app_assoc, (Permutation_app_comm x c).
    + intros c'. simpl. rewrite Hi. by rewrite !app_assoc, (Permutation_app_comm x c').
Qed.

Lemma concat_lookup {A} (cs : list (list A)) x :
  In x (concat cs) -> exists i c, cs !! i = Some c /\ In x c.
Proof.
  intros (c & Hc & Hx)%in_concat. apply list_elem_of_In, list_elem_of_lookup in Hc as [i Hi].
  by exists i, c.
Qed.

(** What the search and the update of a chain do. *)
Lemma chain_update_spec p f l k k' :
  find p l = Some k -> f k = Some k' ->
  exists l1 l2, l = l1 ++ k :: l2 /\ p k = true /\ chain_update p f l = Some (l1 ++ k' :: l2).
Proof.
  intros Hf Hk. induction l as [|x l IH]; [done|]. cbn [find chain_update] in *.
  destruct (p x) eqn:E.
  - injection Hf as ->. rewrite Hk. by exists [], l.
  - destruct (IH Hf) as (l1 & l2 & -> & Hp & ->). by exists (x :: l1), l2.
Qed.

Lemma agg_setup_spec b :
  agg_inv b ->
  match agg_setup b with
  | None => dtb_offset b = 0 /\ dtb_size b < 64
  | Some b' => laid b' /\ concat (dtagb_chains b') = entries b /\ dtb_tomax b' = dtb_tomax b /\
      dtb_size b' = dtb_size b /\ dtb_offset b' = dtb_offset b /\ dtb_drops b' = dtb_drops b
  end.
Proof.
  intros [[(H1 & H2 & H3) [H4 H5]] Hlaid]. unfold agg_setup, entries, sizeof_aggbuffer. cbv zeta.
  destruct (Z.eqb_spec (dtb_offset b) 0) as [H0|Hn]; [|by split_and!; [apply Hlaid|..]].
  set (n := Z.shiftr (dtb_size b) 3 / 8).
  assert (Hn : n = dtb_size b / 64).
  { unfold n. rewrite Z.shiftr_div_pow2 by lia. rewrite Z.div_div by lia. done. }
  clearbody n.
  destruct (Z.eqb_spec n 0) as [Hz|Hz]; [rewrite orb_true_r; split; lia|]. rewrite orb_false_r.
  rewrite u64_id by (rewrite !u64_id; unfold is_u; lia).
  destruct (Z.ltb_spec (u64 (dtb_tomax b + dtb_size b - 24) - n * 8) (dtb_tomax b)) as [Hlt|_].
  { rewrite u64_id in Hlt by (unfold is_u; lia). lia. }
  set (m := if _ <? n then n - DTRACE_AGGHASHSIZE_SLEW else n).
  assert (Hm : 0 < m <= n).
  { unfold m, DTRACE_AGGHASHSIZE_SLEW. change (Z.shiftl 17 3) with 136. case_match; lia. }
  clearbody m. rewrite !u64_id by (rewrite ?u64_id; unfold is_u; lia).
  split_and!; try done; [|apply concat_repeat_nil]. split; cbn.
  - intros Hr. apply (f_equal length) in Hr. rewrite repeat_length in Hr. simpl in Hr. lia.
  - rewrite repeat_length. unfold sizeof_aggbuffer. lia.
  - intros i c Hc%list_elem_of_lookup_2. apply list_elem_of_In, repeat_spec in Hc as ->. constructor.
  - rewrite concat_repeat_nil. constructor.
  - rewrite concat_repeat_nil. exists []. split; [done|]. simpl. lia.
  - rewrite concat_repeat_nil. simpl. lia.
  - lia.
Qed.

(** A key may be replaced by one with the same area. *)
Lemma stacked_replace a k k' r top :
  dtak_offs k' = dtak_offs k -> value_end k' = value_end k ->
  stacked (a ++ k :: r) top -> stacked (a ++ k' :: r) top.
Proof.
  intros Ho He. revert top. induction a as [|x a IH]; intros top; simpl.
  - by rewrite Ho, He.
  - intros (? & ? & ?). split_and!; auto.
Qed.

Lemma stacked_update l k k' r top :
  l ≡ₚ k :: r -> dtak_offs k' = dtak_offs k -> value_end k' = value_end k ->
  stacked l top -> exists l', l' ≡ₚ k' :: r /\ stacked l' top.
Proof.
  intros Hp Ho He Hs. destruct (list_elem_of_split l k) as (a & r' & ->).
  { rewrite Hp. left. }
  exists (a ++ k' :: r'). split; [|by eapply stacked_replace].
  rewrite <- Permutation_middle. rewrite <- Permutation_middle in Hp.
  apply Permutation_cons_inv in Hp. by rewrite Hp.
Qed.

(** Chain [i] is changed to [c']. *)
Lemma bucket_insert (cs : list (list dtrace_aggkey)) i c' (P : nat -> dtrace_aggkey -> Prop) :
  (forall j c, cs !! j = Some c -> Forall (P j) c) -> Forall (P i) c' ->
  forall j c, <[i := c']> cs !! j = Some c -> Forall (P j) c.
Proof.
  intros H Hc j c [(-> & <- & _)|[? Hj]]%list_lookup_insert_Some; [done|by apply H].
Qed.

Lemma laid_update b i l1 l2 k v :
  laid b -> dtagb_chains b !! i = Some (l1 ++ k :: l2) ->
  agg_shape (dtak_action k) v -> length v = length (dtak_value k) ->
  exists r, concat (dtagb_chains b) ≡ₚ k :: r /\
    concat (dtagb_chains (set_chain i (l1 ++ with_value k v :: l2) b)) ≡ₚ with_value k v :: r /\
    laid (set_chain i (l1 ++ with_value k v :: l2) b).
Proof.
  intros [H1 H2 H3 H4 (l & Hl & Hst) H6 H7] Hi Hv Hlen.
  destruct (concat_insert _ _ _ Hi) as (r & Hr & Hins).
  specialize (Hins (l1 ++ with_value k v :: l2)).
  assert (Hm : forall x, (l1 ++ x :: l2) ++ r ≡ₚ x :: (l1 ++ l2) ++ r).
  { intros x. rewrite <- !app_assoc. simpl. symmetry. apply Permutation_middle. }
  rewrite Hm in Hr. rewrite Hm in Hins.
  exists ((l1 ++ l2) ++ r). split_and!; [done|done|]. split; cbn.
  - intros E. apply (f_equal length) in E. rewrite length_insert in E. by destruct (dtagb_chains b).
  - by rewrite length_insert.
  - rewrite length_insert. eapply bucket_insert; [exact H3|].
    pose proof (H3 _ _ Hi) as Hb. rewrite !Forall_app, !Forall_cons_iff in *. exact Hb.
  - rewrite Hins. rewrite Hr in H4. apply Forall_cons_iff in H4 as [(_ & Hs & Hd) Hrest].
    constructor; [by split_and!|done].
  - rewrite Hr in Hl. assert (He : value_end (with_value k v) = value_end k) by (unfold value_end; cbn; by rewrite Hlen).
    destruct (stacked_update l k (with_value k v) _ _ Hl eq_refl He Hst) as (l' & Hl' & Hst').
    exists l'. split; [by rewrite Hins|done].
  - rewrite Hins. rewrite Hr in H6. done.
  - done.
Qed.

Lemma laid_insert b i c k :
  laid b -> dtagb_chains b !! i = Some c -> key_ok k ->
  dtak_hashval k mod Z.of_nat (length (dtagb_chains b)) = Z.of_nat i ->
  dtak_offs k = dtb_offset b -> dtb_offset b mod 8 = 0 ->
  dtb_tomax b + value_end k <= dtagb_free b - sizeof_aggkey ->
  let b' := AggBuf (dtb_tomax b) (dtb_size b) (value_end k) (dtb_drops b) (dtagb_hash b)
    (dtagb_free b - sizeof_aggkey) (<[i := k :: c]> (dtagb_chains b)) in
  concat (dtagb_chains b') ≡ₚ k :: concat (dtagb_chains b) /\ laid b'.
Proof.
  intros [H1 H2 H3 H4 (l & Hl & Hst) H6 H7] Hi Hk Hh Ho H8 Hroom b'.
  destruct (concat_insert _ _ _ Hi) as (r & Hr & Hins).
  specialize (Hins (k :: c)). simpl in Hins. rewrite <- Hr in Hins.
  split; [done|]. split; cbn.
  - intros E. apply (f_equal length) in E. rewrite length_insert in E. by destruct (dtagb_chains b).
  - by rewrite length_insert.
  - rewrite length_insert. eapply bucket_insert; [exact H3|]. constructor; [done|by apply H3].
  - rewrite Hins. by constructor.
  - exists (k :: l). split; [by rewrite Hins, Hl|]. simpl. rewrite Ho. split_and!; [lia|done|done].
  - rewrite Hins. cbn [length]. unfold sizeof_aggkey in *. lia.
  - done.
Qed.

Lemma drop_inv b : agg_inv b -> agg_inv (dtrace_buffer_drop b).
Proof. intros [[? ?] H]. split; [by split|]. intros Hn. by destruct (H Hn). Qed.

Section Refinement.
Context (agg : dtrace_aggregation) (data : list Z) (expr arg : Z).
Context (Hok : agg_ok agg) (Hdata : Z.of_nat (length data) = dtag_size agg) (Hexpr : is_u64 expr).

(** The key of a tuple met for the first time, with value [v]. *)
Definition fresh_key (offs : Z) (v : list Z) : dtrace_aggkey :=
  AggKey (agg_hashval agg data) (dtag_action agg) (dtag_size agg) offs
    (key_data (dtag_id agg) (dtag_first agg) (dtag_size agg) data) v.

(** Too little room is left for the words of a new key and its descriptor. *)
Definition agg_full (b : aggbuf) : Prop :=
  dtb_size b < 64 \/
  exists b0, agg_setup b = Some b0 /\
    dtagb_free b0 - (dtb_tomax b + dtb_offset b) < agg_fsize agg + sizeof_aggkey.

(** What one call does to the keys and the drop count; the boolean is the ILLOP flag. *)
Inductive agg_spec (b b' : aggbuf) : bool -> Prop :=
| AggHit k r v :
    entries b ≡ₚ k :: r -> is_hit agg data k = true -> dtak_action k = dtag_action agg ->
    dtag_aggregate agg (dtak_value k) expr (agg_arg agg arg) = Some v ->
    entries b' ≡ₚ with_value k v :: r -> dtb_drops b' = dtb_drops b -> agg_spec b b' false
| AggClash k :
    In k (entries b) -> is_hit agg data k = true -> dtak_action k <> dtag_action agg ->
    entries b' = entries b -> dtb_drops b' = dtb_drops b -> agg_spec b b' true
| AggNew v :
    Forall (fun k => is_hit agg data k = false) (entries b) ->
    dtag_aggregate agg (initial_value agg) expr (agg_arg agg arg) = Some v ->
    entries b' ≡ₚ fresh_key (dtb_offset b) v :: entries b -> dtb_drops b' = dtb_drops b ->
    agg_spec b b' false
| AggDrop :
    Forall (fun k => is_hit agg data k = false) (entries b) -> agg_full b ->
    entries b' = entries b -> dtb_drops b' = u32 (dtb_drops b + 1) -> agg_spec b b' false.

Lemma agg_facts :
  Aggregator (dtag_aggregate agg) (agg_shape (dtag_action agg)) /\
  agg_shape (dtag_action agg) (initial_value agg) /\
  0 < dtag_rsize agg < 2 ^ 20 /\ dtag_rsize agg mod 8 = 0 /\ 0 <= dtag_action agg < 2 ^ 4 /\
  4 <= dtag_size agg < 2 ^ 28 /\ dtag_size agg mod 8 = 0.
Proof.
  destruct Hok as [Ha [Hs1 Hs2] (darg & Hsel & Hb)].
  destruct (agg_select_ok _ _ _ _ _ Hsel Hb) as (H1 & H2 & H3 & H4 & H5).
  assert (4 <= dtag_size agg) by (eapply acts_from_le; [|exact Ha]; lia).
  split_and!; (done || lia).
Qed.

Lemma initial_length : 8 * Z.of_nat (length (initial_value agg)) = dtag_rsize agg.
Proof.
  destruct agg_facts as (_ & _ & Hr & Hm & _). unfold initial_value.
  rewrite length_insert, repeat_length. lia.
Qed.

Lemma is_hit_iff k :
  length (dtak_data k) = Z.to_nat (dtak_size k) ->
  is_hit agg data k = true <->
  dtak_hashval k = agg_hashval agg data /\ dtak_size k = dtag_size agg /\
  tuple_key (dtag_first agg) (dtak_data k) = tuple_key (dtag_first agg) data.
Proof.
  intros Hl. unfold is_hit. rewrite !andb_true_iff, !Z.eqb_eq.
  split.
  - intros [[Hh Hs] Ht]. split_and!; [done|done|]. apply tuple_match_iff; [lia|done].
  - intros (Hh & Hs & Ht). split_and!; [done|done|]. apply tuple_match_iff; [lia|done].
Qed.

(** Only the chain of the tuple's hash value can hold a hit. *)
Lemma no_hit_elsewhere b i c :
  laid b -> agg_hashval agg data mod Z.of_nat (length (dtagb_chains b)) = Z.of_nat i ->
  dtagb_chains b !! i = Some c -> find (is_hit agg data) c = None ->
  Forall (fun k => is_hit agg data k = false) (concat (dtagb_chains b)).
Proof.
  intros Hb Hi Hc Hf. apply List.Forall_forall. intros k Hk.
  destruct (concat_lookup _ _ Hk) as (j & c' & Hj & Hin).
  destruct (is_hit agg data k) eqn:E; [|done].
  assert (Hh : dtak_hashval k = agg_hashval agg data).
  { unfold is_hit in E. rewrite !andb_true_iff, !Z.eqb_eq in E. apply E. }
  pose proof (laid_bucket b Hb j c' Hj) as Hbk. rewrite List.Forall_forall in Hbk.
  specialize (Hbk k Hin). rewrite Hh in Hbk. assert (j = i) as -> by lia.
  rewrite Hc in Hj. injection Hj as <-. by rewrite (find_none _ _ Hf k Hin) in E.
Qed.

Lemma fresh_key_ok offs v :
  agg_shape (dtag_action agg) v -> length v = length (initial_value agg) ->
  key_ok (fresh_key offs v) /\ value_end (fresh_key offs v) = offs + agg_fsize agg.
Proof.
  intros Hv Hlen. destruct agg_facts as (_ & _ & Hr & _ & _ & Hs & _).
  pose proof initial_length as Hil.
  destruct (key_data_key (dtag_id agg) (dtag_first agg) data) as [Hl _].
  { rewrite Hdata. apply (ok_acts agg Hok). }
  rewrite Hdata in Hl. split.
  - split_and!; cbn; [done|lia|lia].
  - unfold value_end, agg_fsize. cbn. unfold u32. lia.
Qed.

Lemma agg_align_id offs : offs mod 8 = 0 -> agg_align offs = Some offs.
Proof.
  intros H. unfold agg_align. rewrite zloop_unroll by lia.
  assert (Z.land offs 6 = 0) as ->; [|done].
  replace 6 with (Z.land 7 6) by done. rewrite Z.land_assoc. change 7 with (2 ^ 3 - 1).
  rewrite land_ones_low by lia. change (2 ^ 3) with 8. by rewrite H.
Qed.

(** A miss on a table that is laid out. *)
Lemma agg_insert_spec b i c :
  laid b -> buf_ok b -> dtagb_chains b !! i = Some c ->
  agg_hashval agg data mod Z.of_nat (length (dtagb_chains b)) = Z.of_nat i ->
  exists b', agg_insert agg data expr arg i c b = Some b' /\
    ((dtagb_free b - (dtb_tomax b + dtb_offset b) < agg_fsize agg + sizeof_aggkey /\
      b' = dtrace_buffer_drop b) \/
     (exists v, dtag_aggregate agg (initial_value agg) expr (agg_arg agg arg) = Some v /\
      concat (dtagb_chains b') ≡ₚ fresh_key (dtb_offset b) v :: concat (dtagb_chains b) /\
      laid b' /\ buf_ok b' /\ dtb_offset b' <> 0 /\ dtb_drops b' = dtb_drops b)).
Proof.
  intros Hlaid [(B1 & B2 & B3) [B4 B5]] Hc Hi. pose proof Hlaid as [H1 H2 H3 H4 _ H6 H7].
  destruct agg_facts as (Hagg & Hsh & Hr & Hrm & Ha & Hs & Hsm).
  unfold agg_insert. rewrite agg_align_id by done.
  assert (Hf8 : agg_fsize agg mod 8 = 0 /\ 0 < agg_fsize agg < 2 ^ 29) by (unfold agg_fsize, u32; lia).
  unfold sizeof_aggkey, sizeof_aggbuffer in *. rewrite !u64_id by (unfold is_u; lia).
  destruct (Z.ltb_spec (dtagb_free b - 24) (dtb_tomax b + dtb_offset b + agg_fsize agg)) as [Hfull|Hroom].
  { eexists. split; [reflexivity|]. left. split; [lia|done]. }
  destruct (Hagg (initial_value agg) expr (agg_arg agg arg) Hexpr Hsh) as (v & Hv & Hv1 & Hv2).
  unfold apply_agg. cbn [dtak_value]. rewrite Hv. eexists. split; [reflexivity|]. right. exists v.
  destruct (fresh_key_ok (dtb_offset b) v Hv1 Hv2) as [Hk He].
  rewrite (Z.mod_small (dtag_action agg)), (Z.mod_small (dtag_size agg)) by lia.
  destruct (laid_insert b i c (fresh_key (dtb_offset b) v) Hlaid Hc Hk) as [Hp Hl'];
    [done|done|done|unfold sizeof_aggkey; lia|]. rewrite He in Hp, Hl'.
  split_and!; [done|exact Hp|exact Hl'| |cbn; lia|done]. split; cbn; lia.
Qed.

Lemma with_entries b : dtb_offset b <> 0 -> entries b = concat (dtagb_chains b).
Proof. intros H. unfold entries. by destruct (Z.eqb_spec (dtb_offset b) 0). Qed.

(** A hit or a clash on a table that is laid out. *)
Lemma agg_found_spec b i c k :
  laid b -> dtagb_chains b !! i = Some c -> find (is_hit agg data) c = Some k ->
  dtak_action k = dtag_action agg ->
  exists c' r v, chain_update (is_hit agg data) (apply_agg agg expr arg) c = Some c' /\
    dtag_aggregate agg (dtak_value k) expr (agg_arg agg arg) = Some v /\
    concat (dtagb_chains b) ≡ₚ k :: r /\
    concat (dtagb_chains (set_chain i c' b)) ≡ₚ with_value k v :: r /\ laid (set_chain i c' b).
Proof.
  intros Hlaid Hc Hf Hact. destruct agg_facts as (Hagg & _).
  assert (Hin : In k (concat (dtagb_chains b))).
  { apply in_concat. exists c. split; [by eapply list_elem_of_In, list_elem_of_lookup_2|].
    by destruct (find_some _ _ Hf). }
  pose proof (laid_keys b Hlaid) as Hkeys. rewrite List.Forall_forall in Hkeys.
  destruct (Hkeys k Hin) as (Hshape & _). rewrite Hact in Hshape.
  destruct (Hagg (dtak_value k) expr (agg_arg agg arg) Hexpr Hshape) as (v & Hv & Hv1 & Hv2).
  destruct (chain_update_spec _ (apply_agg agg expr arg) c k (with_value k v) Hf)
    as (l1 & l2 & -> & _ & Hup); [unfold apply_agg; by rewrite Hv|].
  destruct (laid_update b i l1 l2 k v Hlaid Hc) as (r & Hr & Hr' & Hl'); [by rewrite Hact|done|].
  by exists (l1 ++ with_value k v :: l2), r, v.
Qed.

Lemma dtrace_aggregate_spec b :
  agg_inv b ->
  exists b' ill, dtrace_aggregate agg data expr arg b = Some (b', ill) /\ agg_inv b' /\
    agg_spec b b' ill.
Proof.
  intros Hinv. pose proof Hinv as [[B1 B2] _]. unfold dtrace_aggregate.
  destruct (Z.eqb_spec (dtb_tomax b) 0) as [|_]; [lia|].
  pose proof (agg_setup_spec b Hinv) as Hset. destruct (agg_setup b) as [b0|] eqn:Hb0.
  2: { destruct Hset as [H0 Hsz]. eexists _, _. split; [reflexivity|]. split; [by apply drop_inv|].
       apply AggDrop; [unfold entries; rewrite H0; constructor|left; lia|done|done]. }
  destruct Hset as (Hlaid & Hent & E1 & E2 & E3 & E4).
  assert (Hbuf : buf_ok b0) by (split; rewrite ?E1, ?E2, ?E3; done).
  pose proof (laid_table b0 Hlaid) as Hne. set (n := Z.of_nat (length (dtagb_chains b0))) in *.
  assert (Hn : 0 < n) by (unfold n; destruct (dtagb_chains b0); [done|simpl; lia]).
  pose proof (Z.mod_pos_bound (agg_hashval agg data) n Hn) as Hi.
  set (i := agg_hashval agg data mod n) in *. rewrite zlookup_nat by lia.
  destruct (lookup_lt_is_Some_2 (dtagb_chains b0) (Z.to_nat i)) as [c Hc]; [lia|]. rewrite Hc.
  destruct (find (is_hit agg data) c) as [k|] eqn:Hf.
  - assert (Hink : In k (entries b)).
    { rewrite <- Hent. apply in_concat. exists c. split; [by eapply list_elem_of_In, list_elem_of_lookup_2|].
      by destruct (find_some _ _ Hf). }
    assert (Hoff : dtb_offset b <> 0) by (intros H0; unfold entries in Hink; by rewrite H0 in Hink).
    assert (Hh : is_hit agg data k = true) by (by destruct (find_some _ _ Hf)).
    destruct (Z.eqb_spec (dtag_action agg) (dtak_action k)) as [Ha|Ha]; cbn [negb].
    + destruct (agg_found_spec b0 _ c k Hlaid Hc Hf) as (c' & r & v & -> & Hv & Hr & Hr' & Hl'); [done|].
      eexists _, _. split; [reflexivity|]. split; [by split; [destruct Hbuf; by split|]|].
      rewrite Hent in Hr. apply (AggHit b _ k r v); try done.
      rewrite with_entries; [exact Hr'|cbn; lia].
    + eexists _, _. split; [reflexivity|]. split; [by split|].
      apply (AggClash b b0 k); try done. rewrite <- Hent. apply with_entries. lia.
  - assert (Hnone : Forall (fun k => is_hit agg data k = false) (entries b)).
    { rewrite <- Hent. eapply no_hit_elsewhere; [done| |exact Hc|done]. fold n i. lia. }
    destruct (agg_insert_spec b0 (Z.to_nat i) c) as (b' & -> & Hcase); [done|done|done|fold n i; lia|].
    eexists _, _. split; [reflexivity|].
    destruct Hcase as [[Hfull ->]|(v & Hv & Hp & Hl' & Hb' & Ho' & Hd')].
    + split; [apply drop_inv; by split|].
      apply AggDrop; [done|right; exists b0; rewrite <- E1, <- E3; done| |cbn; by rewrite E4].
      rewrite <- Hent. unfold entries. cbn [dtrace_buffer_drop dtb_offset dtagb_chains].
      rewrite E3. destruct (Z.eqb_spec (dtb_offset b) 0) as [H0|]; [|done].
      rewrite Hent. unfold entries. by rewrite H0.
    + split; [by split|]. apply (AggNew b b' v); [done|done| |lia].
      rewrite with_entries by done. rewrite Hp, Hent, E3. done.
Qed.
End Refinement.

(** * One aggregation as a finite map

    A buffer that holds the keys of one aggregation is a map from tuples to values. *)

Section Table.
Context (agg : dtrace_aggregation).

Definition tuple_of (data : list Z) : list (list Z) := tuple_key (dtag_first agg) data.

Definition own_key (k : dtrace_aggkey) : Prop :=
  dtak_action k = dtag_action agg /\ dtak_size k = dtag_size agg /\
  dtak_hashval k = agg_hashval agg (dtak_data k).

Definition binding (k : dtrace_aggkey) : list (list Z) * list Z := (tuple_of (dtak_data k), dtak_value k).

Definition table (b : aggbuf) : gmap (list (list Z)) (list Z) :=
  list_to_map (map binding (entries b)).

Definition table_inv (b : aggbuf) : Prop :=
  agg_inv b /\ Forall own_key (entries b) /\ NoDup (map binding (entries b)).*1.

Lemma entries_ok b : agg_inv b -> Forall key_ok (entries b).
Proof.
  intros [_ H]. unfold entries. destruct (Z.eqb_spec (dtb_offset b) 0) as [|Hn]; [constructor|].
  apply (laid_keys b (H Hn)).
Qed.

Lemma table_perm l l' :
  l ≡ₚ l' -> NoDup (map binding l).*1 ->
  NoDup (map binding l').*1 /\
  (list_to_map (map binding l) : gmap (list (list Z)) (list Z)) = list_to_map (map binding l').
Proof.
  intros Hp Hn. assert (Hm : map binding l ≡ₚ map binding l') by (by apply Permutation_map).
  split; [by rewrite <- Hm|]. by apply list_to_map_proper.
Qed.

Section Step.
Context (data : list Z) (expr arg : Z).
Context (Hok : agg_ok agg) (Hdata : Z.of_nat (length data) = dtag_size agg) (Hexpr : is_u64 expr).

(** The key of a tuple is hit by every data with that tuple. *)
Lemma own_hit k :
  key_ok k -> own_key k -> is_hit agg data k = true <-> tuple_of (dtak_data k) = tuple_of data.
Proof.
  intros (_ & _ & Hl) (_ & Hs & Hh). rewrite is_hit_iff by done. unfold tuple_of. split; [by intros (_ & _ & ?)|].
  intros Ht. split_and!; [|done|done]. rewrite Hh. by apply agg_hash_key.
Qed.

Lemma own_fresh offs v : own_key (fresh_key agg data offs v) /\ tuple_of (dtak_data (fresh_key agg data offs v)) = tuple_of data.
Proof.
  destruct (key_data_key (dtag_id agg) (dtag_first agg) data) as [_ Hk].
  { rewrite Hdata. apply (ok_acts agg Hok). }
  rewrite Hdata in Hk. split; [|done]. split_and!; [done|done|]. cbn. symmetry. by apply agg_hash_key.
Qed.

Lemma no_hit_table b :
  table_inv b -> Forall (fun k => is_hit agg data k = false) (entries b) ->
  table b !! tuple_of data = None.
Proof.
  intros (Hinv & Hown & _) Hno. apply not_elem_of_list_to_map_1.
  intros (p & Hp & Hin)%list_elem_of_fmap. apply list_elem_of_In, in_map_iff in Hin as (k & <- & Hk).
  pose proof (entries_ok b Hinv) as Hkeys. rewrite List.Forall_forall in Hkeys, Hown, Hno.
  pose proof (Hno k Hk) as Hf. cbn in Hp. symmetry in Hp.
  rewrite <- (own_hit k (Hkeys k Hk) (Hown k Hk)) in Hp. by rewrite Hp in Hf.
Qed.

(** One call is one step of the map. *)
Lemma aggregate_table_step b :
  table_inv b ->
  exists b', dtrace_aggregate agg data expr arg b = Some (b', false) /\ table_inv b' /\
    ((exists v, dtag_aggregate agg (default (initial_value agg) (table b !! tuple_of data)) expr
          (agg_arg agg arg) = Some v /\
        table b' = <[tuple_of data := v]> (table b) /\ dtb_drops b' = dtb_drops b) \/
     (table b !! tuple_of data = None /\ agg_full agg b /\ table b' = table b /\
        dtb_drops b' = u32 (dtb_drops b + 1))).
Proof.
  intros Htab. pose proof Htab as (Hinv & Hown & Hnd). pose proof (entries_ok b Hinv) as Hkeys.
  destruct (dtrace_aggregate_spec agg data expr arg Hok Hdata Hexpr b Hinv)
    as (b' & ill & -> & Hinv' & Hspec).
  destruct Hspec as [k r v Hp Hh Ha Hv Hp' Hd|k Hin Hh Ha _ _|v Hno Hv Hp' Hd|Hno Hfull He Hd].
  - exists b'. destruct (table_perm _ _ Hp Hnd) as [Hnd1 Hm]. rewrite Hp in Hown, Hkeys.
    apply Forall_cons_iff in Hown as [Hok1 Hownr]. apply Forall_cons_iff in Hkeys as [Hk1 _].
    assert (Ht : tuple_of (dtak_data k) = tuple_of data) by (by apply own_hit).
    assert (Hnd2 : NoDup (map binding (with_value k v :: r)).*1) by exact Hnd1.
    destruct (table_perm _ _ (symmetry Hp') Hnd2) as [Hnd' Hm'].
    split_and!; [done|split_and!; [done|rewrite Hp'; by constructor|done]|].
    left. exists v. unfold table. rewrite Hm, <- Hm'. cbn [map list_to_map foldr binding].
    cbn. rewrite Ht, lookup_insert_eq, insert_insert_eq. by split_and!.
  - exfalso. apply Ha. rewrite List.Forall_forall in Hown. apply (Hown k Hin).
  - exists b'. destruct (own_fresh (dtb_offset b) v) as [Hownf Htf].
    pose proof (no_hit_table b Htab Hno) as Hnone.
    assert (Hnd1 : NoDup (map binding (fresh_key agg data (dtb_offset b) v :: entries b)).*1).
    { cbn [map fmap list_fmap binding fst]. constructor; [|exact Hnd]. rewrite Htf. by apply not_elem_of_list_to_map_2 in Hnone. }
    destruct (table_perm _ _ (symmetry Hp') Hnd1) as [Hnd' Hm'].
    split_and!; [done|split_and!; [done|rewrite Hp'; by constructor|done]|].
    left. exists v. rewrite Hnone. split_and!; [done| |done].
    unfold table at 1. rewrite <- Hm'. cbn [map list_to_map foldr binding fst snd]. rewrite Htf. done.
  - exists b'. split_and!; [done|split_and!; [done|by rewrite He|by rewrite He]|].
    right. split_and!; [by apply no_hit_table|done| |done]. unfold table. by rewrite He.
Qed.
End Step.
End Table.

(** ** Sequences of calls *)

Definition agg_call : Type := list Z * Z * Z.

Fixpoint aggregate_calls (agg : dtrace_aggregation) (calls : list agg_call) (b : aggbuf)
    : option aggbuf :=
  match calls with
  | [] => Some b
  | (data, expr, arg) :: calls =>
      match dtrace_aggregate agg data expr arg b with
      | Some (b, _) => aggregate_calls agg calls b
      | None => None
      end
  end.

(** The map after the same calls. *)
Definition map_call (agg : dtrace_aggregation) (m : gmap (list (list Z)) (list Z)) (c : agg_call)
    : gmap (list (list Z)) (list Z) :=
  let '(data, expr, arg) := c in
  match dtag_aggregate agg (default (initial_value agg) (m !! tuple_of agg data)) expr
          (agg_arg agg arg) with
  | Some v => <[tuple_of agg data := v]> m
  | None => m
  end.

Definition call_ok (agg : dtrace_aggregation) (c : agg_call) : Prop :=
  Z.of_nat (length c.1.1) = dtag_size agg /\ is_u64 c.1.2.

Lemma aggregate_calls_spec agg calls b :
  agg_ok agg -> Forall (call_ok agg) calls -> table_inv agg b -> is_u32 (dtb_drops b) ->
  exists b' lost, aggregate_calls agg calls b = Some b' /\ table_inv agg b' /\
    0 <= lost <= Z.of_nat (length calls) /\ dtb_drops b' = u32 (dtb_drops b + lost) /\
    (lost = 0 -> table agg b' = fold_left (map_call agg) calls (table agg b)).
Proof.
  intros Hok. revert b. induction calls as [|[[data expr] arg] calls IH]; intros b Hc Hb Hd.
  - exists b, 0. cbn. split_and!; (done || lia || by rewrite Z.add_0_r, u32_id).
  - apply Forall_cons_iff in Hc as [[Hl He] Hc]. cbn in Hl, He.
    destruct (aggregate_table_step agg data expr arg Hok Hl He b Hb) as (b1 & Hb1 & Hinv1 & Hstep).
    assert (Hd1 : is_u32 (dtb_drops b1)).
    { destruct Hstep as [(v & _ & _ & ->)|(_ & _ & _ & ->)]; [done|apply u32_range]. }
    destruct (IH b1 Hc Hinv1 Hd1) as (b' & lost & Hrun & Hinv' & Hlost & Hdr & Htab).
    cbn [aggregate_calls fold_left length]. rewrite Hb1.
    destruct Hstep as [(v & Hv & Ht & Hsame)|(_ & _ & _ & Hdrop)].
    + exists b', lost. split_and!; [done|done|lia|lia|by rewrite Hdr, Hsame|].
      intros H0. rewrite (Htab H0), Ht. cbn [map_call]. by rewrite Hv.
    + exists b', (lost + 1). split_and!; [done|done|lia|lia| |lia]. rewrite Hdr, Hdrop. word.
Qed.

(** * Properties *)

(** One call of [dtrace_aggregate] on a buffer that holds any mix of
    aggregations always completes and keeps the buffer laid out (key areas stacked
    from the start, descriptors and table at the end, nothing overlapping).  It
    either updates the value of the one matching key, or flags ILLOP and changes
    nothing when that key belongs to another action, or adds the tuple with its
    aggregator applied to the initial value, or, when there is no room, counts a drop. *)
Theorem dtrace_aggregate_refines agg data expr arg b :
  agg_ok agg -> Z.of_nat (length data) = dtag_size agg -> is_u64 expr -> agg_inv b ->
  exists b' ill, dtrace_aggregate agg data expr arg b = Some (b', ill) /\ agg_inv b' /\
    agg_spec agg data expr arg b b' ill.
Proof. intros Hok Hd He Hb. by apply dtrace_aggregate_spec. Qed.


Definition count_agg : dtrace_aggregation :=
  Agg 1 DTRACEAGG_COUNT 8 8 [TupleAct 4 4 true] false 0 dtrace_aggregate_count.
Definition small_buf : aggbuf := AggBuf 8192 1024 0 0 0 0 [].

Lemma count_agg_ok : agg_ok count_agg.
Proof.
  split; [cbn; lia|cbn; lia|]. exists 0. split; [reflexivity|]. intros H. discriminate.
Qed.

Lemma small_buf_inv : agg_inv small_buf.
Proof. split; [split; cbn; lia|]. by intros H. Qed.

Lemma small_table_inv : table_inv count_agg small_buf.
Proof. split_and!; [apply small_buf_inv|constructor|constructor]. Qed.

Lemma dtrace_aggregate_refines_witness :
  exists b' ill, dtrace_aggregate count_agg [0; 0; 0; 0; 97; 0; 7; 7] 5 0 small_buf = Some (b', ill) /\
    agg_inv b' /\ agg_spec count_agg [0; 0; 0; 0; 97; 0; 7; 7] 5 0 small_buf b' ill.
Proof.
  apply dtrace_aggregate_refines; [apply count_agg_ok|reflexivity|unfold is_u; lia|apply small_buf_inv].
Defined.


(** The same two calls, evaluated. *)
Example aggregate_two_calls :
  option_map (fun b => (map dtak_value (entries b), dtb_drops b, dtb_offset b))
    (aggregate_calls count_agg
      [([0; 0; 0; 0; 97; 0; 7; 7], 5, 0); ([0; 0; 0; 0; 97; 0; 9; 9], 6, 0)] small_buf) =
  Some ([[2]], 0, 16).
Proof. vm_compute. reflexivity. Qed.

(** Two tuples match in a chain exactly when they agree on the bytes that
    count (strings up to their NUL), and tuples that agree have the same hash
    value; padding a stored key changes neither. *)
Theorem tuple_match_equivalence id acts data data' :
  acts_from 4 acts (Z.of_nat (length data)) -> length data' = length data ->
  let kdata := key_data id acts (Z.of_nat (length data)) data in
  (tuple_match acts kdata data' = true <-> tuple_key acts data = tuple_key acts data') /\
  (tuple_match acts kdata data' = true -> agg_hash acts data = agg_hash acts data').
Proof.
  intros Hf Hl kdata. destruct (key_data_key id acts data Hf) as [Hlk Hk].
  assert (Hm : tuple_match acts kdata data' = true <-> tuple_key acts data = tuple_key acts data').
  { unfold kdata. rewrite tuple_match_iff by congruence. by rewrite Hk. }
  split; [done|]. intros H%Hm. by apply agg_hash_key.
Qed.

Lemma tuple_match_equivalence_witness :
  let kdata := key_data 1 [TupleAct 4 4 true] 8 [0; 0; 0; 0; 97; 0; 7; 7] in
  (tuple_match [TupleAct 4 4 true] kdata [1; 1; 1; 1; 97; 0; 8; 8] = true <->
    tuple_key [TupleAct 4 4 true] [0; 0; 0; 0; 97; 0; 7; 7] =
    tuple_key [TupleAct 4 4 true] [1; 1; 1; 1; 97; 0; 8; 8]) /\
  (tuple_match [TupleAct 4 4 true] kdata [1; 1; 1; 1; 97; 0; 8; 8] = true ->
    agg_hash [TupleAct 4 4 true] [0; 0; 0; 0; 97; 0; 7; 7] =
    agg_hash [TupleAct 4 4 true] [1; 1; 1; 1; 97; 0; 8; 8]).
Proof.
  apply (tuple_match_equivalence 1 [TupleAct 4 4 true] [0; 0; 0; 0; 97; 0; 7; 7]); [cbn; lia|reflexivity].
Defined.

(** Quantize() adds its increment to exactly one of the 127 words, the one of
    the power-of-two interval the value lies in; no word is written out of range. *)
Theorem dtrace_aggregate_quantize_bucket v nval incr :
  words 127 v ->
  exists i w, in_bucket (s64 nval) i /\ v !! Z.to_nat i = Some w /\
    dtrace_aggregate_quantize v nval incr = Some (<[Z.to_nat i := u64 (w + incr)]> v).
Proof.
  intros [Hl Hv]. unfold dtrace_aggregate_quantize.
  destruct (quantize_bucket_spec nval) as (i & -> & Hi).
  destruct (add_word_spec i incr v) as (w & Hw & ->); [|by exists i, w].
  unfold in_bucket in Hi. rewrite Hl. case_match; lia.
Qed.

Lemma dtrace_aggregate_quantize_bucket_witness :
  exists i w, in_bucket (s64 1000) i /\ repeat 0 127 !! Z.to_nat i = Some w /\
    dtrace_aggregate_quantize (repeat 0 127) 1000 1 = Some (<[Z.to_nat i := u64 (w + 1)]> (repeat 0 127)).
Proof.
  apply dtrace_aggregate_quantize_bucket. split; [reflexivity|].
  apply List.Forall_forall. intros x ->%repeat_spec. unfold is_u. lia.
Defined.

(** Lquantize() adds its increment to the word of the linear interval of the
    value, with one word below and one above the range, as long as the distance
    from the base fits in an int; that word always exists. *)
Theorem dtrace_aggregate_lquantize_level arg lq nval incr :
  0 < DTRACE_LQUANTIZE_STEP arg -> 0 < DTRACE_LQUANTIZE_LEVELS arg ->
  Z.of_nat (length lq) = DTRACE_LQUANTIZE_LEVELS arg + 2 ->
  s32 nval - DTRACE_LQUANTIZE_BASE arg < 2 ^ 31 ->
  let i := lq_index arg (s32 nval) in
  exists w, lq !! Z.to_nat i = Some w /\
    dtrace_aggregate_lquantize (arg :: lq) nval incr =
      Some (arg :: <[Z.to_nat i := u64 (w + incr)]> lq).
Proof.
  intros Hs Hl Hlen Hd. destruct (lquantize_level_spec arg nval Hs Hl Hd) as [He Hr].
  unfold dtrace_aggregate_lquantize. rewrite He.
  destruct (add_word_spec (lq_index arg (s32 nval)) incr lq) as (w & Hw & ->); [lia|]. by exists w.
Qed.

Definition lq_arg (base step levels : Z) : Z := step * 2 ^ 48 + levels * 2 ^ 32 + u32 base.

Lemma dtrace_aggregate_lquantize_level_witness :
  exists w, repeat 0 12 !! Z.to_nat (lq_index (lq_arg 100 10 10) 157) = Some w /\
    dtrace_aggregate_lquantize (lq_arg 100 10 10 :: repeat 0 12) 157 1 =
      Some (lq_arg 100 10 10 ::
        <[Z.to_nat (lq_index (lq_arg 100 10 10) 157) := u64 (w + 1)]> (repeat 0 12)).
Proof.
  apply (dtrace_aggregate_lquantize_level (lq_arg 100 10 10) (repeat 0 12) 157 1); vm_compute; done.
Defined.

(** A value further than 2^31 above the base wraps the int subtraction: the
    level is negative and the increment falls outside of the value's words. *)
Theorem lquantize_level_overflow :
  lquantize_level (lq_arg (- 2 ^ 31) 1 10) 5 = Some (- 2 ^ 31 + 6) /\
  dtrace_aggregate_lquantize (lq_arg (- 2 ^ 31) 1 10 :: repeat 0 12) 5 1 = None.
Proof. split; vm_compute; reflexivity. Qed.

(** Folding stddev() over any values keeps the count, the sum and the exact
    128-bit sum of their squares. *)
Theorem dtrace_aggregate_stddev_sums vals :
  exists e2 e3, aggregate_all dtrace_aggregate_stddev vals [0; 0; 0; 0] =
      Some [u64 (Z.of_nat (length vals)); u64 (sumZ vals); e2; e3] /\ wf128 (e2, e3) /\
    val128 (e2, e3) = sumZ (map (fun n => s64 n * s64 n) vals) mod 2 ^ 128.
Proof.
  destruct (stddev_all vals 0 0 0 0) as (e0 & e1 & e2 & e3 & H & -> & -> & Hw & Hv);
    [by split|done|done|]. by exists e2, e3.
Qed.

(** The rounding of the offset uses 7 - 1 as its mask: an odd offset passes. *)
Example agg_align_odd : agg_align 1 = Some 1 /\ agg_align 2 = None.
Proof. split; vm_compute; reflexivity. Qed.
