(* ===== verification/Buffer.v ===== *)
(** Trace buffers (driver/dtrace.c, "DTrace Buffer Functions").

    Every CPU has a principal buffer; records are sequences of 4-byte aligned
    units that start with the id of the enabling (EPID) that made them.  A "switch"
    buffer is double-buffered, a "fill" buffer stops when it is full, a "ring"
    buffer overwrites its oldest records: dtrace_buffer_reserve() moves the wrapped
    offset past the records that the reservation overwrites. *)
From stdpp Require Import relations.
From S2P Require Import Prelude Dif SafeMem.

(** * Data *)

Definition DTRACEBUF_RING : Z := 0x0001.
Definition DTRACEBUF_FILL : Z := 0x0002.
Definition DTRACEBUF_NOSWITCH : Z := 0x0004.
Definition DTRACEBUF_WRAPPED : Z := 0x0008.
Definition DTRACEBUF_DROPPED : Z := 0x0010.
Definition DTRACEBUF_ERROR : Z := 0x0020.
Definition DTRACEBUF_FULL : Z := 0x0040.
Definition DTRACEBUF_CONSUMED : Z := 0x0080.
Definition DTRACEBUF_INACTIVE : Z := 0x0100.

Record dtrace_buffer := Buffer {
  dtb_offset : Z;
  dtb_size : Z;
  dtb_flags : Z;
  dtb_drops : Z;
  dtb_tomax : Z;
  dtb_xamot : Z;
  dtb_xamot_flags : Z;
  dtb_xamot_drops : Z;
  dtb_xamot_offset : Z;
  dtb_errors : Z;
  dtb_xamot_errors : Z
}.

(** What the buffers need of the consumer's state: [dts_ecbs] gives the dte_size of
    the enabling with each EPID, from 1 on. *)
Record buf_state := BufState {
  dts_activity : Z;
  dts_reserve : Z;
  dts_ecbs : list (option Z)
}.

Definition DTRACE_ACTIVITY_COOLDOWN : Z := 4.
Definition DTRACE_EPIDNONE : Z := 0.

Definition has_flag (b : dtrace_buffer) (f : Z) : bool := negb (Z.land (dtb_flags b) f =? 0).

Definition set_flags (fl : Z) (b : dtrace_buffer) : dtrace_buffer :=
  Buffer (dtb_offset b) (dtb_size b) fl (dtb_drops b) (dtb_tomax b) (dtb_xamot b)
    (dtb_xamot_flags b) (dtb_xamot_drops b) (dtb_xamot_offset b) (dtb_errors b) (dtb_xamot_errors b).

Definition set_offset (offs : Z) (b : dtrace_buffer) : dtrace_buffer :=
  Buffer offs (dtb_size b) (dtb_flags b) (dtb_drops b) (dtb_tomax b) (dtb_xamot b)
    (dtb_xamot_flags b) (dtb_xamot_drops b) (dtb_xamot_offset b) (dtb_errors b) (dtb_xamot_errors b).

Definition set_xamot_offset (offs : Z) (b : dtrace_buffer) : dtrace_buffer :=
  Buffer (dtb_offset b) (dtb_size b) (dtb_flags b) (dtb_drops b) (dtb_tomax b) (dtb_xamot b)
    (dtb_xamot_flags b) (dtb_xamot_drops b) offs (dtb_errors b) (dtb_xamot_errors b).

Definition set_drops (n : Z) (b : dtrace_buffer) : dtrace_buffer :=
  Buffer (dtb_offset b) (dtb_size b) (dtb_flags b) n (dtb_tomax b) (dtb_xamot b)
    (dtb_xamot_flags b) (dtb_xamot_drops b) (dtb_xamot_offset b) (dtb_errors b) (dtb_xamot_errors b).

(** * Kernel memory *)

Definition memory : Type := Z -> Z.

(** [DTRACE_STORE(uint32_t, ...)]. *)
Definition store32 (a v : Z) (mem : memory) : memory :=
  fun x => if (a <=? x) && (x <? a + 4) then u8 (Z.shiftr v (8 * (x - a))) else mem x.

Definition put8 (a v : Z) (mem : memory) : memory := fun x => if x =? a then u8 v else mem x.

(** bzero(). *)
Definition bzero (a n : Z) (mem : memory) : memory :=
  fun x => if (a <=? x) && (x <? a + n) then 0 else mem x.

(** * Switching, activating, dropping *)

Definition dtrace_buffer_switch (b : dtrace_buffer) : option dtrace_buffer :=
  if has_flag b DTRACEBUF_NOSWITCH || has_flag b DTRACEBUF_RING then None   (* ASSERT *)
  else
    Some (Buffer 0 (dtb_size b)
      (Z.ldiff (dtb_flags b) (Z.lor DTRACEBUF_ERROR DTRACEBUF_DROPPED)) 0
      (dtb_xamot b) (dtb_tomax b) (dtb_flags b) (dtb_drops b) (dtb_offset b) 0 (dtb_errors b)).

Definition dtrace_buffer_activate (b : dtrace_buffer) : dtrace_buffer :=
  if negb (dtb_tomax b =? 0) then set_flags (Z.ldiff (dtb_flags b) DTRACEBUF_INACTIVE) b else b.

Definition dtrace_buffer_drop (b : dtrace_buffer) : dtrace_buffer := set_drops (u32 (dtb_drops b + 1)) b.

(** * Reservation *)

(** Pad with EPIDNONE up to the alignment.  [None]: the ASSERT of the loop fails. *)
Definition pad_loop (tomax align offs : Z) (mem : memory) : option (Z * memory) :=
  match zloop (fun '(offs, mem) =>
      let off := Z.land offs (align - 1) in
      if off =? 0 then inr (Some (offs, mem))
      else if negb (Z.land (align - off) 3 =? 0) then inr None
      else inl (offs + 4, store32 (tomax + offs) DTRACE_EPIDNONE mem)) (align + 1) (offs, mem) with
  | Some r => r
  | None => None
  end.

(** [while (offs < size) tomax[offs++] = 0]. *)
Definition clear_loop (tomax size offs : Z) (mem : memory) : option memory :=
  zloop (fun '(offs, mem) =>
    if offs <? size then inl (offs + 1, put8 (tomax + offs) 0 mem) else inr mem) (size + 1) (offs, mem).

(** The size of the record at an address. *)
Definition record_size (st : buf_state) (mem : memory) (a : Z) : option Z :=
  let epid := read_le mem a 4 in
  if epid =? DTRACE_EPIDNONE then Some 4
  else match zlookup (dts_ecbs st) (epid - 1) with Some (Some sz) => Some sz | _ => None end.

(** Move the wrapped offset over the records in front of [limit].  The boolean says
    that the end of the buffer was reached; [None]: an ASSERT fails. *)
Definition advance_loop (st : buf_state) (mem : memory) (tomax size limit woffs : Z)
    : option (Z * bool) :=
  match zloop (fun woffs =>
      if woffs <? limit then
        match record_size st mem (tomax + woffs) with
        | None => inr None
        | Some sz =>
            if negb (woffs + sz <=? size) || (sz =? 0) then inr None
            else if woffs + sz =? size then inr (Some (woffs, true))
            else inl (woffs + sz)
        end
      else inr (Some (woffs, false))) (size + 1) woffs with
  | Some r => r
  | None => None
  end.

(** A ring buffer before padding: the offset to store at, the buffer, the memory. *)
Inductive ring_result :=
| RingDrop (b : dtrace_buffer)                              (** dropped: return (-1) *)
| RingAt (offs : Z) (b : dtrace_buffer) (mem : memory)
| RingFail.                                                 (** an ASSERT fails *)

(** The loop over the overwritten records and what follows it. *)
Definition ring_advance (st : buf_state) (offs total woffs : Z) (b : dtrace_buffer) (mem : memory)
    : ring_result :=
  match advance_loop st mem (dtb_tomax b) (dtb_size b) (offs + total) woffs with
  | None => RingFail
  | Some (woffs, false) => RingAt offs (set_xamot_offset woffs b) mem
  | Some (_, true) =>
      if offs =? 0 then
        let b := set_offset 0 (set_flags (Z.ldiff (dtb_flags b) DTRACEBUF_WRAPPED) b) in
        match clear_loop (dtb_tomax b) (dtb_size b) total mem with
        | None => RingFail
        | Some mem => RingAt offs (set_xamot_offset 0 b) mem
        end
      else RingAt offs (set_xamot_offset 0 b) mem
  end.

Definition ring_reserve (st : buf_state) (needed align : Z) (b : dtrace_buffer) (mem : memory)
    : ring_result :=
  let offs := dtb_offset b in
  let total := needed + Z.land offs (align - 1) in
  let wrapped := has_flag b DTRACEBUF_WRAPPED in
  if wrapped || (dtb_size b <? offs + total) then
    let woffs := dtb_xamot_offset b in
    if dtb_size b <? offs + total then
      if dtb_size b <? total then RingDrop (dtrace_buffer_drop b)
      else
        let woffs := if wrapped then (if offs <=? woffs then 0 else woffs) else 0 in
        match clear_loop (dtb_tomax b) (dtb_size b) offs mem with
        | None => RingFail
        | Some mem =>
            ring_advance st 0 needed woffs (set_flags (Z.lor (dtb_flags b) DTRACEBUF_WRAPPED) b) mem
        end
    else if woffs <? offs then RingAt offs b mem
    else ring_advance st offs total woffs b mem
  else RingAt offs b mem.

(** Set the scratch area of the mstate, unless it is NULL. *)
Definition set_scratch (base size : Z) (ms : option dtrace_mstate) : option dtrace_mstate :=
  match ms with
  | Some m => Some (MState base base size (dtms_present m) (dtms_fltoffs m) (dtms_access m) (dtms_difo m))
  | None => None
  end.

Record reservation := Resv {
  rv_offs : Z;                   (** the result; -1 on failure *)
  rv_buf : dtrace_buffer;
  rv_mem : memory;
  rv_mstate : option dtrace_mstate
}.

Definition dtrace_buffer_reserve (st : buf_state) (needed align : Z) (ms : option dtrace_mstate)
    (b : dtrace_buffer) (mem : memory) : option reservation :=
  if has_flag b DTRACEBUF_INACTIVE then Some (Resv (-1) b mem ms)
  else if dtb_tomax b =? 0 then Some (Resv (-1) (dtrace_buffer_drop b) mem ms)
  else if negb (has_flag b (Z.lor DTRACEBUF_RING DTRACEBUF_FILL)) then
    match pad_loop (dtb_tomax b) align (dtb_offset b) mem with
    | None => None
    | Some (offs, mem) =>
        let soffs := offs + needed in
        if dtb_size b <? soffs then Some (Resv (-1) (dtrace_buffer_drop b) mem ms)
        else Some (Resv offs b mem (set_scratch (dtb_tomax b + soffs) (dtb_size b - soffs) ms))
    end
  else if has_flag b DTRACEBUF_FILL && negb (dts_activity st =? DTRACE_ACTIVITY_COOLDOWN) &&
          has_flag b DTRACEBUF_FULL then Some (Resv (-1) b mem ms)
  else
    match (if has_flag b DTRACEBUF_FILL then RingAt (dtb_offset b) b mem
           else ring_reserve st needed align b mem) with
    | RingFail => None
    | RingDrop b => Some (Resv (-1) b mem ms)
    | RingAt offs b mem =>
        match pad_loop (dtb_tomax b) align offs mem with
        | None => None
        | Some (offs, mem) =>
            if has_flag b DTRACEBUF_FILL && (u64 (dtb_size b - dts_reserve st) <? offs + needed) then
              Some (Resv (-1) (set_flags (Z.lor (dtb_flags b) DTRACEBUF_FULL) b) mem ms)
            else Some (Resv offs b mem (set_scratch (dtb_xamot b) (dtb_size b) ms))
        end
    end.

(** * Consumption of a ring buffer *)

Definition dtrace_buffer_polish (b : dtrace_buffer) (mem : memory) : option memory :=
  if negb (has_flag b DTRACEBUF_RING) then None   (* ASSERT *)
  else if negb (has_flag b DTRACEBUF_WRAPPED) then Some mem
  else
    let mem := if dtb_offset b <? dtb_xamot_offset b
      then bzero (dtb_tomax b + dtb_offset b) (dtb_xamot_offset b - dtb_offset b) mem else mem in
    let mem := if dtb_xamot_offset b <? dtb_offset b
      then bzero (dtb_tomax b) (dtb_xamot_offset b)
             (bzero (dtb_tomax b + dtb_offset b) (dtb_size b - dtb_offset b) mem) else mem in
    Some mem.

(** * Allocation

    [live] holds the live allocations; [pick] is the allocator's choice of an
    address for a KM_NOSLEEP allocation, 0 when it fails. *)

Definition ENOMEM : Z := 12.
Definition EFBIG : Z := 27.
Definition dtrace_nonroot_maxsize : Z := 16 * 1024 * 1024.
Definition DTRACE_CPUALL : Z := -1.

Definition live_heap : Type := list (Z * Z).

(** [None]: not a live allocation of that size. *)
Fixpoint kmem_free (a size : Z) (live : live_heap) : option live_heap :=
  match live with
  | [] => None
  | (b, n) :: live =>
      if (a =? b) && (size =? n) then Some live
      else match kmem_free a size live with Some live => Some ((b, n) :: live) | None => None end
  end.

Section Alloc.
Context (pick : Z -> live_heap -> Z).

Definition kmem_zalloc (size : Z) (live : live_heap) : Z * live_heap :=
  let a := pick size live in if a =? 0 then (0, live) else (a, (a, size) :: live).

Definition alloc_state : Type := list dtrace_buffer * live_heap.

(** One CPU of the allocation loop; the boolean is false on [goto err].  [None]: an
    ASSERT fails. *)
Definition alloc_one (size flags cpu cp : Z) (s : alloc_state) : option (alloc_state * bool) :=
  let '(bufs, live) := s in
  if negb (cpu =? DTRACE_CPUALL) && negb (cpu =? cp) then Some (s, true)
  else
    match zlookup bufs cp with
    | None => None
    | Some b =>
        if negb (dtb_tomax b =? 0) then (if dtb_size b =? size then Some (s, true) else None)
        else if negb (dtb_xamot b =? 0) then None
        else
          let '(tomax, live) := kmem_zalloc size live in
          if tomax =? 0 then Some (s, false)
          else
            let b := Buffer 0 size flags 0 tomax (dtb_xamot b) (dtb_xamot_flags b)
              (dtb_xamot_drops b) (dtb_xamot_offset b) (dtb_errors b) (dtb_xamot_errors b) in
            if negb (Z.land flags DTRACEBUF_NOSWITCH =? 0)
            then Some ((<[Z.to_nat cp := b]> bufs, live), true)
            else
              let '(xamot, live) := kmem_zalloc size live in
              let b := Buffer 0 size flags 0 tomax xamot (dtb_xamot_flags b)
                (dtb_xamot_drops b) (dtb_xamot_offset b) (dtb_errors b) (dtb_xamot_errors b) in
              Some ((<[Z.to_nat cp := b]> bufs, live), negb (xamot =? 0))
    end.

Fixpoint alloc_all (size flags cpu : Z) (cpus : list Z) (s : alloc_state)
    : option (alloc_state * bool) :=
  match cpus with
  | [] => Some (s, true)
  | cp :: cpus =>
      match alloc_one size flags cpu cp s with
      | Some (s, true) => alloc_all size flags cpu cpus s
      | r => r
      end
  end.

(** One CPU of the loop at [err:]. *)
Definition undo_one (size cpu cp : Z) (s : alloc_state) : option alloc_state :=
  let '(bufs, live) := s in
  if negb (cpu =? DTRACE_CPUALL) && negb (cpu =? cp) then Some s
  else
    match zlookup bufs cp with
    | None => None
    | Some b =>
        let freed :=
          if negb (dtb_xamot b =? 0) then
            if (dtb_tomax b =? 0) || negb (dtb_size b =? size) then None
            else kmem_free (dtb_xamot b) size live
          else Some live in
        match freed with
        | None => None
        | Some live =>
            let freed :=
              if negb (dtb_tomax b =? 0) then
                if negb (dtb_size b =? size) then None else kmem_free (dtb_tomax b) size live
              else Some live in
            match freed with
            | None => None
            | Some live =>
                let b := Buffer (dtb_offset b) 0 (dtb_flags b) (dtb_drops b) 0 0 (dtb_xamot_flags b)
                  (dtb_xamot_drops b) (dtb_xamot_offset b) (dtb_errors b) (dtb_xamot_errors b) in
                Some (<[Z.to_nat cp := b]> bufs, live)
            end
        end
    end.

Fixpoint undo_all (size cpu : Z) (cpus : list Z) (s : alloc_state) : option alloc_state :=
  match cpus with
  | [] => Some s
  | cp :: cpus => match undo_one size cpu cp s with Some s => undo_all size cpu cpus s | None => None end
  end.

(** [cpus] is cpu_list in order; [priv] the result of the privilege check. *)
Definition dtrace_buffer_alloc (priv : bool) (cpus : list Z) (size flags cpu : Z) (s : alloc_state)
    : option (Z * alloc_state) :=
  if (dtrace_nonroot_maxsize <? size) && negb priv then Some (EFBIG, s)
  else
    match alloc_all size flags cpu cpus s with
    | None => None
    | Some (s, true) => Some (0, s)
    | Some (s, false) =>
        match undo_all size cpu cpus s with Some s => Some (ENOMEM, s) | None => None end
    end.
End Alloc.

(** One CPU of dtrace_buffer_free(). *)
Definition free_one (b : dtrace_buffer) (live : live_heap) : option (dtrace_buffer * live_heap) :=
  if dtb_tomax b =? 0 then
    if (dtb_xamot b =? 0) && (dtb_size b =? 0) then Some (b, live) else None
  else
    let freed :=
      if negb (dtb_xamot b =? 0) then
        if has_flag b DTRACEBUF_NOSWITCH then None else kmem_free (dtb_xamot b) (dtb_size b) live
      else Some live in
    match freed with
    | None => None
    | Some live =>
        match kmem_free (dtb_tomax b) (dtb_size b) live with
        | None => None
        | Some live =>
            Some (Buffer (dtb_offset b) 0 (dtb_flags b) (dtb_drops b) 0 0 (dtb_xamot_flags b)
              (dtb_xamot_drops b) (dtb_xamot_offset b) (dtb_errors b) (dtb_xamot_errors b), live)
        end
    end.

Fixpoint dtrace_buffer_free (bufs : list dtrace_buffer) (live : live_heap)
    : option (list dtrace_buffer * live_heap) :=
  match bufs with
  | [] => Some ([], live)
  | b :: bufs =>
      match free_one b live with
      | None => None
      | Some (b, live) =>
          match dtrace_buffer_free bufs live with
          | None => None
          | Some (bufs, live) => Some (b :: bufs, live)
          end
      end
  end.

(** * Records in a buffer *)

Section Ring.
Context (st : buf_state) (maxsz : Z).

(** Every enabling makes records of a positive number of 4-byte units. *)
Definition ecbs_ok : Prop :=
  4 <= maxsz /\ Forall (fun o => match o with Some sz => 4 <= sz <= maxsz /\ sz mod 4 = 0 | None => True end)
    (dts_ecbs st).

Context (Hecbs : ecbs_ok).

(** [lo, hi) of the area at [base] is a sequence of whole records and padding. *)
Inductive recs (mem : memory) (base : Z) : Z -> Z -> Prop :=
| recs_nil a : recs mem base a a
| recs_cons a sz b :
    record_size st mem (base + a) = Some sz -> recs mem base (a + sz) b -> recs mem base a b.

Lemma record_size_ok mem a sz : record_size st mem a = Some sz -> 4 <= sz <= maxsz /\ sz mod 4 = 0.
Proof.
  destruct Hecbs as [Hm Hall]. unfold record_size. cbv zeta. destruct (_ =? _).
  - intros [= <-]. split; [lia|done].
  - destruct (zlookup _ _) as [[x|]|] eqn:E; try discriminate. intros [= <-].
    unfold zlookup in E. destruct (_ && _); [|discriminate].
    apply list_elem_of_lookup_2, list_elem_of_In in E. rewrite List.Forall_forall in Hall.
    apply (Hall _ E).
Qed.

Lemma recs_le mem base a b : recs mem base a b -> a <= b /\ (b - a) mod 4 = 0.
Proof.
  induction 1 as [a|a sz b Hs _ IH]; [split; [lia|by rewrite Z.sub_diag]|].
  apply record_size_ok in Hs. lia.
Qed.

Lemma recs_app mem base a b c : recs mem base a b -> recs mem base b c -> recs mem base a c.
Proof. induction 1; [done|]. intros. econstructor; eauto. Qed.

Lemma read_le_ext mem mem' a n :
  (forall x, a <= x < a + Z.of_nat n -> mem' x = mem x) -> read_le mem' a n = read_le mem a n.
Proof.
  revert a. induction n as [|n IH]; intros a H; [done|]. cbn [read_le].
  rewrite H, IH by (lia || (intros; apply H; lia)). done.
Qed.

Lemma record_size_ext mem mem' a :
  (forall x, a <= x < a + 4 -> mem' x = mem x) -> record_size st mem' a = record_size st mem a.
Proof. intros H. unfold record_size. by rewrite (read_le_ext mem mem'). Qed.

Lemma recs_ext mem mem' base a b :
  recs mem base a b -> (forall x, a <= x < b -> mem' (base + x) = mem (base + x)) ->
  recs mem' base a b.
Proof.
  induction 1 as [a|a sz b Hs Hr IH]; intros H; [constructor|].
  pose proof (record_size_ok _ _ _ Hs). pose proof (recs_le _ _ _ _ Hr).
  apply (recs_cons _ _ a sz).
  - rewrite <- Hs. apply record_size_ext. intros x Hx.
    replace x with (base + (x - base)) by lia. apply H. lia.
  - apply IH. intros x Hx. apply H. lia.
Qed.

(** Zeroes are padding. *)
Lemma recs_zero mem base a b :
  a <= b -> (b - a) mod 4 = 0 -> (forall x, a <= x < b -> mem (base + x) = 0) -> recs mem base a b.
Proof.
  intros Hle Hm Hz. assert (Hn : b = a + 4 * Z.of_nat (Z.to_nat ((b - a) / 4))) by lia.
  set (n := Z.to_nat ((b - a) / 4)) in Hn. clearbody n.
  revert a Hle Hm Hz Hn. induction n as [|n IH]; intros a Hle Hm Hz Hn.
  - replace b with a by lia. constructor.
  - apply (recs_cons _ _ a 4).
    + unfold record_size. assert (read_le mem (base + a) 4 = 0) as ->; [|done].
      cbn [read_le]. rewrite <- !Z.add_assoc. rewrite !Hz by lia. done.
    + apply IH; [lia|lia| |lia]. intros. apply Hz. lia.
Qed.

(** * The loops of dtrace_buffer_reserve() *)

Lemma clear_loop_spec tomax size offs mem :
  0 <= offs <= size ->
  exists mem', clear_loop tomax size offs mem = Some mem' /\
    forall x, mem' (tomax + x) = if (offs <=? x) && (x <? size) then 0 else mem (tomax + x).
Proof.
  intros Ho. unfold clear_loop.
  apply (zloop_down (fun k '(o, m) => offs <= o <= size /\ k = size - o /\
    forall x, m (tomax + x) = if (offs <=? x) && (x <? o) then 0 else mem (tomax + x)))
    with (k := size - offs); [| |lia].
  - intros k [o m] (Hoo & -> & Hm). split; [lia|]. destruct (Z.ltb_spec o size) as [Hlt|Hge].
    + split_and!; [lia|lia|lia|]. intros x. unfold put8.
      destruct (Z.eqb_spec (tomax + x) (tomax + o)) as [He|Hne].
      * destruct (Z.leb_spec offs x), (Z.ltb_spec x (o + 1)); (reflexivity || lia).
      * rewrite Hm. destruct (Z.leb_spec offs x), (Z.ltb_spec x (o + 1)), (Z.ltb_spec x o); (done || lia).
    + replace o with size in * by lia. exact Hm.
  - split_and!; [lia..|]. intros x. destruct (Z.leb_spec offs x), (Z.ltb_spec x offs); (done || lia).
Qed.

Definition align_ok (align : Z) : Prop := align = 1 \/ align = 2 \/ align = 4 \/ align = 8.

Lemma land_align align offs :
  align_ok align -> offs mod 4 = 0 ->
  Z.land offs (align - 1) = if align =? 8 then offs mod 8 else 0.
Proof.
  intros Ha Ho.
  assert (H : exists n, align = 2 ^ n /\ 0 <= n <= 3)
    by (destruct Ha as [->|[->|[->| ->]]]; [exists 0|exists 1|exists 2|exists 3]; (done || lia)).
  destruct H as (n & -> & Hn). rewrite land_ones_low by lia.
  assert (n = 0 \/ n = 1 \/ n = 2 \/ n = 3) as [->|[->|[->| ->]]] by lia; simpl; lia.
Qed.

Lemma store32_zero a mem x :
  store32 a 0 mem x = if (a <=? x) && (x <? a + 4) then 0 else mem x.
Proof. unfold store32. rewrite Z.shiftr_0_l. done. Qed.

Lemma pad_loop_spec tomax align offs mem :
  align_ok align -> offs mod 4 = 0 ->
  let off := Z.land offs (align - 1) in
  exists mem', pad_loop tomax align offs mem = Some (offs + off, mem') /\
    (off = 0 \/ off = 4) /\ Z.land (offs + off) (align - 1) = 0 /\ (offs + off) mod 4 = 0 /\
    forall x, mem' (tomax + x) = if (offs <=? x) && (x <? offs + off) then 0 else mem (tomax + x).
Proof.
  intros Ha Ho off. assert (Hoff : off = if align =? 8 then offs mod 8 else 0) by (by apply land_align).
  unfold pad_loop. assert (0 < align) by (destruct Ha as [->|[->|[->| ->]]]; lia).
  rewrite zloop_unroll by lia. fold off. cbv zeta. destruct (Z.eqb_spec off 0) as [H0|Hn0].
  { exists mem. rewrite H0, Z.add_0_r. split_and!; [done|lia|done|done|].
    intros x. destruct (Z.leb_spec offs x), (Z.ltb_spec x offs); (done || lia). }
  assert (H8 : align = 8 /\ off = 4) by (destruct (Z.eqb_spec align 8); lia).
  destruct H8 as [-> H4]. change (8 =? 8) with true in Hoff. cbv iota in Hoff. rewrite H4. change (negb (Z.land (8 - 4) 3 =? 0)) with false. cbv iota.
  rewrite zloop_unroll by lia.
  assert (Hl : Z.land (offs + 4) (8 - 1) = 0).
  { rewrite land_align by (lia || (unfold align_ok; lia)). change (8 =? 8) with true. cbv iota. lia. }
  rewrite Hl. cbn [Z.eqb]. eexists. split; [reflexivity|]. split_and!; [lia|done|lia|].
  intros x. unfold DTRACE_EPIDNONE. rewrite store32_zero.
  destruct (Z.leb_spec offs x), (Z.leb_spec (tomax + offs) (tomax + x)); try lia;
    destruct (Z.ltb_spec x (offs + 4)), (Z.ltb_spec (tomax + x) (tomax + offs + 4)); (done || lia).
Qed.

Lemma advance_loop_spec mem tomax size limit woffs e :
  recs mem tomax woffs e -> 0 <= woffs -> limit <= e <= size ->
  exists w, recs mem tomax w e /\ woffs <= w /\
    ((advance_loop st mem tomax size limit woffs = Some (w, false) /\ limit <= w /\
      (w = woffs \/ w < limit + maxsz)) \/
     (advance_loop st mem tomax size limit woffs = Some (w, true) /\ e = size /\ w < limit /\
      size <= w + maxsz)).
Proof.
  intros Hr H0 Hl. unfold advance_loop.
  edestruct (zloop_total (fun w => woffs <= w <= e /\ recs mem tomax w e /\
      (w = woffs \/ w < limit + maxsz)) (fun w => size - w)
    (fun r => exists w fin, r = Some (w, fin) /\ recs mem tomax w e /\ woffs <= w /\
      (if fin : bool then e = size /\ w < limit /\ size <= w + maxsz else limit <= w /\ (w = woffs \/ w < limit + maxsz))))
    with (n := size + 1) (s := woffs) as (r & -> & w & fin & -> & Hw & Hle & Hfin).
  - intros w (Hw & Hrw & Hmax). split; [lia|].
    destruct (Z.ltb_spec w limit) as [Hlt|Hge]; [|exists w, false; split_and!; (done || lia)].
    inversion Hrw as [|? sz ? Hs Hrest]; subst; [lia|]. rewrite Hs.
    pose proof (record_size_ok _ _ _ Hs). pose proof (recs_le _ _ _ _ Hrest).
    destruct (Z.leb_spec (w + sz) size); [|lia]. destruct (Z.eqb_spec sz 0); [lia|]. simpl orb. cbv iota.
    destruct (Z.eqb_spec (w + sz) size) as [He|Hne].
    + exists w, true. split_and!; (done || lia).
    + split_and!; (done || lia).
  - pose proof (recs_le _ _ _ _ Hr). split_and!; (done || lia || auto).
  - lia.
  - exists w. split_and!; [done|done|]. destruct fin; [right|left]; split_and!; (done || lia).
Qed.

(** * The invariant of a ring buffer *)

(** What the area holds: a ring that has not wrapped holds records up to the offset.
    One that has wrapped holds the old records from the wrapped offset to the end and
    the new ones from the start to the offset; when the wrapped offset is behind the
    offset, all that is left lies between them. *)
Definition ring_data (wrapped : bool) (mem : memory) (tomax size offs woffs : Z) : Prop :=
  if wrapped then
    0 < offs /\ 0 <= woffs <= size /\
    if offs <=? woffs then recs mem tomax woffs size /\ recs mem tomax 0 offs
    else recs mem tomax woffs offs
  else recs mem tomax 0 offs.

Record ring_inv (b : dtrace_buffer) (mem : memory) : Prop := RingInv {
  ri_ring : has_flag b DTRACEBUF_RING = true;
  ri_fill : has_flag b DTRACEBUF_FILL = false;
  ri_active : has_flag b DTRACEBUF_INACTIVE = false;
  ri_tomax : 0 < dtb_tomax b;
  ri_size : dtb_size b mod 8 = 0;
  ri_offset : 0 <= dtb_offset b <= dtb_size b /\ dtb_offset b mod 4 = 0;
  ri_data : ring_data (has_flag b DTRACEBUF_WRAPPED) mem (dtb_tomax b) (dtb_size b)
    (dtb_offset b) (dtb_xamot_offset b)
}.

(** Memory may have changed in [lo, hi) of the area only. *)
Definition same_outside (base lo hi : Z) (mem mem' : memory) : Prop :=
  forall x, ~ (lo <= x < hi) -> mem' (base + x) = mem (base + x).

Lemma recs_outside mem mem' base lo hi a b :
  same_outside base lo hi mem mem' -> b <= lo \/ hi <= a -> recs mem base a b -> recs mem' base a b.
Proof. intros Hs Hd Hr. eapply recs_ext; [exact Hr|]. intros x Hx. apply Hs. lia. Qed.

(** [offs, offs + total) may be written: the ring stays well-formed whether the
    caller gives the space up or moves the offset over records stored there. *)
Definition room_for (wrapped : bool) (mem : memory) (tomax size offset woffs offs total : Z) : Prop :=
  forall mem', same_outside tomax offs (offs + total) mem mem' ->
    ring_data wrapped mem' tomax size offset woffs /\
    forall e, offs < e <= offs + total -> recs mem' tomax offs e ->
      ring_data wrapped mem' tomax size e woffs.

Lemma room_unwrapped mem tomax size offset woffs total :
  ring_data false mem tomax size offset woffs ->
  room_for false mem tomax size offset woffs offset total.
Proof.
  intros Hd mem' Hs. assert (Hd' : recs mem' tomax 0 offset).
  { eapply recs_outside; [exact Hs| |exact Hd]. lia. }
  split; [exact Hd'|]. intros e He Hr. by eapply recs_app.
Qed.

Lemma room_behind mem tomax size offset woffs total :
  ring_data true mem tomax size offset woffs -> woffs < offset ->
  room_for true mem tomax size offset woffs offset total.
Proof.
  intros (H0 & Hw & Hd) Hlt mem' Hs. destruct (Z.leb_spec offset woffs); [lia|].
  assert (Hd' : recs mem' tomax woffs offset).
  { eapply recs_outside; [exact Hs| |exact Hd]. lia. }
  split.
  - split_and!; [lia..|]. by destruct (Z.leb_spec offset woffs); [lia|].
  - intros e He Hr. split_and!; [lia..|]. destruct (Z.leb_spec e woffs); [lia|]. by eapply recs_app.
Qed.

(** The wrapped offset was moved in front of the reservation, to [w]. *)
Lemma room_ahead mem tomax size offset w total :
  0 < offset -> 0 <= total -> recs mem tomax 0 offset -> recs mem tomax w size -> offset + total <= w ->
  room_for true mem tomax size offset w offset total.
Proof.
  intros H0 Ht Hd Hw Hle mem' Hs. pose proof (recs_le _ _ _ _ Hw).
  assert (Hw' : recs mem' tomax w size) by (eapply recs_outside; [exact Hs| |exact Hw]; lia).
  assert (Hd' : recs mem' tomax 0 offset) by (eapply recs_outside; [exact Hs| |exact Hd]; lia).
  split.
  - split_and!; [lia..|]. by destruct (Z.leb_spec offset w); [|lia].
  - intros e He Hr. split_and!; [lia..|]. destruct (Z.leb_spec e w); [|lia].
    split; [done|]. by eapply recs_app.
Qed.

(** The reservation is at the start; the records from [w] on are kept. *)
Lemma room_start mem tomax size offset w total :
  0 <= total <= w -> w < offset <= size ->
  recs mem tomax w offset -> recs mem tomax offset size ->
  room_for true mem tomax size offset w 0 total.
Proof.
  intros Ht Hw Hd Hz mem' Hs.
  assert (Hd' : recs mem' tomax w offset) by (eapply recs_outside; [exact Hs| |exact Hd]; lia).
  assert (Hz' : recs mem' tomax offset size) by (eapply recs_outside; [exact Hs| |exact Hz]; lia).
  split.
  - split_and!; [lia..|]. by destruct (Z.leb_spec offset w); [lia|].
  - intros e He Hr. split_and!; [lia..|]. destruct (Z.leb_spec e w); [|lia].
    split; [by eapply recs_app|done].
Qed.

(** ** Flags *)

Lemma has_flag_bit n b : 0 <= n -> has_flag b (2 ^ n) = Z.testbit (dtb_flags b) n.
Proof.
  intros Hn. unfold has_flag. destruct (Z.testbit (dtb_flags b) n) eqn:E.
  - destruct (Z.eqb_spec (Z.land (dtb_flags b) (2 ^ n)) 0) as [H|]; [|done].
    apply (f_equal (fun z => Z.testbit z n)) in H.
    by rewrite Z.land_spec, Z.pow2_bits_true, E, Z.bits_0 in H.
  - assert (Z.land (dtb_flags b) (2 ^ n) = 0) as ->; [|done].
    apply Z.bits_inj'. intros i Hi. rewrite Z.land_spec, Z.bits_0.
    destruct (Z.eq_dec n i) as [->|Hne]; [by rewrite E|].
    by rewrite Z.pow2_bits_false, andb_false_r by done.
Qed.

Lemma has_flag_set n m b :
  0 <= n -> 0 <= m -> has_flag (set_flags (Z.lor (dtb_flags b) (2 ^ m)) b) (2 ^ n) = has_flag b (2 ^ n) || (m =? n).
Proof. intros. rewrite !has_flag_bit by done. cbn. by rewrite Z.lor_spec, Z.pow2_bits_eqb by done. Qed.

Lemma has_flag_clear n m b :
  0 <= n -> 0 <= m ->
  has_flag (set_flags (Z.ldiff (dtb_flags b) (2 ^ m)) b) (2 ^ n) = has_flag b (2 ^ n) && negb (m =? n).
Proof. intros. rewrite !has_flag_bit by done. cbn. by rewrite Z.ldiff_spec, Z.pow2_bits_eqb by done. Qed.

Lemma has_ring_fill b :
  has_flag b (Z.lor DTRACEBUF_RING DTRACEBUF_FILL) = has_flag b DTRACEBUF_RING || has_flag b DTRACEBUF_FILL.
Proof.
  unfold has_flag. rewrite Z.land_lor_distr_r.
  destruct (Z.eqb_spec (Z.land (dtb_flags b) DTRACEBUF_RING) 0) as [->|H1].
  - by rewrite Z.lor_0_l.
  - destruct (Z.eqb_spec (Z.lor (Z.land (dtb_flags b) DTRACEBUF_RING) (Z.land (dtb_flags b) DTRACEBUF_FILL)) 0)
      as [H|]; [|done]. by apply Z.lor_eq_0_iff in H as [? _].
Qed.

(** ** Reserving in a ring buffer *)

Section Reserve.
Context (needed align : Z) (Halign : align_ok align) (Hneeded : 0 <= needed).

Definition total_at (offs : Z) : Z := needed + Z.land offs (align - 1).

(** The buffer is as [b0], but for its wrapped flag and offsets. *)
Definition same_ring (b0 b : dtrace_buffer) : Prop :=
  dtb_tomax b = dtb_tomax b0 /\ dtb_size b = dtb_size b0 /\ dtb_xamot b = dtb_xamot b0 /\
  dtb_drops b = dtb_drops b0 /\ dtb_offset b = dtb_offset b0 /\
  forall n, 0 <= n -> n <> 3 -> has_flag b (2 ^ n) = has_flag b0 (2 ^ n).

Definition ring_ready (b0 : dtrace_buffer) (offs : Z) (b : dtrace_buffer) (mem : memory) : Prop :=
  same_ring b0 b /\ 0 <= offs /\ offs mod 4 = 0 /\ offs + total_at offs <= dtb_size b /\
  room_for (has_flag b DTRACEBUF_WRAPPED) mem (dtb_tomax b) (dtb_size b) (dtb_offset b)
    (dtb_xamot_offset b) offs (total_at offs).

Lemma same_ring_refl b : same_ring b b.
Proof. by split_and!. Qed.

Lemma same_ring_xamot b w : same_ring b (set_xamot_offset w b).
Proof. by split_and!. Qed.

Lemma same_ring_wrapped b w : same_ring b (set_xamot_offset w (set_flags (Z.lor (dtb_flags b) DTRACEBUF_WRAPPED) b)).
Proof.
  split_and!; try done. intros n Hn H3. change DTRACEBUF_WRAPPED with (2 ^ 3).
  change (has_flag (set_flags (Z.lor (dtb_flags b) (2 ^ 3)) b) (2 ^ n) = has_flag b (2 ^ n)).
  rewrite has_flag_set by lia. destruct (Z.eqb_spec 3 n); [lia|]. by rewrite orb_false_r.
Qed.

Lemma total_range offs : offs mod 4 = 0 -> needed <= total_at offs <= needed + 4.
Proof.
  intros Ho. unfold total_at. destruct (pad_loop_spec 0 align offs (fun _ => 0) Halign Ho) as (_ & _ & H & _).
  lia.
Qed.

Lemma recs_upto_size mem base a o size :
  recs mem base a o -> o mod 4 = 0 -> size mod 8 = 0 -> o <= size ->
  (forall x, o <= x < size -> mem (base + x) = 0) -> recs mem base o size.
Proof. intros _ Ho Hs Hle Hz. apply recs_zero; [done|lia|done]. Qed.

(** The reservation does not fit behind the offset: clear and start at 0. *)
Lemma ring_wraps b mem :
  ring_inv b mem -> 2 * needed + maxsz + 4 <= dtb_size b ->
  dtb_size b < dtb_offset b + total_at (dtb_offset b) ->
  exists offs b' mem', ring_reserve st needed align b mem = RingAt offs b' mem' /\ ring_ready b offs b' mem'.
Proof.
  intros [H1 H2 H3 H4 H5 [H6 H7] H8] Hbound Hno. pose proof (total_range _ H7) as Ht.
  destruct Hecbs as [Hmax _].
  unfold ring_reserve. cbv zeta. fold (total_at (dtb_offset b)).
  destruct (Z.ltb_spec (dtb_size b) (dtb_offset b + total_at (dtb_offset b))); [|lia].
  rewrite orb_true_r. destruct (Z.ltb_spec (dtb_size b) (total_at (dtb_offset b))); [lia|].
  destruct (clear_loop_spec (dtb_tomax b) (dtb_size b) (dtb_offset b) mem H6) as (mem1 & -> & Hm1).
  set (wr := has_flag b DTRACEBUF_WRAPPED) in *.
  set (wo := if wr then (if dtb_offset b <=? dtb_xamot_offset b then 0 else dtb_xamot_offset b) else 0).
  assert (Hkeep : recs mem1 (dtb_tomax b) wo (dtb_offset b) /\ 0 <= wo < dtb_offset b).
  { assert (Hr : recs mem (dtb_tomax b) wo (dtb_offset b) /\ 0 <= wo < dtb_offset b).
    { unfold wo, ring_data in *. destruct wr; [|split; [done|lia]].
      destruct H8 as (? & ? & H8). destruct (Z.leb_spec (dtb_offset b) (dtb_xamot_offset b)); [|split; [done|lia]].
      split; [apply H8|lia]. }
    destruct Hr as [Hr Hw]. split; [|done]. eapply recs_ext; [exact Hr|]. intros x Hx. rewrite Hm1.
    destruct (Z.leb_spec (dtb_offset b) x); [lia|done]. }
  assert (Hz : recs mem1 (dtb_tomax b) (dtb_offset b) (dtb_size b)).
  { apply recs_zero; [lia|lia|]. intros x Hx. rewrite Hm1.
    by destruct (Z.leb_spec (dtb_offset b) x), (Z.ltb_spec x (dtb_size b)); try lia. }
  clearbody wo. destruct Hkeep as [Hkeep Hwo]. unfold ring_advance.
  destruct (advance_loop_spec mem1 (dtb_tomax b) (dtb_size b) (0 + needed) wo (dtb_offset b) Hkeep)
    as (w & Hw & Hle & Hcase); [lia|lia|].
  cbn [dtb_tomax dtb_size set_flags].
  destruct Hcase as [(-> & Hlim & Hnear)|(_ & He & Hlw & Hend)]; [|lia].
  eexists _, _, _. split; [reflexivity|]. split; [apply same_ring_wrapped|]. unfold total_at.
  rewrite Z.land_0_l, Z.add_0_r. split_and!; [lia|done|cbn; lia|].
  assert (has_flag (set_xamot_offset w (set_flags (Z.lor (dtb_flags b) DTRACEBUF_WRAPPED) b))
    DTRACEBUF_WRAPPED = true) as ->.
  { change (has_flag (set_flags (Z.lor (dtb_flags b) (2 ^ 3)) b) (2 ^ 3) = true).
    rewrite has_flag_set by lia. by rewrite orb_true_r. }
  cbn. apply room_start; (done || lia).
Qed.

(** The reservation fits behind the offset. *)
Lemma ring_fits b mem :
  ring_inv b mem -> dtb_offset b + total_at (dtb_offset b) <= dtb_size b ->
  exists offs b' mem', ring_reserve st needed align b mem = RingAt offs b' mem' /\ ring_ready b offs b' mem'.
Proof.
  intros [H1 H2 H3 H4 H5 [H6 H7] H8] Hfit. pose proof (total_range _ H7) as Ht.
  unfold ring_reserve. cbv zeta. fold (total_at (dtb_offset b)).
  destruct (Z.ltb_spec (dtb_size b) (dtb_offset b + total_at (dtb_offset b))); [lia|].
  rewrite orb_false_r. destruct (has_flag b DTRACEBUF_WRAPPED) eqn:Ewr.
  2: { eexists _, _, _. split; [reflexivity|]. split; [apply same_ring_refl|]. split_and!; [lia|lia|lia|].
       rewrite Ewr. by apply room_unwrapped. }
  destruct (Z.ltb_spec (dtb_xamot_offset b) (dtb_offset b)) as [Hlt|Hge].
  { eexists _, _, _. split; [reflexivity|]. split; [apply same_ring_refl|]. split_and!; [lia|lia|lia|].
    rewrite Ewr. by apply room_behind. }
  destruct H8 as (Hpos & Hwo & Hd). destruct (Z.leb_spec (dtb_offset b) (dtb_xamot_offset b)); [|lia].
  destruct Hd as [Hold Hnew]. unfold ring_advance.
  destruct (advance_loop_spec mem (dtb_tomax b) (dtb_size b) (dtb_offset b + total_at (dtb_offset b))
    (dtb_xamot_offset b) (dtb_size b) Hold) as (w & Hw & Hle & Hcase); [lia|lia|].
  destruct Hcase as [(-> & Hlim & Hnear)|(-> & _ & Hlim & _)].
  - eexists _, _, _. split; [reflexivity|]. split; [apply same_ring_xamot|]. split_and!; [lia|lia|cbn; lia|].
    change (has_flag (set_xamot_offset w b) DTRACEBUF_WRAPPED) with (has_flag b DTRACEBUF_WRAPPED).
    rewrite Ewr. cbn. apply room_ahead; (done || lia).
  - destruct (Z.eqb_spec (dtb_offset b) 0); [lia|].
    eexists _, _, _. split; [reflexivity|]. split; [apply same_ring_xamot|]. split_and!; [lia|lia|cbn; lia|].
    change (has_flag (set_xamot_offset 0 b) DTRACEBUF_WRAPPED) with (has_flag b DTRACEBUF_WRAPPED).
    rewrite Ewr. cbn. apply room_behind; [|lia]. split_and!; [lia..|].
    by destruct (Z.leb_spec (dtb_offset b) 0); [lia|].
Qed.

Lemma same_ring_inv b0 b mem :
  ring_inv b0 mem -> same_ring b0 b ->
  has_flag b DTRACEBUF_RING = true /\ has_flag b DTRACEBUF_FILL = false /\
  has_flag b DTRACEBUF_INACTIVE = false /\ 0 < dtb_tomax b /\ dtb_size b mod 8 = 0 /\
  0 <= dtb_offset b <= dtb_size b /\ dtb_offset b mod 4 = 0.
Proof.
  intros [H1 H2 H3 H4 H5 [H6 H7] _] (-> & -> & _ & _ & -> & Hf).
  change DTRACEBUF_RING with (2 ^ 0) in *. change DTRACEBUF_FILL with (2 ^ 1) in *.
  change DTRACEBUF_INACTIVE with (2 ^ 8) in *. rewrite !Hf by lia. split_and!; (done || lia).
Qed.

(** What the caller gets: aligned room inside of the buffer, the other buffer as
    scratch, and a ring that survives whatever is done with the room. *)
Definition ring_reserved (ms : option dtrace_mstate) (b : dtrace_buffer) (rv : reservation) : Prop :=
  0 <= rv_offs rv /\ Z.land (rv_offs rv) (align - 1) = 0 /\ rv_offs rv + needed <= dtb_size b /\
  dtb_tomax (rv_buf rv) = dtb_tomax b /\ dtb_size (rv_buf rv) = dtb_size b /\
  dtb_drops (rv_buf rv) = dtb_drops b /\ rv_mstate rv = set_scratch (dtb_xamot b) (dtb_size b) ms /\
  forall mem', same_outside (dtb_tomax b) (rv_offs rv) (rv_offs rv + needed) (rv_mem rv) mem' ->
    ring_inv (rv_buf rv) mem' /\
    forall e, rv_offs rv < e <= rv_offs rv + needed -> recs mem' (dtb_tomax b) (rv_offs rv) e ->
      ring_inv (set_offset e (rv_buf rv)) mem'.

Lemma reserve_ring ms b mem :
  ring_inv b mem -> 2 * needed + maxsz + 4 <= dtb_size b ->
  exists rv, dtrace_buffer_reserve st needed align ms b mem = Some rv /\ ring_reserved ms b rv.
Proof.
  intros Hinv Hbound.
  assert (Hready : exists offs b' mem', ring_reserve st needed align b mem = RingAt offs b' mem' /\
    ring_ready b offs b' mem').
  { destruct (Z.lt_ge_cases (dtb_size b) (dtb_offset b + total_at (dtb_offset b))).
    - by apply ring_wraps.
    - by apply ring_fits. }
  destruct Hready as (offs & b' & mem1 & Hres & Hsame & Ho & Hm & Hfit & Hroom).
  pose proof (same_ring_inv b b' mem Hinv Hsame) as (F1 & F2 & F3 & T & S8 & Hoff & Hoff4).
  destruct Hsame as (E1 & E2 & E3 & E4 & E5 & _). destruct Hinv as [H1 H2 H3 H4 _ _ _].
  unfold dtrace_buffer_reserve. rewrite H3, has_ring_fill, H1, H2, Hres. cbn [orb negb andb].
  destruct (Z.eqb_spec (dtb_tomax b) 0); [lia|].
  destruct (pad_loop_spec (dtb_tomax b') align offs mem1 Halign Hm) as (mem2 & -> & Hoffc & Hal & Hm4 & Hmem2).
  rewrite F2. cbn [andb]. eexists. split; [reflexivity|]. unfold total_at in *.
  set (off := Z.land offs (align - 1)) in *. split_and!; cbn [rv_offs rv_buf rv_mem rv_mstate];
    [lia|done|lia|done|done|done|by rewrite E3, E2|]. rewrite <- E1. intros mem' Hs.
  assert (Hs1 : same_outside (dtb_tomax b') offs (offs + (needed + off)) mem1 mem').
  { intros x Hx. rewrite Hs, Hmem2 by lia. destruct (Z.leb_spec offs x), (Z.ltb_spec x (offs + off)); (done || lia). }
  destruct (Hroom mem' Hs1) as [Hkeep Hcommit]. split; [by split|].
  intros e He Hr. assert (Hpad : recs mem' (dtb_tomax b') offs e).
  { apply (recs_app _ _ _ (offs + off)); [|done]. apply recs_zero; [lia|lia|]. intros x Hx.
    rewrite Hs, Hmem2 by lia. by destruct (Z.leb_spec offs x), (Z.ltb_spec x (offs + off)); try lia. }
  pose proof (recs_le _ _ _ _ Hpad). split; try done; [cbn; lia|]. apply Hcommit; [cbn; lia|done].
Qed.
End Reserve.

(** ** Runs *)

(** One reservation on a ring buffer: the caller writes into the space it got, and
    then either leaves it or moves the offset behind the records it stored. *)
Inductive ring_step : dtrace_buffer * memory -> dtrace_buffer * memory -> Prop :=
| RingAbandon needed align ms b mem rv mem' :
    align_ok align -> 0 <= needed -> 2 * needed + maxsz + 4 <= dtb_size b ->
    dtrace_buffer_reserve st needed align ms b mem = Some rv ->
    same_outside (dtb_tomax b) (rv_offs rv) (rv_offs rv + needed) (rv_mem rv) mem' ->
    ring_step (b, mem) (rv_buf rv, mem')
| RingCommit needed align ms b mem rv mem' e :
    align_ok align -> 0 <= needed -> 2 * needed + maxsz + 4 <= dtb_size b ->
    dtrace_buffer_reserve st needed align ms b mem = Some rv ->
    same_outside (dtb_tomax b) (rv_offs rv) (rv_offs rv + needed) (rv_mem rv) mem' ->
    rv_offs rv < e <= rv_offs rv + needed -> recs mem' (dtb_tomax b) (rv_offs rv) e ->
    ring_step (b, mem) (set_offset e (rv_buf rv), mem').

Lemma ring_step_inv s s' : ring_inv s.1 s.2 -> ring_step s s' -> ring_inv s'.1 s'.2.
Proof.
  intros Hinv Hstep.
  destruct Hstep as [needed align ms b mem rv mem' Ha Hn Hb Hr Hs|needed align ms b mem rv mem' e Ha Hn Hb Hr Hs He Hrec];
    destruct (reserve_ring needed align Ha Hn ms b mem Hinv Hb) as (rv' & Hr' & (_ & _ & _ & _ & _ & _ & _ & Hall));
    rewrite Hr in Hr'; injection Hr' as <-; destruct (Hall mem' Hs) as [Hk Hc]; [exact Hk|].
  by apply Hc.
Qed.

Lemma ring_run_inv s s' : rtc ring_step s s' -> ring_inv s.1 s.2 -> ring_inv s'.1 s'.2.
Proof. induction 1 as [|s s1 s' Hs _ IH]; [done|]. intros H. apply IH. by eapply ring_step_inv. Qed.

Lemma bzero_at base lo n mem x :
  bzero (base + lo) n mem (base + x) = if (lo <=? x) && (x <? lo + n) then 0 else mem (base + x).
Proof.
  unfold bzero. destruct (Z.leb_spec lo x), (Z.leb_spec (base + lo) (base + x)); try lia; simpl; [|done].
  destruct (Z.ltb_spec x (lo + n)), (Z.ltb_spec (base + x) (base + lo + n)); (done || lia).
Qed.

(** What a consumer walks over after a polish: from the oldest record to the end and
    from the start to the oldest record, or the unwrapped part. *)
Definition ring_readable (b : dtrace_buffer) (mem : memory) : Prop :=
  if has_flag b DTRACEBUF_WRAPPED
  then recs mem (dtb_tomax b) (dtb_xamot_offset b) (dtb_size b) /\
       recs mem (dtb_tomax b) 0 (dtb_xamot_offset b)
  else recs mem (dtb_tomax b) 0 (dtb_offset b).

Lemma polish_spec b mem :
  ring_inv b mem -> exists mem', dtrace_buffer_polish b mem = Some mem' /\ ring_readable b mem'.
Proof.
  intros [H1 _ _ _ H5 [H6 H7] H8]. unfold dtrace_buffer_polish, ring_readable. rewrite H1. cbn [negb].
  destruct (has_flag b DTRACEBUF_WRAPPED); cbn [negb]; [|by exists mem].
  destruct H8 as (Hpos & Hw & Hd). set (base := dtb_tomax b) in *. set (o := dtb_offset b) in *.
  set (w := dtb_xamot_offset b) in *. set (size := dtb_size b) in *. eexists. split; [reflexivity|].
  destruct (Z.leb_spec o w) as [Hle|Hgt].
  - destruct Hd as [Hold Hnew]. destruct (Z.ltb_spec w o); [lia|].
    set (mem' := if o <? w then bzero (base + o) (w - o) mem else mem).
    assert (Hm : forall x, mem' (base + x) = if (o <=? x) && (x <? w) then 0 else mem (base + x)).
    { intros x. unfold mem'. destruct (Z.ltb_spec o w).
      - rewrite bzero_at. by replace (o + (w - o)) with w by lia.
      - destruct (Z.leb_spec o x), (Z.ltb_spec x w); (done || lia). }
    clearbody mem'. pose proof (recs_le _ _ _ _ Hold) as [_ Hm4]. split.
    + eapply recs_ext; [exact Hold|]. intros x Hx. rewrite Hm.
      destruct (Z.leb_spec o x), (Z.ltb_spec x w); (done || lia).
    + apply (recs_app _ _ _ o); [eapply recs_ext; [exact Hnew|]|apply recs_zero; [lia|lia|]]; intros x Hx;
        rewrite Hm; destruct (Z.leb_spec o x), (Z.ltb_spec x w); (done || lia).
  - destruct (Z.ltb_spec o w); [lia|]. destruct (Z.ltb_spec w o); [|lia].
    set (mem' := bzero base w _).
    assert (Hm : forall x, mem' (base + x) = if ((0 <=? x) && (x <? w)) || ((o <=? x) && (x <? size)) then 0
      else mem (base + x)).
    { intros x. unfold mem'. pose proof (bzero_at base 0 w (bzero (base + o) (size - o) mem) x) as Hb.
      rewrite Z.add_0_r in Hb. rewrite Hb, Z.add_0_l. destruct ((0 <=? x) && (x <? w)); [done|].
      rewrite bzero_at. by replace (o + (size - o)) with size by lia. }
    clearbody mem'. pose proof (recs_le _ _ _ _ Hd) as [_ Hm4]. split.
    + apply (recs_app _ _ _ o); [eapply recs_ext; [exact Hd|]|apply recs_zero; [lia|lia|]]; intros x Hx;
        rewrite Hm; destruct (Z.leb_spec 0 x), (Z.ltb_spec x w), (Z.leb_spec o x), (Z.ltb_spec x size); (done || lia).
    + apply recs_zero; [lia|lia|]. intros x Hx. rewrite Hm.
      destruct (Z.leb_spec 0 x), (Z.ltb_spec x w); (done || lia).
Qed.
End Ring.

(** * Switch and fill buffers *)

Record linear_inv (b : dtrace_buffer) : Prop := LinearInv {
  li_ring : has_flag b DTRACEBUF_RING = false;
  li_active : has_flag b DTRACEBUF_INACTIVE = false;
  li_tomax : 0 < dtb_tomax b;
  li_size : dtb_size b mod 8 = 0 /\ dtb_size b < 2 ^ 62;
  li_offset : 0 <= dtb_offset b <= dtb_size b /\ dtb_offset b mod 4 = 0
}.

(** The offset rounded up to the alignment. *)
Definition aligned_offset (align : Z) (b : dtrace_buffer) : Z :=
  dtb_offset b + Z.land (dtb_offset b) (align - 1).

(** Only padding, inside of the buffer and behind the offset, is written. *)
Definition only_padded (align : Z) (b : dtrace_buffer) (mem mem' : memory) : Prop :=
  aligned_offset align b <= dtb_size b /\ Z.land (aligned_offset align b) (align - 1) = 0 /\
  forall x, mem' (dtb_tomax b + x) =
    if (dtb_offset b <=? x) && (x <? aligned_offset align b) then 0 else mem (dtb_tomax b + x).

Lemma pad_linear align b mem :
  linear_inv b -> align_ok align ->
  exists mem', pad_loop (dtb_tomax b) align (dtb_offset b) mem = Some (aligned_offset align b, mem') /\
    only_padded align b mem mem' /\ dtb_offset b <= aligned_offset align b.
Proof.
  intros [H1 H2 H3 [H4 _] [H5 H6]] Ha. unfold only_padded, aligned_offset.
  destruct (pad_loop_spec (dtb_tomax b) align (dtb_offset b) mem Ha H6) as (mem' & He & Hoff & Hal & Hm & Hmem).
  exists mem'. cbv zeta in *.
  pose proof (land_align align (dtb_offset b) Ha H6) as Hl.
  split_and!; [exact He| |exact Hal|exact Hmem|]; rewrite Hl; case_match; lia.
Qed.

(** A buffer of the switch policy: the space behind the reservation is scratch. *)
Lemma reserve_switch st needed align ms b mem :
  linear_inv b -> has_flag b DTRACEBUF_FILL = false -> align_ok align ->
  exists mem', only_padded align b mem mem' /\
    let offs := aligned_offset align b in
    dtrace_buffer_reserve st needed align ms b mem =
    Some (if dtb_size b <? offs + needed then Resv (-1) (dtrace_buffer_drop b) mem' ms
          else Resv offs b mem' (set_scratch (dtb_tomax b + (offs + needed)) (dtb_size b - (offs + needed)) ms)).
Proof.
  intros Hb Hf Ha. destruct (pad_linear align b mem Hb Ha) as (mem' & He & Hp & _). exists mem'. split; [done|].
  destruct Hb as [H1 H2 H3 H4 H5]. unfold dtrace_buffer_reserve. rewrite H2, has_ring_fill, H1, Hf. cbn [orb negb].
  destruct (Z.eqb_spec (dtb_tomax b) 0); [lia|]. rewrite He. cbv zeta. by case_match.
Qed.

(** A buffer of the fill policy: dts_reserve bytes are kept back, and once it is full
    only the END enablings that run during cool-down are served. *)
Lemma reserve_fill st needed align ms b mem :
  linear_inv b -> has_flag b DTRACEBUF_FILL = true -> align_ok align -> 0 <= dts_reserve st <= dtb_size b ->
  if has_flag b DTRACEBUF_FULL && negb (dts_activity st =? DTRACE_ACTIVITY_COOLDOWN)
  then dtrace_buffer_reserve st needed align ms b mem = Some (Resv (-1) b mem ms)
  else exists mem', only_padded align b mem mem' /\
    let offs := aligned_offset align b in
    dtrace_buffer_reserve st needed align ms b mem =
    Some (if dtb_size b - dts_reserve st <? offs + needed
          then Resv (-1) (set_flags (Z.lor (dtb_flags b) DTRACEBUF_FULL) b) mem' ms
          else Resv offs b mem' (set_scratch (dtb_xamot b) (dtb_size b) ms)).
Proof.
  intros Hb Hf Ha Hr. destruct (pad_linear align b mem Hb Ha) as (mem' & He & Hp & _).
  destruct Hb as [H1 H2 H3 H4 H5]. unfold dtrace_buffer_reserve. rewrite H2, has_ring_fill, H1, Hf. cbn [orb negb andb].
  destruct (Z.eqb_spec (dtb_tomax b) 0); [lia|].
  destruct (has_flag b DTRACEBUF_FULL), (dts_activity st =? DTRACE_ACTIVITY_COOLDOWN); cbn [andb negb]; try done.
  all: exists mem'; split; [done|]. all: rewrite He, u64_id by (unfold is_u; lia). all: rewrite ?Hf; cbn [andb]; cbv zeta; by destruct (_ <? _).
Qed.

(** Both policies. *)
Lemma reserve_linear st needed align ms b mem :
  linear_inv b -> align_ok align -> 0 <= dts_reserve st <= dtb_size b ->
  if has_flag b DTRACEBUF_FILL && has_flag b DTRACEBUF_FULL &&
     negb (dts_activity st =? DTRACE_ACTIVITY_COOLDOWN)
  then dtrace_buffer_reserve st needed align ms b mem = Some (Resv (-1) b mem ms)
  else exists mem', only_padded align b mem mem' /\
    let offs := aligned_offset align b in
    let fill := has_flag b DTRACEBUF_FILL in
    let limit := if fill then dtb_size b - dts_reserve st else dtb_size b in
    dtrace_buffer_reserve st needed align ms b mem =
    Some (if limit <? offs + needed then
            Resv (-1) (if fill then set_flags (Z.lor (dtb_flags b) DTRACEBUF_FULL) b
                       else dtrace_buffer_drop b) mem' ms
          else Resv offs b mem' (if fill then set_scratch (dtb_xamot b) (dtb_size b) ms
            else set_scratch (dtb_tomax b + (offs + needed)) (dtb_size b - (offs + needed)) ms)).
Proof.
  intros Hb Ha Hr. destruct (has_flag b DTRACEBUF_FILL) eqn:Hf; cbn [andb].
  - by apply reserve_fill.
  - by apply reserve_switch.
Qed.

(** * Allocation *)

(** The allocations a buffer holds. *)
Definition areas (size : Z) (b : dtrace_buffer) : live_heap :=
  (if dtb_xamot b =? 0 then [] else [(dtb_xamot b, size)]) ++
  (if dtb_tomax b =? 0 then [] else [(dtb_tomax b, size)]).

Definition areas_at (size : Z) (bufs : list dtrace_buffer) (cp : Z) : live_heap :=
  match zlookup bufs cp with Some b => areas size b | None => [] end.

Definition held (size : Z) (bufs : list dtrace_buffer) (cpus : list Z) : live_heap :=
  concat (map (areas_at size bufs) cpus).

Definition targeted (cpu cp : Z) : bool := (cpu =? DTRACE_CPUALL) || (cpu =? cp).

Definition no_buffer (b : dtrace_buffer) : Prop := dtb_tomax b = 0 /\ dtb_xamot b = 0.

(** A buffer the allocation may have to give back. *)
Definition undoable (size : Z) (b : dtrace_buffer) : Prop :=
  no_buffer b \/ dtb_tomax b <> 0 /\ dtb_size b = size.

Definition allocated (size flags : Z) (b : dtrace_buffer) : Prop :=
  dtb_tomax b <> 0 /\ dtb_size b = size /\ dtb_flags b = flags /\ dtb_offset b = 0 /\ dtb_drops b = 0 /\
  (Z.land flags DTRACEBUF_NOSWITCH = 0 <-> dtb_xamot b <> 0).

Lemma kmem_free_spec a n live r :
  live ≡ₚ (a, n) :: r -> exists live', kmem_free a n live = Some live' /\ live' ≡ₚ r.
Proof.
  intros Hp. assert (Hin : In (a, n) live).
  { eapply Permutation_in; [symmetry; exact Hp|]. by left. }
  assert (H : exists live', kmem_free a n live = Some live' /\ live ≡ₚ (a, n) :: live').
  { clear Hp. induction live as [|[b m] live IH]; [done|]. cbn [kmem_free].
    destruct (Z.eqb_spec a b) as [<-|Hne]; [destruct (Z.eqb_spec n m) as [<-|Hne]|]; cbn [andb].
    - by exists live.
    - destruct Hin as [[=]|Hin]; [congruence|]. destruct (IH Hin) as (l & -> & Hl). eexists. split; [done|].
      rewrite Hl. constructor.
    - destruct Hin as [[=]|Hin]; [congruence|]. destruct (IH Hin) as (l & -> & Hl). eexists. split; [done|].
      rewrite Hl. constructor. }
  destruct H as (l & -> & Hl). exists l. split; [done|]. rewrite Hl in Hp. by eapply Permutation_cons_inv.
Qed.

Lemma zlookup_insert_eq (bufs : list dtrace_buffer) cp b b' :
  zlookup bufs cp = Some b -> zlookup (<[Z.to_nat cp := b']> bufs) cp = Some b'.
Proof.
  unfold zlookup. rewrite length_insert. destruct ((0 <=? cp) && _) eqn:E; [|done]. intros _.
  apply list_lookup_insert_eq. lia.
Qed.

Lemma zlookup_insert_ne (bufs : list dtrace_buffer) cp cp' b' :
  0 <= cp -> cp <> cp' -> zlookup (<[Z.to_nat cp := b']> bufs) cp' = zlookup bufs cp'.
Proof.
  intros H0 Hne. unfold zlookup. rewrite length_insert. destruct ((0 <=? cp') && _) eqn:E; [|done].
  apply list_lookup_insert_ne. lia.
Qed.

Lemma zlookup_nonneg (bufs : list dtrace_buffer) cp b : zlookup bufs cp = Some b -> 0 <= cp.
Proof. unfold zlookup. destruct (Z.leb_spec 0 cp); [done|]. done. Qed.

Lemma held_insert size bufs cp b cpus :
  0 <= cp -> ~ In cp cpus -> held size (<[Z.to_nat cp := b]> bufs) cpus = held size bufs cpus.
Proof.
  intros H0 Hn. unfold held. f_equal. apply map_ext_in. intros c Hc. unfold areas_at.
  rewrite zlookup_insert_ne; [done|done|]. intros ->. done.
Qed.

Section AllocFacts.
Context (pick : Z -> live_heap -> Z) (size flags cpu : Z).

Lemma skipped cp : negb (cpu =? DTRACE_CPUALL) && negb (cpu =? cp) = negb (targeted cpu cp).
Proof. unfold targeted. by rewrite negb_orb. Qed.

(** The CPUs that are passed over do not matter. *)
Lemma alloc_all_filter cpus s :
  alloc_all pick size flags cpu cpus s = alloc_all pick size flags cpu (List.filter (targeted cpu) cpus) s.
Proof.
  revert s. induction cpus as [|cp cpus IH]; intros [bufs live]; cbn [alloc_all List.filter]; [done|].
  destruct (targeted cpu cp) eqn:E; cbn [alloc_all].
  - destruct (alloc_one _ _ _ _ _ _) as [[s []]|]; done.
  - unfold alloc_one. rewrite skipped, E. cbn [negb]. apply IH.
Qed.

Lemma undo_all_filter cpus s :
  undo_all size cpu cpus s = undo_all size cpu (List.filter (targeted cpu) cpus) s.
Proof.
  revert s. induction cpus as [|cp cpus IH]; intros [bufs live]; cbn [undo_all List.filter]; [done|].
  destruct (targeted cpu cp) eqn:E; cbn [undo_all].
  - by destruct (undo_one _ _ _ _).
  - unfold undo_one. rewrite skipped, E. cbn [negb]. apply IH.
Qed.

Lemma zalloc_spec live :
  let '(a, live') := kmem_zalloc pick size live in
  live' = if a =? 0 then live else (a, size) :: live.
Proof. unfold kmem_zalloc. destruct (Z.eqb_spec (pick size live) 0) as [|Hn]; [done|]. by destruct (Z.eqb_spec (pick size live) 0). Qed.

Lemma alloc_one_spec cp bufs live b :
  targeted cpu cp = true -> zlookup bufs cp = Some b -> no_buffer b ->
  exists b' live' ok, alloc_one pick size flags cpu cp (bufs, live) =
      Some ((<[Z.to_nat cp := b']> bufs, live'), ok) /\
    live' ≡ₚ areas size b' ++ live /\ undoable size b' /\ (ok = true -> allocated size flags b').
Proof.
  intros Ht Hb [H0 Hx]. unfold alloc_one. rewrite skipped, Ht, Hb, H0, Hx. cbn [negb Z.eqb].
  pose proof (zalloc_spec live) as Hz. destruct (kmem_zalloc pick size live) as [tomax live1].
  destruct (Z.eqb_spec tomax 0) as [|Htm].
  { exists b, live, false. rewrite list_insert_id.
    - split_and!; [done| |by left|done]. unfold areas. by rewrite H0, Hx.
    - rewrite zlookup_nat in Hb; [done|by eapply zlookup_nonneg]. }
  destruct (Z.eqb_spec (Z.land flags DTRACEBUF_NOSWITCH) 0) as [Hs|Hs]; cbn [negb].
  - pose proof (zalloc_spec live1) as Hz1. destruct (kmem_zalloc pick size live1) as [xamot live2].
    eexists _, _, _. split; [reflexivity|]. unfold areas, undoable, allocated. cbn.
    destruct (Z.eqb_spec tomax 0); [done|]. subst.
    destruct (Z.eqb_spec xamot 0) as [->|Hxn]; cbn; (split_and!; [done|by right|]); by intros [=].
  - eexists _, _, _. split; [reflexivity|]. unfold areas, undoable, allocated. cbn.
    destruct (Z.eqb_spec tomax 0); [done|]. subst. cbn. split_and!; [done|by right|]. by intros _.
Qed.

Lemma alloc_all_spec cpus bufs live :
  NoDup cpus -> Forall (fun cp => targeted cpu cp = true) cpus ->
  Forall (fun cp => exists b, zlookup bufs cp = Some b /\ no_buffer b) cpus ->
  exists bufs' live' ok, alloc_all pick size flags cpu cpus (bufs, live) = Some ((bufs', live'), ok) /\
    live' ≡ₚ held size bufs' cpus ++ live /\
    Forall (fun cp => exists b, zlookup bufs' cp = Some b /\ undoable size b /\
      (ok = true -> allocated size flags b)) cpus /\
    (forall cp, ~ In cp cpus -> zlookup bufs' cp = zlookup bufs cp).
Proof.
  revert bufs live. induction cpus as [|cp cpus IH]; intros bufs live Hnd Ht Hall.
  { exists bufs, live, true. by split_and!. }
  pose proof (NoDup_cons_1_1 _ _ Hnd) as Hni. apply NoDup_cons_1_2 in Hnd. rewrite list_elem_of_In in Hni.
  apply Forall_cons_iff in Ht as [Ht Hts]. apply Forall_cons_iff in Hall as [(b & Hb & Hno) Hall].
  pose proof (zlookup_nonneg _ _ _ Hb) as Hcp.
  destruct (alloc_one_spec cp bufs live b Ht Hb Hno) as (b' & live1 & ok & Hone & Hl1 & Hu & Hok).
  cbn [alloc_all]. rewrite Hone. set (bufs1 := <[Z.to_nat cp := b']> bufs) in *.
  assert (Hb1 : zlookup bufs1 cp = Some b') by (by eapply zlookup_insert_eq).
  assert (Hall1 : Forall (fun cp => exists b, zlookup bufs1 cp = Some b /\ no_buffer b) cpus).
  { rewrite List.Forall_forall in *. intros c Hc. unfold bufs1. rewrite zlookup_insert_ne; [by apply Hall|done|].
    intros ->. done. }
  assert (Hsame : forall c, ~ In c (cp :: cpus) -> zlookup bufs1 c = zlookup bufs c).
  { intros c Hc. apply zlookup_insert_ne; [done|]. intros ->. apply Hc. by left. }
  destruct ok.
  - destruct (IH bufs1 live1 Hnd Hts Hall1) as (bufs' & live' & ok & -> & Hl & Hfin & Hkeep).
    assert (Hb' : zlookup bufs' cp = Some b') by (by rewrite Hkeep).
    exists bufs', live', ok. split_and!; [done| | |].
    + unfold held in *. cbn [map concat]. unfold areas_at at 1. rewrite Hb', Hl, Hl1. by rewrite !app_assoc,
        (Permutation_app_comm (concat _)).
    + constructor; [exists b'; split_and!; auto|done].
    + intros c Hc. rewrite Hkeep; [by apply Hsame|]. intros H. apply Hc. by right.
  - exists bufs1, live1, false. split_and!; [done| | |done].
    + unfold held. cbn [map concat]. unfold areas_at at 1. rewrite Hb1, Hl1.
      assert (concat (map (areas_at size bufs1) cpus) = []) as ->; [|by rewrite app_nil_r].
      clear -Hall1. induction Hall1 as [|c cpus (b & Hb & [Ha Hx]) _ IH]; [done|].
      cbn [map concat]. rewrite IH. unfold areas_at, areas. by rewrite Hb, Ha, Hx.
    + constructor; [by exists b'|]. rewrite List.Forall_forall in *. intros c Hc.
      destruct (Hall1 c Hc) as (b1 & Hb1' & Hn). exists b1. split_and!; [done|by left|done].
Qed.

Lemma free_areas b live r :
  undoable size b -> live ≡ₚ areas size b ++ r ->
  exists live', (match (if negb (dtb_xamot b =? 0) then
      if (dtb_tomax b =? 0) || negb (dtb_size b =? size) then None
      else kmem_free (dtb_xamot b) size live else Some live) with
    | None => None
    | Some live => if negb (dtb_tomax b =? 0) then
        if negb (dtb_size b =? size) then None else kmem_free (dtb_tomax b) size live else Some live
    end) = Some live' /\ live' ≡ₚ r.
Proof.
  intros [[Ha Hx]|[Ha Hs]] Hl; unfold areas in Hl.
  - rewrite Ha, Hx in *. cbn in *. by exists live.
  - destruct (Z.eqb_spec (dtb_tomax b) 0); [done|]. destruct (Z.eqb_spec (dtb_size b) size); [|done].
    cbn [orb negb]. destruct (Z.eqb_spec (dtb_xamot b) 0); cbn [negb] in *; cbn in Hl.
    + by apply kmem_free_spec.
    + destruct (kmem_free_spec _ _ _ _ Hl) as (l1 & -> & Hl1). by apply kmem_free_spec.
Qed.

Lemma undo_one_spec cp bufs live b r :
  targeted cpu cp = true -> zlookup bufs cp = Some b -> undoable size b -> live ≡ₚ areas size b ++ r ->
  exists b' live', undo_one size cpu cp (bufs, live) = Some (<[Z.to_nat cp := b']> bufs, live') /\
    live' ≡ₚ r /\ no_buffer b' /\ dtb_size b' = 0.
Proof.
  intros Ht Hb Hu Hl. destruct (free_areas b live r Hu Hl) as (live' & Hf & Hl'). unfold undo_one.
  rewrite skipped, Ht, Hb. cbn [negb]. cbv zeta.
  destruct (if negb (dtb_xamot b =? 0) then _ else _) as [live1|]; [|done]. rewrite Hf. by eexists _, live'.
Qed.

Lemma undo_all_spec cpus bufs live r :
  NoDup cpus -> Forall (fun cp => targeted cpu cp = true) cpus ->
  Forall (fun cp => exists b, zlookup bufs cp = Some b /\ undoable size b) cpus ->
  live ≡ₚ held size bufs cpus ++ r ->
  exists bufs' live', undo_all size cpu cpus (bufs, live) = Some (bufs', live') /\ live' ≡ₚ r /\
    Forall (fun cp => exists b, zlookup bufs' cp = Some b /\ no_buffer b /\ dtb_size b = 0) cpus /\
    (forall cp, ~ In cp cpus -> zlookup bufs' cp = zlookup bufs cp).
Proof.
  revert bufs live. induction cpus as [|cp cpus IH]; intros bufs live Hnd Ht Hall Hl.
  { exists bufs, live. by split_and!. }
  pose proof (NoDup_cons_1_1 _ _ Hnd) as Hni. apply NoDup_cons_1_2 in Hnd. rewrite list_elem_of_In in Hni.
  apply Forall_cons_iff in Ht as [Ht Hts]. apply Forall_cons_iff in Hall as [(b & Hb & Hu) Hall].
  pose proof (zlookup_nonneg _ _ _ Hb) as Hcp.
  unfold held in Hl. cbn [map concat] in Hl. unfold areas_at at 1 in Hl. rewrite Hb, <- app_assoc in Hl.
  destruct (undo_one_spec cp bufs live b _ Ht Hb Hu Hl) as (b' & live1 & Hone & Hl1 & Hno & H0).
  cbn [undo_all]. rewrite Hone. cbv iota. set (bufs1 := <[Z.to_nat cp := b']> bufs) in *.
  assert (Hb1 : zlookup bufs1 cp = Some b') by (by eapply zlookup_insert_eq).
  destruct (IH bufs1 live1 Hnd Hts) as (bufs' & live' & Hrun & Hl' & Hfin & Hkeep).
  - rewrite List.Forall_forall in *. intros c Hc. unfold bufs1. rewrite zlookup_insert_ne; [by apply Hall|done|].
    intros ->. done.
  - unfold bufs1. rewrite held_insert by done. exact Hl1.
  - exists bufs', live'. split_and!; [exact Hrun|done| |].
    + constructor; [exists b'; by rewrite Hkeep|done].
    + intros c Hc. rewrite Hkeep by (intros H; apply Hc; by right).
      apply zlookup_insert_ne; [done|]. intros ->. apply Hc. by left.
Qed.
End AllocFacts.

Lemma buffer_alloc_spec pick priv cpus size flags cpu bufs live :
  NoDup cpus ->
  Forall (fun cp => targeted cpu cp = true -> exists b, zlookup bufs cp = Some b /\ no_buffer b) cpus ->
  exists rc bufs' live',
    dtrace_buffer_alloc pick priv cpus size flags cpu (bufs, live) = Some (rc, (bufs', live')) /\
    (forall cp, ~ (In cp cpus /\ targeted cpu cp = true) -> zlookup bufs' cp = zlookup bufs cp) /\
    ((rc = 0 /\ live' ≡ₚ held size bufs' (List.filter (targeted cpu) cpus) ++ live /\
        forall cp, In cp cpus -> targeted cpu cp = true ->
          exists b, zlookup bufs' cp = Some b /\ allocated size flags b) \/
     (rc = ENOMEM /\ live' ≡ₚ live /\
        forall cp, In cp cpus -> targeted cpu cp = true ->
          exists b, zlookup bufs' cp = Some b /\ no_buffer b /\ dtb_size b = 0) \/
     (rc = EFBIG /\ bufs' = bufs /\ live' = live /\ dtrace_nonroot_maxsize < size /\ priv = false)).
Proof.
  intros Hnd Hall. unfold dtrace_buffer_alloc.
  destruct ((dtrace_nonroot_maxsize <? size) && negb priv) eqn:Ebig.
  { exists EFBIG, bufs, live. apply andb_true_iff in Ebig as [Hlt Hp]. split_and!; [done|done|].
    right; right. split_and!; try done; [lia|by destruct priv]. }
  clear Ebig. rewrite alloc_all_filter. set (tgt := List.filter (targeted cpu) cpus).
  assert (Htin : forall cp, In cp tgt <-> In cp cpus /\ targeted cpu cp = true) by (intros; apply filter_In).
  assert (Hndt : NoDup tgt).
  { apply NoDup_ListNoDup. apply NoDup_filter. by apply NoDup_ListNoDup. }
  assert (Ht : Forall (fun cp => targeted cpu cp = true) tgt).
  { apply List.Forall_forall. intros cp Hcp. by apply Htin in Hcp as [_ ?]. }
  assert (Hno : Forall (fun cp => exists b, zlookup bufs cp = Some b /\ no_buffer b) tgt).
  { rewrite List.Forall_forall in *. intros cp Hcp. apply Htin in Hcp as [Hi Htc]. by apply Hall. }
  destruct (alloc_all_spec pick size flags cpu tgt bufs live Hndt Ht Hno)
    as (bufs1 & live1 & ok & -> & Hl1 & Hfin & Hkeep).
  rewrite List.Forall_forall in Hfin. destruct ok.
  - exists 0, bufs1, live1. split_and!; [done| |].
    + intros cp Hcp. apply Hkeep. by rewrite Htin.
    + left. split_and!; [done|done|]. intros cp Hi Htc.
      destruct (Hfin cp) as (b & Hb & _ & Hok); [by apply Htin|]. exists b. auto.
  - destruct (undo_all_spec size cpu tgt bufs1 live1 live Hndt Ht) as (bufs' & live' & Hrun & Hl' & Hfin' & Hkeep');
      [|done|].
    { apply List.Forall_forall. intros cp Hcp. destruct (Hfin cp Hcp) as (b & Hb & Hu & _). by exists b. }
    rewrite undo_all_filter. fold tgt.
    replace (undo_all size cpu tgt _) with (Some (bufs', live')) by (symmetry; exact Hrun). exists ENOMEM, bufs', live'.
    rewrite List.Forall_forall in Hfin'. split_and!; [done| |].
    + intros cp Hcp. rewrite Hkeep', Hkeep by (by rewrite Htin). done.
    + right; left. split_and!; [done|done|]. intros cp Hi Htc. apply Hfin'. by apply Htin.
Qed.

(** * Properties *)


Definition demo_state : buf_state := BufState 2 0 [Some 40; Some 64].
Definition fresh_ring (size : Z) : dtrace_buffer :=
  Buffer 0 size (DTRACEBUF_RING + DTRACEBUF_NOSWITCH) 0 0x10000 0x20000 0 0 0 0 0.

Lemma demo_ecbs_ok : ecbs_ok demo_state 64.
Proof. split; [lia|]. repeat constructor; lia. Qed.

Lemma fresh_ring_inv size : 0 <= size -> size mod 8 = 0 -> ring_inv demo_state (fresh_ring size) (fun _ => 0).
Proof. intros. split; try done; cbn; try lia. apply recs_nil. Qed.


(** Store EPID [epid] at the reserved offset, as dtrace_probe() does before it
    evaluates the predicate. *)
Definition store_epid (b : dtrace_buffer) (epid : Z) (rv : reservation) : memory :=
  store32 (dtb_tomax b + rv_offs rv) epid (rv_mem rv).

(** Reserve and commit a record of EPID 1, reserve and abandon one of EPID 2, polish:
    the two offsets returned, the offset, the wrapped offset, the wrapped flag, and the
    EPID and the size of the record a consumer finds at the start of the buffer. *)
Definition abandoned_wrap (size : Z) : option (Z * Z * (Z * Z * bool) * (Z * option Z)) :=
  let b0 := fresh_ring size in
  match dtrace_buffer_reserve demo_state 40 8 None b0 (fun _ => 0) with
  | Some rv1 =>
      let b1 := set_offset (rv_offs rv1 + 40) (rv_buf rv1) in
      match dtrace_buffer_reserve demo_state 64 8 None b1 (store_epid b0 1 rv1) with
      | Some rv2 =>
          let b2 := rv_buf rv2 in
          match dtrace_buffer_polish b2 (store_epid b1 2 rv2) with
          | Some mem =>
              Some (rv_offs rv1, rv_offs rv2,
                (dtb_offset b2, dtb_xamot_offset b2, has_flag b2 DTRACEBUF_WRAPPED),
                (read_le mem (dtb_tomax b2) 4, record_size demo_state mem (dtb_tomax b2)))
          | None => None
          end
      | None => None
      end
  | None => None
  end.

(** The bound of the ring theorem is needed.  In a ring of 96 bytes a 40-byte
    record (EPID 1) is committed; a 64-byte reservation (EPID 2) then wraps, moves
    the wrapped offset from 0 to 64, past the offset 40, and is abandoned.  After the
    polish the consumer finds a whole record of EPID 2, which was never committed,
    in the place of the committed record.  In a ring of 256 bytes it does not. *)
Theorem ring_small_phantom :
  abandoned_wrap 96 = Some (0, 0, (40, 64, true), (2, Some 64)) /\
  abandoned_wrap 256 = Some (0, 40, (40, 0, false), (1, Some 40)).
Proof. split; vm_compute; reflexivity. Qed.

(** On switch and fill buffers a reservation writes only padding, and either
    returns the offset rounded up to the alignment, or fails when the space does not
    fit: a switch buffer counts a drop, a fill buffer marks itself full (keeping
    dts_reserve bytes back) and from then on serves only a consumer that cools down. *)
Theorem dtrace_buffer_reserve_linear st needed align ms b mem :
  linear_inv b -> align_ok align -> 0 <= dts_reserve st <= dtb_size b ->
  if has_flag b DTRACEBUF_FILL && has_flag b DTRACEBUF_FULL &&
     negb (dts_activity st =? DTRACE_ACTIVITY_COOLDOWN)
  then dtrace_buffer_reserve st needed align ms b mem = Some (Resv (-1) b mem ms)
  else exists mem', only_padded align b mem mem' /\
    let offs := aligned_offset align b in
    let fill := has_flag b DTRACEBUF_FILL in
    let limit := if fill then dtb_size b - dts_reserve st else dtb_size b in
    dtrace_buffer_reserve st needed align ms b mem =
    Some (if limit <? offs + needed then
            Resv (-1) (if fill then set_flags (Z.lor (dtb_flags b) DTRACEBUF_FULL) b
                       else dtrace_buffer_drop b) mem' ms
          else Resv offs b mem' (if fill then set_scratch (dtb_xamot b) (dtb_size b) ms
            else set_scratch (dtb_tomax b + (offs + needed)) (dtb_size b - (offs + needed)) ms)).
Proof. apply reserve_linear. Qed.

Definition demo_switch : dtrace_buffer := Buffer 12 64 0 0 0x10000 0x20000 0 0 0 0 0.

Lemma dtrace_buffer_reserve_linear_witness :
  exists mem', only_padded 8 demo_switch (fun _ => 7) mem' /\
    dtrace_buffer_reserve demo_state 24 8 None demo_switch (fun _ => 7) =
      Some (Resv 16 demo_switch mem' None).
Proof.
  apply (dtrace_buffer_reserve_linear demo_state 24 8 None demo_switch (fun _ => 7));
    [split; (reflexivity || (cbn; lia))|unfold align_ok; lia|cbn; lia].
Defined.

(** Allocating the buffers of one CPU or of all of them is all or nothing.  On
    success every CPU has its buffers and exactly these were allocated; on ENOMEM
    every CPU is left without a buffer and nothing stays allocated; an unprivileged
    consumer that asks for too much changes nothing.  Other CPUs are not touched. *)
Theorem dtrace_buffer_alloc_atomic pick priv cpus size flags cpu bufs live :
  NoDup cpus ->
  Forall (fun cp => targeted cpu cp = true -> exists b, zlookup bufs cp = Some b /\ no_buffer b) cpus ->
  exists rc bufs' live',
    dtrace_buffer_alloc pick priv cpus size flags cpu (bufs, live) = Some (rc, (bufs', live')) /\
    (forall cp, ~ (In cp cpus /\ targeted cpu cp = true) -> zlookup bufs' cp = zlookup bufs cp) /\
    ((rc = 0 /\ live' ≡ₚ held size bufs' (List.filter (targeted cpu) cpus) ++ live /\
        forall cp, In cp cpus -> targeted cpu cp = true ->
          exists b, zlookup bufs' cp = Some b /\ allocated size flags b) \/
     (rc = ENOMEM /\ live' ≡ₚ live /\
        forall cp, In cp cpus -> targeted cpu cp = true ->
          exists b, zlookup bufs' cp = Some b /\ no_buffer b /\ dtb_size b = 0) \/
     (rc = EFBIG /\ bufs' = bufs /\ live' = live /\ dtrace_nonroot_maxsize < size /\ priv = false)).
Proof. apply buffer_alloc_spec. Qed.

Definition null_buffer : dtrace_buffer := Buffer 0 0 0 0 0 0 0 0 0 0 0.
(** An allocator with room for three allocations. *)
Definition three_allocs (size : Z) (live : live_heap) : Z :=
  if (length live <? 3)%nat then 4096 * (1 + Z.of_nat (length live)) else 0.

Lemma dtrace_buffer_alloc_atomic_witness :
  exists rc bufs' live',
    dtrace_buffer_alloc three_allocs true [0; 1] 64 0 (-1) ([null_buffer; null_buffer], []) =
      Some (rc, (bufs', live')) /\
    (forall cp, ~ (In cp [0; 1] /\ targeted (-1) cp = true) ->
      zlookup bufs' cp = zlookup [null_buffer; null_buffer] cp) /\
    ((rc = 0 /\ live' ≡ₚ held 64 bufs' (List.filter (targeted (-1)) [0; 1]) ++ [] /\
        forall cp, In cp [0; 1] -> targeted (-1) cp = true ->
          exists b, zlookup bufs' cp = Some b /\ allocated 64 0 b) \/
     (rc = ENOMEM /\ live' ≡ₚ [] /\
        forall cp, In cp [0; 1] -> targeted (-1) cp = true ->
          exists b, zlookup bufs' cp = Some b /\ no_buffer b /\ dtb_size b = 0) \/
     (rc = EFBIG /\ bufs' = [null_buffer; null_buffer] /\ live' = [] /\
        dtrace_nonroot_maxsize < 64 /\ true = false)).
Proof.
  apply dtrace_buffer_alloc_atomic.
  - apply (bool_decide_eq_true_1 (NoDup [0; 1])). reflexivity.
  - repeat constructor; intros _; exists null_buffer; by split.
Defined.

(** The fourth allocation fails and the three others are given back. *)
Example alloc_gives_back :
  dtrace_buffer_alloc three_allocs true [0; 1] 64 0 (-1) ([null_buffer; null_buffer], []) =
  Some (ENOMEM, ([null_buffer; null_buffer], [])).
Proof. vm_compute. reflexivity. Qed.
