(* ===== verification/Speculation.v ===== *)
(** Speculative tracing (driver/dtrace.c, dtrace_speculation() to
    dtrace_speculation_buffer()).

    A speculation has one buffer per CPU and a state word that all CPUs change by
    compare-and-swap.  The first part of the file has each operation as it runs on one
    CPU with nothing in between; the second part interleaves the operations of all
    CPUs and of the cleaner, one access to a state word at a time, with the same
    decision functions. *)
From stdpp Require Import relations functions.
From S2P Require Import Prelude Dif SafeMem Buffer.

(** * Data *)

Inductive spec_state :=
| DTRACESPEC_INACTIVE | DTRACESPEC_ACTIVE | DTRACESPEC_ACTIVEONE | DTRACESPEC_ACTIVEMANY
| DTRACESPEC_COMMITTING | DTRACESPEC_COMMITTINGMANY | DTRACESPEC_DISCARDING.

#[export] Instance spec_state_eq_dec : EqDecision spec_state.
Proof. solve_decision. Defined.

Record dtrace_speculation_t := Speculation {
  dtsp_state : spec_state;
  dtsp_cleaning : bool;
  dtsp_buffer : list dtrace_buffer            (** per CPU *)
}.

(** The consumer's state as far as speculations go. *)
Record spec_sys := SpecSys {
  dts_speculations : list dtrace_speculation_t;
  dts_buffer : list dtrace_buffer;            (** principal buffers, per CPU *)
  dts_speculations_busy : Z;
  dts_speculations_unavail : Z;
  cpuc_flags : list Z;                        (** cpuc_dtrace_flags, per CPU *)
  sys_mem : memory
}.

(** * Decisions on the state word

    What one turn of a compare-and-swap loop does when it reads [current]; [offset]
    is the offset of this CPU's buffer. *)
Inductive cas_choice :=
| Leave                      (** return *)
| Assert0                    (** an ASSERT fails *)
| Keep                       (** go on without changing the word *)
| Swap (new : spec_state).   (** dtrace_cas32(&state, current, new) *)

Definition commit_choice (current : spec_state) (offset : Z) : cas_choice :=
  match current with
  | DTRACESPEC_COMMITTINGMANY => Keep
  | DTRACESPEC_INACTIVE | DTRACESPEC_DISCARDING => Leave
  | DTRACESPEC_COMMITTING => if offset =? 0 then Leave else Assert0
  | DTRACESPEC_ACTIVE => Swap DTRACESPEC_COMMITTING
  | DTRACESPEC_ACTIVEONE =>
      if negb (offset =? 0) then Swap DTRACESPEC_COMMITTING else Swap DTRACESPEC_COMMITTINGMANY
  | DTRACESPEC_ACTIVEMANY => Swap DTRACESPEC_COMMITTINGMANY
  end.

Definition discard_choice (current : spec_state) (offset : Z) : cas_choice :=
  match current with
  | DTRACESPEC_INACTIVE | DTRACESPEC_COMMITTINGMANY | DTRACESPEC_COMMITTING
  | DTRACESPEC_DISCARDING => Leave
  | DTRACESPEC_ACTIVE | DTRACESPEC_ACTIVEMANY => Swap DTRACESPEC_DISCARDING
  | DTRACESPEC_ACTIVEONE =>
      if negb (offset =? 0) then Swap DTRACESPEC_INACTIVE else Swap DTRACESPEC_DISCARDING
  end.

Definition buffer_choice (current : spec_state) (offset : Z) : cas_choice :=
  match current with
  | DTRACESPEC_INACTIVE | DTRACESPEC_COMMITTINGMANY | DTRACESPEC_DISCARDING => Leave
  | DTRACESPEC_COMMITTING => if offset =? 0 then Leave else Assert0
  | DTRACESPEC_ACTIVEONE => if negb (offset =? 0) then Keep else Swap DTRACESPEC_ACTIVEMANY
  | DTRACESPEC_ACTIVEMANY => Keep
  | DTRACESPEC_ACTIVE => Swap DTRACESPEC_ACTIVEONE
  end.

(** The commit that was the only user of the speculation makes it inactive itself. *)
Definition commit_last (current : spec_state) (new : option spec_state) : bool :=
  match current, new with
  | DTRACESPEC_ACTIVE, _ => true
  | DTRACESPEC_ACTIVEONE, Some DTRACESPEC_COMMITTING => true
  | _, _ => false
  end.

(** * Operations, run alone *)

Definition set_spec (i : nat) (sp : dtrace_speculation_t) (s : spec_sys) : spec_sys :=
  SpecSys (<[i := sp]> (dts_speculations s)) (dts_buffer s) (dts_speculations_busy s)
    (dts_speculations_unavail s) (cpuc_flags s) (sys_mem s).

Definition with_state (st : spec_state) (sp : dtrace_speculation_t) : dtrace_speculation_t :=
  Speculation st (dtsp_cleaning sp) (dtsp_buffer sp).

Definition with_buffer (cpu : nat) (b : dtrace_buffer) (sp : dtrace_speculation_t) : dtrace_speculation_t :=
  Speculation (dtsp_state sp) (dtsp_cleaning sp) (<[cpu := b]> (dtsp_buffer sp)).

Definition set_dest (cpu : nat) (b : dtrace_buffer) (mem : memory) (s : spec_sys) : spec_sys :=
  SpecSys (dts_speculations s) (<[cpu := b]> (dts_buffer s)) (dts_speculations_busy s)
    (dts_speculations_unavail s) (cpuc_flags s) mem.

Definition flag_illop (cpu : nat) (s : spec_sys) : spec_sys :=
  SpecSys (dts_speculations s) (dts_buffer s) (dts_speculations_busy s) (dts_speculations_unavail s)
    (alter (fun f => Z.lor f CPU_DTRACE_ILLOP) cpu (cpuc_flags s)) (sys_mem s).

Definition is_busy (st : spec_state) : bool :=
  match st with
  | DTRACESPEC_COMMITTINGMANY | DTRACESPEC_COMMITTING | DTRACESPEC_DISCARDING => true
  | _ => false
  end.

(** The scan: the first inactive speculation, or whether a busy one was met. *)
Fixpoint find_inactive (i : nat) (busy : bool) (l : list dtrace_speculation_t) : nat + bool :=
  match l with
  | [] => inr busy
  | sp :: l =>
      if decide (dtsp_state sp = DTRACESPEC_INACTIVE) then inl i
      else find_inactive (S i) (busy || is_busy (dtsp_state sp)) l
  end.

Definition dtrace_speculation (s : spec_sys) : Z * spec_sys :=
  match find_inactive 0 false (dts_speculations s) with
  | inl i =>
      (Z.of_nat i + 1,
       SpecSys (alter (with_state DTRACESPEC_ACTIVE) i (dts_speculations s)) (dts_buffer s)
         (dts_speculations_busy s) (dts_speculations_unavail s) (cpuc_flags s) (sys_mem s))
  | inr busy =>
      (0, SpecSys (dts_speculations s) (dts_buffer s)
         (if busy : bool then u32 (dts_speculations_busy s + 1) else dts_speculations_busy s)
         (if busy then dts_speculations_unavail s else u32 (dts_speculations_unavail s + 1))
         (cpuc_flags s) (sys_mem s))
  end.

(** One uint64_t for [n] = 8, one uint8_t for [n] = 1, from [saddr] to [daddr]. *)
Definition copy_unit (n daddr saddr : Z) (mem : memory) : memory :=
  fun x => if (daddr <=? x) && (x <? daddr + n) then mem (saddr + (x - daddr)) else mem x.

(** While at least [n] bytes are left, copy [n]. *)
Definition copy_loop (n dlimit : Z) (s : Z * Z * memory) : option (Z * Z * memory) :=
  zloop (fun '(daddr, saddr, mem) =>
    if n <=? dlimit - daddr then inl (daddr + n, saddr + n, copy_unit n daddr saddr mem)
    else inr (daddr, saddr, mem)) (dlimit - s.1.1 + 1) s.

(** The buffer copy: 8-byte units, then the left-over bytes. *)
Definition commit_copy (daddr saddr len : Z) (mem : memory) : option memory :=
  match copy_loop 8 (daddr + len) (daddr, saddr, mem) with
  | None => None
  | Some s =>
      match copy_loop 1 (daddr + len) s with
      | None => None
      | Some (_, _, mem) => Some mem
      end
  end.

(** Append the contents of [src] to [dest], or count a drop. *)
Definition commit_data (bst : buf_state) (src dest : dtrace_buffer) (mem : memory)
    : option (dtrace_buffer * memory) :=
  match dtrace_buffer_reserve bst (dtb_offset src) 8 None dest mem with
  | None => None
  | Some rv =>
      if rv_offs rv <? 0 then Some (dtrace_buffer_drop (rv_buf rv), rv_mem rv)
      else
        match commit_copy (dtb_tomax (rv_buf rv) + rv_offs rv) (dtb_tomax src) (dtb_offset src) (rv_mem rv) with
        | None => None
        | Some mem => Some (set_offset (rv_offs rv + dtb_offset src) (rv_buf rv), mem)
        end
  end.

(** [src->dtb_offset = 0; src->dtb_xamot_drops += src->dtb_drops; src->dtb_drops = 0]. *)
Definition commit_reset (b : dtrace_buffer) : dtrace_buffer :=
  Buffer 0 (dtb_size b) (dtb_flags b) 0 (dtb_tomax b) (dtb_xamot b) (dtb_xamot_flags b)
    (u32 (dtb_xamot_drops b + dtb_drops b)) (dtb_xamot_offset b) (dtb_errors b) (dtb_xamot_errors b).

(** [buf->dtb_offset = 0; buf->dtb_drops = 0]. *)
Definition discard_reset (b : dtrace_buffer) : dtrace_buffer := set_drops 0 (set_offset 0 b).

(** The part of dtrace_speculation_commit() behind its compare-and-swap loop. *)
Definition commit_rest (bst : buf_state) (cpu i : nat) (last : bool) (s : spec_sys) : option spec_sys :=
  match dts_speculations s !! i with
  | None => None
  | Some sp =>
      match dtsp_buffer sp !! cpu, dts_buffer s !! cpu with
      | Some src, Some dest =>
          match commit_data bst src dest (sys_mem s) with
          | None => None
          | Some (dest, mem) =>
              let s := set_dest cpu dest mem s in
              if last then
                if decide (dtsp_state sp = DTRACESPEC_COMMITTING) then
                  Some (set_spec i (with_state DTRACESPEC_INACTIVE (with_buffer cpu (commit_reset src) sp)) s)
                else None                                   (* ASSERT(rval == COMMITTING) *)
              else Some (set_spec i (with_buffer cpu (commit_reset src) sp) s)
          end
      | _, _ => None
      end
  end.

(** The speculation and this CPU's buffer that an id names. *)
Definition which_spec (s : spec_sys) (cpu : nat) (which : Z)
    : option (dtrace_speculation_t * dtrace_buffer) :=
  match dts_speculations s !! Z.to_nat (which - 1) with
  | Some sp => match dtsp_buffer sp !! cpu with Some b => Some (sp, b) | None => None end
  | None => None
  end.

Definition dtrace_speculation_commit (bst : buf_state) (cpu : nat) (which : Z) (s : spec_sys)
    : option spec_sys :=
  if which =? 0 then Some s
  else if Z.of_nat (length (dts_speculations s)) <? which then Some (flag_illop cpu s)
  else
    match which_spec s cpu which with
    | None => None
    | Some (sp, src) =>
        let i := Z.to_nat (which - 1) in
        let current := dtsp_state sp in
        match commit_choice current (dtb_offset src) with
        | Leave => Some s
        | Assert0 => None
        | Keep => commit_rest bst cpu i (commit_last current None) s
        | Swap new => commit_rest bst cpu i (commit_last current (Some new)) (set_spec i (with_state new sp) s)
        end
    end.

Definition dtrace_speculation_discard (cpu : nat) (which : Z) (s : spec_sys) : option spec_sys :=
  if which =? 0 then Some s
  else if Z.of_nat (length (dts_speculations s)) <? which then Some (flag_illop cpu s)
  else
    match which_spec s cpu which with
    | None => None
    | Some (sp, buf) =>
        match discard_choice (dtsp_state sp) (dtb_offset buf) with
        | Leave => Some s
        | Swap new =>
            Some (set_spec (Z.to_nat (which - 1)) (with_state new (with_buffer cpu (discard_reset buf) sp)) s)
        | _ => None
        end
    end.

(** The result says whether the buffer is returned (or NULL). *)
Definition dtrace_speculation_buffer (cpu : nat) (which : Z) (s : spec_sys) : option (bool * spec_sys) :=
  if which =? 0 then Some (false, s)
  else if Z.of_nat (length (dts_speculations s)) <? which then Some (false, flag_illop cpu s)
  else
    match which_spec s cpu which with
    | None => None
    | Some (sp, buf) =>
        match buffer_choice (dtsp_state sp) (dtb_offset buf) with
        | Leave => Some (false, s)
        | Assert0 => None
        | Keep => Some (true, s)
        | Swap new => Some (true, set_spec (Z.to_nat (which - 1)) (with_state new sp) s)
        end
    end.

(** ** Cleaning *)

(** Speculation [i] in the loop of dtrace_speculation_clean_here(). *)
Definition clean_one (bst : buf_state) (cpu i : nat) (s : spec_sys) : option spec_sys :=
  match dts_speculations s !! i with
  | None => None
  | Some sp =>
      match dtsp_buffer sp !! cpu with
      | None => None
      | Some src =>
          if dtb_tomax src =? 0 then Some s
          else
            match dtsp_state sp with
            | DTRACESPEC_DISCARDING => Some (set_spec i (with_buffer cpu (set_offset 0 src) sp) s)
            | DTRACESPEC_COMMITTINGMANY =>
                if dtb_offset src =? 0 then Some s
                else dtrace_speculation_commit bst cpu (Z.of_nat i + 1) s
            | _ => Some s
            end
      end
  end.

Fixpoint foldM {A S} (f : A -> S -> option S) (l : list A) (s : S) : option S :=
  match l with
  | [] => Some s
  | a :: l => match f a s with Some s => foldM f l s | None => None end
  end.

Fixpoint map_opt {A B} (f : A -> option B) (l : list A) : option (list B) :=
  match l with
  | [] => Some []
  | a :: l =>
      match f a with
      | Some b => match map_opt f l with Some l => Some (b :: l) | None => None end
      | None => None
      end
  end.

Definition dtrace_speculation_clean_here (bst : buf_state) (cpu : nat) (s : spec_sys) : option spec_sys :=
  match dts_buffer s !! cpu with
  | None => None
  | Some dest =>
      if dtb_tomax dest =? 0 then Some s
      else foldM (clean_one bst cpu) (seq 0 (length (dts_speculations s))) s
  end.

Definition needs_cleaning (st : spec_state) : bool :=
  match st with DTRACESPEC_DISCARDING | DTRACESPEC_COMMITTINGMANY => true | _ => false end.

(** The first loop of dtrace_speculation_clean(); [None]: ASSERT(!dtsp_cleaning). *)
Definition mark_one (sp : dtrace_speculation_t) : option dtrace_speculation_t :=
  if dtsp_cleaning sp then None
  else Some (Speculation (dtsp_state sp) (needs_cleaning (dtsp_state sp)) (dtsp_buffer sp)).

(** The last loop; [None]: an ASSERT fails. *)
Definition finish_one (sp : dtrace_speculation_t) : option dtrace_speculation_t :=
  if negb (dtsp_cleaning sp) then Some sp
  else if negb (needs_cleaning (dtsp_state sp)) then None
  else Some (Speculation DTRACESPEC_INACTIVE false (dtsp_buffer sp)).

Definition set_specs (l : list dtrace_speculation_t) (s : spec_sys) : spec_sys :=
  SpecSys l (dts_buffer s) (dts_speculations_busy s) (dts_speculations_unavail s) (cpuc_flags s) (sys_mem s).

(** [cpus]: the order in which the cross call reaches the CPUs. *)
Definition dtrace_speculation_clean (bst : buf_state) (cpus : list nat) (s : spec_sys) : option spec_sys :=
  match map_opt mark_one (dts_speculations s) with
  | None => None
  | Some l =>
      let s := set_specs l s in
      if negb (existsb dtsp_cleaning l) then Some s
      else
        match foldM (dtrace_speculation_clean_here bst) cpus s with
        | None => None
        | Some s =>
            match map_opt finish_one (dts_speculations s) with
            | None => None
            | Some l => Some (set_specs l s)
            end
        end
  end.

(** * Interleavings

    One speculation and the CPUs [0 .. ncpu).  A CPU runs one operation at a time with
    interrupts disabled, so its buffer is its own; a step is what a CPU or the cleaner
    does up to and including its next access to the state word.  Speculations share
    nothing but the cleaner, so an execution of the system is, for each speculation, a
    sequence of these steps in which the CPUs may also pause. *)

(** Where a CPU is in an operation on the speculation. *)
Inductive role :=
| Idle
| Writing                   (** got the buffer from dtrace_speculation_buffer() *)
| Committing (last : bool)  (** behind the compare-and-swap loop of a commit *)
| Resetting.                (** about to empty its buffer *)

(** The cleaner: idle, past its marking loop, or in the cross call with the CPUs that
    have not run dtrace_speculation_clean_here() yet. *)
Inductive cleaner := CleanerIdle | Marked | Crossing (pending : list nat).

Record proto := Proto {
  p_state : spec_state;
  p_cleaning : bool;
  p_off : nat -> Z;
  p_role : nat -> role;
  p_cleaner : cleaner
}.

Section Protocol.
Context (ncpu : nat).

Definition set_role (c : nat) (r : role) (p : proto) : proto :=
  Proto (p_state p) (p_cleaning p) (p_off p) (<[c := r]> (p_role p)) (p_cleaner p).
Definition set_st (st : spec_state) (p : proto) : proto :=
  Proto st (p_cleaning p) (p_off p) (p_role p) (p_cleaner p).
Definition set_off (c : nat) (o : Z) (p : proto) : proto :=
  Proto (p_state p) (p_cleaning p) (<[c := o]> (p_off p)) (p_role p) (p_cleaner p).
Definition set_cleaner (cl : cleaner) (p : proto) : proto :=
  Proto (p_state p) (p_cleaning p) (p_off p) (p_role p) cl.
Definition set_cleaning (b : bool) (p : proto) : proto :=
  Proto (p_state p) b (p_off p) (p_role p) (p_cleaner p).

Inductive pstep (p : proto) : proto -> Prop :=
| PActivate :                                    (** dtrace_speculation() *)
    p_state p = DTRACESPEC_INACTIVE -> pstep p (set_st DTRACESPEC_ACTIVE p)
| PAcquire c :                                   (** dtrace_speculation_buffer() *)
    (c < ncpu)%nat -> p_role p c = Idle -> buffer_choice (p_state p) (p_off p c) = Keep ->
    pstep p (set_role c Writing p)
| PAcquireSwap c new :
    (c < ncpu)%nat -> p_role p c = Idle -> buffer_choice (p_state p) (p_off p c) = Swap new ->
    pstep p (set_role c Writing (set_st new p))
| PWrite c o :                                   (** the record is stored, or given up *)
    p_role p c = Writing -> p_off p c <= o -> pstep p (set_role c Idle (set_off c o p))
| PCommit c :                                    (** dtrace_speculation_commit() *)
    (c < ncpu)%nat -> p_role p c = Idle -> commit_choice (p_state p) (p_off p c) = Keep ->
    pstep p (set_role c (Committing (commit_last (p_state p) None)) p)
| PCommitSwap c new :
    (c < ncpu)%nat -> p_role p c = Idle -> commit_choice (p_state p) (p_off p c) = Swap new ->
    pstep p (set_role c (Committing (commit_last (p_state p) (Some new))) (set_st new p))
| PCopied c :
    p_role p c = Committing false -> pstep p (set_role c Resetting p)
| PCopiedLast c :
    p_role p c = Committing true -> p_state p = DTRACESPEC_COMMITTING ->
    pstep p (set_role c Resetting (set_st DTRACESPEC_INACTIVE p))
| PReset c :
    p_role p c = Resetting -> pstep p (set_role c Idle (set_off c 0 p))
| PDiscard c new :                               (** dtrace_speculation_discard() *)
    (c < ncpu)%nat -> p_role p c = Idle -> discard_choice (p_state p) (p_off p c) = Swap new ->
    pstep p (set_role c Resetting (set_st new p))
| PMark :                                        (** dtrace_speculation_clean() *)
    p_cleaner p = CleanerIdle ->
    pstep p (set_cleaner Marked (set_cleaning (needs_cleaning (p_state p)) p))
| PNoWork :
    p_cleaner p = Marked -> p_cleaning p = false -> pstep p (set_cleaner CleanerIdle p)
| PCross :
    p_cleaner p = Marked -> pstep p (set_cleaner (Crossing (seq 0 ncpu)) p)
| PCleanHere c l l' :                            (** dtrace_speculation_clean_here() *)
    p_cleaner p = Crossing (l ++ c :: l') -> p_role p c = Idle ->
    pstep p (set_cleaner (Crossing (l ++ l'))
      (set_off c (if needs_cleaning (p_state p) then 0 else p_off p c) p))
| PFinish :
    p_cleaner p = Crossing [] -> p_cleaning p = true -> needs_cleaning (p_state p) = true ->
    pstep p (set_cleaner CleanerIdle (set_cleaning false (set_st DTRACESPEC_INACTIVE p)))
| PFinishOther :
    p_cleaner p = Crossing [] -> p_cleaning p = false -> pstep p (set_cleaner CleanerIdle p).

(** A CPU that has, or may be about to have, data in its buffer. *)
Definition user (p : proto) (c : nat) : Prop :=
  p_role p c = Writing \/ (p_off p c <> 0 /\ p_role p c <> Resetting).

Record proto_inv (p : proto) : Prop := ProtoInv {
  pi_last : forall c, p_role p c = Committing true -> p_state p = DTRACESPEC_COMMITTING;
  pi_committing : p_state p = DTRACESPEC_COMMITTING ->
    exists c0, p_role p c0 = Committing true /\
      forall c, c <> c0 -> ~ user p c /\ p_role p c <> Committing true;
  pi_unused : p_state p = DTRACESPEC_INACTIVE \/ p_state p = DTRACESPEC_ACTIVE -> forall c, ~ user p c;
  pi_one : p_state p = DTRACESPEC_ACTIVEONE -> forall c c', user p c -> user p c' -> c = c';
  pi_many : forall c, p_role p c = Committing false ->
    p_state p = DTRACESPEC_COMMITTINGMANY \/ p_off p c = 0;
  pi_cleaning : p_cleaning p = true -> needs_cleaning (p_state p) = true /\ p_cleaner p <> CleanerIdle;
  pi_cleaned : p_cleaning p = true -> forall l, p_cleaner p = Crossing l ->
    forall c, ~ In c l -> ~ user p c;
  pi_outside : forall c, (ncpu <= c)%nat -> p_role p c = Idle /\ p_off p c = 0
}.

(** What the ASSERTs of the operations demand of a state. *)
Definition asserts_hold (p : proto) : Prop :=
  (forall c, p_role p c = Idle -> commit_choice (p_state p) (p_off p c) <> Assert0 /\
     buffer_choice (p_state p) (p_off p c) <> Assert0) /\
  (forall c, p_role p c = Committing true -> p_state p = DTRACESPEC_COMMITTING) /\
  (p_cleaner p = CleanerIdle -> p_cleaning p = false) /\
  (p_cleaner p = Crossing [] -> p_cleaning p = true -> needs_cleaning (p_state p) = true).

Lemma proto_inv_asserts p : proto_inv p -> asserts_hold p.
Proof.
  intros Hp. split_and!.
  - intros c Hc. assert (Hz : p_state p = DTRACESPEC_COMMITTING -> p_off p c = 0).
    { intros Hs. destruct (pi_committing p Hp Hs) as (c0 & Hc0 & Ho).
      assert (Hne : c <> c0) by congruence. destruct (Ho c Hne) as [Hu _].
      destruct (decide (p_off p c = 0)) as [|Hn]; [done|]. exfalso. apply Hu. right. by rewrite Hc. }
    destruct (p_state p); cbn; try done; try (by destruct (_ =? _)). by rewrite Hz.
  - apply (pi_last p Hp).
  - intros Hi. destruct (p_cleaning p) eqn:E; [|done]. destruct (pi_cleaning p Hp E). done.
  - intros _ Hc. by apply (pi_cleaning p Hp).
Qed.

Ltac fn_cases :=
  repeat match goal with
  | H : context [<[?c := _]> _ ?x] |- _ =>
      destruct (decide (c = x)) as [?|?];
      [subst; rewrite ?fn_lookup_insert in * | rewrite ?(fn_lookup_insert_ne _ c x) in * by done]
  | |- context [<[?c := _]> _ ?x] =>
      destruct (decide (c = x)) as [?|?];
      [subst; rewrite ?fn_lookup_insert in * | rewrite ?(fn_lookup_insert_ne _ c x) in * by done]
  end.

(** The CPUs other than [c] are as before. *)
Lemma user_other p c r o st x :
  c <> x -> user (set_role c r (set_off c o (set_st st p))) x <-> user p x.
Proof. intros Hx. unfold user. cbn. by rewrite !fn_lookup_insert_ne. Qed.

Lemma user_self p c r o st :
  user (set_role c r (set_off c o (set_st st p))) c <-> r = Writing \/ (o <> 0 /\ r <> Resetting).
Proof. unfold user. cbn. by rewrite !fn_lookup_insert. Qed.

(** All the steps of CPU [c] on its own role and buffer have one shape. *)
Definition cpu_step (c : nat) (r : role) (o : Z) (st : spec_state) (p : proto) : proto :=
  set_role c r (set_off c o (set_st st p)).

(** They keep the invariant when the new state allows what the CPUs now do. *)
Lemma cpu_step_inv p c r o st :
  proto_inv p -> (c < ncpu)%nat ->
  (r = Committing true -> st = DTRACESPEC_COMMITTING) ->
  (forall x, x <> c -> p_role p x = Committing true -> st = DTRACESPEC_COMMITTING) ->
  (st = DTRACESPEC_COMMITTING ->
    (r = Committing true /\ forall x, x <> c -> ~ user p x /\ p_role p x <> Committing true) \/
    (p_state p = DTRACESPEC_COMMITTING /\ r <> Committing true /\ ~ (r = Writing \/ (o <> 0 /\ r <> Resetting)) /\
     p_role p c <> Committing true)) ->
  (st = DTRACESPEC_INACTIVE \/ st = DTRACESPEC_ACTIVE ->
    ~ (r = Writing \/ (o <> 0 /\ r <> Resetting)) /\ forall x, x <> c -> ~ user p x) ->
  (st = DTRACESPEC_ACTIVEONE ->
    ((r = Writing \/ (o <> 0 /\ r <> Resetting)) -> forall x, x <> c -> ~ user p x) /\
    forall x y, x <> c -> y <> c -> user p x -> user p y -> x = y) ->
  (r = Committing false -> st = DTRACESPEC_COMMITTINGMANY \/ o = 0) ->
  (st = DTRACESPEC_COMMITTINGMANY \/ p_state p <> DTRACESPEC_COMMITTINGMANY \/
    (forall x, x <> c -> p_role p x = Committing false -> p_off p x = 0)) ->
  (p_cleaning p = true -> needs_cleaning st = true /\
    (user p c \/ ~ (r = Writing \/ (o <> 0 /\ r <> Resetting)))) ->
  proto_inv (cpu_step c r o st p).
Proof.
  intros [H1 H2 H3 H4 H5 H6 H7 H8] Hc Hr Hl Hco Hun Hone Hm Hmany Hcl. unfold cpu_step. split.
  - intros x. cbn. destruct (decide (c = x)) as [<-|Hx].
    + rewrite fn_lookup_insert. done.
    + rewrite fn_lookup_insert_ne by done. by apply Hl.
  - intros Hst. cbn in Hst. destruct (Hco Hst) as [[-> Hoth]|(Hs & Hnr & Hnu & Hnc)].
    + exists c. split; [cbn; by rewrite fn_lookup_insert|]. intros x Hx. rewrite user_other by done.
      cbn. rewrite fn_lookup_insert_ne by done. by apply Hoth.
    + destruct (H2 Hs) as (c0 & Hc0 & Hoth). assert (c0 <> c) by congruence.
      exists c0. split; [cbn; by rewrite fn_lookup_insert_ne|]. intros x Hx.
      destruct (decide (c = x)) as [<-|Hcx].
      * rewrite user_self. cbn. rewrite fn_lookup_insert. done.
      * rewrite user_other by done. cbn. rewrite fn_lookup_insert_ne by done. by apply Hoth.
  - intros Hst x. cbn in Hst. destruct (Hun Hst) as [Hc1 Hx1]. destruct (decide (c = x)) as [<-|Hx].
    + by rewrite user_self.
    + rewrite user_other by done. by apply Hx1.
  - intros Hst x y. cbn in Hst. destruct (Hone Hst) as [Hc1 Hxy].
    destruct (decide (c = x)) as [<-|Hx], (decide (c = y)) as [<-|Hy]; rewrite ?user_self, ?user_other by done.
    + done.
    + intros Hu Hv. exfalso. by apply (Hc1 Hu y).
    + intros Hv Hu. exfalso. by apply (Hc1 Hu x).
    + by apply Hxy.
  - intros x. cbn. destruct (decide (c = x)) as [<-|Hx].
    + rewrite !fn_lookup_insert. done.
    + rewrite !fn_lookup_insert_ne by done. intros Hrx. destruct (H5 x Hrx) as [Hs|]; [|by right].
      destruct Hmany as [?|[?|Hz]]; [by left|done|right; by apply Hz].
  - intros Hcl'. cbn in *. destruct (Hcl Hcl') as [? _]. split; [done|]. by apply H6.
  - intros Hcl' l Hl' x Hx. cbn in Hcl', Hl'. destruct (decide (c = x)) as [<-|Hcx].
    + rewrite user_self. destruct (Hcl Hcl') as [_ [Hu|]]; [|done]. exfalso. by apply (H7 Hcl' l Hl' c).
    + rewrite user_other by done. by eapply H7.
  - intros x Hx. cbn. rewrite !fn_lookup_insert_ne by lia. by apply H8.
Qed.

Lemma proto_inv_ext p q :
  p_state q = p_state p -> p_cleaning q = p_cleaning p -> p_cleaner q = p_cleaner p ->
  (forall c, p_role q c = p_role p c) -> (forall c, p_off q c = p_off p c) ->
  proto_inv p -> proto_inv q.
Proof.
  intros Hs Hc Hl Hr Ho [H1 H2 H3 H4 H5 H6 H7 H8].
  assert (Hu : forall c, user q c <-> user p c) by (intros c; unfold user; by rewrite Hr, Ho).
  split; rewrite ?Hs, ?Hc, ?Hl.
  - intros c. rewrite Hr. apply H1.
  - intros Hst. destruct (H2 Hst) as (c0 & Hc0 & Hoth). exists c0. rewrite Hr. split; [done|].
    intros c Hne. rewrite Hu, Hr. by apply Hoth.
  - intros Hst c. rewrite Hu. by apply H3.
  - intros Hst c c'. rewrite !Hu. by apply H4.
  - intros c. rewrite Hr, Ho. apply H5.
  - done.
  - intros Hcl l Hcr c Hin. rewrite Hu. by eapply H7.
  - intros c Hge. rewrite Hr, Ho. by apply H8.
Qed.

Lemma role_cpu p c : proto_inv p -> p_role p c <> Idle -> (c < ncpu)%nat.
Proof.
  intros Hp Hr. destruct (decide (c < ncpu)%nat) as [|Hn]; [done|].
  destruct (pi_outside p Hp c) as [Hi _]; [lia|done].
Qed.

Ltac proto_cpu p c r o st :=
  apply (proto_inv_ext (cpu_step c r o st p));
  [done|done|done
  |intros x; cbn; by (destruct (decide (c = x)) as [<-|?]; rewrite ?fn_lookup_insert, ?fn_lookup_insert_ne by done)
  |intros x; cbn; by (destruct (decide (c = x)) as [<-|?]; rewrite ?fn_lookup_insert, ?fn_lookup_insert_ne by done)
  |].

Lemma idle_user p c : p_role p c = Idle -> p_off p c <> 0 -> user p c.
Proof. intros Hr Ho. right. by rewrite Hr. Qed.

(** No CPU is the last committer unless the state says so. *)
Lemma no_last p x : proto_inv p -> p_state p <> DTRACESPEC_COMMITTING -> p_role p x <> Committing true.
Proof. intros Hp Hs Hr. by apply Hs, (pi_last p Hp x). Qed.

Lemma acquire_inv p c st :
  proto_inv p -> (c < ncpu)%nat -> p_role p c = Idle ->
  (buffer_choice (p_state p) (p_off p c) = Keep /\ st = p_state p) \/
  buffer_choice (p_state p) (p_off p c) = Swap st ->
  proto_inv (set_role c Writing (set_st st p)).
Proof.
  intros Hp Hc Hr Hch. proto_cpu p c Writing (p_off p c) st.
  assert (Hcases : (p_state p = DTRACESPEC_ACTIVE /\ st = DTRACESPEC_ACTIVEONE) \/
    (p_state p = DTRACESPEC_ACTIVEONE /\ p_off p c <> 0 /\ st = DTRACESPEC_ACTIVEONE) \/
    ((p_state p = DTRACESPEC_ACTIVEONE \/ p_state p = DTRACESPEC_ACTIVEMANY) /\ st = DTRACESPEC_ACTIVEMANY)).
  { destruct (p_state p) eqn:E; cbn in Hch; destruct (Z.eqb_spec (p_off p c) 0); cbn in Hch; intuition congruence. }
  assert (Hncl : p_cleaning p = true -> False).
  { intros Hcl. destruct (pi_cleaning p Hp Hcl) as [Hn _]. destruct Hcases as [[Hs _]|[[Hs _]|[[Hs|Hs] _]]];
      by rewrite Hs in Hn. }
  assert (Hns : p_state p <> DTRACESPEC_COMMITTING) by intuition congruence.
  apply cpu_step_inv; try done.
  - intros x _ Hx. by destruct (no_last p x Hp Hns).
  - intros ->. intuition congruence.
  - intros Hst. intuition congruence.
  - intros ->. destruct Hcases as [[Hs _]|[(Hs & Ho & _)|[_ ?]]]; [| |done].
    + pose proof (pi_unused p Hp (or_intror Hs)) as Hnu. split; [intros _ x _; apply Hnu|].
      intros x y _ _ Hx. by destruct (Hnu x).
    + pose proof (pi_one p Hp Hs) as H1. pose proof (idle_user p c Hr Ho) as Hu. split.
      * intros _ x Hx Hux. apply Hx. by apply H1.
      * intros x y _ _. apply H1.
  - right; left. intuition congruence.
Qed.

Lemma commit_inv p c st last :
  proto_inv p -> (c < ncpu)%nat -> p_role p c = Idle ->
  (commit_choice (p_state p) (p_off p c) = Keep /\ st = p_state p /\ last = commit_last (p_state p) None) \/
  (commit_choice (p_state p) (p_off p c) = Swap st /\ last = commit_last (p_state p) (Some st)) ->
  proto_inv (set_role c (Committing last) (set_st st p)).
Proof.
  intros Hp Hc Hr Hch. proto_cpu p c (Committing last) (p_off p c) st.
  assert (Hcases : (p_state p = DTRACESPEC_ACTIVE /\ st = DTRACESPEC_COMMITTING /\ last = true) \/
    (p_state p = DTRACESPEC_ACTIVEONE /\ p_off p c <> 0 /\ st = DTRACESPEC_COMMITTING /\ last = true) \/
    ((p_state p = DTRACESPEC_ACTIVEONE \/ p_state p = DTRACESPEC_ACTIVEMANY \/ p_state p = DTRACESPEC_COMMITTINGMANY)
      /\ st = DTRACESPEC_COMMITTINGMANY /\ last = false)).
  { destruct (p_state p) eqn:E; cbn in Hch; destruct (Z.eqb_spec (p_off p c) 0); cbn in Hch;
      destruct Hch as [(Hk & -> & ->)|([= <-] & ->)]; try discriminate; cbn; auto 10. }
  assert (Hns : p_state p <> DTRACESPEC_COMMITTING) by intuition congruence.
  assert (Hnl : forall x, p_role p x <> Committing true) by (intros x; by apply no_last).
  apply cpu_step_inv; try done.
  - intros [= ->]. intuition congruence.
  - intros x _ Hx. by destruct (Hnl x).
  - intros ->. left. destruct Hcases as [(Hs & _ & ->)|[(Hs & Ho & _ & ->)|(_ & ? & _)]]; [| |done].
    + split; [done|]. intros x _. split; [by apply (pi_unused p Hp (or_intror Hs))|apply Hnl].
    + split; [done|]. intros x Hx. split; [|apply Hnl]. intros Hu. apply Hx.
      apply (pi_one p Hp Hs); [done|by apply idle_user].
  - intros Hst. intuition congruence.
  - intros ->. intuition congruence.
  - intros [= ->]. intuition congruence.
  - intuition congruence.
  - intros Hcl. destruct (pi_cleaning p Hp Hcl) as [Hn _].
    assert (Hcm : p_state p = DTRACESPEC_COMMITTINGMANY /\ st = DTRACESPEC_COMMITTINGMANY).
    { destruct Hcases as [(Hs & _)|[(Hs & _)|([Hs|[Hs|Hs]] & ? & _)]]; by rewrite Hs in Hn. }
    destruct Hcm as [_ ->]. split; [done|]. destruct (decide (p_off p c = 0)) as [H0|H0].
    + right. intros [?|[? _]]; done.
    + left. by apply idle_user.
Qed.

Lemma discard_inv p c st :
  proto_inv p -> (c < ncpu)%nat -> p_role p c = Idle ->
  discard_choice (p_state p) (p_off p c) = Swap st -> proto_inv (set_role c Resetting (set_st st p)).
Proof.
  intros Hp Hc Hr Hch. proto_cpu p c Resetting (p_off p c) st.
  assert (Hcases : (p_state p = DTRACESPEC_ACTIVEONE /\ p_off p c <> 0 /\ st = DTRACESPEC_INACTIVE) \/
    ((p_state p = DTRACESPEC_ACTIVE \/ p_state p = DTRACESPEC_ACTIVEONE \/ p_state p = DTRACESPEC_ACTIVEMANY) /\
      st = DTRACESPEC_DISCARDING)).
  { destruct (p_state p) eqn:E; cbn in Hch; destruct (Z.eqb_spec (p_off p c) 0); cbn in Hch; intuition congruence. }
  assert (Hns : p_state p <> DTRACESPEC_COMMITTING) by intuition congruence.
  apply cpu_step_inv; try done.
  - intros x _ Hx. by destruct (no_last p x Hp Hns).
  - intros ->. intuition congruence.
  - intros Hst. destruct Hcases as [(Hs & Ho & _)|[_ ->]]; [|intuition congruence]. split; [intuition congruence|].
    intros x Hx Hu. apply Hx. apply (pi_one p Hp Hs); [done|by apply idle_user].
  - intros ->. intuition congruence.
  - right; left. intuition congruence.
  - intros Hcl. destruct (pi_cleaning p Hp Hcl) as [Hn _].
    destruct Hcases as [(Hs & _)|[[Hs|[Hs|Hs]] _]]; by rewrite Hs in Hn.
Qed.

Lemma write_inv p c o :
  proto_inv p -> p_role p c = Writing -> p_off p c <= o -> proto_inv (set_role c Idle (set_off c o p)).
Proof.
  intros Hp Hr Ho. proto_cpu p c Idle o (p_state p).
  assert (Hc : (c < ncpu)%nat) by (apply (role_cpu p); [done|by rewrite Hr]).
  assert (Hu : user p c) by (by left).
  assert (Hnc : p_state p <> DTRACESPEC_COMMITTING).
  { intros Hs. destruct (pi_committing p Hp Hs) as (c0 & Hc0 & Hoth). assert (Hne : c <> c0) by congruence.
    by destruct (Hoth c Hne). }
  assert (Hnu : ~ (p_state p = DTRACESPEC_INACTIVE \/ p_state p = DTRACESPEC_ACTIVE)).
  { intros Hs. by destruct (pi_unused p Hp Hs c). }
  apply cpu_step_inv; try done.
  - intros x _ Hx. by destruct (no_last p x Hp Hnc).
  - intros Hs. pose proof (pi_one p Hp Hs) as H1. split.
    + intros _ x Hx Hux. apply Hx. by apply H1.
    + intros x y _ _. apply H1.
  - destruct (decide (p_state p = DTRACESPEC_COMMITTINGMANY)); auto.
  - intros Hcl. split; [by apply (pi_cleaning p Hp)|by left].
Qed.

(** A CPU that empties its buffer, or is done with it, takes nothing from the others. *)
Lemma leave_inv p c r o :
  proto_inv p -> (c < ncpu)%nat -> (forall b, r <> Committing b) -> p_role p c <> Committing true ->
  ~ (r = Writing \/ (o <> 0 /\ r <> Resetting)) ->
  proto_inv (set_role c r (set_off c o p)).
Proof.
  intros Hp Hc Hrc Hnl Hnu. proto_cpu p c r o (p_state p).
  apply cpu_step_inv; try done.
  - intros ->. by destruct (Hrc true).
  - intros x _ Hx. by apply (pi_last p Hp x).
  - intros Hs. right. split_and!; (done || apply Hrc).
  - intros Hs. split; [done|]. intros x _. by apply (pi_unused p Hp).
  - intros Hs. split; [done|]. intros x y _ _. by apply (pi_one p Hp).
  - intros ->. by destruct (Hrc false).
  - destruct (decide (p_state p = DTRACESPEC_COMMITTINGMANY)); auto.
  - intros Hcl. split; [by apply (pi_cleaning p Hp)|by right].
Qed.

Lemma copied_inv p c :
  proto_inv p -> p_role p c = Committing false -> proto_inv (set_role c Resetting p).
Proof.
  intros Hp Hr. apply (proto_inv_ext (set_role c Resetting (set_off c (p_off p c) p))); try done.
  - intros x. cbn. by destruct (decide (c = x)) as [<-|?]; rewrite ?fn_lookup_insert, ?fn_lookup_insert_ne by done.
  - apply leave_inv; try done; [|by rewrite Hr|intuition congruence].
    apply (role_cpu p); [done|by rewrite Hr].
Qed.

Lemma copied_last_inv p c :
  proto_inv p -> p_role p c = Committing true -> p_state p = DTRACESPEC_COMMITTING ->
  proto_inv (set_role c Resetting (set_st DTRACESPEC_INACTIVE p)).
Proof.
  intros Hp Hr Hs. proto_cpu p c Resetting (p_off p c) DTRACESPEC_INACTIVE.
  assert (Hc : (c < ncpu)%nat) by (apply (role_cpu p); [done|by rewrite Hr]).
  destruct (pi_committing p Hp Hs) as (c0 & Hc0 & Hoth).
  assert (c = c0) as <-.
  { destruct (decide (c = c0)) as [|Hne]; [done|]. by destruct (Hoth c Hne). }
  apply cpu_step_inv; try done.
  - intros x Hx Hrx. by destruct (Hoth x Hx).
  - intros _. split; [intuition congruence|]. intros x Hx. by apply Hoth.
  - right; left. by rewrite Hs.
  - intros Hcl. destruct (pi_cleaning p Hp Hcl) as [Hn _]. by rewrite Hs in Hn.
Qed.

Lemma activate_inv p : proto_inv p -> p_state p = DTRACESPEC_INACTIVE -> proto_inv (set_st DTRACESPEC_ACTIVE p).
Proof.
  intros [H1 H2 H3 H4 H5 H6 H7 H8] Hs. split; cbn; try done.
  - intros c Hc. apply H1 in Hc. congruence.
  - intros _. apply H3. by left.
  - intros c Hc. destruct (H5 c Hc); [congruence|by right].
  - intros Hcl. destruct (H6 Hcl) as [Hn _]. by rewrite Hs in Hn.
Qed.

Lemma cleaner_inv p cl b :
  proto_inv p -> (b = true -> needs_cleaning (p_state p) = true /\ cl <> CleanerIdle) ->
  (b = true -> forall l, cl = Crossing l -> forall c, ~ In c l -> ~ user p c) ->
  proto_inv (set_cleaner cl (set_cleaning b p)).
Proof. intros [H1 H2 H3 H4 H5 H6 H7 H8] Hb Hl. by split. Qed.

Lemma clean_here_inv p c l l' :
  proto_inv p -> p_cleaner p = Crossing (l ++ c :: l') -> p_role p c = Idle ->
  proto_inv (set_cleaner (Crossing (l ++ l'))
    (set_off c (if needs_cleaning (p_state p) then 0 else p_off p c) p)).
Proof.
  intros Hp Hcl Hr. set (o := if needs_cleaning (p_state p) then 0 else p_off p c).
  destruct (decide (c < ncpu)%nat) as [Hc|Hc].
  - assert (Hq : proto_inv (set_role c Idle (set_off c o p))).
    { unfold o. destruct (needs_cleaning (p_state p)) eqn:En.
      - apply leave_inv; try done; [by rewrite Hr|intuition congruence].
      - apply (proto_inv_ext p); try done; intros x; cbn;
          destruct (decide (c = x)) as [<-|?]; rewrite ?fn_lookup_insert, ?fn_lookup_insert_ne by done; done. }
    pose proof Hq as [Q1 Q2 Q3 Q4 Q5 Q6 Q7 Q8].
    apply (proto_inv_ext (set_cleaner (Crossing (l ++ l')) (set_cleaning (p_cleaning p) (set_role c Idle (set_off c o p)))));
      try done.
    { intros x. cbn. destruct (decide (c = x)) as [<-|?]; rewrite ?fn_lookup_insert, ?fn_lookup_insert_ne by done; done. }
    apply cleaner_inv; [done| |].
    + intros Hb. destruct (pi_cleaning p Hp Hb) as [Hn _]. by split.
    + intros Hb ll [= <-] x Hx. destruct (decide (c = x)) as [<-|Hcx].
      * pose proof (pi_cleaning p Hp Hb) as [Hn _]. unfold o. rewrite Hn.
        unfold user. cbn. rewrite !fn_lookup_insert. intuition congruence.
      * apply (Q7 Hb _ Hcl). intros Hin. apply Hx. rewrite in_app_iff in *. destruct Hin as [?|[?|?]]; auto. congruence.
  - assert (Hout : p_off p c = 0) by (apply (pi_outside p Hp); lia).
    assert (Ho : o = 0) by (unfold o; by destruct (needs_cleaning _)).
    apply (proto_inv_ext (set_cleaner (Crossing (l ++ l')) (set_cleaning (p_cleaning p) p))); try done.
    { intros x. cbn. destruct (decide (c = x)) as [<-|?]; rewrite ?fn_lookup_insert, ?fn_lookup_insert_ne by done; congruence. }
    apply cleaner_inv; [done| |].
    + intros Hb. destruct (pi_cleaning p Hp Hb) as [Hn _]. by split.
    + intros Hb ll [= <-] x Hx. destruct (decide (c = x)) as [<-|Hcx].
      * unfold user. rewrite Hr, Hout. intuition congruence.
      * apply (pi_cleaned p Hp Hb _ Hcl). intros Hin. apply Hx. rewrite in_app_iff in *.
        destruct Hin as [?|[?|?]]; auto. congruence.
Qed.

Lemma finish_inv p :
  proto_inv p -> p_cleaner p = Crossing [] -> p_cleaning p = true ->
  proto_inv (set_cleaner CleanerIdle (set_cleaning false (set_st DTRACESPEC_INACTIVE p))).
Proof.
  intros [H1 H2 H3 H4 H5 H6 H7 H8] Hcl Hb. destruct (H6 Hb) as [Hn _].
  assert (Hnu : forall c, ~ user p c) by (intros c; apply (H7 Hb [] Hcl); intros []).
  split; cbn; try done.
  - intros c Hc. apply H1 in Hc. by rewrite Hc in Hn.
  - intros c Hc. right. destruct (decide (p_off p c = 0)) as [|Ho]; [done|]. exfalso. apply (Hnu c). right. by rewrite Hc.
Qed.

Lemma pstep_inv p p' : proto_inv p -> pstep p p' -> proto_inv p'.
Proof.
  intros Hp Hstep. destruct Hstep.
  - by apply activate_inv.
  - apply (proto_inv_ext (set_role c Writing (set_st (p_state p) p))); try done. apply acquire_inv; auto.
  - apply acquire_inv; auto.
  - by apply write_inv.
  - apply (proto_inv_ext (set_role c (Committing (commit_last (p_state p) None)) (set_st (p_state p) p))); try done.
    apply commit_inv; auto.
  - apply commit_inv; auto.
  - by apply copied_inv.
  - by apply copied_last_inv.
  - apply leave_inv; try done; [|congruence|intuition congruence].
    apply (role_cpu p); [done|]. congruence.
  - by apply discard_inv.
  - apply cleaner_inv; [done|intros Hb; by split|intros Hb l Hl; discriminate].
  - apply (proto_inv_ext (set_cleaner CleanerIdle (set_cleaning false p))); try done. by apply cleaner_inv.
  - apply (proto_inv_ext (set_cleaner (Crossing (seq 0 ncpu)) (set_cleaning (p_cleaning p) p))); try done.
    apply cleaner_inv; [done| |].
    + intros Hb. destruct (pi_cleaning p Hp Hb). by split.
    + intros Hb l [= <-] c Hc. rewrite in_seq in Hc. destruct (pi_outside p Hp c) as [Hr Ho]; [lia|].
      unfold user. rewrite Hr, Ho. intuition congruence.
  - by apply clean_here_inv.
  - by apply finish_inv.
  - apply (proto_inv_ext (set_cleaner CleanerIdle (set_cleaning false p))); try done. by apply cleaner_inv.
Qed.

Definition proto_init : proto := Proto DTRACESPEC_INACTIVE false (fun _ => 0) (fun _ => Idle) CleanerIdle.

Lemma proto_init_inv : proto_inv proto_init.
Proof. split; cbn; try done. - intros _ c. unfold user. cbn. intuition congruence. Qed.

Lemma reachable_inv p : rtc pstep proto_init p -> proto_inv p.
Proof.
  intros Hr. assert (H : forall q, proto_inv q -> rtc pstep q p -> proto_inv p); [|apply (H _ proto_init_inv Hr)].
  clear Hr. intros q Hq Hr. induction Hr as [|q q1 p Hs _ IH]; [done|]. apply IH. by eapply pstep_inv.
Qed.
End Protocol.

(** * The copy of a commit *)

(** [len] bytes of [mem] from [s] are at [d]; the rest is as in [mem]. *)
Definition moved (d s len : Z) (mem mem' : memory) : Prop :=
  forall x, mem' x = if (d <=? x) && (x <? d + len) then mem (s + (x - d)) else mem x.

Definition apart (d s len : Z) : Prop := d + len <= s \/ s + len <= d.

Lemma moved_nil d s mem : moved d s 0 mem mem.
Proof. intros x. destruct (Z.leb_spec d x), (Z.ltb_spec x (d + 0)); (done || lia). Qed.

Lemma moved_unit d s len n k mem mem' :
  apart d s len -> moved d s k mem mem' -> 0 <= k -> 0 < n -> k + n <= len ->
  moved d s (k + n) mem (copy_unit n (d + k) (s + k) mem').
Proof.
  intros Ha Hm Hk Hn Hle x. unfold copy_unit, apart in *.
  destruct (Z.leb_spec (d + k) x), (Z.ltb_spec x (d + k + n)); cbn [andb].
  - rewrite Hm. destruct (Z.leb_spec d (s + k + (x - (d + k)))), (Z.ltb_spec (s + k + (x - (d + k))) (d + k)); cbn [andb];
      try lia; destruct (Z.leb_spec d x), (Z.ltb_spec x (d + (k + n))); try lia; f_equal; lia.
  - rewrite Hm. destruct (Z.leb_spec d x), (Z.ltb_spec x (d + k)), (Z.ltb_spec x (d + (k + n))); (done || lia).
  - rewrite Hm. destruct (Z.leb_spec d x), (Z.ltb_spec x (d + k)), (Z.ltb_spec x (d + (k + n))); (done || lia).
  - lia.
Qed.

Lemma copy_loop_spec n d s len k mem mem' :
  apart d s len -> moved d s k mem mem' -> 0 <= k <= len -> 0 < n ->
  exists k' mem'', copy_loop n (d + len) (d + k, s + k, mem') = Some (d + k', s + k', mem'') /\
    moved d s k' mem mem'' /\ k <= k' <= len /\ len - k' < n.
Proof.
  intros Ha Hm Hk Hn.
  pose (I := fun '((da, sa, m) : Z * Z * memory) =>
    exists j, da = d + j /\ sa = s + j /\ k <= j <= len /\ moved d s j mem m).
  assert (H : exists r, copy_loop n (d + len) (d + k, s + k, mem') = Some r /\ I r /\ d + len - r.1.1 < n).
  { unfold copy_loop. apply (zloop_total I (fun r => d + len - r.1.1)); [| |cbn; lia].
    - intros [[da sa] m] (j & -> & -> & Hj & Hm'). cbn [fst]. split; [lia|].
      destruct (Z.leb_spec n (d + len - (d + j))).
      + split; [|cbn; lia]. exists (j + n). split_and!; [lia..|]. apply (moved_unit _ _ len); (done || lia).
      + split; [by exists j|]. cbn. lia.
    - exists k. split_and!; (done || lia). }
  destruct H as ([[da sa] m] & -> & (j & -> & -> & Hj & Hm') & Hlt). cbn in Hlt.
  exists j, m. split_and!; (done || lia).
Qed.

Lemma commit_copy_spec d s len mem :
  0 <= len -> apart d s len -> exists mem', commit_copy d s len mem = Some mem' /\ moved d s len mem mem'.
Proof.
  intros Hl Ha. unfold commit_copy.
  destruct (copy_loop_spec 8 d s len 0 mem mem Ha (moved_nil d s mem)) as (k & m1 & H1 & Hm1 & Hk & Hr1); [lia|lia|].
  rewrite !Z.add_0_r in H1. rewrite H1.
  destruct (copy_loop_spec 1 d s len k mem m1 Ha Hm1) as (k' & m2 & -> & Hm2 & Hk' & Hr2); [lia|lia|].
  exists m2. split; [done|]. by replace len with k' by lia.
Qed.

(** * One operation at a time *)

(** A speculative buffer beside the principal buffer [d] of its CPU. *)
Definition src_ok (b d : dtrace_buffer) : Prop :=
  0 < dtb_tomax b /\ 0 <= dtb_offset b <= dtb_size b /\ dtb_offset b mod 4 = 0 /\
  (dtb_tomax b + dtb_size b <= dtb_tomax d \/ dtb_tomax d + dtb_size d <= dtb_tomax b).

Section Alone.
Context (bst : buf_state).

Definition dest_ok (d : dtrace_buffer) : Prop := linear_inv d /\ 0 <= dts_reserve bst <= dtb_size d.

(** The contents of [src] were appended behind the 8-byte aligned offset of [d], or
    there was no room and drops were counted; the records in [d] are untouched. *)
Inductive committed (src d : dtrace_buffer) (mem : memory) (d' : dtrace_buffer) (mem' : memory) : Prop :=
| Appended :
    d' = set_offset (aligned_offset 8 d + dtb_offset src) d ->
    aligned_offset 8 d + dtb_offset src <= dtb_size d ->
    (forall x, 0 <= x < dtb_offset src ->
      mem' (dtb_tomax d + (aligned_offset 8 d + x)) = mem (dtb_tomax src + x)) ->
    (forall x, 0 <= x < dtb_offset d -> mem' (dtb_tomax d + x) = mem (dtb_tomax d + x)) ->
    committed src d mem d' mem'
| Dropped :
    dtb_offset d' = dtb_offset d -> dtb_tomax d' = dtb_tomax d -> dtb_size d' = dtb_size d ->
    dtb_drops d' = u32 (dtb_drops d + 1) \/ dtb_drops d' = u32 (u32 (dtb_drops d + 1) + 1) ->
    (forall n, 0 <= n -> n <> 6 -> has_flag d' (2 ^ n) = has_flag d (2 ^ n)) ->
    (forall x, 0 <= x < dtb_offset d -> mem' (dtb_tomax d + x) = mem (dtb_tomax d + x)) ->
    committed src d mem d' mem'.

Lemma committed_dest_ok src d mem d' mem' :
  dest_ok d -> src_ok src d -> committed src d mem d' mem' ->
  dest_ok d' /\ dtb_tomax d' = dtb_tomax d /\ dtb_size d' = dtb_size d.
Proof.
  intros [[H1 H2 H3 H4 [H5 H6]] Hr] (_ & Ho & Hm & _) [-> Hfit _ _|E1 E2 E3 _ Hf _].
  - split_and!; try done. split; [|done]. split; try done. cbn. split; [|].
    + assert (0 <= aligned_offset 8 d); [|lia]. unfold aligned_offset. pose proof (Z.land_nonneg (dtb_offset d) (8 - 1)). lia.
    + destruct (pad_loop_spec 0 8 (dtb_offset d) (fun _ => 0) ltac:(unfold align_ok; lia) H6) as (_ & _ & _ & _ & H & _).
      unfold aligned_offset. lia.
  - split_and!; [|done|done]. unfold dest_ok. rewrite E3. split; [|done].
    change DTRACEBUF_RING with (2 ^ 0) in *. change DTRACEBUF_INACTIVE with (2 ^ 8) in *.
    split; rewrite ?E1, ?E2, ?E3; try done; change DTRACEBUF_RING with (2 ^ 0);
      change DTRACEBUF_INACTIVE with (2 ^ 8); by rewrite Hf by lia.
Qed.

(** Padding leaves what lies before the offset and outside of the buffer. *)
Lemma padded_keeps d mem mem1 x :
  only_padded 8 d mem mem1 -> ~ (dtb_offset d <= x < dtb_size d) ->
  mem1 (dtb_tomax d + x) = mem (dtb_tomax d + x).
Proof.
  intros (Hle & _ & Hm) Hx. rewrite Hm.
  destruct (Z.leb_spec (dtb_offset d) x), (Z.ltb_spec x (aligned_offset 8 d)); (done || lia).
Qed.

Lemma commit_data_spec src d mem :
  dest_ok d -> src_ok src d ->
  exists d' mem', commit_data bst src d mem = Some (d', mem') /\ committed src d mem d' mem'.
Proof.
  intros [Hd Hr] (Hs1 & Hs2 & Hs3 & Hap).
  assert (Ha8 : align_ok 8) by (unfold align_ok; lia).
  pose proof (reserve_linear bst (dtb_offset src) 8 None d mem Hd Ha8 Hr) as Hres.
  unfold commit_data. destruct (_ && _) in Hres.
  - rewrite Hres. cbn [rv_offs Z.ltb]. eexists _, _. split; [reflexivity|]. apply Dropped; try done. by left.
  - destruct Hres as (mem1 & Hpad & ->). pose proof Hpad as (Hal & _).
    assert (Hao : dtb_offset d <= aligned_offset 8 d).
    { unfold aligned_offset. pose proof (Z.land_nonneg (dtb_offset d) (8 - 1)). destruct Hd. lia. }
    set (o := aligned_offset 8 d) in *. destruct Hd as [D1 D2 D3 D4 [D5 D6]].
    destruct (Z.ltb_spec (if has_flag d DTRACEBUF_FILL then dtb_size d - dts_reserve bst else dtb_size d)
      (o + dtb_offset src)) as [Hfull|Hroom]; cbn [rv_offs rv_buf rv_mem].
    + change (-1 <? 0) with true. cbv iota. eexists _, _. split; [reflexivity|].
      apply Dropped; [by destruct (has_flag d DTRACEBUF_FILL)..| | |].
      * destruct (has_flag d DTRACEBUF_FILL); [by left|by right].
      * intros n Hn H6. destruct (has_flag d DTRACEBUF_FILL); [|done]. change DTRACEBUF_FULL with (2 ^ 6).
        change (has_flag (set_flags (Z.lor (dtb_flags d) (2 ^ 6)) d) (2 ^ n) = has_flag d (2 ^ n)).
        rewrite has_flag_set by lia. destruct (Z.eqb_spec 6 n); [lia|]. by rewrite orb_false_r.
      * intros x Hx. apply padded_keeps; [done|lia].
    + assert (Hfit : o + dtb_offset src <= dtb_size d) by (destruct (has_flag d DTRACEBUF_FILL); lia).
      destruct (Z.ltb_spec o 0); [lia|].
      destruct (commit_copy_spec (dtb_tomax d + o) (dtb_tomax src) (dtb_offset src) mem1) as (mem2 & -> & Hmv);
        [lia|unfold apart; lia|].
      eexists _, _. split; [reflexivity|]. apply Appended; [done|done| |].
      * intros x Hx. fold o. rewrite Hmv.
        destruct (Z.leb_spec (dtb_tomax d + o) (dtb_tomax d + (o + x))); [|lia].
        destruct (Z.ltb_spec (dtb_tomax d + (o + x)) (dtb_tomax d + o + dtb_offset src)); [|lia]. cbn [andb].
        replace (dtb_tomax src + (dtb_tomax d + (o + x) - (dtb_tomax d + o)))
          with (dtb_tomax d + (dtb_tomax src + x - dtb_tomax d)) by lia.
        rewrite (padded_keeps d mem mem1 _ Hpad) by lia. f_equal. lia.
      * intros x Hx. rewrite Hmv. destruct (Z.leb_spec (dtb_tomax d + o) (dtb_tomax d + x)); [lia|]. cbn [andb].
        apply padded_keeps; [done|lia].
Qed.

Record sys_ok (s : spec_sys) : Prop := SysOk {
  ok_dest : forall c d, dts_buffer s !! c = Some d -> dest_ok d;
  ok_src : forall i sp, dts_speculations s !! i = Some sp ->
    length (dtsp_buffer sp) = length (dts_buffer s) /\
    forall c b d, dtsp_buffer sp !! c = Some b -> dts_buffer s !! c = Some d -> src_ok b d
}.

(** The speculation after the part of a commit behind its loop. *)
Definition spec_committed (cpu : nat) (last : bool) (src : dtrace_buffer) (sp : dtrace_speculation_t)
    : dtrace_speculation_t :=
  if last then with_state DTRACESPEC_INACTIVE (with_buffer cpu (commit_reset src) sp)
  else with_buffer cpu (commit_reset src) sp.

Lemma commit_rest_spec cpu i last sp src d s :
  dts_speculations s !! i = Some sp -> dtsp_buffer sp !! cpu = Some src -> dts_buffer s !! cpu = Some d ->
  dest_ok d -> src_ok src d -> (last = true -> dtsp_state sp = DTRACESPEC_COMMITTING) ->
  exists d' mem', committed src d (sys_mem s) d' mem' /\
    commit_rest bst cpu i last s = Some (set_spec i (spec_committed cpu last src sp) (set_dest cpu d' mem' s)).
Proof.
  intros Hi Hb Hd Hdok Hsok Hl. destruct (commit_data_spec src d (sys_mem s) Hdok Hsok) as (d' & mem' & Hc & Hcom).
  exists d', mem'. split; [done|]. unfold commit_rest, spec_committed. rewrite Hi, Hb, Hd, Hc. destruct last; [|done].
  by rewrite decide_True by auto.
Qed.

Lemma src_reset_ok b d : src_ok b d -> src_ok (commit_reset b) d /\ src_ok (set_offset 0 b) d /\ src_ok (discard_reset b) d.
Proof. intros (H1 & H2 & H3 & H4). split_and!; split_and!; cbn; (done || lia). Qed.

(** A change of one speculation on one CPU, with that CPU's principal buffer. *)
Lemma sys_ok_update s i sp st' cpu b b' d d' mem' cl :
  sys_ok s -> dts_speculations s !! i = Some sp -> dtsp_buffer sp !! cpu = Some b ->
  dts_buffer s !! cpu = Some d -> dest_ok d' -> dtb_tomax d' = dtb_tomax d -> dtb_size d' = dtb_size d ->
  src_ok b' d ->
  sys_ok (set_spec i (Speculation st' cl (<[cpu := b']> (dtsp_buffer sp))) (set_dest cpu d' mem' s)).
Proof.
  intros [H1 H2] Hi Hb Hd Hd' Et Es Hb'. split; cbn.
  - intros c x [(-> & <- & _)|[_ Hx]]%list_lookup_insert_Some; [done|]. by eapply H1.
  - intros j sp' Hj. rewrite length_insert.
    assert (Hdest : forall c b0 x, (forall d0, dts_buffer s !! c = Some d0 -> src_ok b0 d0) ->
      <[cpu := d']> (dts_buffer s) !! c = Some x -> src_ok b0 x).
    { intros c b0 x Hall [(-> & <- & _)|[_ Hx]]%list_lookup_insert_Some; [|by apply Hall].
      destruct (Hall d Hd) as (? & ? & ? & ?). unfold src_ok. by rewrite Et, Es. }
    apply list_lookup_insert_Some in Hj as [(-> & <- & _)|[_ Hj]]; cbn.
    + destruct (H2 j sp Hi) as [Hlen Hall]. rewrite length_insert. split; [done|]. intros c b0 x Hbc Hx.
      eapply Hdest; [|exact Hx]. intros d0 Hd0.
      apply list_lookup_insert_Some in Hbc as [(-> & <- & _)|[_ Hbc]]; [congruence|by eapply Hall].
    + destruct (H2 j sp' Hj) as [Hlen Hall]. split; [done|]. intros c b0 x Hbc Hx.
      eapply Hdest; [|exact Hx]. intros d0 Hd0. by eapply Hall.
Qed.

(** ** Cleaning *)

(** What one CPU's cleaning does to a speculation. *)
Definition cleaned_on (cpu : nat) (sp sp' : dtrace_speculation_t) : Prop :=
  dtsp_state sp' = dtsp_state sp /\ dtsp_cleaning sp' = dtsp_cleaning sp /\
  length (dtsp_buffer sp') = length (dtsp_buffer sp) /\
  (forall c, c <> cpu -> dtsp_buffer sp' !! c = dtsp_buffer sp !! c) /\
  (needs_cleaning (dtsp_state sp) = false -> sp' = sp) /\
  (needs_cleaning (dtsp_state sp) = true -> forall b, dtsp_buffer sp' !! cpu = Some b -> dtb_offset b = 0).

Lemma with_buffer_cleaned cpu b b' sp :
  dtsp_buffer sp !! cpu = Some b -> needs_cleaning (dtsp_state sp) = true -> dtb_offset b' = 0 ->
  cleaned_on cpu sp (with_buffer cpu b' sp).
Proof.
  intros Hb Hn H0. split_and!; cbn; try done.
  - by rewrite length_insert.
  - intros c Hc. by rewrite list_lookup_insert_ne by done.
  - by rewrite Hn.
  - intros _ x Hx. rewrite list_lookup_insert_eq in Hx by (by eapply lookup_lt_Some). by injection Hx as <-.
Qed.

Lemma set_dest_id s cpu d : dts_buffer s !! cpu = Some d -> set_dest cpu d (sys_mem s) s = s.
Proof. intros Hd. unfold set_dest. rewrite list_insert_id by done. by destruct s. Qed.

Lemma clean_one_spec cpu i sp b d s :
  sys_ok s -> dts_speculations s !! i = Some sp -> dtsp_buffer sp !! cpu = Some b -> dts_buffer s !! cpu = Some d ->
  exists s' sp', clean_one bst cpu i s = Some s' /\ sys_ok s' /\ cleaned_on cpu sp sp' /\
    dts_speculations s' = <[i := sp']> (dts_speculations s) /\ length (dts_buffer s') = length (dts_buffer s).
Proof.
  intros Hok Hi Hb Hd. pose proof (ok_dest s Hok cpu d Hd) as Hdok.
  destruct (ok_src s Hok i sp Hi) as [Hlen Hsrc]. pose proof (Hsrc cpu b d Hb Hd) as Hbok.
  assert (Hsame : needs_cleaning (dtsp_state sp) = false \/ dtb_offset b = 0 -> exists s' sp', Some s = Some s' /\ sys_ok s' /\
    cleaned_on cpu sp sp' /\ dts_speculations s' = <[i := sp']> (dts_speculations s) /\ length (dts_buffer s') = length (dts_buffer s)).
  { intros Hn. exists s, sp. split; [done|]. split; [done|]. split; [|by rewrite list_insert_id].
    split_and!; try done. intros Hn' x Hx. destruct Hn; congruence. }
  unfold clean_one. rewrite Hi, Hb. destruct (Z.eqb_spec (dtb_tomax b) 0); [destruct Hbok; lia|].
  destruct (dtsp_state sp) eqn:Est; try (apply Hsame; by left).
  - destruct (Z.eqb_spec (dtb_offset b) 0); [apply Hsame; by right|].
    unfold dtrace_speculation_commit. destruct (Z.eqb_spec (Z.of_nat i + 1) 0); [lia|].
    pose proof (lookup_lt_Some _ _ _ Hi). destruct (Z.ltb_spec (Z.of_nat (length (dts_speculations s))) (Z.of_nat i + 1)); [lia|].
    unfold which_spec. replace (Z.to_nat (Z.of_nat i + 1 - 1)) with i by lia. rewrite Hi, Hb. cbv zeta. rewrite Est.
    cbn [commit_choice commit_last].
    destruct (commit_rest_spec cpu i false sp b d s Hi Hb Hd Hdok Hbok) as (d' & mem' & Hcom & ->); [done|].
    destruct (committed_dest_ok _ _ _ _ _ Hdok Hbok Hcom) as (Hd' & Et & Es).
    eexists _, (with_buffer cpu (commit_reset b) sp). split; [reflexivity|]. split_and!.
    + cbn. apply (sys_ok_update s i sp (dtsp_state sp) cpu b (commit_reset b) d d'); try done. by apply src_reset_ok.
    + apply (with_buffer_cleaned cpu b); [done|by rewrite Est|done].
    + done.
    + cbn. by rewrite length_insert.
  - eexists _, (with_buffer cpu (set_offset 0 b) sp). split; [reflexivity|]. split_and!.
    + rewrite <- (set_dest_id s cpu d Hd) at 1. unfold with_buffer.
      apply (sys_ok_update s i sp (dtsp_state sp) cpu b (set_offset 0 b) d d); try done. by apply src_reset_ok.
    + apply (with_buffer_cleaned cpu b); [done|by rewrite Est|done].
    + done.
    + done.
Qed.

Lemma clean_here_loop cpu n k s :
  sys_ok s -> (cpu < length (dts_buffer s))%nat -> (k + n = length (dts_speculations s))%nat ->
  exists s', foldM (clean_one bst cpu) (seq k n) s = Some s' /\ sys_ok s' /\
    length (dts_speculations s') = length (dts_speculations s) /\ length (dts_buffer s') = length (dts_buffer s) /\
    forall j sp, dts_speculations s !! j = Some sp -> exists sp', dts_speculations s' !! j = Some sp' /\
      if decide (j < k)%nat then sp' = sp else cleaned_on cpu sp sp'.
Proof.
  revert k s. induction n as [|n IH]; intros k s Hok Hcpu Hlen; cbn [seq foldM].
  { exists s. split_and!; try done. intros j sp Hj. exists sp. split; [done|].
    apply lookup_lt_Some in Hj. by rewrite decide_True by lia. }
  destruct (lookup_lt_is_Some_2 (dts_speculations s) k) as [sp Hk]; [lia|].
  destruct (lookup_lt_is_Some_2 (dts_buffer s) cpu Hcpu) as [d Hd].
  destruct (ok_src s Hok k sp Hk) as [Hbl _].
  destruct (lookup_lt_is_Some_2 (dtsp_buffer sp) cpu) as [b Hb]; [lia|].
  destruct (clean_one_spec cpu k sp b d s Hok Hk Hb Hd) as (s1 & sp1 & -> & Hok1 & Hcl & Hs1 & Hl1).
  assert (Hlen1 : length (dts_speculations s1) = length (dts_speculations s)) by (by rewrite Hs1, length_insert).
  destruct (IH (S k) s1 Hok1) as (s' & Hrun & Hok' & Hl' & Hlb & Hall); [lia|lia|].
  exists s'. split_and!; [done|done|lia|lia|]. intros j spj Hj. destruct (decide (j = k)) as [->|Hne].
  - assert (spj = sp) as -> by congruence. destruct (Hall k sp1) as (sp' & Hsp' & Hd'').
    { rewrite Hs1. by rewrite list_lookup_insert_eq by lia. }
    exists sp'. split; [done|]. rewrite decide_True in Hd'' by lia. rewrite decide_False by lia. by subst.
  - destruct (Hall j spj) as (sp' & Hsp' & Hd'').
    { rewrite Hs1. by rewrite list_lookup_insert_ne by done. }
    exists sp'. split; [done|]. destruct (decide (j < k)%nat).
    + by rewrite decide_True in Hd'' by lia.
    + by rewrite decide_False in Hd'' by lia.
Qed.

Lemma clean_here_spec cpu s :
  sys_ok s -> (cpu < length (dts_buffer s))%nat ->
  exists s', dtrace_speculation_clean_here bst cpu s = Some s' /\ sys_ok s' /\
    length (dts_speculations s') = length (dts_speculations s) /\ length (dts_buffer s') = length (dts_buffer s) /\
    forall j sp, dts_speculations s !! j = Some sp ->
      exists sp', dts_speculations s' !! j = Some sp' /\ cleaned_on cpu sp sp'.
Proof.
  intros Hok Hcpu. destruct (lookup_lt_is_Some_2 (dts_buffer s) cpu Hcpu) as [d Hd].
  pose proof (ok_dest s Hok cpu d Hd) as [[_ _ Ht _ _] _].
  unfold dtrace_speculation_clean_here. rewrite Hd. destruct (Z.eqb_spec (dtb_tomax d) 0); [lia|].
  destruct (clean_here_loop cpu (length (dts_speculations s)) 0 s Hok Hcpu eq_refl) as (s' & Hrun & Hok' & Hl & Hlb & Hall).
  exists s'. by split_and!.
Qed.

Definition cleaned_by (cpus : list nat) (sp sp' : dtrace_speculation_t) : Prop :=
  dtsp_state sp' = dtsp_state sp /\ dtsp_cleaning sp' = dtsp_cleaning sp /\
  length (dtsp_buffer sp') = length (dtsp_buffer sp) /\
  (needs_cleaning (dtsp_state sp) = false -> sp' = sp) /\
  (forall c b, dtsp_buffer sp' !! c = Some b -> ~ In c cpus -> dtsp_buffer sp !! c = Some b) /\
  (needs_cleaning (dtsp_state sp) = true ->
    forall c b, In c cpus -> dtsp_buffer sp' !! c = Some b -> dtb_offset b = 0).

Lemma cleaned_by_step cpu cpus sp sp1 sp' :
  cleaned_on cpu sp sp1 -> cleaned_by cpus sp1 sp' -> cleaned_by (cpu :: cpus) sp sp'.
Proof.
  intros (A1 & A2 & A3 & A4 & A5 & A6) (B1 & B2 & B3 & B4 & B5 & B6). split_and!; try congruence.
  - intros Hn. rewrite <- (A5 Hn). apply B4. by rewrite A1.
  - intros c b Hb Hni. rewrite <- A4; [|intros ->; apply Hni; by left].
    apply B5; [done|]. intros Hin. apply Hni. by right.
  - intros Hn c b Hin Hb. destruct (in_dec Nat.eq_dec c cpus) as [Hic|Hic].
    + apply (B6 ltac:(by rewrite A1) c b Hic Hb).
    + destruct Hin as [->|]; [|done]. apply (A6 Hn). by apply B5.
Qed.

Lemma clean_cpus_spec cpus s :
  sys_ok s -> Forall (fun c => (c < length (dts_buffer s))%nat) cpus ->
  exists s', foldM (dtrace_speculation_clean_here bst) cpus s = Some s' /\ sys_ok s' /\
    length (dts_speculations s') = length (dts_speculations s) /\ length (dts_buffer s') = length (dts_buffer s) /\
    forall j sp, dts_speculations s !! j = Some sp ->
      exists sp', dts_speculations s' !! j = Some sp' /\ cleaned_by cpus sp sp'.
Proof.
  revert s. induction cpus as [|c cpus IH]; intros s Hok Hall; cbn [foldM].
  { exists s. split_and!; try done. intros j sp Hj. exists sp. split; [done|]. by split_and!. }
  apply Forall_cons_iff in Hall as [Hc Hall].
  destruct (clean_here_spec c s Hok Hc) as (s1 & -> & Hok1 & Hl1 & Hb1 & Hcl1).
  destruct (IH s1 Hok1) as (s' & Hrun & Hok' & Hl' & Hb' & Hcl'); [by rewrite Hb1|].
  exists s'. split_and!; [done|done|lia|lia|]. intros j sp Hj. destruct (Hcl1 j sp Hj) as (sp1 & Hj1 & Hon).
  destruct (Hcl' j sp1 Hj1) as (sp' & Hj' & Hby). exists sp'. split; [done|]. by eapply cleaned_by_step.
Qed.

(** The outcome of a whole cleaning. *)
Definition clean_outcome (sp sp' : dtrace_speculation_t) : Prop :=
  dtsp_cleaning sp' = false /\
  if needs_cleaning (dtsp_state sp)
  then dtsp_state sp' = DTRACESPEC_INACTIVE /\ Forall (fun b => dtb_offset b = 0) (dtsp_buffer sp')
  else sp' = sp.

Definition marked (sp : dtrace_speculation_t) : dtrace_speculation_t :=
  Speculation (dtsp_state sp) (needs_cleaning (dtsp_state sp)) (dtsp_buffer sp).

Lemma mark_all l : Forall (fun sp => dtsp_cleaning sp = false) l -> map_opt mark_one l = Some (map marked l).
Proof.
  induction 1 as [|sp l Hc _ IH]; [done|]. cbn [map_opt map]. unfold mark_one at 1. by rewrite Hc, IH.
Qed.

Lemma marked_id sp : dtsp_cleaning sp = false -> needs_cleaning (dtsp_state sp) = false -> marked sp = sp.
Proof. intros Hc Hn. unfold marked. rewrite Hn, <- Hc. by destruct sp. Qed.

(** The last loop on speculations that were marked and cleaned by every CPU. *)
Lemma finish_all l0 l n :
  Forall (fun sp => dtsp_cleaning sp = false) l0 ->
  Forall2 (fun sp sp' => cleaned_by (seq 0 n) (marked sp) sp' /\ length (dtsp_buffer sp') = n) l0 l ->
  exists l', map_opt finish_one l = Some l' /\ Forall2 clean_outcome l0 l'.
Proof.
  intros Hf Hall. revert Hf. induction Hall as [|sp sp' l0 l [(E1 & E2 & E3 & E4 & _ & E6) Hlen] _ IH]; intros Hf.
  { by exists []. }
  apply Forall_cons_iff in Hf as [Hc Hf]. destruct (IH Hf) as (l' & Hl' & Hout). cbn in E1, E2, E4, E6.
  cbn [map_opt]. unfold finish_one at 1. rewrite E2. destruct (needs_cleaning (dtsp_state sp)) eqn:Hn; cbn [negb].
  - rewrite E1, Hn. cbn [negb]. rewrite Hl'. eexists. split; [reflexivity|]. constructor; [|done]. split; [done|].
    rewrite Hn. split; [done|]. cbn. apply Forall_lookup. intros c b Hb. apply (E6 eq_refl c b); [|done].
    apply lookup_lt_Some in Hb. apply in_seq. lia.
  - rewrite Hl'. eexists. split; [reflexivity|]. constructor; [|done]. unfold clean_outcome. rewrite Hn.
    rewrite (E4 eq_refl), marked_id by done. done.
Qed.

Lemma sys_ok_specs s l :
  sys_ok s -> Forall2 (fun sp sp' => dtsp_buffer sp' = dtsp_buffer sp) (dts_speculations s) l -> sys_ok (set_specs l s).
Proof.
  intros [H1 H2] Hall. split; [done|]. intros i sp' Hi. cbn in *.
  eapply Forall2_lookup_r in Hall as (sp & Hsp & ->); [|exact Hi]. by apply (H2 i).
Qed.

Lemma speculation_clean_spec s :
  sys_ok s -> Forall (fun sp => dtsp_cleaning sp = false) (dts_speculations s) ->
  exists s', dtrace_speculation_clean bst (seq 0 (length (dts_buffer s))) s = Some s' /\
    Forall2 clean_outcome (dts_speculations s) (dts_speculations s').
Proof.
  intros Hok Hf. unfold dtrace_speculation_clean. rewrite mark_all by done. cbv zeta.
  set (l := map marked (dts_speculations s)).
  assert (Hok1 : sys_ok (set_specs l s)).
  { apply sys_ok_specs; [done|]. unfold l. clear. induction (dts_speculations s); constructor; done. }
  destruct (existsb dtsp_cleaning l) eqn:Ework; cbn [negb].
  - destruct (clean_cpus_spec (seq 0 (length (dts_buffer s))) (set_specs l s) Hok1) as (s2 & -> & Hok2 & Hl2 & Hb2 & Hcl2).
    { apply List.Forall_forall. intros c Hc%in_seq. cbn. lia. }
    destruct (finish_all (dts_speculations s) (dts_speculations s2) (length (dts_buffer s)) Hf) as (l' & -> & Hout).
    { apply Forall2_same_length_lookup_2.
      - cbn in Hl2. unfold l in Hl2. rewrite length_map in Hl2. lia.
      - intros i sp sp2 Hi Hi2. destruct (Hcl2 i (marked sp)) as (sp2' & Hi2' & Hby).
        { cbn. unfold l. change (map marked (dts_speculations s)) with (marked <$> dts_speculations s).
          by rewrite list_lookup_fmap, Hi. }
        assert (sp2' = sp2) as -> by congruence. split; [done|].
        destruct (ok_src s2 Hok2 i sp2 Hi2) as [Hlen _]. rewrite Hlen, Hb2. done. }
    by eexists.
  - eexists. split; [reflexivity|]. cbn. unfold l in *. clear -Hf Ework.
    induction Hf as [|sp specs Hc Hf IH]; cbn in *; [constructor|]. apply orb_false_iff in Ework as [Hn Hrest].
    constructor; [|by apply IH]. unfold clean_outcome. cbn in Hn. rewrite Hn. split; [done|]. by apply marked_id.
Qed.

(** ** Operations as runs of the protocol *)

Definition offset_on (sp : dtrace_speculation_t) (c : nat) : Z :=
  match dtsp_buffer sp !! c with Some b => dtb_offset b | None => 0 end.

(** A speculation that no CPU is working on. *)
Definition view (sp : dtrace_speculation_t) : proto :=
  Proto (dtsp_state sp) (dtsp_cleaning sp) (offset_on sp) (fun _ => Idle) CleanerIdle.

Definition proto_equiv (p q : proto) : Prop :=
  p_state p = p_state q /\ p_cleaning p = p_cleaning q /\ p_cleaner p = p_cleaner q /\
  (forall c, p_role p c = p_role q c) /\ (forall c, p_off p c = p_off q c).

Lemma offset_on_insert sp st cl cpu b b' c :
  dtsp_buffer sp !! cpu = Some b ->
  offset_on (Speculation st cl (<[cpu := b']> (dtsp_buffer sp))) c =
  <[cpu := dtb_offset b']> (offset_on sp) c.
Proof.
  intros Hb. unfold offset_on. cbn. destruct (decide (cpu = c)) as [<-|Hne].
  - rewrite list_lookup_insert_eq, fn_lookup_insert by (by eapply lookup_lt_Some). done.
  - by rewrite list_lookup_insert_ne, fn_lookup_insert_ne by done.
Qed.

(** An operation ends with the CPU idle again. *)
Lemma role_back {A} (f : nat -> A) c r x : f c = r -> <[c := r]> f x = f x.
Proof. intros Hc. destruct (decide (c = x)) as [<-|Hne]; [by rewrite fn_lookup_insert|by rewrite fn_lookup_insert_ne]. Qed.

Definition refines (ncpu : nat) (sp sp' : dtrace_speculation_t) : Prop :=
  exists p', rtc (pstep ncpu) (view sp) p' /\ proto_equiv p' (view sp').

Lemma refines_refl ncpu sp : refines ncpu sp sp.
Proof. exists (view sp). split; [apply rtc_refl|]. by split_and!. Qed.

(** The steps of a commit after its choice, from the state it left. *)
Lemma commit_steps ncpu sp st cpu src last :
  (cpu < ncpu)%nat -> dtsp_buffer sp !! cpu = Some src -> (last = true -> st = DTRACESPEC_COMMITTING) ->
  pstep ncpu (view sp) (set_role cpu (Committing last) (set_st st (view sp))) ->
  refines ncpu sp (spec_committed cpu last src (with_state st sp)).
Proof.
  intros Hc Hb Hl H1. destruct last; eexists; split.
  - eapply rtc_l; [exact H1|]. eapply rtc_l; [apply (PCopiedLast _ _ cpu)|apply rtc_once, (PReset _ _ cpu)].
    + cbn. by rewrite fn_lookup_insert.
    + by apply Hl.
    + cbn. by rewrite fn_lookup_insert.
  - split_and!; try done.
    + intros c. cbn. destruct (decide (cpu = c)) as [<-|Hne]; rewrite ?fn_lookup_insert, ?fn_lookup_insert_ne by done; done.
    + intros c. unfold spec_committed, with_state, with_buffer. cbn. by rewrite (offset_on_insert sp _ _ _ src).
  - eapply rtc_l; [exact H1|]. eapply rtc_l; [apply (PCopied _ _ cpu)|apply rtc_once, (PReset _ _ cpu)].
    + cbn. by rewrite fn_lookup_insert.
    + cbn. by rewrite fn_lookup_insert.
  - split_and!; try done.
    + intros c. cbn. destruct (decide (cpu = c)) as [<-|Hne]; rewrite ?fn_lookup_insert, ?fn_lookup_insert_ne by done; done.
    + intros c. unfold spec_committed, with_state, with_buffer. cbn. by rewrite (offset_on_insert sp _ _ _ src).
Qed.

(** The id of a valid speculation. *)
Lemma which_ok s cpu i sp b :
  dts_speculations s !! i = Some sp -> dtsp_buffer sp !! cpu = Some b ->
  (Z.of_nat i + 1 =? 0) = false /\ (Z.of_nat (length (dts_speculations s)) <? Z.of_nat i + 1) = false /\
  which_spec s cpu (Z.of_nat i + 1) = Some (sp, b) /\ Z.to_nat (Z.of_nat i + 1 - 1) = i.
Proof.
  intros Hi Hb. pose proof (lookup_lt_Some _ _ _ Hi). assert (Hn : Z.to_nat (Z.of_nat i + 1 - 1) = i) by lia.
  split_and!; [lia|lia| |done]. unfold which_spec. by rewrite Hn, Hi, Hb.
Qed.

Lemma set_spec_twice i a b d m c s :
  set_spec i b (set_dest c d m (set_spec i a s)) = set_spec i b (set_dest c d m s).
Proof. unfold set_spec, set_dest. cbn. by rewrite list_insert_insert_eq. Qed.

(** What an operation on speculation [i] may change. *)
Definition only_spec (i : nat) (sp' : dtrace_speculation_t) (s s' : spec_sys) : Prop :=
  dts_speculations s' = <[i := sp']> (dts_speculations s) /\ length (dts_buffer s') = length (dts_buffer s).

Lemma sys_ok_state s i sp st :
  sys_ok s -> dts_speculations s !! i = Some sp -> sys_ok (set_spec i (with_state st sp) s).
Proof.
  intros [H1 H2] Hi. split; [done|]. intros j x. cbn. intros [(-> & <- & _)|[_ Hj]]%list_lookup_insert_Some; [|by apply (H2 j)].
  exact (H2 j sp Hi).
Qed.

Lemma commit_refines cpu i sp b s :
  sys_ok s -> (cpu < length (dts_buffer s))%nat -> dts_speculations s !! i = Some sp ->
  dtsp_buffer sp !! cpu = Some b -> commit_choice (dtsp_state sp) (dtb_offset b) <> Assert0 ->
  exists s' sp', dtrace_speculation_commit bst cpu (Z.of_nat i + 1) s = Some s' /\ sys_ok s' /\
    only_spec i sp' s s' /\ refines (length (dts_buffer s)) sp sp'.
Proof.
  intros Hok Hcpu Hi Hb Hna. destruct (which_ok s cpu i sp b Hi Hb) as (W1 & W2 & W3 & W4).
  destruct (lookup_lt_is_Some_2 (dts_buffer s) cpu Hcpu) as [d Hd].
  pose proof (ok_dest s Hok cpu d Hd) as Hdok. destruct (ok_src s Hok i sp Hi) as [Hlen Hsrc].
  pose proof (Hsrc cpu b d Hb Hd) as Hbok.
  unfold dtrace_speculation_commit. rewrite W1, W2, W3, W4. cbv zeta.
  assert (Hoff : p_off (view sp) cpu = dtb_offset b) by (cbn; unfold offset_on; by rewrite Hb).
  destruct (commit_choice (dtsp_state sp) (dtb_offset b)) as [| | |new] eqn:Ech; [|done| |].
  - exists s, sp. split_and!; [done|done| |apply refines_refl]. split; [by rewrite list_insert_id|done].
  - assert (Est : dtsp_state sp = DTRACESPEC_COMMITTINGMANY).
    { destruct (dtsp_state sp); cbn in Ech; try discriminate; try done; by destruct (_ =? _) in Ech. }
    destruct (commit_rest_spec cpu i false sp b d s Hi Hb Hd Hdok Hbok) as (d' & mem' & Hcom & He); [done|].
    rewrite Est. cbn [commit_last]. rewrite He. destruct (committed_dest_ok _ _ _ _ _ Hdok Hbok Hcom) as (Hd' & Et & Es).
    eexists _, _. split; [reflexivity|]. split_and!.
    + apply (sys_ok_update s i sp (dtsp_state sp) cpu b (commit_reset b) d d'); try done. by apply src_reset_ok.
    + split; [reflexivity|]. cbn. by rewrite length_insert.
    + replace sp with (with_state (dtsp_state sp) sp) at 2 by (by destruct sp). apply commit_steps; try done.
      change (Committing false) with (Committing (commit_last DTRACESPEC_COMMITTINGMANY None)). rewrite <- Est.
      apply (PCommit _ (view sp)); [done|done|]. by rewrite Hoff.
  - set (last := commit_last (dtsp_state sp) (Some new)). set (s1 := set_spec i (with_state new sp) s).
    assert (Hlast : last = true -> new = DTRACESPEC_COMMITTING).
    { unfold last. destruct (dtsp_state sp); cbn in Ech |- *; try discriminate; try congruence.
      destruct new; try discriminate; done. }
    assert (Hi1 : dts_speculations s1 !! i = Some (with_state new sp)).
    { cbn. rewrite list_lookup_insert_eq; [done|by eapply lookup_lt_Some]. }
    destruct (commit_rest_spec cpu i last (with_state new sp) b d s1 Hi1 Hb Hd Hdok Hbok) as (d' & mem' & Hcom & ->);
      [done|]. destruct (committed_dest_ok _ _ _ _ _ Hdok Hbok Hcom) as (Hd' & Et & Es).
    eexists _, _. split; [reflexivity|]. unfold s1. rewrite set_spec_twice. split_and!.
    + destruct last; cbn.
      * apply (sys_ok_update s i sp DTRACESPEC_INACTIVE cpu b (commit_reset b) d d'); try done. by apply src_reset_ok.
      * apply (sys_ok_update s i sp new cpu b (commit_reset b) d d'); try done. by apply src_reset_ok.
    + split; [reflexivity|]. cbn. by rewrite length_insert.
    + apply commit_steps; try done. apply (PCommitSwap _ (view sp)); [done|done|]. by rewrite Hoff.
Qed.

Lemma discard_refines cpu i sp b s :
  sys_ok s -> (cpu < length (dts_buffer s))%nat -> dts_speculations s !! i = Some sp ->
  dtsp_buffer sp !! cpu = Some b ->
  exists s' sp', dtrace_speculation_discard cpu (Z.of_nat i + 1) s = Some s' /\ sys_ok s' /\
    only_spec i sp' s s' /\ refines (length (dts_buffer s)) sp sp'.
Proof.
  intros Hok Hcpu Hi Hb. destruct (which_ok s cpu i sp b Hi Hb) as (W1 & W2 & W3 & W4).
  destruct (lookup_lt_is_Some_2 (dts_buffer s) cpu Hcpu) as [d Hd].
  destruct (ok_src s Hok i sp Hi) as [Hlen Hsrc]. pose proof (Hsrc cpu b d Hb Hd) as Hbok.
  unfold dtrace_speculation_discard. rewrite W1, W2, W3, W4.
  assert (Hoff : p_off (view sp) cpu = dtb_offset b) by (cbn; unfold offset_on; by rewrite Hb).
  destruct (discard_choice (dtsp_state sp) (dtb_offset b)) as [| | |new] eqn:Ech;
    try (exfalso; clear -Ech; destruct (dtsp_state sp); cbn in Ech; try discriminate;
      destruct (dtb_offset b =? 0); discriminate).
  - exists s, sp. split_and!; [done|done| |apply refines_refl]. split; [by rewrite list_insert_id|done].
  - eexists _, _. split; [reflexivity|]. split_and!.
    + rewrite <- (set_dest_id s cpu d Hd) at 1. unfold with_state, with_buffer. cbn.
      apply (sys_ok_update s i sp new cpu b (discard_reset b) d d); try done; [|by apply src_reset_ok].
      by apply (ok_dest s Hok cpu).
    + by split.
    + eexists. split.
      { eapply rtc_l; [apply (PDiscard _ (view sp) cpu new); [done|done|by rewrite Hoff]|].
        apply rtc_once, (PReset _ _ cpu). cbn. by rewrite fn_lookup_insert. }
      split_and!; try done.
      * intros c. cbn. destruct (decide (cpu = c)) as [<-|Hne]; rewrite ?fn_lookup_insert, ?fn_lookup_insert_ne by done; done.
      * intros c. cbn. unfold with_state, with_buffer. cbn. by rewrite (offset_on_insert sp _ _ _ b).
Qed.

Lemma buffer_refines cpu i sp b s :
  sys_ok s -> (cpu < length (dts_buffer s))%nat -> dts_speculations s !! i = Some sp ->
  dtsp_buffer sp !! cpu = Some b -> buffer_choice (dtsp_state sp) (dtb_offset b) <> Assert0 ->
  exists got s' sp', dtrace_speculation_buffer cpu (Z.of_nat i + 1) s = Some (got, s') /\ sys_ok s' /\
    only_spec i sp' s s' /\
    if got : bool then pstep (length (dts_buffer s)) (view sp) (set_role cpu Writing (view sp')) else sp' = sp.
Proof.
  intros Hok Hcpu Hi Hb Hna. destruct (which_ok s cpu i sp b Hi Hb) as (W1 & W2 & W3 & W4).
  unfold dtrace_speculation_buffer. rewrite W1, W2, W3, W4.
  assert (Hoff : p_off (view sp) cpu = dtb_offset b) by (cbn; unfold offset_on; by rewrite Hb).
  assert (Hsame : only_spec i sp s s) by (split; [by rewrite list_insert_id|done]).
  destruct (buffer_choice (dtsp_state sp) (dtb_offset b)) as [| | |new] eqn:Ech; [|done| |].
  - by exists false, s, sp.
  - exists true, s, sp. split_and!; try done. apply PAcquire; [done|done|]. by rewrite Hoff.
  - exists true, (set_spec i (with_state new sp) s), (with_state new sp).
    split_and!; [done|by apply sys_ok_state|by split|].
    change (set_role cpu Writing (view (with_state new sp))) with (set_role cpu Writing (set_st new (view sp))).
    apply PAcquireSwap; [done|done|]. by rewrite Hoff.
Qed.
End Alone.

(** * Properties *)


(** CPU 0 speculates, CPU 1 discards. *)
Definition demo_proto : proto :=
  set_role 1 Resetting (set_st DTRACESPEC_DISCARDING
    (set_role 0 Writing (set_st DTRACESPEC_ACTIVEONE (set_st DTRACESPEC_ACTIVE proto_init)))).

Lemma demo_proto_reachable : rtc (pstep 2) proto_init demo_proto.
Proof.
  eapply rtc_l; [by apply PActivate|]. eapply rtc_l; [apply (PAcquireSwap _ _ 0); [lia|reflexivity|reflexivity]|].
  apply rtc_once. apply (PDiscard _ _ 1); [lia|reflexivity|reflexivity].
Qed.


(** C9: run alone, commit, discard and the search for a buffer always return, touch no
    other speculation, keep the buffers in order, and are runs of the protocol: what is
    proved of all interleavings covers them. *)
Theorem speculation_ops_refine bst cpu i sp b s :
  sys_ok bst s -> (cpu < length (dts_buffer s))%nat -> dts_speculations s !! i = Some sp ->
  dtsp_buffer sp !! cpu = Some b -> proto_inv (length (dts_buffer s)) (view sp) ->
  (exists s' sp', dtrace_speculation_commit bst cpu (Z.of_nat i + 1) s = Some s' /\ sys_ok bst s' /\
    only_spec i sp' s s' /\ refines (length (dts_buffer s)) sp sp') /\
  (exists s' sp', dtrace_speculation_discard cpu (Z.of_nat i + 1) s = Some s' /\ sys_ok bst s' /\
    only_spec i sp' s s' /\ refines (length (dts_buffer s)) sp sp') /\
  (exists got s' sp', dtrace_speculation_buffer cpu (Z.of_nat i + 1) s = Some (got, s') /\ sys_ok bst s' /\
    only_spec i sp' s s' /\
    if got : bool then pstep (length (dts_buffer s)) (view sp) (set_role cpu Writing (view sp')) else sp' = sp).
Proof.
  intros Hok Hc Hi Hb Hp. destruct (proto_inv_asserts _ _ Hp) as (Ha & _).
  destruct (Ha cpu eq_refl) as [Hac Hab]. cbn in Hac, Hab. unfold offset_on in Hac, Hab. rewrite Hb in Hac, Hab.
  split_and!.
  - by apply (commit_refines bst cpu i sp b).
  - by apply (discard_refines bst cpu i sp b).
  - by apply (buffer_refines bst cpu i sp b).
Qed.

Definition demo_bst : buf_state := BufState 2 0 [Some 8].
Definition demo_dest : dtrace_buffer := Buffer 0 64 0 0 0x10000 0x20000 0 0 0 0 0.
Definition demo_src (addr offs : Z) : dtrace_buffer := Buffer offs 32 DTRACEBUF_NOSWITCH 0 addr 0 0 0 0 0 0.
(** Two CPUs, one speculation that CPU 0 has traced 8 bytes to. *)
Definition demo_sys (st : spec_state) : spec_sys :=
  SpecSys [Speculation st false [demo_src 0x30000 8; demo_src 0x40000 0]]
    [demo_dest; demo_dest] 0 0 [0; 0] (fun x => u8 x).

Lemma demo_sys_ok st : sys_ok demo_bst (demo_sys st).
Proof.
  split.
  - intros [|[|c]] d [= <-]; (split; [split; (reflexivity || (cbn; lia))|cbn; lia]).
  - intros [|i] sp [= <-]; split; [done|]. intros [|[|c]] b d [= <-] [= <-]; unfold src_ok; cbn; lia.
Qed.

Lemma demo_view_inv :
  proto_inv 2 (view (Speculation DTRACESPEC_ACTIVEONE false [demo_src 0x30000 8; demo_src 0x40000 0])).
Proof.
  split; cbn; try done.
  - by intros [?|?].
  - intros _ [|[|c]] [|[|c']] Hu Hu'; try done; unfold user, offset_on in *; cbn in *; intuition congruence.
  - intros [|[|c]] Hc; (lia || done).
Qed.

Lemma speculation_ops_refine_witness :
  let s := demo_sys DTRACESPEC_ACTIVEONE in
  let sp := Speculation DTRACESPEC_ACTIVEONE false [demo_src 0x30000 8; demo_src 0x40000 0] in
  (exists s' sp', dtrace_speculation_commit demo_bst 0 1 s = Some s' /\ sys_ok demo_bst s' /\
    only_spec 0 sp' s s' /\ refines 2 sp sp') /\
  (exists s' sp', dtrace_speculation_discard 0 1 s = Some s' /\ sys_ok demo_bst s' /\
    only_spec 0 sp' s s' /\ refines 2 sp sp') /\
  (exists got s' sp', dtrace_speculation_buffer 0 1 s = Some (got, s') /\ sys_ok demo_bst s' /\
    only_spec 0 sp' s s' /\
    if got : bool then pstep 2 (view sp) (set_role 0 Writing (view sp')) else sp' = sp).
Proof.
  cbv zeta. apply (speculation_ops_refine demo_bst 0 0
    (Speculation DTRACESPEC_ACTIVEONE false [demo_src 0x30000 8; demo_src 0x40000 0]) (demo_src 0x30000 8)
    (demo_sys DTRACESPEC_ACTIVEONE));
    [apply demo_sys_ok|cbn; lia|reflexivity|reflexivity|apply demo_view_inv].
Defined.

(** A CPU that is the only one to have traced to a speculation commits it in one
    go: the speculation is inactive again, its buffer is empty, and its bytes are
    behind the records of the principal buffer, which are untouched; when they do not
    fit, the offset stays and one drop is counted by a fill buffer, two by a switch
    buffer. *)
Theorem dtrace_speculation_commit_data bst cpu i sp b d s :
  sys_ok bst s -> dts_speculations s !! i = Some sp -> dtsp_buffer sp !! cpu = Some b ->
  dts_buffer s !! cpu = Some d -> dtsp_state sp = DTRACESPEC_ACTIVEONE -> dtb_offset b <> 0 ->
  exists s' d', dtrace_speculation_commit bst cpu (Z.of_nat i + 1) s = Some s' /\
    dts_buffer s' !! cpu = Some d' /\ committed b d (sys_mem s) d' (sys_mem s') /\
    dts_speculations s' = <[i := Speculation DTRACESPEC_INACTIVE (dtsp_cleaning sp)
      (<[cpu := commit_reset b]> (dtsp_buffer sp))]> (dts_speculations s).
Proof.
  intros Hok Hi Hb Hd Hst Hn. destruct (which_ok s cpu i sp b Hi Hb) as (W1 & W2 & W3 & W4).
  pose proof (ok_dest bst s Hok cpu d Hd) as Hdok. destruct (ok_src bst s Hok i sp Hi) as [_ Hsrc].
  unfold dtrace_speculation_commit. rewrite W1, W2, W3, W4, Hst. cbv zeta. cbn [commit_choice].
  destruct (Z.eqb_spec (dtb_offset b) 0); [done|]. cbn [negb commit_last].
  set (s1 := set_spec i (with_state DTRACESPEC_COMMITTING sp) s).
  assert (Hi1 : dts_speculations s1 !! i = Some (with_state DTRACESPEC_COMMITTING sp)).
  { cbn. rewrite list_lookup_insert_eq; [done|by eapply lookup_lt_Some]. }
  destruct (commit_rest_spec bst cpu i true (with_state DTRACESPEC_COMMITTING sp) b d s1 Hi1 Hb Hd Hdok)
    as (d' & mem' & Hcom & ->); [by eapply Hsrc|done|].
  eexists _, d'. split; [reflexivity|]. unfold s1. rewrite set_spec_twice. split_and!; [|exact Hcom|done].
  cbn. apply list_lookup_insert_eq. by eapply lookup_lt_Some.
Qed.

Lemma dtrace_speculation_commit_data_witness :
  exists s' d', dtrace_speculation_commit demo_bst 0 1 (demo_sys DTRACESPEC_ACTIVEONE) = Some s' /\
    dts_buffer s' !! 0%nat = Some d' /\
    committed (demo_src 0x30000 8) demo_dest (fun x => u8 x) d' (sys_mem s') /\
    dts_speculations s' = [Speculation DTRACESPEC_INACTIVE false
      [commit_reset (demo_src 0x30000 8); demo_src 0x40000 0]].
Proof.
  apply (dtrace_speculation_commit_data demo_bst 0 0
    (Speculation DTRACESPEC_ACTIVEONE false [demo_src 0x30000 8; demo_src 0x40000 0]) (demo_src 0x30000 8)
    demo_dest (demo_sys DTRACESPEC_ACTIVEONE)); [apply demo_sys_ok|reflexivity..|cbn; lia].
Defined.

(** C10: a run of the cleaner always completes, and makes every speculation that was
    committing on many CPUs or discarding inactive, with the buffers of all CPUs
    empty; the others are as they were. *)
Theorem dtrace_speculation_clean_completes bst s :
  sys_ok bst s -> Forall (fun sp => dtsp_cleaning sp = false) (dts_speculations s) ->
  exists s', dtrace_speculation_clean bst (seq 0 (length (dts_buffer s))) s = Some s' /\
    Forall2 clean_outcome (dts_speculations s) (dts_speculations s').
Proof. apply speculation_clean_spec. Qed.

Lemma dtrace_speculation_clean_completes_witness :
  exists s', dtrace_speculation_clean demo_bst (seq 0 2) (demo_sys DTRACESPEC_COMMITTINGMANY) = Some s' /\
    Forall2 clean_outcome (dts_speculations (demo_sys DTRACESPEC_COMMITTINGMANY)) (dts_speculations s').
Proof.
  apply (dtrace_speculation_clean_completes demo_bst (demo_sys DTRACESPEC_COMMITTINGMANY));
    [apply demo_sys_ok|by repeat constructor].
Defined.
