(* ===== verification/Match.v ===== *)
(** Matching of probe descriptions (driver/dtrace.c, "DTrace Matching Functions").

    A C string is the list of its characters, without the NUL; [None] is the NULL
    pointer.  Characters are signed, as on x86. *)
From S2P Require Import Prelude.

Definition cstring : Type := list Z.

(** * Globbing *)

Definition DTRACE_PROBEKEY_MAXDEPTH : Z := 8.

(** The character a pointer points to. *)
Definition peek (p : cstring) : Z := match p with [] => 0 | c :: _ => c end.

Definition ch_star : Z := 42.
Definition ch_quest : Z := 63.
Definition ch_open : Z := 91.
Definition ch_bslash : Z := 92.
Definition ch_close : Z := 93.
Definition ch_dash : Z := 45.
Definition ch_bang : Z := 33.

(** A character, or the one behind a backslash; [None]: the pattern ends there. *)
Definition unescape (c : Z) (p : cstring) : option (Z * cstring) :=
  if c =? ch_bslash then
    match p with [] => None | c :: p => Some (c, p) end
  else Some (c, p).

(** The do-while loop over a character class, entered with [c] read and [p] behind it.
    [Some (ok, p)]: the class was closed in front of [p]; [None]: return (0). *)
Fixpoint class_loop (fuel : nat) (s1 : Z) (notflag : bool) (c : Z) (p : cstring) (lc : Z) (ok : bool)
    : option (bool * cstring) :=
  match fuel with
  | O => None
  | S fuel =>
      let head :=
        if (c =? ch_dash) && negb (lc =? 0) && negb (peek p =? ch_close) then
          match p with
          | [] => None
          | c :: p =>
              match unescape c p with
              | None => None
              | Some (c, p) =>
                  if notflag then
                    if (s1 <? lc) || (c <? s1) then Some (c, p, true) else None
                  else Some (c, p, ok || ((lc <=? s1) && (s1 <=? c)))
              end
          end
        else
          match unescape c p with None => None | Some (c, p) => Some (c, p, ok) end in
      match head with
      | None => None
      | Some (c, p, ok) =>
          let lc := c in
          let tested :=
            if notflag then (if negb (s1 =? c) then Some true else None) else Some (ok || (s1 =? c)) in
          match tested with
          | None => None
          | Some ok =>
              match p with
              | [] => None
              | c :: p =>
                  if c =? ch_close then Some (ok, p) else class_loop fuel s1 notflag c p lc ok
              end
          end
      end
  end.

(** The class behind a '['. *)
Definition match_class (s1 : Z) (p : cstring) : option (bool * cstring) :=
  let '(notflag, p) := if peek p =? ch_bang then (true, tl p) else (false, p) in
  match p with
  | [] => None
  | c :: p => class_loop (S (length p)) s1 notflag c p 0 false
  end.

(** Consecutive stars are one. *)
Fixpoint skip_stars (p : cstring) : cstring :=
  match p with [] => [] | c :: q => if c =? ch_star then skip_stars q else p end.

Section Glob.
(** The recursive call of the '*' case, on each suffix of the string. *)
Context (rec : cstring -> Z).

Fixpoint try_suffixes (s : cstring) : Z :=
  match s with
  | [] => 0
  | _ :: s' => let gs := rec s in if negb (gs =? 0) then gs else try_suffixes s'
  end.
End Glob.

(** [fuel] bounds the characters of the pattern; every turn consumes one. *)
Fixpoint glob (fuel : nat) (s p : cstring) (depth : Z) : Z :=
  match fuel with
  | O => 0
  | S fuel =>
      match p with
      | [] => match s with [] => 1 | _ => 0 end
      | c :: p =>
          if c =? ch_open then
            match s with
            | [] => 0
            | s1 :: s =>
                match match_class s1 p with
                | Some (true, p) => glob fuel s p depth
                | _ => 0
                end
            end
          else if c =? ch_quest then
            match s with [] => 0 | _ :: s => glob fuel s p depth end
          else if c =? ch_star then
            match skip_stars p with
            | [] => 1
            | q =>
                try_suffixes (fun s =>
                  if DTRACE_PROBEKEY_MAXDEPTH <? depth + 1 then -1 else glob fuel s q (depth + 1)) s
            end
          else
            match unescape c p with
            | None => 0
            | Some (c, p) =>
                match s with [] => 0 | s1 :: s => if negb (c =? s1) then 0 else glob fuel s p depth end
            end
      end
  end.

(** [s] NULL is the empty string, [p] NULL matches nothing. *)
Definition dtrace_match_glob (s p : option cstring) (depth : Z) : Z :=
  if DTRACE_PROBEKEY_MAXDEPTH <? depth then -1
  else match p with
       | None => 0
       | Some p => glob (S (length p)) (default [] s) p depth
       end.

(** dtrace_strcmp(): the sign is that of the second string against the first. *)
Fixpoint dtrace_strcmp (p1 p2 : cstring) : Z :=
  match p1, p2 with
  | [], [] => 0
  | c1 :: p1, c2 :: p2 => if c2 - c1 =? 0 then dtrace_strcmp p1 p2 else c2 - c1
  | [], c2 :: _ => c2
  | c1 :: _, [] => - c1
  end.

Definition dtrace_match_string (s p : option cstring) (depth : Z) : Z :=
  match s, p with
  | Some s, Some p => if dtrace_strcmp s p =? 0 then 1 else 0
  | _, _ => 0
  end.

Definition dtrace_match_nul (s p : option cstring) (depth : Z) : Z := 1.

Definition dtrace_match_nonzero (s p : option cstring) (depth : Z) : Z :=
  match s with Some (_ :: _) => 1 | _ => 0 end.

(** * Probe keys *)

(** The function pointers a key may hold. *)
Inductive probekey_f := MatchGlob | MatchString | MatchNul | MatchNonzero.

#[export] Instance probekey_f_eq_dec : EqDecision probekey_f.
Proof. solve_decision. Defined.

Definition call_match (f : probekey_f) : option cstring -> option cstring -> Z -> Z :=
  match f with
  | MatchGlob => dtrace_match_glob
  | MatchString => dtrace_match_string
  | MatchNul => dtrace_match_nul
  | MatchNonzero => dtrace_match_nonzero
  end.

Definition is_glob_char (c : Z) : bool :=
  (c =? ch_open) || (c =? ch_quest) || (c =? ch_star) || (c =? ch_bslash).

Definition dtrace_probekey_func (p : option cstring) : probekey_f :=
  match p with
  | None | Some [] => MatchNul
  | Some p => if existsb is_glob_char p then MatchGlob else MatchString
  end.

Record dtrace_probedesc := ProbeDesc {
  dtpd_id : Z;
  dtpd_provider : cstring;
  dtpd_mod : cstring;
  dtpd_func : cstring;
  dtpd_name : cstring
}.

Record dtrace_probekey_t := ProbeKey {
  dtpk_prov : option cstring; dtpk_pmatch : probekey_f;
  dtpk_mod : option cstring; dtpk_mmatch : probekey_f;
  dtpk_func : option cstring; dtpk_fmatch : probekey_f;
  dtpk_name : option cstring; dtpk_nmatch : probekey_f;
  dtpk_id : Z
}.

Definition DTRACE_IDNONE : Z := 0.

Definition dtrace_probekey (pdp : dtrace_probedesc) : dtrace_probekey_t :=
  let pm := dtrace_probekey_func (Some (dtpd_provider pdp)) in
  let mm := dtrace_probekey_func (Some (dtpd_mod pdp)) in
  let fm := dtrace_probekey_func (Some (dtpd_func pdp)) in
  let nm := dtrace_probekey_func (Some (dtpd_name pdp)) in
  let fm :=
    if (dtpd_id pdp =? DTRACE_IDNONE) && bool_decide (pm = MatchNul) && bool_decide (mm = MatchNul) &&
       bool_decide (fm = MatchNul) && bool_decide (nm = MatchNul) then MatchNonzero else fm in
  ProbeKey (Some (dtpd_provider pdp)) pm (Some (dtpd_mod pdp)) mm (Some (dtpd_func pdp)) fm
    (Some (dtpd_name pdp)) nm (dtpd_id pdp).

(** * Probes *)

(** Stability attributes of a provider's names and arguments. *)
Record dtrace_attribute := Attribute { dtat_name : Z; dtat_data : Z; dtat_class : Z }.

Record dtrace_pattr := Pattr {
  dtpa_provider : dtrace_attribute;
  dtpa_mod : dtrace_attribute;
  dtpa_func : dtrace_attribute;
  dtpa_name : dtrace_attribute;
  dtpa_args : dtrace_attribute
}.

(** The operations of a provider: function pointers, [None] is NULL. *)
Record dtrace_pops := Pops {
  dtps_provide : option Z; dtps_provide_module : option Z;
  dtps_enable : option Z; dtps_disable : option Z;
  dtps_suspend : option Z; dtps_resume : option Z;
  dtps_getargdesc : option Z; dtps_getargval : option Z;
  dtps_usermode : option Z; dtps_destroy : option Z
}.

(** A provider; [dtpp_flags], [dtpp_uid] and [dtpp_zoneid] are its [dtpv_priv]. *)
Record dtrace_provider_t := Provider {
  dtpv_attr : dtrace_pattr;
  dtpp_flags : Z;
  dtpp_uid : Z;
  dtpp_zoneid : Z;
  dtpv_pops : dtrace_pops;
  dtpv_name : cstring;
  dtpv_arg : Z;
  dtpv_defunct : bool
}.

(** A probe; [dtpr_ecb] lists its ECBs and [dtpr_provider] points to its provider.  The
    links of the three hash chains are kept with the hash tables. *)
Record dtrace_probe_t := Probe {
  dtpr_id : Z;
  dtpr_ecb : list Z;
  dtpr_arg : Z;
  dtpr_predcache : Z;
  dtpr_aframes : Z;
  dtpr_provider : Z;
  dtpr_mod : cstring;
  dtpr_func : cstring;
  dtpr_name : cstring;
  dtpr_gen : Z
}.

Definition DTRACE_PRIV_KERNEL : Z := 0x1.
Definition DTRACE_PRIV_USER : Z := 0x2.
Definition DTRACE_PRIV_PROC : Z := 0x4.
Definition DTRACE_PRIV_OWNER : Z := 0x8.
Definition DTRACE_PRIV_ZONEOWNER : Z := 0x10.
Definition DTRACE_PRIV_ALL : Z := 0x1f.

Section MatchProbe.
(** The providers, by their addresses. *)
Context (pvs : Z -> dtrace_provider_t).

Definition dtrace_match_priv (prp : dtrace_probe_t) (priv uid zoneid : Z) : bool :=
  let pv := pvs (dtpr_provider prp) in
  if negb (priv =? DTRACE_PRIV_ALL) then
    let ppriv := dtpp_flags pv in
    let m := Z.land priv ppriv in
    if Z.land priv (Z.lor DTRACE_PRIV_PROC (Z.lor DTRACE_PRIV_USER DTRACE_PRIV_KERNEL)) =? 0 then false
    else if (m =? 0) && negb (ppriv =? 0) then false
    else if negb (Z.land (Z.ldiff ppriv m) DTRACE_PRIV_OWNER =? 0) && negb (uid =? dtpp_uid pv) then false
    else if negb (Z.land (Z.ldiff ppriv m) DTRACE_PRIV_ZONEOWNER =? 0) && negb (zoneid =? dtpp_zoneid pv)
    then false
    else true
  else true.

Definition dtrace_match_probe (prp : dtrace_probe_t) (pkp : dtrace_probekey_t) (priv uid zoneid : Z) : Z :=
  let pvp := pvs (dtpr_provider prp) in
  if dtpv_defunct pvp then 0
  else
    let rv := call_match (dtpk_pmatch pkp) (Some (dtpv_name pvp)) (dtpk_prov pkp) 0 in
    if rv <=? 0 then rv
    else
      let rv := call_match (dtpk_mmatch pkp) (Some (dtpr_mod prp)) (dtpk_mod pkp) 0 in
      if rv <=? 0 then rv
      else
        let rv := call_match (dtpk_fmatch pkp) (Some (dtpr_func prp)) (dtpk_func pkp) 0 in
        if rv <=? 0 then rv
        else
          let rv := call_match (dtpk_nmatch pkp) (Some (dtpr_name prp)) (dtpk_name pkp) 0 in
          if rv <=? 0 then rv
          else if negb (dtrace_match_priv prp priv uid zoneid) then 0
          else rv.
End MatchProbe.

(** * What a pattern means *)

Inductive item := One (c : Z) | Span (lo hi : Z).

Definition item_has (s1 : Z) (it : item) : bool :=
  match it with One c => s1 =? c | Span lo hi => (lo <=? s1) && (s1 <=? hi) end.

(** The items of a class and what follows it; [None]: it is not closed. *)
Fixpoint class_items (fuel : nat) (c : Z) (p : cstring) (lc : Z) : option (list item * cstring) :=
  match fuel with
  | O => None
  | S fuel =>
      let head :=
        if (c =? ch_dash) && negb (lc =? 0) && negb (peek p =? ch_close) then
          match p with
          | [] => None
          | c :: p => match unescape c p with None => None | Some (c, p) => Some (c, p, [Span lc c; One c]) end
          end
        else match unescape c p with None => None | Some (c, p) => Some (c, p, [One c]) end in
      match head with
      | None => None
      | Some (_, [], _) => None
      | Some (c, c' :: p, its) =>
          if c' =? ch_close then Some (its, p)
          else match class_items fuel c' p c with
               | Some (its', p) => Some (its ++ its', p)
               | None => None
               end
      end
  end.

Inductive tok :=
| Lit (c : Z) | AnyChar | Star
| Class (neg : bool) (items : list item)
| Bad.                              (** malformed: matches nothing *)

Definition class_tok (p : cstring) : option (bool * list item * cstring) :=
  let '(neg, p) := if peek p =? ch_bang then (true, tl p) else (false, p) in
  match p with
  | [] => None
  | c :: p => match class_items (S (length p)) c p 0 with Some (its, p) => Some (neg, its, p) | None => None end
  end.

Fixpoint tokens (fuel : nat) (p : cstring) : list tok :=
  match fuel with
  | O => []
  | S fuel =>
      match p with
      | [] => []
      | c :: p =>
          if c =? ch_open then
            match class_tok p with
            | Some (neg, its, p) => Class neg its :: tokens fuel p
            | None => [Bad]
            end
          else if c =? ch_quest then AnyChar :: tokens fuel p
          else if c =? ch_star then Star :: tokens fuel p
          else match unescape c p with Some (c, p) => Lit c :: tokens fuel p | None => [Bad] end
      end
  end.

Definition pattern (p : cstring) : list tok := tokens (S (length p)) p.

Definition tok_ok (t : tok) (c : Z) : Prop :=
  match t with
  | Lit x => c = x
  | AnyChar => True
  | Class neg its => existsb (item_has c) its = negb neg
  | _ => False
  end.

(** The string [s] matches the pattern. *)
Fixpoint denotes (ts : list tok) (s : cstring) : Prop :=
  match ts with
  | [] => s = []
  | Star :: ts => exists s1 s2, s = s1 ++ s2 /\ denotes ts s2
  | t :: ts => match s with [] => False | c :: s => tok_ok t c /\ denotes ts s end
  end.

Fixpoint stars (ts : list tok) : Z :=
  match ts with [] => 0 | Star :: ts => 1 + stars ts | _ :: ts => stars ts end.

(** ** Classes *)

Lemma unescape_length c p c' p' : unescape c p = Some (c', p') -> (length p' <= length p)%nat.
Proof. unfold unescape. destruct (c =? ch_bslash); [|by intros [= _ <-]]. destruct p; [done|]. intros [= _ <-]. simpl. lia. Qed.

Lemma class_items_length fuel c p lc its p' :
  class_items fuel c p lc = Some (its, p') -> (length p' < length p)%nat /\ its <> [].
Proof.
  revert c p lc its. induction fuel as [|fuel IH]; intros c p lc its; cbn [class_items]; [done|]. cbv zeta.
  set (head := if _ && _ then _ else _).
  assert (Hh : forall c1 p1 i1, head = Some (c1, p1, i1) -> (length p1 <= length p)%nat /\ i1 <> []).
  { intros c1 p1 i1. unfold head. destruct (_ && _).
    - destruct p as [|x p2]; [done|]. destruct (unescape x p2) as [[y p3]|] eqn:E; [|done].
      apply unescape_length in E. intros [= <- <- <-]. split; [simpl; lia|done].
    - destruct (unescape c p) as [[y p3]|] eqn:E; [|done]. apply unescape_length in E. by intros [= <- <- <-]. }
  clearbody head. destruct head as [[[c1 p1] i1]|]; [|done]. destruct (Hh c1 p1 i1 eq_refl) as [Hl Hi].
  destruct p1 as [|c2 p2]; [done|]. simpl in Hl. destruct (c2 =? ch_close).
  - intros [= <- <-]. split; [lia|done].
  - destruct (class_items fuel c2 p2 c1) as [[its' p3]|] eqn:E; [|done]. intros [= <- <-].
    apply IH in E as [? ?]. split; [lia|]. by destruct i1.
Qed.

Lemma class_tok_length p neg its p' : class_tok p = Some (neg, its, p') -> (length p' < length p)%nat /\ its <> [].
Proof.
  unfold class_tok. destruct (peek p =? ch_bang).
  - destruct p as [|x [|c p]]; try done. cbn [tl]. destruct (class_items _ _ _ _) as [[i q]|] eqn:E; [|done].
    intros [= <- <- <-]. apply class_items_length in E as [? ?]. split; [simpl; lia|done].
  - destruct p as [|c p]; [done|]. destruct (class_items _ _ _ _) as [[i q]|] eqn:E; [|done].
    intros [= <- <- <-]. apply class_items_length in E as [? ?]. split; [simpl; lia|done].
Qed.

(** A positive class collects the items that contain the character. *)
Lemma class_loop_pos fuel s1 c p lc ok :
  class_loop fuel s1 false c p lc ok =
  match class_items fuel c p lc with
  | Some (its, p') => Some (ok || existsb (item_has s1) its, p')
  | None => None
  end.
Proof.
  revert c p lc ok. induction fuel as [|fuel IH]; intros c p lc ok; cbn [class_loop class_items]; [done|]. cbv zeta.
  destruct (_ && _).
  - destruct p as [|x p2]; [done|]. destruct (unescape x p2) as [[y [|z p3]]|]; [done| |done].
    destruct (z =? ch_close).
    + cbn. by rewrite orb_false_r, orb_assoc.
    + rewrite IH. destruct (class_items fuel z p3 y) as [[i q]|]; [|done]. cbn. by rewrite !orb_assoc.
  - destruct (unescape c p) as [[y [|z p3]]|]; [done| |done]. destruct (z =? ch_close).
    + cbn. by rewrite orb_false_r.
    + rewrite IH. destruct (class_items fuel z p3 y) as [[i q]|]; [|done]. cbn. by rewrite !orb_assoc.
Qed.

(** A negative one leaves at the first of them. *)
Lemma class_loop_neg fuel s1 c p lc ok :
  class_loop fuel s1 true c p lc ok =
  match class_items fuel c p lc with
  | Some (its, p') => if existsb (item_has s1) its then None else Some (true, p')
  | None => None
  end.
Proof.
  revert c p lc ok. induction fuel as [|fuel IH]; intros c p lc ok; cbn [class_loop class_items]; [done|]. cbv zeta.
  destruct (_ && _).
  - destruct p as [|x p2]; [done|]. destruct (unescape x p2) as [[y p3]|]; [|done].
    assert (Hs : (s1 <? lc) || (y <? s1) = negb (item_has s1 (Span lc y))).
    { cbn. destruct (Z.ltb_spec s1 lc), (Z.ltb_spec y s1), (Z.leb_spec lc s1), (Z.leb_spec s1 y); (done || lia). }
    rewrite Hs. destruct (item_has s1 (Span lc y)) eqn:Ei; cbn [negb].
    + destruct p3 as [|z p3]; [done|]. destruct (z =? ch_close); [cbn [existsb]; by rewrite Ei|].
      destruct (class_items fuel z p3 y) as [[i q]|]; [|done]. cbn [existsb app]. by rewrite Ei.
    + destruct (s1 =? y) eqn:Ey; cbn [negb].
      * destruct p3 as [|z p3]; [done|]. destruct (z =? ch_close); [cbn [existsb item_has] in *; by rewrite Ei, Ey|].
        destruct (class_items fuel z p3 y) as [[i q]|]; [|done]. cbn [existsb app item_has] in *. by rewrite Ei, Ey.
      * destruct p3 as [|z p3]; [done|]. destruct (z =? ch_close); [cbn [existsb item_has] in *; by rewrite Ei, Ey|].
        rewrite IH. destruct (class_items fuel z p3 y) as [[i q]|]; [|done]. cbn [existsb app item_has] in *. by rewrite Ei, Ey.
  - destruct (unescape c p) as [[y p3]|]; [|done]. destruct (s1 =? y) eqn:Ey; cbn [negb].
    + destruct p3 as [|z p3]; [done|]. destruct (z =? ch_close); [cbn [existsb item_has]; by rewrite Ey|].
      destruct (class_items fuel z p3 y) as [[i q]|]; [|done]. cbn [existsb app item_has]. by rewrite Ey.
    + destruct p3 as [|z p3]; [done|]. destruct (z =? ch_close); [cbn [existsb item_has]; by rewrite Ey|].
      rewrite IH. destruct (class_items fuel z p3 y) as [[i q]|]; [|done]. cbn [existsb app item_has]. by rewrite Ey.
Qed.

Lemma match_class_spec s1 p :
  match class_tok p with
  | Some (neg, its, p') =>
      if bool_decide (existsb (item_has s1) its = negb neg) then match_class s1 p = Some (true, p')
      else match_class s1 p = Some (false, p') \/ match_class s1 p = None
  | None => match_class s1 p = None
  end.
Proof.
  unfold class_tok, match_class. destruct (peek p =? ch_bang).
  - destruct (tl p) as [|c q]; [done|]. rewrite class_loop_neg.
    destruct (class_items _ c q 0) as [[its p']|]; [|done]. case_bool_decide as Hb; cbn in Hb.
    + by rewrite Hb.
    + right. by destruct (existsb (item_has s1) its).
  - destruct p as [|c q]; [done|]. rewrite class_loop_pos.
    destruct (class_items _ c q 0) as [[its p']|]; [|done]. cbn [orb]. case_bool_decide as Hb; cbn in Hb.
    + by rewrite Hb.
    + left. by destruct (existsb (item_has s1) its).
Qed.

(** ** Patterns *)

Lemma tokens_fuel f f' p : (length p < f)%nat -> (length p < f')%nat -> tokens f p = tokens f' p.
Proof.
  revert f' p. induction f as [|f IH]; intros [|f'] p Hf Hf'; try lia. cbn [tokens].
  destruct p as [|c p]; [done|]. cbn [length] in *. destruct (c =? ch_open).
  - destruct (class_tok p) as [[[neg its] q]|] eqn:E; [|done]. apply class_tok_length in E as [? _]. f_equal. apply IH; lia.
  - destruct (c =? ch_quest); [f_equal; apply IH; lia|]. destruct (c =? ch_star); [f_equal; apply IH; lia|].
    destruct (unescape c p) as [[x q]|] eqn:E; [|done]. apply unescape_length in E. f_equal. apply IH; lia.
Qed.

(** The tokens of a pattern, one at a time. *)
Lemma pattern_cons c p :
  pattern (c :: p) =
  if c =? ch_open then
    match class_tok p with Some (neg, its, q) => Class neg its :: pattern q | None => [Bad] end
  else if c =? ch_quest then AnyChar :: pattern p
  else if c =? ch_star then Star :: pattern p
  else match unescape c p with Some (x, q) => Lit x :: pattern q | None => [Bad] end.
Proof.
  unfold pattern at 1. cbn [length]. remember (S (length p)) as n eqn:En. cbn [tokens]. destruct (c =? ch_open).
  - destruct (class_tok p) as [[[neg its] q]|] eqn:E; [|done]. apply class_tok_length in E as [? _].
    f_equal. apply tokens_fuel; lia.
  - destruct (c =? ch_quest); [f_equal; apply tokens_fuel; lia|].
    destruct (c =? ch_star); [f_equal; apply tokens_fuel; lia|].
    destruct (unescape c p) as [[x q]|] eqn:E; [|done]. apply unescape_length in E. f_equal. apply tokens_fuel; lia.
Qed.

Lemma skip_stars_length p : (length (skip_stars p) <= length p)%nat.
Proof. induction p as [|c p IH]; cbn; [lia|]. destruct (c =? ch_star); cbn; lia. Qed.

Lemma skip_stars_head p c q : skip_stars p = c :: q -> (c =? ch_star) = false.
Proof.
  induction p as [|x p IH]; cbn; [done|]. destruct (x =? ch_star) eqn:E; [done|]. by intros [= <- _].
Qed.

Lemma pattern_star p : pattern (ch_star :: p) = Star :: pattern p.
Proof. done. Qed.

Lemma star_star ts s : denotes (Star :: Star :: ts) s <-> denotes (Star :: ts) s.
Proof.
  split.
  - intros (a & b & -> & c & d & -> & H). exists (a ++ c), d. by rewrite app_assoc.
  - intros (a & b & -> & H). exists a, b. split; [done|]. by exists [], b.
Qed.

Lemma denotes_skip p s : denotes (Star :: pattern p) s <-> denotes (Star :: pattern (skip_stars p)) s.
Proof.
  induction p as [|c p IH]; [done|]. cbn [skip_stars]. destruct (Z.eqb_spec c ch_star) as [->|]; [|done].
  rewrite pattern_star, star_star. apply IH.
Qed.

Lemma stars_skip p : stars (pattern (skip_stars p)) <= stars (pattern p).
Proof.
  induction p as [|c p IH]; [done|]. cbn [skip_stars]. destruct (Z.eqb_spec c ch_star) as [->|]; [|done].
  rewrite pattern_star. cbn [stars]. lia.
Qed.

Lemma stars_nonneg ts : 0 <= stars ts.
Proof. induction ts as [|[] ts IH]; cbn [stars]; lia. Qed.

(** A pattern that does not start with a star matches no empty string. *)
Lemma not_empty p c q : skip_stars p = c :: q -> ~ denotes (pattern (c :: q)) [].
Proof.
  intros H. apply skip_stars_head in H. unfold pattern. cbn [tokens]. rewrite H. destruct (c =? ch_open).
  - destruct (class_tok q) as [[[neg its] r]|]; cbn; tauto.
  - destruct (c =? ch_quest); [cbn; tauto|]. destruct (unescape c q) as [[x r]|]; cbn; tauto.
Qed.

Lemma try_suffixes_spec rec s :
  (try_suffixes rec s = 0 /\ forall a b, s = a ++ b -> b <> [] -> rec b = 0) \/
  (exists a b, s = a ++ b /\ b <> [] /\ rec b <> 0 /\ try_suffixes rec s = rec b).
Proof.
  induction s as [|c s IH]; cbn [try_suffixes].
  { left. split; [done|]. intros a b H Hb. symmetry in H. apply app_eq_nil in H as [_ ->]. done. }
  cbv zeta. destruct (Z.eqb_spec (rec (c :: s)) 0) as [H0|Hn]; cbn [negb].
  - destruct IH as [[IH0 IHs]|(a & b & -> & Hb & Hr & IH)].
    + left. split; [done|]. intros [|x a] b H Hb; [cbn in H; by subst b|]. injection H as _ H. by apply (IHs a).
    + right. by exists (c :: a), b.
  - right. by exists [], (c :: s).
Qed.

(** The result of the matcher against the meaning of the pattern. *)
Definition glob_result (r : Z) (ts : list tok) (s : cstring) (depth : Z) : Prop :=
  (r = 1 /\ denotes ts s) \/ (r = 0 /\ ~ denotes ts s) \/
  (r = -1 /\ DTRACE_PROBEKEY_MAXDEPTH < depth + stars ts).

Lemma glob_result_cons r t ts c s depth :
  t <> Star -> tok_ok t c -> glob_result r ts s depth -> glob_result r (t :: ts) (c :: s) depth.
Proof.
  intros Ht Hok H. assert (Hd : denotes (t :: ts) (c :: s) <-> denotes ts s) by (destruct t; cbn in *; tauto).
  unfold glob_result. rewrite Hd. replace (stars (t :: ts)) with (stars ts) by (by destruct t). done.
Qed.

Lemma glob_no r ts s depth : r = 0 -> ~ denotes ts s -> glob_result r ts s depth.
Proof. intros. right; left. done. Qed.

(** A star: the recursion over the suffixes. *)
Lemma glob_star fuel p s depth :
  (length p < fuel)%nat ->
  (forall s q d, (length q < fuel)%nat -> glob_result (glob fuel s q d) (pattern q) s d) ->
  glob_result (match skip_stars p with
    | [] => 1
    | q => try_suffixes (fun s => if DTRACE_PROBEKEY_MAXDEPTH <? depth + 1 then -1 else glob fuel s q (depth + 1)) s
    end) (Star :: pattern p) s depth.
Proof.
  intros Hp IH. pose proof (skip_stars_length p) as Hl. pose proof (stars_skip p) as Hs.
  unfold glob_result. rewrite denotes_skip. cbn [stars].
  destruct (skip_stars p) as [|c q] eqn:Eq.
  { left. split; [done|]. exists s, []. rewrite app_nil_r. by split. }
  pose proof (not_empty p c q Eq) as Hne. set (rec := fun s => _).
  assert (Hrec : forall s, (rec s = 1 /\ denotes (pattern (c :: q)) s) \/ (rec s = 0 /\ ~ denotes (pattern (c :: q)) s) \/
    (rec s = -1 /\ DTRACE_PROBEKEY_MAXDEPTH < depth + (1 + stars (pattern p)))).
  { intros s'. unfold rec. pose proof (stars_nonneg (pattern p)). destruct (Z.ltb_spec DTRACE_PROBEKEY_MAXDEPTH (depth + 1)).
    - right; right. split; [done|lia].
    - destruct (IH s' (c :: q) (depth + 1)) as [?|[?|[? ?]]]; [lia|auto|auto|]. right; right. split; [done|lia]. }
  destruct (try_suffixes_spec rec s) as [[-> Hall]|(a & b & -> & Hb & Hn & ->)].
  - right; left. split; [done|]. intros (a & b & -> & Hd). destruct b as [|x b]; [done|].
    destruct (Hrec (x :: b)) as [[Hr _]|[[_ Hr]|[Hr _]]]; [|done|];
      rewrite (Hall a (x :: b)) in Hr by done; done.
  - destruct (Hrec b) as [[-> Hd]|[[Hr _]|Hr]]; [|congruence|auto]. left. split; [done|]. by exists a, b.
Qed.

Lemma glob_spec fuel s p depth :
  (length p < fuel)%nat -> glob_result (glob fuel s p depth) (pattern p) s depth.
Proof.
  revert s p depth. induction fuel as [|fuel IH]; intros s p depth Hf; [lia|]. cbn [glob].
  destruct p as [|c p].
  { destruct s; [by left|by apply glob_no]. }
  cbn [length] in Hf. rewrite pattern_cons.
  destruct (c =? ch_open).
  - destruct s as [|s1 s].
    { apply glob_no; [done|]. destruct (class_tok p) as [[[? ?] ?]|]; cbn; tauto. }
    pose proof (match_class_spec s1 p) as Hm. destruct (class_tok p) as [[[neg its] q]|] eqn:E.
    2: { rewrite Hm. apply glob_no; [done|]. by intros [? _]. }
    apply class_tok_length in E as [Hq _]. 
    case_bool_decide as Hb.
    + rewrite Hm. apply glob_result_cons; [done|done|]. apply IH. lia.
    + assert (Hno : ~ denotes (Class neg its :: pattern q) (s1 :: s)) by (intros [H _]; done).
      destruct Hm as [-> | ->]; by apply glob_no.
  - destruct (c =? ch_quest).
    {  destruct s as [|s1 s]; [apply glob_no; [done|cbn; tauto]|].
      apply glob_result_cons; [done|done|]. apply IH. lia. }
    destruct (c =? ch_star).
    {  apply glob_star; [lia|]. intros. by apply IH. }
    destruct (unescape c p) as [[x q]|] eqn:E; [|apply glob_no; [done|destruct s; cbn; tauto]].
    apply unescape_length in E.  destruct s as [|s1 s]; [apply glob_no; [done|cbn; tauto]|].
    destruct (Z.eqb_spec x s1) as [<-|Hne]; cbn [negb].
    + apply glob_result_cons; [done|done|]. apply IH. lia.
    + apply glob_no; [done|]. intros [H _]. cbn in H. congruence.
Qed.

(** ** The other matchers *)

Lemma strcmp_zero p q : dtrace_strcmp p q = 0 <-> p = q \/ exists r a b, p = r ++ a /\ q = r ++ b /\
  ((a = [] /\ exists t, b = 0 :: t) \/ (b = [] /\ exists t, a = 0 :: t)).
Proof.
  revert q. induction p as [|c p IH]; intros [|d q]; cbn [dtrace_strcmp].
  - split; [by left|done].
  - split.
    + intros ->. right. exists [], [], (0 :: q). split_and!; try done. left. split; [done|]. by exists q.
    + intros [?|(r & a & b & Hr & Hq & Hc)]; [done|]. symmetry in Hr. apply app_eq_nil in Hr as [-> ->].
      destruct Hc as [[_ [t ->]]|[-> [t ?]]]; [|done]. by injection Hq.
  - split.
    + intros H. assert (c = 0) as -> by lia. right. exists [], (0 :: p), []. split_and!; try done. right. split; [done|]. by exists p.
    + intros [?|(r & a & b & Hr & Hq & Hc)]; [done|]. symmetry in Hq. apply app_eq_nil in Hq as [-> ->].
      destruct Hc as [[-> [t ?]]|[_ [t ->]]]; [done|]. injection Hr as -> _. done.
  - destruct (Z.eqb_spec (d - c) 0) as [H0|Hn].
    + assert (d = c) as -> by lia. rewrite IH. split.
      * intros [->|(r & a & b & -> & -> & Hc)]; [by left|]. right. exists (c :: r), a, b. by split_and!.
      * intros [[= ->]|(r & a & b & Hp & Hq & Hc)]; [by left|]. destruct r as [|x r].
        -- cbn in Hp, Hq. destruct Hc as [[-> _]|[-> _]]; done.
        -- injection Hp as -> ->. injection Hq as ->. right. by exists r, a, b.
    + split; [lia|]. intros [[= -> ->]|(r & a & b & Hp & Hq & Hc)]; [lia|]. destruct r as [|x r].
      * cbn in Hp, Hq. destruct Hc as [[-> _]|[-> _]]; done.
      * injection Hp as -> _. injection Hq as -> _. lia.
Qed.

Definition no_nul (s : cstring) : Prop := Forall (fun c => c <> 0) s.

Lemma strcmp_eq p q : no_nul p -> no_nul q -> dtrace_strcmp p q = 0 <-> p = q.
Proof.
  intros Hp Hq. rewrite strcmp_zero. split; [|by left]. intros [?|(r & a & b & -> & -> & Hc)]; [done|].
  unfold no_nul in *. rewrite Forall_app in Hp, Hq. destruct Hp as [_ Hp], Hq as [_ Hq].
  destruct Hc as [[_ [t ->]]|[_ [t ->]]]; [by inversion Hq|by inversion Hp].
Qed.

(** ** Probe keys *)

(** A pattern without special characters denotes itself. *)
Lemma plain_pattern p : existsb is_glob_char p = false -> pattern p = map Lit p.
Proof.
  induction p as [|c p IH]; [done|]. cbn [existsb]. intros [Hc Hp]%orb_false_iff. rewrite pattern_cons.
  unfold is_glob_char in Hc. unfold unescape. rewrite !orb_false_iff in Hc. destruct Hc as [[[-> ->] ->] ->].
  by rewrite (IH Hp).
Qed.

Lemma denotes_lits p s : denotes (map Lit p) s <-> s = p.
Proof.
  revert s. induction p as [|c p IH]; intros s; cbn; [done|]. destruct s as [|d s]; [done|]. rewrite IH.
  split; [by intros [-> ->]|]. by intros [= -> ->].
Qed.

(** What an element of a description asks of a probe: nothing if it is empty. *)
Definition elem_denotes (p s : cstring) : Prop :=
  match p with [] => True | p => denotes (pattern p) s end.

(** The elements whose recursion stays within DTRACE_PROBEKEY_MAXDEPTH. *)
Definition elem_ok (p : cstring) : Prop :=
  no_nul p /\ stars (pattern p) <= DTRACE_PROBEKEY_MAXDEPTH.

Definition match_sound (r : Z) (P : Prop) : Prop := (r = 1 /\ P) \/ (r = 0 /\ ~ P).

#[export] Instance match_sound_proper r : Proper (iff ==> iff) (match_sound r).
Proof. intros P Q HPQ. unfold match_sound. by rewrite HPQ. Qed.

Lemma match_elem_sound p s :
  elem_ok p -> no_nul s -> match_sound (call_match (dtrace_probekey_func (Some p)) (Some s) (Some p) 0) (elem_denotes p s).
Proof.
  intros Hp Hs. destruct p as [|c p]; [by left|]. unfold dtrace_probekey_func, elem_denotes.
  destruct Hp as [Hp Hst]. destruct (existsb is_glob_char (c :: p)) eqn:E; cbn [call_match].
  - unfold dtrace_match_glob. cbn [DTRACE_PROBEKEY_MAXDEPTH Z.ltb Z.compare default].
    destruct (glob_spec (S (length (c :: p))) s (c :: p) 0) as [?|[?|[_ ?]]]; [lia|by left|by right|lia].
  - rewrite plain_pattern, denotes_lits by done. unfold dtrace_match_string, match_sound.
    pose proof (strcmp_eq s (c :: p) Hs Hp) as Hc.
    destruct (Z.eqb_spec (dtrace_strcmp s (c :: p)) 0); [left|right]; tauto.
Qed.

(** A description that names nothing asks for the probes with a function. *)
Definition desc_empty (pdp : dtrace_probedesc) : Prop :=
  dtpd_id pdp = DTRACE_IDNONE /\ Forall (fun p => dtrace_probekey_func (Some p) = MatchNul)
    [dtpd_provider pdp; dtpd_mod pdp; dtpd_func pdp; dtpd_name pdp].

Definition func_denotes (pdp : dtrace_probedesc) (s : cstring) : Prop :=
  elem_denotes (dtpd_func pdp) s /\ (desc_empty pdp -> s <> []).

Lemma match_func_sound pdp s :
  elem_ok (dtpd_func pdp) -> no_nul s ->
  match_sound (call_match (dtpk_fmatch (dtrace_probekey pdp)) (Some s) (Some (dtpd_func pdp)) 0) (func_denotes pdp s).
Proof.
  intros Hp Hs. unfold dtrace_probekey. cbn [dtpk_fmatch]. destruct (_ && _) eqn:E.
  - rewrite !andb_true_iff, !bool_decide_eq_true in E. destruct E as [[[[Hid%Z.eqb_eq Hpm] Hmm] Hfm] Hnm].
    assert (He : desc_empty pdp) by (split; [done|]; repeat constructor; done).
    assert (Hd : elem_denotes (dtpd_func pdp) s).
    { unfold dtrace_probekey_func in Hfm. destruct (dtpd_func pdp) as [|c p]; [done|]. by destruct (existsb _ _). }
    unfold match_sound, func_denotes. destruct s; cbn; [right|left]; (split; [done|]); [|done].
    intros [_ H]. by apply H.
  - assert (Hn : ~ desc_empty pdp).
    { intros [Hid Hf]. rewrite !andb_false_iff, !bool_decide_eq_false in E. rewrite !List.Forall_cons_iff in Hf.
      destruct E as [[[[E%Z.eqb_neq|E]|E]|E]|E]; tauto. }
    destruct (match_elem_sound _ s Hp Hs) as [[? ?]|[? ?]]; [left|right]; unfold func_denotes; (split; [done|]); tauto.
Qed.

Section Provided.
Context (pvs : Z -> dtrace_provider_t).

(** The whole description against the whole probe. *)
Definition desc_denotes (pdp : dtrace_probedesc) (prp : dtrace_probe_t) : Prop :=
  elem_denotes (dtpd_provider pdp) (dtpv_name (pvs (dtpr_provider prp))) /\
  elem_denotes (dtpd_mod pdp) (dtpr_mod prp) /\
  func_denotes pdp (dtpr_func prp) /\
  elem_denotes (dtpd_name pdp) (dtpr_name prp).

Definition desc_ok (pdp : dtrace_probedesc) : Prop :=
  elem_ok (dtpd_provider pdp) /\ elem_ok (dtpd_mod pdp) /\ elem_ok (dtpd_func pdp) /\ elem_ok (dtpd_name pdp).

Definition probe_ok (prp : dtrace_probe_t) : Prop :=
  no_nul (dtpv_name (pvs (dtpr_provider prp))) /\ no_nul (dtpr_mod prp) /\ no_nul (dtpr_func prp) /\
  no_nul (dtpr_name prp).

Lemma match_probe_sound prp pdp priv uid zoneid :
  desc_ok pdp -> probe_ok prp ->
  match_sound (dtrace_match_probe pvs prp (dtrace_probekey pdp) priv uid zoneid)
    (dtpv_defunct (pvs (dtpr_provider prp)) = false /\ desc_denotes pdp prp /\
     dtrace_match_priv pvs prp priv uid zoneid = true).
Proof.
  intros (Hpd & Hmd & Hfd & Hnd) (Hpp & Hmp & Hfp & Hnp).
  pose proof (match_func_sound pdp _ Hfd Hfp) as Hf. pose proof (match_elem_sound _ _ Hpd Hpp) as Hp.
  pose proof (match_elem_sound _ _ Hmd Hmp) as Hm. pose proof (match_elem_sound _ _ Hnd Hnp) as Hn.
  unfold dtrace_match_probe, match_sound, desc_denotes. cbv zeta.
  change (dtpk_func (dtrace_probekey pdp)) with (Some (dtpd_func pdp)).
  change (dtpk_pmatch (dtrace_probekey pdp)) with (dtrace_probekey_func (Some (dtpd_provider pdp))).
  change (dtpk_mmatch (dtrace_probekey pdp)) with (dtrace_probekey_func (Some (dtpd_mod pdp))).
  change (dtpk_nmatch (dtrace_probekey pdp)) with (dtrace_probekey_func (Some (dtpd_name pdp))).
  change (dtpk_prov (dtrace_probekey pdp)) with (Some (dtpd_provider pdp)).
  change (dtpk_mod (dtrace_probekey pdp)) with (Some (dtpd_mod pdp)).
  change (dtpk_name (dtrace_probekey pdp)) with (Some (dtpd_name pdp)).
  destruct (dtpv_defunct _); [right; split; [done|]; intuition congruence|].
  destruct Hp as [[-> ?]|[-> ?]]; cbn [Z.leb Z.compare]; [|right; tauto].
  destruct Hm as [[-> ?]|[-> ?]]; cbn [Z.leb Z.compare]; [|right; tauto].
  destruct Hf as [[-> ?]|[-> ?]]; cbn [Z.leb Z.compare]; [|right; tauto].
  destruct Hn as [[-> ?]|[-> ?]]; cbn [Z.leb Z.compare]; [|right; tauto].
  destruct (dtrace_match_priv _ _ _ _ _); cbn [negb]; [left; tauto|right; split; [done|]; intuition congruence].
Qed.

(** * Correctness of the matching *)

(** C35: globbing decides the meaning of the pattern (literals and escapes, '?', classes
    with ranges and negation, '*'): the result is 1 on a match and 0 on a mismatch, and the
    error -1 is possible only for patterns of more than DTRACE_PROBEKEY_MAXDEPTH stars. *)
Theorem dtrace_match_glob_decides (s p : cstring) :
  (dtrace_match_glob (Some s) (Some p) 0 = 1 /\ denotes (pattern p) s) \/
  (dtrace_match_glob (Some s) (Some p) 0 = 0 /\ ~ denotes (pattern p) s) \/
  (dtrace_match_glob (Some s) (Some p) 0 = -1 /\ DTRACE_PROBEKEY_MAXDEPTH < stars (pattern p)).
Proof. unfold dtrace_match_glob. apply (glob_spec (S (length p)) s p 0). lia. Qed.

(** C36: a probe matches the key built from a description exactly if its provider is not
    defunct, every element of the description denotes the probe's string (an empty element
    asks nothing, an entirely empty description asks for a function name), and the
    privileges admit it; the choice of strcmp, glob or "always" per element does not show. *)
Theorem dtrace_match_probe_decides prp pdp priv uid zoneid :
  desc_ok pdp -> probe_ok prp ->
  let r := dtrace_match_probe pvs prp (dtrace_probekey pdp) priv uid zoneid in
  (r = 1 \/ r = 0) /\
  (r = 1 <-> dtpv_defunct (pvs (dtpr_provider prp)) = false /\ desc_denotes pdp prp /\
             dtrace_match_priv pvs prp priv uid zoneid = true).
Proof.
  intros Hd Hp r. destruct (match_probe_sound prp pdp priv uid zoneid Hd Hp) as [[Hr ?]|[Hr ?]];
    fold r in Hr; rewrite Hr; (split; [tauto|]).
  - tauto.
  - split; [done|tauto].
Qed.

End Provided.

(** [sys*::[a-f]?o:] on [syscall::foo:e], a probe of a provider for users, asked for by a user. *)
Definition witness_desc : dtrace_probedesc := ProbeDesc 0 [115; 121; 115; 42] [] [91; 97; 45; 102; 93; 63; 111] [].
Definition witness_attr : dtrace_attribute := Attribute 1 1 5.
Definition witness_provider : dtrace_provider_t :=
  Provider (Pattr witness_attr witness_attr witness_attr witness_attr witness_attr) DTRACE_PRIV_USER 100 0
    (Pops (Some 1) None (Some 2) (Some 3) None None None None None (Some 4))
    [115; 121; 115; 99; 97; 108; 108] 0 false.
Definition witness_probe : dtrace_probe_t := Probe 7 [] 0 0 0 1 [] [102; 111; 111] [101] 1.

Lemma dtrace_match_probe_decides_witness :
  let pvs := fun _ => witness_provider in
  desc_denotes pvs witness_desc witness_probe /\
  dtrace_match_probe pvs witness_probe (dtrace_probekey witness_desc) DTRACE_PRIV_USER 100 0 = 1.
Proof.
  intros pvs.
  assert (H : dtrace_match_probe pvs witness_probe (dtrace_probekey witness_desc) DTRACE_PRIV_USER 100 0 = 1)
    by (vm_compute; reflexivity).
  split; [|exact H].
  apply (dtrace_match_probe_decides pvs witness_probe witness_desc DTRACE_PRIV_USER 100 0); [| |exact H].
  - split_and!; cbn; split_and?; try done; repeat constructor; (lia || done).
  - split_and!; repeat constructor; lia.
Defined.
