(* ===== verification/ProbeHash.v ===== *)
(** The probe hash tables (driver/dtrace.c, "DTrace Probe Hashing Functions").

    Probes are named by their addresses.  A table hashes one string of each probe (its
    module, function or name), found at [dth_stroffs] in the C structure and given here by
    [str]; the links of its chains, which C keeps in the probes at [dth_nextoffs] and
    [dth_prevoffs], are the maps [dth_next] and [dth_prev], absent keys being NULL. *)
From S2P Require Import Prelude Match.
From stdpp Require Import gmap.
#[local] Open Scope Z_scope.

(** * The tables *)

Record dtrace_hashbucket := HashBucket {
  dthb_chain : option Z;
  dthb_len : Z
}.

(** A slot of [dth_tab] is the list of its buckets in the order of [dthb_next]. *)
Record dtrace_hash := Hash {
  dth_tab : list (list dtrace_hashbucket);
  dth_size : Z;
  dth_mask : Z;
  dth_nbuckets : Z;
  dth_next : gmap Z Z;
  dth_prev : gmap Z Z
}.

(** dtrace_hash_str(): characters are signed. *)
Fixpoint hash_chars (hval : Z) (p : cstring) : Z :=
  match p with
  | [] => hval
  | c :: p =>
      let hval := u32 (Z.shiftl hval 4 + c) in
      let g := Z.land hval 0xf0000000 in
      let hval := if negb (g =? 0) then Z.lxor hval (Z.shiftr g 24) else hval in
      hash_chars (Z.land hval (u32 (Z.lnot g))) p
  end.

Definition dtrace_hash_str (p : cstring) : Z := hash_chars 0 p.

Definition dtrace_hash_create : dtrace_hash := Hash [[]] 1 0 0 ∅ ∅.

(** The bucket list a string hashes to. *)
Definition hash_ndx (mask : Z) (s : cstring) : nat := Z.to_nat (Z.land (dtrace_hash_str s) mask).

Definition slot (h : dtrace_hash) (ndx : nat) : list dtrace_hashbucket := default [] (dth_tab h !! ndx).

Section Hash.
Context (str : Z -> cstring).

(** DTRACE_HASHEQ() on the chain of a bucket and a string. *)
Definition bucket_is (s : cstring) (b : dtrace_hashbucket) : Prop :=
  match dthb_chain b with Some p => str p = s | None => False end.

#[export] Instance bucket_is_dec s b : Decision (bucket_is s b).
Proof. unfold bucket_is. destruct (dthb_chain b); apply _. Defined.

(** The walk over a slot: the position and the bucket found. *)
Definition find_bucket (s : cstring) (bs : list dtrace_hashbucket) : option (nat * dtrace_hashbucket) :=
  list_find (bucket_is s) bs.

(** One bucket is moved to the front of its new slot. *)
Definition resize_push (mask : Z) (tab : list (list dtrace_hashbucket)) (b : dtrace_hashbucket)
    : list (list dtrace_hashbucket) :=
  match dthb_chain b with
  | Some p => alter (cons b) (hash_ndx mask (str p)) tab
  | None => tab
  end.

Definition dtrace_hash_resize (h : dtrace_hash) : dtrace_hash :=
  let new_size := Z.shiftl (dth_size h) 1 in
  let new_mask := new_size - 1 in
  let new_tab := fold_left (resize_push new_mask) (concat (dth_tab h)) (replicate (Z.to_nat new_size) []) in
  Hash new_tab new_size new_mask (dth_nbuckets h) (dth_next h) (dth_prev h).

(** The code behind the label [add]: [new] becomes the head of the bucket's chain. *)
Definition hash_link (h : dtrace_hash) (ndx i : nat) (b : dtrace_hashbucket) (new : Z) : dtrace_hash :=
  let next := partial_alter (fun _ => dthb_chain b) new (dth_next h) in
  let prev := match dthb_chain b with Some c => <[c := new]> (dth_prev h) | None => dth_prev h end in
  let b := HashBucket (Some new) (dthb_len b + 1) in
  Hash (alter (fun bs => <[i := b]> bs) ndx (dth_tab h)) (dth_size h) (dth_mask h) (dth_nbuckets h) next prev.

(** dtrace_hash_add() calls itself after a resize; [None]: out of [fuel]. *)
Fixpoint hash_add (fuel : nat) (h : dtrace_hash) (new : Z) : option dtrace_hash :=
  let ndx := hash_ndx (dth_mask h) (str new) in
  match find_bucket (str new) (slot h ndx) with
  | Some (i, b) => Some (hash_link h ndx i b new)
  | None =>
      if dth_size h <? Z.shiftr (dth_nbuckets h) 1 then
        match fuel with O => None | S fuel => hash_add fuel (dtrace_hash_resize h) new end
      else
        let bucket := HashBucket None 0 in
        let h := Hash (alter (cons bucket) ndx (dth_tab h)) (dth_size h) (dth_mask h) (dth_nbuckets h + 1)
                   (dth_next h) (dth_prev h) in
        Some (hash_link h ndx 0 bucket new)
  end.

(** Every resize doubles the table, so half the buckets bound the calls. *)
Definition dtrace_hash_add (h : dtrace_hash) (new : Z) : option dtrace_hash :=
  hash_add (Z.to_nat (Z.shiftr (dth_nbuckets h) 1)) h new.

(** Lookups take the string of the template. *)
Definition dtrace_hash_lookup (h : dtrace_hash) (s : cstring) : option Z :=
  match find_bucket s (slot h (hash_ndx (dth_mask h) s)) with
  | Some (_, b) => dthb_chain b
  | None => None
  end.

Definition dtrace_hash_collisions (h : dtrace_hash) (s : cstring) : Z :=
  match find_bucket s (slot h (hash_ndx (dth_mask h) s)) with
  | Some (_, b) => dthb_len b
  | None => 0
  end.

(** [None]: the assertion that the bucket exists fails. *)
Definition dtrace_hash_remove (h : dtrace_hash) (probe : Z) : option dtrace_hash :=
  let ndx := hash_ndx (dth_mask h) (str probe) in
  match find_bucket (str probe) (slot h ndx) with
  | None => None
  | Some (i, b) =>
      let prevp := dth_prev h !! probe in
      let nextp := dth_next h !! probe in
      let set_prev := match nextp with
                      | Some n => partial_alter (fun _ => prevp) n (dth_prev h)
                      | None => dth_prev h
                      end in
      match prevp, nextp with
      | None, None =>
          Some (Hash (alter (delete i) ndx (dth_tab h)) (dth_size h) (dth_mask h) (dth_nbuckets h - 1)
                  (dth_next h) (dth_prev h))
      | None, Some n =>
          let b := HashBucket (Some n) (dthb_len b) in
          Some (Hash (alter (fun bs => <[i := b]> bs) ndx (dth_tab h)) (dth_size h) (dth_mask h) (dth_nbuckets h)
                  (dth_next h) set_prev)
      | Some p, _ =>
          Some (Hash (dth_tab h) (dth_size h) (dth_mask h) (dth_nbuckets h)
                  (partial_alter (fun _ => nextp) p (dth_next h)) set_prev)
      end
  end.

(** The loop of dtrace_match() over a chain: the probes it visits; [None]: out of [fuel]. *)
Fixpoint chain_walk (fuel : nat) (h : dtrace_hash) (p : option Z) : option (list Z) :=
  match p with
  | None => Some []
  | Some p =>
      match fuel with
      | O => None
      | S fuel => match chain_walk fuel h (dth_next h !! p) with Some l => Some (p :: l) | None => None end
      end
  end.
End Hash.

(** * What a table represents

    The abstract table maps a string to the probes with that string, the last added first. *)

Definition first (l : list Z) (e : option Z) : option Z := match l with [] => e | x :: _ => Some x end.

(** A doubly linked segment: [p] precedes it, [e] follows it. *)
Fixpoint seg (nx pv : gmap Z Z) (p : option Z) (l : list Z) (e : option Z) : Prop :=
  match l with
  | [] => True
  | x :: l => pv !! x = p /\ nx !! x = first l e /\ seg nx pv (Some x) l e
  end.

Section Rep.
Context (str : Z -> cstring).
Implicit Types (M : gmap cstring (list Z)) (b : dtrace_hashbucket) (bs : list dtrace_hashbucket).

(** Every string has a chain that is not empty and starts with a probe of that string. *)
Definition keyed M : Prop := forall k l, M !! k = Some l -> exists x, head l = Some x /\ str x = k.

(** The bucket of the chain of [k], in slot [i]; its length is at least that of the chain. *)
Definition bucket_for (mask : Z) M (i : nat) b (k : cstring) : Prop :=
  exists l, M !! k = Some l /\ dthb_chain b = head l /\ hash_ndx mask k = i /\ Z.of_nat (length l) <= dthb_len b.

Record slot_ok (mask : Z) M (i : nat) bs : Prop := {
  slot_nodup : NoDup (dthb_chain <$> bs);
  slot_sound : Forall (fun b => exists k, bucket_for mask M i b k) bs;
  slot_complete : forall k l, M !! k = Some l -> hash_ndx mask k = i -> head l ∈ dthb_chain <$> bs
}.

Record hash_rep (h : dtrace_hash) M : Prop := {
  rep_size : exists n, 0 <= n /\ dth_size h = 2 ^ n;
  rep_mask : dth_mask h = dth_size h - 1;
  rep_tab : length (dth_tab h) = Z.to_nat (dth_size h);
  rep_count : dth_nbuckets h = Z.of_nat (size M);
  rep_keyed : keyed M;
  rep_chain : forall k l, M !! k = Some l ->
    NoDup l /\ Forall (fun x => str x = k) l /\ seg (dth_next h) (dth_prev h) None l None;
  rep_slot : forall i bs, dth_tab h !! i = Some bs -> slot_ok (dth_mask h) M i bs
}.

(** ** Segments *)

Lemma seg_frame nx pv nx' pv' p l e :
  (forall x, x ∈ l -> nx' !! x = nx !! x /\ pv' !! x = pv !! x) -> seg nx pv p l e -> seg nx' pv' p l e.
Proof.
  revert p. induction l as [|x l IH]; intros p Hf; cbn; [done|]. intros (Hp & Hn & Hs).
  destruct (Hf x) as [-> ->]; [by left|]. split_and!; [done|done|]. apply IH; [|done]. intros y Hy. apply Hf. by right.
Qed.

Lemma seg_app nx pv p a x (b : list Z) e :
  seg nx pv p (a ++ x :: b) e <-> seg nx pv p a (Some x) /\ seg nx pv (match last a with Some y => Some y | None => p end) (x :: b) e.
Proof.
  revert p. induction a as [|y a IH]; intros p; [cbn; tauto|]. cbn [app seg] in IH |- *. rewrite IH.
  replace (first (a ++ x :: b) e) with (first a (Some x)) by (by destruct a).
  replace (match last (y :: a) with Some y => Some y | None => p end)
    with (match last a with Some z => Some z | None => Some y end); [tauto|].
  destruct a as [|z a]; [done|]. change (last (y :: z :: a)) with (last (z :: a)).
  destruct (last (z :: a)) eqn:E; [done|]. by apply last_None in E.
Qed.

(** ** Slots *)

Lemma keyed_head M k l k' l' : keyed M -> M !! k = Some l -> M !! k' = Some l' -> head l = head l' -> k = k'.
Proof. intros H Hl Hl' He. destruct (H k l Hl) as (x & Hx & <-), (H k' l' Hl') as (y & Hy & <-). congruence. Qed.

(** A bucket of another key. *)
Definition bucket_other (mask : Z) M (k : cstring) (i : nat) b : Prop :=
  exists k', k' <> k /\ bucket_for mask M i b k'.

Lemma bucket_other_agree mask M M' k i b :
  (forall k', k' <> k -> M' !! k' = M !! k') -> bucket_other mask M k i b -> bucket_other mask M' k i b.
Proof. intros Ha (k' & Hk & l & Hl & Hb). exists k'. split; [done|]. exists l. by rewrite Ha. Qed.

Lemma bucket_for_other mask M k i b b' :
  keyed M -> bucket_for mask M i b' k -> bucket_other mask M k i b -> dthb_chain b <> dthb_chain b'.
Proof.
  intros HM (l & Hl & Hc & _) (k' & Hk & l' & Hl' & Hc' & _) He. apply Hk.
  apply (keyed_head M k' l' k l); try done. congruence.
Qed.

(** The other buckets of a slot. *)
Lemma slot_others mask M k i a b c l :
  keyed M -> slot_ok mask M i (a ++ b :: c) -> M !! k = Some l -> dthb_chain b = head l ->
  NoDup (dthb_chain <$> (a ++ c)) /\ Forall (bucket_other mask M k i) (a ++ c) /\
  (forall k' l', k' <> k -> M !! k' = Some l' -> hash_ndx mask k' = i -> head l' ∈ dthb_chain <$> (a ++ c)).
Proof.
  intros HM [Hnd Hs Hc] Hl Hb. rewrite fmap_app, fmap_cons in Hnd, Hc. rewrite fmap_app.
  assert (Hp : (dthb_chain <$> a) ++ dthb_chain b :: (dthb_chain <$> c) ≡ₚ dthb_chain b :: (dthb_chain <$> a) ++ (dthb_chain <$> c))
    by (symmetry; apply Permutation_middle).
  rewrite Hp in Hnd. apply NoDup_cons in Hnd as [Hni Hnd]. split_and!; [done| |].
  - assert (Hs' : Forall (fun b => exists k, bucket_for mask M i b k) (a ++ c)).
    { rewrite Forall_app, Forall_cons in Hs. apply Forall_app. tauto. }
    rewrite List.Forall_forall in *. intros b' Hin. destruct (Hs' b' Hin) as (k' & l' & Hl' & Hc' & Hi').
    exists k'. split; [|by exists l']. intros ->. apply Hni. rewrite Hb. replace (head l) with (dthb_chain b') by congruence.
    rewrite <- fmap_app. apply list_elem_of_fmap_2, list_elem_of_In. done.
  - intros k' l' Hk Hl' Hi. specialize (Hc k' l' Hl' Hi). rewrite Hp in Hc. apply elem_of_cons in Hc as [He|Hc]; [|done].
    exfalso. apply Hk, (keyed_head M k' l' k l); try done. congruence.
Qed.

Lemma slot_insert mask M M' k i a c b' :
  keyed M' -> (forall k', k' <> k -> M' !! k' = M !! k') ->
  NoDup (dthb_chain <$> (a ++ c)) -> Forall (bucket_other mask M k i) (a ++ c) ->
  (forall k' l', k' <> k -> M !! k' = Some l' -> hash_ndx mask k' = i -> head l' ∈ dthb_chain <$> (a ++ c)) ->
  bucket_for mask M' i b' k -> slot_ok mask M' i (a ++ b' :: c).
Proof.
  intros HM' Ha Hnd Ho Hc Hb'. assert (Hp : a ++ b' :: c ≡ₚ b' :: a ++ c) by (symmetry; apply Permutation_middle).
  assert (Ho' : Forall (bucket_other mask M' k i) (a ++ c)).
  { eapply Forall_impl; [exact Ho|]. intros b. by apply bucket_other_agree. }
  split.
  - rewrite Hp, fmap_cons. apply NoDup_cons. split; [|done]. intros (b & He & Hin)%list_elem_of_fmap.
    rewrite List.Forall_forall in Ho'. apply list_elem_of_In in Hin. eapply bucket_for_other in Hb'; [|done|by apply Ho'].
    congruence.
  - rewrite Hp. apply Forall_cons. split; [by exists k|]. eapply Forall_impl; [exact Ho'|]. intros b (k' & _ & H). by exists k'.
  - intros k' l' Hl' Hi. rewrite Hp, fmap_cons. destruct (decide (k' = k)) as [->|Hk].
    + destruct Hb' as (l & Hl & Hh & _). rewrite Hl in Hl'. injection Hl' as <-. rewrite <- Hh. by left.
    + right. apply (Hc k' l' Hk); [|done]. by rewrite <- Ha.
Qed.

(** The bucket of [k] is replaced. *)
Lemma slot_replace mask M M' k i a b c l b' :
  keyed M -> keyed M' -> (forall k', k' <> k -> M' !! k' = M !! k') ->
  slot_ok mask M i (a ++ b :: c) -> M !! k = Some l -> dthb_chain b = head l ->
  bucket_for mask M' i b' k -> slot_ok mask M' i (a ++ b' :: c).
Proof. intros HM HM' Ha Hs Hl Hb Hb'. destruct (slot_others _ _ _ _ _ _ _ _ HM Hs Hl Hb) as (? & ? & ?). by eapply slot_insert. Qed.

(** The bucket of [k] is removed. *)
Lemma slot_delete mask M M' k i a b c l :
  keyed M -> M' !! k = None -> (forall k', k' <> k -> M' !! k' = M !! k') ->
  slot_ok mask M i (a ++ b :: c) -> M !! k = Some l -> dthb_chain b = head l -> slot_ok mask M' i (a ++ c).
Proof.
  intros HM Hk' Ha Hs Hl Hb. destruct (slot_others _ _ _ _ _ _ _ _ HM Hs Hl Hb) as (Hnd & Ho & Hc). split; [done| |].
  - eapply Forall_impl; [exact Ho|]. intros b1 H1. eapply bucket_other_agree in H1 as (k' & _ & H1); [|exact Ha]. by exists k'.
  - intros k' l' Hl' Hi. destruct (decide (k' = k)) as [->|Hk]; [congruence|]. apply (Hc k'); [done| |done]. by rewrite <- Ha.
Qed.

(** A bucket for a new key is put in front. *)
Lemma slot_push mask M M' k i bs b' :
  keyed M' -> (forall k', k' <> k -> M' !! k' = M !! k') -> M !! k = None ->
  slot_ok mask M i bs -> bucket_for mask M' i b' k -> slot_ok mask M' i (b' :: bs).
Proof.
  intros HM' Ha Hk [Hnd Hs Hc] Hb'. apply (slot_insert mask M M' k i [] bs b'); try done.
  - eapply Forall_impl; [exact Hs|]. intros b (k' & l & Hl & H). exists k'. split; [congruence|]. by exists l.
  - intros k' l' _. apply Hc.
Qed.

(** The other slots do not notice. *)
Lemma slot_elsewhere mask M M' k i bs :
  (forall k', k' <> k -> M' !! k' = M !! k') -> hash_ndx mask k <> i -> slot_ok mask M i bs -> slot_ok mask M' i bs.
Proof.
  intros Ha Hi [Hnd Hs Hc]. split; [done| |].
  - eapply Forall_impl; [exact Hs|]. intros b (k' & l & Hl & Hh & Hi' & Hlen). exists k', l. rewrite Ha; [done|congruence].
  - intros k' l' Hl' Hi'. apply (Hc k'); [|done]. rewrite <- Ha; [done|congruence].
Qed.

(** ** Lookups *)

Lemma hash_ndx_bound h M k : hash_rep h M -> (hash_ndx (dth_mask h) k < length (dth_tab h))%nat.
Proof.
  intros [[n [Hn Hs]] Hm Ht _ _ _ _]. unfold hash_ndx. rewrite Ht, Hm, Hs, land_ones_low by done.
  pose proof (pow2_pos n Hn). pose proof (Z.mod_pos_bound (dtrace_hash_str k) (2 ^ n)). lia.
Qed.

Lemma rep_slot_of h M k :
  hash_rep h M -> exists bs, dth_tab h !! hash_ndx (dth_mask h) k = Some bs /\
    slot h (hash_ndx (dth_mask h) k) = bs /\ slot_ok (dth_mask h) M (hash_ndx (dth_mask h) k) bs.
Proof.
  intros H. destruct (lookup_lt_is_Some_2 (dth_tab h) _ (hash_ndx_bound h M k H)) as [bs Hbs].
  exists bs. unfold slot. rewrite Hbs. split_and!; [done|done|]. by apply (rep_slot h M H).
Qed.

(** The walk over a slot finds the bucket of the string, if there is one. *)
Lemma find_bucket_some h M k l :
  hash_rep h M -> M !! k = Some l ->
  exists a b c, dth_tab h !! hash_ndx (dth_mask h) k = Some (a ++ b :: c) /\ dthb_chain b = head l /\
    Z.of_nat (length l) <= dthb_len b /\
    find_bucket str k (slot h (hash_ndx (dth_mask h) k)) = Some (length a, b).
Proof.
  intros H Hl. destruct (rep_slot_of h M k H) as (bs & Hbs & -> & [Hnd Hs Hc]). pose proof (rep_keyed h M H) as HM.
  pose proof (Hc k l Hl eq_refl) as Hin. apply list_elem_of_fmap in Hin as (b & Hb & Hin).
  destruct (HM k l Hl) as (x & Hx & Hk).
  destruct (list_find_elem_of (bucket_is str k) bs b Hin) as [[i b'] Hf].
  { unfold bucket_is. rewrite <- Hb, Hx. done. }
  pose proof Hf as (Hi & Hb' & _)%list_find_Some. unfold bucket_is in Hb'.
  assert (Hf' : Forall (fun b => exists k, bucket_for (dth_mask h) M (hash_ndx (dth_mask h) k) b k) bs).
  { eapply Forall_impl; [exact Hs|]. intros b0 (k' & l' & ? & ? & ? & ?). exists k', l'. by split_and!. }
  rewrite List.Forall_forall in Hf'. destruct (Hf' b') as (k' & l' & Hl' & Hh' & _ & Hlen').
  { apply list_elem_of_In. by apply list_elem_of_lookup_2 in Hi. }
  destruct (HM k' l' Hl') as (x' & Hx' & Hk'). rewrite Hh', Hx' in Hb'. assert (k' = k) as -> by congruence.
  assert (l' = l) as -> by congruence. exists (take i bs), b', (drop (S i) bs). rewrite take_drop_middle by done.
  split_and!; [done|done|done|]. unfold find_bucket. rewrite Hf. repeat f_equal. rewrite length_take.
  apply lookup_lt_Some in Hi. lia.
Qed.

Lemma find_bucket_none h M k :
  hash_rep h M -> M !! k = None -> find_bucket str k (slot h (hash_ndx (dth_mask h) k)) = None.
Proof.
  intros H Hk. destruct (rep_slot_of h M k H) as (bs & _ & -> & [_ Hs _]). apply list_find_None.
  eapply Forall_impl; [exact Hs|]. intros b (k' & l' & Hl' & Hh & _) Hb.
  destruct (rep_keyed h M H k' l' Hl') as (x & Hx & Hk'). unfold bucket_is in Hb. rewrite Hh, Hx in Hb. congruence.
Qed.

Lemma lookup_rep h M k : hash_rep h M -> dtrace_hash_lookup str h k = (M !! k) ≫= head.
Proof.
  intros H. unfold dtrace_hash_lookup. destruct (M !! k) as [l|] eqn:Hl.
  - destruct (find_bucket_some h M k l H Hl) as (a & b & c & _ & Hb & _ & ->). done.
  - by rewrite (find_bucket_none h M k H Hl).
Qed.

Lemma collisions_rep h M k :
  hash_rep h M ->
  Z.of_nat (length (default [] (M !! k))) <= dtrace_hash_collisions str h k /\
  (M !! k = None -> dtrace_hash_collisions str h k = 0).
Proof.
  intros H. unfold dtrace_hash_collisions. destruct (M !! k) as [l|] eqn:Hl.
  - destruct (find_bucket_some h M k l H Hl) as (a & b & c & _ & _ & Hlen & ->). by split.
  - by rewrite (find_bucket_none h M k H Hl).
Qed.

Lemma walk_seg h p l fuel :
  seg (dth_next h) (dth_prev h) p l None -> (length l < fuel)%nat -> chain_walk fuel h (head l) = Some l.
Proof.
  revert p fuel. induction l as [|x l IH]; intros p [|fuel] Hs Hf; cbn in *; try lia; [done|].
  destruct Hs as (_ & -> & Hs). replace (first l None) with (head l) by (by destruct l).
  rewrite (IH (Some x) fuel Hs) by lia. done.
Qed.

(** Following the chain visits the probes of the string. *)
Lemma walk_rep h M k fuel :
  hash_rep h M -> (length (default [] (M !! k)) < fuel)%nat ->
  chain_walk fuel h (dtrace_hash_lookup str h k) = Some (default [] (M !! k)).
Proof.
  intros H Hf. rewrite (lookup_rep h M k H). destruct (M !! k) as [l|] eqn:Hl; cbn in *; [|by destruct fuel].
  destruct (rep_chain h M H k l Hl) as (_ & _ & Hs). by apply (walk_seg h None).
Qed.

(** ** Creation and resizing *)

Lemma create_rep : hash_rep dtrace_hash_create ∅.
Proof.
  split; cbn; try done.
  - exists 0. by split.
  - intros [|i] bs; [|done]. intros [= <-]. split; [constructor|constructor|]. intros k l Hl. by rewrite lookup_empty in Hl.
Qed.

(** Slot [j] after the buckets [bs] have been pushed. *)
Lemma resize_push_slot mask bs tab j :
  Forall (fun b => exists x, dthb_chain b = Some x) bs ->
  fold_left (resize_push str mask) bs tab !! j =
  (fun s => reverse (filter (fun b => match dthb_chain b with Some x => hash_ndx mask (str x) | None => O end = j) bs) ++ s)
    <$> tab !! j.
Proof.
  revert tab. induction bs as [|b bs IH]; intros tab Hbs.
  { cbn. by destruct (tab !! j). }
  apply Forall_cons in Hbs as [[x Hx] Hbs]. cbn [fold_left]. rewrite IH by done. rewrite filter_cons.
  unfold resize_push. rewrite Hx. case_decide as Hd.
  - subst j. rewrite list_lookup_alter_eq. destruct (tab !! _); [|done]. unfold fmap, option_fmap, option_map. by rewrite reverse_cons, <- app_assoc.
  - by rewrite list_lookup_alter_ne.
Qed.

Lemma resize_push_length mask bs tab : length (fold_left (resize_push str mask) bs tab) = length tab.
Proof.
  revert tab. induction bs as [|b bs IH]; intros tab; [done|]. cbn. rewrite IH. unfold resize_push.
  destruct (dthb_chain b); [|done]. apply length_alter.
Qed.

(** All the buckets of a table. *)
Lemma tab_buckets h M :
  hash_rep h M ->
  NoDup (dthb_chain <$> concat (dth_tab h)) /\
  Forall (fun b => exists k, bucket_for (dth_mask h) M (hash_ndx (dth_mask h) k) b k) (concat (dth_tab h)) /\
  (forall k l, M !! k = Some l -> head l ∈ dthb_chain <$> concat (dth_tab h)).
Proof.
  intros H. split_and!.
  - assert (Hg : forall n tab, (forall i bs, tab !! i = Some bs -> slot_ok (dth_mask h) M (n + i) bs) ->
      NoDup (dthb_chain <$> concat tab)).
    { intros n tab. revert n. induction tab as [|bs tab IH]; intros n Ht; [constructor|]. cbn [concat]. rewrite fmap_app.
      apply NoDup_app. pose proof (Ht O bs eq_refl) as [Hnd Hs _]. split_and!; [done| |].
      - intros c (b & -> & Hb)%list_elem_of_fmap (b' & He & Hb')%list_elem_of_fmap.
        apply list_elem_of_In, in_concat in Hb' as (bs' & Hin & Hb').
        apply list_elem_of_In, list_elem_of_lookup in Hin as [i Hi]. destruct (Ht (S i) bs' Hi) as [_ Hs' _].
        rewrite List.Forall_forall in Hs, Hs'. apply list_elem_of_In in Hb.
        destruct (Hs b Hb) as (k & l & Hl & Hh & Hk & _), (Hs' b' Hb') as (k' & l' & Hl' & Hh' & Hk' & _).
        assert (k = k') as -> by (apply (keyed_head M k l k' l'); [apply (rep_keyed h M H)|done|done|congruence]). lia.
      - apply (IH (S n)). intros i bs' Hi. replace (S n + i)%nat with (n + S i)%nat by lia. by apply Ht. }
    apply (Hg O). apply (rep_slot h M H).
  - apply List.Forall_forall. intros b (bs & Hin & Hb)%in_concat. apply list_elem_of_In, list_elem_of_lookup in Hin as [i Hi].
    destruct (rep_slot h M H i bs Hi) as [_ Hs _]. rewrite List.Forall_forall in Hs.
    destruct (Hs b Hb) as (k & l & Hl & Hh & _ & Hlen). exists k, l. by split_and!.
  - intros k l Hl. destruct (rep_slot_of h M k H) as (bs & Hbs & _ & [_ _ Hc]).
    specialize (Hc k l Hl eq_refl). apply list_elem_of_fmap in Hc as (b & -> & Hb). apply list_elem_of_fmap. exists b.
    split; [done|]. apply list_elem_of_In, in_concat. exists bs. split; [|by apply list_elem_of_In].
    by eapply list_elem_of_In, list_elem_of_lookup_2.
Qed.

Lemma nodup_fmap_filter {A B} (f : A -> B) (P : A -> Prop) `{forall x, Decision (P x)} (l : list A) :
  NoDup (f <$> l) -> NoDup (f <$> filter P l).
Proof.
  induction l as [|x l IH]; [done|]. rewrite fmap_cons, NoDup_cons, filter_cons. intros [Hx Hl].
  case_decide; [|by apply IH]. rewrite fmap_cons, NoDup_cons. split; [|by apply IH].
  intros (y & He & Hy)%list_elem_of_fmap. apply list_elem_of_filter in Hy as [_ Hy]. apply Hx. rewrite He. by apply list_elem_of_fmap_2.
Qed.

Lemma resize_rep h M : hash_rep h M -> hash_rep (dtrace_hash_resize str h) M.
Proof.
  intros H. destruct (tab_buckets h M H) as (Hnd & Hs & Hc). pose proof (rep_size h M H) as (n & Hn & Hsz).
  pose proof (rep_keyed h M H) as HM. split; cbn [dtrace_hash_resize dth_size dth_mask dth_tab dth_nbuckets dth_next dth_prev].
  - exists (n + 1). rewrite Z.shiftl_mul_pow2, pow2_succ by lia. split; [lia|]. rewrite Hsz. lia.
  - done.
  - by rewrite resize_push_length, length_replicate.
  - apply (rep_count h M H).
  - done.
  - apply (rep_chain h M H).
  - intros j bs. set (mask := Z.shiftl (dth_size h) 1 - 1). rewrite resize_push_slot.
    2: { eapply Forall_impl; [exact Hs|]. intros b (k & l & Hl & Hh & _). destruct (HM k l Hl) as (x & Hx & _). exists x. congruence. }
    destruct (decide (j < Z.to_nat (Z.shiftl (dth_size h) 1))%nat) as [Hj|Hj].
    2: { rewrite lookup_ge_None_2; [done|]. rewrite length_replicate. lia. }
    rewrite lookup_replicate_2 by done. cbn [fmap option_fmap option_map]. rewrite app_nil_r. intros [= <-].
    set (P := fun b => _ = j). assert (Hin : forall b, b ∈ concat (dth_tab h) -> P b <->
        exists k, bucket_for (dth_mask h) M (hash_ndx (dth_mask h) k) b k /\ hash_ndx mask k = j).
    { intros b Hb. rewrite List.Forall_forall in Hs. destruct (Hs b) as (k & Hk); [by apply list_elem_of_In|].
      pose proof Hk as (l & Hl & Hh & _). destruct (HM k l Hl) as (x & Hx & Hkx). unfold P. rewrite Hh, Hx, Hkx. split.
      - intros Hj'. by exists k.
      - intros (k' & (l' & Hl' & Hh' & _) & <-). f_equal. apply (keyed_head M k l k' l'); try done. congruence. }
    split.
    + rewrite reverse_Permutation. by apply nodup_fmap_filter.
    + rewrite reverse_Permutation. apply List.Forall_forall. intros b Hb%list_elem_of_In.
      apply list_elem_of_filter in Hb as [Hp Hb]. apply (Hin b Hb) in Hp as (k & (l & Hl & Hh & _ & Hlen) & Hk). by exists k, l.
    + intros k l Hl Hk. rewrite reverse_Permutation. pose proof (Hc k l Hl) as (b & Hb & Hbi)%list_elem_of_fmap.
      rewrite Hb. apply list_elem_of_fmap_2, list_elem_of_filter. split; [|done].
      destruct (HM k l Hl) as (x & Hx & Hkx). unfold P. rewrite <- Hb, Hx, Hkx. done.
Qed.

(** ** Updates of one chain *)

(** A change of the slot, the chain and the links of the probes of one string. *)
Lemma rep_update h M h' M' k f :
  hash_rep h M -> dth_size h' = dth_size h -> dth_mask h' = dth_mask h ->
  dth_tab h' = alter f (hash_ndx (dth_mask h) k) (dth_tab h) -> dth_nbuckets h' = Z.of_nat (size M') ->
  (forall k', k' <> k -> M' !! k' = M !! k') ->
  (forall x, str x <> k -> dth_next h' !! x = dth_next h !! x /\ dth_prev h' !! x = dth_prev h !! x) ->
  (forall l, M' !! k = Some l -> l <> [] /\ NoDup l /\ Forall (fun x => str x = k) l /\
     seg (dth_next h') (dth_prev h') None l None) ->
  (forall bs, keyed M' -> dth_tab h !! hash_ndx (dth_mask h) k = Some bs ->
     slot_ok (dth_mask h) M' (hash_ndx (dth_mask h) k) (f bs)) ->
  hash_rep h' M'.
Proof.
  intros H Hsz Hm Ht Hcnt Ha Hfr Hk Hf.
  assert (HM' : keyed M').
  { intros k' l Hl. destruct (decide (k' = k)) as [->|Hne].
    - destruct (Hk l Hl) as (Hl0 & _ & Hs & _). destruct l as [|x l]; [done|]. exists x. apply Forall_cons in Hs as [Hx _]. by split.
    - rewrite Ha in Hl by done. by apply (rep_keyed h M H). }
  split; [rewrite Hsz; apply (rep_size h M H)|rewrite Hm, Hsz; apply (rep_mask h M H)| |done|done| |].
  - rewrite Ht, length_alter, Hsz. apply (rep_tab h M H).
  - intros k' l Hl. destruct (decide (k' = k)) as [->|Hne]; [by destruct (Hk l Hl) as (_ & ?)|]. rewrite Ha in Hl by done.
    destruct (rep_chain h M H k' l Hl) as (Hnd & Hs & Hseg). split_and!; [done|done|]. eapply seg_frame; [|exact Hseg].
    intros x Hx. apply Hfr. rewrite List.Forall_forall in Hs. rewrite (Hs x); [done|]. by apply list_elem_of_In.
  - intros i bs Hi. rewrite Hm. rewrite Ht in Hi. destruct (decide (hash_ndx (dth_mask h) k = i)) as [<-|Hne].
    + rewrite list_lookup_alter_eq in Hi. destruct (dth_tab h !! _) as [bs0|] eqn:E; [|done].
      injection Hi as <-. by apply Hf.
    + rewrite list_lookup_alter_ne in Hi by done. eapply slot_elsewhere; [exact Ha|done|]. by apply (rep_slot h M H).
Qed.

(** What addition and removal do to the abstract table. *)
Definition table_add M (k : cstring) (p : Z) : gmap cstring (list Z) := <[k := p :: default [] (M !! k)]> M.

Definition table_remove M (k : cstring) (p : Z) : gmap cstring (list Z) :=
  match filter (fun x => x <> p) (default [] (M !! k)) with [] => delete k M | l => <[k := l]> M end.

(** [p] is on no chain. *)
Definition unlinked M (p : Z) : Prop := forall k l, M !! k = Some l -> p ∉ l.

Lemma link_old h M new l a b c :
  hash_rep h M -> unlinked M new -> dth_prev h !! new = None -> M !! str new = Some l ->
  dth_tab h !! hash_ndx (dth_mask h) (str new) = Some (a ++ b :: c) -> dthb_chain b = head l ->
  Z.of_nat (length l) <= dthb_len b ->
  hash_rep (hash_link h (hash_ndx (dth_mask h) (str new)) (length a) b new) (table_add M (str new) new).
Proof.
  intros H Hfr Hp Hl Ht Hb Hlen. destruct (rep_chain h M H _ l Hl) as (Hnd & Hs & Hseg).
  destruct (rep_keyed h M H _ l Hl) as (x & Hx & Hkx). destruct l as [|x' l]; [done|]. injection Hx as ->.
  specialize (Hfr _ _ Hl). rewrite elem_of_cons in Hfr.
  assert (Hxn : x <> new /\ new <> x /\ new ∉ l) by (split_and!; [intros ->|intros ->|]; tauto). clear Hfr. destruct Hxn as (Hxn & Hnx' & Hnl). unfold table_add. rewrite Hl. cbn [default from_option id].
  assert (Hag : forall k', k' <> str new -> <[str new := new :: x :: l]> M !! k' = M !! k') by (intros; by apply lookup_insert_ne).
  apply (rep_update h M _ _ (str new) (fun bs => <[length a := HashBucket (Some new) (dthb_len b + 1)]> bs)); try done;
    cbn [hash_link dth_size dth_mask dth_tab dth_nbuckets dth_next dth_prev]; rewrite ?Hb; cbn [head].
  - rewrite map_size_insert_Some by (by exists (x :: l)). apply (rep_count h M H).
  - intros y Hy. rewrite lookup_partial_alter_ne, lookup_insert_ne by congruence. done.
  - intros l' Hl'. rewrite lookup_insert_eq in Hl'. injection Hl' as <-. split_and!; [done| | |].
    + apply NoDup_cons. split; [|done]. rewrite elem_of_cons. tauto.
    + by apply Forall_cons.
    + cbn [seg] in Hseg |- *. destruct Hseg as (_ & Hnx & Hseg). split_and!.
      * by rewrite lookup_insert_ne.
      * by rewrite lookup_partial_alter_eq.
      * by rewrite lookup_insert_eq.
      * by rewrite lookup_partial_alter_ne.
      * apply NoDup_cons in Hnd as [Hni _]. eapply seg_frame; [|exact Hseg]. intros y Hy.
        rewrite lookup_partial_alter_ne, lookup_insert_ne; [done| |]; by intros <-.
  - intros bs HM' Hbs. rewrite Ht in Hbs. injection Hbs as <-. rewrite <- (Nat.add_0_r (length a)), insert_app_r. cbn.
    eapply slot_replace; [apply (rep_keyed h M H)|done|exact Hag|by apply (rep_slot h M H)|exact Hl|exact Hb|].
    exists (new :: x :: l). rewrite lookup_insert_eq. cbn in *. split_and!; try done. lia.
Qed.

Lemma list_alter_twice {A} (f g : A -> A) (i : nat) (l : list A) : alter f i (alter g i l) = alter (fun x => f (g x)) i l.
Proof. revert i. induction l as [|x l IH]; intros [|i]; cbn; [done..|]. f_equal. apply IH. Qed.

Lemma link_new h M new :
  hash_rep h M -> dth_prev h !! new = None -> M !! str new = None ->
  hash_rep
    (hash_link (Hash (alter (cons (HashBucket None 0)) (hash_ndx (dth_mask h) (str new)) (dth_tab h)) (dth_size h)
       (dth_mask h) (dth_nbuckets h + 1) (dth_next h) (dth_prev h)) (hash_ndx (dth_mask h) (str new)) 0
       (HashBucket None 0) new) (table_add M (str new) new).
Proof.
  intros H Hp Hl. unfold table_add. rewrite Hl. cbn [default from_option id].
  assert (Hag : forall k', k' <> str new -> <[str new := [new]]> M !! k' = M !! k') by (intros; by apply lookup_insert_ne).
  apply (rep_update h M _ _ (str new) (cons (HashBucket (Some new) 1))); try done;
    cbn [hash_link dth_size dth_mask dth_tab dth_nbuckets dth_next dth_prev dthb_chain].
  - by rewrite list_alter_twice.
  - rewrite map_size_insert_None, (rep_count h M H) by done. lia.
  - intros y Hy. rewrite lookup_partial_alter_ne by congruence. done.
  - intros l' Hl'. rewrite lookup_insert_eq in Hl'. injection Hl' as <-. split_and!; [done| | |].
    + apply NoDup_singleton.
    + by apply Forall_singleton.
    + cbn. by rewrite lookup_partial_alter_eq.
  - intros bs HM' Hbs. apply (slot_push _ M _ (str new)); try done; [by apply (rep_slot h M H)|].
    exists [new]. by rewrite lookup_insert_eq.
Qed.

Lemma hash_add_rep fuel h M new :
  hash_rep h M -> unlinked M new -> dth_prev h !! new = None -> Z.shiftr (dth_nbuckets h) 1 - dth_size h < Z.of_nat fuel + 1 ->
  exists h', hash_add str fuel h new = Some h' /\ hash_rep h' (table_add M (str new) new).
Proof.
  revert h. induction fuel as [|fuel IH]; intros h H Hfr Hp Hf; cbn [hash_add]; cbv zeta;
    (destruct (M !! str new) as [l|] eqn:Hl;
     [destruct (find_bucket_some h M _ l H Hl) as (a & b & c & Ht & Hb & Hlen & ->); eexists; (split; [done|]); by eapply link_old
     |rewrite (find_bucket_none h M _ H Hl)]).
  - destruct (Z.ltb_spec (dth_size h) (Z.shiftr (dth_nbuckets h) 1)); [lia|]. eexists. split; [done|]. by apply link_new.
  - destruct (Z.ltb_spec (dth_size h) (Z.shiftr (dth_nbuckets h) 1)).
    + apply IH; [by apply resize_rep|done|done|]. cbn [dtrace_hash_resize dth_nbuckets dth_size].
      pose proof (rep_size h M H) as (n & Hn & Hs). pose proof (pow2_pos n Hn). rewrite Z.shiftl_mul_pow2 by lia. lia.
    + eexists. split; [done|]. by apply link_new.
Qed.

(** Addition refines the abstract one, and its recursion ends. *)
Lemma add_rep h M new :
  hash_rep h M -> unlinked M new -> dth_prev h !! new = None ->
  exists h', dtrace_hash_add str h new = Some h' /\ hash_rep h' (table_add M (str new) new).
Proof.
  intros H Hfr Hp. apply hash_add_rep; try done. pose proof (rep_size h M H) as (n & Hn & Hs). pose proof (pow2_pos n Hn).
  rewrite Z2Nat.id; [lia|]. apply Z.shiftr_nonneg. rewrite (rep_count h M H). lia.
Qed.

(** ** Removal *)

Lemma filter_remove (a : list Z) p c : NoDup (a ++ p :: c) -> filter (fun x => x <> p) (a ++ p :: c) = a ++ c.
Proof.
  intros (_ & Hd & [Hp Hc]%NoDup_cons)%NoDup_app.
  assert (Hid : forall l : list Z, p ∉ l -> filter (fun x => x <> p) l = l).
  { induction l as [|x l IH]; [done|]. rewrite elem_of_cons. intros Hl. rewrite filter_cons, decide_True, IH; [done|tauto|].
    intros ->. tauto. }
  rewrite filter_app, filter_cons, decide_False by tauto. rewrite !Hid; [done|done|].
  intros Ha. apply (Hd p Ha). by left.
Qed.

Lemma remove_only h M p b :
  forall a c, hash_rep h M -> M !! str p = Some [p] ->
  dth_tab h !! hash_ndx (dth_mask h) (str p) = Some (a ++ b :: c) -> dthb_chain b = Some p ->
  hash_rep (Hash (alter (delete (length a)) (hash_ndx (dth_mask h) (str p)) (dth_tab h)) (dth_size h) (dth_mask h)
    (dth_nbuckets h - 1) (dth_next h) (dth_prev h)) (delete (str p) M).
Proof.
  intros a c H Hl Ht Hb. apply (rep_update h M _ _ (str p) (delete (length a))); try done.
  - cbn. rewrite map_size_delete, Hl, (rep_count h M H).
    assert (size M <> O) by (intros E%map_size_empty_inv; by rewrite E, lookup_empty in Hl). lia.
  - intros k' Hk. by apply lookup_delete_ne.
  - intros l'. by rewrite lookup_delete_eq.
  - intros bs HM' Hbs. rewrite Ht in Hbs. injection Hbs as <-. rewrite delete_middle.
    eapply slot_delete; [apply (rep_keyed h M H)|apply lookup_delete_eq| |by apply (rep_slot h M H)|exact Hl|done].
    intros k' Hk. by apply lookup_delete_ne.
Qed.

Lemma remove_first h M p n l b :
  forall a c, hash_rep h M -> M !! str p = Some (p :: n :: l) ->
  dth_tab h !! hash_ndx (dth_mask h) (str p) = Some (a ++ b :: c) -> dthb_chain b = Some p ->
  Z.of_nat (length (p :: n :: l)) <= dthb_len b ->
  hash_rep (Hash (alter (fun bs => <[length a := HashBucket (Some n) (dthb_len b)]> bs) (hash_ndx (dth_mask h) (str p)) (dth_tab h))
    (dth_size h) (dth_mask h) (dth_nbuckets h) (dth_next h) (partial_alter (fun _ => None) n (dth_prev h)))
    (<[str p := n :: l]> M).
Proof.
  intros a c H Hl Ht Hb Hlen. destruct (rep_chain h M H _ _ Hl) as (Hnd & Hs & Hseg).
  rewrite !NoDup_cons, elem_of_cons in Hnd. destruct Hnd as (Hpn & Hnl & Hnd). rewrite !Forall_cons in Hs. destruct Hs as (_ & Hsn & Hs).
  assert (Hag : forall k', k' <> str p -> <[str p := n :: l]> M !! k' = M !! k') by (intros; by apply lookup_insert_ne).
  apply (rep_update h M _ _ (str p) (fun bs => <[length a := HashBucket (Some n) (dthb_len b)]> bs)); try done;
    cbn [dth_next dth_prev dth_nbuckets].
  - rewrite map_size_insert_Some by (by eexists). apply (rep_count h M H).
  - intros x Hx. rewrite lookup_partial_alter_ne by congruence. done.
  - intros l' Hl'. rewrite lookup_insert_eq in Hl'. injection Hl' as <-. split_and!; [done|by apply NoDup_cons|by apply Forall_cons|].
    destruct Hseg as (_ & _ & _ & Hnx & Hseg). cbn [seg]. split_and!; [by rewrite lookup_partial_alter_eq|done|].
    eapply seg_frame; [|exact Hseg]. intros x Hx. rewrite lookup_partial_alter_ne; [done|]. by intros <-.
  - intros bs HM' Hbs. rewrite Ht in Hbs. injection Hbs as <-. rewrite <- (Nat.add_0_r (length a)), insert_app_r. cbn.
    eapply slot_replace; [apply (rep_keyed h M H)|done|exact Hag|by apply (rep_slot h M H)|exact Hl|done|].
    exists (n :: l). rewrite lookup_insert_eq. cbn in *. split_and!; try done. lia.
Qed.

Lemma remove_inner h M p y a l b :
  forall a0 c0, hash_rep h M -> M !! str p = Some (a ++ y :: p :: l) ->
  dth_tab h !! hash_ndx (dth_mask h) (str p) = Some (a0 ++ b :: c0) -> dthb_chain b = head (a ++ y :: p :: l) ->
  Z.of_nat (length (a ++ y :: p :: l)) <= dthb_len b ->
  hash_rep (Hash (dth_tab h) (dth_size h) (dth_mask h) (dth_nbuckets h)
    (partial_alter (fun _ => head l) y (dth_next h))
    (match head l with Some n => partial_alter (fun _ => Some y) n (dth_prev h) | None => dth_prev h end))
    (<[str p := a ++ y :: l]> M).
Proof.
  intros a0 c0 H Hl Ht Hb Hlen. destruct (rep_chain h M H _ _ Hl) as (Hnd & Hs & Hseg).
  assert (Hag : forall k', k' <> str p -> <[str p := a ++ y :: l]> M !! k' = M !! k') by (intros; by apply lookup_insert_ne).
  assert (Hstr : str y = str p /\ forall n, head l = Some n -> str n = str p).
  { rewrite Forall_app, !Forall_cons in Hs. split; [tauto|]. intros n Hn. destruct l; [done|]. injection Hn as ->.
    rewrite Forall_cons in Hs. tauto. }
  apply (rep_update h M _ _ (str p) (fun bs => bs)); try done; cbn [dth_next dth_prev dth_nbuckets dth_tab].
  - by rewrite list_alter_id.
  - rewrite map_size_insert_Some by (by eexists). apply (rep_count h M H).
  - intros x Hx. destruct Hstr as [Hy Hn]. rewrite lookup_partial_alter_ne by congruence. split; [done|].
    destruct (head l) as [n|]; [|done]. rewrite lookup_partial_alter_ne; [done|]. intros ->. by rewrite (Hn x eq_refl) in Hx.
  - intros l' Hl'. rewrite lookup_insert_eq in Hl'. injection Hl' as <-.
    assert (Hnd' : NoDup (a ++ y :: l)).
    { apply NoDup_app in Hnd as (Ha & Hd & Hn). rewrite !NoDup_cons, !elem_of_cons in Hn. apply NoDup_app.
      rewrite NoDup_cons. split_and!; try tauto. intros x Hx Hin. apply (Hd x Hx). rewrite !elem_of_cons in *. tauto. }
    split_and!; [by destruct a|done| |].
    + rewrite Forall_app, !Forall_cons in *. tauto.
    + rewrite seg_app in Hseg |- *. destruct Hseg as [Ha Hseg]. cbn [seg] in Hseg |- *.
      destruct Hseg as (Hpy & _ & _ & _ & Hseg). apply NoDup_app in Hnd' as (Hnda & Hd & [Hyl Hndl]%NoDup_cons).
      assert (Hya : y ∉ a) by (intros Hin; apply (Hd y Hin); by left).
      assert (Hla : forall x n, x ∈ a -> head l = Some n -> n <> x).
      { intros x n Hx Hn ->. apply (Hd x Hx). right. destruct l; [done|]. injection Hn as ->. by left. }
      assert (Hly : forall n, head l = Some n -> n <> y).
      { intros n Hn ->. apply Hyl. destruct l; [done|]. injection Hn as ->. by left. }
      split_and!.
      * eapply seg_frame; [|exact Ha]. intros x Hx. rewrite lookup_partial_alter_ne by (by intros <-). split; [done|].
        destruct (head l) as [n|]; [|done]. by rewrite lookup_partial_alter_ne by (by apply Hla).
      * destruct (head l) as [n|]; [|done]. by rewrite lookup_partial_alter_ne by (by apply Hly).
      * rewrite lookup_partial_alter_eq. by destruct l.
      * destruct l as [|n l]; [done|]. cbn [head seg] in *. destruct Hseg as (_ & Hnx & Hseg). split_and!.
        -- by rewrite lookup_partial_alter_eq.
        -- rewrite lookup_partial_alter_ne; [done|]. intros <-. apply Hyl. by left.
        -- apply NoDup_cons in Hndl as [Hnl _]. eapply seg_frame; [|exact Hseg]. intros x Hx.
           rewrite !lookup_partial_alter_ne; [done| |]; intros <-; [done|]. apply Hyl. by right.
  - intros bs HM' Hbs. rewrite Ht in Hbs. injection Hbs as <-.
    eapply slot_replace; [apply (rep_keyed h M H)|done|exact Hag|by apply (rep_slot h M H)|exact Hl|done|].
    exists (a ++ y :: l). rewrite lookup_insert_eq. rewrite Hb, !length_app in *. cbn [length] in *.
    split_and!; [done|by destruct a|done|lia].
Qed.

(** Removal refines the abstract one: the probe leaves its chain, an empty chain its bucket. *)
Lemma remove_rep h M p l :
  hash_rep h M -> M !! str p = Some l -> p ∈ l ->
  exists h', dtrace_hash_remove str h p = Some h' /\ hash_rep h' (table_remove M (str p) p).
Proof.
  intros H Hl Hin. destruct (rep_chain h M H _ _ Hl) as (Hnd & _ & Hseg).
  destruct (find_bucket_some h M _ l H Hl) as (a0 & b & c0 & Ht & Hb & Hlen & Hf).
  unfold dtrace_hash_remove, table_remove. cbv zeta. rewrite Hf, Hl. cbn [default from_option id].
  apply list_elem_of_split in Hin as (a & c & ->). rewrite filter_remove by done. apply seg_app in Hseg as [_ Hseg].
  cbn [seg] in Hseg. destruct Hseg as (-> & -> & _). destruct a as [|y a _] using rev_ind.
  - cbn [last app] in *. destruct c as [|n c]; cbn [first]; eexists; (split; [done|]).
    + by eapply remove_only.
    + by eapply remove_first.
  - rewrite last_snoc, <- !app_assoc in *. cbn [app] in *.
    replace (match a ++ y :: c with [] => delete (str p) M | (_ :: _) as l => <[str p := l]> M end)
      with (<[str p := a ++ y :: c]> M) by (by destruct a).
    eexists. split; [done|]. replace (first c None) with (head c) by (by destruct c). by eapply remove_inner.
Qed.
End Rep.

(** * Correctness of the tables *)

(** C13: a table implements the map from strings to lists of probes: a new table is empty;
    addition (its recursion through a resize included) always returns and puts the probe in
    front of its string's list; removal takes it out of there, whether it is the first, the
    last, an inner or the only probe of its chain; a lookup gives the head of the list, from
    which the links lead through the whole of it; the collision count is never too small. *)
Theorem dtrace_hash_refines str h M :
  hash_rep str h M ->
  (forall p, unlinked M p -> dth_prev h !! p = None ->
     exists h', dtrace_hash_add str h p = Some h' /\ hash_rep str h' (table_add M (str p) p)) /\
  (forall p l, M !! str p = Some l -> p ∈ l ->
     exists h', dtrace_hash_remove str h p = Some h' /\ hash_rep str h' (table_remove M (str p) p)) /\
  (forall s fuel, (length (default [] (M !! s)) < fuel)%nat ->
     chain_walk fuel h (dtrace_hash_lookup str h s) = Some (default [] (M !! s))) /\
  (forall s, Z.of_nat (length (default [] (M !! s))) <= dtrace_hash_collisions str h s) /\
  hash_rep str dtrace_hash_create ∅.
Proof.
  intros H. split_and!.
  - intros p. by apply add_rep.
  - intros p l. by apply remove_rep.
  - intros s fuel. by apply walk_rep.
  - intros s. by apply collisions_rep.
  - apply create_rep.
Qed.

Lemma dtrace_hash_refines_witness :
  exists h, dtrace_hash_add (fun p => [p]) dtrace_hash_create 65 = Some h /\
    dtrace_hash_lookup (fun p => [p]) h [65] = Some 65.
Proof.
  destruct (dtrace_hash_refines (fun p => [p]) dtrace_hash_create ∅ (create_rep _)) as (Hadd & _).
  destruct (Hadd 65) as (h & Hh & _); [by intros k l; rewrite lookup_empty|apply lookup_empty|].
  exists h. split; [exact Hh|]. vm_compute in Hh. injection Hh as <-. vm_compute. reflexivity.
Defined.

(** The collision count of a string is not lowered when a probe leaves its chain. *)
Example collisions_after_removal :
  let str := fun _ : Z => [1] in
  let h1 := default dtrace_hash_create (dtrace_hash_add str dtrace_hash_create 10) in
  let h2 := default h1 (dtrace_hash_add str h1 20) in
  let h := default h2 (dtrace_hash_remove str h2 10) in
  chain_walk 3 h (dtrace_hash_lookup str h [1]) = Some [20] /\ dtrace_hash_collisions str h [1] = 2.
Proof. vm_compute. by split. Qed.
