(* ===== verification/Probes.v ===== *)
(** Probes and providers (driver/dtrace.c, "DTrace Provider-to-Framework API Functions"
    and "DTrace Probe Management Functions", dtrace_match(), dtrace_module_unloaded()).

    Structures are named by their addresses; an address returned by kmem_zalloc() is an
    argument.  The functions of the providers are not run: a call of [dtps_destroy] is
    recorded with its arguments.  All of this runs under dtrace_lock. *)
From S2P Require Import Prelude Match ProbeHash.
From stdpp Require Import gmap.
#[local] Open Scope Z_scope.

Definition EINVAL : Z := 22.
Definition EBUSY : Z := 16.

(** * State *)

(** [dtrace_probes] is the array of [dtrace_nprobes] pointers; [r_probe] and [r_provider]
    hold the live structures; [r_seq] is the arena of the probe identifiers, a counter.
    [r_anon_necbs] is the number of ECBs of the anonymous state, if there is one. *)
Record registry := Registry {
  r_probe : gmap Z dtrace_probe_t;
  dtrace_probes : list (option Z);
  dtrace_bymod : dtrace_hash;
  dtrace_byfunc : dtrace_hash;
  dtrace_byname : dtrace_hash;
  dtrace_probegen : Z;
  r_seq : Z;
  r_provider : gmap Z dtrace_provider_t;
  dtrace_provider : list Z;
  dtrace_opens : Z;
  r_anon_necbs : option Z
}.

Definition no_attr : dtrace_attribute := Attribute 0 0 0.
Definition no_pops : dtrace_pops := Pops None None None None None None None None None None.

(** The structure at an address (all zeroes where there is none). *)
Definition provider_at (r : registry) (p : Z) : dtrace_provider_t :=
  default (Provider (Pattr no_attr no_attr no_attr no_attr no_attr) 0 0 0 no_pops [] 0 false) (r_provider r !! p).

Definition probe_of (mem : gmap Z dtrace_probe_t) (p : Z) : dtrace_probe_t :=
  default (Probe 0 [] 0 0 0 0 [] [] [] 0) (mem !! p).

Definition probe_at (r : registry) : Z -> dtrace_probe_t := probe_of (r_probe r).

Definition mod_of (mem : gmap Z dtrace_probe_t) (p : Z) : cstring := dtpr_mod (probe_of mem p).
Definition func_of (mem : gmap Z dtrace_probe_t) (p : Z) : cstring := dtpr_func (probe_of mem p).
Definition name_of (mem : gmap Z dtrace_probe_t) (p : Z) : cstring := dtpr_name (probe_of mem p).

(** * Probe creation *)

(** vmem_alloc(): identifiers are handed out in sequence; vmem_free() keeps none. *)
Definition vmem_alloc (seq : Z) : Z * Z := let seq := s32 (seq + 1) in (u64 seq, seq).

(** A structure from kmem_zalloc() has no links. *)
Definition hash_zalloc (h : dtrace_hash) (p : Z) : dtrace_hash :=
  Hash (dth_tab h) (dth_size h) (dth_mask h) (dth_nbuckets h) (delete p (dth_next h)) (delete p (dth_prev h)).

Definition dtrace_strdup (str : option cstring) : cstring := default [] str.

(** The array is doubled when the identifier lies behind its end. *)
Definition grow_probes (id : Z) (probes : list (option Z)) : list (option Z) :=
  if Z.of_nat (length probes) <=? u32 (id - 1) then
    match probes with
    | [] => [None]
    | _ => probes ++ replicate (length probes) None
    end
  else probes.

(** [None]: an assertion fails or an index is out of range.  [addr] is the address of the
    new structure, 0 if there is none; the identifier has been drawn all the same. *)
Definition dtrace_probe_create (r : registry) (addr provider : Z) (md func name : option cstring) (aframes arg : Z)
    : option (Z * registry) :=
  let '(id, seq) := vmem_alloc (r_seq r) in
  let id := u32 id in
  if addr =? 0 then
    Some (0, Registry (r_probe r) (dtrace_probes r) (dtrace_bymod r) (dtrace_byfunc r) (dtrace_byname r)
               (dtrace_probegen r) seq (r_provider r) (dtrace_provider r) (dtrace_opens r) (r_anon_necbs r))
  else
    let probe := Probe id [] arg 0 aframes provider (dtrace_strdup md) (dtrace_strdup func) (dtrace_strdup name)
                   (dtrace_probegen r) in
    let mem := <[addr := probe]> (r_probe r) in
    match dtrace_hash_add (mod_of mem) (hash_zalloc (dtrace_bymod r) addr) addr,
          dtrace_hash_add (func_of mem) (hash_zalloc (dtrace_byfunc r) addr) addr,
          dtrace_hash_add (name_of mem) (hash_zalloc (dtrace_byname r) addr) addr with
    | Some bymod, Some byfunc, Some byname =>
        let probes := grow_probes id (dtrace_probes r) in
        match zlookup probes (id - 1) with
        | Some None =>
            Some (id, Registry mem (<[Z.to_nat (id - 1) := Some addr]> probes) bymod byfunc byname
                        (u64 (dtrace_probegen r + 1)) seq (r_provider r) (dtrace_provider r) (dtrace_opens r)
                        (r_anon_necbs r))
        | _ => None
        end
    | _, _, _ => None
    end.

(** * Lookup *)

Definition dtrace_probe_lookup_id (r : registry) (id : Z) : option Z :=
  if (id =? 0) || (Z.of_nat (length (dtrace_probes r)) <? id) then None
  else default None (zlookup (dtrace_probes r) (id - 1)).

Definition dtrace_probe_arg (r : registry) (id pid : Z) : Z :=
  match dtrace_probe_lookup_id r pid with
  | Some p => if dtpr_provider (probe_at r p) =? id then dtpr_arg (probe_at r p) else 0
  | None => 0
  end.

Definition DTRACE_PROVNAMELEN : nat := 64.
Definition DTRACE_MODNAMELEN : nat := 64.
Definition DTRACE_FUNCNAMELEN : nat := 128.
Definition DTRACE_NAMELEN : nat := 64.

(** The strings are cut to the fields of the description, which keep their NUL. *)
Definition dtrace_probe_description (r : registry) (prp : dtrace_probe_t) : dtrace_probedesc :=
  ProbeDesc (dtpr_id prp) (take (DTRACE_PROVNAMELEN - 1) (dtpv_name (provider_at r (dtpr_provider prp))))
    (take (DTRACE_MODNAMELEN - 1) (dtpr_mod prp)) (take (DTRACE_FUNCNAMELEN - 1) (dtpr_func prp))
    (take (DTRACE_NAMELEN - 1) (dtpr_name prp)).

(** * Matching *)

Definition DTRACE_MATCH_FAIL : Z := -1.
Definition DTRACE_MATCH_NEXT : Z := 0.
Definition DTRACE_MATCH_DONE : Z := 1.
Definition INT_MAX : Z := 2147483647.

Section Match.
(** The callback and the state behind its argument. *)
Context {A : Type} (matched : Z -> A -> Z * A).
Context (r : registry) (pkp : dtrace_probekey_t) (priv uid zoneid : Z).

Definition matches (p : Z) : bool :=
  0 <? dtrace_match_probe (provider_at r) (probe_at r p) pkp priv uid zoneid.

(** The body of both loops, over the probes they visit. *)
Fixpoint match_loop (l : list Z) (nmatched : Z) (a : A) : Z * A :=
  match l with
  | [] => (nmatched, a)
  | p :: l =>
      if negb (matches p) then match_loop l nmatched a
      else
        let nmatched := nmatched + 1 in
        let '(rc, a) := matched p a in
        if negb (rc =? DTRACE_MATCH_NEXT) then
          if rc =? DTRACE_MATCH_FAIL then (DTRACE_MATCH_FAIL, a) else (nmatched, a)
        else match_loop l nmatched a
  end.

(** The tables a search may use. *)
Inductive which := ByMod | ByFunc | ByName.

Definition table_of (w : which) : dtrace_hash :=
  match w with ByMod => dtrace_bymod r | ByFunc => dtrace_byfunc r | ByName => dtrace_byname r end.
Definition str_of (w : which) (p : Z) : cstring :=
  match w with ByMod => mod_of | ByFunc => func_of | ByName => name_of end (r_probe r) p.

(** The template, whose strings are those of the key. *)
Definition template (w : which) : cstring :=
  default [] match w with ByMod => dtpk_mod pkp | ByFunc => dtpk_func pkp | ByName => dtpk_name pkp end.
Definition key_func (w : which) : probekey_f :=
  match w with ByMod => dtpk_mmatch pkp | ByFunc => dtpk_fmatch pkp | ByName => dtpk_nmatch pkp end.

(** One of the three tests for a better table. *)
Definition consider (w : which) (best : Z * option which) : Z * option which :=
  let len := dtrace_hash_collisions (str_of w) (table_of w) (template w) in
  if bool_decide (key_func w = MatchString) && (len <? fst best) then (len, Some w) else best.

(** The table with the fewest collisions, if an element is a plain string. *)
Definition choose_hash : option which := snd (consider ByName (consider ByFunc (consider ByMod (INT_MAX, None)))).

(** [None]: the chain does not end within as many steps as there are probes. *)
Definition dtrace_match (a : A) : option (Z * A) :=
  if negb (dtpk_id pkp =? DTRACE_IDNONE) then
    match dtrace_probe_lookup_id r (dtpk_id pkp) with
    | Some p => if matches p then let '(_, a) := matched p a in Some (1, a) else Some (0, a)
    | None => Some (0, a)
    end
  else
    match choose_hash with
    | None => Some (match_loop (omap (fun p => p) (dtrace_probes r)) 0 a)
    | Some w =>
        match chain_walk (S (length (dtrace_probes r))) (table_of w)
                (dtrace_hash_lookup (str_of w) (table_of w) (template w)) with
        | Some l => Some (match_loop l 0 a)
        | None => None
        end
    end.
End Match.

Definition dtrace_probe_lookup_match (r : registry) (p : Z) (_ : Z) : Z * Z :=
  (DTRACE_MATCH_DONE, dtpr_id (probe_at r p)).

Definition lookup_func (s : option cstring) : probekey_f := match s with Some _ => MatchString | None => MatchNul end.

(** [id0] is the uninitialised [id]. *)
Definition dtrace_probe_lookup (r : registry) (prid : Z) (md func name : option cstring) (id0 : Z) : option Z :=
  let pkey := ProbeKey (Some (dtpv_name (provider_at r prid))) MatchString md (lookup_func md) func (lookup_func func)
                name (lookup_func name) DTRACE_IDNONE in
  match dtrace_match (dtrace_probe_lookup_match r) r pkey DTRACE_PRIV_ALL 0 0 id0 with
  | Some (match_, id) => Some (if negb (match_ =? 0) then id else 0)
  | None => None
  end.

(** * Removal of probes *)

(** A probe leaves the array and the three tables. *)
Definition unlink_probe (r : registry) (i : nat) (p : Z) : option registry :=
  match dtrace_hash_remove (mod_of (r_probe r)) (dtrace_bymod r) p,
        dtrace_hash_remove (func_of (r_probe r)) (dtrace_byfunc r) p,
        dtrace_hash_remove (name_of (r_probe r)) (dtrace_byname r) p with
  | Some bymod, Some byfunc, Some byname =>
      Some (Registry (r_probe r) (<[i := None]> (dtrace_probes r)) bymod byfunc byname (dtrace_probegen r) (r_seq r)
              (r_provider r) (dtrace_provider r) (dtrace_opens r) (r_anon_necbs r))
  | _, _, _ => None
  end.

(** Its structure is freed. *)
Definition free_probe (r : registry) (p : Z) : registry :=
  Registry (delete p (r_probe r)) (dtrace_probes r) (dtrace_bymod r) (dtrace_byfunc r) (dtrace_byname r)
    (dtrace_probegen r) (r_seq r) (r_provider r) (dtrace_provider r) (dtrace_opens r) (r_anon_necbs r).

(** The calls of [dtps_destroy]: the provider, the identifier and the argument. *)
Definition destroy_call (r : registry) (p : Z) : Z * Z * Z :=
  (dtpr_provider (probe_at r p), dtpr_id (probe_at r p), dtpr_arg (probe_at r p)).

(** The loop over the probe array in dtrace_condense(), from index [i]. *)
Fixpoint condense_loop (prov : Z) (n i : nat) (r : registry) (log : list (Z * Z * Z))
    : option (registry * list (Z * Z * Z)) :=
  match n with
  | O => Some (r, log)
  | S n =>
      match dtrace_probes r !! i with
      | Some (Some p) =>
          if negb (dtpr_provider (probe_at r p) =? prov) then condense_loop prov n (S i) r log
          else if negb (bool_decide (dtpr_ecb (probe_at r p) = [])) then condense_loop prov n (S i) r log
          else
            match unlink_probe r i p with
            | Some r' =>
                condense_loop prov n (S i) (free_probe r' p)
                  (log ++ [(prov, Z.of_nat i + 1, dtpr_arg (probe_at r p))])
            | None => None
            end
      | _ => condense_loop prov n (S i) r log
      end
  end.

Definition dtrace_condense (r : registry) (id : Z) : option (registry * list (Z * Z * Z)) :=
  condense_loop id (length (dtrace_probes r)) 0 r [].

(** The first loop of dtrace_unregister(): a probe of the provider with an ECB. *)
Definition has_enabled (r : registry) (old : Z) : bool :=
  existsb (fun o => match o with
    | Some p => (dtpr_provider (probe_at r p) =? old) && negb (bool_decide (dtpr_ecb (probe_at r p) = []))
    | None => false end) (dtrace_probes r).

(** The second one; the removed probes are threaded through dtpr_nextmod, the last in front. *)
Fixpoint unregister_loop (old : Z) (n i : nat) (r : registry) (first : list Z) : option (registry * list Z) :=
  match n with
  | O => Some (r, first)
  | S n =>
      match dtrace_probes r !! i with
      | Some (Some p) =>
          if negb (dtpr_provider (probe_at r p) =? old) then unregister_loop old n (S i) r first
          else match unlink_probe r i p with
               | Some r' => unregister_loop old n (S i) r' (p :: first)
               | None => None
               end
      | _ => unregister_loop old n (S i) r first
      end
  end.

(** The loop that destroys them. *)
Fixpoint destroy_probes (l : list Z) (r : registry) (log : list (Z * Z * Z)) : registry * list (Z * Z * Z) :=
  match l with
  | [] => (r, log)
  | p :: l => destroy_probes l (free_probe r p) (log ++ [destroy_call r p])
  end.

(** [old] leaves the provider chain; [None]: it is not there, and the kernel panics. *)
Fixpoint unchain (old : Z) (l : list Z) : option (list Z) :=
  match l with
  | [] => None
  | p :: l => if p =? old then Some l else match unchain old l with Some l => Some (p :: l) | None => None end
  end.

Definition free_provider (r : registry) (old : Z) (chain : list Z) : registry :=
  Registry (r_probe r) (dtrace_probes r) (dtrace_bymod r) (dtrace_byfunc r) (dtrace_byname r) (dtrace_probegen r)
    (r_seq r) (delete old (r_provider r)) chain (dtrace_opens r) (r_anon_necbs r).

(** [self]: the provider is DTrace itself. *)
Definition dtrace_unregister (r : registry) (old : Z) (self : bool) : option (Z * registry * list (Z * Z * Z)) :=
  if self && (1 <? Z.of_nat (length (dtrace_provider r))) then Some (EBUSY, r, [])
  else if negb (dtpv_defunct (provider_at r old)) &&
          (negb (dtrace_opens r =? 0) || match r_anon_necbs r with Some n => 0 <? n | None => false end)
  then Some (EBUSY, r, [])
  else if has_enabled r old then Some (EBUSY, r, [])
  else
    match unregister_loop old (length (dtrace_probes r)) 0 r [] with
    | None => None
    | Some (r, first) =>
        let '(r, log) := destroy_probes first r [] in
        match unchain old (dtrace_provider r) with
        | None => None
        | Some chain => Some (0, free_provider r old chain, log)
        end
    end.

Definition dtrace_invalidate (r : registry) (id : Z) : registry :=
  Registry (r_probe r) (dtrace_probes r) (dtrace_bymod r) (dtrace_byfunc r) (dtrace_byname r) (dtrace_probegen r)
    (r_seq r)
    (alter (fun pv => Provider (dtpv_attr pv) (dtpp_flags pv) (dtpp_uid pv) (dtpp_zoneid pv) (dtpv_pops pv)
                        (dtpv_name pv) (dtpv_arg pv) true) id (r_provider r))
    (dtrace_provider r) (dtrace_opens r) (r_anon_necbs r).

Definition dtrace_attached (r : registry) : bool := match dtrace_provider r with [] => false | _ => true end.

(** dtrace_module_unloaded(): the loop that takes the probes of the module out. *)
Fixpoint unload_loop (l : list Z) (r : registry) (first : list Z) : option (registry * list Z) :=
  match l with
  | [] => Some (r, first)
  | p :: l =>
      let i := Z.to_nat (dtpr_id (probe_at r p) - 1) in
      match dtrace_probes r !! i with
      | Some (Some q) =>
          if negb (q =? p) then None
          else match unlink_probe r i p with Some r => unload_loop l r (p :: first) | None => None end
      | _ => None
      end
  end.

(** [l] is the module's chain, whose [dtpr_nextmod] the loop reads before each removal. *)
Definition dtrace_module_unloaded (r : registry) (name : cstring) : option (registry * list (Z * Z * Z)) :=
  match chain_walk (S (length (dtrace_probes r))) (dtrace_bymod r)
          (dtrace_hash_lookup (mod_of (r_probe r)) (dtrace_bymod r) name) with
  | None => None
  | Some l =>
      if existsb (fun p => negb (bool_decide (dtpr_ecb (probe_at r p) = []))) l then Some (r, [])
      else
        match unload_loop l r [] with
        | None => None
        | Some (r, first) => Some (destroy_probes first r [])
        end
  end.

(** dtrace_probe_foreach(): the calls of a provider operation on the enabled probes. *)
Definition dtrace_probe_foreach (op : dtrace_pops -> option Z) (r : registry) : list (option Z * Z * Z * Z) :=
  omap (fun x : Z * option Z => match x with
    | (_, None) => None
    | (i, Some p) =>
        if bool_decide (dtpr_ecb (probe_at r p) = []) then None
        else
          let prov := provider_at r (dtpr_provider (probe_at r p)) in
          Some (op (dtpv_pops prov), dtpv_arg prov, i + 1, dtpr_arg (probe_at r p))
    end) (zip (seqZ 0 (Z.of_nat (length (dtrace_probes r)))) (dtrace_probes r)).

(** * Providers *)

Definition DTRACE_STABILITY_MAX : Z := 7.
Definition DTRACE_CLASS_MAX : Z := 5.

Definition dtrace_badattr (a : dtrace_attribute) : bool :=
  (DTRACE_STABILITY_MAX <? dtat_name a) || (DTRACE_STABILITY_MAX <? dtat_data a) || (DTRACE_CLASS_MAX <? dtat_class a).

Definition DTRACE_ISALPHA (c : Z) : bool := ((97 <=? c) && (c <=? 122)) || ((65 <=? c) && (c <=? 90)).

(** '-', '_' and '.' *)
Definition name_punct (c : Z) : bool := (c =? 45) || (c =? 95) || (c =? 46).

Definition dtrace_badname (s : option cstring) : bool :=
  match s with
  | None | Some [] => false
  | Some (c :: s) =>
      if negb (DTRACE_ISALPHA c) && negb (name_punct c) then true
      else existsb (fun c => negb (DTRACE_ISALPHA c) && ((c <? 48) || (57 <? c)) && negb (name_punct c) && negb (c =? 96)) s
  end.

(** dtrace_nullop(), the operation that does nothing. *)
Section Register.
Context (dtrace_nullop : Z).

Definition isNone {X} (o : option X) : bool := match o with None => true | Some _ => false end.

(** The checks of dtrace_register(), in their order. *)
Definition register_bad (name : option cstring) (pap : option dtrace_pattr) (priv : Z) (pops : option dtrace_pops) (idp : bool)
    : bool :=
  match name, pap, pops, idp with
  | Some name, Some pap, Some pops, true =>
      match name with [] => true | _ => dtrace_badname (Some name) end ||
      (isNone (dtps_provide pops) && isNone (dtps_provide_module pops) || isNone (dtps_enable pops) ||
       isNone (dtps_disable pops) || isNone (dtps_destroy pops) ||
       xorb (isNone (dtps_resume pops)) (isNone (dtps_suspend pops))) ||
      (dtrace_badattr (dtpa_provider pap) || dtrace_badattr (dtpa_mod pap) || dtrace_badattr (dtpa_func pap) ||
       dtrace_badattr (dtpa_name pap) || dtrace_badattr (dtpa_args pap)) ||
      negb (Z.land priv (u32 (Z.lnot DTRACE_PRIV_ALL)) =? 0) ||
      (negb (Z.land priv DTRACE_PRIV_KERNEL =? 0) &&
       negb (Z.land priv (Z.lor DTRACE_PRIV_USER DTRACE_PRIV_OWNER) =? 0) && isNone (dtps_usermode pops))
  | _, _, _, _ => true
  end.

(** Missing operations become null operations. *)
Definition fill_pops (p : dtrace_pops) : dtrace_pops :=
  let or_null (o : option Z) := match o with None => Some dtrace_nullop | _ => o end in
  Pops (or_null (dtps_provide p)) (or_null (dtps_provide_module p)) (dtps_enable p) (dtps_disable p)
    (match dtps_suspend p with None => Some dtrace_nullop | o => o end)
    (match dtps_suspend p with None => Some dtrace_nullop | _ => dtps_resume p end)
    (dtps_getargdesc p) (dtps_getargval p) (dtps_usermode p) (dtps_destroy p).

(** DTrace itself comes first, every other provider second. *)
Definition chain_provider (self : bool) (p : Z) (l : list Z) : list Z :=
  if self then p :: l else match l with [] => [p] | first :: l => first :: p :: l end.

(** [cr]: the user and zone of the credentials; [self]: [pops] is [dtrace_provider_ops].
    [addr] is the address of the new provider, which is also its identifier. *)
Definition dtrace_register (r : registry) (addr : Z) (name : option cstring) (pap : option dtrace_pattr) (priv : Z)
    (cr : option (Z * Z)) (pops : option dtrace_pops) (self : bool) (arg : Z) (idp : bool) : Z * registry :=
  if register_bad name pap priv pops idp then (EINVAL, r)
  else
    match name, pap, pops with
    | Some name, Some pap, Some pops =>
        let '(uid, zoneid) := default (0, 0) cr in
        let provider := Provider pap priv uid zoneid (fill_pops pops) name arg false in
        (0, Registry (r_probe r) (dtrace_probes r) (dtrace_bymod r) (dtrace_byfunc r) (dtrace_byname r)
              (dtrace_probegen r) (r_seq r) (<[addr := provider]> (r_provider r))
              (chain_provider self addr (dtrace_provider r)) (dtrace_opens r) (r_anon_necbs r))
    | _, _, _ => (EINVAL, r)
    end.
End Register.

(** * Consistency of the registry *)

Section Tables.
Implicit Types (M : gmap cstring (list Z)).

(** The representation depends only on the strings of the probes on the chains. *)
Lemma rep_ext str str' h M :
  (forall k l x, M !! k = Some l -> x ∈ l -> str' x = str x) -> hash_rep str h M -> hash_rep str' h M.
Proof.
  intros He H. split; try apply H.
  - intros k l Hl. destruct (rep_keyed _ h M H k l Hl) as (x & Hx & Hk). exists x. split; [done|].
    rewrite (He k l x Hl); [done|]. destruct l; [done|]. injection Hx as ->. by left.
  - intros k l Hl. destruct (rep_chain _ h M H k l Hl) as (Hnd & Hs & Hseg). split_and!; [done| |done].
    rewrite List.Forall_forall in *. intros x Hx. rewrite (He k l x Hl); [by apply Hs|]. by apply list_elem_of_In.
Qed.

(** Fresh memory has no links. *)
Lemma rep_zalloc str h M p : unlinked M p -> hash_rep str h M -> hash_rep str (hash_zalloc h p) M.
Proof.
  intros Hf H. split; try apply H. intros k l Hl. destruct (rep_chain _ h M H k l Hl) as (Hnd & Hs & Hseg).
  split_and!; [done|done|]. eapply seg_frame; [|exact Hseg]. intros x Hx. cbn [hash_zalloc dth_next dth_prev].
  rewrite !lookup_delete_ne; [done| |]; intros <-; by apply (Hf k l Hl).
Qed.

(** The probes on the chain of a string. *)
Definition chain M (k : cstring) : list Z := default [] (M !! k).

Lemma chain_add M k p k' q : q ∈ chain (table_add M k p) k' <-> q ∈ chain M k' \/ (k' = k /\ q = p).
Proof.
  unfold chain, table_add. destruct (decide (k' = k)) as [->|Hk].
  - rewrite lookup_insert_eq. cbn. rewrite elem_of_cons. tauto.
  - rewrite lookup_insert_ne by done. tauto.
Qed.

Lemma chain_remove M k p k' q : q ∈ chain (table_remove M k p) k' <-> q ∈ chain M k' /\ (k' = k -> q <> p).
Proof.
  unfold chain, table_remove. destruct (decide (k' = k)) as [->|Hk].
  - assert (Hq : q ∈ filter (fun x => x <> p) (default [] (M !! k)) <-> q ∈ default [] (M !! k) /\ (k = k -> q <> p))
      by (rewrite list_elem_of_filter; tauto).
    rewrite <- Hq. destruct (filter _ _) as [|x l] eqn:E.
    + by rewrite lookup_delete_eq.
    + by rewrite lookup_insert_eq.
  - destruct (filter _ _) as [|x l]; [rewrite lookup_delete_ne by done|rewrite lookup_insert_ne by done]; tauto.
Qed.

Lemma chain_elem M k p : p ∈ chain M k -> exists l, M !! k = Some l /\ p ∈ l.
Proof. unfold chain. destruct (M !! k) as [l|]; [by exists l|]. cbn. by rewrite elem_of_nil. Qed.

Lemma chain_str str h M k p : hash_rep str h M -> p ∈ chain M k -> str p = k.
Proof.
  intros H (l & Hl & Hp)%chain_elem. destruct (rep_chain _ h M H k l Hl) as (_ & Hs & _).
  rewrite List.Forall_forall in Hs. apply Hs. by apply list_elem_of_In.
Qed.
End Tables.

Definition live (r : registry) (p : Z) : Prop := Some p ∈ dtrace_probes r.

(** A table holds the live probes, each on the chain of its string. *)
Definition table_ok (r : registry) (w : which) : Prop :=
  exists M, hash_rep (str_of r w) (table_of r w) M /\ forall p, live r p <-> p ∈ chain M (str_of r w p).

(** [F] are the probes that have been taken out but not freed. *)
Record reg_inv (r : registry) (F : list Z) : Prop := {
  inv_tables : forall w, table_ok r w;
  inv_probes : forall i p, dtrace_probes r !! i = Some (Some p) ->
    exists pr, r_probe r !! p = Some pr /\ dtpr_id pr = Z.of_nat i + 1;
  inv_mem : forall p, is_Some (r_probe r !! p) <-> live r p \/ p ∈ F;
  inv_gone : forall p, p ∈ F -> ~ live r p;
  inv_seq : 0 <= r_seq r <= Z.of_nat (length (dtrace_probes r)) /\ r_seq r < 2 ^ 31;
  inv_tail : forall i p, dtrace_probes r !! i = Some (Some p) -> Z.of_nat i < r_seq r;
  inv_strings : forall p pr, r_probe r !! p = Some pr -> no_nul (dtpr_mod pr) /\ no_nul (dtpr_func pr) /\ no_nul (dtpr_name pr)
}.

Definition registry_ok (r : registry) : Prop := reg_inv r [].

Lemma live_index r F i j p :
  reg_inv r F -> dtrace_probes r !! i = Some (Some p) -> dtrace_probes r !! j = Some (Some p) -> i = j.
Proof. intros H Hi Hj. destruct (inv_probes r F H i p Hi) as (pr & Hp & Hid), (inv_probes r F H j p Hj) as (pr' & Hp' & Hid'). naive_solver lia. Qed.

(** ** Removal *)

Lemma live_unlink r F i p q probes :
  reg_inv r F -> dtrace_probes r !! i = Some (Some p) -> probes = <[i := None]> (dtrace_probes r) ->
  Some q ∈ probes <-> live r q /\ q <> p.
Proof.
  intros H Hi ->. unfold live. rewrite !list_elem_of_lookup. split.
  - intros [j Hj]. destruct (decide (i = j)) as [->|Hij].
    + rewrite list_lookup_insert_eq in Hj; [done|]. by eapply lookup_lt_Some.
    + rewrite list_lookup_insert_ne in Hj by done. split; [by exists j|]. intros ->. apply Hij. by eapply live_index.
  - intros [[j Hj] Hq]. exists j. rewrite list_lookup_insert_ne; [done|]. intros <-. congruence.
Qed.

Lemma table_unlink r r' F i p w :
  reg_inv r F -> dtrace_probes r !! i = Some (Some p) ->
  exists h, dtrace_hash_remove (str_of r w) (table_of r w) p = Some h /\
    (dtrace_probes r' = <[i := None]> (dtrace_probes r) -> r_probe r' = r_probe r -> table_of r' w = h -> table_ok r' w).
Proof.
  intros H Hi. destruct (inv_tables r F H w) as (M & HM & Hlive).
  assert (Hp : p ∈ chain M (str_of r w p)) by (apply Hlive; by eapply list_elem_of_lookup_2).
  destruct (chain_elem _ _ _ Hp) as (l & Hl & Hin). destruct (remove_rep _ _ M p l HM Hl Hin) as (h & Hh & HM').
  exists h. split; [done|]. intros Hpr Hmem Ht. exists (table_remove M (str_of r w p) p).
  assert (Hs : forall x, str_of r' w x = str_of r w x) by (intros x; unfold str_of; by rewrite Hmem).
  split; [eapply rep_ext; [|rewrite Ht; exact HM']; by intros|].
  intros q. unfold live. rewrite Hpr, (live_unlink r F i p q _ H Hi eq_refl), Hs, chain_remove, Hlive. split; intros [Hq Hne].
  - split; [done|]. by intros.
  - split; [done|]. intros ->. by apply Hne.
Qed.

Lemma unlink_inv r F i p :
  reg_inv r F -> dtrace_probes r !! i = Some (Some p) ->
  exists r', unlink_probe r i p = Some r' /\ reg_inv r' (p :: F) /\
    dtrace_probes r' = <[i := None]> (dtrace_probes r) /\ r_probe r' = r_probe r /\
    r_provider r' = r_provider r /\ dtrace_provider r' = dtrace_provider r.
Proof.
  intros H Hi. unfold unlink_probe.
  destruct (table_unlink r r F i p ByMod H Hi) as (hm & Hm & _), (table_unlink r r F i p ByFunc H Hi) as (hf & Hf & _),
    (table_unlink r r F i p ByName H Hi) as (hn & Hn & _).
  change (dtrace_hash_remove (mod_of (r_probe r)) (dtrace_bymod r) p = Some hm) in Hm.
  change (dtrace_hash_remove (func_of (r_probe r)) (dtrace_byfunc r) p = Some hf) in Hf.
  change (dtrace_hash_remove (name_of (r_probe r)) (dtrace_byname r) p = Some hn) in Hn.
  rewrite Hm, Hf, Hn.
  eexists. split; [done|]. set (r' := Registry _ _ _ _ _ _ _ _ _ _ _). split; [|by split_and!].
  assert (Hlive : forall q, live r' q <-> live r q /\ q <> p) by (intros q; by apply (live_unlink r F i p)).
  assert (Hold : forall j q, dtrace_probes r' !! j = Some (Some q) -> dtrace_probes r !! j = Some (Some q)).
  { intros j q. cbn. destruct (decide (i = j)) as [->|Hij]; [|by rewrite list_lookup_insert_ne].
    rewrite list_lookup_insert_eq; [done|]. by eapply lookup_lt_Some. }
  split.
  - intros w. destruct (table_unlink r r' F i p w H Hi) as (h & Hh & Ht). apply Ht; [done|done|].
    destruct w; cbn; (eapply (inj Some); etrans; [symmetry; eassumption|exact Hh]).
  - intros j q Hj. by apply (inv_probes r F H), Hold.
  - intros q. change (r_probe r') with (r_probe r). rewrite (inv_mem r F H), Hlive, elem_of_cons.
    destruct (decide (q = p)) as [->|Hq]; [|tauto]. assert (live r p) by (by eapply list_elem_of_lookup_2). tauto.
  - intros q. rewrite Hlive, elem_of_cons. intros [->|Hq]; [tauto|]. pose proof (inv_gone r F H q Hq). tauto.
  - cbn. rewrite length_insert. apply (inv_seq r F H).
  - intros j q Hj. by apply (inv_tail r F H j q), Hold.
  - apply (inv_strings r F H).
Qed.

Lemma free_inv r F F' p :
  reg_inv r F -> p ∈ F -> p ∉ F' -> (forall q, q <> p -> q ∈ F' <-> q ∈ F) -> reg_inv (free_probe r p) F'.
Proof.
  intros H Hp Hp' HF. pose proof (inv_gone r F H p Hp) as Hg.
  assert (Hm : forall q, q <> p -> r_probe (free_probe r p) !! q = r_probe r !! q) by (intros; by apply lookup_delete_ne).
  assert (Hs : forall w q, q <> p -> str_of (free_probe r p) w q = str_of r w q).
  { intros w q Hq. unfold str_of, mod_of, func_of, name_of, probe_of. destruct w; by rewrite Hm. }
  split.
  - intros w. destruct (inv_tables r F H w) as (M & HM & Hlive). exists M.
    assert (Hnp : forall k, p ∉ chain M k).
    { intros k Hk. apply Hg. rewrite (Hlive p). by rewrite (chain_str _ _ _ _ _ HM Hk). }
    split.
    + eapply rep_ext; [|exact HM]. intros k l x Hl Hx. apply Hs. intros ->. apply (Hnp k). unfold chain. by rewrite Hl.
    + intros q. change (live (free_probe r p) q) with (live r q). destruct (decide (q = p)) as [->|Hq].
      * split; [done|]. intros Hk. by apply Hnp in Hk.
      * rewrite Hs by done. apply Hlive.
  - intros i q Hi. destruct (inv_probes r F H i q Hi) as (pr & Hpr & Hid). exists pr. split; [|done].
    rewrite Hm; [done|]. intros ->. apply Hg. by eapply list_elem_of_lookup_2.
  - intros q. change (live (free_probe r p) q) with (live r q). destruct (decide (q = p)) as [->|Hq].
    + cbn. rewrite lookup_delete_eq. split; [by intros []|tauto].
    + rewrite Hm, HF by done. apply (inv_mem r F H).
  - intros q Hq. change (live (free_probe r p) q) with (live r q). destruct (decide (q = p)) as [->|Hne]; [done|].
    apply (inv_gone r F H). by apply HF.
  - apply (inv_seq r F H).
  - apply (inv_tail r F H).
  - intros q pr Hq. destruct (decide (q = p)) as [->|Hne].
    + cbn in Hq. by rewrite lookup_delete_eq in Hq.
    + rewrite Hm in Hq by done. by apply (inv_strings r F H q).
Qed.

(** ** Creation *)

Lemma grow_spec seq probes :
  0 <= seq <= Z.of_nat (length probes) -> seq < 2 ^ 31 - 1 ->
  exists n, grow_probes (seq + 1) probes = probes ++ replicate n None /\ seq < Z.of_nat (length probes + n).
Proof.
  intros Hs Hb. unfold grow_probes. replace (u32 (seq + 1 - 1)) with seq by (unfold u32; lia).
  destruct (Z.leb_spec (Z.of_nat (length probes)) seq).
  - destruct probes as [|o l]; [exists 1%nat; split; [done|cbn in *; lia]|]. exists (length (o :: l)). split; [done|]. cbn in *. lia.
  - exists 0%nat. rewrite app_nil_r. split; [done|lia].
Qed.

Lemma live_grow r r' F n seq addr :
  reg_inv r F -> seq = r_seq r -> seq < Z.of_nat (length (dtrace_probes r) + n) ->
  dtrace_probes r' = <[Z.to_nat seq := Some addr]> (dtrace_probes r ++ replicate n None) ->
  (dtrace_probes r ++ replicate n None) !! Z.to_nat seq = Some None /\
  (forall i q, dtrace_probes r' !! i = Some (Some q) <->
     dtrace_probes r !! i = Some (Some q) \/ (i = Z.to_nat seq /\ q = addr)) /\
  (forall q, live r' q <-> live r q \/ q = addr).
Proof.
  intros H -> Hlen Hpr. pose proof (inv_seq r F H) as [[H0 _] _].
  assert (Hlt : (Z.to_nat (r_seq r) < length (dtrace_probes r ++ replicate n None))%nat)
    by (rewrite length_app, length_replicate; lia).
  assert (Happ : forall i q, (dtrace_probes r ++ replicate n None) !! i = Some (Some q) <-> dtrace_probes r !! i = Some (Some q)).
  { intros i q. rewrite lookup_app. destruct (dtrace_probes r !! i) eqn:E; [done|]. split; [|done].
    intros [? _]%lookup_replicate. done. }
  assert (Hnone : (dtrace_probes r ++ replicate n None) !! Z.to_nat (r_seq r) = Some None).
  { destruct (lookup_lt_is_Some_2 _ _ Hlt) as [[q|] Hq]; [|done]. apply Happ, (inv_tail r F H) in Hq. lia. }
  assert (Hi : forall i q, dtrace_probes r' !! i = Some (Some q) <->
     dtrace_probes r !! i = Some (Some q) \/ (i = Z.to_nat (r_seq r) /\ q = addr)).
  { intros i q. rewrite Hpr. destruct (decide (Z.to_nat (r_seq r) = i)) as [<-|Hne].
    - rewrite list_lookup_insert_eq by done. split; [intros [= ->]; by right|]. rewrite <- Happ, Hnone.
      intros [?|[_ ->]]; done.
    - rewrite list_lookup_insert_ne, Happ by done. intuition congruence. }
  split_and!; [done|done|]. intros q. unfold live. rewrite !list_elem_of_lookup. split.
  - intros [i [Hq|[_ ->]]%Hi]; [left; by exists i|by right].
  - intros [[i Hq]| ->]; [exists i; apply Hi; by left|exists (Z.to_nat (r_seq r)); apply Hi; by right].
Qed.

Lemma table_create r r' F w addr probe :
  reg_inv r F -> r_probe r !! addr = None -> r_probe r' = <[addr := probe]> (r_probe r) ->
  exists h, dtrace_hash_add (str_of r' w) (hash_zalloc (table_of r w) addr) addr = Some h /\
    ((forall q, live r' q <-> live r q \/ q = addr) -> table_of r' w = h -> table_ok r' w).
Proof.
  intros H Hnew Hmem. destruct (inv_tables r F H w) as (M & HM & Hlive).
  assert (Hnl : ~ live r addr). { intros Hl. assert (Hm : is_Some (r_probe r !! addr)) by (apply (inv_mem r F H); by left). rewrite Hnew in Hm. by destruct Hm. }
  assert (Hf : unlinked M addr).
  { intros k l Hl Hin. apply Hnl, Hlive. assert (Hc : addr ∈ chain M k) by (unfold chain; by rewrite Hl).
    by rewrite (chain_str _ _ _ _ _ HM Hc). }
  assert (Hs : forall q, q <> addr -> str_of r' w q = str_of r w q).
  { intros q Hq. unfold str_of, mod_of, func_of, name_of, probe_of. rewrite Hmem. destruct w; by rewrite lookup_insert_ne. }
  assert (HM' : hash_rep (str_of r' w) (hash_zalloc (table_of r w) addr) M).
  { apply rep_zalloc; [done|]. eapply rep_ext; [|exact HM]. intros k l x Hl Hx. apply Hs. intros ->. by apply (Hf k l Hl). }
  destruct (add_rep _ _ M addr HM' Hf) as (h & Hh & HMh); [apply lookup_delete_eq|]. exists h. split; [done|].
  intros Hlive' Ht. exists (table_add M (str_of r' w addr) addr). rewrite Ht. split; [done|].
  intros q. rewrite Hlive', chain_add. destruct (decide (q = addr)) as [->|Hq]; [tauto|].
  rewrite Hs, <- Hlive by done. tauto.
Qed.

Definition cstr_ok (s : option cstring) : Prop := match s with Some s => no_nul s | None => True end.

(** A probe is created without violating an assertion, and found again. *)
Lemma create_inv r addr provider md func name aframes arg :
  registry_ok r -> addr <> 0 -> r_probe r !! addr = None -> r_seq r < 2 ^ 31 - 1 ->
  cstr_ok md -> cstr_ok func -> cstr_ok name ->
  exists r', dtrace_probe_create r addr provider md func name aframes arg = Some (r_seq r + 1, r') /\ registry_ok r' /\
    r_seq r' = r_seq r + 1 /\
    r_probe r' = <[addr := Probe (r_seq r + 1) [] arg 0 aframes provider (dtrace_strdup md) (dtrace_strdup func)
                             (dtrace_strdup name) (dtrace_probegen r)]> (r_probe r) /\
    (forall i q, dtrace_probes r' !! i = Some (Some q) <->
       dtrace_probes r !! i = Some (Some q) \/ (i = Z.to_nat (r_seq r) /\ q = addr)) /\
    r_provider r' = r_provider r.
Proof.
  intros H Ha Hnew Hseq Hm Hf Hn. pose proof (inv_seq r [] H) as [Hs0 _]. unfold dtrace_probe_create, vmem_alloc.
  assert (Hid : u32 (u64 (s32 (r_seq r + 1))) = r_seq r + 1) by word. rewrite Hid.
  assert (Hsq : s32 (r_seq r + 1) = r_seq r + 1) by word. rewrite Hsq. destruct (Z.eqb_spec addr 0) as [|_]; [done|].
  set (probe := Probe _ _ _ _ _ _ _ _ _ _). set (mem := <[addr := probe]> (r_probe r)).
  destruct (grow_spec (r_seq r) (dtrace_probes r) Hs0 Hseq) as (n & -> & Hlen).
  set (r1 := fun hm hf hn => Registry mem (<[Z.to_nat (r_seq r) := Some addr]> (dtrace_probes r ++ replicate n None)) hm hf hn
               (u64 (dtrace_probegen r + 1)) (r_seq r + 1) (r_provider r) (dtrace_provider r) (dtrace_opens r) (r_anon_necbs r)).
  destruct (table_create r (r1 (dtrace_bymod r) (dtrace_byfunc r) (dtrace_byname r)) [] ByMod addr probe H Hnew eq_refl) as (hm & Hhm & _).
  destruct (table_create r (r1 (dtrace_bymod r) (dtrace_byfunc r) (dtrace_byname r)) [] ByFunc addr probe H Hnew eq_refl) as (hf & Hhf & _).
  destruct (table_create r (r1 (dtrace_bymod r) (dtrace_byfunc r) (dtrace_byname r)) [] ByName addr probe H Hnew eq_refl) as (hn & Hhn & _).
  change (dtrace_hash_add (mod_of mem) (hash_zalloc (dtrace_bymod r) addr) addr = Some hm) in Hhm.
  change (dtrace_hash_add (func_of mem) (hash_zalloc (dtrace_byfunc r) addr) addr = Some hf) in Hhf.
  change (dtrace_hash_add (name_of mem) (hash_zalloc (dtrace_byname r) addr) addr = Some hn) in Hhn.
  rewrite Hhm, Hhf, Hhn. replace (r_seq r + 1 - 1) with (r_seq r) by lia.
  destruct (live_grow r (r1 hm hf hn) [] n (r_seq r) addr H eq_refl Hlen eq_refl) as (Hnone & Hi & Hlive).
  rewrite zlookup_nat, Hnone by lia. change (Registry mem _ hm hf hn _ _ _ _ _ _) with (r1 hm hf hn).
  eexists. split; [done|]. split; [|by split_and!]. split.
  - intros w. destruct (table_create r (r1 hm hf hn) [] w addr probe H Hnew eq_refl) as (h & Hh & Ht). apply Ht; [done|].
    destruct w; cbn; (eapply (inj Some); etrans; [symmetry; eassumption|exact Hh]).
  - intros i q [Hq|[-> ->]]%Hi; cbn [r_probe r1].
    + destruct (inv_probes r [] H i q Hq) as (pr & Hpr & Hpid). exists pr. split; [|done]. unfold mem. rewrite lookup_insert_ne; [done|].
      intros <-. congruence.
    + exists probe. unfold mem. rewrite lookup_insert_eq. split; [done|]. cbn. lia.
  - intros q. rewrite Hlive. cbn [r_probe r1]. unfold mem. rewrite elem_of_nil. destruct (decide (q = addr)) as [->|Hq].
    + rewrite lookup_insert_eq. split; [by left; right|by eexists].
    + rewrite lookup_insert_ne, (inv_mem r [] H), elem_of_nil by done. tauto.
  - intros q Hq. by apply elem_of_nil in Hq.
  - cbn. rewrite length_insert, length_app, length_replicate. lia.
  - intros i q [Hq|[-> _]]%Hi; cbn; [apply (inv_tail r [] H) in Hq; lia|lia].
  - intros q pr. cbn [r_probe r1]. unfold mem. destruct (decide (q = addr)) as [->|Hq].
    + rewrite lookup_insert_eq. intros [= <-]. cbn. unfold dtrace_strdup.
      split_and!; [destruct md|destruct func|destruct name]; (done || constructor).
    + rewrite lookup_insert_ne by done. apply (inv_strings r [] H).
Qed.

(** ** Condensing, unregistering, unloading *)

(** From index [i] on, [n] entries of the array have lost the probes of [V]. *)
Definition swept (V : Z -> bool) (i n : nat) (l l' : list (option Z)) : Prop :=
  forall j : nat, l' !! j =
    (fun o : option Z => match o with Some p => if bool_decide (i <= j < i + n)%nat && V p then None else Some p | None => None end)
      <$> l !! j.

Lemma swept_nil V i l : swept V i 0 l l.
Proof. intros j. rewrite bool_decide_eq_false_2 by lia. cbn. by destruct (l !! j) as [[p|]|]. Qed.

(** The entry at [i] is decided, then the rest. *)
Lemma swept_step (V : Z -> bool) (i n : nat) (l l1 l' : list (option Z)) (o : option Z) :
  l !! i = Some o ->
  l1 = <[i := match o with Some p => if V p then None else Some p | None => None end]> l ->
  swept V (S i) n l1 l' -> swept V i (S n) l l'.
Proof.
  intros Hi -> Hs j. rewrite (Hs j). destruct (decide (i = j)) as [<-|Hij].
  - rewrite list_lookup_insert_eq by (by eapply lookup_lt_Some). rewrite Hi, bool_decide_eq_false_2, bool_decide_eq_true_2 by lia.
    cbn. destruct o as [p|]; [|done]. by destruct (V p).
  - rewrite list_lookup_insert_ne by done. destruct (l !! j) as [[p|]|]; [|done|done]. cbn. do 2 f_equal.
    rewrite (bool_decide_ext (S i <= j < S i + n)%nat (i <= j < i + S n)%nat); [done|lia].
Qed.

Lemma swept_sub V i n l l' (j : nat) (q : Z) : swept V i n l l' -> l' !! j = Some (Some q) -> l !! j = Some (Some q).
Proof.
  intros Hs Hj. rewrite (Hs j) in Hj. destruct (l !! j) as [[x|]|]; [|done|done].
  cbn [fmap option_fmap option_map] in Hj. by destruct (_ && _).
Qed.

Lemma swept_live V r r' p : swept V 0 (length (dtrace_probes r)) (dtrace_probes r) (dtrace_probes r') ->
  live r' p <-> live r p /\ V p = false.
Proof.
  intros Hs. unfold live. rewrite !list_elem_of_lookup. split.
  - intros [j Hj]. rewrite (Hs j) in Hj. destruct (dtrace_probes r !! j) as [[q|]|] eqn:E; [|done|done]. cbn in Hj.
    rewrite bool_decide_eq_true_2 in Hj by (apply lookup_lt_Some in E; lia). cbn in Hj.
    destruct (V q) eqn:Eq; [done|]. injection Hj as <-. split; [by exists j|done].
  - intros [[j Hj] HV]. exists j. rewrite (Hs j), Hj. cbn. rewrite HV, andb_false_r. done.
Qed.

(** A disabled probe of the provider. *)
Definition condensable (prov : Z) (r : registry) (p : Z) : bool :=
  (dtpr_provider (probe_at r p) =? prov) && bool_decide (dtpr_ecb (probe_at r p) = []).

Lemma live_probe r F i p : reg_inv r F -> dtrace_probes r !! i = Some (Some p) -> live r p /\ p ∉ F.
Proof.
  intros H Hi. assert (live r p) by (by eapply list_elem_of_lookup_2). split; [done|]. intros Hp. by apply (inv_gone r F H) in Hp.
Qed.

(** Unlinking and freeing at once. *)
Lemma unlink_free_inv r i p :
  registry_ok r -> dtrace_probes r !! i = Some (Some p) ->
  exists r', unlink_probe r i p = Some r' /\ registry_ok (free_probe r' p) /\
    dtrace_probes (free_probe r' p) = <[i := None]> (dtrace_probes r) /\
    (forall q, q <> p -> probe_at (free_probe r' p) q = probe_at r q) /\
    r_provider r' = r_provider r.
Proof.
  intros H Hi. destruct (unlink_inv r [] i p H Hi) as (r' & Hu & H' & Hpr & Hm & Hpv & _). exists r'. split_and!; [done| | | |done].
  - apply (free_inv r' [p] [] p); [done|by left|apply not_elem_of_nil|]. intros q Hq. rewrite elem_of_cons, elem_of_nil. tauto.
  - done.
  - intros q Hq. unfold probe_at, probe_of. cbn. by rewrite lookup_delete_ne, Hm.
Qed.

Lemma condense_loop_inv prov V n i r log :
  registry_ok r -> (i + n <= length (dtrace_probes r))%nat ->
  (forall p, live r p -> condensable prov r p = V p) ->
  exists r' log', condense_loop prov n i r log = Some (r', log') /\ registry_ok r' /\
    swept V i n (dtrace_probes r) (dtrace_probes r') /\
    (forall p, live r' p -> probe_at r' p = probe_at r p) /\ r_provider r' = r_provider r.
Proof.
  revert i r log. induction n as [|n IH]; intros i r log H Hlen HV.
  { exists r, log. split_and!; try done. apply swept_nil. }
  cbn [condense_loop]. destruct (lookup_lt_is_Some_2 (dtrace_probes r) i) as [[p|] Hi]; [lia| |]; rewrite Hi.
  - destruct (live_probe r [] i p H Hi) as [Hl _]. pose proof (HV p Hl) as Hc. unfold condensable in Hc.
    assert (Hstep : forall r1, dtrace_probes r1 = <[i := if V p then None else Some p]> (dtrace_probes r) ->
      registry_ok r1 -> (forall q, live r1 q -> probe_at r1 q = probe_at r q) -> r_provider r1 = r_provider r ->
      forall log, exists r' log', condense_loop prov n (S i) r1 log = Some (r', log') /\ registry_ok r' /\
        swept V i (S n) (dtrace_probes r) (dtrace_probes r') /\ (forall p, live r' p -> probe_at r' p = probe_at r p) /\
        r_provider r' = r_provider r).
    { intros r1 Hp1 H1 Hm1 Hv1 log1.
      assert (Hl1 : forall q, live r1 q -> live r q).
      { intros q [j Hj]%list_elem_of_lookup. rewrite Hp1 in Hj. destruct (decide (i = j)) as [<-|Hij].
        - rewrite list_lookup_insert_eq in Hj by lia. destruct (V p); [done|]. by injection Hj as <-.
        - rewrite list_lookup_insert_ne in Hj by done. by eapply list_elem_of_lookup_2. }
      destruct (IH (S i) r1 log1) as (r' & log' & Hr' & H' & Hs' & Hm' & Hv'); [done|rewrite Hp1, length_insert; lia| |].
      { intros q Hq. unfold condensable. rewrite Hm1 by done. by apply HV, Hl1. }
      exists r', log'. split_and!; [done|done| | |congruence].
      - by eapply (swept_step V i n _ _ _ (Some p)).
      - intros q Hq. rewrite Hm' by done. apply Hm1. unfold live in Hq |- *. apply list_elem_of_lookup in Hq as [j Hj].
        eapply list_elem_of_lookup_2, swept_sub; [exact Hs'|exact Hj]. }
    destruct (dtpr_provider (probe_at r p) =? prov); cbn [negb andb] in *.
    + destruct (bool_decide (dtpr_ecb (probe_at r p) = [])) eqn:Ee; cbn [negb].
      * destruct (unlink_free_inv r i p H Hi) as (r' & Hu & H' & Hp' & Hm' & Hv'). rewrite Hu.
        apply Hstep; [by rewrite <- Hc|done| |done]. intros q Hq. apply Hm'. intros ->.
        unfold live in Hq. rewrite Hp', (live_unlink r [] i p p _ H Hi eq_refl) in Hq. tauto.
      * apply Hstep; [by rewrite <- Hc, list_insert_id|done|done|done].
    + apply Hstep; [by rewrite <- Hc, list_insert_id|done|done|done].
  - destruct (IH (S i) r log H) as (r' & log' & Hr' & H' & Hs' & Hm' & Hv'); [lia|done|]. exists r', log'. split_and!; try done.
    eapply (swept_step V i n _ _ _ None); [done| |exact Hs']. by rewrite list_insert_id.
Qed.

Lemma unregister_loop_inv old n i r F first :
  reg_inv r F -> (i + n <= length (dtrace_probes r))%nat -> Permutation first F ->
  exists r' first', unregister_loop old n i r first = Some (r', first') /\ reg_inv r' first' /\
    swept (fun p => dtpr_provider (probe_at r p) =? old) i n (dtrace_probes r) (dtrace_probes r') /\
    r_probe r' = r_probe r /\ r_provider r' = r_provider r /\ dtrace_provider r' = dtrace_provider r /\
    (NoDup first -> NoDup first').
Proof.
  revert i r F first. induction n as [|n IH]; intros i r F first H Hlen Hp.
  { exists r, first. split_and!; try done; [|apply swept_nil]. destruct H as [H1 H2 H3 H4 H5 H6 H7]. split; try done.
    - intros p. by rewrite Hp.
    - intros p. rewrite Hp. apply H4. }
  cbn [unregister_loop]. destruct (lookup_lt_is_Some_2 (dtrace_probes r) i) as [[p|] Hi]; [lia| |]; rewrite Hi.
  - destruct (dtpr_provider (probe_at r p) =? old) eqn:Eo; cbn [negb].
    + destruct (unlink_inv r F i p H Hi) as (r1 & Hu & H1 & Hp1 & Hm1 & Hv1 & Hc1). rewrite Hu.
      destruct (IH (S i) r1 (p :: F) (p :: first) H1) as (r' & f' & Hr' & H' & Hs' & Hm' & Hv' & Hc' & Hnd');
        [rewrite Hp1, length_insert; lia|by rewrite Hp|].
      exists r', f'. split_and!; [done|done| |congruence|congruence|congruence|].
      * eapply (swept_step _ i n _ _ _ (Some p)); [done| |].
        -- rewrite Eo. exact Hp1.
        -- unfold probe_at in *. by rewrite Hm1 in Hs'.
      * intros Hnd. apply Hnd', NoDup_cons. split; [|done]. rewrite Hp. apply (live_probe r F i p H Hi).
    + destruct (IH (S i) r F first H) as (r' & f' & Hr' & H' & Hs' & Hm' & Hv' & Hc' & Hnd'); [lia|done|]. exists r', f'.
      split_and!; try done. eapply (swept_step _ i n _ _ _ (Some p)); [done| |exact Hs']. by rewrite Eo, list_insert_id.
  - destruct (IH (S i) r F first H) as (r' & f' & Hr' & H' & Hs' & Hm' & Hv' & Hc' & Hnd'); [lia|done|]. exists r', f'.
    split_and!; try done. eapply (swept_step _ i n _ _ _ None); [done| |exact Hs']. by rewrite list_insert_id.
Qed.

Lemma unload_loop_inv l r F first :
  reg_inv r F -> (forall p, p ∈ l -> live r p) -> NoDup l -> Permutation first F ->
  exists r' first', unload_loop l r first = Some (r', first') /\ reg_inv r' first' /\
    (forall p, live r' p <-> live r p /\ p ∉ l) /\ r_probe r' = r_probe r /\ (NoDup first -> NoDup first').
Proof.
  revert r F first. induction l as [|p l IH]; intros r F first H Hl Hnd Hp.
  { exists r, first. split_and!; try done.
    - destruct H as [H1 H2 H3 H4 H5 H6 H7]. split; try done.
      + intros p. by rewrite Hp.
      + intros p. rewrite Hp. apply H4.
    - intros p. rewrite elem_of_nil. tauto. }
  apply NoDup_cons in Hnd as [Hpl Hnd]. cbn [unload_loop].
  assert (Hlp : live r p) by (apply Hl; by left). pose proof Hlp as [i Hi]%list_elem_of_lookup.
  destruct (inv_probes r F H i p Hi) as (pr & Hpr & Hid). unfold probe_at at 1 2, probe_of. rewrite Hpr. cbn [default from_option id].
  cbv zeta. replace (Z.to_nat (dtpr_id pr - 1)) with i by lia. rewrite Hi, Z.eqb_refl. cbn [negb].
  destruct (unlink_inv r F i p H Hi) as (r1 & Hu & H1 & Hp1 & Hm1 & _). rewrite Hu.
  assert (Hl1 : forall q, live r1 q <-> live r q /\ q <> p).
  { intros q. unfold live. rewrite Hp1. by apply (live_unlink r F i p). }
  destruct (IH r1 (p :: F) (p :: first) H1) as (r' & f' & Hr' & H' & Hl' & Hm' & Hnd');
    [|done|by rewrite Hp|].
  { intros q Hq. apply Hl1. split; [apply Hl; by right|]. by intros ->. }
  exists r', f'. split_and!; [done|done| |congruence|].
  - intros q. rewrite Hl', Hl1, elem_of_cons. tauto.
  - intros Hn. apply Hnd', NoDup_cons. split; [|done]. rewrite Hp. apply (live_probe r F i p H Hi).
Qed.

(** The structures are freed, each with its call of [dtps_destroy]. *)
Lemma destroy_probes_inv l r log :
  reg_inv r l -> NoDup l ->
  exists r', destroy_probes l r log = (r', log ++ map (destroy_call r) l) /\ registry_ok r' /\
    dtrace_probes r' = dtrace_probes r /\ (forall p, p ∉ l -> probe_at r' p = probe_at r p) /\
    r_provider r' = r_provider r /\ dtrace_provider r' = dtrace_provider r.
Proof.
  revert r log. induction l as [|p l IH]; intros r log H Hnd; cbn [destroy_probes].
  { exists r. rewrite app_nil_r. by split_and!. }
  apply NoDup_cons in Hnd as [Hp Hnd].
  assert (H' : reg_inv (free_probe r p) l).
  { apply (free_inv r (p :: l) l p); [done|by left|done|]. intros q Hq. rewrite elem_of_cons. tauto. }
  destruct (IH (free_probe r p) (log ++ [destroy_call r p]) H' Hnd) as (r' & Hr' & Hok & Hpr & Hm & Hv & Hc).
  assert (Hne : forall q, q <> p -> probe_at (free_probe r p) q = probe_at r q).
  { intros q Hq. unfold probe_at, probe_of. cbn. by rewrite lookup_delete_ne. }
  exists r'. split_and!; [|done|done| |done|done].
  - rewrite Hr', <- app_assoc. cbn [map app]. do 3 f_equal. apply map_ext_in. intros q Hq%list_elem_of_In.
    unfold destroy_call. rewrite Hne; [done|]. by intros ->.
  - intros q. rewrite elem_of_cons. intros Hq. rewrite Hm by tauto. apply Hne. tauto.
Qed.

(** ** The operations *)

(** The invariant reads the array, the tables, and the identifiers and strings of the probes. *)
Lemma inv_ext r r' F :
  reg_inv r F -> dtrace_probes r' = dtrace_probes r -> (forall w, table_of r' w = table_of r w) -> r_seq r' = r_seq r ->
  (forall p pr', r_probe r' !! p = Some pr' -> exists pr, r_probe r !! p = Some pr /\ dtpr_id pr' = dtpr_id pr /\
     dtpr_mod pr' = dtpr_mod pr /\ dtpr_func pr' = dtpr_func pr /\ dtpr_name pr' = dtpr_name pr) ->
  (forall p, is_Some (r_probe r' !! p) <-> is_Some (r_probe r !! p)) -> reg_inv r' F.
Proof.
  intros H Hp Ht Hs Hm Hd.
  assert (Hstr : forall w p, str_of r' w p = str_of r w p).
  { intros w p. specialize (Hm p). specialize (Hd p). unfold str_of, mod_of, func_of, name_of, probe_of.
    assert (Hc : (exists pr' pr, r_probe r' !! p = Some pr' /\ r_probe r !! p = Some pr /\ dtpr_mod pr' = dtpr_mod pr /\
        dtpr_func pr' = dtpr_func pr /\ dtpr_name pr' = dtpr_name pr) \/ r_probe r' !! p = None /\ r_probe r !! p = None).
    { destruct (r_probe r' !! p) as [pr'|].
      - destruct (Hm pr' eq_refl) as (pr & ? & ? & ? & ? & ?). left. by exists pr', pr.
      - right. split; [done|]. destruct (r_probe r !! p) as [pr|]; [|done]. destruct Hd as [_ [? Hd]]; [by exists pr|done]. }
    destruct Hc as [(pr' & pr & Hc' & Hc & ? & ? & ?)|[Hc' Hc]]; destruct w; by rewrite Hc', Hc. }
  assert (Hl : forall p, live r' p <-> live r p) by (intros p; unfold live; by rewrite Hp).
  split.
  - intros w. destruct (inv_tables r F H w) as (M & HM & Hlive). exists M. rewrite Ht. split.
    + eapply rep_ext; [|exact HM]. by intros.
    + intros p. by rewrite Hl, Hstr.
  - intros i p Hi. rewrite Hp in Hi. destruct (inv_probes r F H i p Hi) as (pr & Hpr & Hid).
    destruct (proj2 (Hd p)) as [pr' Hpr']; [by exists pr|]. exists pr'. split; [done|].
    destruct (Hm p pr' Hpr') as (pr0 & Hpr0 & -> & _). congruence.
  - intros p. rewrite Hd, Hl. apply (inv_mem r F H).
  - intros p. rewrite Hl. apply (inv_gone r F H).
  - rewrite Hs, Hp. apply (inv_seq r F H).
  - rewrite Hs, Hp. apply (inv_tail r F H).
  - intros p pr' (pr & Hpr & _ & -> & -> & ->)%Hm. by apply (inv_strings r F H p).
Qed.

Lemma inv_same r r' F :
  reg_inv r F -> dtrace_probes r' = dtrace_probes r -> (forall w, table_of r' w = table_of r w) -> r_seq r' = r_seq r ->
  r_probe r' = r_probe r -> reg_inv r' F.
Proof. intros H ? ? ? Hm. eapply inv_ext; [exact H|done|done|done| |]; rewrite Hm; [|done]. intros p pr Hp. by exists pr. Qed.

Lemma condense_ok r id :
  registry_ok r ->
  exists r' log, dtrace_condense r id = Some (r', log) /\ registry_ok r' /\
    (forall p, live r' p <-> live r p /\ condensable id r p = false) /\ (forall p, live r' p -> probe_at r' p = probe_at r p).
Proof.
  intros H. destruct (condense_loop_inv id (condensable id r) (length (dtrace_probes r)) 0 r [] H) as (r' & log & Hr & H' & Hs & Hm & _); [lia|done|].
  exists r', log. split_and!; [done|done| |done]. intros p. by apply swept_live.
Qed.

Lemma unchain_some old l : old ∈ l -> exists l', unchain old l = Some l'.
Proof.
  induction l as [|p l IH]; cbn; [by rewrite elem_of_nil|]. rewrite elem_of_cons. destruct (Z.eqb_spec p old); [by eexists|].
  intros [?|Hl]; [done|]. destruct (IH Hl) as [l' ->]. by eexists.
Qed.

Lemma unregister_ok r old self :
  registry_ok r -> old ∈ dtrace_provider r ->
  exists rc r' log, dtrace_unregister r old self = Some (rc, r', log) /\ registry_ok r' /\
    ((rc = EBUSY /\ r' = r) \/
     (rc = 0 /\ has_enabled r old = false /\ r_provider r' !! old = None /\
      forall p, live r' p <-> live r p /\ dtpr_provider (probe_at r p) <> old)).
Proof.
  intros H Hold. unfold dtrace_unregister.
  destruct (self && _); [by eexists _, _, _; split_and!; [done|done|by left]|].
  destruct (negb _ && _); [by eexists _, _, _; split_and!; [done|done|by left]|].
  destruct (has_enabled r old) eqn:He; [by eexists _, _, _; split_and!; [done|done|by left]|].
  destruct (unregister_loop_inv old (length (dtrace_probes r)) 0 r [] [] H) as (r1 & f & -> & H1 & Hs1 & Hm1 & Hv1 & Hc1 & Hnd1); [lia|done|].
  destruct (destroy_probes_inv f r1 [] H1 (Hnd1 NoDup_nil_2)) as (r2 & -> & H2 & Hp2 & Hm2 & Hv2 & Hc2).
  destruct (unchain_some old (dtrace_provider r2)) as [l' ->]; [by rewrite Hc2, Hc1|].
  eexists _, _, _. split; [done|]. split.
  - eapply inv_same; [exact H2|..]; done.
  - right. split_and!; [done|done|apply lookup_delete_eq|]. intros p.
    change (live (free_provider r2 old l') p) with (live r2 p). unfold live. rewrite Hp2.
    change (Some p ∈ dtrace_probes r1) with (live r1 p). rewrite (swept_live _ r r1 p Hs1), Z.eqb_neq. done.
Qed.

(** ** The search *)

(** The probes of the array. *)
Definition array (r : registry) : list Z := omap (fun p => p) (dtrace_probes r).

Lemma array_live r p : p ∈ array r <-> live r p.
Proof. unfold array, live. rewrite list_elem_of_omap. split; [by intros (o & Ho & ->)|]. intros Hp. by exists (Some p). Qed.

Lemma array_nodup r F : reg_inv r F -> NoDup (array r).
Proof.
  intros H. assert (Hd : forall i j p, dtrace_probes r !! i = Some (Some p) -> dtrace_probes r !! j = Some (Some p) -> i = j)
    by (intros i j p; by apply (live_index r F)).
  unfold array. clear H F. induction (dtrace_probes r) as [|[p|] l IH]; [constructor| |].
  - change (NoDup (p :: omap (fun p => p) l)). apply NoDup_cons. split.
    + intros (o & Ho & ->)%list_elem_of_omap. apply list_elem_of_lookup in Ho as [i Hi]. by specialize (Hd O (S i) p eq_refl Hi).
    + apply IH. intros i j q Hi Hj. specialize (Hd (S i) (S j) q Hi Hj). lia.
  - apply IH. intros i j q Hi Hj. specialize (Hd (S i) (S j) q Hi Hj). lia.
Qed.

Lemma array_length r : (length (array r) <= length (dtrace_probes r))%nat.
Proof. unfold array. induction (dtrace_probes r) as [|[p|] l IH]; cbn [omap list_omap length] in *; lia. Qed.

(** A search through a table visits the live probes with the string of the template. *)
Lemma table_walk r w k :
  registry_ok r ->
  exists l, chain_walk (S (length (dtrace_probes r))) (table_of r w) (dtrace_hash_lookup (str_of r w) (table_of r w) k) = Some l /\
    NoDup l /\ forall p, p ∈ l <-> live r p /\ str_of r w p = k.
Proof.
  intros H. destruct (inv_tables r [] H w) as (M & HM & Hlive). exists (chain M k).
  assert (Hin : forall p, p ∈ chain M k <-> live r p /\ str_of r w p = k).
  { intros p. rewrite Hlive. split; [|by intros [? <-]]. intros Hp. by rewrite (chain_str _ _ _ _ _ HM Hp). }
  assert (Hnd : NoDup (chain M k)).
  { unfold chain. destruct (M !! k) as [l|] eqn:Hl; [|constructor]. by apply (rep_chain _ _ M HM k l Hl). }
  split; [|done]. apply walk_rep; [done|]. assert (Hle : (length (chain M k) <= length (array r))%nat).
  { apply submseteq_length, NoDup_submseteq; [done|]. intros p [Hp _]%Hin. by apply array_live. }
  pose proof (array_length r). unfold chain in Hle. lia.
Qed.

(** The callback on the probes of a list, as long as it asks for the next one. *)
Section CallAll.
Context {A : Type} (matched : Z -> A -> Z * A).

Fixpoint call_all (l : list Z) (nmatched : Z) (a : A) : Z * A :=
  match l with
  | [] => (nmatched, a)
  | p :: l =>
      let '(rc, a) := matched p a in
      if rc =? DTRACE_MATCH_NEXT then call_all l (nmatched + 1) a
      else if rc =? DTRACE_MATCH_FAIL then (DTRACE_MATCH_FAIL, a) else (nmatched + 1, a)
  end.

Lemma call_all_next l n a :
  (forall p a, fst (matched p a) = DTRACE_MATCH_NEXT) -> fst (call_all l n a) = n + Z.of_nat (length l).
Proof.
  intros Hn. revert n a. induction l as [|p l IH]; intros n a; cbn [call_all length]; [cbn; lia|].
  specialize (Hn p a). destruct (matched p a) as [rc a']. cbn in Hn. subst rc. cbn [Z.eqb DTRACE_MATCH_NEXT]. rewrite IH. lia.
Qed.

Lemma match_loop_filter r pkp priv uid zoneid l n a :
  match_loop matched r pkp priv uid zoneid l n a = call_all (filter (fun p => matches r pkp priv uid zoneid p = true) l) n a.
Proof.
  revert n a. induction l as [|p l IH]; intros n a; [done|]. cbn [match_loop]. rewrite filter_cons.
  destruct (matches r pkp priv uid zoneid p) eqn:E; cbn [negb]; case_decide; try done. cbn [call_all].
  destruct (matched p a) as [rc a']. destruct (rc =? DTRACE_MATCH_NEXT); cbn [negb]; [apply IH|done].
Qed.
End CallAll.

(** The strings of a key. *)
Definition key_ok (pkp : dtrace_probekey_t) : Prop :=
  cstr_ok (dtpk_mod pkp) /\ cstr_ok (dtpk_func pkp) /\ cstr_ok (dtpk_name pkp).

Lemma match_string_eq s p : no_nul s -> cstr_ok p -> 0 < dtrace_match_string (Some s) p 0 -> s = default [] p.
Proof.
  intros Hs Hp. unfold dtrace_match_string. destruct p as [p|]; [|lia]. pose proof (strcmp_eq s p Hs Hp).
  destruct (Z.eqb_spec (dtrace_strcmp s p) 0); [tauto|lia].
Qed.

(** A probe that matches has the plain strings of the key. *)
Lemma matches_template r pkp priv uid zoneid w p :
  registry_ok r -> key_ok pkp -> live r p -> key_func pkp w = MatchString ->
  matches r pkp priv uid zoneid p = true -> str_of r w p = template pkp w.
Proof.
  intros H (Hkm & Hkf & Hkn) Hl Hw. unfold matches. rewrite Z.ltb_lt. unfold dtrace_match_probe. cbv zeta.
  assert (Hs : no_nul (dtpr_mod (probe_at r p)) /\ no_nul (dtpr_func (probe_at r p)) /\ no_nul (dtpr_name (probe_at r p))).
  { destruct (proj2 (inv_mem r [] H p)) as [pr Hpr]; [by left|]. unfold probe_at, probe_of. rewrite Hpr.
    by apply (inv_strings r [] H p pr). }
  destruct Hs as (Hm & Hf & Hn).
  destruct (dtpv_defunct _); [lia|]. destruct (Z.leb_spec (call_match (dtpk_pmatch pkp) (Some (dtpv_name (provider_at r (dtpr_provider (probe_at r p))))) (dtpk_prov pkp) 0) 0); [lia|].
  destruct (Z.leb_spec (call_match (dtpk_mmatch pkp) (Some (dtpr_mod (probe_at r p))) (dtpk_mod pkp) 0) 0) as [|Hmm]; [lia|].
  destruct (Z.leb_spec (call_match (dtpk_fmatch pkp) (Some (dtpr_func (probe_at r p))) (dtpk_func pkp) 0) 0) as [|Hmf]; [lia|].
  destruct (Z.leb_spec (call_match (dtpk_nmatch pkp) (Some (dtpr_name (probe_at r p))) (dtpk_name pkp) 0) 0) as [|Hmn]; [lia|].
  intros _. destruct w; cbn in Hw; rewrite Hw in *; by apply match_string_eq.
Qed.

Lemma choose_hash_string r pkp w : choose_hash r pkp = Some w -> key_func pkp w = MatchString.
Proof.
  unfold choose_hash, consider. intros Hc.
  destruct (bool_decide (key_func pkp ByMod = _)) eqn:Em, (bool_decide (key_func pkp ByFunc = _)) eqn:Ef,
    (bool_decide (key_func pkp ByName = _)) eqn:En; cbn [andb] in Hc;
    rewrite ?bool_decide_eq_true in *; repeat destruct (_ <? _); cbn in Hc; congruence.
Qed.

(** The search calls the callback on the probes that match, in some order. *)
Lemma match_search {A} (matched : Z -> A -> Z * A) r pkp priv uid zoneid a :
  registry_ok r -> key_ok pkp -> dtpk_id pkp = DTRACE_IDNONE ->
  exists l, Permutation l (filter (fun p => matches r pkp priv uid zoneid p = true) (array r)) /\
    dtrace_match matched r pkp priv uid zoneid a = Some (call_all matched l 0 a).
Proof.
  intros H Hk Hid. unfold dtrace_match. rewrite Hid. cbn [DTRACE_IDNONE Z.eqb negb].
  destruct (choose_hash r pkp) as [w|] eqn:Ec.
  - apply choose_hash_string in Ec. destruct (table_walk r w (template pkp w) H) as (l & -> & Hnd & Hin).
    eexists. rewrite match_loop_filter. split; [|done]. apply NoDup_Permutation.
    + by apply NoDup_filter.
    + apply NoDup_filter. by apply (array_nodup r []).
    + intros p. rewrite !list_elem_of_filter, Hin, array_live. split; [tauto|]. intros [Hm Hl].
      split_and!; [done|done|]. by eapply matches_template.
  - eexists. rewrite match_loop_filter. by split.
Qed.

(** * Histories *)

(** Everything that changes the registry.  The ECBs of a probe, the opens and the anonymous
    state belong to other components and may change in any way. *)
Inductive reg_step (nullop : Z) (r : registry) : registry -> Prop :=
| reg_create addr provider md func name aframes arg id r' :
    addr <> 0 -> r_probe r !! addr = None -> r_seq r < 2 ^ 31 - 1 -> cstr_ok md -> cstr_ok func -> cstr_ok name ->
    dtrace_probe_create r addr provider md func name aframes arg = Some (id, r') -> reg_step nullop r r'
| reg_condense id r' log : dtrace_condense r id = Some (r', log) -> reg_step nullop r r'
| reg_unregister old self rc r' log :
    old ∈ dtrace_provider r -> dtrace_unregister r old self = Some (rc, r', log) -> reg_step nullop r r'
| reg_unload name r' log : dtrace_module_unloaded r name = Some (r', log) -> reg_step nullop r r'
| reg_invalidate id : reg_step nullop r (dtrace_invalidate r id)
| reg_register addr name pap priv cr pops self arg idp rc r' :
    dtrace_register nullop r addr name pap priv cr pops self arg idp = (rc, r') -> reg_step nullop r r'
| reg_ecbs p ecbs :
    reg_step nullop r (Registry
      (alter (fun pr => Probe (dtpr_id pr) ecbs (dtpr_arg pr) (dtpr_predcache pr) (dtpr_aframes pr) (dtpr_provider pr)
                          (dtpr_mod pr) (dtpr_func pr) (dtpr_name pr) (dtpr_gen pr)) p (r_probe r))
      (dtrace_probes r) (dtrace_bymod r) (dtrace_byfunc r) (dtrace_byname r) (dtrace_probegen r) (r_seq r) (r_provider r)
      (dtrace_provider r) (dtrace_opens r) (r_anon_necbs r))
| reg_consumers opens anon :
    reg_step nullop r (Registry (r_probe r) (dtrace_probes r) (dtrace_bymod r) (dtrace_byfunc r) (dtrace_byname r)
      (dtrace_probegen r) (r_seq r) (r_provider r) (dtrace_provider r) opens anon).

Definition registry_init : registry :=
  Registry ∅ [] dtrace_hash_create dtrace_hash_create dtrace_hash_create 0 0 ∅ [] 0 None.

Lemma init_ok : registry_ok registry_init.
Proof.
  split; cbn; try done.
  - intros w. exists ∅. split.
    + destruct w; apply create_rep.
    + intros p. unfold live, chain. cbn. rewrite lookup_empty. cbn. by rewrite !elem_of_nil.
  - intros p. rewrite lookup_empty, elem_of_nil. unfold live. cbn. rewrite elem_of_nil. split; [by intros []|tauto].
  - intros p Hp. by apply elem_of_nil in Hp.
Qed.

Lemma unload_ok r name :
  registry_ok r ->
  exists r' log, dtrace_module_unloaded r name = Some (r', log) /\ registry_ok r' /\
    (r' = r \/ forall p, live r' p <-> live r p /\ dtpr_mod (probe_at r p) <> name).
Proof.
  intros H. unfold dtrace_module_unloaded. destruct (table_walk r ByMod name H) as (l & Hl & Hnd & Hin).
  change (str_of r ByMod) with (fun p => mod_of (r_probe r) p) in Hl. cbn [table_of] in Hl.
  change (fun p => mod_of (r_probe r) p) with (mod_of (r_probe r)) in Hl. rewrite Hl.
  destruct (existsb _ l); [by eexists _, _; split_and!; [done|done|by left]|].
  destruct (unload_loop_inv l r [] [] H) as (r1 & f & -> & H1 & Hl1 & _ & Hnd1); [by intros p [? _]%Hin|done|done|].
  destruct (destroy_probes_inv f r1 [] H1 (Hnd1 NoDup_nil_2)) as (r2 & -> & H2 & Hp2 & _).
  eexists _, _. split; [done|]. split; [done|]. right. intros p. unfold live at 1. rewrite Hp2.
  change (Some p ∈ dtrace_probes r1) with (live r1 p). rewrite Hl1, Hin.
  change (str_of r ByMod p) with (dtpr_mod (probe_at r p)). tauto.
Qed.

Lemma register_same nullop r addr name pap priv cr pops self arg idp rc r' :
  dtrace_register nullop r addr name pap priv cr pops self arg idp = (rc, r') ->
  dtrace_probes r' = dtrace_probes r /\ (forall w, table_of r' w = table_of r w) /\ r_seq r' = r_seq r /\ r_probe r' = r_probe r.
Proof.
  unfold dtrace_register. repeat case_match; intros [= <- <-]; split_and!; try done; by intros [].
Qed.

Lemma step_inv nullop r r' : reg_step nullop r r' -> registry_ok r -> registry_ok r'.
Proof.
  intros Hs H. destruct Hs as [????????? ? ? ? ? ? ? Hc|??? Hc|????? ? Hc|??? Hc|id|??????????? Hc|p ecbs|].
  - destruct (create_inv r addr provider md func name aframes arg) as (rq & Hq2 & Hok & _); try done. rewrite Hq2 in Hc. by injection Hc as _ <-.
  - destruct (condense_ok r id H) as (rq & log2 & Hq2 & Hok & _). rewrite Hq2 in Hc. by injection Hc as <- _.
  - destruct (unregister_ok r old self H) as (rc2 & rq & log2 & Hq2 & Hok & _); [done|]. rewrite Hq2 in Hc. by injection Hc as _ <- _.
  - destruct (unload_ok r name H) as (rq & log2 & Hq2 & Hok & _). rewrite Hq2 in Hc. by injection Hc as <- _.
  - by eapply inv_same; [exact H|..].
  - apply register_same in Hc as (? & ? & ? & ?). by eapply inv_same; [exact H|..].
  - eapply inv_ext; [exact H|done|done|done| |]; cbn [r_probe].
    + intros q pr'. destruct (decide (q = p)) as [->|Hq].
      * rewrite lookup_alter_eq. destruct (r_probe r !! p) as [pr|]; [|done]. intros [= <-]. by exists pr.
      * rewrite lookup_alter_ne by done. intros Hp. by exists pr'.
    + intros q. destruct (decide (q = p)) as [->|Hq].
      * rewrite lookup_alter_eq. by rewrite fmap_is_Some.
      * by rewrite lookup_alter_ne.
  - by eapply inv_same; [exact H|..].
Qed.

Lemma reachable_ok nullop r : rtc (reg_step nullop) registry_init r -> registry_ok r.
Proof.
  enough (Hg : forall r0, rtc (reg_step nullop) r0 r -> registry_ok r0 -> registry_ok r) by (intros Hr; apply (Hg _ Hr), init_ok).
  intros r0 Hs. induction Hs as [|r1 r2 r3 H12 _ IH]; intros H0; [done|]. apply IH. by eapply step_inv.
Qed.

(** ** Identifiers *)

Lemma lookup_id_spec r id p :
  0 < id -> dtrace_probe_lookup_id r id = Some p <-> dtrace_probes r !! Z.to_nat (id - 1) = Some (Some p).
Proof.
  intros Hid. unfold dtrace_probe_lookup_id. destruct (Z.eqb_spec id 0); [lia|]. cbn [orb].
  destruct (Z.ltb_spec (Z.of_nat (length (dtrace_probes r))) id).
  - rewrite lookup_ge_None_2 by lia. done.
  - rewrite zlookup_nat by lia. destruct (dtrace_probes r !! Z.to_nat (id - 1)) as [o|]; cbn; [|done].
    split; [by intros ->|by intros [= ->]].
Qed.

(** * Correctness of the registry *)


(** C12: whichever table the search picks, the callback is called on the probes the linear
    scan would find, once each: the fewest collisions decide the order, not the result; a
    callback that never stops the search makes the result their number. *)
Theorem dtrace_match_equals_scan {A} (matched : Z -> A -> Z * A) r pkp priv uid zoneid a :
  registry_ok r -> key_ok pkp -> dtpk_id pkp = DTRACE_IDNONE ->
  let found := filter (fun p => matches r pkp priv uid zoneid p = true) (array r) in
  (exists l, Permutation l found /\ dtrace_match matched r pkp priv uid zoneid a = Some (call_all matched l 0 a)) /\
  ((forall p a, fst (matched p a) = DTRACE_MATCH_NEXT) ->
   exists a', dtrace_match matched r pkp priv uid zoneid a = Some (Z.of_nat (length found), a')).
Proof.
  intros H Hk Hid found. destruct (match_search matched r pkp priv uid zoneid a H Hk Hid) as (l & Hl & Hm).
  split; [by exists l|]. intros Hn. pose proof (call_all_next matched l 0 a Hn) as Hc.
  destruct (call_all matched l 0 a) as [n a'] eqn:E. cbn in Hc. exists a'. rewrite Hm. do 2 f_equal.
  apply Permutation_length in Hl. fold found in Hl. lia.
Qed.

(** Unregistering and condensing take out what they say: a provider with an enabled
    probe stays (EBUSY, nothing changed), otherwise all its probes go; condensing removes
    exactly the probes of the provider that have no ECB. *)
Theorem dtrace_unregister_condense r old self :
  registry_ok r -> old ∈ dtrace_provider r ->
  (exists rc r' log, dtrace_unregister r old self = Some (rc, r', log) /\ registry_ok r' /\
    ((rc = EBUSY /\ r' = r) \/
     (rc = 0 /\ has_enabled r old = false /\ r_provider r' !! old = None /\
      forall p, live r' p <-> live r p /\ dtpr_provider (probe_at r p) <> old))) /\
  (exists r' log, dtrace_condense r old = Some (r', log) /\ registry_ok r' /\
    (forall p, live r' p <-> live r p /\ condensable old r p = false) /\
    (forall p, live r' p -> probe_at r' p = probe_at r p)).
Proof. intros H Ho. split; [by apply unregister_ok|by apply condense_ok]. Qed.

(** A created probe is found under its identifier with the provider's argument, and
    creation leaves the lookups of all older identifiers as they were. *)
Theorem dtrace_probe_create_lookup r addr provider md func name aframes arg :
  registry_ok r -> addr <> 0 -> r_probe r !! addr = None -> r_seq r < 2 ^ 31 - 1 ->
  cstr_ok md -> cstr_ok func -> cstr_ok name ->
  exists id r', dtrace_probe_create r addr provider md func name aframes arg = Some (id, r') /\
    dtrace_probe_lookup_id r' id = Some addr /\ dtrace_probe_arg r' provider id = arg /\
    forall id', 0 < id' -> id' <> id -> dtrace_probe_lookup_id r' id' = dtrace_probe_lookup_id r id'.
Proof.
  intros H Ha Hnew Hs Hm Hf Hn.
  destruct (create_inv r addr provider md func name aframes arg H Ha Hnew Hs Hm Hf Hn) as (r' & Hr & H' & Hseq & Hmem & Hi & _).
  exists (r_seq r + 1), r'. split; [done|]. pose proof (inv_seq r [] H) as [[H0 _] _].
  assert (Hnew' : dtrace_probe_lookup_id r' (r_seq r + 1) = Some addr).
  { apply lookup_id_spec; [lia|]. apply Hi. right. split; [f_equal; lia|done]. }
  split_and!; [done| |].
  - unfold dtrace_probe_arg. rewrite Hnew'. unfold probe_at, probe_of. rewrite Hmem, lookup_insert_eq. cbn. by rewrite Z.eqb_refl.
  - intros id' Hid Hne. apply option_eq. intros p. rewrite !lookup_id_spec, Hi by done. split; [|by left].
    intros [?|[He _]]; [done|]. lia.
Qed.

(** ** A small registry: one provider with the probes [m:f:n] and [m:g:n]. *)

Definition witness_register (r : registry) : Z * registry :=
  dtrace_register 9 r 50 (Some [112]) (Some (dtpv_attr witness_provider)) DTRACE_PRIV_USER None
    (Some (Pops (Some 1) None (Some 2) (Some 3) None None None None None (Some 4))) false 0 true.

Definition witness_create (r : registry) (addr func : Z) : option (Z * registry) :=
  dtrace_probe_create r addr 50 (Some [109]) (Some [func]) (Some [110]) 0 (addr + 1).

Definition witness_r0 : registry := snd (witness_register registry_init).
Definition witness_r1 : registry := from_option snd registry_init (witness_create witness_r0 100 102).
Definition witness_r2 : registry := from_option snd registry_init (witness_create witness_r1 200 103).

Lemma witness_no_nul c : c <> 0 -> cstr_ok (Some [c]).
Proof. intros Hc. by repeat constructor. Qed.

Lemma witness_reachable : rtc (reg_step 9) registry_init witness_r2.
Proof.
  apply (rtc_l _ _ witness_r0); [|apply (rtc_l _ _ witness_r1); [|apply (rtc_l _ _ witness_r2); [|apply rtc_refl]]].
  - by apply (reg_register 9 registry_init 50 (Some [112]) (Some (dtpv_attr witness_provider)) DTRACE_PRIV_USER None
      (Some (Pops (Some 1) None (Some 2) (Some 3) None None None None None (Some 4))) false 0 true 0).
  - apply (reg_create 9 witness_r0 100 50 (Some [109]) (Some [102]) (Some [110]) 0 101 1);
      try (apply witness_no_nul); (done || (vm_compute; reflexivity)).
  - apply (reg_create 9 witness_r1 200 50 (Some [109]) (Some [103]) (Some [110]) 0 201 2);
      try (apply witness_no_nul); (done || (vm_compute; reflexivity)).
Qed.

Lemma witness_ok : registry_ok witness_r2.
Proof. apply (reachable_ok 9), witness_reachable. Qed.


Definition witness_key : dtrace_probekey_t :=
  ProbeKey None MatchNul (Some [109]) MatchString (Some [103]) MatchString (Some [42]) MatchGlob 0.

Lemma dtrace_match_equals_scan_witness :
  choose_hash witness_r2 witness_key = Some ByFunc /\
  exists a, dtrace_match (fun p a => (DTRACE_MATCH_NEXT, p :: a)) witness_r2 witness_key DTRACE_PRIV_ALL 0 0 [] = Some (1, a).
Proof.
  split; [vm_compute; reflexivity|].
  apply (dtrace_match_equals_scan (fun p a => (DTRACE_MATCH_NEXT, p :: a)) witness_r2 witness_key DTRACE_PRIV_ALL 0 0 []).
  - exact witness_ok.
  - split_and!; by apply witness_no_nul.
  - reflexivity.
  - intros p a. reflexivity.
Defined.

Lemma dtrace_unregister_condense_witness :
  exists r' log, dtrace_condense witness_r2 50 = Some (r', log) /\ registry_ok r'.
Proof.
  destruct (dtrace_unregister_condense witness_r2 50 false) as [_ (r' & log & Hr & Hok & _)].
  - exact witness_ok.
  - by left.
  - exists r', log. by split.
Defined.

Lemma dtrace_probe_create_lookup_witness :
  exists id r', dtrace_probe_create witness_r2 300 50 None (Some [104]) None 0 301 = Some (id, r') /\
    dtrace_probe_lookup_id r' id = Some 300.
Proof.
  destruct (dtrace_probe_create_lookup witness_r2 300 50 None (Some [104]) None 0 301) as (id & r' & Hr & Hl & _);
    try (by apply witness_no_nul); try done.
  - exact witness_ok.
  - by exists id, r'.
Defined.
