(* ===== verification/Dof.v ===== *)
(** The D object format (driver/dtrace.c, "DTrace DOF Functions").

    A DOF image is the list of its bytes, of which there are [dofh_loadsz]; pointers into it
    are offsets, and every field is read at its offset.  A read outside of the image is not
    given a value: it ends the run with [Oob].  NULL and -1 results, which come with a
    message, are [Err]. *)
From S2P Require Import Prelude Dif SafeMem DifValidate DifObject Match.
From stdpp Require Import list.
#[local] Open Scope Z_scope.

(** * Reading an image *)

Inductive dres (A : Type) := Oob | Err | Ok (a : A).
Arguments Oob {A}.
Arguments Err {A}.
Arguments Ok {A} a.

Definition dbind {A B} (x : dres A) (f : A -> dres B) : dres B :=
  match x with Oob => Oob | Err => Err | Ok a => f a end.

Declare Scope dof_scope.
Delimit Scope dof_scope with dof.
Notation "'let!' x ':=' e 'in' f" := (dbind e (fun x => f))
  (at level 10, x name, e at level 200, f at level 200) : dof_scope.
Notation "'guard' b ; f" := (if (b : bool) then Err else f)
  (at level 10, b at level 100, f at level 200) : dof_scope.
#[local] Open Scope dof_scope.

(** Little-endian words. *)
Fixpoint le_word (bs : list Z) : Z := match bs with [] => 0 | b :: bs => b + 256 * le_word bs end.
Fixpoint le_bytes (n : nat) (x : Z) : list Z :=
  match n with O => [] | S n => x mod 256 :: le_bytes n (x / 256) end.

Definition in_image (dof : list Z) (off n : Z) : bool :=
  (0 <=? off) && (0 <=? n) && (off + n <=? Z.of_nat (length dof)).

Definition read_bytes (dof : list Z) (off n : Z) : dres (list Z) :=
  if in_image dof off n then Ok (take (Z.to_nat n) (drop (Z.to_nat off) dof)) else Oob.

Definition read (n : Z) (dof : list Z) (off : Z) : dres Z :=
  let! bs := read_bytes dof off n in Ok (le_word bs).

(** ** dof_hdr_t *)
Definition sizeof_hdr : Z := 64.
Definition dofh_ident (dof : list Z) (i : Z) : dres Z := read 1 dof i.
Definition dofh_flags (dof : list Z) : dres Z := read 4 dof 16.
Definition dofh_secsize (dof : list Z) : dres Z := read 4 dof 24.
Definition dofh_secnum (dof : list Z) : dres Z := read 4 dof 28.
Definition dofh_secoff (dof : list Z) : dres Z := read 8 dof 32.
Definition dofh_loadsz (dof : list Z) : dres Z := read 8 dof 40.

(** ** dof_sec_t *)
Definition sizeof_sec : Z := 32.
Definition dofs_type (dof : list Z) (sec : Z) : dres Z := read 4 dof sec.
Definition dofs_align (dof : list Z) (sec : Z) : dres Z := read 4 dof (sec + 4).
Definition dofs_flags (dof : list Z) (sec : Z) : dres Z := read 4 dof (sec + 8).
Definition dofs_entsize (dof : list Z) (sec : Z) : dres Z := read 4 dof (sec + 12).
Definition dofs_offset (dof : list Z) (sec : Z) : dres Z := read 8 dof (sec + 16).
Definition dofs_size (dof : list Z) (sec : Z) : dres Z := read 8 dof (sec + 24).

Definition DOF_SECIDX_NONE : Z := 0xffffffff.
Definition DOF_SECF_LOAD : Z := 1.
Definition DOF_SECT_NONE : Z := 0.
Definition DOF_SECT_ECBDESC : Z := 3.
Definition DOF_SECT_PROBEDESC : Z := 4.
Definition DOF_SECT_ACTDESC : Z := 5.
Definition DOF_SECT_DIFOHDR : Z := 6.
Definition DOF_SECT_DIF : Z := 7.
Definition DOF_SECT_STRTAB : Z := 8.
Definition DOF_SECT_VARTAB : Z := 9.
Definition DOF_SECT_RELTAB : Z := 10.
Definition DOF_SECT_URELHDR : Z := 12.
Definition DOF_SECT_PROVIDER : Z := 15.
Definition DOF_SECT_PROBES : Z := 16.
Definition DOF_SECT_PRARGS : Z := 17.
Definition DOF_SECT_PROFFS : Z := 18.
Definition DOF_SECT_INTTAB : Z := 19.

Definition DOF_SEC_ISLOADABLE (x : Z) : bool :=
  existsb (Z.eqb x) [3; 4; 5; 6; 7; 8; 9; 10; 11; 12; 13; 14; 15; 16; 17; 18; 19; 21; 22; 23; 24; 25; 26].

Definition IS_P2ALIGNED (v a : Z) : bool := Z.land v (a - 1) =? 0.

(** * Sections *)

(** The header of section [i]; the product is one of 32-bit words. *)
Definition sec_ptr (secoff secsize i : Z) : Z := u64 (secoff + u32 (i * secsize)).

Definition dtrace_dof_sect (dof : list Z) (type i : Z) : dres Z :=
  let! secoff := dofh_secoff dof in
  let! secsize := dofh_secsize dof in
  let sec := sec_ptr secoff secsize i in
  let! secnum := dofh_secnum dof in
  guard secnum <=? i;
  let! flags := dofs_flags dof sec in
  guard Z.land flags DOF_SECF_LOAD =? 0;
  let! t := dofs_type dof sec in
  guard negb (type =? DOF_SECT_NONE) && negb (type =? t);
  Ok sec.

(** * Probe descriptions *)

Definition sizeof_probedesc : Z := 24.

(** strncpy() from the string table: characters up to a NUL or [n] of them; those behind the NUL are not read. *)
Fixpoint read_str (n : nat) (dof : list Z) (off : Z) : dres (list Z) :=
  match n with
  | O => Ok []
  | S n =>
      let! c := read 1 dof off in
      if c =? 0 then Ok [] else let! l := read_str n dof (off + 1) in Ok (s8 c :: l)
  end.

(** One of the four strings, at [idx] in the table of [size] bytes at [str]. *)
Definition desc_string (dof : list Z) (str size idx len : Z) : dres (list Z) :=
  guard size <=? idx;
  read_str (Z.to_nat (Z.min (len - 1) (size - idx))) dof (str + idx).

Definition dtrace_dof_probedesc (dof : list Z) (sec : Z) : dres dtrace_probedesc :=
  let! type := dofs_type dof sec in
  guard negb (type =? DOF_SECT_PROBEDESC);
  let! align := dofs_align dof sec in
  guard negb (align =? 4);
  let! offset := dofs_offset dof sec in
  let! loadsz := dofh_loadsz dof in
  guard loadsz <? u64 (offset + sizeof_probedesc);
  let! si := read 4 dof offset in
  let! strtab := dtrace_dof_sect dof DOF_SECT_STRTAB si in
  let! str := dofs_offset dof strtab in
  let! size := dofs_size dof strtab in
  let! i := read 4 dof (offset + 4) in
  let! provider := desc_string dof str size i 64 in
  let! i := read 4 dof (offset + 8) in
  let! mod_ := desc_string dof str size i 64 in
  let! i := read 4 dof (offset + 12) in
  let! func := desc_string dof str size i 128 in
  let! i := read 4 dof (offset + 16) in
  let! name := desc_string dof str size i 64 in
  Ok (ProbeDesc 0 provider mod_ func name).

(** * DIF objects *)

(** The tables of a DIF object, as bytes; [None] is a NULL pointer. *)
Record difo_parts := DifoParts {
  p_dif : option (list Z); p_inttab : option (list Z); p_strtab : option (list Z); p_vartab : option (list Z)
}.

(** The rows of difo[]: type of section, entry size, alignment, and the table it fills. *)
Inductive difo_row := RowDif | RowInttab | RowStrtab | RowVartab.

Definition difo_section (t : Z) : option difo_row :=
  if t =? DOF_SECT_DIF then Some RowDif
  else if t =? DOF_SECT_INTTAB then Some RowInttab
  else if t =? DOF_SECT_STRTAB then Some RowStrtab
  else if t =? DOF_SECT_VARTAB then Some RowVartab
  else None.

Definition row_entsize (r : difo_row) : Z :=
  match r with RowDif => 4 | RowInttab => 8 | RowStrtab => 0 | RowVartab => 20 end.
Definition row_align (r : difo_row) : Z :=
  match r with RowDif => 4 | RowInttab => 8 | RowStrtab => 1 | RowVartab => 4 end.
Definition row_get (r : difo_row) (p : difo_parts) : option (list Z) :=
  match r with RowDif => p_dif p | RowInttab => p_inttab p | RowStrtab => p_strtab p | RowVartab => p_vartab p end.
Definition row_set (r : difo_row) (bs : list Z) (p : difo_parts) : difo_parts :=
  match r with
  | RowDif => DifoParts (Some bs) (p_inttab p) (p_strtab p) (p_vartab p)
  | RowInttab => DifoParts (p_dif p) (Some bs) (p_strtab p) (p_vartab p)
  | RowStrtab => DifoParts (p_dif p) (p_inttab p) (Some bs) (p_vartab p)
  | RowVartab => DifoParts (p_dif p) (p_inttab p) (p_strtab p) (Some bs)
  end.

Definition dtrace_difo_maxsize : Z := 256 * 1024.

(** One turn of the loop over dofd_links[]. *)
Definition difo_link (dof : list Z) (link : Z) (ttl : Z) (p : difo_parts) : dres (Z * difo_parts) :=
  let! subsec := dtrace_dof_sect dof DOF_SECT_NONE link in
  let! size := dofs_size dof subsec in
  guard dtrace_difo_maxsize <? u64 (ttl + size);
  let ttl := u64 (ttl + size) in
  let! type := dofs_type dof subsec in
  let! flags := dofs_flags dof subsec in
  match difo_section type with
  | Some row =>
      guard Z.land flags DOF_SECF_LOAD =? 0;
      let! align := dofs_align dof subsec in
      guard negb (align =? row_align row);
      guard match row_get row p with Some _ => true | None => false end;
      let! entsize := dofs_entsize dof subsec in
      guard negb (row_entsize row =? entsize);
      guard negb (entsize =? 0) && negb (size mod entsize =? 0);
      let! offset := dofs_offset dof subsec in
      let! bs := read_bytes dof offset size in
      Ok (ttl, row_set row bs p)
  | None => guard negb (Z.land flags DOF_SECF_LOAD =? 0); Ok (ttl, p)
  end.

Fixpoint difo_links (dof : list Z) (n : nat) (ptr : Z) (ttl : Z) (p : difo_parts) : dres difo_parts :=
  match n with
  | O => Ok p
  | S n =>
      let! link := read 4 dof ptr in
      let! r := difo_link dof link ttl p in
      let '(ttl, p) := r in
      difo_links dof n (ptr + 4) ttl p
  end.

(** The entries of a table of words of [k] bytes. *)
Fixpoint words (fuel : nat) (k : nat) (bs : list Z) : list Z :=
  match fuel with
  | O => []
  | S fuel => match bs with [] => [] | _ => le_word (take k bs) :: words fuel k (drop k bs) end
  end.

Definition decode_type (bs : list Z) : dtrace_diftype :=
  DifType (le_word (take 1 bs)) (le_word (take 1 (drop 1 bs))) (le_word (take 1 (drop 2 bs)))
    (le_word (take 4 (drop 4 bs))).

Definition decode_var (bs : list Z) : dtrace_difv :=
  DifV (le_word (take 4 bs)) (le_word (take 4 (drop 4 bs))) (le_word (take 1 (drop 8 bs))) (le_word (take 1 (drop 9 bs)))
    (le_word (take 2 (drop 10 bs))) (decode_type (drop 12 bs)).

Fixpoint decode_vars (fuel : nat) (bs : list Z) : list dtrace_difv :=
  match fuel with
  | O => []
  | S fuel => match bs with [] => [] | _ => decode_var (take 20 bs) :: decode_vars fuel (drop 20 bs) end
  end.

(** Strings whose size is not given get the default one. *)
Definition default_strsize (strsize : Z) (v : dtrace_difv) : dtrace_difv :=
  let t := dtdv_type v in
  if (dtdv_id v <? DIF_VAR_OTHER_UBASE) then v
  else if (dtdt_kind t =? 1) && (dtdt_size t =? 0) then
    DifV (dtdv_name v) (dtdv_id v) (dtdv_kind v) (dtdv_scope v) (dtdv_flags v)
      (DifType (dtdt_kind t) (dtdt_ckind t) (dtdt_flags t) strsize)
  else v.

(** The object before validation; [strtab] is the address of its copied string table. *)
Definition build_difo (strsize strtab : Z) (rtype : dtrace_diftype) (p : difo_parts) : dtrace_difo :=
  let bytes o := default [] o in
  Difo (words (length (bytes (p_dif p))) 4 (bytes (p_dif p)))
    (words (length (bytes (p_inttab p))) 8 (bytes (p_inttab p)))
    match p_strtab p with Some _ => strtab | None => 0 end (Z.of_nat (length (bytes (p_strtab p))))
    (map (default_strsize strsize) (decode_vars (length (bytes (p_vartab p))) (bytes (p_vartab p))))
    rtype 0 0.

(** The sections of a DIF object; what follows is up to the validator. *)
Definition difo_sections (dof : list Z) (sec : Z) : dres (dtrace_diftype * difo_parts) :=
  let! type := dofs_type dof sec in
  guard negb (type =? DOF_SECT_DIFOHDR);
  let! align := dofs_align dof sec in
  guard negb (align =? 4);
  let! size := dofs_size dof sec in
  guard (size <? 12) || negb (size mod 4 =? 0);
  let! offset := dofs_offset dof sec in
  let n := (size - 12) / 4 + 1 in
  let! rtype := read_bytes dof offset 8 in
  let! p := difo_links dof (Z.to_nat n) (offset + 8) 0 (DifoParts None None None None) in
  guard match p_dif p with Some _ => false | None => true end;
  Ok (decode_type rtype, p).

(** * What loading changes *)

(** The kernel's state, the virtual-time references, and dtrace_predcache_id. *)
Section Load.
Context {A : kmem} (gmax ncpu strsize_default : Z) (cr : bool) (tup : list Z).

Record dof_state := DofState { ds_k : kstate; ds_t : vtime; ds_predcache : Z }.

Definition write_bytes (a : Z) (bs : list Z) (m : mach) : mach :=
  Mach (fun x => if a <=? x then match bs !! Z.to_nat (x - a) with Some b => b | None => m_mem m x end else m_mem m x)
    (m_flags m) (m_illval m).

(** The string table is copied, the object validated and initialised.  [Oob]: an assertion
    of dtrace_difo_init() fails. *)
Definition difo_load (rtype : dtrace_diftype) (p : difo_parts) (st : dof_state) : dres (option dtrace_difo * dof_state) :=
  let k := ds_k st in
  let '(strtab, h, m) :=
    match p_strtab p with
    | Some bs => let '(a, h) := kmem_zalloc (Z.of_nat (length bs)) (k_heap k) in (a, h, write_bytes a bs (k_m k))
    | None => (0, k_heap k, k_m k)
    end in
  let k := KState (k_vs k) m h in
  let '(err, dp) := dtrace_difo_validate gmax (build_difo strsize_default strtab rtype p) (k_vs k) DIF_DIR_NREGS cr in
  if negb (err =? 0) then Ok (None, DofState k (ds_t st) (ds_predcache st))
  else
    match dtrace_difo_init ncpu strsize_default dp tup k (ds_t st) with
    | None => Oob
    | Some (dp, k, t) => Ok (Some dp, DofState k t (ds_predcache st))
    end.

(** A result that may be NULL, of a function that changes the state. *)
Definition or_null {X Y} (e : dres X) (st : dof_state) (f : X -> dres (option Y * dof_state)) : dres (option Y * dof_state) :=
  match e with Oob => Oob | Err => Ok (None, st) | Ok x => f x end.

Definition dtrace_dof_difo (dof : list Z) (sec : Z) (st : dof_state) : dres (option dtrace_difo * dof_state) :=
  or_null (difo_sections dof sec) st (fun '(rtype, p) => difo_load rtype p st).

(** [Oob]: an assertion of dtrace_difo_release() fails. *)
Definition release_difo (dp : dtrace_difo) (st : dof_state) : dres dof_state :=
  match dtrace_difo_release dp (k_vs (ds_k st)) (ds_t st) with
  | None => Oob
  | Some (_, vs, t) => Ok (DofState (KState vs (k_m (ds_k st)) (k_heap (ds_k st))) t (ds_predcache st))
  end.

(** * Predicates *)

Definition DTRACE_CACHEIDNONE : Z := 0.

Record dtrace_predicate := Predicate { dtp_difo : dtrace_difo; dtp_refcnt : Z; dtp_cacheid : Z }.

Definition dtrace_predicate_create (dp : dtrace_difo) (st : dof_state) : dres (dtrace_predicate * dof_state) :=
  if dtdo_refcnt dp =? 0 then Oob
  else if negb (dtrace_difo_cacheable (Some dp)) then Ok (Predicate dp 1 0, st)
  else if ds_predcache st =? DTRACE_CACHEIDNONE then Ok (Predicate dp 1 0, st)
  else Ok (Predicate dp 1 (ds_predcache st), DofState (ds_k st) (ds_t st) (u32 (ds_predcache st + 1))).

Definition dtrace_predicate_hold (pred : dtrace_predicate) : dres dtrace_predicate :=
  if (dtdo_refcnt (dtp_difo pred) =? 0) || (dtp_refcnt pred <=? 0) then Oob
  else Ok (Predicate (dtp_difo pred) (dtp_refcnt pred + 1) (dtp_cacheid pred)).

(** The predicate, or [None] once it has been freed. *)
Definition dtrace_predicate_release (pred : dtrace_predicate) (st : dof_state) : dres (option dtrace_predicate * dof_state) :=
  if (dtdo_refcnt (dtp_difo pred) =? 0) || (dtp_refcnt pred <=? 0) then Oob
  else if dtp_refcnt pred - 1 =? 0 then
    let! st := release_difo (dtp_difo pred) st in Ok (None, st)
  else Ok (Some (Predicate (dtp_difo pred) (dtp_refcnt pred - 1) (dtp_cacheid pred)), st).

Definition dtrace_dof_predicate (dof : list Z) (sec : Z) (st : dof_state) : dres (option dtrace_predicate * dof_state) :=
  let! r := dtrace_dof_difo dof sec st in
  match r with
  | (None, st) => Ok (None, st)
  | (Some dp, st) => let! r := dtrace_predicate_create dp st in let '(pred, st) := r in Ok (Some pred, st)
  end.

(** * Actions *)

Definition DTRACEACT_PRINTF : Z := 3.
Definition DTRACEACT_PRINTA : Z := 4.
Definition DTRACEACT_SYSTEM : Z := 0x203.
Definition DTRACEACT_FREOPEN : Z := 0x204.

Definition DTRACEACT_ISPRINTFLIKE (x : Z) : bool :=
  (x =? DTRACEACT_PRINTF) || (x =? DTRACEACT_PRINTA) || (x =? DTRACEACT_SYSTEM) || (x =? DTRACEACT_FREOPEN).

(** [dtad_arg]: a number, or the format string it points to. *)
Record dtrace_actdesc := ActDesc {
  dtad_kind : Z; dtad_ntuple : Z; dtad_uarg : Z; dtad_arg : Z + list Z; dtad_refcnt : Z;
  dtad_difo : option dtrace_difo
}.

(** [Oob]: the assertion on the argument of a printf()-like action fails. *)
Definition dtrace_actdesc_create (kind ntuple uarg : Z) (arg : Z + list Z) : dres dtrace_actdesc :=
  let ok :=
    negb (DTRACEACT_ISPRINTFLIKE kind) ||
    match arg with inr _ => true | inl a => (a =? 0) && (kind =? DTRACEACT_PRINTA) end in
  if ok then Ok (ActDesc kind ntuple uarg arg 1 None) else Oob.

Definition set_difo (act : dtrace_actdesc) (dp : option dtrace_difo) : dtrace_actdesc :=
  ActDesc (dtad_kind act) (dtad_ntuple act) (dtad_uarg act) (dtad_arg act) (dtad_refcnt act) dp.

Definition dtrace_actdesc_hold (act : dtrace_actdesc) : dres dtrace_actdesc :=
  if dtad_refcnt act <? 1 then Oob
  else Ok (ActDesc (dtad_kind act) (dtad_ntuple act) (dtad_uarg act) (dtad_arg act) (dtad_refcnt act + 1) (dtad_difo act)).

Definition dtrace_actdesc_release (act : dtrace_actdesc) (st : dof_state) : dres (option dtrace_actdesc * dof_state) :=
  if dtad_refcnt act <? 1 then Oob
  else if negb (dtad_refcnt act - 1 =? 0) then
    Ok (Some (ActDesc (dtad_kind act) (dtad_ntuple act) (dtad_uarg act) (dtad_arg act) (dtad_refcnt act - 1)
                (dtad_difo act)), st)
  else
    let! st := match dtad_difo act with Some dp => release_difo dp st | None => Ok st end in
    if DTRACEACT_ISPRINTFLIKE (dtad_kind act) &&
       match dtad_arg act with inr _ => false | inl a => negb ((a =? 0) && (dtad_kind act =? DTRACEACT_PRINTA)) end
    then Oob else Ok (None, st).

(** The loop of the error path, and of dtrace_enabling_destroy(). *)
Fixpoint release_actions (acts : list dtrace_actdesc) (st : dof_state) : dres dof_state :=
  match acts with
  | [] => Ok st
  | act :: acts => let! r := dtrace_actdesc_release act st in let '(_, st) := r in release_actions acts st
  end.

(** The bytes of a format string, without the NUL; [Err]: there is none. *)
Fixpoint scan_nul (n : nat) (dof : list Z) (off : Z) : dres (list Z) :=
  match n with
  | O => Err
  | S n =>
      let! c := read 1 dof off in
      if c =? 0 then Ok [] else let! l := scan_nul n dof (off + 1) in Ok (c :: l)
  end.

(** The format string of the action at [off]. *)
Definition format_string (dof : list Z) (strtab off : Z) : dres (list Z) :=
  let! s := dtrace_dof_sect dof DOF_SECT_STRTAB strtab in
  let! str := dofs_offset dof s in
  let! arg := read 8 dof (off + 16) in
  let! size := dofs_size dof s in
  let! fmt := scan_nul (Z.to_nat (size - arg)) dof (str + arg) in
  match fmt with [] => Err | _ => Ok fmt end.

Definition sizeof_actdesc : Z := 32.
Definition dtrace_actions_max : Z := 16 * 1024.

(** The argument of an action. *)
Definition action_arg (dof : list Z) (kind off : Z) : dres (Z + list Z) :=
  let! strtab := read 4 dof (off + 4) in
  if DTRACEACT_ISPRINTFLIKE kind && (negb (kind =? DTRACEACT_PRINTA) || negb (strtab =? DOF_SECIDX_NONE)) then
    let! fmt := format_string dof strtab off in Ok (inr fmt)
  else if kind =? DTRACEACT_PRINTA then Ok (inl 0)
  else let! arg := read 8 dof (off + 16) in Ok (inl arg).

(** The DIF object of an action, if it has one. *)
Definition action_difo (dof : list Z) (difo : Z) (st : dof_state) : dres (option (option dtrace_difo) * dof_state) :=
  if difo =? DOF_SECIDX_NONE then Ok (Some None, st)
  else
    or_null (dtrace_dof_sect dof DOF_SECT_DIFOHDR difo) st (fun sec =>
      let! r := dtrace_dof_difo dof sec st in
      match r with (Some dp, st) => Ok (Some (Some dp), st) | (None, st) => Ok (None, st) end).

(** One action, at [off]: its description, which the list has even if its DIF object could
    not be had ([false]). *)
Definition dof_action (dof : list Z) (off : Z) (st : dof_state)
    : dres (option (dtrace_actdesc * bool) * dof_state) :=
  let! kind := read 4 dof (off + 8) in
  let kind := u16 kind in
  or_null (action_arg dof kind off) st (fun arg =>
    let! ntuple := read 4 dof (off + 12) in
    let! uarg := read 8 dof (off + 24) in
    let! act := dtrace_actdesc_create kind ntuple uarg arg in
    let! difo := read 4 dof off in
    let! r := action_difo dof difo st in
    match r with
    | (Some d, st) => Ok (Some (set_difo act d, true), st)
    | (None, st) => Ok (Some (act, false), st)
    end).

(** The loop over the section; [acts] are the actions so far.  The code takes the entry size
    in steps until the size is reached, which [fuel] outlasts. *)
Fixpoint dof_actions (fuel : nat) (dof : list Z) (offset size entsize offs : Z) (acts : list dtrace_actdesc) (st : dof_state)
    : dres (option (list dtrace_actdesc) * dof_state) :=
  if size <=? offs then Ok (Some acts, st)
  else
    match fuel with
    | O => Oob
    | S fuel =>
        let! r := dof_action dof (offset + offs) st in
        match r with
        | (Some (act, true), st) => dof_actions fuel dof offset size entsize (offs + entsize) (acts ++ [act]) st
        | (Some (act, false), st) => let! st := release_actions (acts ++ [act]) st in Ok (None, st)
        | (None, st) => let! st := release_actions acts st in Ok (None, st)
        end
    end.

(** The checks of dtrace_dof_actdesc(). *)
Definition actdesc_header (dof : list Z) (sec : Z) : dres (Z * Z * Z) :=
  let! type := dofs_type dof sec in
  guard negb (type =? DOF_SECT_ACTDESC);
  let! offset := dofs_offset dof sec in
  let! loadsz := dofh_loadsz dof in
  guard loadsz <? u64 (offset + sizeof_actdesc);
  let! align := dofs_align dof sec in
  guard negb (align =? 8);
  let! size := dofs_size dof sec in
  let! entsize := dofs_entsize dof sec in
  guard size <? entsize;
  guard negb (entsize =? sizeof_actdesc);
  guard dtrace_actions_max <? size / entsize;
  Ok (offset, size, entsize).

Definition dtrace_dof_actdesc (dof : list Z) (sec : Z) (st : dof_state) : dres (option (list dtrace_actdesc) * dof_state) :=
  or_null (actdesc_header dof sec) st (fun '(offset, size, entsize) =>
    dof_actions (Z.to_nat size) dof offset size entsize 0 [] st).

(** * ECB descriptions *)

Definition sizeof_ecbdesc : Z := 24.

Record dtrace_ecbdesc := EcbDesc {
  dted_action : list dtrace_actdesc;
  dted_pred : option dtrace_predicate;
  dted_probe : dtrace_probedesc;
  dted_uarg : Z
}.

Definition release_pred (pred : option dtrace_predicate) (st : dof_state) : dres dof_state :=
  match pred with
  | Some pred => let! r := dtrace_predicate_release pred st in let '(_, st) := r in Ok st
  | None => Ok st
  end.

(** The probe, and the section indices of the predicate and the actions. *)
Definition ecbdesc_header (dof : list Z) (sec : Z) : dres (dtrace_probedesc * Z * Z * Z) :=
  let! size := dofs_size dof sec in
  guard size <? sizeof_ecbdesc;
  let! align := dofs_align dof sec in
  guard negb (align =? 8);
  let! ecb := dofs_offset dof sec in
  let! probes := read 4 dof ecb in
  let! sec := dtrace_dof_sect dof DOF_SECT_PROBEDESC probes in
  let! uarg := read 8 dof (ecb + 16) in
  let! desc := dtrace_dof_probedesc dof sec in
  let! pred := read 4 dof (ecb + 4) in
  let! actions := read 4 dof (ecb + 8) in
  Ok (desc, pred, actions, uarg).

Definition ecb_pred (dof : list Z) (idx : Z) (st : dof_state) : dres (option (option dtrace_predicate) * dof_state) :=
  if idx =? DOF_SECIDX_NONE then Ok (Some None, st)
  else
    or_null (dtrace_dof_sect dof DOF_SECT_DIFOHDR idx) st (fun sec =>
      let! r := dtrace_dof_predicate dof sec st in
      match r with (Some p, st) => Ok (Some (Some p), st) | (None, st) => Ok (None, st) end).

Definition ecb_actions (dof : list Z) (idx : Z) (st : dof_state) : dres (option (list dtrace_actdesc) * dof_state) :=
  if idx =? DOF_SECIDX_NONE then Ok (Some [], st)
  else or_null (dtrace_dof_sect dof DOF_SECT_ACTDESC idx) st (fun sec => dtrace_dof_actdesc dof sec st).

Definition dtrace_dof_ecbdesc (dof : list Z) (sec : Z) (st : dof_state) : dres (option dtrace_ecbdesc * dof_state) :=
  or_null (ecbdesc_header dof sec) st (fun '(desc, pidx, aidx, uarg) =>
    let! r := ecb_pred dof pidx st in
    match r with
    | (None, st) => Ok (None, st)
    | (Some pred, st) =>
        let! r := ecb_actions dof aidx st in
        match r with
        | (Some acts, st) => Ok (Some (EcbDesc acts pred desc uarg), st)
        | (None, st) => let! st := release_pred pred st in Ok (None, st)
        end
    end).

(** * Enablings *)

(** dtrace_enabling_destroy() of an enabling that is not retained. *)
Fixpoint dtrace_enabling_destroy (descs : list dtrace_ecbdesc) (st : dof_state) : dres dof_state :=
  match descs with
  | [] => Ok st
  | ep :: descs =>
      let! st := release_pred (dted_pred ep) st in
      let! st := release_actions (dted_action ep) st in
      dtrace_enabling_destroy descs st
  end.
End Load.

(** * Relocation *)

(** A word is replaced in the image. *)
Definition write8 (dof : list Z) (off x : Z) : dres (list Z) :=
  if in_image dof off 8 then
    Ok (take (Z.to_nat off) dof ++ le_bytes 8 x ++ drop (Z.to_nat (off + 8)) dof)
  else Oob.

Definition sizeof_relodesc : Z := 24.
Definition DOF_RELO_NONE : Z := 0.
Definition DOF_RELO_SETX : Z := 1.

(** [daddr] is the address of the image: the test of alignment is one of the address. *)
Section Relocate.
Context (daddr ubase : Z).

(** One entry, at [r], for the section [ts]. *)
Definition relocate_one (dof : list Z) (ts r : Z) : dres (list Z) :=
  let! toff := dofs_offset dof ts in
  let! roff := read 8 dof (r + 8) in
  let taddr := u64 (toff + roff) in
  let! type := read 4 dof (r + 4) in
  if type =? DOF_RELO_NONE then Ok dof
  else if type =? DOF_RELO_SETX then
    let! tsize := dofs_size dof ts in
    guard (tsize <=? roff) || (tsize <? u64 (roff + 8));
    guard negb (IS_P2ALIGNED (u64 (daddr + taddr)) 8);
    let! x := read 8 dof taddr in
    write8 dof taddr (u64 (x + ubase))
  else Err.

Fixpoint relocate_loop (n : nat) (dof : list Z) (rs ts r : Z) : dres (list Z) :=
  match n with
  | O => Ok dof
  | S n =>
      let! dof := relocate_one dof ts r in
      let! entsize := dofs_entsize dof rs in
      relocate_loop n dof rs ts (u64 (r + entsize))
  end.

(** The first of the three sections that is refused ends it; the code looks at them together. *)
Definition dtrace_dof_relocate (dof : list Z) (sec : Z) : dres (list Z) :=
  let! dofr := dofs_offset dof sec in
  let! size := dofs_size dof sec in
  guard size <? 12;
  let! align := dofs_align dof sec in
  guard negb (align =? 4);
  let! i := read 4 dof dofr in
  let! ss := dtrace_dof_sect dof DOF_SECT_STRTAB i in
  let! i := read 4 dof (dofr + 4) in
  let! rs := dtrace_dof_sect dof DOF_SECT_RELTAB i in
  let! i := read 4 dof (dofr + 8) in
  let! ts := dtrace_dof_sect dof DOF_SECT_NONE i in
  let! entsize := dofs_entsize dof rs in
  guard entsize <? sizeof_relodesc;
  let! align := dofs_align dof rs in
  guard negb (align =? 8);
  let! r := dofs_offset dof rs in
  let! rsize := dofs_size dof rs in
  relocate_loop (Z.to_nat (u32 (rsize / entsize))) dof rs ts r.
End Relocate.

(** * Loading an image *)

Definition DOF_ID_SIZE : Z := 16.
Definition DIF_VERSION_2 : Z := 2.
Definition DOF_MODEL_ILP32 : Z := 1.
Definition DOF_MODEL_LP64 : Z := 2.
Definition DOF_ENCODE_NATIVE : Z := 1.
Definition DOF_VERSION_1 : Z := 1.
Definition DOF_VERSION_2 : Z := 2.
Definition DOF_FL_VALID : Z := 0.

(** The padding bytes of the identification. *)
Fixpoint ident_pad (dof : list Z) (n : nat) (i : Z) : dres unit :=
  match n with
  | O => Ok tt
  | S n => let! b := dofh_ident dof i in guard negb (b =? 0); ident_pad dof n (i + 1)
  end.

(** The checks of dtrace_dof_slurp() up to the sections. *)
Definition slurp_header (dof : list Z) : dres unit :=
  let! mag := read_bytes dof 0 4 in
  guard negb (bool_decide (mag = [127; 68; 79; 70]));
  let! model := dofh_ident dof 4 in
  guard negb (model =? DOF_MODEL_ILP32) && negb (model =? DOF_MODEL_LP64);
  let! enc := dofh_ident dof 5 in
  guard negb (enc =? DOF_ENCODE_NATIVE);
  let! vers := dofh_ident dof 6 in
  guard negb (vers =? DOF_VERSION_1) && negb (vers =? DOF_VERSION_2);
  let! difvers := dofh_ident dof 7 in
  guard negb (difvers =? DIF_VERSION_2);
  let! ireg := dofh_ident dof 8 in
  guard DIF_DIR_NREGS <? ireg;
  let! treg := dofh_ident dof 9 in
  guard DIF_DTR_NREGS <? treg;
  let! _pad := ident_pad dof 6 10 in
  let! flags := dofh_flags dof in
  guard negb (Z.land flags (u32 (Z.lnot DOF_FL_VALID)) =? 0);
  let! secsize := dofh_secsize dof in
  guard secsize =? 0;
  let! secnum := dofh_secnum dof in
  let! secoff := dofh_secoff dof in
  let! len := dofh_loadsz dof in
  let seclen := u64 (secnum * secsize) in
  guard (len <? secoff) || (len <? seclen) || (len <? u64 (secoff + seclen));
  guard negb (IS_P2ALIGNED secoff 8);
  guard negb (IS_P2ALIGNED secsize 8);
  Ok tt.

(** The first pass: one section header. *)
Definition check_sec (noprobes : bool) (dof : list Z) (sec : Z) : dres unit :=
  let! type := dofs_type dof sec in
  guard noprobes && existsb (Z.eqb type) [DOF_SECT_PROVIDER; DOF_SECT_PROBES; DOF_SECT_PRARGS; DOF_SECT_PROFFS];
  let! flags := dofs_flags dof sec in
  guard DOF_SEC_ISLOADABLE type && (Z.land flags DOF_SECF_LOAD =? 0);
  if Z.land flags DOF_SECF_LOAD =? 0 then Ok tt
  else
    let! align := dofs_align dof sec in
    guard negb (Z.land align (u32 (align - 1)) =? 0);
    let! offset := dofs_offset dof sec in
    guard negb (Z.land offset (u32 (align - 1)) =? 0);
    let! size := dofs_size dof sec in
    let! len := dofh_loadsz dof in
    guard (len <? offset) || (len <? size) || (len <? u64 (offset + size));
    if type =? DOF_SECT_STRTAB then
      let! c := read 1 dof (u64 (offset + size - 1)) in
      guard negb (c =? 0); Ok tt
    else Ok tt.

(** The address of the header of section [i] in the passes. *)
Definition nth_sec (dof : list Z) (i : Z) : dres Z :=
  let! secoff := dofh_secoff dof in
  let! secsize := dofh_secsize dof in
  Ok (sec_ptr secoff secsize i).

Fixpoint check_secs (noprobes : bool) (dof : list Z) (n : nat) (i : Z) : dres unit :=
  match n with
  | O => Ok tt
  | S n =>
      let! sec := nth_sec dof i in
      let! _u := check_sec noprobes dof sec in
      check_secs noprobes dof n (i + 1)
  end.

(** The second pass applies the relocations, which change the image. *)
Fixpoint relocate_secs (daddr ubase : Z) (dof : list Z) (n : nat) (i : Z) : dres (list Z) :=
  match n with
  | O => Ok dof
  | S n =>
      let! sec := nth_sec dof i in
      let! flags := dofs_flags dof sec in
      let! dof :=
        if Z.land flags DOF_SECF_LOAD =? 0 then Ok dof
        else
          let! type := dofs_type dof sec in
          if type =? DOF_SECT_URELHDR then dtrace_dof_relocate daddr ubase dof sec else Ok dof in
      relocate_secs daddr ubase dof n (i + 1)
  end.

Section Slurp.
Context {A : kmem} (gmax ncpu strsize_default : Z) (cr : bool) (tup : list Z).

(** The third pass: the ECB descriptions join the enabling. *)
Fixpoint ecb_secs (dof : list Z) (n : nat) (i : Z) (enab : list dtrace_ecbdesc) (st : dof_state)
    : dres (option (list dtrace_ecbdesc) * dof_state) :=
  match n with
  | O => Ok (Some enab, st)
  | S n =>
      let! sec := nth_sec dof i in
      let! type := dofs_type dof sec in
      if negb (type =? DOF_SECT_ECBDESC) then ecb_secs dof n (i + 1) enab st
      else
        let! r := dtrace_dof_ecbdesc gmax ncpu strsize_default cr tup dof sec st in
        match r with
        | (Some ep, st) => ecb_secs dof n (i + 1) (enab ++ [ep]) st
        | (None, st) => let! st := dtrace_enabling_destroy enab st in Ok (None, st)
        end
  end.

(** The new enabling, or [None] if the image is refused.  [enab] is the enabling it joins. *)
Definition dtrace_dof_slurp (daddr : Z) (dof : list Z) (enab : list dtrace_ecbdesc) (ubase : Z) (noprobes : bool)
    (st : dof_state) : dres (option (list dtrace_ecbdesc) * dof_state) :=
  or_null (slurp_header dof) st (fun _ =>
    let! secnum := dofh_secnum dof in
    let n := Z.to_nat secnum in
    or_null (check_secs noprobes dof n 0) st (fun _ =>
      or_null (relocate_secs daddr ubase dof n 0) st (fun dof => ecb_secs dof n 0 enab st))).
End Slurp.

(** * Copying an image in *)

Definition EFAULT : Z := 14.
Definition E2BIG : Z := 7.
Definition EINVAL : Z := 22.
Definition dtrace_dof_maxsize : Z := 256 * 1024.

(** copyin() of the header and of the whole image: [None] is a fault.  The process may
    change its memory in between.  An error number, or the image. *)
Definition dtrace_dof_copyin (copyin1 : option (list Z)) (copyin2 : Z -> option (list Z)) : Z + list Z :=
  match copyin1 with
  | None => inl EFAULT
  | Some hdr =>
      match dofh_loadsz hdr with
      | Ok loadsz =>
          if dtrace_dof_maxsize <=? loadsz then inl E2BIG
          else if loadsz <? sizeof_hdr then inl EINVAL
          else
            match copyin2 loadsz with
            | None => inl EFAULT
            | Some dof =>
                match dofh_loadsz dof with
                | Ok l => if negb (l =? loadsz) then inl EFAULT else inr dof
                | _ => inl EFAULT
                end
            end
      | _ => inl EFAULT
      end
  end.

(** * Safety of the loader *)

(** No access outside of the image, and no failing assertion; [Q] of the result. *)
Definition safe {A} (x : dres A) (Q : A -> Prop) : Prop :=
  match x with Oob => False | Err => True | Ok a => Q a end.

Lemma safe_bind {A B} (x : dres A) (f : A -> dres B) (P : A -> Prop) Q :
  safe x P -> (forall a, P a -> safe (f a) Q) -> safe (dbind x f) Q.
Proof. destruct x; cbn; auto. Qed.

Lemma safe_guard {A} (b : bool) (x : dres A) Q : (b = false -> safe x Q) -> safe (if b then Err else x) Q.
Proof. destruct b; cbn; auto. Qed.

Lemma safe_weaken {A} (x : dres A) (P Q : A -> Prop) : safe x P -> (forall a, P a -> Q a) -> safe x Q.
Proof. destruct x; cbn; auto. Qed.

Lemma safe_Ok {A} (a : A) (Q : A -> Prop) : Q a -> safe (Ok a) Q.
Proof. done. Qed.

(** ** Reads *)

Definition bytes (l : list Z) : Prop := Forall (fun b => 0 <= b < 256) l.

Lemma le_word_range l : bytes l -> 0 <= le_word l < 256 ^ Z.of_nat (length l).
Proof.
  induction l as [|b l IH]; intros Hl; cbn [le_word length]; [lia|].
  unfold bytes in *. apply Forall_cons_1 in Hl as [Hb Hl]. specialize (IH Hl).
  rewrite Nat2Z.inj_succ, Z.pow_succ_r by lia. lia.
Qed.

(** The word of [n] bytes at [off]. *)
Definition fld (n : Z) (dof : list Z) (off : Z) : Z := le_word (take (Z.to_nat n) (drop (Z.to_nat off) dof)).

Lemma fld_range n dof off : bytes dof -> 0 <= fld n dof off < 256 ^ Z.max 0 n.
Proof.
  intros Hb. unfold fld. set (l := take _ _). assert (Hl : bytes l) by (unfold bytes, l; apply Forall_take; by apply Forall_drop).
  pose proof (le_word_range l Hl) as Hr. split; [lia|]. eapply Z.lt_le_trans; [apply Hr|]. apply Z.pow_le_mono_r; [lia|].
  unfold l. rewrite length_take. lia.
Qed.

Lemma read_bytes_ok dof off n : 0 <= off -> 0 <= n -> off + n <= Z.of_nat (length dof) ->
  read_bytes dof off n = Ok (take (Z.to_nat n) (drop (Z.to_nat off) dof)).
Proof.
  intros Ho Hn Hl. unfold read_bytes, in_image. destruct (Z.leb_spec 0 off), (Z.leb_spec 0 n), (Z.leb_spec (off + n) (Z.of_nat (length dof)));
    cbn; (done || lia).
Qed.

Lemma read_ok n dof off : 0 <= off -> 0 <= n -> off + n <= Z.of_nat (length dof) -> read n dof off = Ok (fld n dof off).
Proof. intros. unfold read. by rewrite read_bytes_ok. Qed.

Lemma safe_read n dof off Q : 0 <= off -> 0 <= n -> off + n <= Z.of_nat (length dof) -> Q (fld n dof off) -> safe (read n dof off) Q.
Proof. intros. by rewrite read_ok. Qed.

(** ** The image *)

Definition h_secsize dof := fld 4 dof 24.
Definition h_secnum dof := fld 4 dof 28.
Definition h_secoff dof := fld 8 dof 32.

Definition sec_at (dof : list Z) (i : Z) : Z := h_secoff dof + i * h_secsize dof.
Definition s_type dof sec := fld 4 dof sec.
Definition s_align dof sec := fld 4 dof (sec + 4).
Definition s_flags dof sec := fld 4 dof (sec + 8).
Definition s_entsize dof sec := fld 4 dof (sec + 12).
Definition s_offset dof sec := fld 8 dof (sec + 16).
Definition s_size dof sec := fld 8 dof (sec + 24).

(** What the code takes for granted of an image from dtrace_dof_copyin(): its length is its
    load size, section headers are not shorter than a dof_sec_t, string tables and DIF text
    are not empty, and action sections hold whole actions. *)
Record image_ok (dof : list Z) : Prop := {
  img_bytes : bytes dof;
  img_len : sizeof_hdr <= Z.of_nat (length dof) < dtrace_dof_maxsize;
  img_loadsz : fld 8 dof 40 = Z.of_nat (length dof);
  img_secsize : sizeof_sec <= h_secsize dof;
  img_strtab : forall i, 0 <= i < h_secnum dof -> s_type dof (sec_at dof i) = DOF_SECT_STRTAB -> s_size dof (sec_at dof i) <> 0;
  img_dif : forall i, 0 <= i < h_secnum dof -> s_type dof (sec_at dof i) = DOF_SECT_DIF -> s_size dof (sec_at dof i) <> 0;
  img_act : forall i, 0 <= i < h_secnum dof -> s_type dof (sec_at dof i) = DOF_SECT_ACTDESC ->
    s_size dof (sec_at dof i) mod sizeof_actdesc = 0
}.

(** What the header check establishes: the section headers lie in the image. *)
Definition headers_in (dof : list Z) : Prop := h_secoff dof + h_secnum dof * h_secsize dof <= Z.of_nat (length dof).

(** A loadable section lies in the image. *)
Definition sec_in (dof : list Z) (sec : Z) : Prop :=
  Z.land (s_flags dof sec) DOF_SECF_LOAD <> 0 -> s_offset dof sec + s_size dof sec <= Z.of_nat (length dof).

Section Image.
Context (dof : list Z) (Himg : image_ok dof).

Lemma len_bounds : 64 <= Z.of_nat (length dof) < 262144.
Proof. apply (img_len dof Himg). Qed.

Lemma fld4 off : 0 <= fld 4 dof off < 2 ^ 32.
Proof. exact (fld_range 4 dof off (img_bytes dof Himg)). Qed.

Lemma fld8 off : 0 <= fld 8 dof off < 2 ^ 64.
Proof. exact (fld_range 8 dof off (img_bytes dof Himg)). Qed.

Lemma hdr_read n off Q : 0 <= off -> 0 <= n -> off + n <= 64 -> Q (fld n dof off) -> safe (read n dof off) Q.
Proof. intros. pose proof len_bounds. apply safe_read; (done || lia). Qed.

Section Headers.
Context (Hhdr : headers_in dof).

(** The header of a section is where the code looks for it, and inside. *)
Lemma sec_ptr_at i : 0 <= i < h_secnum dof ->
  sec_ptr (h_secoff dof) (h_secsize dof) i = sec_at dof i /\ 0 <= sec_at dof i /\
  sec_at dof i + 32 <= Z.of_nat (length dof).
Proof.
  intros Hi. pose proof len_bounds. pose proof (fld4 24). pose proof (fld4 28). pose proof (fld8 32).
  pose proof (img_secsize dof Himg) as Hss. unfold headers_in, sec_at, sizeof_sec, h_secoff, h_secsize, h_secnum in *.
  assert (i * fld 4 dof 24 + fld 4 dof 24 <= fld 4 dof 28 * fld 4 dof 24) by nia.
  assert (0 <= i * fld 4 dof 24) by nia. unfold sec_ptr, u32, u64. rewrite (Z.mod_small (i * _)) by lia.
  rewrite Z.mod_small by lia. lia.
Qed.

Lemma sec_read i n k Q : 0 <= i < h_secnum dof -> 0 <= k -> 0 <= n -> k + n <= 32 -> Q (fld n dof (sec_at dof i + k)) ->
  safe (read n dof (sec_at dof i + k)) Q.
Proof. intros Hi. intros. destruct (sec_ptr_at i Hi) as (_ & ? & ?). apply safe_read; (done || lia). Qed.

Lemma sec_read0 i n Q : 0 <= i < h_secnum dof -> 0 <= n <= 32 -> Q (fld n dof (sec_at dof i)) ->
  safe (read n dof (sec_at dof i)) Q.
Proof. intros Hi. intros. destruct (sec_ptr_at i Hi) as (_ & ? & ?). apply safe_read; (done || lia). Qed.

(** dtrace_dof_sect() gives the header of a loadable section of the wanted type. *)
Lemma dof_sect_safe type i Q :
  0 <= i ->
  (0 <= i < h_secnum dof -> Z.land (s_flags dof (sec_at dof i)) DOF_SECF_LOAD <> 0 ->
   (type <> DOF_SECT_NONE -> s_type dof (sec_at dof i) = type) -> Q (sec_at dof i)) ->
  safe (dtrace_dof_sect dof type i) Q.
Proof.
  intros Hi HQ. unfold dtrace_dof_sect.
  eapply safe_bind; [apply (hdr_read 8 32 (fun x => x = h_secoff dof)); (lia || done)|]. intros ? ->.
  eapply safe_bind; [apply (hdr_read 4 24 (fun x => x = h_secsize dof)); (lia || done)|]. intros ? ->. cbv zeta.
  eapply safe_bind; [apply (hdr_read 4 28 (fun x => x = h_secnum dof)); (lia || done)|]. intros ? ->.
  apply safe_guard. intros Hlt%Z.leb_gt. assert (Hr : 0 <= i < h_secnum dof) by lia. destruct (sec_ptr_at i Hr) as (-> & _ & _).
  eapply safe_bind; [apply (sec_read i 4 8 (fun x => x = s_flags dof (sec_at dof i))); (lia || done)|]. intros ? ->.
  apply safe_guard. intros Hf%Z.eqb_neq.
  eapply safe_bind; [apply (sec_read0 i 4 (fun x => x = s_type dof (sec_at dof i))); (lia || done)|]. intros ? ->.
  apply safe_guard. intros Ht. apply HQ; [done|done|]. intros Hn. destruct (Z.eqb_spec type DOF_SECT_NONE); [done|].
  cbn in Ht. destruct (Z.eqb_spec type (s_type dof (sec_at dof i))); [done|done].
Qed.
End Headers.

(** ** The header and the first pass *)

Lemma ident_pad_safe n i Q : 0 <= i -> i + Z.of_nat n <= 16 -> Q tt -> safe (ident_pad dof n i) Q.
Proof.
  revert i. induction n as [|n IH]; intros i Hi Hn HQ; cbn [ident_pad]; [done|].
  eapply safe_bind; [apply (hdr_read 1 i (fun _ => True)); (lia || done)|]. intros b _. apply safe_guard. intros _. apply IH; (lia || done).
Qed.

Lemma slurp_header_safe : safe (slurp_header dof) (fun _ => headers_in dof).
Proof.
  unfold slurp_header. rewrite read_bytes_ok by (pose proof len_bounds; lia). cbn [dbind]. apply safe_guard. intros _.
  do 6 (eapply safe_bind; [apply (hdr_read 1 _ (fun _ => True)); (lia || done)|]; intros ? _; apply safe_guard; intros _).
  eapply safe_bind; [by apply (ident_pad_safe 6 10 (fun _ => True))|]. intros _ _.
  eapply safe_bind; [apply (hdr_read 4 16 (fun _ => True)); (lia || done)|]. intros ? _. apply safe_guard. intros _.
  eapply safe_bind; [apply (hdr_read 4 24 (fun x => x = h_secsize dof)); (lia || done)|]. intros ? ->. apply safe_guard. intros _.
  eapply safe_bind; [apply (hdr_read 4 28 (fun x => x = h_secnum dof)); (lia || done)|]. intros ? ->.
  eapply safe_bind; [apply (hdr_read 8 32 (fun x => x = h_secoff dof)); (lia || done)|]. intros ? ->.
  eapply safe_bind; [apply (hdr_read 8 40 (fun x => x = fld 8 dof 40)); (lia || done)|]. intros ? ->. cbv zeta.
  apply safe_guard. intros Hg. apply safe_guard. intros _. apply safe_guard. intros _. apply safe_Ok.
  rewrite (img_loadsz dof Himg) in Hg. rewrite !orb_false_iff, !Z.ltb_ge in Hg. destruct Hg as [[Ho Hs] Hsum].
  pose proof len_bounds. pose proof (fld4 24). pose proof (fld4 28). pose proof (fld8 32).
  unfold headers_in, h_secoff, h_secsize, h_secnum in *. unfold u64 in Hs, Hsum.
  rewrite (Z.mod_small (fld 4 dof 28 * fld 4 dof 24)) in Hs, Hsum by nia. rewrite Z.mod_small in Hsum by nia. lia.
Qed.

Lemma check_sec_safe noprobes i :
  headers_in dof -> 0 <= i < h_secnum dof -> safe (check_sec noprobes dof (sec_at dof i)) (fun _ =>
    sec_in dof (sec_at dof i) /\
    (DOF_SEC_ISLOADABLE (s_type dof (sec_at dof i)) = true -> Z.land (s_flags dof (sec_at dof i)) DOF_SECF_LOAD <> 0)).
Proof.
  intros Hh Hi. unfold check_sec, sec_in.
  eapply safe_bind; [apply (sec_read0 Hh i 4 (fun x => x = s_type dof (sec_at dof i))); (lia || done)|]. intros ? ->.
  apply safe_guard. intros _.
  eapply safe_bind; [apply (sec_read Hh i 4 8 (fun x => x = s_flags dof (sec_at dof i))); (lia || done)|]. intros ? ->.
  apply safe_guard. intros Hl.
  destruct (Z.eqb_spec (Z.land (s_flags dof (sec_at dof i)) DOF_SECF_LOAD) 0) as [E|E].
  { apply safe_Ok. rewrite andb_true_r in Hl. split; [done|congruence]. }
  eapply safe_bind; [apply (sec_read Hh i 4 4 (fun _ => True)); (lia || done)|]. intros align _. apply safe_guard. intros _.
  eapply safe_bind; [apply (sec_read Hh i 8 16 (fun x => x = s_offset dof (sec_at dof i))); (lia || done)|]. intros ? ->.
  apply safe_guard. intros _.
  eapply safe_bind; [apply (sec_read Hh i 8 24 (fun x => x = s_size dof (sec_at dof i))); (lia || done)|]. intros ? ->.
  eapply safe_bind; [apply (hdr_read 8 40 (fun x => x = fld 8 dof 40)); (lia || done)|]. intros ? ->.
  apply safe_guard. rewrite (img_loadsz dof Himg), !orb_false_iff, !Z.ltb_ge. intros [[Ho Hs] Hsum].
  pose proof len_bounds. pose proof (fld8 (sec_at dof i + 16)). pose proof (fld8 (sec_at dof i + 24)).
  assert (Hin : s_offset dof (sec_at dof i) + s_size dof (sec_at dof i) <= Z.of_nat (length dof)).
  { unfold s_offset, s_size, u64 in *. rewrite Z.mod_small in Hsum by lia. lia. }
  destruct (Z.eqb_spec (s_type dof (sec_at dof i)) DOF_SECT_STRTAB) as [Et|_]; [|by apply safe_Ok].
  pose proof (img_strtab dof Himg i Hi Et) as Hz. unfold s_offset, s_size in *.
  eapply safe_bind; [apply (safe_read _ _ _ (fun _ => True)); try done; unfold u64; rewrite Z.mod_small; lia|].
  intros c _. apply safe_guard. intros _. by apply safe_Ok.
Qed.
End Image.

(** All sections have passed. *)
Record secs_in (dof : list Z) : Prop := {
  si_headers : headers_in dof;
  si_sec : forall i, 0 <= i < h_secnum dof -> sec_in dof (sec_at dof i);
  si_load : forall i, 0 <= i < h_secnum dof -> DOF_SEC_ISLOADABLE (s_type dof (sec_at dof i)) = true ->
    Z.land (s_flags dof (sec_at dof i)) DOF_SECF_LOAD <> 0
}.

Section Passes.
Context (dof : list Z) (Himg : image_ok dof).

Lemma nth_sec_safe i Q : headers_in dof -> 0 <= i < h_secnum dof -> Q (sec_at dof i) -> safe (nth_sec dof i) Q.
Proof.
  intros Hh Hi HQ. unfold nth_sec.
  eapply safe_bind; [apply (hdr_read dof Himg 8 32 (fun x => x = h_secoff dof)); (lia || done)|]. intros ? ->.
  eapply safe_bind; [apply (hdr_read dof Himg 4 24 (fun x => x = h_secsize dof)); (lia || done)|]. intros ? ->.
  apply safe_Ok. destruct (sec_ptr_at dof Himg Hh i Hi) as (-> & _). done.
Qed.

Lemma check_secs_safe noprobes n i :
  headers_in dof -> 0 <= i -> i + Z.of_nat n = h_secnum dof ->
  safe (check_secs noprobes dof n i) (fun _ => forall j, i <= j < h_secnum dof ->
    sec_in dof (sec_at dof j) /\
    (DOF_SEC_ISLOADABLE (s_type dof (sec_at dof j)) = true -> Z.land (s_flags dof (sec_at dof j)) DOF_SECF_LOAD <> 0)).
Proof.
  intros Hh. revert i. induction n as [|n IH]; intros i Hi Hn; cbn [check_secs]; [apply safe_Ok; intros; lia|].
  eapply safe_bind; [apply (nth_sec_safe i (fun x => x = sec_at dof i)); (lia || done)|]. intros ? ->.
  eapply safe_bind; [apply check_sec_safe; (done || lia)|]. intros [] Hs1.
  eapply safe_weaken; [apply IH; lia|]. intros [] Hrest j Hj. destruct (decide (j = i)) as [->|]; [done|]. apply Hrest. lia.
Qed.

Lemma check_all_safe noprobes :
  headers_in dof -> safe (check_secs noprobes dof (Z.to_nat (h_secnum dof)) 0) (fun _ => secs_in dof).
Proof.
  intros Hh. pose proof (fld4 dof Himg 28) as Hr. eapply safe_weaken; [apply check_secs_safe; unfold h_secnum; (done || lia)|].
  intros [] Hall. split; [done| |]; intros i Hi; apply Hall; lia.
Qed.

Context (Hsec : secs_in dof).
#[local] Abbreviation sec i := (sec_at dof i).

(** A loadable section in numbers. *)
Lemma sec_bounds i : 0 <= i < h_secnum dof -> Z.land (s_flags dof (sec i)) DOF_SECF_LOAD <> 0 ->
  0 <= s_offset dof (sec i) /\ 0 <= s_size dof (sec i) /\ s_offset dof (sec i) + s_size dof (sec i) <= Z.of_nat (length dof).
Proof.
  intros Hi Hf. pose proof (si_sec dof Hsec i Hi Hf). pose proof (fld8 dof Himg (sec i + 16)). pose proof (fld8 dof Himg (sec i + 24)).
  unfold s_offset, s_size in *. lia.
Qed.

(** ** Relocation by nothing *)

Lemma le_bytes_word l : bytes l -> le_bytes (length l) (le_word l) = l.
Proof.
  induction l as [|b l IH]; intros Hl; [done|]. unfold bytes in *. apply Forall_cons_1 in Hl as [Hb Hl]. cbn [length le_bytes le_word].
  f_equal; [lia|]. replace ((b + 256 * le_word l) / 256) with (le_word l) by lia. by apply IH.
Qed.

Lemma write8_same off : 0 <= off -> off + 8 <= Z.of_nat (length dof) -> write8 dof off (fld 8 dof off) = Ok dof.
Proof.
  intros Ho Hl. unfold write8, in_image. destruct (Z.leb_spec 0 off), (Z.leb_spec (off + 8) (Z.of_nat (length dof))); try lia.
  cbn [Z.leb Z.compare andb]. f_equal. unfold fld. set (w := take (Z.to_nat 8) (drop (Z.to_nat off) dof)).
  assert (Hw : length w = 8%nat) by (unfold w; rewrite length_take, length_drop; lia).
  rewrite <- Hw, le_bytes_word by (unfold bytes, w; apply Forall_take; apply Forall_drop; apply (img_bytes dof Himg)).
  transitivity (take (Z.to_nat off) dof ++ drop (Z.to_nat off) dof); [|apply take_drop]. f_equal. unfold w.
  replace (Z.to_nat (off + 8)) with (Z.to_nat off + Z.to_nat 8)%nat by lia. rewrite <- drop_drop. apply take_drop.
Qed.

Lemma relocate_one_same daddr ts r :
  0 <= ts < h_secnum dof -> Z.land (s_flags dof (sec ts)) DOF_SECF_LOAD <> 0 -> 0 <= r -> r + 24 <= Z.of_nat (length dof) ->
  safe (relocate_one daddr 0 dof (sec ts) r) (fun dof' => dof' = dof).
Proof.
  intros Hts Hf Hr Hrl. destruct (sec_bounds ts Hts Hf) as (Ho & Hs & Hin). pose proof (si_headers dof Hsec) as Hh.
  pose proof (len_bounds dof Himg). unfold relocate_one.
  eapply safe_bind; [apply (sec_read dof Himg Hh ts 8 16 (fun x => x = s_offset dof (sec ts))); (lia || done)|]. intros ? ->.
  eapply safe_bind; [apply (safe_read 8 dof (r + 8) (fun x => x = fld 8 dof (r + 8))); (lia || done)|]. intros ? ->. cbv zeta.
  eapply safe_bind; [apply (safe_read 4 dof (r + 4) (fun x => True)); (lia || done)|]. intros type _.
  destruct (type =? DOF_RELO_NONE); [done|]. destruct (type =? DOF_RELO_SETX); [|done].
  eapply safe_bind; [apply (sec_read dof Himg Hh ts 8 24 (fun x => x = s_size dof (sec ts))); (lia || done)|]. intros ? ->.
  apply safe_guard. rewrite orb_false_iff, Z.leb_gt, Z.ltb_ge. intros [Hlt Hle]. apply safe_guard. intros _.
  pose proof (fld8 dof Himg (r + 8)) as Hroff. unfold u64 in Hle. rewrite Z.mod_small in Hle by lia.
  assert (Ht : u64 (s_offset dof (sec ts) + fld 8 dof (r + 8)) = s_offset dof (sec ts) + fld 8 dof (r + 8))
    by (unfold u64; rewrite Z.mod_small; lia).
  rewrite Ht. rewrite read_ok by lia. cbn [dbind]. rewrite Z.add_0_r.
  pose proof (fld8 dof Himg (s_offset dof (sec ts) + fld 8 dof (r + 8))). unfold u64. rewrite Z.mod_small by lia.
  rewrite write8_same by lia. done.
Qed.

Lemma relocate_loop_same daddr n rs ts r :
  0 <= rs < h_secnum dof -> 0 <= ts < h_secnum dof -> Z.land (s_flags dof (sec ts)) DOF_SECF_LOAD <> 0 ->
  24 <= s_entsize dof (sec rs) -> 0 <= r -> r + Z.of_nat n * s_entsize dof (sec rs) <= Z.of_nat (length dof) ->
  safe (relocate_loop daddr 0 n dof (sec rs) (sec ts) r) (fun dof' => dof' = dof).
Proof.
  intros Hrs Hts Hf Hent. revert r. induction n as [|n IH]; intros r Hr Hn; cbn [relocate_loop]; [done|].
  pose proof (len_bounds dof Himg). eapply safe_bind; [apply relocate_one_same; (done || nia)|]. intros ? ->.
  eapply safe_bind; [apply (sec_read dof Himg (si_headers dof Hsec) rs 4 12 (fun x => x = s_entsize dof (sec rs))); (lia || done)|]. intros ? ->.
  assert (Hu : u64 (r + s_entsize dof (sec rs)) = r + s_entsize dof (sec rs)).
  { unfold u64. rewrite Z.mod_small; [done|]. nia. }
  rewrite Hu. apply IH; nia.
Qed.

Lemma dof_relocate_same daddr i :
  0 <= i < h_secnum dof -> Z.land (s_flags dof (sec i)) DOF_SECF_LOAD <> 0 ->
  safe (dtrace_dof_relocate daddr 0 dof (sec i)) (fun dof' => dof' = dof).
Proof.
  intros Hi Hf. pose proof (si_headers dof Hsec) as Hh. destruct (sec_bounds i Hi Hf) as (Ho & Hs & Hin). unfold dtrace_dof_relocate.
  eapply safe_bind; [apply (sec_read dof Himg Hh i 8 16 (fun x => x = s_offset dof (sec i))); (lia || done)|]. intros ? ->.
  eapply safe_bind; [apply (sec_read dof Himg Hh i 8 24 (fun x => x = s_size dof (sec i))); (lia || done)|]. intros ? ->.
  apply safe_guard. intros Hsz%Z.ltb_ge.
  eapply safe_bind; [apply (sec_read dof Himg Hh i 4 4 (fun _ => True)); (lia || done)|]. intros align _. apply safe_guard. intros _.
  eapply safe_bind; [apply (safe_read 4 dof (s_offset dof (sec i)) (fun x => 0 <= x)); try lia; apply (fld4 dof Himg)|]. intros i1 H1.
  eapply safe_bind; [apply (dof_sect_safe dof Himg Hh DOF_SECT_STRTAB i1 (fun _ => True)); done|]. intros _ _.
  eapply safe_bind; [apply (safe_read 4 dof (s_offset dof (sec i) + 4) (fun x => 0 <= x)); try lia; apply (fld4 dof Himg)|]. intros rs Hrs.
  eapply safe_bind; [apply (dof_sect_safe dof Himg Hh DOF_SECT_RELTAB rs (fun x => x = sec rs /\ 0 <= rs < h_secnum dof /\
    Z.land (s_flags dof (sec rs)) DOF_SECF_LOAD <> 0)); [done|]; intros; done|]. intros ? (-> & Hrsn & Hrsf).
  eapply safe_bind; [apply (safe_read 4 dof (s_offset dof (sec i) + 8) (fun x => 0 <= x)); try lia; apply (fld4 dof Himg)|]. intros ts Hts.
  eapply safe_bind; [apply (dof_sect_safe dof Himg Hh DOF_SECT_NONE ts (fun x => x = sec ts /\ 0 <= ts < h_secnum dof /\
    Z.land (s_flags dof (sec ts)) DOF_SECF_LOAD <> 0)); [done|]; intros; done|]. intros ? (-> & Htsn & Htsf).
  eapply safe_bind; [apply (sec_read dof Himg Hh rs 4 12 (fun x => x = s_entsize dof (sec rs))); (lia || done)|]. intros ? ->.
  apply safe_guard. intros Hent%Z.ltb_ge.
  eapply safe_bind; [apply (sec_read dof Himg Hh rs 4 4 (fun _ => True)); (lia || done)|]. intros align2 _. apply safe_guard. intros _.
  eapply safe_bind; [apply (sec_read dof Himg Hh rs 8 16 (fun x => x = s_offset dof (sec rs))); (lia || done)|]. intros ? ->.
  eapply safe_bind; [apply (sec_read dof Himg Hh rs 8 24 (fun x => x = s_size dof (sec rs))); (lia || done)|]. intros ? ->.
  destruct (sec_bounds rs Hrsn Hrsf) as (Hro & Hrz & Hrin). pose proof (len_bounds dof Himg). unfold sizeof_relodesc in Hent.
  pose proof (Z.mul_div_le (s_size dof (sec rs)) (s_entsize dof (sec rs))).
  pose proof (Z.div_pos (s_size dof (sec rs)) (s_entsize dof (sec rs))).
  apply relocate_loop_same; try done; try lia.
  unfold u32. rewrite Z.mod_small by nia. rewrite Z2Nat.id by lia. nia.
Qed.

Lemma relocate_secs_same daddr n i :
  0 <= i -> i + Z.of_nat n = h_secnum dof -> safe (relocate_secs daddr 0 dof n i) (fun dof' => dof' = dof).
Proof.
  revert i. induction n as [|n IH]; intros i Hi Hn; cbn [relocate_secs]; [done|]. pose proof (si_headers dof Hsec) as Hh.
  eapply safe_bind; [apply (nth_sec_safe i (fun x => x = sec i)); (lia || done)|]. intros ? ->.
  eapply safe_bind; [apply (sec_read dof Himg Hh i 4 8 (fun x => x = s_flags dof (sec i))); (lia || done)|]. intros ? ->.
  eapply (safe_bind _ _ (fun d => d = dof)); [|intros ? ->; apply IH; lia].
  destruct (Z.eqb_spec (Z.land (s_flags dof (sec i)) DOF_SECF_LOAD) 0) as [|Hf]; [done|].
  eapply safe_bind; [apply (sec_read0 dof Himg Hh i 4 (fun _ => True)); (lia || done)|]. intros type _.
  destruct (type =? DOF_SECT_URELHDR); [|done]. apply dof_relocate_same; (done || lia).
Qed.
End Passes.

(** ** Strings and tables *)

Section Strings.
Context (dof : list Z) (Himg : image_ok dof) (Hsec : secs_in dof).
#[local] Abbreviation sec i := (sec_at dof i).
#[local] Abbreviation loaded i := (0 <= i < h_secnum dof /\ Z.land (s_flags dof (sec_at dof i)) DOF_SECF_LOAD <> 0).

Lemma read_str_safe n off : 0 <= off -> off + Z.of_nat n <= Z.of_nat (length dof) -> safe (read_str n dof off) (fun _ => True).
Proof.
  revert off. induction n as [|n IH]; intros off Ho Hn; cbn [read_str]; [done|].
  eapply safe_bind; [apply (safe_read 1 dof off (fun _ => True)); (lia || done)|]. intros c _. destruct (c =? 0); [done|].
  eapply safe_bind; [apply IH; lia|]. by intros.
Qed.

Lemma scan_nul_safe n off : 0 <= off -> off + Z.of_nat n <= Z.of_nat (length dof) -> safe (scan_nul n dof off) (fun _ => True).
Proof.
  revert off. induction n as [|n IH]; intros off Ho Hn; cbn [scan_nul]; [done|].
  eapply safe_bind; [apply (safe_read 1 dof off (fun _ => True)); (lia || done)|]. intros c _. destruct (c =? 0); [done|].
  eapply safe_bind; [apply IH; lia|]. by intros.
Qed.

(** A section found by its index. *)
Lemma sect_loaded type i : 0 <= i ->
  safe (dtrace_dof_sect dof type i) (fun x => x = sec i /\ loaded i /\ (type <> DOF_SECT_NONE -> s_type dof (sec i) = type)).
Proof. intros Hi. apply (dof_sect_safe dof Himg (si_headers dof Hsec)); [done|]. intros; done. Qed.

Lemma desc_string_safe i idx len :
  loaded i -> 0 <= idx -> 0 < len ->
  safe (desc_string dof (s_offset dof (sec i)) (s_size dof (sec i)) idx len) (fun _ => True).
Proof.
  intros [Hi Hf] Hx Hl. destruct (sec_bounds dof Himg Hsec i Hi Hf) as (Ho & Hs & Hin). unfold desc_string.
  apply safe_guard. intros Hlt%Z.leb_gt. apply read_str_safe; lia.
Qed.

(** Reads of fixed fields in a loaded section. *)
Lemma data_read i n k : loaded i -> 0 <= k -> 0 <= n -> k + n <= s_size dof (sec i) ->
  safe (read n dof (s_offset dof (sec i) + k)) (fun x => x = fld n dof (s_offset dof (sec i) + k) /\ 0 <= x).
Proof.
  intros [Hi Hf] Hk Hn Hs. destruct (sec_bounds dof Himg Hsec i Hi Hf) as (Ho & _ & Hin).
  apply safe_read; try lia. split; [done|]. apply (fld_range n dof _ (img_bytes dof Himg)).
Qed.

Lemma probedesc_safe i : loaded i -> safe (dtrace_dof_probedesc dof (sec i)) (fun _ => True).
Proof.
  intros [Hi Hf]. pose proof (si_headers dof Hsec) as Hh. unfold dtrace_dof_probedesc.
  destruct (sec_bounds dof Himg Hsec i Hi Hf) as (Ho & Hs & Hin). pose proof (len_bounds dof Himg).
  eapply safe_bind; [apply (sec_read0 dof Himg Hh i 4 (fun _ => True)); (lia || done)|]. intros type _. apply safe_guard. intros _.
  eapply safe_bind; [apply (sec_read dof Himg Hh i 4 4 (fun _ => True)); (lia || done)|]. intros align _. apply safe_guard. intros _.
  eapply safe_bind; [apply (sec_read dof Himg Hh i 8 16 (fun x => x = s_offset dof (sec i))); (lia || done)|]. intros ? ->.
  eapply safe_bind; [apply (hdr_read dof Himg 8 40 (fun x => x = Z.of_nat (length dof))); try lia; apply (img_loadsz dof Himg)|].
  intros ? ->. apply safe_guard. intros Hle%Z.ltb_ge. unfold u64, sizeof_probedesc in Hle. rewrite Z.mod_small in Hle by lia.
  set (o := s_offset dof (sec i)) in *.
  assert (Hrd : forall k, 0 <= k <= 20 -> safe (read 4 dof (o + k)) (fun x => 0 <= x)).
  { intros k Hk. apply safe_read; try lia. apply (fld4 dof Himg). }
  eapply safe_bind; [rewrite <- (Z.add_0_r o); apply Hrd; lia|]. intros si Hsi.
  eapply safe_bind; [by apply sect_loaded|]. intros s (-> & Hld & _).
  eapply safe_bind; [apply (sec_read dof Himg Hh si 8 16 (fun x => x = s_offset dof (sec si))); (lia || done || tauto)|]. intros ? ->.
  eapply safe_bind; [apply (sec_read dof Himg Hh si 8 24 (fun x => x = s_size dof (sec si))); (lia || done || tauto)|]. intros ? ->.
  do 4 (eapply safe_bind; [apply Hrd; lia|]; intros ? ?; eapply safe_bind; [apply desc_string_safe; (done || lia)|]; intros ? _).
  done.
Qed.

Lemma format_string_safe strtab off :
  0 <= strtab -> 0 <= off -> off + 24 <= Z.of_nat (length dof) -> safe (format_string dof strtab off) (fun _ => True).
Proof.
  intros Hst Ho Hl. pose proof (si_headers dof Hsec) as Hh. unfold format_string.
  eapply safe_bind; [by apply sect_loaded|]. intros s (-> & [Hi Hf] & _). destruct (sec_bounds dof Himg Hsec strtab Hi Hf) as (Hso & Hs & Hin).
  eapply safe_bind; [apply (sec_read dof Himg Hh strtab 8 16 (fun x => x = s_offset dof (sec strtab))); (lia || done)|]. intros ? ->.
  eapply safe_bind; [apply (safe_read 8 dof (off + 16) (fun x => 0 <= x)); try lia; apply (fld8 dof Himg)|]. intros arg Harg. cbv beta in Harg.
  eapply safe_bind; [apply (sec_read dof Himg Hh strtab 8 24 (fun x => x = s_size dof (sec strtab))); (lia || done)|]. intros ? ->.
  eapply (safe_bind _ _ (fun _ => True)); [|intros [|c l] _; done].
  destruct (decide (arg <= s_size dof (sec strtab))); [apply scan_nul_safe; lia|].
  replace (Z.to_nat _) with O by lia. done.
Qed.

(** ** The sections of a DIF object *)

(** DIF text is never empty. *)
Definition parts_ok (p : difo_parts) : Prop :=
  (forall l, p_dif p = Some l -> l <> [] /\ bytes l) /\ (forall l, p_vartab p = Some l -> bytes l).

Lemma difo_link_safe link ttl p :
  0 <= link -> 0 <= ttl -> parts_ok p -> safe (difo_link dof link ttl p) (fun '(t, p) => 0 <= t /\ parts_ok p).
Proof.
  intros Hk Ht Hp. pose proof (si_headers dof Hsec) as Hh. unfold difo_link.
  eapply safe_bind; [by apply sect_loaded|]. intros s (-> & [Hi Hf] & _). destruct (sec_bounds dof Himg Hsec link Hi Hf) as (Ho & Hs & Hin).
  eapply safe_bind; [apply (sec_read dof Himg Hh link 8 24 (fun x => x = s_size dof (sec link))); (lia || done)|]. intros ? ->.
  apply safe_guard. intros _. cbv zeta.
  eapply safe_bind; [apply (sec_read0 dof Himg Hh link 4 (fun x => x = s_type dof (sec link))); (lia || done)|]. intros ? ->.
  eapply safe_bind; [apply (sec_read dof Himg Hh link 4 8 (fun _ => True)); (lia || done)|]. intros flags _.
  assert (Hu : 0 <= u64 (ttl + s_size dof (sec link))) by apply u64_range.
  destruct (difo_section (s_type dof (sec link))) as [row|] eqn:Erow; [|apply safe_guard; intros _; done].
  apply safe_guard. intros _.
  eapply safe_bind; [apply (sec_read dof Himg Hh link 4 4 (fun _ => True)); (lia || done)|]. intros align _. do 2 (apply safe_guard; intros _).
  eapply safe_bind; [apply (sec_read dof Himg Hh link 4 12 (fun _ => True)); (lia || done)|]. intros entsize _. do 2 (apply safe_guard; intros _).
  eapply safe_bind; [apply (sec_read dof Himg Hh link 8 16 (fun x => x = s_offset dof (sec link))); (lia || done)|]. intros ? ->.
  rewrite read_bytes_ok by lia. cbn [dbind]. apply safe_Ok. split; [done|].
  set (bs := take _ _). assert (Hb : bytes bs) by (unfold bytes, bs; apply Forall_take; apply Forall_drop; apply (img_bytes dof Himg)).
  destruct Hp as [Hpd Hpv]. split.
  - destruct row; cbn; try (by apply Hpd). intros l [= <-]. split; [|done].
    assert (Hdif : s_type dof (sec link) = DOF_SECT_DIF).
    { unfold difo_section in Erow. destruct (Z.eqb_spec (s_type dof (sec link)) DOF_SECT_DIF); [done|]. by repeat case_match. }
    pose proof (img_dif dof Himg link Hi Hdif) as Hz. intros Hnil. apply (f_equal length) in Hnil. unfold bs in Hnil.
    rewrite length_take, length_drop in Hnil. cbn in Hnil. lia.
  - destruct row; cbn; try (by apply Hpv). by intros l [= <-].
Qed.

Lemma difo_links_safe n ptr ttl p :
  0 <= ptr -> ptr + 4 * Z.of_nat n <= Z.of_nat (length dof) -> 0 <= ttl -> parts_ok p ->
  safe (difo_links dof n ptr ttl p) parts_ok.
Proof.
  revert ptr ttl p. induction n as [|n IH]; intros ptr ttl p Hp Hn Ht Hok; cbn [difo_links]; [done|].
  eapply safe_bind; [apply (safe_read 4 dof ptr (fun x => 0 <= x)); try lia; apply (fld4 dof Himg)|]. intros link Hl.
  eapply safe_bind; [by apply difo_link_safe|]. intros [t q] [Hq Hqo]. apply IH; (done || lia).
Qed.

Lemma difo_sections_safe i :
  loaded i -> safe (difo_sections dof (sec i)) (fun '(rt, p) => parts_ok p /\ p_dif p <> None).
Proof.
  intros [Hi Hf]. pose proof (si_headers dof Hsec) as Hh. destruct (sec_bounds dof Himg Hsec i Hi Hf) as (Ho & Hs & Hin). unfold difo_sections.
  eapply safe_bind; [apply (sec_read0 dof Himg Hh i 4 (fun _ => True)); (lia || done)|]. intros type _. apply safe_guard. intros _.
  eapply safe_bind; [apply (sec_read dof Himg Hh i 4 4 (fun _ => True)); (lia || done)|]. intros align _. apply safe_guard. intros _.
  eapply safe_bind; [apply (sec_read dof Himg Hh i 8 24 (fun x => x = s_size dof (sec i))); (lia || done)|]. intros ? ->.
  apply safe_guard. rewrite orb_false_iff, Z.ltb_ge, negb_false_iff, Z.eqb_eq. intros [Hge Hmod].
  eapply safe_bind; [apply (sec_read dof Himg Hh i 8 16 (fun x => x = s_offset dof (sec i))); (lia || done)|]. intros ? ->. cbv zeta.
  rewrite read_bytes_ok by lia. cbn [dbind].
  eapply safe_bind; [apply difo_links_safe; [lia| |lia|]|].
  - rewrite Z2Nat.id by lia. lia.
  - split; by intros l.
  - intros p Hp. apply safe_guard. destruct (p_dif p) as [l|] eqn:Ep; [|done]. intros _. split; [exact Hp|congruence].
Qed.
End Strings.

(** ** The state of the kernel *)

(** What the live objects account for. *)
Definition refs_of (scope : Z) (n : nat) (live : list dtrace_difo) : Z :=
  foldr (fun dp s => count scope n (dtdo_vartab dp) + s) 0 live.
Definition vrefs_of (live : list dtrace_difo) : Z := foldr (fun dp s => vtime_refs (dtdo_vartab dp) + s) 0 live.

Definition obj_ok (dp : dtrace_difo) : Prop := dtdo_refcnt dp = 1 /\ Forall var_shape (dtdo_vartab dp).

Lemma refs_of_cons scope n dp l : refs_of scope n (dp :: l) = count scope n (dtdo_vartab dp) + refs_of scope n l.
Proof. done. Qed.

Lemma vrefs_of_cons dp l : vrefs_of (dp :: l) = vtime_refs (dtdo_vartab dp) + vrefs_of l.
Proof. done. Qed.

Lemma refs_of_perm scope n l l' : Permutation l l' -> refs_of scope n l = refs_of scope n l'.
Proof. unfold refs_of. induction 1; cbn; lia. Qed.

Lemma vrefs_of_perm l l' : Permutation l l' -> vrefs_of l = vrefs_of l'.
Proof. unfold vrefs_of. induction 1; cbn; lia. Qed.

Lemma refs_of_nonneg scope n l : 0 <= refs_of scope n l.
Proof. unfold refs_of. induction l as [|dp l IH]; cbn; [lia|]. pose proof (count_nonneg scope n (dtdo_vartab dp)). lia. Qed.

Lemma vrefs_of_nonneg l : 0 <= vrefs_of l.
Proof. unfold vrefs_of. induction l as [|dp l IH]; cbn; [lia|]. pose proof (vtime_refs_nonneg (dtdo_vartab dp)). lia. Qed.

(** The functions that change the state always return. *)
Definition total {A} (x : dres A) (Q : A -> Prop) : Prop := match x with Ok a => Q a | _ => False end.

Lemma total_bind {A B} (x : dres A) (f : A -> dres B) (P : A -> Prop) Q :
  total x P -> (forall a, P a -> total (f a) Q) -> total (dbind x f) Q.
Proof. destruct x; cbn; auto. Qed.

Lemma total_weaken {A} (x : dres A) (P Q : A -> Prop) : total x P -> (forall a, P a -> Q a) -> total x Q.
Proof. destruct x; cbn; auto. Qed.

Lemma total_read n dof off Q : 0 <= off -> 0 <= n -> off + n <= Z.of_nat (length dof) -> Q (fld n dof off) -> total (read n dof off) Q.
Proof. intros. by rewrite read_ok. Qed.

Section State.
Context {A : kmem} {HA : kmem_ok A} (gmax ncpu ssd : Z) (cr : bool) (tup : list Z).
Context (Hcpu : 0 < ncpu <= 2 ^ 20) (Htup : length tup = 10%nat) (Hss : 0 <= ssd < 2 ^ 32).
Context (B : Z -> nat -> Z) (bt : Z).

(** [live] are the objects loaded so far: over the base counts [B] and [bt], exactly their
    variables are referenced. *)
Record state_ok (st : dof_state) (live : list dtrace_difo) : Prop := {
  so_wf : vstate_wf ncpu (k_vs (ds_k st));
  so_refs : forall scope n, is_static scope -> refs scope (k_vs (ds_k st)) n = B scope n + refs_of scope n live;
  so_base : forall scope n, is_static scope -> 0 <= B scope n;
  so_vtime : (ds_t st).1 = bt + vrefs_of live;
  so_bt : 0 <= bt;
  so_objs : Forall obj_ok live
}.

Lemma state_perm st l l' : Permutation l l' -> state_ok st l -> state_ok st l'.
Proof.
  intros Hp [H1 H2 H3 H4 H5 H6]. split; try done.
  - intros scope n Hs. by rewrite <- (refs_of_perm scope n l l' Hp), H2.
  - by rewrite <- (vrefs_of_perm l l' Hp).
  - by rewrite <- Hp.
Qed.

Lemma release_difo_ok dp st live : state_ok st (dp :: live) -> total (release_difo dp st) (fun st' => state_ok st' live).
Proof.
  intros [H1 H2 H3 H4 H5 [[Hrc Hsh] H6]%Forall_cons_1]. unfold release_difo.
  destruct (difo_release_spec ncpu dp (k_vs (ds_k st)) (ds_t st)) as (vs' & t' & -> & Hwf & Hr & Ht); try done.
  - intros scope n Hs. rewrite H2, refs_of_cons by done. pose proof (refs_of_nonneg scope n live). specialize (H3 scope n Hs). lia.
  - rewrite H4, vrefs_of_cons. pose proof (vrefs_of_nonneg live). lia.
  - cbn [total safe]. split; cbn [ds_k ds_t k_vs]; try done.
    + intros scope n Hs. rewrite Hr, H2, refs_of_cons by done. lia.
    + rewrite Ht, H4, vrefs_of_cons. lia.
Qed.

Lemma decode_vars_size fuel bs : bytes bs -> Forall (fun v => 0 <= dtdt_size (dtdv_type v) < 2 ^ 32) (decode_vars fuel bs).
Proof.
  revert bs. induction fuel as [|fuel IH]; intros bs Hb; cbn [decode_vars]; [constructor|]. destruct bs as [|b bs]; [constructor|].
  apply Forall_cons_2.
  - cbn [decode_var decode_type dtdt_size dtdv_type]. set (l := take 4 _).
    assert (Hl : bytes l) by (unfold bytes, l; apply Forall_take; do 2 apply Forall_drop; by apply Forall_take).
    pose proof (le_word_range l Hl) as Hr. split; [lia|]. eapply Z.lt_le_trans; [apply Hr|].
    change (2 ^ 32) with (256 ^ 4). apply Z.pow_le_mono_r; [lia|]. unfold l. rewrite length_take. lia.
  - apply IH. by apply Forall_drop.
Qed.

Lemma build_difo_size strtab rtype p : parts_ok p ->
  Forall (fun v => 0 <= dtdt_size (dtdv_type v) < 2 ^ 32) (dtdo_vartab (build_difo ssd strtab rtype p)).
Proof.
  intros [_ Hv]. cbn [build_difo dtdo_vartab]. apply Forall_map. destruct (p_vartab p) as [bs|] eqn:E; [|constructor].
  cbn [default from_option id]. eapply Forall_impl; [apply decode_vars_size, Hv; done|]. intros v Hs. unfold default_strsize. cbv zeta.
  destruct (dtdv_id v <? DIF_VAR_OTHER_UBASE); [done|]. destruct (_ && _); [|done]. exact Hss.
Qed.

Lemma build_difo_text strtab rtype p : parts_ok p -> p_dif p <> None -> dtdo_buf (build_difo ssd strtab rtype p) <> [].
Proof.
  intros [Hd _] Hn. cbn [build_difo dtdo_buf]. destruct (p_dif p) as [bs|]; [|done]. destruct (Hd bs eq_refl) as [Hb _].
  destruct bs; [done|]. by cbn.
Qed.

Definition loads {X} (f : X -> list dtrace_difo) (live : list dtrace_difo) (r : option X * dof_state) : Prop :=
  match r.1 with Some x => state_ok r.2 (f x ++ live) | None => state_ok r.2 live end.

Lemma difo_load_ok rtype p st live :
  parts_ok p -> p_dif p <> None -> state_ok st live ->
  total (difo_load gmax ncpu ssd cr tup rtype p st) (loads (fun dp => [dp]) live).
Proof.
  intros Hp Hd [H1 H2 H3 H4 H5 H6]. unfold difo_load. cbv zeta. set (alloc := match p_strtab p with Some _ => _ | None => _ end).
  destruct alloc as [[strtab h] m]. set (k := KState _ m h). set (dp0 := build_difo _ _ _ _).
  destruct (dtrace_difo_validate gmax dp0 (k_vs k) DIF_DIR_NREGS cr) as [err dp] eqn:Ev.
  destruct (Z.eqb_spec err 0) as [->|]; cbn [negb]; [|by cbn].
  pose proof (difo_validate_exact gmax dp0 (k_vs k) DIF_DIR_NREGS cr) as Hx. rewrite Ev in Hx. destruct Hx as [_ Hout]. specialize (Hout eq_refl).
  destruct (validated_shape _ _ _ _ _ _ Ev (build_difo_size strtab rtype p Hp)) as [Ht Hsh].
  destruct (difo_init_spec ncpu ssd dp tup k (ds_t st) DIF_DIR_NREGS) as (k' & t' & -> & Hwf & _ & _ & Hr & _ & Hv); try done.
  { rewrite Hout. cbn [dtdo_buf]. intros Hm%map_eq_nil. by apply (build_difo_text strtab rtype p Hp Hd). }
  unfold loads. cbn [total safe fst snd app]. split; cbn [ds_k ds_t]; try done.
  - intros scope n Hs. rewrite Hr by done. change (k_vs k) with (k_vs (ds_k st)). rewrite H2, refs_of_cons by done. cbn. lia.
  - rewrite Hv, H4, vrefs_of_cons. cbn. lia.
  - apply Forall_cons_2; [|done]. split; [|done]. rewrite Hout. done.
Qed.

(** A refused step leaves the state. *)
Lemma or_null_safe {X Y} (e : dres X) st (f : X -> dres (option Y * dof_state)) (P : X -> Prop) (g : Y -> list dtrace_difo) live :
  safe e P -> state_ok st live -> (forall x, P x -> total (f x) (loads g live)) -> total (or_null e st f) (loads g live).
Proof. destruct e as [| |x]; cbn; auto. Qed.

Definition act_difos (acts : list dtrace_actdesc) : list dtrace_difo := omap dtad_difo acts.

Definition act_ok (act : dtrace_actdesc) : Prop :=
  dtad_refcnt act = 1 /\
  (DTRACEACT_ISPRINTFLIKE (dtad_kind act) = true ->
   match dtad_arg act with inr _ => True | inl a => a = 0 /\ dtad_kind act = DTRACEACT_PRINTA end).

Lemma actdesc_release_ok act st live :
  act_ok act -> state_ok st (act_difos [act] ++ live) ->
  total (dtrace_actdesc_release act st) (fun r => state_ok r.2 live).
Proof.
  intros [Hrc Ha] Hst. unfold dtrace_actdesc_release. rewrite Hrc. cbn [Z.ltb Z.compare Z.eqb Z.sub Z.add Z.opp negb Z.pos_sub].
  eapply (total_bind _ _ (fun st' => state_ok st' live)).
  - unfold act_difos in Hst. cbn in Hst. destruct (dtad_difo act) as [dp|]; [by apply release_difo_ok|done].
  - intros st' Hst'. destruct (DTRACEACT_ISPRINTFLIKE (dtad_kind act)); cbn [andb]; [|done]. specialize (Ha eq_refl).
    destruct (dtad_arg act) as [a|s]; [|done]. destruct Ha as [-> ->]. done.
Qed.

Lemma act_difos_app l l' : act_difos (l ++ l') = act_difos l ++ act_difos l'.
Proof. apply omap_app. Qed.

Lemma release_actions_ok acts st live :
  Forall act_ok acts -> state_ok st (act_difos acts ++ live) -> total (release_actions acts st) (fun st' => state_ok st' live).
Proof.
  revert st. induction acts as [|act acts IH]; intros st Ha Hst; cbn [release_actions]; [done|]. apply Forall_cons_1 in Ha as [Ha Has].
  change (act :: acts) with ([act] ++ acts) in Hst. rewrite act_difos_app, <- app_assoc in Hst.
  eapply total_bind; [by apply (actdesc_release_ok act st (act_difos acts ++ live))|]. intros [o st'] Hst'. by apply IH.
Qed.

(** ** Actions *)

Context (dof : list Z) (Himg : image_ok dof) (Hsec : secs_in dof).
#[local] Abbreviation sec i := (sec_at dof i).
#[local] Abbreviation loaded i := (0 <= i < h_secnum dof /\ Z.land (s_flags dof (sec_at dof i)) DOF_SECF_LOAD <> 0).

Lemma dof_difo_ok i st live :
  loaded i -> state_ok st live -> total (dtrace_dof_difo gmax ncpu ssd cr tup dof (sec i) st) (loads (fun dp => [dp]) live).
Proof.
  intros Hi Hst. unfold dtrace_dof_difo. eapply or_null_safe; [by apply difo_sections_safe|done|]. intros [rt p] [Hp Hd].
  by apply difo_load_ok.
Qed.

Lemma action_difo_ok difo st live :
  0 <= difo -> state_ok st live ->
  total (action_difo gmax ncpu ssd cr tup dof difo st) (loads (fun o => match o with Some dp => [dp] | None => [] end) live).
Proof.
  intros Hd Hst. unfold action_difo. destruct (difo =? DOF_SECIDX_NONE); [done|].
  eapply or_null_safe; [by apply sect_loaded|done|]. intros s (-> & Hl & _).
  eapply total_bind; [by apply dof_difo_ok|]. intros [[dp|] st'] Hst'; exact Hst'.
Qed.

Lemma action_arg_safe kind off :
  0 <= off -> off + 32 <= Z.of_nat (length dof) ->
  safe (action_arg dof kind off) (fun arg => DTRACEACT_ISPRINTFLIKE kind = true ->
    match arg with inr _ => True | inl a => a = 0 /\ kind = DTRACEACT_PRINTA end).
Proof.
  intros Ho Hl. unfold action_arg.
  eapply safe_bind; [apply (safe_read 4 dof (off + 4) (fun x => 0 <= x)); try lia; apply (fld4 dof Himg)|]. intros strtab Hs. cbv beta in Hs.
  destruct (DTRACEACT_ISPRINTFLIKE kind); cbn [andb].
  - destruct (negb (kind =? DTRACEACT_PRINTA) || negb (strtab =? DOF_SECIDX_NONE)) eqn:E.
    + eapply safe_bind; [apply format_string_safe; (done || lia)|]. by intros.
    + apply orb_false_iff in E as [E%negb_false_iff _]. rewrite E. cbn. intros _. split; [done|]. by apply Z.eqb_eq.
  - destruct (kind =? DTRACEACT_PRINTA); [done|].
    eapply safe_bind; [apply (safe_read 8 dof (off + 16) (fun _ => True)); (lia || done)|]. by intros.
Qed.

Lemma dof_action_ok off st live :
  0 <= off -> off + 32 <= Z.of_nat (length dof) -> state_ok st live ->
  total (dof_action gmax ncpu ssd cr tup dof off st) (fun r =>
    match r.1 with Some (act, _) => act_ok act /\ state_ok r.2 (act_difos [act] ++ live) | None => state_ok r.2 live end).
Proof.
  intros Ho Hl Hst. unfold dof_action.
  eapply total_bind; [apply (total_read 4 dof (off + 8) (fun x => True)); (lia || done)|]. intros kind0 _.
  cbv zeta. set (kind := u16 kind0). clearbody kind.
  pose proof (action_arg_safe kind off Ho Hl) as Harg. destruct (action_arg dof kind off) as [| |arg]; cbn [total safe or_null] in *; try done.
  eapply total_bind; [apply (total_read 4 dof (off + 12) (fun x => True)); (lia || done)|]. intros ntuple _.
  eapply total_bind; [apply (total_read 8 dof (off + 24) (fun x => True)); (lia || done)|]. intros uarg _.
  assert (Hc : dtrace_actdesc_create kind ntuple uarg arg = Ok (ActDesc kind ntuple uarg arg 1 None)).
  { unfold dtrace_actdesc_create. cbv zeta. destruct (DTRACEACT_ISPRINTFLIKE kind); [|done]. specialize (Harg eq_refl).
    destruct arg as [a|s]; [|done]. by destruct Harg as [-> ->]. }
  rewrite Hc. cbn [dbind].
  eapply total_bind; [apply (total_read 4 dof off (fun x => 0 <= x)); try lia; apply (fld4 dof Himg)|]. intros difo Hd. cbv beta in Hd.
  eapply total_bind; [by apply action_difo_ok|]. intros [[d|] st'] Hst'; cbn in Hst' |- *; (split; [by split|]); [|done].
  by destruct d.
Qed.

Lemma dof_actions_ok fuel offset size offs acts st live :
  0 <= offset -> offset + size <= Z.of_nat (length dof) -> 0 <= offs -> (32 | offs) -> (32 | size) -> size - offs <= Z.of_nat fuel ->
  Forall act_ok acts -> state_ok st (act_difos acts ++ live) ->
  total (dof_actions gmax ncpu ssd cr tup fuel dof offset size 32 offs acts st) (fun r =>
    loads act_difos live r /\ match r.1 with Some acts => Forall act_ok acts | None => True end).
Proof.
  revert offs acts st. induction fuel as [|fuel IH]; intros offs acts st Ho Hin Hf Hdiv Hsz Hfuel Hacts Hst; cbn [dof_actions];
    (destruct (Z.leb_spec size offs) as [|Hlt]; [by split|]); [lia|].
  destruct Hdiv as [a Ha], Hsz as [b Hb].
  eapply total_bind; [apply (dof_action_ok (offset + offs) st (act_difos acts ++ live)); (done || lia)|].
  intros [[[act ok]|] st'] Hr; cbn in Hr.
  - destruct Hr as [Hact Hst']. assert (Hacts' : Forall act_ok (acts ++ [act])) by (apply Forall_app_2; [done|by apply Forall_singleton]).
    assert (Hst2 : state_ok st' (act_difos (acts ++ [act]) ++ live)).
    { eapply state_perm; [|exact Hst']. rewrite act_difos_app, <- app_assoc. apply Permutation_app_swap_app. }
    destruct ok.
    + apply IH; try done; try lia; [exists (a + 1); lia|exists b; lia].
    + eapply total_bind; [by apply release_actions_ok|]. intros st2 Hst3. by split.
  - eapply total_bind; [by apply release_actions_ok|]. intros st2 Hst3. by split.
Qed.

Lemma dof_actdesc_ok i st live :
  loaded i -> s_type dof (sec i) = DOF_SECT_ACTDESC -> state_ok st live ->
  total (dtrace_dof_actdesc gmax ncpu ssd cr tup dof (sec i) st) (fun r =>
    loads act_difos live r /\ match r.1 with Some acts => Forall act_ok acts | None => True end).
Proof.
  intros [Hi Hf] Hty Hst. pose proof (si_headers dof Hsec) as Hh. destruct (sec_bounds dof Himg Hsec i Hi Hf) as (Ho & Hs & Hin).
  assert (Hhd : safe (actdesc_header dof (sec i)) (fun x => x = (s_offset dof (sec i), s_size dof (sec i), 32))).
  { unfold actdesc_header.
    eapply safe_bind; [apply (sec_read0 dof Himg Hh i 4 (fun _ => True)); (lia || done)|]. intros type _. apply safe_guard. intros _.
    eapply safe_bind; [apply (sec_read dof Himg Hh i 8 16 (fun x => x = s_offset dof (sec i))); (lia || done)|]. intros ? ->.
    eapply safe_bind; [apply (hdr_read dof Himg 8 40 (fun _ => True)); (lia || done)|]. intros ? _. apply safe_guard. intros _.
    eapply safe_bind; [apply (sec_read dof Himg Hh i 4 4 (fun _ => True)); (lia || done)|]. intros align _. apply safe_guard. intros _.
    eapply safe_bind; [apply (sec_read dof Himg Hh i 8 24 (fun x => x = s_size dof (sec i))); (lia || done)|]. intros ? ->.
    eapply safe_bind; [apply (sec_read dof Himg Hh i 4 12 (fun _ => True)); (lia || done)|]. intros entsize _.
    apply safe_guard. intros _. apply safe_guard. rewrite negb_false_iff, Z.eqb_eq. intros ->. apply safe_guard. by intros _. }
  unfold dtrace_dof_actdesc. destruct (actdesc_header dof (sec i)) as [| |[[o s] e]]; cbn [total safe or_null] in *; [done|done|].
  injection Hhd as -> -> ->. apply dof_actions_ok; try done; try lia; [apply Z.divide_0_r|].
  apply Z.mod_divide; [lia|]. by apply (img_act dof Himg).
Qed.

(** ** ECB descriptions *)

Definition pred_difos (o : option dtrace_predicate) : list dtrace_difo := match o with Some p => [dtp_difo p] | None => [] end.
Definition pred_ok (o : option dtrace_predicate) : Prop := match o with Some p => dtp_refcnt p = 1 | None => True end.

Definition ecb_difos (ep : dtrace_ecbdesc) : list dtrace_difo := pred_difos (dted_pred ep) ++ act_difos (dted_action ep).
Definition ecb_ok (ep : dtrace_ecbdesc) : Prop := pred_ok (dted_pred ep) /\ Forall act_ok (dted_action ep).

Lemma release_pred_ok o st live : pred_ok o -> state_ok st (pred_difos o ++ live) -> total (release_pred o st) (fun st' => state_ok st' live).
Proof.
  destruct o as [p|]; cbn [release_pred pred_difos app]; [|done]. intros Hp Hst. cbn in Hp. unfold dtrace_predicate_release.
  pose proof (so_objs _ _ Hst) as Hobj. apply Forall_cons_1 in Hobj as [[Hrc _] _]. rewrite Hrc, Hp.
  cbn [Z.eqb Z.leb Z.compare orb Z.sub Z.add Z.opp Z.pos_sub].
  pose proof (release_difo_ok _ _ _ Hst) as Hr. destruct (release_difo (dtp_difo p) st); cbn in *; done.
Qed.

Lemma dof_predicate_ok i st live :
  loaded i -> state_ok st live ->
  total (dtrace_dof_predicate gmax ncpu ssd cr tup dof (sec i) st) (fun r =>
    loads (fun p => [dtp_difo p]) live r /\ match r.1 with Some p => dtp_refcnt p = 1 | None => True end).
Proof.
  intros Hi Hst. unfold dtrace_dof_predicate. eapply total_bind; [by apply dof_difo_ok|]. intros [[dp|] st'] Hst'; [|by split].
  cbn in Hst'. pose proof (so_objs _ _ Hst') as Hobj. apply Forall_cons_1 in Hobj as [[Hrc _] _].
  unfold dtrace_predicate_create. rewrite Hrc. cbn [Z.eqb].
  assert (Hpc : forall c, state_ok (DofState (ds_k st') (ds_t st') c) (dp :: live)) by (intros c; by destruct Hst'; split).
  destruct (negb _); [by split|]. destruct (ds_predcache st' =? DTRACE_CACHEIDNONE); [by split|]. cbn. split; [apply Hpc|done].
Qed.

Lemma ecb_pred_ok idx st live :
  0 <= idx -> state_ok st live ->
  total (ecb_pred gmax ncpu ssd cr tup dof idx st) (fun r => loads pred_difos live r /\ match r.1 with Some o => pred_ok o | None => True end).
Proof.
  intros Hd Hst. unfold ecb_pred. destruct (idx =? DOF_SECIDX_NONE); [by split|].
  pose proof (sect_loaded dof Himg Hsec DOF_SECT_DIFOHDR idx Hd) as Hs. destruct (dtrace_dof_sect dof DOF_SECT_DIFOHDR idx) as [| |s]; cbn [total safe or_null] in *; [done|by split|].
  destruct Hs as (-> & Hl & _). eapply total_bind; [by apply dof_predicate_ok|].
  intros [[p|] st'] [Hst' Hp]; (split; [exact Hst'|exact Hp]).
Qed.

Lemma ecb_actions_ok idx st live :
  0 <= idx -> state_ok st live ->
  total (ecb_actions gmax ncpu ssd cr tup dof idx st) (fun r =>
    loads act_difos live r /\ match r.1 with Some acts => Forall act_ok acts | None => True end).
Proof.
  intros Hd Hst. unfold ecb_actions. destruct (idx =? DOF_SECIDX_NONE); [split; [exact Hst|constructor]|].
  pose proof (sect_loaded dof Himg Hsec DOF_SECT_ACTDESC idx Hd) as Hs. destruct (dtrace_dof_sect dof DOF_SECT_ACTDESC idx) as [| |s]; cbn [total safe or_null] in *; [done|by split|].
  destruct Hs as (-> & Hl & Ht). apply dof_actdesc_ok; try done. by apply Ht.
Qed.

Lemma ecbdesc_header_safe i :
  loaded i -> safe (ecbdesc_header dof (sec i)) (fun '(_, pred, actions, _) => 0 <= pred /\ 0 <= actions).
Proof.
  intros [Hi Hf]. pose proof (si_headers dof Hsec) as Hh. destruct (sec_bounds dof Himg Hsec i Hi Hf) as (Ho & Hs & Hin). unfold ecbdesc_header.
  eapply safe_bind; [apply (sec_read dof Himg Hh i 8 24 (fun x => x = s_size dof (sec i))); (lia || done)|]. intros ? ->.
  apply safe_guard. intros Hsz%Z.ltb_ge. unfold sizeof_ecbdesc in Hsz.
  eapply safe_bind; [apply (sec_read dof Himg Hh i 4 4 (fun _ => True)); (lia || done)|]. intros align _. apply safe_guard. intros _.
  eapply safe_bind; [apply (sec_read dof Himg Hh i 8 16 (fun x => x = s_offset dof (sec i))); (lia || done)|]. intros ? ->.
  eapply safe_bind; [apply (safe_read 4 dof (s_offset dof (sec i)) (fun x => 0 <= x)); try lia; apply (fld4 dof Himg)|]. intros pi Hpi.
  eapply safe_bind; [by apply (sect_loaded dof Himg Hsec)|]. intros s (-> & Hl & _).
  eapply safe_bind; [by apply (data_read dof Himg Hsec i); try lia|]. intros uarg _.
  eapply safe_bind; [by apply (probedesc_safe dof Himg Hsec)|]. intros desc _.
  eapply safe_bind; [by apply (data_read dof Himg Hsec i); try lia|]. intros pred [_ Hp].
  eapply safe_bind; [by apply (data_read dof Himg Hsec i); try lia|]. intros actions [_ Ha].
  by apply safe_Ok.
Qed.

Lemma dof_ecbdesc_ok i st live :
  loaded i -> state_ok st live ->
  total (dtrace_dof_ecbdesc gmax ncpu ssd cr tup dof (sec i) st) (fun r =>
    loads ecb_difos live r /\ match r.1 with Some ep => ecb_ok ep | None => True end).
Proof.
  intros Hi Hst. unfold dtrace_dof_ecbdesc. pose proof (ecbdesc_header_safe i Hi) as Hh.
  destruct (ecbdesc_header dof (sec i)) as [| |[[[desc pi] ai] uarg]]; cbn [total safe or_null] in *; [done|by split|]. destruct Hh as [Hpi Hai].
  eapply total_bind; [by apply ecb_pred_ok|]. intros [[pred|] st1] [Hst1 Hp]; [|by split]. cbn in Hst1, Hp.
  eapply total_bind; [by apply (ecb_actions_ok ai st1 (pred_difos pred ++ live))|].
  intros [[acts|] st2] [Hst2 Ha]; cbn in Hst2, Ha.
  - cbn. split; [|by split]. unfold loads, ecb_difos. cbn. eapply state_perm; [|exact Hst2].
    rewrite <- app_assoc. apply Permutation_app_swap_app.
  - eapply total_bind; [by apply release_pred_ok|]. intros st3 Hst3. by split.
Qed.

(** ** Enablings *)

Definition enab_difos (enab : list dtrace_ecbdesc) : list dtrace_difo := concat (map ecb_difos enab).

Lemma enab_difos_app l l' : enab_difos (l ++ l') = enab_difos l ++ enab_difos l'.
Proof. unfold enab_difos. by rewrite map_app, concat_app. Qed.

Lemma enabling_destroy_ok enab st live :
  Forall ecb_ok enab -> state_ok st (enab_difos enab ++ live) -> total (dtrace_enabling_destroy enab st) (fun st' => state_ok st' live).
Proof.
  revert st. induction enab as [|ep enab IH]; intros st He Hst; cbn [dtrace_enabling_destroy]; [done|].
  apply Forall_cons_1 in He as [[Hp Ha] He]. unfold enab_difos in Hst. cbn [map concat] in Hst. unfold ecb_difos in Hst at 1.
  rewrite <- !app_assoc in Hst.
  eapply total_bind; [by apply (release_pred_ok _ _ _ Hp Hst)|]. intros st1 Hst1.
  eapply total_bind; [by apply (release_actions_ok _ _ _ Ha Hst1)|]. intros st2 Hst2. by apply IH.
Qed.

Lemma nth_sec_total i (Q : Z -> Prop) : 0 <= i < h_secnum dof -> Q (sec i) -> total (nth_sec dof i) Q.
Proof.
  intros Hi HQ. pose proof (len_bounds dof Himg). unfold nth_sec, dofh_secoff, dofh_secsize. rewrite !read_ok by lia. cbn [dbind].
  destruct (sec_ptr_at dof Himg (si_headers dof Hsec) i Hi) as (Hp & _). unfold h_secoff, h_secsize in Hp. rewrite Hp. done.
Qed.

Lemma type_total i : 0 <= i < h_secnum dof -> total (dofs_type dof (sec i)) (fun x => x = s_type dof (sec i)).
Proof. intros Hi. destruct (sec_ptr_at dof Himg (si_headers dof Hsec) i Hi) as (_ & ? & ?). apply total_read; (lia || done). Qed.

Lemma ecb_secs_ok n i enab st live :
  0 <= i -> i + Z.of_nat n = h_secnum dof -> Forall ecb_ok enab -> state_ok st (enab_difos enab ++ live) ->
  total (ecb_secs gmax ncpu ssd cr tup dof n i enab st) (fun r =>
    loads enab_difos live r /\ match r.1 with Some enab => Forall ecb_ok enab | None => True end).
Proof.
  revert i enab st. induction n as [|n IH]; intros i enab st Hi Hn He Hst; cbn [ecb_secs]; [by split|].
  pose proof (si_headers dof Hsec) as Hh.
  eapply total_bind; [apply (nth_sec_total i (fun x => x = sec i)); (lia || done)|]. intros ? ->.
  eapply total_bind; [apply (type_total i); (lia || done)|]. intros ? ->.
  destruct (Z.eqb_spec (s_type dof (sec i)) DOF_SECT_ECBDESC) as [Et|]; cbn [negb]; [|apply IH; (done || lia)].
  assert (Hl : loaded i). { split; [lia|]. apply (si_load dof Hsec); [lia|]. by rewrite Et. }
  eapply total_bind; [by apply (dof_ecbdesc_ok i st (enab_difos enab ++ live))|]. intros [[ep|] st1] [Hst1 Hep]; cbn in Hst1, Hep.
  - apply IH; [lia|lia|apply Forall_app_2; [done|by apply Forall_singleton]|]. eapply state_perm; [|exact Hst1].
    rewrite enab_difos_app, <- app_assoc. unfold enab_difos at 3. cbn. rewrite app_nil_r. apply Permutation_app_swap_app.
  - eapply total_bind; [by apply enabling_destroy_ok|]. intros st2 Hst2. by split.
Qed.
End State.

(** Loading an image with no base to relocate to. *)
Lemma dof_slurp_ok {A : kmem} {HA : kmem_ok A} gmax ncpu ssd cr tup B bt daddr dof noprobes st live :
  0 < ncpu <= 2 ^ 20 -> length tup = 10%nat -> 0 <= ssd < 2 ^ 32 -> image_ok dof -> state_ok ncpu B bt st live ->
  total (dtrace_dof_slurp gmax ncpu ssd cr tup daddr dof [] 0 noprobes st) (fun r =>
    match r.1 with Some enab => state_ok ncpu B bt r.2 (enab_difos enab ++ live) | None => state_ok ncpu B bt r.2 live end).
Proof.
  intros Hcpu Htup Hss Himg Hst. unfold dtrace_dof_slurp.
  pose proof (slurp_header_safe dof Himg) as Hh. destruct (slurp_header dof) as [| |u]; cbn [total safe or_null] in *; [done|done|].
  unfold dofh_secnum. rewrite (read_ok 4 dof 28) by (pose proof (len_bounds dof Himg); lia). cbn [dbind]. fold (h_secnum dof).
  pose proof (check_all_safe dof Himg noprobes Hh) as Hc.
  destruct (check_secs noprobes dof (Z.to_nat (h_secnum dof)) 0) as [| |u2]; cbn [total safe or_null] in *; [done|done|].
  pose proof (fld4 dof Himg 28) as Hn. fold (h_secnum dof) in Hn.
  pose proof (relocate_secs_same dof Himg Hc daddr (Z.to_nat (h_secnum dof)) 0) as Hr.
  destruct (relocate_secs daddr 0 dof (Z.to_nat (h_secnum dof)) 0) as [| |dof']; cbn [total safe or_null] in *; [apply Hr; lia|done|].
  rewrite Hr by lia. eapply total_weaken; [apply (ecb_secs_ok gmax ncpu ssd cr tup Hcpu Htup Hss B bt dof Himg Hc _ 0 [] st live); try done; lia|].
  intros [o st'] [Hl _]. exact Hl.
Qed.

(** An image that dtrace_dof_copyin() lets pass is as long as its header says, even if the
    process changes it between the two copies. *)
Lemma copyin_image c1 c2 dof :
  (forall n l, c2 n = Some l -> Z.of_nat (length l) = n) ->
  dtrace_dof_copyin c1 c2 = inr dof ->
  sizeof_hdr <= Z.of_nat (length dof) < dtrace_dof_maxsize /\ fld 8 dof 40 = Z.of_nat (length dof).
Proof.
  intros Hc. unfold dtrace_dof_copyin. destruct c1 as [hdr|]; [|done]. destruct (dofh_loadsz hdr) as [| |n]; [done|done|].
  destruct (Z.leb_spec dtrace_dof_maxsize n); [done|]. destruct (Z.ltb_spec n sizeof_hdr); [done|].
  destruct (c2 n) as [l|] eqn:E; [|done]. specialize (Hc n l E). unfold dofh_loadsz. unfold sizeof_hdr in *.
  rewrite read_ok by lia. destruct (Z.eqb_spec (fld 8 l 40) n); cbn [negb]; [|done]. intros [= <-]. lia.
Qed.

(** * Correctness of the loader *)


(** ** Images *)

Definition mk_hdr (secsize secnum loadsz : Z) : list Z :=
  [127; 68; 79; 70; 2; 1; 2; 2; 8; 8; 0; 0; 0; 0; 0; 0] ++ le_bytes 4 0 ++ le_bytes 4 64 ++ le_bytes 4 secsize ++
  le_bytes 4 secnum ++ le_bytes 8 64 ++ le_bytes 8 loadsz ++ le_bytes 8 loadsz ++ le_bytes 8 0.

Definition mk_sec (type align entsize offset size : Z) : list Z :=
  le_bytes 4 type ++ le_bytes 4 align ++ le_bytes 4 1 ++ le_bytes 4 entsize ++ le_bytes 8 offset ++ le_bytes 8 size.

(** The enabling [p:m:f:n { trace(0); }]: a string table, a probe description, DIF text and
    its object, one action (a size of [act] bytes is claimed for it) and the ECB. *)
Definition image (secsize act dif : Z) : list Z :=
  mk_hdr secsize 6 (336 + act) ++
  mk_sec DOF_SECT_STRTAB 1 0 256 12 ++ mk_sec DOF_SECT_PROBEDESC 4 0 268 24 ++ mk_sec DOF_SECT_DIF 4 4 292 dif ++
  mk_sec DOF_SECT_DIFOHDR 4 0 296 12 ++ mk_sec DOF_SECT_ECBDESC 8 0 312 24 ++ mk_sec DOF_SECT_ACTDESC 8 32 336 act ++
  [0; 112; 0; 109; 0; 102; 0; 110; 0; 0; 0; 0] ++
  (le_bytes 4 0 ++ le_bytes 4 1 ++ le_bytes 4 3 ++ le_bytes 4 5 ++ le_bytes 4 7 ++ le_bytes 4 0) ++
  le_bytes 4 (DIF_INSTR_RET 0) ++
  (le_bytes 4 0 ++ le_bytes 4 8 ++ le_bytes 4 2 ++ le_bytes 4 0) ++
  (le_bytes 4 1 ++ le_bytes 4 DOF_SECIDX_NONE ++ le_bytes 4 5 ++ le_bytes 4 0 ++ le_bytes 8 0) ++
  firstn (Z.to_nat act) (le_bytes 4 3 ++ le_bytes 4 DOF_SECIDX_NONE ++ le_bytes 4 1 ++ le_bytes 4 0 ++ le_bytes 8 0 ++ le_bytes 8 0 ++
    repeat 0 32).

Definition witness_image : list Z := image 32 32 4.
Definition witness_dof_state : @dof_state bump := DofState empty_kstate (0, false) 1.

Lemma witness_image_ok : image_ok witness_image.
Proof.
  assert (Hn : h_secnum witness_image = 6) by (vm_compute; reflexivity).
  assert (Hsix : forall i, 0 <= i < 6 -> i = 0 \/ i = 1 \/ i = 2 \/ i = 3 \/ i = 4 \/ i = 5) by (intros; lia).
  assert (Hlen : length witness_image = 368%nat) by (vm_compute; reflexivity).
  split.
  - assert (Hb : forallb (fun b => (0 <=? b) && (b <? 256)) witness_image = true) by (vm_compute; reflexivity).
    apply List.Forall_forall. intros b Hin. apply (proj1 (List.forallb_forall _ _) Hb) in Hin.
    apply andb_true_iff in Hin as [H1%Z.leb_le H2%Z.ltb_lt]. lia.
  - rewrite Hlen. vm_compute. split; congruence.
  - rewrite Hlen. vm_compute. reflexivity.
  - vm_compute. congruence.
  - intros i Hi. rewrite Hn in Hi. destruct (Hsix i Hi) as [->|[->|[->|[->|[->| ->]]]]]; vm_compute; congruence.
  - intros i Hi. rewrite Hn in Hi. destruct (Hsix i Hi) as [->|[->|[->|[->|[->| ->]]]]]; vm_compute; congruence.
  - intros i Hi. rewrite Hn in Hi. destruct (Hsix i Hi) as [->|[->|[->|[->|[->| ->]]]]]; vm_compute; congruence.
Qed.


(** ** Images that are not [image_ok]

    Each of the assumptions is needed: the loader leaves the image (or fails an assertion) on
    section headers shorter than a dof_sec_t; on an empty string table at the front; on an
    action section that ends within an action; on empty DIF text. *)

Definition loads_image (dof : list Z) (ubase : Z) : dres (option (list dtrace_ecbdesc) * dof_state) :=
  dtrace_dof_slurp 16384 4 256 true (repeat 0 10) 0x1000 dof [] ubase true witness_dof_state.

Definition is_oob {X} (x : dres X) : bool := match x with Oob => true | _ => false end.

Example short_section_headers : is_oob (loads_image (mk_hdr 8 1 72 ++ repeat 0 8) 0) = true.
Proof. vm_compute. reflexivity. Qed.

Example empty_string_table : is_oob (loads_image (mk_hdr 32 1 96 ++ mk_sec DOF_SECT_STRTAB 1 0 0 0) 0) = true.
Proof. vm_compute. reflexivity. Qed.

Example partial_action : is_oob (loads_image (image 32 40 4) 0) = true.
Proof. vm_compute. reflexivity. Qed.

Example empty_dif_text : is_oob (loads_image (image 32 32 0) 0) = true.
Proof. vm_compute. reflexivity. Qed.

(** With a base to relocate to, as helpers have one, a relocation may be aimed at the section
    headers, after they have been checked: here the ECB section is moved out of the image. *)
Definition relocating_image : list Z :=
  mk_hdr 32 5 296 ++
  mk_sec DOF_SECT_STRTAB 1 0 224 8 ++ mk_sec DOF_SECT_RELTAB 8 24 232 24 ++ mk_sec DOF_SECT_URELHDR 4 0 256 12 ++
  mk_sec DOF_SECT_ECBDESC 8 0 272 24 ++ mk_sec 1 1 0 64 160 ++
  repeat 0 8 ++ (le_bytes 4 0 ++ le_bytes 4 DOF_RELO_SETX ++ le_bytes 8 112 ++ le_bytes 8 0) ++
  (le_bytes 4 0 ++ le_bytes 4 1 ++ le_bytes 4 4 ++ le_bytes 4 0) ++ repeat 0 24.

Example relocated_headers :
  is_oob (loads_image relocating_image 0) = false /\ is_oob (loads_image relocating_image (2 ^ 40)) = true.
Proof. split; vm_compute; reflexivity. Qed.
