(* ===== verification/Ecb.v ===== *)
(** Enabling control blocks (driver/dtrace.c, dtrace_format_add() to dtrace_aggid2agg()).

    An ECB connects a probe with the predicate and the actions of one consumer.  This file
    has the data and the operations; the layout of the records is the subject of the file
    EcbLayout, the life of ECBs that of EcbLife.

    Structures live in maps from addresses.  The actions of an ECB form one object, a list
    in the order of the links, under the address of its first action; ECBs made for the
    same description share it, and its reference count is that of the first action.
    [None] is a failed ASSERT or a bad pointer. *)
From S2P Require Import Prelude Dif SafeMem DifValidate DifObject Aggregate Match Probes Dof.
From stdpp Require Import gmap list.
#[local] Open Scope Z_scope.

(** * Data *)

Definition DTRACEACT_DIFEXPR : Z := 1.
Definition DTRACEACT_EXIT : Z := 2.
Definition DTRACEACT_LIBACT : Z := 5.
Definition DTRACEACT_USTACK : Z := 0x101.
Definition DTRACEACT_JSTACK : Z := 0x102.
Definition DTRACEACT_USYM : Z := 0x103.
Definition DTRACEACT_UMOD : Z := 0x104.
Definition DTRACEACT_UADDR : Z := 0x105.
Definition DTRACEACT_PROC_DESTRUCTIVE : Z := 0x200.
Definition DTRACEACT_STOP : Z := 0x201.
Definition DTRACEACT_RAISE : Z := 0x202.
Definition DTRACEACT_STACK : Z := 0x401.
Definition DTRACEACT_SYM : Z := 0x402.
Definition DTRACEACT_MOD : Z := 0x403.
Definition DTRACEACT_KERNEL_DESTRUCTIVE : Z := 0x500.
Definition DTRACEACT_BREAKPOINT : Z := 0x501.
Definition DTRACEACT_PANIC : Z := 0x502.
Definition DTRACEACT_CHILL : Z := 0x503.
Definition DTRACEACT_SPECULATE : Z := 0x601.
Definition DTRACEACT_COMMIT : Z := 0x602.
Definition DTRACEACT_DISCARD : Z := 0x603.
Definition DTRACEACT_AGGREGATION : Z := 0x700.

Definition DTRACEACT_CLASS (x : Z) : Z := Z.land x 0xff00.
Definition DTRACEACT_ISDESTRUCTIVE (x : Z) : bool :=
  (DTRACEACT_CLASS x =? DTRACEACT_PROC_DESTRUCTIVE) || (DTRACEACT_CLASS x =? DTRACEACT_KERNEL_DESTRUCTIVE).
Definition DTRACEACT_ISAGG (x : Z) : bool := DTRACEACT_CLASS x =? DTRACEACT_AGGREGATION.

(** An argument of an action: a number, or the string it points to. *)
Definition act_arg : Type := Z + cstring.

Record dtrace_recdesc := RecDesc {
  dtrd_action : Z; dtrd_size : Z; dtrd_offset : Z; dtrd_alignment : Z; dtrd_format : Z;
  dtrd_arg : act_arg; dtrd_uarg : Z
}.

(** What a dtrace_aggregation_t has besides its action; [dtag_first] is the place of the
    first action of the tuple in the list. *)
Record agg_part := AggPart {
  dtag_id : Z; dtag_first : nat; dtag_base : Z; dtag_hasarg : bool; dtag_initial : Z;
  dtag_aggregate : list Z -> Z -> Z -> option (list Z)
}.

(** An action at the address [dta_self]; [dta_difo] is the address of its DIF object. *)
Record dtrace_action := Action {
  dta_self : Z; dta_kind : Z; dta_intuple : bool; dta_difo : option Z; dta_rec : dtrace_recdesc;
  dta_agg : option agg_part
}.

Definition set_rec (rec : dtrace_recdesc) (a : dtrace_action) : dtrace_action :=
  Action (dta_self a) (dta_kind a) (dta_intuple a) (dta_difo a) rec (dta_agg a).
Definition set_tuple (a : dtrace_action) : dtrace_action :=
  Action (dta_self a) (dta_kind a) true (dta_difo a) (dta_rec a) (dta_agg a).
Definition set_agg (g : agg_part) (a : dtrace_action) : dtrace_action :=
  Action (dta_self a) (dta_kind a) (dta_intuple a) (dta_difo a) (dta_rec a) (Some g).
Definition set_offset (offs : Z) (r : dtrace_recdesc) : dtrace_recdesc :=
  RecDesc (dtrd_action r) (dtrd_size r) offs (dtrd_alignment r) (dtrd_format r) (dtrd_arg r) (dtrd_uarg r).
Definition set_alignment (n : Z) (r : dtrace_recdesc) : dtrace_recdesc :=
  RecDesc (dtrd_action r) (dtrd_size r) (dtrd_offset r) n (dtrd_format r) (dtrd_arg r) (dtrd_uarg r).

Abbreviation rec_size a := (dtrd_size (dta_rec a)).
Abbreviation rec_offset a := (dtrd_offset (dta_rec a)).
Abbreviation rec_align a := (dtrd_alignment (dta_rec a)).

(** The list of actions of an ECB. *)
Record chain := Chain { ch_refcnt : Z; ch_acts : list dtrace_action }.

Record dtrace_ecb := Ecb {
  dte_epid : Z; dte_alignment : Z; dte_needed : Z; dte_size : Z;
  dte_predicate : option Z; dte_action : option Z; dte_next : option Z; dte_state : Z;
  dte_cond : Z; dte_probe : option Z; dte_uarg : Z
}.

(** A predicate, with the address of its DIF object. *)
Record predicate := Pred { pr_difo : Z; pr_refcnt : Z; pr_cacheid : Z }.

(** The part of a consumer's state that ECBs use.  An array carries its length; a format is
    the block that was allocated for it. *)
Record dtrace_state := State {
  dts_ecbs : list (option Z);
  dts_epid : Z;
  dts_needed : Z;
  dts_vstate : dtrace_vstate;
  dts_aggregations : list (option Z);
  dts_aggid_arena : Z;
  dts_speculates : Z;
  dts_destructive : Z;
  dts_formats : list (option (list Z));
  dts_options : Z -> Z;
  dcr_visible : Z
}.

Definition set_formats (l : list (option (list Z))) (s : dtrace_state) : dtrace_state :=
  State (dts_ecbs s) (dts_epid s) (dts_needed s) (dts_vstate s) (dts_aggregations s) (dts_aggid_arena s)
    (dts_speculates s) (dts_destructive s) l (dts_options s) (dcr_visible s).
Definition set_destructive (s : dtrace_state) : dtrace_state :=
  State (dts_ecbs s) (dts_epid s) (dts_needed s) (dts_vstate s) (dts_aggregations s) (dts_aggid_arena s)
    (dts_speculates s) 1 (dts_formats s) (dts_options s) (dcr_visible s).
Definition set_speculates (s : dtrace_state) : dtrace_state :=
  State (dts_ecbs s) (dts_epid s) (dts_needed s) (dts_vstate s) (dts_aggregations s) (dts_aggid_arena s)
    1 (dts_destructive s) (dts_formats s) (dts_options s) (dcr_visible s).
Definition set_ecbs (l : list (option Z)) (epid : Z) (s : dtrace_state) : dtrace_state :=
  State l epid (dts_needed s) (dts_vstate s) (dts_aggregations s) (dts_aggid_arena s)
    (dts_speculates s) (dts_destructive s) (dts_formats s) (dts_options s) (dcr_visible s).
Definition set_aggs (l : list (option Z)) (seq : Z) (s : dtrace_state) : dtrace_state :=
  State (dts_ecbs s) (dts_epid s) (dts_needed s) (dts_vstate s) l seq
    (dts_speculates s) (dts_destructive s) (dts_formats s) (dts_options s) (dcr_visible s).
Definition set_needed (n : Z) (s : dtrace_state) : dtrace_state :=
  State (dts_ecbs s) (dts_epid s) n (dts_vstate s) (dts_aggregations s) (dts_aggid_arena s)
    (dts_speculates s) (dts_destructive s) (dts_formats s) (dts_options s) (dcr_visible s).
Definition set_vstate (vs : dtrace_vstate) (s : dtrace_state) : dtrace_state :=
  State (dts_ecbs s) (dts_epid s) (dts_needed s) vs (dts_aggregations s) (dts_aggid_arena s)
    (dts_speculates s) (dts_destructive s) (dts_formats s) (dts_options s) (dcr_visible s).

(** An array that is doubled when the identifier lies behind its end; the identifier must
    then be the next one. *)
Definition grow_table (id : Z) (l : list (option Z)) : option (list (option Z)) :=
  if Z.of_nat (length l) <=? u32 (id - 1) then
    if id =? Z.of_nat (length l) + 1 then
      Some (match l with [] => [None] | _ => l ++ replicate (length l) None end)
    else None
  else Some l.

(** [a] becomes the entry of [id], which has to be free. *)
Definition table_set (id a : Z) (l : list (option Z)) : option (list (option Z)) :=
  match grow_table id l with
  | Some l => match zlookup l (id - 1) with Some None => Some (<[Z.to_nat (id - 1) := Some a]> l) | _ => None end
  | None => None
  end.

(** The entry of [id], which has to be [a], is cleared. *)
Definition table_clear (id a : Z) (l : list (option Z)) : option (list (option Z)) :=
  match zlookup l (id - 1) with
  | Some (Some b) => if a =? b then Some (<[Z.to_nat (id - 1) := None]> l) else None
  | _ => None
  end.

(** * Formats *)

Definition USHRT_MAX : Z := 65535.

Fixpoint free_slot (l : list (option (list Z))) : option nat :=
  match l with
  | [] => None
  | None :: _ => Some O
  | Some _ :: l => match free_slot l with Some i => Some (S i) | None => None end
  end.

(** The length is a 16-bit number, like the result. *)
Definition dtrace_format_add (s : dtrace_state) (str : cstring) : Z * dtrace_state :=
  let len := u16 (Z.of_nat (length str) + 1) in
  let fmt := take (Z.to_nat len) (str ++ [0]) in
  let l := dts_formats s in
  match free_slot l with
  | Some ndx => (u16 (Z.of_nat ndx + 1), set_formats (<[ndx := Some fmt]> l) s)
  | None =>
      if Z.of_nat (length l) =? USHRT_MAX then (0, s)
      else (u16 (Z.of_nat (length l) + 1), set_formats (l ++ [Some fmt]) s)
  end.

(** strlen() of a block; [None]: the block has no NUL. *)
Fixpoint block_strlen (b : list Z) : option nat :=
  match b with
  | [] => None
  | c :: b => if c =? 0 then Some O else match block_strlen b with Some n => Some (S n) | None => None end
  end.

Definition dtrace_format_remove (s : dtrace_state) (format : Z) : option dtrace_state :=
  match zlookup (dts_formats s) (format - 1) with
  | Some (Some fmt) =>
      match block_strlen fmt with
      | Some _ => Some (set_formats (<[Z.to_nat (format - 1) := None]> (dts_formats s)) s)
      | None => None
      end
  | _ => None
  end.

Definition dtrace_format_destroy (s : dtrace_state) : option dtrace_state :=
  if forallb (fun o => match o with Some fmt => match block_strlen fmt with Some _ => true | None => false end | None => true end)
       (dts_formats s)
  then Some (set_formats [] s) else None.

(** * Actions *)

(** An action as its description asks for it. *)
Record act_desc := ActionDesc {
  ad_kind : Z; ad_ntuple : Z; ad_uarg : Z; ad_arg : act_arg; ad_difo : option Z
}.

Definition DTRACEOPT_STRSIZE : Z := 6.
Definition DTRACEOPT_STACKFRAMES : Z := 13.
Definition DTRACEOPT_USTACKFRAMES : Z := 14.
Definition DTRACEOPT_JSTACKFRAMES : Z := 21.
Definition DTRACEOPT_JSTACKSTRSIZE : Z := 22.

Definition DTRACE_USTACK_NFRAMES (x : Z) : Z := u32 (Z.land x 0xffffffff).
Definition DTRACE_USTACK_STRSIZE (x : Z) : Z := u32 (Z.shiftr x 32).
Definition DTRACE_USTACK_ARG (x y : Z) : Z := Z.lor (u64 (Z.shiftl (u64 y) 32)) (Z.land (u64 x) 0xffffffff).

Definition P2ROUNDUP32 (x align : Z) : Z := u32 (- Z.land (u32 (- x)) (u32 (- align))).

(** The size of a stack record: a slot for the pid, the frames, the strings. *)
Definition ustack_size (nframes arg : Z) : Z :=
  P2ROUNDUP32 (u32 (u32 ((nframes + 1) * 8) + DTRACE_USTACK_STRSIZE arg)) 8.

(** What the switch on the kind of an action decides. *)
Inductive verdict :=
| Panic                                      (** a failed assertion *)
| Einval
| Record_ (size : Z) (arg : act_arg).

Definition has_kind (kind : Z) (acts : list dtrace_action) : bool := existsb (fun a => dta_kind a =? kind) acts.

(** Actions that record the value of an expression. *)
Definition expr_record (opt : Z -> Z) (dp : option dtrace_difo) (arg : act_arg) : verdict :=
  match dp with
  | None => Einval
  | Some dp =>
      let size := dtdt_size (dtdo_rtype dp) in
      if negb (size =? 0) then Record_ size arg
      else if dtdt_kind (dtdo_rtype dp) =? DIF_TYPE_STRING then
        if negb (byref (dtdo_rtype dp)) then Einval else Record_ (u32 (opt DTRACEOPT_STRSIZE)) arg
      else Record_ 0 arg
  end.

Definition stack_record (opt : Z -> Z) (arg : Z) : verdict :=
  let nframes := s64 arg in
  if nframes =? 0 then
    let nframes := opt DTRACEOPT_STACKFRAMES in
    if nframes <=? 0 then Panic else Record_ (u32 (nframes * 8)) (inl (u64 nframes))
  else Record_ (u32 (nframes * 8)) (inl arg).

Definition jstack_record (opt : Z -> Z) (arg : Z) : verdict :=
  let strsize := DTRACE_USTACK_STRSIZE arg in
  let strsize := if strsize =? 0 then opt DTRACEOPT_JSTACKSTRSIZE else strsize in
  let nframes := DTRACE_USTACK_NFRAMES arg in
  let nframes := if nframes =? 0 then opt DTRACEOPT_JSTACKFRAMES else nframes in
  let arg := DTRACE_USTACK_ARG nframes strsize in
  Record_ (ustack_size nframes arg) (inl arg).

Definition ustack_record (opt : Z -> Z) (arg : Z) : verdict :=
  let nframes := DTRACE_USTACK_NFRAMES arg in
  if nframes =? 0 then
    let nframes := opt DTRACEOPT_USTACKFRAMES in
    if nframes <=? 0 then Panic
    else
      let arg := DTRACE_USTACK_ARG nframes (DTRACE_USTACK_STRSIZE arg) in
      Record_ (ustack_size nframes arg) (inl arg)
  else Record_ (ustack_size nframes arg) (inl arg).

(** Actions whose expression has to have a value of [size] bytes; they record [rsize]. *)
Definition value_record (size rsize : Z) (dp : option dtrace_difo) (arg : act_arg) : verdict :=
  match dp with
  | Some dp => if negb (dtdt_size (dtdo_rtype dp) =? size) || byref (dtdo_rtype dp) then Einval else Record_ rsize arg
  | None => Einval
  end.

(** Actions that need an expression and record nothing. *)
Definition silent_record (dp : option dtrace_difo) (arg : act_arg) : verdict :=
  match dp with Some _ => Record_ 0 arg | None => Einval end.

(** A numeric argument; strings belong to the kinds that print only. *)
Definition with_num (arg : act_arg) (f : Z -> verdict) : verdict := match arg with inl x => f x | inr _ => Panic end.

(** The switch, without the formats; [ecbsize] is dte_size. *)
Definition action_record (opt : Z -> Z) (ecbsize : Z) (acts : list dtrace_action) (kind : Z) (arg : act_arg)
    (dp : option dtrace_difo) : verdict :=
  let among l := existsb (Z.eqb kind) l in
  if among [DTRACEACT_PRINTF; DTRACEACT_PRINTA; DTRACEACT_SYSTEM; DTRACEACT_FREOPEN; DTRACEACT_LIBACT; DTRACEACT_DIFEXPR] then
    expr_record opt dp arg
  else if among [DTRACEACT_STACK] then with_num arg (stack_record opt)
  else if among [DTRACEACT_JSTACK] then with_num arg (jstack_record opt)
  else if among [DTRACEACT_USTACK] then with_num arg (ustack_record opt)
  else if among [DTRACEACT_SYM; DTRACEACT_MOD] then value_record 8 8 dp arg
  else if among [DTRACEACT_USYM; DTRACEACT_UMOD; DTRACEACT_UADDR] then value_record 8 16 dp arg
  else if among [DTRACEACT_STOP; DTRACEACT_BREAKPOINT; DTRACEACT_PANIC] then Record_ 0 arg
  else if among [DTRACEACT_CHILL; DTRACEACT_DISCARD; DTRACEACT_RAISE] then silent_record dp arg
  else if among [DTRACEACT_EXIT] then value_record 4 4 dp arg
  else if among [DTRACEACT_SPECULATE] then if 4 <? ecbsize then Einval else silent_record dp arg
  else if among [DTRACEACT_COMMIT] then if has_kind DTRACEACT_COMMIT acts then Einval else silent_record dp arg
  else Einval.

(** The string of an action that prints becomes a format, before anything is checked. *)
Definition action_format (s : dtrace_state) (kind : Z) (arg : act_arg) : option (Z * dtrace_state) :=
  if DTRACEACT_ISPRINTFLIKE kind then
    match arg with
    | inl x => if (x =? 0) && (kind =? DTRACEACT_PRINTA) then Some (0, s) else None
    | inr str => Some (dtrace_format_add s str)
    end
  else Some (0, s).

(** The size, the argument and the format of an action that does not aggregate; no result
    inside: EINVAL. *)
Definition plain_action (s : dtrace_state) (ecbsize : Z) (acts : list dtrace_action) (desc : act_desc) (dp : option dtrace_difo)
    : option (option (Z * act_arg * Z) * dtrace_state) :=
  let kind := ad_kind desc in
  let s :=
    if DTRACEACT_ISDESTRUCTIVE kind ||
       (kind =? DTRACEACT_DIFEXPR) && match dp with Some dp => negb (dtdo_destructive dp =? 0) | None => false end
    then set_destructive s else s in
  match action_format s kind (ad_arg desc) with
  | None => None
  | Some (format, s) =>
      match action_record (dts_options s) ecbsize acts kind (ad_arg desc) dp with
      | Panic => None
      | Einval => Some (None, s)
      | Record_ size arg =>
          let s := if kind =? DTRACEACT_SPECULATE then set_speculates s else s in
          if (negb (size =? 0) || (kind =? DTRACEACT_SPECULATE)) && has_kind DTRACEACT_COMMIT acts then Some (None, s)
          else Some (Some (size, arg, format), s)
      end
  end.

(** * Aggregating actions *)

(** The place where a tuple of [ntuple] actions begins; the list is that of the actions so
    far, from the last one on. *)
Fixpoint tuple_first (rev : list dtrace_action) (ntuple : Z) : option nat :=
  match rev with
  | [] => None
  | a :: rev =>
      if DTRACEACT_ISAGG (dta_kind a) then None
      else
        let ntuple := s32 (ntuple - 1) in
        if ntuple =? 0 then Some (length rev) else tuple_first rev ntuple
  end.

(** Whether the last action is the argument of the aggregating function. *)
Definition last_hasarg (difo : Z -> option dtrace_difo) (acts : list dtrace_action) : option bool :=
  match last acts with
  | None => None
  | Some a =>
      if dta_kind a =? DTRACEACT_DIFEXPR then
        match dta_difo a with
        | None => None
        | Some d => match difo d with Some dp => Some (dtdt_size (dtdo_rtype dp) =? 0) | None => None end
        end
      else Some false
  end.

(** The actions from [first] on become a tuple; its first record is aligned for the identifier. *)
Definition mark_tuple (first : nat) (acts : list dtrace_action) : option (list dtrace_action) :=
  let t := drop first acts in
  if existsb dta_intuple t then None
  else
    match t with
    | [] => None
    | a :: t =>
        let r := dta_rec a in
        let a := set_rec (set_alignment (if dtrd_alignment r <? 4 then 4 else dtrd_alignment r) r) a in
        Some (take first acts ++ map set_tuple (a :: t))
    end.

(** The size of the value, the new actions and the aggregation at [self]; no result inside:
    NULL. *)
Definition dtrace_ecb_aggregation_create (difo : Z -> option dtrace_difo) (s : dtrace_state) (self : Z)
    (acts : list dtrace_action) (desc : act_desc)
    : option (option (Z * list dtrace_action * agg_part) * dtrace_state) :=
  match ad_arg desc with
  | inr _ => None
  | inl arg =>
      match agg_select (ad_kind desc - DTRACEACT_AGGREGATION) arg with
      | None => Some (None, s)
      | Some (aggregate, initial, size) =>
          let ntuple := s32 (ad_ntuple desc) in
          if ntuple =? 0 then Some (None, s)
          else
            match tuple_first (rev acts) ntuple with
            | None => Some (None, s)
            | Some first =>
                match last_hasarg difo acts with
                | None => None
                | Some hasarg =>
                    let '(aggid, seq) := vmem_alloc (dts_aggid_arena s) in
                    let aggid := u32 aggid in
                    match table_set aggid self (dts_aggregations s), mark_tuple first acts with
                    | Some aggs, Some acts =>
                        Some (Some (size, acts, AggPart aggid first 0 hasarg initial aggregate), set_aggs aggs seq s)
                    | _, _ => None
                    end
                end
            end
      end
  end.

Definition dtrace_ecb_aggregation_destroy (s : dtrace_state) (a : dtrace_action) : option dtrace_state :=
  match dta_agg a with
  | Some g =>
      match table_clear (dtag_id g) (dta_self a) (dts_aggregations s) with
      | Some aggs => Some (set_aggs aggs (dts_aggid_arena s) s)
      | None => None
      end
  | None => None
  end.

(** The alignment of a record of [size] bytes. *)
Definition align_step (size mask : Z) : Z + Z :=
  if negb (size =? 0) && (0 <? mask) then
    if Z.land size mask =? 0 then inr (mask + 1) else inl (Z.shiftr mask 1)
  else inr 1.
Definition rec_alignment (size : Z) : Z := default 1 (zloop (align_step size) 4 7).

(** * The layout of the records *)

(** The running state of dtrace_ecb_resize(): [z_size] and [z_needed] are dte_size and
    dte_needed, [z_most] is dts_needed. *)
Record layout := Layout {
  z_offs : Z; z_maxalign : Z; z_wastuple : bool; z_aggbase : Z; z_size : Z; z_needed : Z; z_most : Z
}.

Definition UINT32_MAX : Z := 0xffffffff.

(** From the first action of a tuple back over tuples to an action that is no aggregation;
    no result inside: there is none.  [fuel] bounds the tuples. *)
Fixpoint rewind (fuel : nat) (acts : list dtrace_action) (first : nat) : option (option dtrace_action) :=
  match first with
  | O => Some None
  | S p =>
      match acts !! p with
      | None => None
      | Some prev =>
          if DTRACEACT_ISAGG (dta_kind prev) then
            match fuel, dta_agg prev with
            | S fuel, Some g => rewind fuel acts (dtag_first g)
            | _, _ => None
            end
          else Some (Some prev)
      end
  end.

(** The offset at which the first record of a tuple may start, for identifiers of four bytes. *)
Definition tuple_offset (offs : Z) : Z :=
  let diff := Z.land (u32 (offs + 4)) 7 in
  if diff =? 0 then offs else u32 (offs + (8 - diff)).

Definition align_offset (size align offs : Z) : Z :=
  let diff := Z.land offs (u32 (align - 1)) in
  if negb (size =? 0) && negb (diff =? 0) then u32 (offs + u32 (align - diff)) else offs.

(** The body of the loop: [done] are the actions before, with their offsets. *)
Definition resize_one (done : list dtrace_action) (act : dtrace_action) (z : layout) : option (dtrace_action * layout) :=
  let size := rec_size act in
  let align := rec_align act in
  let maxalign := if z_maxalign z <? align then align else z_maxalign z in
  let start := negb (z_wastuple z) && dta_intuple act in
  let offs := if start then tuple_offset (z_offs z) else z_offs z in
  let aggbase := if start then u32 (offs - 4) else z_aggbase z in
  if start && negb (Z.land aggbase 7 =? 0) then None
  else
    let offs := align_offset size align offs in
    let act := set_rec (set_offset offs (dta_rec act)) act in
    let finish := u32 (offs + size) in
    let needed := if z_needed z <? finish then finish else z_needed z in
    let most := if (z_needed z <? finish) && (z_most z <? needed) then needed else z_most z in
    if DTRACEACT_ISAGG (dta_kind act) then
      match dta_agg act with
      | None => None
      | Some g =>
          if (size =? 0) || negb (z_wastuple z) || (aggbase =? UINT32_MAX) then None
          else
            let g := AggPart (dtag_id g) (dtag_first g) aggbase (dtag_hasarg g) (dtag_initial g) (dtag_aggregate g) in
            match rewind (length done) done (dtag_first g) with
            | None => None
            | Some prev =>
                let offs := match prev with Some p => u32 (rec_offset p + rec_size p) | None => 4 end in
                Some (set_agg g act, Layout offs maxalign (dta_intuple act) aggbase (z_size z) needed most)
            end
      end
    else
      Some (act, Layout finish maxalign (dta_intuple act) aggbase (if dta_intuple act then z_size z else finish) needed most).

Fixpoint resize_loop (done todo : list dtrace_action) (z : layout) : option (list dtrace_action * layout) :=
  match todo with
  | [] => Some (done, z)
  | act :: todo =>
      match resize_one done act z with
      | Some (act, z) => resize_loop (done ++ [act]) todo z
      | None => None
      end
  end.

Definition round4 (x : Z) : Z := Z.land (u64 (x + 3)) (u64 (-4)).

(** The actions, and the layout: of dte_alignment, dte_size, dte_needed and dts_needed. *)
Definition dtrace_ecb_resize (acts : list dtrace_action) (most : Z) : option (list dtrace_action * Z * Z * Z * Z) :=
  match resize_loop [] acts (Layout 4 4 false UINT32_MAX 4 4 most) with
  | None => None
  | Some (acts, z) =>
      let quiet :=
        match acts with
        | [] => false
        | [a] => negb (dta_kind a =? DTRACEACT_SPECULATE)
        | _ => true
        end in
      if quiet && (z_size z =? 4) then
        Some (acts, z_maxalign z, 0, (if z_needed z =? 4 then 0 else z_needed z), z_most z)
      else
        let size := round4 (z_size z) in
        let needed := round4 (z_needed z) in
        if needed <? size then None else Some (acts, z_maxalign z, size, needed, z_most z)
  end.

(** * Structures and their addresses *)

(** The pointers of a probe to its ECBs, and its predicate cache. *)
Record probe_ecbs := ProbeEcbs { pe_ecb : option Z; pe_ecb_last : option Z; pe_predcache : Z }.

(** The calls of dtps_enable and dtps_disable: the provider, the identifier, the argument. *)
Inductive pop_call := Enable (prov id arg : Z) | Disable (prov id arg : Z).

Section World.
(** The allocator: the address depends on the addresses in use, which it avoids, and on its
    own state. *)
Context {pool : Type} (kalloc : gset Z -> pool -> Z * pool).

Record world := World {
  w_difo : gmap Z dtrace_difo;
  w_pred : gmap Z predicate;
  w_chain : gmap Z chain;
  w_ecb : gmap Z dtrace_ecb;
  w_probe : gmap Z probe_ecbs;
  w_state : gmap Z dtrace_state;
  w_cache : option Z;                        (** dtrace_ecb_create_cache *)
  w_vtime : vtime;
  w_pool : pool;
  w_log : list pop_call
}.

Definition set_difo (m : gmap Z dtrace_difo) (t : vtime) (w : world) : world :=
  World m (w_pred w) (w_chain w) (w_ecb w) (w_probe w) (w_state w) (w_cache w) t (w_pool w) (w_log w).
Definition set_pred (m : gmap Z predicate) (w : world) : world :=
  World (w_difo w) m (w_chain w) (w_ecb w) (w_probe w) (w_state w) (w_cache w) (w_vtime w) (w_pool w) (w_log w).
Definition set_chain (m : gmap Z chain) (w : world) : world :=
  World (w_difo w) (w_pred w) m (w_ecb w) (w_probe w) (w_state w) (w_cache w) (w_vtime w) (w_pool w) (w_log w).
Definition set_ecb (m : gmap Z dtrace_ecb) (w : world) : world :=
  World (w_difo w) (w_pred w) (w_chain w) m (w_probe w) (w_state w) (w_cache w) (w_vtime w) (w_pool w) (w_log w).
Definition set_probe (m : gmap Z probe_ecbs) (w : world) : world :=
  World (w_difo w) (w_pred w) (w_chain w) (w_ecb w) m (w_state w) (w_cache w) (w_vtime w) (w_pool w) (w_log w).
Definition set_state (m : gmap Z dtrace_state) (w : world) : world :=
  World (w_difo w) (w_pred w) (w_chain w) (w_ecb w) (w_probe w) m (w_cache w) (w_vtime w) (w_pool w) (w_log w).
Definition set_cache (c : option Z) (w : world) : world :=
  World (w_difo w) (w_pred w) (w_chain w) (w_ecb w) (w_probe w) (w_state w) c (w_vtime w) (w_pool w) (w_log w).
Definition set_pool (p : pool) (w : world) : world :=
  World (w_difo w) (w_pred w) (w_chain w) (w_ecb w) (w_probe w) (w_state w) (w_cache w) (w_vtime w) p (w_log w).
Definition add_log (c : pop_call) (w : world) : world :=
  World (w_difo w) (w_pred w) (w_chain w) (w_ecb w) (w_probe w) (w_state w) (w_cache w) (w_vtime w) (w_pool w) (w_log w ++ [c]).

(** The addresses of ECBs and actions. *)
Definition in_use (w : world) : gset Z :=
  dom (w_ecb w) ∪ dom (w_chain w) ∪ list_to_set (concat (map (fun c => map dta_self (ch_acts c.2)) (map_to_list (w_chain w)))).

(** Programs on the world; no result: an assertion fails. *)
Definition prog (A : Type) : Type := world -> option (A * world).
Definition pret {A} (a : A) : prog A := fun w => Some (a, w).
Definition pbind {A B} (m : prog A) (f : A -> prog B) : prog B :=
  fun w => match m w with Some (a, w) => f a w | None => None end.
Definition gets {A} (f : world -> option A) : prog A := fun w => match f w with Some a => Some (a, w) | None => None end.
Definition puts (f : world -> world) : prog unit := fun w => Some (tt, f w).
Definition assert (b : bool) : prog unit := fun w => if b then Some (tt, w) else None.
Definition alloc : prog Z := fun w => let '(a, p) := kalloc (in_use w) (w_pool w) in Some (a, set_pool p w).

Declare Scope prog_scope.
Notation "x <-- m ; k" := (pbind m (fun x => k)) (at level 100, m at next level, right associativity) : prog_scope.
Notation "m ;;; k" := (pbind m (fun _ => k)) (at level 100, right associativity) : prog_scope.
Open Scope prog_scope.

Definition get_ecb (e : Z) : prog dtrace_ecb := gets (fun w => w_ecb w !! e).
Definition put_ecb (e : Z) (v : dtrace_ecb) : prog unit := puts (fun w => set_ecb (<[e := v]> (w_ecb w)) w).
Definition get_state (s : Z) : prog dtrace_state := gets (fun w => w_state w !! s).
Definition put_state (s : Z) (v : dtrace_state) : prog unit := puts (fun w => set_state (<[s := v]> (w_state w)) w).
Definition get_probe (p : Z) : prog probe_ecbs := gets (fun w => w_probe w !! p).
Definition put_probe (p : Z) (v : probe_ecbs) : prog unit := puts (fun w => set_probe (<[p := v]> (w_probe w)) w).
Definition get_pred (p : Z) : prog predicate := gets (fun w => w_pred w !! p).
Definition get_difo (d : Z) : prog dtrace_difo := gets (fun w => w_difo w !! d).

(** The actions of an ECB: none before the first one is added. *)
Definition get_acts (ecb : dtrace_ecb) : prog chain :=
  match dte_action ecb with
  | None => pret (Chain 1 [])
  | Some c => gets (fun w => w_chain w !! c)
  end.

(** * References to DIF objects and predicates *)

Definition hold_difo (d : Z) : prog unit :=
  dp <-- get_difo d;
  puts (fun w => let '(dp, t) := dtrace_difo_hold dp (w_vtime w) in set_difo (<[d := dp]> (w_difo w)) t w).

Definition release_difo (s d : Z) : prog unit :=
  dp <-- get_difo d; st <-- get_state s;
  r <-- gets (fun w => dtrace_difo_release dp (dts_vstate st) (w_vtime w));
  let '(rest, vs, t) := r in
  puts (fun w => set_difo (match rest with Some dp => <[d := dp]> (w_difo w) | None => delete d (w_difo w) end) t w) ;;;
  put_state s (set_vstate vs st).

Definition hold_pred (p : Z) : prog unit :=
  pr <-- get_pred p; dp <-- get_difo (pr_difo pr);
  assert (negb (dtdo_refcnt dp =? 0) && (0 <? pr_refcnt pr)) ;;;
  puts (fun w => set_pred (<[p := Pred (pr_difo pr) (pr_refcnt pr + 1) (pr_cacheid pr)]> (w_pred w)) w).

Definition release_pred (s p : Z) : prog unit :=
  pr <-- get_pred p; dp <-- get_difo (pr_difo pr);
  assert (negb (dtdo_refcnt dp =? 0) && (0 <? pr_refcnt pr)) ;;;
  if pr_refcnt pr - 1 =? 0 then
    release_difo s (pr_difo pr) ;;; puts (fun w => set_pred (delete p (w_pred w)) w)
  else puts (fun w => set_pred (<[p := Pred (pr_difo pr) (pr_refcnt pr - 1) (pr_cacheid pr)]> (w_pred w)) w).

(** * The operations *)

Definition dtrace_ecb_add (s : Z) (probe : option Z) : prog Z :=
  e <-- alloc;
  st <-- get_state s;
  let epid := dts_epid st in
  ecbs <-- gets (fun _ => table_set epid e (dts_ecbs st));
  put_state s (set_ecbs ecbs (u32 (epid + 1)) st) ;;;
  put_ecb e (Ecb epid 4 4 4 None None None s 0 probe 0) ;;;
  pret e.

(** The action is put behind the others. *)
Definition append_action (e : Z) (ecb : dtrace_ecb) (acts : list dtrace_action) (a : dtrace_action) : prog unit :=
  let head := match dte_action ecb with Some c => c | None => dta_self a end in
  puts (fun w => set_chain (<[head := Chain 1 (acts ++ [a])]> (w_chain w)) w) ;;;
  put_ecb e (Ecb (dte_epid ecb) (dte_alignment ecb) (dte_needed ecb) (dte_size ecb) (dte_predicate ecb) (Some head)
    (dte_next ecb) (dte_state ecb) (dte_cond ecb) (dte_probe ecb) (dte_uarg ecb)).

(** The common end of dtrace_ecb_action_add(): alignment, reference, record, links. *)
Definition finish_action (e : Z) (ecb : dtrace_ecb) (acts : list dtrace_action) (self : Z) (desc : act_desc)
    (size : Z) (arg : act_arg) (format : Z) (g : option agg_part) : prog Z :=
  (match ad_difo desc with Some d => hold_difo d | None => pret tt end) ;;;
  append_action e ecb acts
    (Action self (ad_kind desc) false (ad_difo desc)
      (RecDesc (ad_kind desc) size 0 (u16 (rec_alignment size)) format arg (ad_uarg desc)) g) ;;;
  pret 0.

Definition dtrace_ecb_action_add (e : Z) (desc : act_desc) : prog Z :=
  ecb <-- get_ecb e;
  st <-- get_state (dte_state ecb);
  ch <-- get_acts ecb;
  let acts := ch_acts ch in
  assert (ch_refcnt ch =? 1) ;;;
  if DTRACEACT_ISAGG (ad_kind desc) then
    if has_kind DTRACEACT_COMMIT acts || has_kind DTRACEACT_SPECULATE acts then pret EINVAL
    else
      self <-- alloc;
      r <-- gets (fun w => dtrace_ecb_aggregation_create (fun d => w_difo w !! d) st self acts desc);
      let '(r, st) := r in
      put_state (dte_state ecb) st ;;;
      match r with
      | None => pret EINVAL
      | Some (size, acts, g) => finish_action e ecb acts self desc size (ad_arg desc) 0 (Some g)
      end
  else
    r <-- gets (fun w =>
      match ad_difo desc with
      | None => plain_action st (dte_size ecb) acts desc None
      | Some d => match w_difo w !! d with Some dp => plain_action st (dte_size ecb) acts desc (Some dp) | None => None end
      end);
    let '(r, st) := r in
    put_state (dte_state ecb) st ;;;
    match r with
    | None => pret EINVAL
    | Some (size, arg, format) =>
        self <-- alloc;
        finish_action e ecb acts self desc size arg format None
    end.

(** The release of one action of a list that nobody else uses. *)
Definition remove_action (s : Z) (a : dtrace_action) : prog unit :=
  (if dtrd_format (dta_rec a) =? 0 then pret tt
   else
     st <-- get_state s;
     st <-- gets (fun _ => dtrace_format_remove st (dtrd_format (dta_rec a)));
     put_state s st) ;;;
  (match dta_difo a with Some d => release_difo s d | None => pret tt end) ;;;
  if DTRACEACT_ISAGG (dta_kind a) then
    st <-- get_state s;
    st <-- gets (fun _ => dtrace_ecb_aggregation_destroy st a);
    put_state s st
  else pret tt.

Fixpoint remove_actions (s : Z) (acts : list dtrace_action) : prog unit :=
  match acts with
  | [] => pret tt
  | a :: acts => remove_action s a ;;; remove_actions s acts
  end.

Definition dtrace_ecb_action_remove (e : Z) : prog unit :=
  ecb <-- get_ecb e;
  (match dte_action ecb with
   | None => pret tt
   | Some c =>
       ch <-- gets (fun w => w_chain w !! c);
       if 1 <? ch_refcnt ch then
         puts (fun w => set_chain (<[c := Chain (ch_refcnt ch - 1) (ch_acts ch)]> (w_chain w)) w)
       else
         assert (ch_refcnt ch =? 1) ;;;
         remove_actions (dte_state ecb) (ch_acts ch) ;;;
         puts (fun w => set_chain (delete c (w_chain w)) w)
   end) ;;;
  put_ecb e (Ecb (dte_epid ecb) (dte_alignment ecb) (dte_needed ecb) 4 (dte_predicate ecb) None
    (dte_next ecb) (dte_state ecb) (dte_cond ecb) (dte_probe ecb) (dte_uarg ecb)).

Definition set_next (next : option Z) (ecb : dtrace_ecb) : dtrace_ecb :=
  Ecb (dte_epid ecb) (dte_alignment ecb) (dte_needed ecb) (dte_size ecb) (dte_predicate ecb) (dte_action ecb)
    next (dte_state ecb) (dte_cond ecb) (dte_probe ecb) (dte_uarg ecb).

(** The cache identifier of an ECB's predicate, if it has one. *)
Definition cacheid (ecb : dtrace_ecb) : prog (option Z) :=
  match dte_predicate ecb with
  | None => pret None
  | Some p => pr <-- get_pred p; pret (Some (pr_cacheid pr))
  end.

(** The registry of probes and the answers of the providers' dtps_enable. *)
Context (r : registry) (dtps_enable : Z -> Z -> Z -> Z).

Definition dtrace_ecb_enable (e : Z) : prog Z :=
  ecb <-- get_ecb e;
  assert (bool_decide (dte_next ecb = None)) ;;;
  match dte_probe ecb with
  | None => pret 0
  | Some p =>
      pe <-- get_probe p;
      match pe_ecb pe with
      | None =>
          let pr := probe_at r p in
          let prov := provider_at r (dtpr_provider pr) in
          id <-- cacheid ecb;
          put_probe p (ProbeEcbs (Some e) (Some e) (default (pe_predcache pe) id)) ;;;
          puts (add_log (Enable (dtpr_provider pr) (dtpr_id pr) (dtpr_arg pr))) ;;;
          pret (dtps_enable (dtpv_arg prov) (dtpr_id pr) (dtpr_arg pr))
      | Some first =>
          last <-- gets (fun _ => pe_ecb_last pe);
          lecb <-- get_ecb last;
          put_ecb last (set_next (Some e) lecb) ;;;
          put_probe p (ProbeEcbs (Some first) (Some e) 0) ;;;
          pret 0
      end
  end.

(** The walk along a probe's ECBs to [e]; the ECB before it. *)
Fixpoint find_ecb (fuel : nat) (e : Z) (prev pecb : option Z) : prog (option Z) :=
  match pecb with
  | None => fun _ => None
  | Some x =>
      if x =? e then pret prev
      else
        match fuel with
        | O => fun _ => None
        | S fuel => xe <-- get_ecb x; find_ecb fuel e (Some x) (dte_next xe)
        end
  end.

Definition dtrace_ecb_disable (e : Z) : prog unit :=
  ecb <-- get_ecb e;
  match dte_probe ecb with
  | None => pret tt
  | Some p =>
      pe <-- get_probe p;
      n <-- gets (fun w => Some (size (w_ecb w)));
      prev <-- find_ecb n e None (pe_ecb pe);
      (match prev with
       | None => pret tt
       | Some x => xe <-- get_ecb x; put_ecb x (set_next (dte_next ecb) xe)
       end) ;;;
      let first := match prev with None => dte_next ecb | Some _ => pe_ecb pe end in
      let islast := bool_decide (pe_ecb_last pe = Some e) in
      assert (negb islast || bool_decide (dte_next ecb = None)) ;;;
      let last := if islast then prev else pe_ecb_last pe in
      match first with
      | None =>
          let pr := probe_at r p in
          assert (bool_decide (dte_next ecb = None) && bool_decide (last = None)) ;;;
          put_probe p (ProbeEcbs None None DTRACE_CACHEIDNONE) ;;;
          puts (add_log (Disable (dtpr_provider pr) (dtpr_id pr) (dtpr_arg pr)))
      | Some f =>
          assert (bool_decide (last <> None) && (pe_predcache pe =? DTRACE_CACHEIDNONE)) ;;;
          (if bool_decide (first = last) then
             fe <-- get_ecb f;
             assert (bool_decide (dte_next fe = None)) ;;;
             id <-- cacheid fe;
             put_probe p (ProbeEcbs first last (default (pe_predcache pe) id))
           else put_probe p (ProbeEcbs first last (pe_predcache pe))) ;;;
          put_ecb e (set_next None ecb)
      end
  end.

Definition dtrace_ecb_destroy (e : Z) : prog unit :=
  ecb <-- get_ecb e;
  assert (bool_decide (dte_next ecb = None)) ;;;
  (match dte_probe ecb with
   | None => pret tt
   | Some p => pe <-- get_probe p; assert (negb (bool_decide (pe_ecb pe = Some e)))
   end) ;;;
  (match dte_predicate ecb with Some p => release_pred (dte_state ecb) p | None => pret tt end) ;;;
  dtrace_ecb_action_remove e ;;;
  st <-- get_state (dte_state ecb);
  ecbs <-- gets (fun _ => table_clear (dte_epid ecb) e (dts_ecbs st));
  put_state (dte_state ecb) (set_ecbs ecbs (dts_epid st) st) ;;;
  puts (fun w => set_ecb (delete e (w_ecb w)) w).

(** A description of an ECB. *)
Record ecb_desc := EcbDescr { ed_action : list act_desc; ed_pred : option Z; ed_uarg : Z }.

Definition DTRACE_COND_OWNER : Z := 1.
Definition DTRACE_COND_USERMODE : Z := 2.
Definition DTRACE_COND_ZONEOWNER : Z := 4.
Definition DTRACE_CRV_ALLPROC : Z := 1.
Definition DTRACE_CRV_ALLZONE : Z := 4.

(** The conditions a consumer without the privileges is put under. *)
Definition ecb_cond (visible : Z) (probe : option Z) : Z :=
  match probe with
  | None => 0
  | Some p =>
      let flags := dtpp_flags (provider_at r (dtpr_provider (probe_at r p))) in
      let unless crv priv cond c := if (Z.land visible crv =? 0) && negb (Z.land flags priv =? 0) then Z.lor c cond else c in
      unless DTRACE_CRV_KERNEL DTRACE_PRIV_KERNEL DTRACE_COND_USERMODE
        (unless DTRACE_CRV_ALLZONE DTRACE_PRIV_USER DTRACE_COND_ZONEOWNER
          (unless DTRACE_CRV_ALLPROC DTRACE_PRIV_USER DTRACE_COND_OWNER 0))
  end.

(** The actions of the description are added until one fails. *)
Fixpoint add_actions (e : Z) (descs : list act_desc) : prog Z :=
  match descs with
  | [] => pret 0
  | desc :: descs => err <-- dtrace_ecb_action_add e desc; if err =? 0 then add_actions e descs else pret err
  end.

(** dtrace_ecb_resize() applied to an ECB and its consumer. *)
Definition resize_ecb (e : Z) : prog unit :=
  ecb <-- get_ecb e;
  st <-- get_state (dte_state ecb);
  ch <-- get_acts ecb;
  x <-- gets (fun _ => dtrace_ecb_resize (ch_acts ch) (dts_needed st));
  let '(acts, align, size, needed, most) := x in
  (match dte_action ecb with
   | Some c => puts (fun w => set_chain (<[c := Chain (ch_refcnt ch) acts]> (w_chain w)) w)
   | None => pret tt
   end) ;;;
  put_state (dte_state ecb) (set_needed most st) ;;;
  put_ecb e (Ecb (dte_epid ecb) align needed size (dte_predicate ecb) (dte_action ecb)
    (dte_next ecb) (dte_state ecb) (dte_cond ecb) (dte_probe ecb) (dte_uarg ecb)).

(** The ECB takes the actions of the cached one. *)
Definition share_actions (e cached : Z) : prog unit :=
  ecb <-- get_ecb e;
  c <-- get_ecb cached;
  match dte_action c with
  | None => pret tt
  | Some a =>
      ch <-- gets (fun w => w_chain w !! a);
      assert (0 <? ch_refcnt ch) ;;;
      puts (fun w => set_chain (<[a := Chain (ch_refcnt ch + 1) (ch_acts ch)]> (w_chain w)) w) ;;;
      put_ecb e (Ecb (dte_epid ecb) (dte_alignment c) (dte_needed c) (dte_size c) (dte_predicate ecb) (Some a)
        (dte_next ecb) (dte_state ecb) (dte_cond ecb) (dte_probe ecb) (dte_uarg ecb))
  end.

(** The ECB, or NULL and the error. *)
Definition dtrace_ecb_create (s : Z) (probe : option Z) (desc : ecb_desc) : prog (Z + Z) :=
  e <-- dtrace_ecb_add s probe;
  (match ed_pred desc with Some p => hold_pred p | None => pret tt end) ;;;
  ecb <-- get_ecb e;
  st <-- get_state s;
  put_ecb e (Ecb (dte_epid ecb) (dte_alignment ecb) (dte_needed ecb) (dte_size ecb) (ed_pred desc) None None s
    (ecb_cond (dcr_visible st) probe) probe (ed_uarg desc)) ;;;
  cache <-- gets (fun w => Some (w_cache w));
  match cache with
  | Some cached => share_actions e cached ;;; pret (inl e)
  | None =>
      err <-- add_actions e (ed_action desc);
      if err =? 0 then
        resize_ecb e ;;; puts (set_cache (Some e)) ;;; pret (inl e)
      else dtrace_ecb_destroy e ;;; pret (inr err)
  end.

(** The answer to dtrace_match(), and dten_error. *)
Definition dtrace_ecb_create_enable (s probegen : Z) (desc : ecb_desc) (probe : option Z) : prog (Z * Z) :=
  if match probe with Some p => dtpr_gen (probe_at r p) <? probegen | None => false end then pret (DTRACE_MATCH_NEXT, 0)
  else
    x <-- dtrace_ecb_create s probe desc;
    match x with
    | inr err => pret (DTRACE_MATCH_DONE, err)
    | inl e => rv <-- dtrace_ecb_enable e; pret (if rv <? 0 then DTRACE_MATCH_FAIL else DTRACE_MATCH_NEXT, 0)
    end.

Definition dtrace_epid2ecb (st : dtrace_state) (id : Z) : option Z :=
  if (id =? 0) || (Z.of_nat (length (dts_ecbs st)) <? id) then None else default None (zlookup (dts_ecbs st) (id - 1)).

Definition dtrace_aggid2agg (st : dtrace_state) (id : Z) : option Z :=
  if (id =? 0) || (Z.of_nat (length (dts_aggregations st)) <? id) then None
  else default None (zlookup (dts_aggregations st) (id - 1)).
End World.
