(* ===== verification/EcbLayout.v ===== *)
(** The layout of the records of an ECB: what dtrace_ecb_action_add() and
    dtrace_ecb_resize() establish, and that it is what aggregations and buffers rely on. *)
From S2P Require Import Prelude Dif SafeMem DifValidate DifObject Aggregate Match Probes Dof Ecb.
From Stdlib Require Import Sorted.
From stdpp Require Import gmap list sorting.
#[local] Open Scope Z_scope.

(** * Alignment *)

Definition align_ok (n : Z) : Prop := n = 1 \/ n = 2 \/ n = 4 \/ n = 8.

Lemma mask_mod x n : 0 <= n -> Z.land x (2 ^ n - 1) = x mod 2 ^ n.
Proof. apply land_ones_low. Qed.

Lemma rec_alignment_eq size :
  rec_alignment size =
    if size =? 0 then 1 else if Z.land size 7 =? 0 then 8 else if Z.land size 3 =? 0 then 4
    else if Z.land size 1 =? 0 then 2 else 1.
Proof.
  cbv -[Z.land Z.eqb]. destruct (size =? 0), (Z.land size 7 =? 0), (Z.land size 3 =? 0), (Z.land size 1 =? 0); reflexivity.
Qed.

Lemma rec_alignment_spec size :
  align_ok (rec_alignment size) /\ (size <> 0 -> size mod 8 = 0 -> rec_alignment size = 8).
Proof.
  rewrite rec_alignment_eq. pose proof (mask_mod size 3 ltac:(lia)) as H7.
  change (2 ^ 3 - 1) with 7 in H7. change (2 ^ 3) with 8 in H7. rewrite H7. unfold align_ok.
  destruct (Z.eqb_spec size 0), (Z.eqb_spec (size mod 8) 0), (Z.land size 3 =? 0), (Z.land size 1 =? 0); lia.
Qed.

Lemma align_offset_spec size align offs :
  align_ok align -> 0 <= offs -> offs + 8 < 2 ^ 32 ->
  let r := align_offset size align offs in
  offs <= r <= offs + 7 /\ (size = 0 \/ r mod align = 0).
Proof.
  intros Ha Ho Hb. unfold align_offset. cbv zeta.
  assert (Hd : Z.land offs (u32 (align - 1)) = offs mod align).
  { destruct Ha as [->|[->|[->| ->]]]; [apply (mask_mod _ 0)|apply (mask_mod _ 1)|apply (mask_mod _ 2)|apply (mask_mod _ 3)]; lia. }
  rewrite Hd. assert (Hal : 0 < align <= 8) by (unfold align_ok in Ha; lia).
  destruct (Z.eqb_spec size 0); cbn; [lia|].
  destruct (Z.eqb_spec (offs mod align) 0) as [E|E]; cbn; [lia|].
  pose proof (Z.mod_pos_bound offs align ltac:(lia)).
  assert (Hu : u32 (align - offs mod align) = align - offs mod align) by (unfold u32; rewrite Z.mod_small; lia).
  rewrite Hu. unfold u32. rewrite Z.mod_small by lia. split; [lia|right].
  destruct Ha as [->|[->|[->| ->]]]; lia.
Qed.

Lemma tuple_offset_spec offs :
  0 <= offs -> offs + 8 < 2 ^ 32 -> let r := tuple_offset offs in offs <= r <= offs + 7 /\ r mod 8 = 4.
Proof.
  intros Ho Hb. unfold tuple_offset. cbv zeta.
  assert (Hu : u32 (offs + 4) = offs + 4) by (unfold u32; rewrite Z.mod_small; lia). rewrite Hu.
  pose proof (mask_mod (offs + 4) 3 ltac:(lia)) as Hm. change (2 ^ 3 - 1) with 7 in Hm. change (2 ^ 3) with 8 in Hm. rewrite Hm.
  destruct (Z.eqb_spec ((offs + 4) mod 8) 0) as [E|E]; [lia|].
  unfold u32. rewrite Z.mod_small by lia. lia.
Qed.

(** * The shape of a list of actions *)

Definition isagg (a : dtrace_action) : bool := DTRACEACT_ISAGG (dta_kind a).
Definition rec_ok (a : dtrace_action) : Prop := 0 <= rec_size a < 2 ^ 32 /\ align_ok (rec_align a).
Definition rec_end (a : dtrace_action) : Z := rec_offset a + rec_size a.

(** An action whose record stays in the buffer. *)
Definition stored (a : dtrace_action) : bool := negb (isagg a) && negb (dta_intuple a).
Definition tupled (a : dtrace_action) : bool := negb (isagg a) && dta_intuple a.

(** An aggregating action whose tuple begins at [first]. *)
Definition aggregates (first : nat) (a : dtrace_action) : Prop :=
  isagg a = true /\ dta_intuple a = false /\ rec_align a = 8 /\ 0 < rec_size a < 2 ^ 32 /\
  exists g, dta_agg a = Some g /\ dtag_first g = first.

Inductive chain_wf : list dtrace_action -> Prop :=
| wf_nil : chain_wf []
| wf_plain l a : chain_wf l -> stored a = true -> rec_ok a -> chain_wf (l ++ [a])
| wf_agg l t a :
    chain_wf l -> t <> [] -> Forall (fun b => tupled b = true /\ rec_ok b) t -> aggregates (length l) a ->
    chain_wf (l ++ t ++ [a]).

(** An action that was given its place. *)
Definition place (o : Z) (a : dtrace_action) : dtrace_action := set_rec (Ecb.set_offset o (dta_rec a)) a.

(** Room that the records need with all padding. *)
Definition room (l : list dtrace_action) : Z := foldr (fun a n => rec_size a + 16 + n) 0 l.

Lemma room_app l l' : room (l ++ l') = room l + room l'.
Proof. induction l as [|a l IH]; cbn; [done|]. fold (room (l ++ l')) (room l). lia. Qed.

Lemma room_nonneg l : chain_wf l -> 0 <= room l.
Proof.
  assert (Ht : forall t, Forall (fun b => tupled b = true /\ rec_ok b) t -> 0 <= room t).
  { induction 1 as [|b t [_ [Hb _]] _ IH]; cbn; [lia|]. fold (room t). lia. }
  induction 1 as [|l a Hl IH Hs [Hr _]|l t a Hl IH _ Hf%Ht (_ & _ & _ & Hr & _)]; rewrite ?room_app; cbn; lia.
Qed.

(** Records placed one behind the other, from [lo] to [hi]. *)
Fixpoint in_order (lo : Z) (l : list dtrace_action) (hi : Z) : Prop :=
  match l with
  | [] => lo = hi
  | a :: l => lo <= rec_offset a /\ in_order (rec_end a) l hi
  end.

(** The end of the last record that stays, or of the EPID. *)
Definition stored_end (l : list dtrace_action) : Z := foldl (fun e a => if stored a then rec_end a else e) 4 l.

Lemma stored_end_app l l' : Forall (fun a => stored a = false) l' -> stored_end (l ++ l') = stored_end l.
Proof. unfold stored_end. rewrite foldl_app. generalize (foldl (fun e a => if stored a then rec_end a else e) 4 l).
  intros e Hf. induction Hf as [|a l' Ha _ IH]; cbn; [done|]. by rewrite Ha. Qed.

Lemma tupled_not_stored a : tupled a = true -> stored a = false.
Proof. unfold tupled, stored. destruct (isagg a), (dta_intuple a); done. Qed.

Lemma aggregates_not_stored i a : aggregates i a -> stored a = false.
Proof. intros [H _]. unfold stored. by rewrite H. Qed.

Lemma rewind_spec l x fuel :
  chain_wf l -> (length l <= fuel)%nat -> Forall (fun a => 0 <= rec_end a < 2 ^ 32) l ->
  exists p, rewind fuel (l ++ x) (length l) = Some p /\
    match p with Some p => u32 (rec_offset p + rec_size p) | None => 4 end = stored_end l.
Proof.
  intros Hwf. revert x fuel. induction Hwf as [|l a Hl IH Hs Hr|l t a Hl IH Hne Ht Ha]; intros x fuel Hf Hb.
  - exists None. by destruct fuel.
  - apply Forall_app in Hb as [_ [Hb _]%Forall_cons_1]. exists (Some a). rewrite length_app, Nat.add_1_r.
    assert (Hlk : ((l ++ [a]) ++ x) !! length l = Some a) by (rewrite <- app_assoc; by apply list_lookup_middle).
    pose proof Hs as Hs'. unfold stored, isagg in Hs'. apply andb_prop in Hs' as [Hk%negb_true_iff _].
    destruct fuel; cbn [rewind]; rewrite Hlk, Hk; (split; [done|]); unfold stored_end; rewrite foldl_app; cbn; rewrite Hs;
      unfold u32; unfold rec_end in *; rewrite Z.mod_small; (done || lia).
  - destruct Ha as (Hk & Hi & _ & _ & g & Hg & Hfst). apply Forall_app in Hb as [Hb _].
    replace (length (l ++ t ++ [a])) with (S (length (l ++ t))) in * by (rewrite !length_app; cbn; lia).
    assert (Hlk : ((l ++ t ++ [a]) ++ x) !! length (l ++ t) = Some a).
    { rewrite (app_assoc l t), <- app_assoc. by apply list_lookup_middle. }
    destruct fuel as [|fuel]; [lia|]. cbn [rewind]. unfold isagg in Hk. rewrite Hlk, Hk, Hg, Hfst, <- app_assoc.
    destruct (IH ((t ++ [a]) ++ x) fuel) as (p & Hp & He); [rewrite length_app in Hf; lia|done|].
    exists p. split; [done|]. rewrite He. symmetry. apply stored_end_app, Forall_app. split.
    + eapply Forall_impl; [exact Ht|]. intros b [Hb' _]. by apply tupled_not_stored.
    + constructor; [|done]. unfold stored, isagg. by rewrite Hk.
Qed.

(** * One action *)

Definition more_needed (z : layout) (fin : Z) : Z := if z_needed z <? fin then Z.max (z_most z) fin else z_most z.

Lemma u32_small x : 0 <= x < 2 ^ 32 -> u32 x = x.
Proof. intros. unfold u32. apply Z.mod_small. lia. Qed.

Lemma most_eq z fin :
  (if (z_needed z <? fin) && (z_most z <? (if z_needed z <? fin then fin else z_needed z))
   then if z_needed z <? fin then fin else z_needed z else z_most z) = more_needed z fin.
Proof. unfold more_needed. destruct (Z.ltb_spec (z_needed z) fin); cbn; [|done]. destruct (Z.ltb_spec (z_most z) fin); lia. Qed.

Lemma max_eq x y : (if x <? y then y else x) = Z.max x y.
Proof. destruct (Z.ltb_spec x y); lia. Qed.

Lemma resize_record done a z :
  isagg a = false -> rec_ok a -> 4 <= z_offs z <= z_needed z -> z_needed z + rec_size a + 16 < 2 ^ 32 ->
  exists o b,
    resize_one done a z = Some (place o a,
      Layout (o + rec_size a) (Z.max (z_maxalign z) (rec_align a)) (dta_intuple a) b
        (if dta_intuple a then z_size z else o + rec_size a) (Z.max (z_needed z) (o + rec_size a)) (more_needed z (o + rec_size a))) /\
    z_offs z <= o <= z_offs z + 14 /\ (rec_size a = 0 \/ o mod rec_align a = 0) /\
    (if negb (z_wastuple z) && dta_intuple a then b mod 8 = 0 /\ 0 <= b /\ b + 4 <= o else b = z_aggbase z).
Proof.
  intros Hk [Hs Ha] Ho Hb. unfold resize_one. cbv zeta.
  set (start := negb (z_wastuple z) && dta_intuple a).
  set (o1 := if start then tuple_offset (z_offs z) else z_offs z).
  set (b := if start then u32 (o1 - 4) else z_aggbase z).
  assert (Ho1 : z_offs z <= o1 <= z_offs z + 7 /\ (start = true -> o1 mod 8 = 4)).
  { unfold o1. destruct start; [|split; [lia|done]]. pose proof (tuple_offset_spec (z_offs z) ltac:(lia) ltac:(lia)) as [? ?]. done. }
  destruct Ho1 as [Ho1 Hm1].
  assert (Hbase : if start then b mod 8 = 0 /\ 0 <= b /\ b + 4 <= o1 else b = z_aggbase z).
  { unfold b. destruct start; [|done]. specialize (Hm1 eq_refl). rewrite u32_small by lia. lia. }
  assert (Hland : start && negb (Z.land b 7 =? 0) = false).
  { destruct start; [|done]. pose proof (mask_mod b 3 ltac:(lia)) as Hm. change (2 ^ 3 - 1) with 7 in Hm. rewrite Hm.
    change (2 ^ 3) with 8. destruct Hbase as [-> _]. done. }
  rewrite Hland. pose proof (align_offset_spec (rec_size a) (rec_align a) o1 Ha ltac:(lia) ltac:(lia)) as [Hr Hal].
  set (o := align_offset _ _ o1) in *. clearbody o.
  change (set_rec _ a) with (place o a). change (dta_kind (place o a)) with (dta_kind a).
  unfold isagg in Hk. rewrite Hk. rewrite (u32_small (o + rec_size a)) by lia. rewrite most_eq, !max_eq.
  exists o, b. split_and!; try done; try lia. destruct start; [|done]. lia.
Qed.

Lemma resize_agg l t a z :
  chain_wf l -> Forall (fun b => 0 <= rec_end b < 2 ^ 32) l -> aggregates (length l) a ->
  z_wastuple z = true -> 0 <= z_aggbase z < UINT32_MAX ->
  4 <= z_offs z <= z_needed z -> z_needed z + rec_size a + 16 < 2 ^ 32 ->
  exists o g,
    resize_one (l ++ t) a z = Some (set_agg g (place o a),
      Layout (stored_end l) (Z.max (z_maxalign z) 8) false (z_aggbase z) (z_size z)
        (Z.max (z_needed z) (o + rec_size a)) (more_needed z (o + rec_size a))) /\
    z_offs z <= o <= z_offs z + 7 /\ o mod 8 = 0 /\
    exists g0, dta_agg a = Some g0 /\
      g = AggPart (dtag_id g0) (dtag_first g0) (z_aggbase z) (dtag_hasarg g0) (dtag_initial g0) (dtag_aggregate g0).
Proof.
  intros Hwf Hl (Hk & Hi & Hal & Hs & g0 & Hg & Hfst) Hw Hab Ho Hb. unfold resize_one. cbv zeta. rewrite Hw, Hi, Hal. cbn [negb andb].
  pose proof (align_offset_spec (rec_size a) 8 (z_offs z) ltac:(unfold align_ok; lia) ltac:(lia) ltac:(lia)) as [Hr Hm].
  set (o := align_offset _ _ (z_offs z)) in *. clearbody o.
  change (set_rec _ a) with (place o a). change (dta_kind (place o a)) with (dta_kind a).
  change (dta_agg (place o a)) with (dta_agg a). change (dta_intuple (place o a)) with (dta_intuple a).
  unfold isagg in Hk. rewrite Hk, Hg, Hi. cbn [dtag_first dtag_id]. rewrite Hfst.
  destruct (Z.eqb_spec (rec_size a) 0); [lia|]. destruct (Z.eqb_spec (z_aggbase z) UINT32_MAX); [lia|]. cbn [orb negb].
  destruct (rewind_spec l t (length (l ++ t)) Hwf) as (p & -> & ->); [rewrite length_app; lia|done|].
  rewrite (u32_small (o + rec_size a)) by lia. rewrite most_eq, !max_eq.
  eexists o, _. split; [reflexivity|]. split_and!; try lia. exists g0. by rewrite Hfst.
Qed.

(** * The loop *)

(** What is left of an action without its place. *)
Definition strip (a : dtrace_action) : dtrace_action :=
  let a' := place 0 a in
  match dta_agg a with
  | Some g => set_agg (AggPart (dtag_id g) (dtag_first g) 0 (dtag_hasarg g) (dtag_initial g) (dtag_aggregate g)) a'
  | None => a'
  end.

Definition placed (z : layout) (a : dtrace_action) : Prop :=
  4 <= rec_offset a /\ rec_end a <= z_needed z /\ rec_align a <= z_maxalign z /\
  (rec_size a = 0 \/ rec_offset a mod rec_align a = 0).

(** The greatest need of the consumer's ECBs. *)
Definition most_of (m0 : Z) (z : layout) : Prop := z_most z = if 4 <? z_needed z then Z.max m0 (z_needed z) else m0.

Record grows (n : Z) (z z' : layout) : Prop := {
  gr_needed : z_needed z <= z_needed z' <= z_needed z + n;
  gr_align : z_maxalign z <= z_maxalign z';
  gr_align_ok : z_maxalign z = 4 \/ z_maxalign z = 8 -> z_maxalign z' = 4 \/ z_maxalign z' = 8;
  gr_most : forall m0, 4 <= z_needed z -> most_of m0 z -> most_of m0 z'
}.

Lemma grows_refl z : grows 0 z z.
Proof. split; (done || lia). Qed.

Lemma grows_trans n1 n2 z1 z2 z3 : grows n1 z1 z2 -> grows n2 z2 z3 -> grows (n1 + n2) z1 z3.
Proof.
  intros [[? ?] ? Ha Hm] [[? ?] ? Ha' Hm']. split; [lia|lia|auto|]. intros m0 H4 Hm0. apply Hm'; [lia|]. by apply Hm.
Qed.

Lemma grows_le n m z z' : n <= m -> grows n z z' -> grows m z z'.
Proof. intros ? [[? ?] ? ? ?]. split; try done. lia. Qed.

Lemma grows_step z offs align was base size fin n :
  4 <= z_needed z -> 0 <= n -> fin <= z_needed z + n -> align_ok align ->
  grows n z (Layout offs (Z.max (z_maxalign z) align) was base size (Z.max (z_needed z) fin) (more_needed z fin)).
Proof.
  intros H4 Hn Hf Ha. split; cbn; [lia|lia|unfold align_ok in Ha; lia|].
  intros m0 _. unfold most_of, more_needed. cbn. intros ->.
  destruct (Z.ltb_spec (z_needed z) fin), (Z.ltb_spec 4 (z_needed z)), (Z.ltb_spec 4 (Z.max (z_needed z) fin)); lia.
Qed.

Lemma placed_mono n z z' l : grows n z z' -> Forall (placed z) l -> Forall (placed z') l.
Proof.
  intros [[? _] ? _ _] Hf. eapply Forall_impl; [exact Hf|]. intros a (? & ? & ? & ?). split_and!; (done || lia).
Qed.

Lemma strip_place o a : strip (place o a) = strip a.
Proof. done. Qed.

Lemma in_order_app lo l l' mid hi : in_order lo l mid -> in_order mid l' hi -> in_order lo (l ++ l') hi.
Proof. revert lo. induction l as [|a l IH]; intros lo; cbn; [by intros ->|]. intros [? H] H'. split; [done|]. by apply IH. Qed.

Definition in_tuple (a : dtrace_action) : Prop := tupled a = true /\ rec_ok a.

Lemma resize_tuple t : forall done rest z,
  Forall in_tuple t -> z_wastuple z = true -> 4 <= z_offs z <= z_needed z -> z_needed z + room t < 2 ^ 32 ->
  exists t' z',
    resize_loop done (t ++ rest) z = resize_loop (done ++ t') rest z' /\
    map strip t' = map strip t /\ Forall in_tuple t' /\ Forall (placed z') t' /\
    in_order (z_offs z) t' (z_offs z') /\ grows (room t) z z' /\
    z_wastuple z' = true /\ z_aggbase z' = z_aggbase z /\ z_size z' = z_size z /\ z_offs z <= z_offs z' <= z_needed z'.
Proof.
  induction t as [|a t IH]; intros done rest z Hf Hw Ho Hb.
  - exists [], z. rewrite app_nil_r. split_and!; try done; try apply grows_refl; (done || lia).
  - apply Forall_cons_1 in Hf as [[Ht Hr] Hf]. cbn in Hb. fold (room t) in Hb. pose proof Hr as [Hs Hal].
    assert (Hroom : 0 <= room t).
    { clear -Hf. induction Hf as [|b t [_ [? _]] _ IH]; cbn; [lia|]. fold (room t). lia. }
    pose proof Ht as Ht'. unfold tupled in Ht'. apply andb_prop in Ht' as [Hk%negb_true_iff Hi].
    destruct (resize_record done a z Hk Hr Ho) as (o & b & Hone & Hor & Hom & Hbase); [lia|]. rewrite Hw in Hbase. cbn in Hbase. subst b.
    cbn [app resize_loop]. rewrite Hone, Hi. cbn [negb].
    set (z1 := Layout _ _ _ _ _ _ _).
    assert (Hg1 : grows (rec_size a + 16) z z1) by (apply grows_step; (done || lia)).
    destruct (IH (done ++ [place o a]) rest z1 Hf) as (t' & z' & Hl & Hst & Hin & Hpl & Hord & Hg & Hw' & Hb' & Hs' & Ho');
      [done|cbn; lia|cbn; lia|].
    exists (place o a :: t'), z'. rewrite <- app_assoc in Hl. split_and!; try done.
    + cbn. by rewrite Hst, strip_place.
    + constructor; [|done]. split; done.
    + constructor; [|done]. destruct Hg as [[? _] Hmx _ _]. cbn in *. unfold placed, rec_end. cbn. split_and!; (done || lia).
    + split; [cbn; lia|done].
    + cbn. fold (room t). eapply grows_trans; eassumption.
    + cbn in Ho'. lia.
    + lia.
Qed.

(** * Layouts *)

(** A record that stays is not overwritten by a later one. *)
Definition keeps (a b : dtrace_action) : Prop := stored a = true -> rec_end a <= rec_offset b.

(** The tuple of the aggregating action at [k] that begins at [first]. *)
Definition tuple_of (l : list dtrace_action) (first k : nat) : list dtrace_action := take (k - first) (drop first l).

Record tuple_laid (l : list dtrace_action) (k : nat) (a : dtrace_action) (g : agg_part) : Prop := {
  tl_first : (dtag_first g < k)%nat;
  tl_members : Forall in_tuple (tuple_of l (dtag_first g) k);
  tl_base : 0 <= dtag_base g /\ dtag_base g mod 8 = 0;
  tl_order : exists hi, in_order (dtag_base g + 4) (tuple_of l (dtag_first g) k) hi /\ hi <= rec_offset a
}.

Definition tuples_laid (l : list dtrace_action) : Prop :=
  forall k a g, l !! k = Some a -> isagg a = true -> dta_agg a = Some g -> tuple_laid l k a g.

Record laid_out (l : list dtrace_action) (z : layout) : Prop := {
  lo_wf : chain_wf l;
  lo_was : z_wastuple z = false;
  lo_offs : z_offs z = stored_end l;
  lo_size : z_size z = stored_end l;
  lo_range : 4 <= stored_end l <= z_needed z;
  lo_placed : Forall (placed z) l;
  lo_kept : StronglySorted keeps l;
  lo_stored : Forall (fun a => stored a = true -> rec_end a <= stored_end l) l;
  lo_tuples : tuples_laid l
}.

Lemma tuple_of_app l l' first k : (k <= length l)%nat -> tuple_of (l ++ l') first k = tuple_of l first k.
Proof.
  intros Hk. unfold tuple_of. destruct (decide (first <= length l)%nat).
  - rewrite drop_app_le by done. apply take_app_le. rewrite length_drop. lia.
  - by replace (k - first)%nat with O by lia.
Qed.

Lemma tuples_laid_app l l' :
  tuples_laid l ->
  (forall k a g, l' !! k = Some a -> isagg a = true -> dta_agg a = Some g -> tuple_laid (l ++ l') (length l + k) a g) ->
  tuples_laid (l ++ l').
Proof.
  intros Hl Hl' k a g Hk Ha Hg. apply lookup_app_Some in Hk as [Hk|[Hge Hk]].
  - pose proof (lookup_lt_Some _ _ _ Hk). destruct (Hl k a g Hk Ha Hg) as [H1 H2 H3 H4].
    split; rewrite ?tuple_of_app by lia; done.
  - replace k with (length l + (k - length l))%nat by lia. by apply Hl'.
Qed.

Lemma keeps_app l l' :
  StronglySorted keeps l -> Forall (fun a => stored a = true -> rec_end a <= stored_end l) l ->
  Forall (fun b => stored_end l <= rec_offset b) l' -> StronglySorted keeps l' -> StronglySorted keeps (l ++ l').
Proof.
  intros Hl Hs Hf Hl'. apply StronglySorted_app_2; try done. intros a b Ha Hb Hst.
  rewrite !List.Forall_forall in *. setoid_rewrite <- list_elem_of_In in Hs. setoid_rewrite <- list_elem_of_In in Hf.
  specialize (Hs a Ha Hst). specialize (Hf b Hb). cbn in *. lia.
Qed.

Lemma in_order_le lo l hi : Forall rec_ok l -> in_order lo l hi -> lo <= hi /\ Forall (fun a => lo <= rec_offset a) l.
Proof.
  revert lo. induction l as [|a l IH]; intros lo Hf; cbn; [intros ->; split; [lia|done]|].
  apply Forall_cons_1 in Hf as [[Hs _] Hf]. intros [? H]. destruct (IH _ Hf H) as [? Hall]. unfold rec_end in *.
  split; [lia|]. constructor; [done|]. eapply Forall_impl; [exact Hall|]. cbn. lia.
Qed.

Lemma sorted_unstored l : Forall (fun a => stored a = false) l -> StronglySorted keeps l.
Proof.
  induction l as [|a l IH]; intros Hf; [constructor|]. apply Forall_cons_1 in Hf as [Ha Hf]. constructor; [by apply IH|].
  apply Forall_true. intros b. unfold keeps. by rewrite Ha.
Qed.

Lemma laid_plain l z a z' n :
  laid_out l z -> stored a = true -> rec_ok a -> placed z' a -> stored_end l <= rec_offset a ->
  grows n z z' -> z_wastuple z' = false -> z_offs z' = rec_end a -> z_size z' = rec_end a -> laid_out (l ++ [a]) z'.
Proof.
  intros [Hwf _ _ _ Hr Hp Hk Hs Ht] Hst Hok Hpl Hle Hg Hw Ho Hz. pose proof Hok as [Hsz _].
  assert (He : stored_end (l ++ [a]) = rec_end a) by (unfold stored_end; rewrite foldl_app; cbn; by rewrite Hst).
  split; rewrite ?He; try done.
  - by constructor.
  - destruct Hpl as (? & ? & _). unfold rec_end in *. lia.
  - apply Forall_app. split; [by eapply placed_mono|by constructor].
  - apply keeps_app; try done; [by constructor|repeat constructor].
  - apply Forall_app. split; [|by constructor]. eapply Forall_impl; [exact Hs|]. cbn. intros b Hb Hstb.
    specialize (Hb Hstb). unfold rec_end in *. lia.
  - apply tuples_laid_app; [done|]. intros k b g Hb%list_lookup_singleton_Some Hk' _. destruct Hb as [-> <-].
    unfold stored in Hst. by rewrite Hk' in Hst.
Qed.

Lemma laid_agg l z t a g z' n :
  laid_out l z -> t <> [] -> Forall in_tuple t -> Forall (placed z') t -> placed z' a ->
  aggregates (length l) a -> dta_agg a = Some g -> 0 <= dtag_base g -> dtag_base g mod 8 = 0 ->
  (exists hi, in_order (dtag_base g + 4) t hi /\ hi <= rec_offset a) -> Forall (fun b => stored_end l <= rec_offset b) (t ++ [a]) ->
  grows n z z' -> z_wastuple z' = false -> z_offs z' = stored_end l -> z_size z' = stored_end l -> laid_out (l ++ t ++ [a]) z'.
Proof.
  intros [Hwf _ _ _ Hr Hp Hk Hs Ht] Hne Hin Hpt Hpa Hagg Hg Hb0 Hb8 Hord Hle Hgr Hw Ho Hz.
  assert (Hun : Forall (fun b => stored b = false) (t ++ [a])).
  { apply Forall_app. split; [|constructor; [by eapply aggregates_not_stored|done]].
    eapply Forall_impl; [exact Hin|]. intros b [Hb _]. by apply tupled_not_stored. }
  pose proof (stored_end_app l _ Hun) as He. split; rewrite ?He; try done.
  - by constructor.
  - destruct Hgr as [[? _] _ _ _]. lia.
  - apply Forall_app. split; [by eapply placed_mono|]. apply Forall_app. split; [done|by constructor].
  - apply keeps_app; try done. by apply sorted_unstored.
  - apply Forall_app. split; [done|]. eapply Forall_impl; [exact Hun|]. cbn. by intros b ->.
  - apply tuples_laid_app; [done|]. intros k b g' Hb Hkb Hgb. apply lookup_app_Some in Hb as [Hb|[Hge Hb]].
    + rewrite List.Forall_forall in Hin. apply list_elem_of_lookup_2, list_elem_of_In in Hb. destruct (Hin _ Hb) as [Htb _].
      unfold tupled in Htb. by rewrite Hkb in Htb.
    + apply list_lookup_singleton_Some in Hb as [Hk0 <-]. rewrite Hg in Hgb. injection Hgb as <-.
      destruct Hagg as (_ & _ & _ & _ & g' & Hg' & Hf). rewrite Hg in Hg'. injection Hg' as <-.
      assert (k = length t) by lia. subst k. assert (Ht1 : tuple_of (l ++ t ++ [a]) (dtag_first g) (length l + length t) = t).
      { unfold tuple_of. rewrite Hf, drop_app_length. replace (length l + length t - length l)%nat with (length t) by lia.
        by rewrite take_app_length. }
      split; rewrite ?Ht1; try done. destruct t; [done|]. cbn. lia.
Qed.

Definition start_layout (most : Z) : layout := Layout 4 4 false UINT32_MAX 4 4 most.

Lemma laid_ends l z : laid_out l z -> z_needed z < 2 ^ 32 -> Forall rec_ok l -> Forall (fun b => 0 <= rec_end b < 2 ^ 32) l.
Proof.
  intros [_ _ _ _ _ Hp _ _ _] Hn Hok. rewrite List.Forall_forall in *. intros b Hb. destruct (Hp b Hb) as (? & ? & _), (Hok b Hb) as [? _].
  unfold rec_end in *. lia.
Qed.

Lemma chain_wf_recs l : chain_wf l -> Forall rec_ok l.
Proof.
  induction 1 as [|l a Hl IH Hs Hr|l t a Hl IH Hne Ht Ha]; [constructor| |].
  - apply Forall_app. split; [done|by constructor].
  - apply Forall_app. split; [done|]. apply Forall_app. split; [eapply Forall_impl; [exact Ht|]; by intros b []|].
    constructor; [|done]. destruct Ha as (_ & _ & Hal & Hs & _). split; [lia|]. rewrite Hal. unfold align_ok. lia.
Qed.

Lemma tuple_room t : Forall in_tuple t -> 0 <= room t.
Proof. induction 1 as [|b t [_ [? _]] _ IH]; cbn; [lia|]. fold (room t). lia. Qed.

(** A tuple and its aggregation behind a list that has its layout. *)
Lemma resize_group l z t a rest :
  laid_out l z -> t <> [] -> Forall in_tuple t -> aggregates (length l) a -> z_needed z + room (t ++ [a]) < 2 ^ 32 ->
  exists x z', resize_loop l (t ++ [a] ++ rest) z = resize_loop (l ++ x) rest z' /\ map strip x = map strip (t ++ [a]) /\
    laid_out (l ++ x) z' /\ grows (room (t ++ [a])) z z'.
Proof.
  intros Hlo Hne Ht Ha Hb. destruct t as [|b t]; [done|]. apply Forall_cons_1 in Ht as [[Hbt Hbr] Ht].
  rewrite room_app in *. cbn [room foldr] in *. fold (room t) in *. pose proof (tuple_room t Ht) as Hroom.
  pose proof Hbt as Hbt'. unfold tupled in Hbt'. apply andb_prop in Hbt' as [Hbk%negb_true_iff Hbi].
  pose proof Hlo as [Hwf Hw Ho Hz Hr Hp _ _ _]. pose proof (chain_wf_recs l Hwf) as Hrec.
  pose proof Ha as (Hak & Hai & Haal & Has & g0 & Hg0 & Hfst). destruct Hbr as [Hbs Hbal].
  destruct (resize_record l b z Hbk ltac:(done) ltac:(lia) ltac:(lia)) as (o & bs & Hone & Hor & Hom & Hbase).
  rewrite Hw, Hbi in Hbase. cbn in Hbase. destruct Hbase as (Hb8 & Hb0 & Hbo).
  cbn [app resize_loop]. rewrite Hone, Hbi. set (z1 := Layout _ _ _ _ _ _ _).
  assert (Hg1 : grows (rec_size b + 16) z z1) by (apply grows_step; (done || lia)).
  destruct (resize_tuple t (l ++ [place o b]) (a :: rest) z1 Ht)
    as (t' & z2 & -> & Hst & Hin & Hpl & Hord & Hg2 & Hw2 & Hab2 & Hs2 & Ho2); [done|cbn; lia|cbn; lia|].
  cbn in Hab2, Hs2, Ho2, Hord. cbn [resize_loop]. rewrite <- (app_assoc l). cbn [app].
  pose proof Hg1 as [Hn1 _ _ _]. pose proof Hg2 as [Hn2 Hal2 _ _].
  assert (Hends : Forall (fun b => 0 <= rec_end b < 2 ^ 32) l) by (apply (laid_ends l z); [done|lia|done]).
  destruct (resize_agg l (place o b :: t') a z2 Hwf Hends Ha Hw2) as (o3 & g & -> & Ho3 & Ho8 & g0' & Hg0' & Hg);
    [rewrite Hab2; unfold UINT32_MAX; cbn in Hn1, Hn2; lia|lia|lia|].
  rewrite Hg0 in Hg0'. injection Hg0' as <-. set (a' := set_agg g (place o3 a)). set (z3 := Layout _ _ _ _ _ _ _).
  assert (Hg3 : grows (rec_size a + 16) z2 z3) by (apply grows_step; [lia|lia|lia|unfold align_ok; lia]).
  assert (Hg13 : grows (rec_size b + 16 + room t + (rec_size a + 16 + 0)) z z3).
  { eapply grows_le; [|eapply grows_trans; [eapply grows_trans; eassumption|eassumption]]. lia. }
  exists ((place o b :: t') ++ [a']), z3. rewrite <- app_assoc. split_and!; try done.
  - cbn. rewrite !map_app, Hst. cbn. unfold a', strip. cbn. by rewrite Hg0, Hg.
  - assert (Hall : Forall in_tuple (place o b :: t')) by (by constructor).
    assert (Hfrom : Forall (fun x => o <= rec_offset x) (place o b :: t')).
    { constructor; [cbn; lia|]. destruct (in_order_le (o + rec_size b) t' (z_offs z2)) as [_ Hf]; [|done|].
      - eapply Forall_impl; [exact Hin|]. by intros x [].
      - eapply Forall_impl; [exact Hf|]. cbn. lia. }
    apply (laid_agg l z (place o b :: t') a' g z3 (rec_size b + 16 + room t + (rec_size a + 16 + 0))); try done.
    + eapply placed_mono; [exact Hg3|]. constructor; [|done]. unfold placed, rec_end. cbn in *. split_and!; (done || lia).
    + unfold placed, rec_end, z3. cbn. rewrite Haal. cbn in Hn1, Hn2. split_and!; lia.
    + unfold a', aggregates, isagg. cbn. split_and!; try (done || lia). exists g. split; [done|]. by rewrite Hg.
    + rewrite Hg. cbn. rewrite Hab2. cbn. done.
    + rewrite Hg. cbn. rewrite Hab2. done.
    + exists (z_offs z2). rewrite Hg. cbn. rewrite Hab2. split; [|cbn; lia]. split; [cbn; lia|done].
    + apply Forall_app. split; [|constructor; [cbn; lia|done]]. eapply Forall_impl; [exact Hfrom|]. cbn. lia.
    + cbn. by rewrite Hs2.
Qed.

Lemma resize_chain l : chain_wf l -> forall rest most, 4 + room l < 2 ^ 32 ->
  exists l' z, resize_loop [] (l ++ rest) (start_layout most) = resize_loop l' rest z /\
    map strip l' = map strip l /\ laid_out l' z /\ grows (room l) (start_layout most) z.
Proof.
  induction 1 as [|l a Hl IH Hs Hr|l t a Hl IH Hne Ht Ha]; intros rest most Hb.
  - exists [], (start_layout most). split; [done|]. split; [done|]. split; [|apply grows_refl].
    split; try done; try constructor; try (cbn; lia).
  - rewrite room_app in Hb. cbn in Hb. pose proof Hr as [Hsz Hal].
    destruct (IH ([a] ++ rest) most) as (l' & z & He & Hst & Hlo & Hg); [lia|]. rewrite <- app_assoc, He.
    pose proof Hlo as [_ Hw Ho Hz Hrg _ _ _ _]. pose proof Hg as [Hn _ _ _]. cbn in Hn.
    pose proof Hs as Hs'. unfold stored in Hs'. apply andb_prop in Hs' as [Hk%negb_true_iff Hi%negb_true_iff].
    destruct (resize_record l' a z Hk Hr) as (o & b & Hone & Hor & Hom & _); [lia|lia|]. cbn [app resize_loop]. rewrite Hone, Hi.
    set (z1 := Layout _ _ _ _ _ _ _). assert (Hg1 : grows (rec_size a + 16) z z1) by (apply grows_step; (done || lia)).
    exists (l' ++ [place o a]), z1. split_and!; try done.
    + by rewrite !map_app, Hst.
    + eapply (laid_plain l' z (place o a)); try done; [|cbn; lia]. unfold placed, rec_end. cbn. split_and!; (done || lia).
    + rewrite room_app. cbn. eapply grows_le; [|eapply grows_trans; eassumption]. lia.
  - rewrite room_app in Hb. destruct (IH ((t ++ [a]) ++ rest) most) as (l' & z & He & Hst & Hlo & Hg).
    { rewrite room_app in Hb. pose proof (tuple_room t Ht). destruct Ha as (_ & _ & _ & Has & _). cbn in Hb. lia. }
    rewrite <- app_assoc, He. pose proof Hg as [Hn _ _ _]. cbn in Hn.
    assert (Hlen : length l' = length l) by (apply (f_equal length) in Hst; by rewrite !length_map in Hst).
    destruct (resize_group l' z t a rest) as (x & z' & He' & Hst' & Hlo' & Hg'); try done; [by rewrite Hlen|lia|].
    exists (l' ++ x), z'. rewrite <- (app_assoc t [a] rest), He'. split_and!; try done; [by rewrite !map_app, Hst, Hst', map_app|].
    rewrite room_app. by eapply grows_trans.
Qed.

(** * The layout of an ECB *)

Record layout_ok (acts : list dtrace_action) (align size needed : Z) : Prop := {
  ly_aligned : Forall (fun a => rec_size a = 0 \/ rec_offset a mod rec_align a = 0 /\ rec_align a <= align) acts;
  ly_bounds : Forall (fun a => rec_size a = 0 \/ 4 <= rec_offset a /\ rec_end a <= needed) acts;
  ly_stored : Forall (fun a => stored a = true -> rec_size a = 0 \/ rec_end a <= size) acts;
  ly_kept : StronglySorted keeps acts;
  ly_tuples : tuples_laid acts;
  ly_align : align = 4 \/ align = 8;
  ly_size : (size = 0 \/ 4 <= size) /\ size mod 4 = 0 /\ size <= needed
}.

Lemma round4_spec x : 0 <= x < 2 ^ 33 -> x <= round4 x <= x + 3 /\ round4 x mod 4 = 0.
Proof.
  intros Hx. unfold round4. assert (Hu : u64 (x + 3) = x + 3) by (unfold u64; apply Z.mod_small; lia). rewrite Hu.
  change (u64 (-4)) with (Z.ldiff (Z.ones 64) (Z.ones 2)). rewrite land_clear_low by (unfold is_u; lia). change (2 ^ 2) with 4. lia.
Qed.

Lemma resize_layout acts most :
  chain_wf acts -> 4 + room acts < 2 ^ 32 ->
  exists acts' align size needed most',
    dtrace_ecb_resize acts most = Some (acts', align, size, needed, most') /\
    map strip acts' = map strip acts /\ chain_wf acts' /\ layout_ok acts' align size needed /\
    needed <= 8 + room acts /\ most <= most' /\ (4 < needed -> needed <= most' + 3).
Proof.
  intros Hwf Hb. destruct (resize_chain acts Hwf [] most Hb) as (l & z & He & Hst & [Hwf' _ _ Hz Hr Hp Hk Hs Ht] & Hg).
  rewrite app_nil_r in He. cbn in He. unfold start_layout in He. destruct Hg as [Hn Hma Hal Hm]. cbn in Hn, Hma, Hal.
  specialize (Hal (or_introl eq_refl)). specialize (Hm most ltac:(cbn; lia) ltac:(done)). unfold most_of in Hm.
  pose proof (room_nonneg _ Hwf). unfold dtrace_ecb_resize. rewrite He.
  assert (Hsz : Forall (fun a => 0 <= rec_size a) l) by (eapply Forall_impl; [apply (chain_wf_recs _ Hwf')|]; intros a [? _]; lia).
  assert (Haln : Forall (fun a => rec_size a = 0 \/ rec_offset a mod rec_align a = 0 /\ rec_align a <= z_maxalign z) l).
  { eapply Forall_impl; [exact Hp|]. intros a (? & ? & ? & [?|?]); [by left|by right]. }
  assert (Hfin : forall size needed,
    Forall (fun a => rec_size a = 0 \/ 4 <= rec_offset a /\ rec_end a <= needed) l ->
    Forall (fun a => stored a = true -> rec_size a = 0 \/ rec_end a <= size) l ->
    (size = 0 \/ 4 <= size) /\ size mod 4 = 0 /\ size <= needed -> layout_ok l (z_maxalign z) size needed) by (by split).
  assert (Hboth : Forall (fun a => 4 <= rec_offset a /\ rec_end a <= z_needed z /\ (stored a = true -> rec_end a <= z_size z) /\ 0 <= rec_size a) l).
  { rewrite List.Forall_forall in *. intros a Ha. destruct (Hp a Ha) as (? & ? & _). rewrite Hz. split_and!; try done; [by apply Hs|by apply Hsz]. }
  set (quiet := match l with [] => false | [a] => _ | _ => true end).
  destruct (quiet && (z_size z =? 4)) eqn:Eq.
  - apply andb_prop in Eq as [_ E4%Z.eqb_eq]. exists l, (z_maxalign z), 0, (if z_needed z =? 4 then 0 else z_needed z), (z_most z).
    assert (Hq : layout_ok l (z_maxalign z) 0 (if z_needed z =? 4 then 0 else z_needed z)).
    { apply Hfin; [| |split_and!; [by left|done|destruct (_ =? _); lia]]; (eapply Forall_impl; [exact Hboth|]); cbn;
        unfold rec_end in *; intros a (? & ? & Hst' & ?); [destruct (Z.eqb_spec (z_needed z) 4); lia|].
      intros Hsa. specialize (Hst' Hsa). lia. }
    split_and!; try done; destruct (Z.eqb_spec (z_needed z) 4), (Z.ltb_spec 4 (z_needed z)); lia.
  - destruct (round4_spec (z_size z)) as [Hrs Hrs4]; [lia|]. destruct (round4_spec (z_needed z)) as [Hrn Hrn4]; [lia|].
    assert (Hsn : round4 (z_size z) <= round4 (z_needed z)) by lia.
    destruct (Z.ltb_spec (round4 (z_needed z)) (round4 (z_size z))); [lia|].
    exists l, (z_maxalign z), (round4 (z_size z)), (round4 (z_needed z)), (z_most z).
    assert (Hq : layout_ok l (z_maxalign z) (round4 (z_size z)) (round4 (z_needed z))).
    { apply Hfin; [| |split_and!; [right; lia|done|done]]; (eapply Forall_impl; [exact Hboth|]); cbn; intros a (? & ? & Hst' & ?); [lia|].
      intros Hsa. specialize (Hst' Hsa). lia. }
    split_and!; try done; try lia; destruct (Z.ltb_spec 4 (z_needed z)); lia.
Qed.


(** trace of 8 bytes; an aggregation over a tuple of 1 and 5 bytes; a last byte. *)
Definition demo_rec (size align : Z) : dtrace_recdesc := RecDesc 0 size 0 align 0 (inl 0) 0.
Definition demo_plain (self size align : Z) : dtrace_action :=
  Action self DTRACEACT_DIFEXPR false None (demo_rec size align) None.
Definition demo_acts : list dtrace_action :=
  [demo_plain 1 8 8] ++ [set_tuple (demo_plain 2 1 4); set_tuple (demo_plain 3 5 1)] ++
  [Action 4 0x701 false None (demo_rec 8 8) (Some (AggPart 1 1 0 false 0 dtrace_aggregate_count))] ++ [demo_plain 5 1 1].

Lemma demo_acts_wf : chain_wf demo_acts.
Proof.
  assert (Hp : forall self size align, 0 <= size < 2 ^ 32 -> align_ok align -> rec_ok (demo_plain self size align)) by (by intros).
  unfold demo_acts. rewrite (app_assoc [_; _]), app_assoc.
  apply wf_plain; [|done|apply Hp; unfold align_ok; lia].
  apply wf_agg; [apply (wf_plain []); [constructor|done|apply Hp; unfold align_ok; lia]|done| |].
  - repeat constructor; cbn; unfold align_ok; lia.
  - repeat split; cbn; try lia. by eexists.
Qed.


(** The places in the example: the record that stays, the tuple behind room for the identifier at 16, the value,
    and a last record in the room of the tuple. *)
Example demo_layout :
  match dtrace_ecb_resize demo_acts 0 with
  | Some (acts, align, size, needed, most) => Some (map (fun a => rec_offset a) acts, align, size, needed, most)
  | None => None
  end = Some ([8; 20; 21; 32; 16], 8, 20, 40, 40).
Proof. reflexivity. Qed.

(** The sizes of types are not bounded: a record of 2^32 - 4 bytes makes an ECB that claims to need 4. *)
Example resize_wraps :
  match dtrace_ecb_resize [demo_plain 1 (2 ^ 32 - 4) 4] 0 with
  | Some (acts, align, size, needed, most) => Some (map (fun a => rec_size a) acts, size, needed)
  | None => None
  end = Some ([2 ^ 32 - 4], 0, 4).
Proof. reflexivity. Qed.

(** * Aggregations *)

(** The aggregation of an aggregating action as dtrace_aggregate() sees it; [isstr] tells the string records. *)
Definition agg_of (isstr : dtrace_action -> bool) (l : list dtrace_action) (k : nat) (a : dtrace_action) (g : agg_part)
    : dtrace_aggregation :=
  Agg (Ecb.dtag_id g) (dta_kind a - DTRACEACT_AGGREGATION) (rec_offset a - dtag_base g) (rec_size a)
    (map (fun b => TupleAct (rec_offset b - dtag_base g) (rec_size b) (isstr b)) (tuple_of l (Ecb.dtag_first g) k))
    (Ecb.dtag_hasarg g) (Ecb.dtag_initial g) (Ecb.dtag_aggregate g).

(** The aggregating function is the one of the action's kind and argument. *)
Definition selected (a : dtrace_action) : Prop :=
  forall g, dta_agg a = Some g -> exists arg, dtrd_arg (dta_rec a) = inl arg /\
    agg_select (dta_kind a - DTRACEACT_AGGREGATION) arg = Some (Ecb.dtag_aggregate g, Ecb.dtag_initial g, rec_size a).

Lemma selected_strip a : selected (strip a) <-> selected a.
Proof.
  unfold selected, strip. destruct (dta_agg a) as [g0|] eqn:E; cbn; [|rewrite E; split; by intros _ g [=]].
  split; intros H g [= <-]; destruct (H _ eq_refl) as (arg & Ha & Hs); by exists arg.
Qed.

Lemma map_strip_Forall (P : dtrace_action -> Prop) l l' :
  (forall a, P (strip a) <-> P a) -> map strip l' = map strip l -> Forall P l -> Forall P l'.
Proof.
  intros HP He Hf. rewrite List.Forall_forall in *. intros a Ha. apply HP. apply (in_map strip) in Ha. rewrite He in Ha.
  apply in_map_iff in Ha as (b & <- & Hb). apply HP. by apply Hf.
Qed.

Lemma chain_wf_agg l k a : chain_wf l -> l !! k = Some a -> isagg a = true -> exists i, aggregates i a.
Proof.
  intros Hwf. revert k. induction Hwf as [|l b Hl IH Hs _|l t b Hl IH _ Ht Hb]; intros k Hk Ha.
  - by rewrite lookup_nil in Hk.
  - apply lookup_app_Some in Hk as [Hk|[_ Hk]]; [by eapply IH|]. apply list_lookup_singleton_Some in Hk as [_ ->].
    unfold stored in Hs. by rewrite Ha in Hs.
  - apply lookup_app_Some in Hk as [Hk|[_ Hk]]; [by eapply IH|]. apply lookup_app_Some in Hk as [Hk|[_ Hk]].
    + rewrite List.Forall_forall in Ht. apply list_elem_of_lookup_2, list_elem_of_In, Ht in Hk as [Hk _].
      unfold tupled in Hk. by rewrite Ha in Hk.
    + apply list_lookup_singleton_Some in Hk as [_ ->]. by eexists.
Qed.

Lemma in_order_acts_from isstr base lo t hi size :
  Forall in_tuple t -> in_order (base + lo) t hi -> hi <= base + size ->
  acts_from lo (map (fun b => TupleAct (rec_offset b - base) (rec_size b) (isstr b)) t) size.
Proof.
  revert lo. induction t as [|b t IH]; intros lo Hf; cbn; [lia|]. apply Forall_cons_1 in Hf as [[_ [? _]] Hf].
  intros [? Ho] Hhi. split_and!; [lia|lia|]. apply IH; try done. unfold rec_end in Ho. by replace (base + _) with (rec_offset b + rec_size b) by lia.
Qed.

Lemma laid_agg_ok isstr l align size needed k a g arg :
  layout_ok l align size needed -> chain_wf l -> needed < 2 ^ 28 -> l !! k = Some a -> isagg a = true -> dta_agg a = Some g ->
  dtrd_arg (dta_rec a) = inl arg ->
  agg_select (dta_kind a - DTRACEACT_AGGREGATION) arg = Some (Ecb.dtag_aggregate g, Ecb.dtag_initial g, rec_size a) ->
  lq_base_ok (dta_kind a - DTRACEACT_AGGREGATION) arg -> agg_ok (agg_of isstr l k a g).
Proof.
  intros Hl Hwf Hn Hk Ha Hg Harg Hsel Hlq. destruct (chain_wf_agg l k a Hwf Hk Ha) as (i & _ & _ & Hal & Hs & _).
  destruct (ly_tuples _ _ _ _ Hl k a g Hk Ha Hg) as [_ Hm [Hb0 Hb8] (hi & Ho & Hhi)].
  pose proof (ly_aligned _ _ _ _ Hl) as Hali. pose proof (ly_bounds _ _ _ _ Hl) as Hbnd.
  rewrite List.Forall_forall in Hali, Hbnd. apply list_elem_of_lookup_2, list_elem_of_In in Hk.
  destruct (Hali a Hk) as [?|[Hoff _]]; [lia|]. destruct (Hbnd a Hk) as [?|[_ Hend]]; [lia|]. rewrite Hal in Hoff. unfold rec_end in Hend.
  split; cbn.
  - apply (in_order_acts_from isstr (dtag_base g) 4 _ hi); (done || lia).
  - lia.
  - by exists arg.
Qed.


Definition demo_part (base : Z) : agg_part := AggPart 1 1 base false 0 dtrace_aggregate_count.
Definition demo_agg (offs base : Z) : dtrace_action :=
  Action 4 0x701 false None (RecDesc 0 8 offs 8 0 (inl 0) 0) (Some (demo_part base)).
Definition demo_placed : list dtrace_action :=
  [place 8 (demo_plain 1 8 8); place 20 (set_tuple (demo_plain 2 1 4)); place 21 (set_tuple (demo_plain 3 5 1));
   demo_agg 32 16; place 16 (demo_plain 5 1 1)].

