(* ===== verification/EcbLists.v ===== *)
(** The lists of the ECBs of the probes: dtrace_ecb_enable() and dtrace_ecb_disable() on the
    pointers dtpr_ecb, dtpr_ecb_last and dte_next, and the predicate cache. *)
From S2P Require Import Prelude Dif SafeMem DifValidate DifObject Aggregate Match Probes Dof Ecb EcbLayout.
From stdpp Require Import gmap list.
#[local] Open Scope Z_scope.

(** Run a program step by step. *)
Ltac run := repeat (unfold pbind, pret, gets, puts, assert, get_ecb, put_ecb, get_state, put_state, get_probe, put_probe,
                      get_pred, get_difo; cbn beta iota).

(** * The ECBs of a probe *)

Section Probe.
Context {pool : Type} (r : registry) (dtps_enable : Z -> Z -> Z -> Z).
Implicit Types w : @world pool.

(** The cache identifier of an ECB's predicate; 0 if it has none. *)
Definition cache_id w (e : Z) : Z :=
  match w_ecb w !! e with
  | Some ecb => match dte_predicate ecb with Some p => from_option pr_cacheid 0 (w_pred w !! p) | None => 0 end
  | None => 0
  end.

(** The predicate cache of a probe belongs to its only ECB. *)
Definition cache_of w (l : list Z) : Z := match l with [e] => cache_id w e | _ => 0 end.

(** The pointers of probe [p] form the list [l] of its ECBs. *)
Record probe_rep w (p : Z) (l : list Z) : Prop := {
  pr_probe : w_probe w !! p = Some (ProbeEcbs (head l) (last l) (cache_of w l));
  pr_nodup : NoDup l;
  pr_links : forall i e, l !! i = Some e ->
    exists ecb, w_ecb w !! e = Some ecb /\ dte_next ecb = l !! S i /\ dte_probe ecb = Some p
}.

(** Every predicate of an ECB exists. *)
Definition preds_ok w : Prop :=
  forall e ecb p, w_ecb w !! e = Some ecb -> dte_predicate ecb = Some p -> is_Some (w_pred w !! p).

(** What the operations on the lists leave alone. *)
Record only_links w w' : Prop := {
  ol_ecb : forall e, match w_ecb w !! e, w_ecb w' !! e with
    | Some a, Some b => set_next None a = set_next None b
    | None, None => True
    | _, _ => False
    end;
  ol_rest : w_difo w' = w_difo w /\ w_pred w' = w_pred w /\ w_chain w' = w_chain w /\ w_state w' = w_state w /\
    w_cache w' = w_cache w /\ w_vtime w' = w_vtime w /\ w_pool w' = w_pool w
}.

Lemma only_links_cache w w' e : only_links w w' -> cache_id w' e = cache_id w e.
Proof.
  intros [He (_ & Hp & _)]. unfold cache_id. rewrite Hp. specialize (He e).
  destruct (w_ecb w !! e) as [a|], (w_ecb w' !! e) as [b|]; try done. apply (f_equal dte_predicate) in He. cbn in He. by rewrite He.
Qed.

Lemma only_links_cache_of w w' l : only_links w w' -> cache_of w' l = cache_of w l.
Proof. intros H. destruct l as [|e [|]]; cbn; try done. by apply only_links_cache. Qed.

(** A change to ECBs of other probes leaves a list alone. *)
Lemma probe_rep_other w w' p l :
  only_links w w' -> w_probe w' !! p = w_probe w !! p ->
  (forall e ecb, w_ecb w !! e = Some ecb -> dte_probe ecb = Some p -> w_ecb w' !! e = Some ecb) ->
  probe_rep w p l -> probe_rep w' p l.
Proof.
  intros Hol Hp He [H1 H2 H3]. split; [|done|].
  - by rewrite Hp, (only_links_cache_of w w' l Hol).
  - intros i e Hi. destruct (H3 i e Hi) as (ecb & Hecb & Hn & Hpr). exists ecb. split; [|done]. by apply He.
Qed.

Lemma rep_nil_or_last w p l : probe_rep w p l -> head l = None <-> l = [].
Proof. intros _. by destruct l. Qed.

Lemma insert_next_only w e ecb next m :
  w_ecb w !! e = Some ecb -> only_links w (set_probe m (set_ecb (<[e := set_next next ecb]> (w_ecb w)) w)).
Proof.
  intros He. split; cbn; [|done]. intros e'. destruct (decide (e' = e)) as [->|Hne].
  - by rewrite lookup_insert_eq, He.
  - rewrite lookup_insert_ne by done. by destruct (w_ecb w !! e').
Qed.

Lemma cacheid_run w ecb e :
  preds_ok w -> w_ecb w !! e = Some ecb ->
  exists o, cacheid ecb w = Some (o, w) /\ default 0 o = cache_id w e.
Proof.
  intros Hp He. unfold cacheid, cache_id. rewrite He. destruct (dte_predicate ecb) as [p|] eqn:E; [|by exists None].
  destruct (Hp e ecb p He E) as [pr Hpr]. run. rewrite Hpr. by exists (Some (pr_cacheid pr)).
Qed.

Definition enable_log (p : Z) (l : list Z) : list pop_call :=
  match l with
  | [] => let pr := probe_at r p in [Enable (dtpr_provider pr) (dtpr_id pr) (dtpr_arg pr)]
  | _ => []
  end.

Lemma enable_rep w p l e ecb :
  probe_rep w p l -> preds_ok w -> w_ecb w !! e = Some ecb -> dte_probe ecb = Some p -> dte_next ecb = None -> e ∉ l ->
  exists rv w', dtrace_ecb_enable r dtps_enable e w = Some (rv, w') /\
    probe_rep w' p (l ++ [e]) /\ only_links w w' /\ w_log w' = w_log w ++ enable_log p l /\
    (forall y, y ∉ l -> w_ecb w' !! y = w_ecb w !! y) /\
    (forall q lq, q <> p -> probe_rep w q lq -> probe_rep w' q lq).
Proof.
  intros Hrep Hpreds He Hpr Hnx Hin. pose proof Hrep as [H1 H2 H3]. unfold dtrace_ecb_enable. run. rewrite He, Hnx. cbn. rewrite Hpr, H1.
  cbn [pe_ecb pe_ecb_last pe_predcache]. destruct l as [|f l'] eqn:El.
  - cbn [head last]. destruct (cacheid_run w ecb e Hpreds He) as (o & -> & Ho). cbn beta iota. eexists _, _. split; [reflexivity|].
    split_and!.
    + split; cbn.
      * rewrite lookup_insert_eq. do 2 f_equal. by rewrite Ho.
      * apply NoDup_singleton.
      * intros [|i] x Hx; [|by destruct i]. injection Hx as <-. exists ecb. by rewrite Hnx.
    + split; [|done]. intros x. cbn. by destruct (w_ecb w !! x).
    + done.
    + done.
    + intros q lq Hq Hrq. apply (probe_rep_other w); try done.
      * split; [|done]. intros x. cbn. by destruct (w_ecb w !! x).
      * cbn. by rewrite lookup_insert_ne.
  - rewrite <- El in *. assert (Hl : exists i x, l !! i = Some x /\ last l = Some x /\ length l = S i).
    { rewrite last_lookup. destruct l as [|y l0] using rev_ind; [done|]. exists (length l0), y. rewrite length_app. cbn.
      rewrite Nat.add_1_r. cbn. split_and!; try done; by apply list_lookup_middle. }
    destruct Hl as (i & x & Hx & Hlast & Hlen). assert (Hh : head l = Some f) by (by rewrite El). rewrite Hh, Hlast.
    destruct (H3 i x Hx) as (xe & Hxe & Hxn & Hxp). cbn beta iota. rewrite Hxe. cbn beta iota. eexists _, _. split; [reflexivity|].
    set (w' := set_probe _ _).
    assert (Hol : only_links w w') by (by apply insert_next_only).
    assert (Hxe' : x <> e) by (intros ->; apply Hin; by apply list_elem_of_lookup_2 in Hx).
    split_and!; try done.
    + split; cbn.
      * rewrite lookup_insert_eq, last_snoc. rewrite El. cbn. do 2 f_equal. by destruct l'.
      * apply NoDup_app. split_and!; [done| |apply NoDup_singleton]. intros y Hy ->%list_elem_of_singleton. done.
      * intros j y Hy. apply lookup_app_Some in Hy as [Hy|[Hge Hy]].
        -- pose proof (lookup_lt_Some _ _ _ Hy) as Hj. destruct (decide (y = x)) as [->|Hne].
           ++ assert (j = i) by (eapply NoDup_lookup; eassumption). subst j. exists (set_next (Some e) xe).
              rewrite lookup_insert_eq. split_and!; try done. cbn. rewrite lookup_app_r by lia. by rewrite <- Hlen, Nat.sub_diag.
           ++ destruct (H3 j y Hy) as (ye & Hye & Hyn & Hyp). exists ye. rewrite lookup_insert_ne by done. split_and!; try done.
              rewrite Hyn. destruct (decide (S j < length l)%nat) as [Hlt|Hge]; [by rewrite lookup_app_l|].
              assert (j = i) by lia. subst j. rewrite Hx in Hy. by injection Hy as <-.
        -- apply list_lookup_singleton_Some in Hy as [Hj ->]. exists ecb. rewrite lookup_insert_ne by done. split_and!; try done.
           rewrite Hnx. symmetry. apply lookup_ge_None. rewrite length_app. cbn. lia.
    + cbn. rewrite El. cbn. by rewrite app_nil_r.
    + intros y Hy. cbn. rewrite lookup_insert_ne; [done|]. intros <-. apply Hy. by apply list_elem_of_lookup_2 in Hx.
    + intros q lq Hq Hrq. apply (probe_rep_other w); try done.
      * cbn. by rewrite lookup_insert_ne.
      * intros y ye Hy Hyp. cbn. rewrite lookup_insert_ne; [done|]. intros <-. rewrite Hxe in Hy. injection Hy as <-. congruence.
Qed.

Lemma head_lookup {A} (l : list A) : head l = l !! O.
Proof. by destruct l. Qed.

(** The walk to [e]. *)
Lemma find_run w l1 e l2 : forall fuel prev,
  (forall i y, (l1 ++ e :: l2) !! i = Some y -> exists ye, w_ecb w !! y = Some ye /\ dte_next ye = (l1 ++ e :: l2) !! S i) ->
  NoDup (l1 ++ e :: l2) -> (length l1 <= fuel)%nat ->
  find_ecb fuel e prev (head (l1 ++ e :: l2)) w = Some (match last l1 with Some x => Some x | None => prev end, w).
Proof.
  induction l1 as [|y l1 IH]; intros fuel prev Hl Hnd Hf.
  - cbn. destruct fuel; cbn; by rewrite Z.eqb_refl.
  - cbn [app head]. apply NoDup_cons in Hnd as [Hy Hnd]. destruct fuel as [|fuel]; [cbn in Hf; lia|]. cbn [find_ecb].
    destruct (Z.eqb_spec y e) as [->|Hne]; [by destruct Hy; set_solver|].
    destruct (Hl O y eq_refl) as (ye & Hye & Hyn). run. rewrite Hye. cbn beta iota.
    assert (Hh : dte_next ye = head (l1 ++ e :: l2)) by (by rewrite Hyn, head_lookup). rewrite Hh, IH; [|..].
    + destruct l1 as [|z l1]; [done|]. do 2 f_equal. cbn. destruct (last (z :: l1)) eqn:E; [done|]. by apply last_None in E.
    + intros i z Hz. destruct (Hl (S i) z Hz) as (ze & Hze & Hzn). by exists ze.
    + done.
    + cbn in Hf. lia.
Qed.

Lemma rep_fuel w p l : probe_rep w p l -> (length l <= size (w_ecb w))%nat.
Proof.
  intros [_ Hnd Hl]. rewrite <- (size_dom (D := gset Z)). rewrite <- (size_list_to_set (C := gset Z) l) by done.
  apply subseteq_size. intros e He%elem_of_list_to_set. apply list_elem_of_lookup in He as [i Hi]. destruct (Hl i e Hi) as (ecb & He & _).
  apply elem_of_dom. by exists ecb.
Qed.

Definition disable_log (p : Z) (l : list Z) : list pop_call :=
  match l with
  | [] => let pr := probe_at r p in [Disable (dtpr_provider pr) (dtpr_id pr) (dtpr_arg pr)]
  | _ => []
  end.

(** The ECBs once [e] was taken out from between [l1] and [l2]. *)
Definition unlinked (m : gmap Z dtrace_ecb) (l1 : list Z) (e : Z) (ecb : dtrace_ecb) (l2 : list Z) : gmap Z dtrace_ecb :=
  <[e := set_next None ecb]>
    (match last l1 with
     | Some x => match m !! x with Some xe => <[x := set_next (dte_next ecb) xe]> m | None => m end
     | None => m
     end).

Lemma unlinked_lookup m l1 e ecb l2 y ye :
  m !! y = Some ye -> y <> e ->
  exists ye', unlinked m l1 e ecb l2 !! y = Some ye' /\ set_next None ye' = set_next None ye /\
    dte_next ye' = (if bool_decide (last l1 = Some y) then dte_next ecb else dte_next ye).
Proof.
  intros Hy Hne. unfold unlinked. rewrite lookup_insert_ne by done. destruct (last l1) as [x|] eqn:Ex.
  - destruct (decide (x = y)) as [->|Hxy].
    + rewrite Hy, lookup_insert_eq. eexists. split; [done|]. by rewrite bool_decide_eq_true_2.
    + rewrite (bool_decide_eq_false_2 (Some x = Some y)) by congruence. exists ye. split; [|done].
      destruct (m !! x); [|done]. by rewrite lookup_insert_ne.
  - by exists ye.
Qed.

Lemma unlinked_only w l1 e ecb l2 pm log :
  w_ecb w !! e = Some ecb ->
  only_links w (World (w_difo w) (w_pred w) (w_chain w) (unlinked (w_ecb w) l1 e ecb l2) pm (w_state w) (w_cache w) (w_vtime w) (w_pool w) log).
Proof.
  intros He. split; [|done]. intros y. cbn. destruct (decide (y = e)) as [->|Hne].
  - rewrite He. unfold unlinked. by rewrite lookup_insert_eq.
  - destruct (w_ecb w !! y) as [ye|] eqn:Hy.
    + by destruct (unlinked_lookup (w_ecb w) l1 e ecb l2 y ye Hy Hne) as (ye' & -> & -> & _).
    + unfold unlinked. rewrite lookup_insert_ne by done. destruct (last l1) as [x|]; [|by rewrite Hy].
      destruct (w_ecb w !! x) as [xe|] eqn:Hx; [|by rewrite Hy]. rewrite lookup_insert_ne; [by rewrite Hy|]. congruence.
Qed.

Lemma unlinked_links w p l1 e ecb l2 :
  probe_rep w p (l1 ++ e :: l2) -> w_ecb w !! e = Some ecb ->
  forall i y, (l1 ++ l2) !! i = Some y ->
    exists ye, unlinked (w_ecb w) l1 e ecb l2 !! y = Some ye /\ dte_next ye = (l1 ++ l2) !! S i /\ dte_probe ye = Some p.
Proof.
  intros [_ Hnd Hl] He i y Hy. apply NoDup_app in Hnd as (Hn1 & Hn12 & [Hen2 Hn2]%NoDup_cons).
  assert (Hye : y <> e).
  { intros ->. apply list_elem_of_lookup_2, elem_of_app in Hy as [H|H]; [by destruct (Hn12 _ H); set_solver|done]. }
  destruct (Hl (length l1) e ltac:(by apply list_lookup_middle)) as (ecb' & He' & Hnx & _). rewrite He in He'. injection He' as <-.
  assert (Hnx' : dte_next ecb = l2 !! O).
  { rewrite Hnx, lookup_app_r by lia. by replace (S (length l1) - length l1)%nat with 1%nat by lia. }
  apply lookup_app_Some in Hy as [Hy|[Hge Hy]].
  - pose proof (lookup_lt_Some _ _ _ Hy) as Hlt. destruct (Hl i y) as (ye & Hyy & Hyn & Hyp); [by rewrite lookup_app_l|].
    destruct (unlinked_lookup (w_ecb w) l1 e ecb l2 y ye Hyy Hye) as (ye' & Hu & Hs & Hn). exists ye'. split; [done|].
    split; [|apply (f_equal dte_probe) in Hs; cbn in Hs; congruence]. rewrite Hn.
    destruct (decide (S i < length l1)%nat) as [Hlt'|Hge].
    + rewrite lookup_app_l in Hyn by done. rewrite (lookup_app_l l1 l2) by done. rewrite bool_decide_eq_false_2; [done|].
      rewrite last_lookup. intros Hlast. pose proof (NoDup_lookup l1 _ _ y Hn1 Hy Hlast). lia.
    + assert (Hi : i = pred (length l1)) by lia. rewrite bool_decide_eq_true_2 by (rewrite last_lookup; by rewrite <- Hi).
      rewrite Hnx', lookup_app_r by lia. f_equal. lia.
  - assert (Hidx : (l1 ++ e :: l2) !! S i = Some y).
    { rewrite lookup_app_r by lia. replace (S i - length l1)%nat with (S (i - length l1)) by lia. done. }
    destruct (Hl (S i) y Hidx) as (ye & Hyy & Hyn & Hyp).
    destruct (unlinked_lookup (w_ecb w) l1 e ecb l2 y ye Hyy Hye) as (ye' & Hu & Hs & Hn). exists ye'. split; [done|].
    split; [|apply (f_equal dte_probe) in Hs; cbn in Hs; congruence]. rewrite Hn, bool_decide_eq_false_2.
    + rewrite Hyn, !lookup_app_r by lia. by replace (S (S i) - length l1)%nat with (S (S i - length l1)) by lia.
    + intros Hlast. apply last_Some_elem_of in Hlast. apply list_elem_of_lookup_2 in Hy. destruct (Hn12 _ Hlast). set_solver.
Qed.

Lemma head_last_single {A} (l : list A) f : NoDup l -> head l = Some f -> last l = Some f -> l = [f].
Proof.
  destruct l as [|y [|z l]]; [done|by intros _ [= ->]|]. intros [Hy _]%NoDup_cons [= ->]. rewrite last_cons_cons.
  intros H%last_Some_elem_of. done.
Qed.

Lemma cacheid_set w ecb e w1 n :
  preds_ok w -> w_ecb w !! e = Some ecb -> w_pred w1 = w_pred w ->
  exists o, cacheid (set_next n ecb) w1 = Some (o, w1) /\ default 0 o = cache_id w e.
Proof.
  intros Hp He Hw. unfold cacheid, cache_id. rewrite He. cbn. destruct (dte_predicate ecb) as [p|] eqn:E; [|by exists None].
  destruct (Hp e ecb p He E) as [pr Hpr]. run. rewrite Hw, Hpr. by exists (Some (pr_cacheid pr)).
Qed.

(** The world once [e] was taken out of the list of [p]. *)
Definition disabled w (p : Z) (l1 : list Z) (e : Z) (ecb : dtrace_ecb) (l2 : list Z) : world :=
  World (w_difo w) (w_pred w) (w_chain w) (unlinked (w_ecb w) l1 e ecb l2)
    (<[p := ProbeEcbs (head (l1 ++ l2)) (last (l1 ++ l2)) (cache_of w (l1 ++ l2))]> (w_probe w))
    (w_state w) (w_cache w) (w_vtime w) (w_pool w) (w_log w ++ disable_log p (l1 ++ l2)).

Lemma disabled_rep w p l1 e ecb l2 :
  probe_rep w p (l1 ++ e :: l2) -> w_ecb w !! e = Some ecb -> dte_probe ecb = Some p ->
  let w' := disabled w p l1 e ecb l2 in
  probe_rep w' p (l1 ++ l2) /\ only_links w w' /\
  (forall y, y ∉ l1 ++ [e] -> w_ecb w' !! y = w_ecb w !! y) /\
  (forall q lq, q <> p -> probe_rep w q lq -> probe_rep w' q lq).
Proof.
  intros Hrep He Hp w'. assert (Hol : only_links w w') by (by apply unlinked_only). split; [|split; [done|split]].
  - split.
    + cbn. rewrite lookup_insert_eq. by rewrite (only_links_cache_of w w' _ Hol).
    + apply pr_nodup in Hrep as Hnd. apply NoDup_app in Hnd as (? & Hd & [? ?]%NoDup_cons). apply NoDup_app. split_and!; try done.
      intros x Hx Hx2. destruct (Hd x Hx). set_solver.
    + by apply unlinked_links.
  - intros y Hy. cbn. unfold unlinked. rewrite lookup_insert_ne by set_solver. destruct (last l1) as [x|] eqn:Ex; [|done].
    apply last_Some_elem_of in Ex. destruct (w_ecb w !! x); [|done]. rewrite lookup_insert_ne; [done|]. set_solver.
  - intros q lq Hq Hrq. apply (probe_rep_other w); [done|cbn; by rewrite lookup_insert_ne| |done].
    intros y ye Hy Hyp. cbn. unfold unlinked. rewrite lookup_insert_ne by congruence.
    destruct (last l1) as [x|] eqn:Ex; [|done]. apply last_Some in Ex as [l1' ->].
    destruct (pr_links _ _ _ Hrep (length l1') x) as (xe & Hxe & _ & Hxp); [rewrite <- app_assoc; by apply list_lookup_middle|].
    rewrite Hxe. rewrite lookup_insert_ne; [done|]. congruence.
Qed.

Lemma disable_run w p l1 e ecb l2 :
  probe_rep w p (l1 ++ e :: l2) -> preds_ok w -> w_ecb w !! e = Some ecb -> dte_probe ecb = Some p ->
  dtrace_ecb_disable r e w = Some (tt, disabled w p l1 e ecb l2).
Proof.
  intros Hrep Hpreds He Hp. pose proof Hrep as [H1 Hnd Hl]. unfold dtrace_ecb_disable. run. rewrite He. cbn beta iota. rewrite Hp, H1. cbn beta iota.
  cbn [pe_ecb pe_ecb_last pe_predcache]. rewrite find_run; [|intros i y Hy; destruct (Hl i y Hy) as (ye & ? & ? & _); by exists ye|done|].
  2:{ pose proof (rep_fuel _ _ _ Hrep) as Hf. rewrite length_app in Hf. lia. }
  destruct (Hl (length l1) e ltac:(by apply list_lookup_middle)) as (ecb' & He' & Hnx & _). rewrite He in He'. injection He' as <-.
  assert (Hnx' : dte_next ecb = head l2).
  { rewrite Hnx, lookup_app_r, head_lookup by lia. by replace (S (length l1) - length l1)%nat with 1%nat by lia. }
  rewrite last_app_cons. apply NoDup_app in Hnd as (Hn1 & Hn12 & [Hen2 Hn2]%NoDup_cons).
  assert (Hisl : bool_decide (last (e :: l2) = Some e) = match l2 with [] => true | _ => false end).
  { destruct l2 as [|f l2]; [by apply bool_decide_eq_true_2|]. apply bool_decide_eq_false_2. rewrite last_cons_cons. intros H%last_Some_elem_of. done. }
  rewrite Hisl, Hnx'. destruct l1 as [|x l1 _] using rev_ind.
  - cbn [last head app]. destruct l2 as [|f l2].
    + assert (Hid : set_next None ecb = ecb) by (destruct ecb; cbn in *; by subst).
      cbn. unfold disabled, unlinked. cbn. by rewrite Hid, (insert_id (w_ecb w) e ecb He).
    + cbn [head negb orb andb]. rewrite last_cons_cons. cbn [cache_of Z.eqb]. rewrite andb_true_r.
      rewrite bool_decide_eq_true_2 by (intros Hn%last_None; done). cbn beta iota.
      destruct (Hl 1%nat f eq_refl) as (fe & Hfe & Hfn & _). cbn [app] in Hfn.
      destruct (bool_decide_reflect (Some f = last (f :: l2))) as [Hfl|Hfl].
      * assert (l2 = []) as ->.
        { destruct l2 as [|f2 l2]; [done|]. exfalso. rewrite last_cons_cons in Hfl. symmetry in Hfl. apply last_Some_elem_of in Hfl. by apply NoDup_cons in Hn2 as []. }
        rewrite Hfe. cbn beta iota. rewrite Hfn. cbn beta iota. destruct (cacheid_run w fe f Hpreds Hfe) as (o & Ho & Hc). cbn. rewrite Ho. cbn beta iota.
        unfold disabled, unlinked. cbn. rewrite Hc, app_nil_r. done.
      * cbn beta iota. unfold disabled, unlinked. cbn. rewrite app_nil_r. destruct l2 as [|f2 l2]; [done|]. done.
  - rewrite last_snoc. destruct (Hl (length l1) x) as (xe & Hxe & Hxn & Hxp); [rewrite <- app_assoc; by apply list_lookup_middle|].
    rewrite Hxe. cbn beta iota. assert (Hxe2 : x <> e) by (intros ->; destruct (Hn12 e); set_solver).
    assert (Hc0 : cache_of w ((l1 ++ [x]) ++ e :: l2) = 0) by (by destruct l1 as [|? [|]]). rewrite Hc0.
    assert (Hhd : exists f, head ((l1 ++ [x]) ++ e :: l2) = Some f /\ head ((l1 ++ [x]) ++ l2) = Some f) by (destruct l1; by eexists).
    destruct Hhd as (f & Hf1 & Hf2). rewrite Hf1.
    assert (Hlast : (if match l2 with [] => true | _ => false end then Some x else last (e :: l2)) = last ((l1 ++ [x]) ++ l2)).
    { destruct l2 as [|f2 l2]; [by rewrite app_nil_r, last_snoc|]. by rewrite last_cons_cons, last_app_cons. }
    assert (Has : negb (match l2 with [] => true | _ => false end) || bool_decide (head l2 = None) = true) by (by destruct l2).
    rewrite Has, Hlast. cbn beta iota. rewrite bool_decide_eq_true_2 by (rewrite last_None; by destruct l1).
    cbn [andb Z.eqb DTRACE_CACHEIDNONE]. cbn beta iota.
    assert (Hnd : NoDup ((l1 ++ [x]) ++ l2)) by (apply NoDup_app; split_and!; try done; set_solver).
    assert (Hlog : disable_log p ((l1 ++ [x]) ++ l2) = []) by (by destruct l1).
    destruct (bool_decide_reflect (Some f = last ((l1 ++ [x]) ++ l2))) as [Hfl|Hfl].
    + pose proof (head_last_single _ f Hnd Hf2 (eq_sym Hfl)) as Hs. assert (l1 = [] /\ l2 = [] /\ x = f) as (-> & -> & ->).
      { by destruct l1 as [|? [|]], l2; cbn in Hs; simplify_eq. }
      cbn [w_ecb set_ecb]. rewrite lookup_insert_eq. cbn [head dte_next set_next]. cbn beta iota.
      destruct (cacheid_set w xe f (set_ecb (<[f := set_next None xe]> (w_ecb w)) w) None Hpreds Hxe eq_refl) as (o & Ho & Hc).
      rewrite bool_decide_eq_true_2 by done. rewrite Ho. cbn beta iota. unfold disabled, unlinked. cbn. by rewrite Hxe, Hnx', Hc, app_nil_r.
    + cbn beta iota. assert (Hc : cache_of w ((l1 ++ [x]) ++ l2) = 0).
      { destruct ((l1 ++ [x]) ++ l2) as [|y [|]]; done. }
      unfold disabled, unlinked. cbn. by rewrite last_snoc, Hxe, Hnx', Hc, Hf2, Hlog, app_nil_r.
Qed.

(** The lists of the ECBs of all probes: an ECB that is in no list has no successor. *)
Record lists_ok (L : gmap Z (list Z)) w : Prop := {
  li_rep : forall p l, L !! p = Some l -> probe_rep w p l;
  li_preds : preds_ok w;
  li_off : forall e ecb, w_ecb w !! e = Some ecb ->
    match dte_probe ecb with
    | Some p => exists l, L !! p = Some l /\ (e ∉ l -> dte_next ecb = None)
    | None => dte_next ecb = None
    end
}.

Lemma only_links_lookup w w' e ecb' :
  only_links w w' -> w_ecb w' !! e = Some ecb' ->
  exists ecb, w_ecb w !! e = Some ecb /\ dte_probe ecb' = dte_probe ecb /\ dte_predicate ecb' = dte_predicate ecb.
Proof.
  intros [He _] H. specialize (He e). rewrite H in He. destruct (w_ecb w !! e) as [ecb|]; [|done]. exists ecb.
  split; [done|]. split; [by apply (f_equal dte_probe) in He|by apply (f_equal dte_predicate) in He].
Qed.

(** A step on the list of [p] that changes only ECBs of the old list and keeps the others' next pointers. *)
Lemma lists_step L w w' p l l' :
  lists_ok L w -> L !! p = Some l -> probe_rep w' p l' -> only_links w w' ->
  (forall y, y ∉ l -> w_ecb w' !! y = w_ecb w !! y) ->
  (forall y ecb, y ∈ l -> y ∉ l' -> w_ecb w' !! y = Some ecb -> dte_next ecb = None) ->
  (forall q lq, q <> p -> probe_rep w q lq -> probe_rep w' q lq) -> lists_ok (<[p := l']> L) w'.
Proof.
  intros [Hr Hp Hoff] HL Hrep Hol Hsame Hout Hoth. split.
  - intros q lq Hq. destruct (decide (q = p)) as [->|Hne].
    + rewrite lookup_insert_eq in Hq. by injection Hq as <-.
    + rewrite lookup_insert_ne in Hq by done. apply Hoth; [done|]. by apply Hr.
  - intros e ecb' q He Hq. destruct (only_links_lookup w w' e ecb' Hol He) as (ecb & He0 & _ & Hpr).
    destruct Hol as [_ (_ & -> & _)]. eapply Hp; [exact He0|]. by rewrite <- Hpr.
  - intros e ecb' He. destruct (only_links_lookup w w' e ecb' Hol He) as (ecb & He0 & Hprb & _). rewrite Hprb.
    specialize (Hoff e ecb He0). destruct (dte_probe ecb) as [q|] eqn:Eq.
    + destruct Hoff as (lq & Hlq & Hnx). destruct (decide (q = p)) as [->|Hne].
      * rewrite HL in Hlq. injection Hlq as <-. exists l'. rewrite lookup_insert_eq. split; [done|]. intros Hnin.
        destruct (decide (e ∈ l)) as [Hin|Hnin0]; [by eapply Hout|].
        specialize (Hsame e Hnin0). rewrite He, He0 in Hsame. injection Hsame as ->. by apply Hnx.
      * exists lq. rewrite lookup_insert_ne by done. split; [done|]. intros Hnin. destruct (decide (e ∈ l)) as [Hin|Hnin0].
        -- exfalso. apply list_elem_of_lookup in Hin as [i Hi]. destruct (pr_links _ _ _ (Hr p l HL) i e Hi) as (ecb2 & H2 & _ & H3).
           rewrite He0 in H2. injection H2 as <-. congruence.
        -- specialize (Hsame e Hnin0). rewrite He, He0 in Hsame. injection Hsame as ->. by apply Hnx.
    + destruct (decide (e ∈ l)) as [Hin|Hnin0].
      * exfalso. apply list_elem_of_lookup in Hin as [i Hi]. destruct (pr_links _ _ _ (Hr p l HL) i e Hi) as (ecb2 & H2 & _ & H3).
        rewrite He0 in H2. injection H2 as <-. congruence.
      * specialize (Hsame e Hnin0). rewrite He, He0 in Hsame. by injection Hsame as ->.
Qed.

Lemma lists_enable L w p l e ecb :
  lists_ok L w -> w_ecb w !! e = Some ecb -> dte_probe ecb = Some p -> L !! p = Some l -> e ∉ l ->
  exists rv w', dtrace_ecb_enable r dtps_enable e w = Some (rv, w') /\ lists_ok (<[p := l ++ [e]]> L) w' /\ only_links w w' /\
    w_log w' = w_log w ++ enable_log p l.
Proof.
  intros HL He Hp Hl Hin. pose proof (li_off _ _ HL e ecb He) as Hoff. rewrite Hp in Hoff. destruct Hoff as (l0 & Hl0 & Hnx).
  rewrite Hl in Hl0. injection Hl0 as <-.
  destruct (enable_rep w p l e ecb (li_rep _ _ HL p l Hl) (li_preds _ _ HL) He Hp (Hnx Hin) Hin) as (rv & w' & Hrun & Hrep & Hol & Hlog & Hsame & Hoth).
  exists rv, w'. split_and!; try done. eapply lists_step; try done. intros y ? Hy Hny. destruct Hny. set_solver.
Qed.

Lemma lists_disable L w p l1 e l2 ecb :
  lists_ok L w -> w_ecb w !! e = Some ecb -> dte_probe ecb = Some p -> L !! p = Some (l1 ++ e :: l2) ->
  exists w', dtrace_ecb_disable r e w = Some (tt, w') /\ lists_ok (<[p := l1 ++ l2]> L) w' /\ only_links w w' /\
    w_log w' = w_log w ++ disable_log p (l1 ++ l2).
Proof.
  intros HL He Hp Hl. pose proof (li_rep _ _ HL p _ Hl) as Hrep.
  exists (disabled w p l1 e ecb l2). split; [by apply disable_run; [|apply (li_preds _ _ HL)|..]|].
  destruct (disabled_rep w p l1 e ecb l2 Hrep He Hp) as (Hrep' & Hol & Hsame & Hoth).
  split_and!; try done. eapply lists_step; try done.
  - intros y Hy. apply Hsame. set_solver.
  - intros y ye Hy Hny Hye. assert (y = e) as -> by set_solver. cbn in Hye. unfold unlinked in Hye. rewrite lookup_insert_eq in Hye. by injection Hye as <-.
Qed.
End Probe.

(** C17: dtrace_ecb_enable() and dtrace_ecb_disable() implement lists of ECBs: from pointers that represent one list per probe,
    enabling an ECB that is in no list returns and appends it to the list of its probe, disabling one takes it out wherever it is, and
    no assertion fails on the way, those on the end of the list and on the predicate cache included.  The representation says that the
    predicate cache of a probe is that of its only ECB, and none if there are several or none; that an ECB in no list has no
    successor, as dtrace_ecb_destroy() asserts.  The provider is told of the first ECB of a probe and of the removal of the
    last one, and of nothing else.  Nothing but links, the two pointers and the cache changes. *)
Theorem ecb_lists_refine {pool} r dtps_enable L (w : @world pool) p l e ecb :
  lists_ok L w -> w_ecb w !! e = Some ecb -> dte_probe ecb = Some p -> L !! p = Some l ->
  (e ∉ l -> exists rv w', dtrace_ecb_enable r dtps_enable e w = Some (rv, w') /\
    lists_ok (<[p := l ++ [e]]> L) w' /\ only_links w w' /\ w_log w' = w_log w ++ enable_log r p l) /\
  (forall l1 l2, l = l1 ++ e :: l2 -> exists w', dtrace_ecb_disable r e w = Some (tt, w') /\
    lists_ok (<[p := l1 ++ l2]> L) w' /\ only_links w w' /\ w_log w' = w_log w ++ disable_log r p (l1 ++ l2)).
Proof.
  intros HL He Hp Hl. split.
  - intros Hin. by apply (lists_enable r dtps_enable L w p l e ecb).
  - intros l1 l2 ->. by apply (lists_disable r dtps_enable L w p l1 e l2 ecb).
Qed.

(** Probe 7 has the ECB 1, which has a predicate; ECB 2 is to come. *)
Definition demo_ecb (epid : Z) (pred : option Z) : dtrace_ecb := Ecb epid 4 4 4 pred None None 9 0 (Some 7) 0.
Definition demo_world : @world unit :=
  World ∅ {[5 := Pred 6 1 3]} ∅ (<[1 := demo_ecb 1 (Some 5)]> {[2 := demo_ecb 2 None]}) {[7 := ProbeEcbs (Some 1) (Some 1) 3]} ∅ None
    (0, false) tt [].

Lemma demo_lists : lists_ok {[7 := [1]]} demo_world.
Proof.
  split.
  - intros p l [<- <-]%lookup_singleton_Some. split; [done|apply NoDup_singleton|]. intros [|i] e Hi; [|by destruct i]. injection Hi as <-.
    by exists (demo_ecb 1 (Some 5)).
  - intros e ecb p He Hp. cbn in He. apply lookup_insert_Some in He as [[<- <-]|[_ [<- <-]%lookup_singleton_Some]]; cbn in Hp; [|done].
    injection Hp as <-. by exists (Pred 6 1 3).
  - intros e ecb He. cbn in He. apply lookup_insert_Some in He as [[<- <-]|[_ [<- <-]%lookup_singleton_Some]]; cbn; by exists [1].
Qed.

Lemma ecb_lists_refine_witness :
  exists rv w', dtrace_ecb_enable registry_init (fun _ _ _ => 0) 2 demo_world = Some (rv, w') /\
    lists_ok (<[7 := [1] ++ [2]]> {[7 := [1]]}) w' /\ only_links demo_world w' /\ w_log w' = w_log demo_world ++ enable_log registry_init 7 [1].
Proof.
  apply (ecb_lists_refine registry_init (fun _ _ _ => 0) {[7 := [1]]} demo_world 7 [1] 2 (demo_ecb 2 None));
    [apply demo_lists|reflexivity|reflexivity|reflexivity|]. intros H%list_elem_of_singleton. discriminate H.
Defined.
