(* ===== verification/EcbHeld.v ===== *)
(** What the actions of ECBs hold: formats, aggregation identifiers and references to DIF objects.

    A consumer's tables are compared by their entries: they only grow.  [holds s w0 ks w] says that the
    world [w] has what [w0] has and, besides, what actions with the keys [ks] hold; removing the
    actions, remove_action(), goes from [ks] back to nothing. *)
From S2P Require Import Prelude Dif SafeMem DifValidate DifObject Aggregate Match Probes Dof Ecb EcbLayout EcbLists.
From stdpp Require Import gmap list.
#[local] Open Scope Z_scope.

(** * Tables and formats *)

Definition entry {A} (l : list (option A)) (i : nat) : option A := default None (l !! i).

(** An array whose next identifier is [id]. *)
Record tab_ok (id : Z) (l : list (option Z)) : Prop := {
  tk_id : 1 <= id;
  tk_len : id - 1 <= Z.of_nat (length l);
  tk_free : forall i, id - 1 <= Z.of_nat i -> entry l i = None
}.

Lemma entry_insert {A} (l : list (option A)) i x j :
  (i < length l)%nat -> entry (<[i := x]> l) j = if decide (j = i) then x else entry l j.
Proof.
  intros Hi. unfold entry. destruct (decide (j = i)) as [->|Hne]; [by rewrite list_lookup_insert_eq|by rewrite list_lookup_insert_ne].
Qed.

Lemma entry_app_none {A} (l : list (option A)) n j : entry (l ++ replicate n None) j = entry l j.
Proof.
  unfold entry. destruct (decide (j < length l)%nat).
  - by rewrite lookup_app_l.
  - rewrite lookup_app_r by lia. rewrite (lookup_ge_None_2 l) by lia. cbn. destruct (replicate n None !! (j - length l)%nat) as [x|] eqn:E; [|done].
    apply lookup_replicate in E as [-> _]. done.
Qed.

Lemma zlookup_entry {A} (l : list (option A)) i : 0 <= i < Z.of_nat (length l) -> zlookup l i = Some (entry l (Z.to_nat i)).
Proof.
  intros Hi. unfold zlookup, entry. destruct (Z.leb_spec 0 i), (Z.ltb_spec i (Z.of_nat (length l))); try lia. cbn.
  destruct (lookup_lt_is_Some_2 l (Z.to_nat i)) as [x ->]; [lia|done].
Qed.

Lemma grow_table_ok id l :
  tab_ok id l -> id < 2 ^ 31 -> exists l', grow_table id l = Some l' /\ id <= Z.of_nat (length l') /\ forall i, entry l' i = entry l i.
Proof.
  intros [H1 H2 H3] Hid. unfold grow_table. rewrite u32_small by lia. destruct (Z.leb_spec (Z.of_nat (length l)) (id - 1)).
  - rewrite (proj2 (Z.eqb_eq id (Z.of_nat (length l) + 1))) by lia. eexists. split; [done|]. destruct l as [|x l].
    + cbn in *. split; [lia|]. by intros [|i].
    + split; [rewrite length_app, length_replicate; cbn [length] in *; lia|]. intros i. apply entry_app_none.
  - exists l. split; [done|]. split; [lia|done].
Qed.

Lemma table_set_ok id a l :
  tab_ok id l -> id < 2 ^ 31 ->
  exists l', table_set id a l = Some l' /\ tab_ok (id + 1) l' /\ forall i, entry l' i = if decide (i = Z.to_nat (id - 1)) then Some a else entry l i.
Proof.
  intros Ht Hid. destruct (grow_table_ok id l Ht Hid) as (l1 & Hg & Hlen & Hent). destruct Ht as [H1 H2 H3]. unfold table_set. rewrite Hg.
  rewrite zlookup_entry by lia. rewrite Hent, H3 by lia. eexists. split; [done|].
  assert (He : forall i, entry (<[Z.to_nat (id - 1) := Some a]> l1) i = if decide (i = Z.to_nat (id - 1)) then Some a else entry l i).
  { intros i. rewrite entry_insert by lia. by rewrite Hent. }
  split; [|done]. split; [lia|rewrite length_insert; lia|]. intros i Hi. rewrite He. destruct (decide _); [lia|]. apply H3. lia.
Qed.

Lemma table_clear_ok id a l :
  1 <= id -> entry l (Z.to_nat (id - 1)) = Some a ->
  exists l', table_clear id a l = Some l' /\ length l' = length l /\
    forall i, entry l' i = if decide (i = Z.to_nat (id - 1)) then None else entry l i.
Proof.
  intros H1 He. assert (Hlt : (Z.to_nat (id - 1) < length l)%nat).
  { apply not_ge. intros Hge. unfold entry in He. by rewrite (lookup_ge_None_2 l) in He by lia. }
  unfold table_clear. rewrite zlookup_entry by lia. rewrite He, Z.eqb_refl. eexists. split; [done|]. split; [apply length_insert|].
  intros i. by apply entry_insert.
Qed.

Lemma free_slot_spec l :
  match free_slot l with Some i => (i < length l)%nat /\ entry l i = None | None => True end.
Proof.
  induction l as [|[x|] l IH]; cbn; [done| |split; [lia|done]]. destruct (free_slot l) as [i|]; [|done]. split; [lia|]. apply IH.
Qed.

Lemma block_strlen_app s : Ecb.block_strlen (s ++ [0]) <> None.
Proof. induction s as [|c s IH]; cbn; [done|]. destruct (c =? 0); [done|]. by destruct (block_strlen (s ++ [0])). Qed.

Definition formats_ok (s : dtrace_state) : Prop := Z.of_nat (length (dts_formats s)) <= USHRT_MAX.

(** A format takes a free entry, or none if there are too many. *)
Lemma format_add_ok s str :
  formats_ok s -> Z.of_nat (length str) < USHRT_MAX ->
  exists f s', dtrace_format_add s str = (f, s') /\ 0 <= f <= USHRT_MAX /\ formats_ok s' /\
    s' = set_formats (dts_formats s') s /\
    (f = 0 /\ s' = s \/
     f <> 0 /\ entry (dts_formats s) (Z.to_nat (f - 1)) = None /\ exists b, block_strlen b <> None /\
     forall i, entry (dts_formats s') i = if decide (i = Z.to_nat (f - 1)) then Some b else entry (dts_formats s) i).
Proof.
  unfold formats_ok, USHRT_MAX. intros Hs Hstr. unfold dtrace_format_add. pose proof (free_slot_spec (dts_formats s)) as Hfree.
  assert (Hlen : u16 (Z.of_nat (length str) + 1) = Z.of_nat (length str) + 1) by (unfold u16; apply Z.mod_small; lia).
  assert (Hfmt : take (Z.to_nat (u16 (Z.of_nat (length str) + 1))) (str ++ [0]) = str ++ [0]).
  { rewrite Hlen. apply take_ge. rewrite length_app. cbn. lia. }
  rewrite Hfmt. destruct (free_slot (dts_formats s)) as [i|].
  - destruct Hfree as [Hi He]. assert (Hu : u16 (Z.of_nat i + 1) = Z.of_nat i + 1) by (unfold u16; apply Z.mod_small; lia). rewrite Hu.
    eexists _, _. split; [done|]. split; [lia|]. split; [cbn; rewrite length_insert; lia|]. split; [done|]. right. split; [lia|].
    replace (Z.to_nat (Z.of_nat i + 1 - 1)) with i by lia. split; [done|]. exists (str ++ [0]). split; [apply block_strlen_app|]. intros j. cbn. by apply entry_insert.
  - unfold USHRT_MAX. destruct (Z.eqb_spec (Z.of_nat (length (dts_formats s))) 65535).
    + exists 0, s. split; [done|]. split; [lia|]. split; [lia|]. split; [by destruct s|]. by left.
    + assert (Hu : u16 (Z.of_nat (length (dts_formats s)) + 1) = Z.of_nat (length (dts_formats s)) + 1) by (unfold u16; apply Z.mod_small; lia). rewrite Hu.
      eexists _, _. split; [done|]. split; [lia|]. split; [cbn; rewrite length_app; cbn; lia|]. split; [done|]. right. split; [lia|].
      replace (Z.to_nat (Z.of_nat (length (dts_formats s)) + 1 - 1)) with (length (dts_formats s)) by lia.
      split; [unfold entry; by rewrite lookup_ge_None_2|]. exists (str ++ [0]). split; [apply block_strlen_app|]. intros j. cbn. unfold entry.
      destruct (decide (j = length (dts_formats s))) as [->|Hne]; [by rewrite list_lookup_middle|].
      destruct (decide (j < length (dts_formats s))%nat); [by rewrite lookup_app_l|].
      rewrite !lookup_ge_None_2; [done|lia|]. rewrite length_app. cbn. lia.
Qed.

Lemma format_remove_ok s f b :
  1 <= f -> entry (dts_formats s) (Z.to_nat (f - 1)) = Some b -> block_strlen b <> None ->
  exists s', dtrace_format_remove s f = Some s' /\ s' = set_formats (dts_formats s') s /\ length (dts_formats s') = length (dts_formats s) /\
    forall i, entry (dts_formats s') i = if decide (i = Z.to_nat (f - 1)) then None else entry (dts_formats s) i.
Proof.
  intros Hf He Hb. assert (Hlt : (Z.to_nat (f - 1) < length (dts_formats s))%nat).
  { apply not_ge. intros Hge. unfold entry in He. by rewrite (lookup_ge_None_2 (dts_formats s)) in He by lia. }
  unfold dtrace_format_remove. rewrite zlookup_entry by lia. rewrite He. destruct (block_strlen b); [|done].
  eexists. split; [done|]. split; [done|]. split; [cbn; apply length_insert|]. intros i. cbn. by apply entry_insert.
Qed.

(** * What a list of actions holds *)

(** What matters of an action for its resources. *)
Record akey := AKey { k_isagg : bool; k_difo : option Z; k_format : Z; k_id : option Z; k_self : Z }.
Definition key (a : dtrace_action) : akey :=
  AKey (isagg a) (dta_difo a) (dtrd_format (dta_rec a)) (Ecb.dtag_id <$> dta_agg a) (dta_self a).

Definition fmts (ks : list akey) : list nat :=
  omap (fun k => if k_format k =? 0 then None else Some (Z.to_nat (k_format k - 1))) ks.
Definition aggs (ks : list akey) : list (nat * Z) :=
  omap (fun k => match k_id k with Some id => Some (Z.to_nat (id - 1), k_self k) | None => None end) ks.

Definition drefs (d : Z) (ks : list akey) : Z :=
  foldr (fun k n => (if decide (k_difo k = Some d) then 1 else 0) + n) 0 ks.

Definition bump (n : Z) (dp : dtrace_difo) : dtrace_difo := set_refcnt (dtdo_refcnt dp + n) dp.

(** The references to virtual time of an action. *)
Definition vrefs (m : gmap Z dtrace_difo) (k : akey) : Z :=
  match k_difo k with Some d => from_option (fun dp => vtime_refs (dtdo_vartab dp)) 0 (m !! d) | None => 0 end.
Definition vsum (m : gmap Z dtrace_difo) (ks : list akey) : Z := foldr (fun k n => vrefs m k + n) 0 ks.

Definition key_ok (m : gmap Z dtrace_difo) (k : akey) : Prop :=
  0 <= k_format k /\ (k_isagg k = true <-> is_Some (k_id k)) /\ (forall id, k_id k = Some id -> 1 <= id) /\
  (forall d, k_difo k = Some d -> exists dp, m !! d = Some dp /\ 1 <= dtdo_refcnt dp).

(** The DIF objects, with the references of [ks] added to those of [m]. *)
Record dheld (m : gmap Z dtrace_difo) (t : Z) (ks : list akey) (m' : gmap Z dtrace_difo) (t' : Z) : Prop := {
  dh_difo : forall d, m' !! d = bump (drefs d ks) <$> m !! d;
  dh_vtime : t' = t + vsum m ks
}.

(** A consumer's state [st] with the resources of [ks] added to those of [st0]. *)
Record sheld (st0 : dtrace_state) (ks : list akey) (st : dtrace_state) : Prop := {
  sh_ecbs : dts_ecbs st = dts_ecbs st0 /\ dts_epid st = dts_epid st0;
  sh_same : dts_vstate st = dts_vstate st0 /\ dts_options st = dts_options st0 /\ dcr_visible st = dcr_visible st0;
  sh_fmt_ok : formats_ok st;
  sh_tab : tab_ok (dts_aggid_arena st + 1) (dts_aggregations st);
  sh_fmt_in : forall i, i ∈ fmts ks -> entry (dts_formats st0) i = None /\ exists b, entry (dts_formats st) i = Some b /\ block_strlen b <> None;
  sh_fmt_out : forall i, i ∉ fmts ks -> entry (dts_formats st) i = entry (dts_formats st0) i;
  sh_fmt_nd : NoDup (fmts ks);
  sh_agg_in : forall i a, (i, a) ∈ aggs ks -> entry (dts_aggregations st0) i = None /\ entry (dts_aggregations st) i = Some a;
  sh_agg_out : forall i, i ∉ (aggs ks).*1 -> entry (dts_aggregations st) i = entry (dts_aggregations st0) i;
  sh_agg_nd : NoDup (aggs ks).*1
}.

Lemma drefs_nonneg d ks : 0 <= drefs d ks.
Proof. induction ks as [|k ks IH]; cbn; [lia|]. fold (drefs d ks). destruct (decide _); lia. Qed.

Lemma drefs_app d ks ks' : drefs d (ks ++ ks') = drefs d ks + drefs d ks'.
Proof. induction ks as [|k ks IH]; cbn; [done|]. fold (drefs d (ks ++ ks')) (drefs d ks). lia. Qed.

Lemma vrefs_nonneg m k : 0 <= vrefs m k.
Proof. unfold vrefs. destruct (k_difo k) as [d|]; [|lia]. destruct (m !! d); cbn; [apply vtime_refs_nonneg|lia]. Qed.

Lemma vsum_nonneg m ks : 0 <= vsum m ks.
Proof. induction ks as [|k ks IH]; cbn; [lia|]. fold (vsum m ks). pose proof (vrefs_nonneg m k). lia. Qed.

Lemma vsum_app m ks ks' : vsum m (ks ++ ks') = vsum m ks + vsum m ks'.
Proof. induction ks as [|k ks IH]; cbn; [done|]. fold (vsum m (ks ++ ks')) (vsum m ks). lia. Qed.

Lemma bump_bump a b dp : bump a (bump b dp) = bump (a + b) dp.
Proof. unfold bump, set_refcnt. cbn. f_equal. lia. Qed.

Lemma bump_0 dp : bump 0 dp = dp.
Proof. unfold bump, set_refcnt. rewrite Z.add_0_r. by destruct dp. Qed.

Lemma dheld_nil m t : dheld m t [] m t.
Proof. split; cbn; [|lia]. intros d. destruct (m !! d) as [dp|]; cbn; [|done]. by rewrite bump_0. Qed.

Lemma dheld_nil_eq m t m' t' : dheld m t [] m' t' -> m' = m /\ t' = t.
Proof.
  intros [Hd Ht]. split; [|cbn in Ht; lia]. apply map_eq. intros d. rewrite Hd. cbn. destruct (m !! d) as [dp|]; cbn; [|done]. by rewrite bump_0.
Qed.

Lemma set_vstate_same st : set_vstate (dts_vstate st) st = st.
Proof. by destruct st. Qed.

Section Held.
Context {pool : Type}.
Implicit Types w : @world pool.

Lemma hold_run m t ks w k d :
  dheld m t ks (w_difo w) (w_vtime w).1 -> key_ok m k -> k_difo k = Some d ->
  exists m' t', hold_difo d w = Some (tt, set_difo m' t' w) /\ dheld m t (ks ++ [k]) m' t'.1.
Proof.
  intros [Hd Ht] (_ & _ & _ & Hk) Hkd. destruct (Hk d Hkd) as (dp & Hdp & _). unfold hold_difo. run. rewrite Hd, Hdp. cbn.
  eexists _, _. split; [reflexivity|]. split.
  - intros d'. rewrite drefs_app. cbn. rewrite Hkd. destruct (decide (d' = d)) as [->|Hne].
    + rewrite lookup_insert_eq, Hdp, decide_True by done. cbn. f_equal. unfold bump, set_refcnt. cbn. f_equal. lia.
    + rewrite lookup_insert_ne by done. rewrite decide_False by congruence. rewrite Hd. destruct (m !! d'); cbn; [|done]. do 2 f_equal. lia.
  - rewrite hold_vtime, vsum_app. cbn. unfold vrefs. rewrite Hkd, Hdp. cbn. lia.
Qed.

Lemma release_run m t ks w k d s st :
  dheld m t (k :: ks) (w_difo w) (w_vtime w).1 -> key_ok m k -> k_difo k = Some d -> 0 <= t -> w_state w !! s = Some st ->
  exists m' t', release_difo s d w = Some (tt, set_state (<[s := st]> (w_state w)) (set_difo m' t' w)) /\ dheld m t ks m' t'.1.
Proof.
  intros [Hd Ht] (_ & _ & _ & Hk) Hkd H0 Hs. destruct (Hk d Hkd) as (dp & Hdp & Hrc). unfold release_difo. run. rewrite Hd, Hdp. cbn beta iota.
  cbn [fmap option_fmap option_map]. rewrite Hs. cbn beta iota.
  assert (Hn : drefs d (k :: ks) = 1 + drefs d ks) by (cbn; by rewrite decide_True). pose proof (drefs_nonneg d ks) as Hnn.
  assert (Hv : vsum m (k :: ks) = vtime_refs (dtdo_vartab dp) + vsum m ks) by (cbn; unfold vrefs; by rewrite Hkd, Hdp).
  pose proof (vsum_nonneg m ks) as Hvn. unfold dtrace_difo_release. unfold bump at 1. cbn [dtdo_refcnt set_refcnt].
  destruct (Z.eqb_spec (dtdo_refcnt dp + drefs d (k :: ks)) 0); [lia|].
  destruct (release_vtime_ok (dtdo_vartab (bump (drefs d (k :: ks)) dp)) (w_vtime w)) as (b & Hr).
  { cbn. rewrite Ht, Hv. lia. }
  rewrite Hr. unfold bump, set_refcnt. cbn [dtdo_refcnt].
  destruct (Z.eqb_spec (dtdo_refcnt dp + drefs d (k :: ks) - 1) 0); [lia|]. cbn beta iota. rewrite set_vstate_same.
  eexists _, _. split; [reflexivity|]. split.
  - intros d'. destruct (decide (d' = d)) as [->|Hne].
    + rewrite lookup_insert_eq, Hdp. cbn [fmap option_fmap option_map]. unfold bump, set_refcnt. cbn -[drefs]. do 2 f_equal. lia.
    + rewrite lookup_insert_ne by done. rewrite Hd. destruct (m !! d'); cbn; [|done]. rewrite decide_False by congruence. done.
  - cbn -[vsum vtime_refs]. rewrite Ht, Hv. lia.
Qed.
End Held.

Definition no_format (k : akey) : akey := AKey (k_isagg k) (k_difo k) 0 (k_id k) (k_self k).
Definition no_id (k : akey) : akey := AKey (k_isagg k) (k_difo k) (k_format k) None (k_self k).

Lemma fmts_app ks ks' : fmts (ks ++ ks') = fmts ks ++ fmts ks'.
Proof. apply omap_app. Qed.

Lemma aggs_app ks ks' : aggs (ks ++ ks') = aggs ks ++ aggs ks'.
Proof. apply omap_app. Qed.

Lemma sheld_nil st : formats_ok st -> tab_ok (dts_aggid_arena st + 1) (dts_aggregations st) -> sheld st [] st.
Proof. intros. split; try done; try constructor; cbn; set_solver. Qed.

Lemma sheld_keys st0 ks ks' st : fmts ks' = fmts ks -> aggs ks' = aggs ks -> sheld st0 ks st -> sheld st0 ks' st.
Proof. intros Hf Ha [H1 H2 H3 H4 H5 H6 H7 H8 H9 H10]. split; rewrite ?Hf, ?Ha; done. Qed.

Lemma sheld_drop_fmt st0 k ks st :
  sheld st0 (k :: ks) st -> 1 <= k_format k ->
  exists st', dtrace_format_remove st (k_format k) = Some st' /\ sheld st0 (no_format k :: ks) st'.
Proof.
  intros [H1 H2 H3 H4 H5 H6 H7 H8 H9 H10] Hf.
  assert (Hfm : fmts (k :: ks) = Z.to_nat (k_format k - 1) :: fmts ks).
  { cbn. destruct (Z.eqb_spec (k_format k) 0); [lia|done]. }
  assert (Hfm' : fmts (no_format k :: ks) = fmts ks) by done. assert (Hag : aggs (no_format k :: ks) = aggs (k :: ks)) by done.
  rewrite Hfm in H5, H6, H7. apply NoDup_cons in H7 as [Hni Hnd].
  destruct (H5 (Z.to_nat (k_format k - 1))) as (He0 & b & Hb & Hstr); [set_solver|].
  destruct (format_remove_ok st (k_format k) b Hf Hb Hstr) as (st' & -> & Heq & Hlen & Hent). exists st'. split; [done|].
  rewrite Heq. rewrite Heq in Hent, Hlen. cbn in Hent, Hlen. split; rewrite ?Hfm', ?Hag; cbn; try done.
  - unfold formats_ok in *. cbn. by rewrite Hlen.
  - intros i Hi. rewrite Hent, decide_False by (intros ->; done). apply H5. set_solver.
  - intros i Hi. rewrite Hent. destruct (decide _) as [->|Hne]; [done|]. apply H6. set_solver.
Qed.

Lemma sheld_drop_agg st0 k ks st id :
  sheld st0 (k :: ks) st -> k_id k = Some id -> 1 <= id ->
  exists l, table_clear id (k_self k) (dts_aggregations st) = Some l /\ sheld st0 (no_id k :: ks) (set_aggs l (dts_aggid_arena st) st).
Proof.
  intros [H1 H2 H3 H4 H5 H6 H7 H8 H9 H10] Hid Hge.
  assert (Hag : aggs (k :: ks) = (Z.to_nat (id - 1), k_self k) :: aggs ks) by (cbn; by rewrite Hid).
  assert (Hag' : aggs (no_id k :: ks) = aggs ks) by done. assert (Hfm : fmts (no_id k :: ks) = fmts (k :: ks)) by done.
  rewrite Hag in H8, H9, H10. cbn [fmap list_fmap fst] in H9, H10. apply NoDup_cons in H10 as [Hni Hnd].
  destruct (H8 (Z.to_nat (id - 1)) (k_self k)) as [He0 He]; [set_solver|].
  destruct (table_clear_ok id (k_self k) (dts_aggregations st) Hge He) as (l & -> & Hlen & Hent). exists l. split; [done|].
  split; rewrite ?Hag', ?Hfm; cbn; try done.
  - destruct H4 as [Ha Hb Hc]. split; [done|lia|]. intros i Hi. rewrite Hent. destruct (decide _); [done|]. by apply Hc.
  - intros i a Hia. rewrite Hent, decide_False; [apply H8; set_solver|]. intros ->. apply Hni. apply list_elem_of_fmap. by exists (Z.to_nat (id - 1), a).
  - intros i Hi. rewrite Hent. destruct (decide _) as [->|Hne]; [done|]. apply H9. set_solver.
Qed.

Lemma sheld_add_fmt st0 ks st k f st' str :
  sheld st0 ks st -> dtrace_format_add st str = (f, st') -> Z.of_nat (length str) < USHRT_MAX ->
  k_format k = f -> k_id k = None -> 0 <= f /\ sheld st0 (ks ++ [k]) st'.
Proof.
  intros [H1 H2 H3 H4 H5 H6 H7 H8 H9 H10] Hadd Hstr Hf Hid.
  destruct (format_add_ok st str H3 Hstr) as (f' & st2 & Hadd' & Hr & Hok & Heq & Hcase). rewrite Hadd in Hadd'. injection Hadd' as <- <-.
  split; [lia|].
  assert (Hag : aggs (ks ++ [k]) = aggs ks) by (rewrite aggs_app; cbn; by rewrite Hid, app_nil_r).
  destruct Hcase as [[-> ->]|(Hf0 & Hfree & b & Hb & Hent)].
  - apply (sheld_keys st0 ks); [|done|by split]. rewrite fmts_app. cbn. by rewrite Hf, app_nil_r.
  - assert (Hfm : fmts (ks ++ [k]) = fmts ks ++ [Z.to_nat (f - 1)]).
    { rewrite fmts_app. cbn. rewrite Hf. destruct (Z.eqb_spec f 0); [done|]. by cbn. }
    assert (Hni : Z.to_nat (f - 1) ∉ fmts ks). { intros Hin. destruct (H5 _ Hin) as (_ & b' & Hb' & _). congruence. }
    rewrite Heq. rewrite Heq in Hent, Hok. cbn in Hent. split; rewrite ?Hfm, ?Hag; cbn; try done.
    + intros i Hi. rewrite Hent. destruct (decide _) as [->|Hne]; [split; [by rewrite <- H6|by exists b]|]. apply H5. set_solver.
    + intros i Hi. rewrite Hent, decide_False by set_solver. apply H6. set_solver.
    + apply NoDup_app. split_and!; [done|set_solver|apply NoDup_singleton].
Qed.

Lemma sheld_add_agg st0 ks st k :
  sheld st0 ks st -> dts_aggid_arena st + 1 < 2 ^ 31 -> k_format k = 0 -> k_id k = Some (dts_aggid_arena st + 1) ->
  exists l, table_set (dts_aggid_arena st + 1) (k_self k) (dts_aggregations st) = Some l /\
    sheld st0 (ks ++ [k]) (set_aggs l (dts_aggid_arena st + 1) st).
Proof.
  intros [H1 H2 H3 H4 H5 H6 H7 H8 H9 H10] Hid Hf Hk. set (id := dts_aggid_arena st + 1) in *.
  destruct (table_set_ok id (k_self k) (dts_aggregations st) H4 Hid) as (l & -> & Ht & Hent). exists l. split; [done|].
  assert (Hfm : fmts (ks ++ [k]) = fmts ks) by (rewrite fmts_app; cbn; by rewrite Hf, app_nil_r).
  assert (Hag : aggs (ks ++ [k]) = aggs ks ++ [(Z.to_nat (id - 1), k_self k)]) by (rewrite aggs_app; cbn; by rewrite Hk).
  assert (Hfree : entry (dts_aggregations st) (Z.to_nat (id - 1)) = None) by (apply (tk_free _ _ H4); destruct H4; lia).
  assert (Hni : Z.to_nat (id - 1) ∉ (aggs ks).*1).
  { intros ((i & a) & Hi & Hin)%list_elem_of_fmap. cbn in Hi. subst i. destruct (H8 _ _ Hin). congruence. }
  split; rewrite ?Hfm, ?Hag; cbn; try done.
  - intros i a Hia. rewrite Hent. apply elem_of_app in Hia as [Hia|[= -> ->]%list_elem_of_singleton].
    + rewrite decide_False; [by apply H8|]. intros ->. apply Hni. apply list_elem_of_fmap. by exists (Z.to_nat (id - 1), a).
    + rewrite decide_True by done. split; [by rewrite <- H9|done].
  - intros i Hi. rewrite fmap_app in Hi. cbn in Hi. rewrite Hent, decide_False by set_solver. apply H9. set_solver.
  - rewrite fmap_app. cbn. apply NoDup_app. split_and!; [done|set_solver|apply NoDup_singleton].
Qed.

(** A state with one format more. *)
Definition leaked (st0 st0' : dtrace_state) : Prop :=
  st0' = set_formats (dts_formats st0') st0 /\
  exists j, forall i, entry (dts_formats st0') i = entry (dts_formats st0) i \/ i = j /\ entry (dts_formats st0) i = None.

Lemma entry_exists {A} (l : list (option A)) j x : exists l', forall i, entry l' i = if decide (i = j) then Some x else entry l i.
Proof.
  exists (<[j := Some x]> (l ++ replicate (S j) None)). intros i. rewrite entry_insert, entry_app_none; [done|].
  rewrite length_app, length_replicate. lia.
Qed.

(** The format of an action that is refused stays. *)
Lemma sheld_leak st0 ks st f st' str :
  sheld st0 ks st -> dtrace_format_add st str = (f, st') -> Z.of_nat (length str) < USHRT_MAX ->
  exists st0', leaked st0 st0' /\ sheld st0' ks st'.
Proof.
  intros [H1 H2 H3 H4 H5 H6 H7 H8 H9 H10] Hadd Hstr.
  destruct (format_add_ok st str H3 Hstr) as (f' & st2 & Hadd' & Hr & Hok & Heq & Hcase). rewrite Hadd in Hadd'. injection Hadd' as <- <-.
  destruct Hcase as [[-> ->]|(Hf0 & Hfree & b & Hb & Hent)].
  - exists st0. split; [|by split]. split; [by destruct st0|]. exists O. by left.
  - destruct (entry_exists (dts_formats st0) (Z.to_nat (f - 1)) b) as (l' & Hl').
    assert (Hni : Z.to_nat (f - 1) ∉ fmts ks). { intros Hin. destruct (H5 _ Hin) as (_ & b' & Hb' & _). congruence. }
    exists (set_formats l' st0). split.
    + split; [done|]. exists (Z.to_nat (f - 1)). intros i. cbn. rewrite Hl'. destruct (decide _) as [->|]; [right; by rewrite <- H6|by left].
    + rewrite Heq. rewrite Heq in Hent, Hok. cbn in Hent. split; cbn; try done.
      * intros i Hi. rewrite Hent, Hl'. destruct (decide _) as [->|]; [done|]. by apply H5.
      * intros i Hi. rewrite Hent, Hl'. destruct (decide _) as [->|]; [done|]. by apply H6.
Qed.

Lemma dheld_same m t k k' ks m' t' : k_difo k' = k_difo k -> dheld m t (k :: ks) m' t' -> dheld m t (k' :: ks) m' t'.
Proof.
  intros He [Hd Ht]. split; [intros d; rewrite Hd; cbn; by rewrite He|]. rewrite Ht. cbn. unfold vrefs. by rewrite He.
Qed.

Section Holds.
Context {pool : Type}.
Implicit Types w : @world pool.

(** The world [w] has what [w0] has, and the actions [ks] of consumer [s] hold their resources. *)
Record holds (s : Z) w0 (ks : list akey) w : Prop := {
  hd_difo : dheld (w_difo w0) (w_vtime w0).1 ks (w_difo w) (w_vtime w).1;
  hd_state : exists st0 st, w_state w0 !! s = Some st0 /\ w_state w !! s = Some st /\ sheld st0 ks st;
  hd_others : forall s', s' <> s -> w_state w !! s' = w_state w0 !! s';
  hd_rest : w_pred w = w_pred w0 /\ w_probe w = w_probe w0 /\ w_log w = w_log w0
}.

Lemma others_insert s w0 (m : gmap Z dtrace_state) st :
  (forall s', s' <> s -> m !! s' = w_state w0 !! s') -> forall s', s' <> s -> <[s := st]> m !! s' = w_state w0 !! s'.
Proof. intros H s' Hs. rewrite lookup_insert_ne by done. by apply H. Qed.

(** The three parts of an action are given back one after the other. *)
Lemma drop_format s w0 k ks w :
  holds s w0 (k :: ks) w -> 0 <= k_format k -> exists w',
    (if k_format k =? 0 then pret tt
     else pbind (get_state s) (fun st => pbind (gets (fun _ => dtrace_format_remove st (k_format k))) (fun st => put_state s st))) w = Some (tt, w') /\
    holds s w0 (no_format k :: ks) w' /\ w_ecb w' = w_ecb w /\ w_chain w' = w_chain w.
Proof.
  intros [Hd (st0 & st & Hs0 & Hs & Hsh) Ho Hr] Hf. destruct (Z.eqb_spec (k_format k) 0) as [E|E].
  - exists w. split; [done|]. split; [|done]. split; [by apply (dheld_same _ _ k)| |done|done]. exists st0, st. split; [done|]. split; [done|].
    apply (sheld_keys st0 (k :: ks)); [|done|done]. cbn. by rewrite E.
  - destruct (sheld_drop_fmt st0 k ks st Hsh) as (st' & Hrm & Hsh'); [lia|]. run. rewrite Hs. cbn beta iota. rewrite Hrm. cbn beta iota.
    eexists. split; [done|]. split; [|done]. split; cbn; [by apply (dheld_same _ _ k)| | |done].
    + exists st0, st'. by rewrite lookup_insert_eq.
    + by apply others_insert.
Qed.

Lemma drop_difo s w0 k ks w :
  holds s w0 (k :: ks) w -> key_ok (w_difo w0) k -> 0 <= (w_vtime w0).1 -> exists w',
    match k_difo k with Some d => release_difo s d | None => pret tt end w = Some (tt, w') /\
    holds s w0 (AKey (k_isagg k) None (k_format k) (k_id k) (k_self k) :: ks) w' /\ w_ecb w' = w_ecb w /\ w_chain w' = w_chain w.
Proof.
  intros [Hd (st0 & st & Hs0 & Hs & Hsh) Ho Hr] Hk Ht. set (k' := AKey _ None _ _ _).
  assert (Hcons : forall m' t', dheld (w_difo w0) (w_vtime w0).1 ks m' t' -> dheld (w_difo w0) (w_vtime w0).1 (k' :: ks) m' t').
  { intros m' t' [H1 H2]. split; [|cbn; done]. intros d. by rewrite H1. }
  destruct (k_difo k) as [d|] eqn:E.
  - destruct (release_run _ _ ks w k d s st Hd Hk E Ht Hs) as (m' & t' & -> & Hd'). eexists. split; [done|]. split; [|done].
    split; cbn; [by apply Hcons| | |done].
    + exists st0, st. rewrite lookup_insert_eq. split; [done|]. split; [done|]. by apply (sheld_keys st0 (k :: ks)).
    + by apply others_insert.
  - exists w. split; [done|]. split; [|done]. split; [| |done|done].
    + destruct Hd as [H1 H2]. split; [|cbn in *; unfold vrefs in H2; by rewrite E in H2]. intros d. rewrite H1. cbn. by rewrite E.
    + exists st0, st. split; [done|]. split; [done|]. by apply (sheld_keys st0 (k :: ks)).
Qed.

Lemma drop_agg s w0 k ks w a :
  holds s w0 (k :: ks) w -> key_ok (w_difo w0) k -> k_isagg k = isagg a -> k_id k = Ecb.dtag_id <$> dta_agg a -> k_self k = dta_self a -> exists w',
    (if isagg a
     then pbind (get_state s) (fun st => pbind (gets (fun _ => dtrace_ecb_aggregation_destroy st a)) (fun st => put_state s st))
     else pret tt) w = Some (tt, w') /\
    holds s w0 (no_id k :: ks) w' /\ w_ecb w' = w_ecb w /\ w_chain w' = w_chain w.
Proof.
  intros [Hd (st0 & st & Hs0 & Hs & Hsh) Ho Hr] (_ & Hagg & Hge & _) Hi Hid Hself. rewrite Hi in Hagg. destruct (isagg a).
  - destruct (proj1 Hagg eq_refl) as [id Hkid]. pose proof Hid as Hid'. rewrite Hkid in Hid'. destruct (dta_agg a) as [g|] eqn:Eg; [|done]. injection Hid' as Hid'.
    destruct (sheld_drop_agg st0 k ks st id Hsh Hkid (Hge _ Hkid)) as (l & Hc & Hsh'). run. rewrite Hs. cbn beta iota.
    unfold dtrace_ecb_aggregation_destroy. rewrite Eg, <- Hid', <- Hself, Hc. cbn beta iota. eexists. split; [done|]. split; [|done]. split; cbn; [by apply (dheld_same _ _ k)| | |done].
    + exists st0. eexists. rewrite lookup_insert_eq. by split_and!.
    + by apply others_insert.
  - exists w. split; [done|]. split; [|done]. split; [by apply (dheld_same _ _ k)| |done|done]. exists st0, st. split; [done|]. split; [done|]. apply (sheld_keys st0 (k :: ks)); [done| |done].
    cbn. destruct (k_id k); [|done]. assert (Hft : false = true) by (apply Hagg; by eexists). done.
Qed.

Lemma remove_action_ok s w0 a ks w :
  holds s w0 (key a :: ks) w -> key_ok (w_difo w0) (key a) -> 0 <= (w_vtime w0).1 ->
  exists w', remove_action s a w = Some (tt, w') /\ holds s w0 ks w' /\ w_ecb w' = w_ecb w /\ w_chain w' = w_chain w.
Proof.
  intros H Hk Ht. pose proof Hk as (Hf & Hagg & Hid & _). unfold remove_action.
  destruct (drop_format s w0 (key a) ks w H Hf) as (w1 & Hr1 & H1 & He1 & Hc1).
  destruct (drop_difo s w0 (no_format (key a)) ks w1 H1 ltac:(split; [cbn; lia|exact (proj2 Hk)]) Ht) as (w2 & Hr2 & H2 & He2 & Hc2).
  destruct (drop_agg s w0 _ ks w2 a H2) as (w3 & Hr3 & H3 & He3 & Hc3);
    [split; [cbn; lia|split; [exact Hagg|split; [exact Hid|done]]]|reflexivity|reflexivity|reflexivity|].
  exists w3. split; [|split; [|split; congruence]].
  - unfold pbind at 1. cbn in Hr1. rewrite Hr1. cbn beta iota. unfold pbind at 1. cbn in Hr2. rewrite Hr2. cbn beta iota. exact Hr3.
  - destruct H3 as [Hd (st0 & st & Hs0 & Hs & Hsh) Ho Hr]. split; [| |done|done].
    + destruct Hd as [Hd1 Hd2]. split; [|by cbn in Hd2]. intros d. by rewrite Hd1.
    + exists st0, st. split; [done|]. split; [done|]. by apply (sheld_keys st0 (no_id (AKey (isagg a) None 0 (k_id (key a)) (dta_self a)) :: ks)).
Qed.

Lemma remove_actions_ok s w0 acts : forall w,
  holds s w0 (map key acts) w -> Forall (fun a => key_ok (w_difo w0) (key a)) acts -> 0 <= (w_vtime w0).1 ->
  exists w', remove_actions s acts w = Some (tt, w') /\ holds s w0 [] w' /\ w_ecb w' = w_ecb w /\ w_chain w' = w_chain w.
Proof.
  induction acts as [|a acts IH]; intros w H Hk Ht; [by exists w|]. apply Forall_cons_1 in Hk as [Hka Hk].
  destruct (remove_action_ok s w0 a (map key acts) w H Hka Ht) as (w1 & Hr & H1 & He & Hc). cbn [remove_actions].
  destruct (IH w1 H1 Hk Ht) as (w2 & Hr2 & H2 & He2 & Hc2). exists w2. unfold pbind. rewrite Hr. cbn beta iota. rewrite Hr2.
  by rewrite He2, He, Hc2, Hc.
Qed.
End Holds.

(** * Tuples *)

Lemma chain_wf_snoc y a : chain_wf (y ++ [a]) -> isagg a = false -> chain_wf y /\ stored a = true /\ rec_ok a.
Proof.
  intros Hwf Ha. inversion Hwf as [Hn|l b Hl Hs Hr He|l t b Hl Hne Ht Hb He].
  - by destruct y.
  - by apply app_inj_tail in He as [-> ->].
  - rewrite app_assoc in He. apply app_inj_tail in He as [_ ->]. destruct Hb as [Hb _]. congruence.
Qed.

Lemma chain_split l t :
  chain_wf (l ++ t) -> Forall (fun a => isagg a = false) t -> chain_wf l /\ Forall (fun a => stored a = true /\ rec_ok a) t.
Proof.
  induction t as [|a t IH] using rev_ind; intros Hwf Ht; [by rewrite app_nil_r in Hwf|].
  apply Forall_app in Ht as [Ht [Ha _]%Forall_cons_1]. rewrite app_assoc in Hwf. destruct (chain_wf_snoc _ _ Hwf Ha) as (Hwf' & Hs & Hr).
  destruct (IH Hwf' Ht) as [Hl Hf]. split; [done|]. apply Forall_app. split; [done|by constructor].
Qed.

Lemma tuple_first_spec rv n f :
  tuple_first rv n = Some f -> exists t r, rv = t ++ r /\ length r = f /\ t <> [] /\ Forall (fun a => isagg a = false) t.
Proof.
  revert n. induction rv as [|a rv IH]; intros n; cbn [tuple_first]; [done|]. destruct (DTRACEACT_ISAGG (dta_kind a)) eqn:Ea; [done|].
  cbv zeta. destruct (_ =? 0).
  - intros [= <-]. exists [a], rv. split_and!; try done. by constructor.
  - intros H. destruct (IH _ H) as (t & r & -> & Hl & Hne & Hf). exists (a :: t), r. split_and!; try done. by constructor.
Qed.

Definition in_chain (l acts : list dtrace_action) : Prop := map key acts = map key l /\ map (fun a => rec_size a) acts = map (fun a => rec_size a) l /\
  map dta_kind acts = map dta_kind l /\ (Forall selected l -> Forall selected acts).

(** The actions of a tuple are marked; nothing else changes. *)
Lemma mark_tuple_spec acts n f :
  chain_wf acts -> tuple_first (rev acts) n = Some f ->
  exists l t, mark_tuple f acts = Some (l ++ t) /\ length l = f /\ t <> [] /\ chain_wf l /\ Forall in_tuple t /\ in_chain acts (l ++ t).
Proof.
  intros Hwf Hf. destruct (tuple_first_spec _ _ _ Hf) as (t & r & He & Hr & Hne & Hna).
  assert (Hacts : acts = rev r ++ rev t) by (rewrite <- rev_app_distr, <- He; symmetry; apply rev_involutive).
  assert (Hlen : length (rev r) = f) by (by rewrite length_rev). clear Hr. set (l := rev r) in *. subst f.
  destruct (rev t) as [|a t'] eqn:Et; [by apply (f_equal (@length _)) in Et; rewrite length_rev in Et; destruct t|].
  assert (Hna' : Forall (fun a => isagg a = false) (a :: t')).
  { rewrite <- Et. rewrite List.Forall_forall in *. intros x Hx. apply Hna. by apply in_rev in Hx. }
  rewrite Hacts in Hwf. destruct (chain_split _ _ Hwf Hna') as [Hl Hs]. subst acts. unfold mark_tuple. rewrite drop_app_length, take_app_length.
  assert (Hun : existsb dta_intuple (a :: t') = false).
  { apply not_true_is_false. intros (x & Hx & Hi)%existsb_exists. rewrite List.Forall_forall in Hs. destruct (Hs x Hx) as [Hst _].
    unfold stored in Hst. rewrite Hi in Hst. by rewrite andb_false_r in Hst. }
  rewrite Hun. eexists l, _. split; [reflexivity|]. apply Forall_cons_1 in Hs as [[Has [Har Haal]] Hs].
  assert (Htup : forall b, stored b = true -> tupled (set_tuple b) = true).
  { intros b Hb. unfold stored in Hb. apply andb_prop in Hb as [Hb _]. unfold tupled. change (isagg (set_tuple b)) with (isagg b). by rewrite Hb. }
  unfold in_chain. split_and!; try done.
  - constructor.
    + split; [by apply Htup|]. split; [done|]. cbn. destruct (_ <? _); [unfold align_ok; lia|done].
    + apply Forall_map. eapply Forall_impl; [exact Hs|]. intros b [Hb Hrb]. split; [by apply Htup|done].
  - rewrite !map_app. cbn. by rewrite !map_map.
  - rewrite !map_app. cbn. by rewrite !map_map.
  - rewrite !map_app. cbn. by rewrite !map_map.
  - intros [Hsl Hst]%Forall_app. apply Forall_app. split; [done|]. apply Forall_cons_1 in Hst as [Hsa Hst]. constructor; [done|].
    apply Forall_map. eapply Forall_impl; [exact Hst|]. done.
Qed.

(** The value of an aggregation is a positive number of words. *)
Lemma agg_select_size kind arg f i size : agg_select kind arg = Some (f, i, size) -> 0 < size <= 2 ^ 20 /\ size mod 8 = 0.
Proof.
  unfold agg_select. assert (Hl : 0 <= DTRACE_LQUANTIZE_LEVELS arg < 65536) by (unfold DTRACE_LQUANTIZE_LEVELS, u16; lia).
  repeat (destruct (_ =? _); [cbn; (destruct (_ || _); [done|])|| (intros [= <- <- <-]; lia)|]); try done; intros [= <- <- <-]; lia.
Qed.
