(* ===== verification/EcbLife.v ===== *)
(** The life of ECBs: dtrace_ecb_create() and dtrace_ecb_destroy().

    [building] is the invariant of dtrace_ecb_create() while actions are added: it says what the actions
    so far hold and where the list is.  dtrace_ecb_destroy() is shown to give all of it back,
    for a finished ECB, for one whose last action was refused, and for one that shares its actions. *)
From S2P Require Import Prelude Dif SafeMem DifValidate DifObject Aggregate Match Probes Dof Ecb EcbLayout EcbLists EcbHeld.
From stdpp Require Import gmap list.
#[local] Open Scope Z_scope.

(** * Adding actions *)

Lemma sheld_flags st0 ks st : sheld st0 ks st -> sheld st0 ks (set_destructive st) /\ sheld st0 ks (set_speculates st).
Proof. intros [H1 H2 H3 H4 H5 H6 H7 H8 H9 H10]. by split; split. Qed.

(** A description with a string for printing, a number otherwise. *)
Definition arg_ok (desc : act_desc) : Prop :=
  if DTRACEACT_ISAGG (ad_kind desc) then exists x, ad_arg desc = inl x
  else if DTRACEACT_ISPRINTFLIKE (ad_kind desc) then
    match ad_arg desc with
    | inl x => x = 0 /\ ad_kind desc = DTRACEACT_PRINTA
    | inr str => Z.of_nat (length str) < USHRT_MAX
    end
  else True.

(** Its record is no larger than 1 MB, and no option it asks for is 0. *)
Definition record_ok (opt : Z -> Z) (desc : act_desc) (dp : option dtrace_difo) : Prop :=
  forall ecbsize acts, match action_record opt ecbsize acts (ad_kind desc) (ad_arg desc) dp with
    | Panic => False
    | Einval => True
    | Record_ size _ => 0 <= size <= 2 ^ 20
    end.

Lemma expr_needs_difo opt n acts arg size arg' :
  action_record opt n acts DTRACEACT_DIFEXPR arg None = Record_ size arg' -> False.
Proof. done. Qed.

Lemma format_run st0 ks st desc :
  sheld st0 ks st -> arg_ok desc -> DTRACEACT_ISAGG (ad_kind desc) = false ->
  exists f st', action_format st (ad_kind desc) (ad_arg desc) = Some (f, st') /\ 0 <= f /\ dts_aggid_arena st' = dts_aggid_arena st /\
    dts_options st' = dts_options st /\ (forall k, k_format k = f -> k_id k = None -> sheld st0 (ks ++ [k]) st') /\
    exists st0', leaked st0 st0' /\ sheld st0' ks st'.
Proof.
  intros Hsh Harg Hk. unfold arg_ok in Harg. rewrite Hk in Harg. unfold action_format.
  assert (Hnone : (forall k, k_format k = 0 -> k_id k = None -> sheld st0 (ks ++ [k]) st) /\ exists st0', leaked st0 st0' /\ sheld st0' ks st).
  { split; [|exists st0; split; [split; [by destruct st0|exists O; by left]|done]]. intros k Hf Hid. apply (sheld_keys st0 ks); [| |done].
    - rewrite fmts_app. cbn. by rewrite Hf, app_nil_r.
    - rewrite aggs_app. cbn. by rewrite Hid, app_nil_r. }
  destruct Hnone as [Hn1 Hn2]. destruct (DTRACEACT_ISPRINTFLIKE (ad_kind desc)); [|exists 0, st; split_and!; done].
  destruct (ad_arg desc) as [x|str].
  - destruct Harg as [-> ->]. exists 0, st. split_and!; done.
  - destruct (dtrace_format_add st str) as [f st'] eqn:E. exists f, st'. split; [done|].
    destruct (format_add_ok st str (sh_fmt_ok _ _ _ Hsh) Harg) as (f' & st2 & E' & Hr & _ & Heq & _). rewrite E in E'. injection E' as <- <-.
    split; [lia|]. split; [by rewrite Heq|]. split; [by rewrite Heq|]. split; [|by eapply sheld_leak].
    intros k Hf Hid. by eapply sheld_add_fmt.
Qed.

Lemma plain_run st0 ks st n acts desc dp :
  sheld st0 ks st -> arg_ok desc -> DTRACEACT_ISAGG (ad_kind desc) = false -> record_ok (dts_options st) desc dp ->
  exists r st', plain_action st n acts desc dp = Some (r, st') /\ dts_aggid_arena st' = dts_aggid_arena st /\
    match r with
    | Some (size, arg, f) => 0 <= size <= 2 ^ 20 /\ 0 <= f /\ (ad_kind desc = DTRACEACT_DIFEXPR -> dp <> None) /\
        forall k, k_format k = f -> k_id k = None -> sheld st0 (ks ++ [k]) st'
    | None => exists st0', leaked st0 st0' /\ sheld st0' ks st'
    end.
Proof.
  intros Hsh Harg Hk Hrec. unfold plain_action. cbv zeta. set (st1 := if _ : bool then set_destructive st else st).
  assert (Hsh1 : sheld st0 ks st1) by (unfold st1; destruct (_ || _); [by apply sheld_flags|done]).
  assert (Hopt : dts_options st1 = dts_options st /\ dts_aggid_arena st1 = dts_aggid_arena st) by (unfold st1; by destruct (_ || _)).
  destruct Hopt as [Hopt Har]. clearbody st1.
  destruct (format_run st0 ks st1 desc Hsh1 Harg Hk) as (f & st2 & -> & Hf & Har2 & Hopt2 & Hadd & st0' & Hleak & Hsh2). cbn beta iota.
  rewrite Hopt2, Hopt. specialize (Hrec n acts). destruct (action_record _ n acts _ _ dp) as [| |size arg] eqn:E; [done|eexists _, _; split; [done|]; split; [congruence|]; by exists st0'|].
  set (st3 := if ad_kind desc =? DTRACEACT_SPECULATE then set_speculates st2 else st2).
  assert (Hsh3 : sheld st0' ks st3 /\ (forall k, k_format k = f -> k_id k = None -> sheld st0 (ks ++ [k]) st3) /\ dts_aggid_arena st3 = dts_aggid_arena st2).
  { unfold st3. destruct (_ =? _); [|by split_and!]. split_and!; [by apply sheld_flags| |done]. intros k ? ?. apply sheld_flags. by apply Hadd. }
  destruct Hsh3 as (Hsh3 & Hadd3 & Har3). destruct (_ && has_kind _ acts); eexists _, _; (split; [done|]); (split; [congruence|]).
  - by exists st0'.
  - split; [exact Hrec|]. split; [exact Hf|]. split; [|exact Hadd3]. intros Hex ->. rewrite Hex in E. by eapply expr_needs_difo.
Qed.

Lemma vmem_alloc_small seq : 0 <= seq -> seq + 1 < 2 ^ 31 -> vmem_alloc seq = (seq + 1, seq + 1).
Proof.
  intros H0 H1. unfold vmem_alloc. assert (Hs : s32 (seq + 1) = seq + 1) by (unfold s32, u32; zcase; lia). rewrite Hs. f_equal.
  unfold u64. apply Z.mod_small. lia.
Qed.

Lemma agg_run st0 st acts desc difo self :
  sheld st0 (map key acts) st -> chain_wf acts -> dts_aggid_arena st + 1 < 2 ^ 31 -> (exists x, ad_arg desc = inl x) ->
  (forall a, last acts = Some a -> dta_kind a = DTRACEACT_DIFEXPR -> exists d dp, dta_difo a = Some d /\ difo d = Some dp) ->
  exists r st', dtrace_ecb_aggregation_create difo st self acts desc = Some (r, st') /\
    match r with
    | None => st' = st
    | Some (size, acts', g) =>
        0 < size <= 2 ^ 20 /\ size mod 8 = 0 /\ dts_aggid_arena st' = dts_aggid_arena st + 1 /\ Ecb.dtag_id g = dts_aggid_arena st + 1 /\ 0 <= dts_aggid_arena st /\
        (exists l t, acts' = l ++ t /\ length l = Ecb.dtag_first g /\ t <> [] /\ chain_wf l /\ Forall in_tuple t) /\ in_chain acts acts' /\
        (exists x, ad_arg desc = inl x /\ agg_select (ad_kind desc - DTRACEACT_AGGREGATION) x = Some (Ecb.dtag_aggregate g, Ecb.dtag_initial g, size)) /\
        forall k, k_format k = 0 -> k_id k = Some (dts_aggid_arena st + 1) -> k_self k = self -> sheld st0 (map key acts ++ [k]) st'
    end.
Proof.
  intros Hsh Hwf Hid [x Hx] Hlast. unfold dtrace_ecb_aggregation_create. rewrite Hx.
  destruct (agg_select _ x) as [[[f i] size]|] eqn:Es; [|by exists None, st]. destruct (_ =? 0); [by exists None, st|].
  destruct (tuple_first (rev acts) _) as [first|] eqn:Ef; [|by exists None, st].
  assert (Hha : exists b, last_hasarg difo acts = Some b).
  { unfold last_hasarg. destruct (last acts) as [a|] eqn:El.
    - destruct (Z.eqb_spec (dta_kind a) DTRACEACT_DIFEXPR) as [Ek|]; [|by eexists]. destruct (Hlast a eq_refl Ek) as (d & dp & -> & ->). by eexists.
    - apply last_None in El as ->. cbn in Ef. done. }
  destruct Hha as [b ->]. pose proof (tk_id _ _ (sh_tab _ _ _ Hsh)) as H1. rewrite vmem_alloc_small by lia.
  rewrite u32_small by lia. destruct (mark_tuple_spec acts _ first Hwf Ef) as (l & t & -> & Hl & Hne & Hwl & Hin & Hch).
  pose proof (sheld_add_agg st0 (map key acts) st) as Hadd.
  destruct (Hadd (AKey true None 0 (Some (dts_aggid_arena st + 1)) self) Hsh Hid eq_refl eq_refl) as (tab & Htab & Hsh'). cbn in Htab. rewrite Htab.
  eexists _, _. split; [done|]. cbn. pose proof (agg_select_size _ _ _ _ _ Es) as [? ?]. split_and!; try done; try lia.
  - exists l, t. by split_and!.
  - exists x. by split_and!.
  - intros k Hf Hk Hs. destruct (Hadd k Hsh Hid Hf Hk) as (tab' & Htab' & Hres). rewrite Hs, Htab in Htab'. by injection Htab' as <-.
Qed.

(** ** The ECB in the making *)

Definition with_action (c : option Z) (ecb : dtrace_ecb) : dtrace_ecb :=
  Ecb (dte_epid ecb) (dte_alignment ecb) (dte_needed ecb) (dte_size ecb) (dte_predicate ecb) c
    (dte_next ecb) (dte_state ecb) (dte_cond ecb) (dte_probe ecb) (dte_uarg ecb).

Definition head_of (acts : list dtrace_action) : option Z := k_self <$> head (map key acts).

(** Lists that dtrace_ecb_action_add() builds from the DIF objects [m]. *)
Record acts_ok (m : gmap Z dtrace_difo) (acts : list dtrace_action) : Prop := {
  ao_wf : chain_wf acts;
  ao_selected : Forall selected acts;
  ao_keys : Forall (fun a => key_ok m (key a)) acts;
  ao_size : Forall (fun a => rec_size a <= 2 ^ 20) acts;
  ao_expr : Forall (fun a => dta_kind a = DTRACEACT_DIFEXPR -> is_Some (dta_difo a)) acts
}.

Section Build.
Context {pool : Type}.
Implicit Types w : @world pool.

(** ECB [e], so far with the actions [acts], in a world that was [wb] before them. *)
Record building (s e : Z) (ecb : dtrace_ecb) wb (acts : list dtrace_action) w : Prop := {
  bd_holds : holds s wb (map key acts) w;
  bd_ecb : dte_action ecb = None /\ dte_state ecb = s /\ w_ecb wb !! e = Some ecb;
  bd_ecbs : w_ecb w = <[e := with_action (head_of acts) ecb]> (w_ecb wb);
  bd_chain : w_chain w = match head_of acts with Some c => <[c := Chain 1 acts]> (w_chain wb) | None => w_chain wb end;
  bd_fresh : forall c, head_of acts = Some c -> w_chain wb !! c = None;
  bd_acts : acts_ok (w_difo wb) acts;
  bd_arena : forall st0 st, w_state wb !! s = Some st0 -> w_state w !! s = Some st ->
    dts_aggid_arena st <= dts_aggid_arena st0 + Z.of_nat (length acts)
}.

Lemma get_acts_run s e ecb wb acts w :
  building s e ecb wb acts w ->
  w_ecb w !! e = Some (with_action (head_of acts) ecb) /\ get_acts (with_action (head_of acts) ecb) w = Some (Chain 1 acts, w).
Proof.
  intros [_ _ He Hc _ _ _]. rewrite He, lookup_insert_eq. split; [done|]. unfold get_acts. cbn.
  destruct acts as [|a acts]; cbn in *; [done|]. unfold gets. by rewrite Hc, lookup_insert_eq.
Qed.

Lemma head_of_same acts acts1 a : map key acts1 = map key acts ->
  Some (default (dta_self a) (head_of acts)) = head_of (acts1 ++ [a]).
Proof. intros He. unfold head_of. rewrite map_app, He. destruct acts; done. Qed.

(** The end of dtrace_ecb_action_add(). *)
Lemma finish_run s e ecb wb acts w w1 acts1 self desc size arg f g :
  let a := Action self (ad_kind desc) false (ad_difo desc)
      (RecDesc (ad_kind desc) size 0 (u16 (rec_alignment size)) f arg (ad_uarg desc)) g in
  building s e ecb wb acts w ->
  (exists st1 p1, w1 = set_pool p1 (set_state (<[s := st1]> (w_state w)) w) /\
    (forall st0, w_state wb !! s = Some st0 ->
      sheld st0 (map key acts ++ [key a]) st1 /\ dts_aggid_arena st1 <= dts_aggid_arena st0 + Z.of_nat (S (length acts)))) ->
  map key acts1 = map key acts -> key_ok (w_difo wb) (key a) -> acts_ok (w_difo wb) (acts1 ++ [a]) -> w_chain wb !! self = None ->
  exists w', finish_action e (with_action (head_of acts) ecb) acts1 self desc size arg f g w1 = Some (0, w') /\
    building s e ecb wb (acts1 ++ [a]) w'.
Proof.
  intros a [Hh He Hes Hcs Hfr Hao Har] (st1 & p1 & -> & Hst) Hkeys Hk Hok Hself.
  assert (Hlen : length acts1 = length acts) by (apply (f_equal (@length _)) in Hkeys; by rewrite !length_map in Hkeys).
  destruct Hh as [Hd (st0 & st & Hs0 & Hs & Hsh) Ho Hr]. destruct (Hst st0 Hs0) as [Hsh1 Har1].
  assert (Hhold : exists m' t', (match ad_difo desc with Some d => hold_difo d | None => pret tt end)
      (set_pool p1 (set_state (<[s := st1]> (w_state w)) w)) = Some (tt, set_difo m' t' (set_pool p1 (set_state (<[s := st1]> (w_state w)) w))) /\
      dheld (w_difo wb) (w_vtime wb).1 (map key acts ++ [key a]) m' t'.1).
  { destruct (ad_difo desc) as [d|].
    - exact (hold_run _ _ (map key acts) (set_pool p1 (set_state (<[s := st1]> (w_state w)) w)) (key a) d Hd Hk eq_refl).
    - exists (w_difo w), (w_vtime w). split; [by destruct w|]. destruct Hd as [H1 H2]. split.
      + intros d. rewrite H1, drefs_app. cbn. by rewrite Z.add_0_r.
      + rewrite H2, vsum_app. cbn. unfold vrefs. cbn. lia. }
  destruct Hhold as (m' & t' & Hrun & Hd'). unfold finish_action, append_action. unfold pbind at 1. rewrite Hrun. cbn beta iota. fold a.
  assert (Hhead : match dte_action (with_action (head_of acts) ecb) with Some c => c | None => dta_self a end = default (dta_self a) (head_of acts)) by (cbn; by destruct (head_of acts)).
  rewrite Hhead. run. eexists. split; [reflexivity|]. set (c := default (dta_self a) (head_of acts)).
  assert (Hc : head_of (acts1 ++ [a]) = Some c) by (symmetry; by apply head_of_same). split; cbn -[key].
  - rewrite map_app, Hkeys. split; cbn -[key]; [exact Hd'| | |exact Hr].
    + exists st0, st1. by rewrite lookup_insert_eq.
    + by apply others_insert.
  - exact He.
  - rewrite Hc, Hes. by rewrite insert_insert_eq.
  - rewrite Hc, Hcs. unfold c. destruct (head_of acts) as [c0|]; cbn; [by rewrite insert_insert_eq|done].
  - intros c1. rewrite Hc. intros [= <-]. unfold c. destruct (head_of acts) as [c0|]; cbn; [by apply Hfr|done].
  - exact Hok.
  - intros st0' st2 Hs0' Hs2. rewrite lookup_insert_eq in Hs2. injection Hs2 as <-. rewrite Hs0 in Hs0'. injection Hs0' as <-.
    rewrite length_app, Hlen. cbn. lia.
Qed.
End Build.

Lemma map_lookup_eq {A B} (f : A -> B) l l' i a : map f l' = map f l -> l' !! i = Some a -> exists b, l !! i = Some b /\ f b = f a.
Proof.
  intros He Hi. assert (H : map f l !! i = Some (f a)) by (rewrite <- He; apply list_lookup_fmap_Some; by exists a).
  apply list_lookup_fmap_Some in H as (b & Hb & Hf). by exists b.
Qed.

Lemma in_chain_ok m acts acts1 :
  in_chain acts acts1 -> acts_ok m acts ->
  Forall selected acts1 /\ Forall (fun a => key_ok m (key a)) acts1 /\ Forall (fun a => rec_size a <= 2 ^ 20) acts1 /\
  Forall (fun a => dta_kind a = DTRACEACT_DIFEXPR -> is_Some (dta_difo a)) acts1.
Proof.
  intros (Hk & Hs & Hkind & Hsel) [_ H1 H2 H3 H4]. split; [by apply Hsel|].
  split_and!; apply Forall_lookup; intros i a Hi; destruct (map_lookup_eq _ _ _ _ _ Hk Hi) as (b & Hb & Hkb).
  - rewrite <- Hkb. by apply (Forall_lookup_1 _ _ _ _ H2 Hb).
  - destruct (map_lookup_eq _ _ _ _ _ Hs Hi) as (b' & Hb' & Hsb). rewrite <- Hsb. by apply (Forall_lookup_1 _ _ _ _ H3 Hb').
  - destruct (map_lookup_eq _ _ _ _ _ Hkind Hi) as (b' & Hb' & Hkb'). assert (b' = b) as -> by congruence. rewrite <- Hkb'.
    change (dta_difo a) with (k_difo (key a)). rewrite <- Hkb. by apply (Forall_lookup_1 _ _ _ _ H4 Hb).
Qed.

(** What an action of a description needs of the consumer's options and of the DIF objects. *)
Definition desc_ok (opt : Z -> Z) (m : gmap Z dtrace_difo) (desc : act_desc) : Prop :=
  arg_ok desc /\
  match ad_difo desc with
  | None => record_ok opt desc None
  | Some d => exists dp, m !! d = Some dp /\ 1 <= dtdo_refcnt dp /\ record_ok opt desc (Some dp)
  end.

Lemma align_small size : align_ok (u16 (rec_alignment size)) /\ (size <> 0 -> size mod 8 = 0 -> u16 (rec_alignment size) = 8).
Proof.
  destruct (rec_alignment_spec size) as [Ha H8]. assert (Hu : u16 (rec_alignment size) = rec_alignment size).
  { unfold u16. apply Z.mod_small. unfold align_ok in Ha. lia. }
  by rewrite Hu.
Qed.

Lemma acts_ok_plain m acts a :
  acts_ok m acts -> stored a = true -> dta_agg a = None -> 0 <= rec_size a <= 2 ^ 20 -> align_ok (rec_align a) -> key_ok m (key a) ->
  (dta_kind a = DTRACEACT_DIFEXPR -> is_Some (dta_difo a)) -> acts_ok m (acts ++ [a]).
Proof.
  intros [H1 H2 H3 H4 H5] Hs Hg Hz Ha Hk He. split; [|apply Forall_app; split; [done|]; constructor; [|done]..]; try done.
  - constructor; [done|done|]. split; [lia|done].
  - intros g. by rewrite Hg.
  - lia.
Qed.

Section Add.
Context {pool : Type} (kalloc : gset Z -> pool -> Z * pool) (Hfresh : forall used p, (kalloc used p).1 ∉ used).
Implicit Types w : @world pool.

Lemma alloc_fresh s e ecb wb acts w :
  building s e ecb wb acts w ->
  exists self p', alloc kalloc w = Some (self, set_pool p' w) /\ w_chain wb !! self = None.
Proof.
  intros [_ _ _ Hc Hf _ _]. unfold alloc. pose proof (Hfresh (in_use w) (w_pool w)) as Hn. destruct (kalloc _ _) as [self p']. cbn in Hn.
  exists self, p'. split; [done|]. apply not_elem_of_dom. intros Hd. apply Hn. unfold in_use. rewrite Hc. destruct (head_of acts); [rewrite dom_insert_L|]; set_solver.
Qed.

(** The base of an ECB, with another state of the consumer. *)
Definition on_state (s : Z) (st0 : dtrace_state) wb : @world pool := set_state (<[s := st0]> (w_state wb)) wb.

Lemma building_leak s e ecb wb acts w st0 st0' st1 p1 :
  building s e ecb wb acts w -> w_state wb !! s = Some st0 -> leaked st0 st0' -> sheld st0' (map key acts) st1 ->
  dts_aggid_arena st1 <= dts_aggid_arena st0 + Z.of_nat (length acts) ->
  building s e ecb (on_state s st0' wb) acts (set_pool p1 (set_state (<[s := st1]> (w_state w)) w)).
Proof.
  intros [[Hd (st0a & st & Hs0 & Hs & Hsh) Ho Hr] He Hes Hcs Hfr Hao Har] Hst0 [Hl _] Hsh1 Ha. split; cbn; try done.
  - split; cbn; [done| | |done].
    + exists st0', st1. by rewrite !lookup_insert_eq.
    + intros s' Hs'. rewrite !lookup_insert_ne by done. by apply Ho.
  - intros x y. rewrite !lookup_insert_eq. intros [= <-] [= <-]. rewrite Hl. cbn. lia.
Qed.

Lemma leaked_refl st : leaked st st.
Proof. split; [by destruct st|exists O; by left]. Qed.

(** What adding an action comes to. *)
Definition added (s e : Z) ecb wb (acts : list dtrace_action) (kind err : Z) w' : Prop :=
  (err = 0 /\ exists acts', building s e ecb wb acts' w' /\ map dta_kind acts' = map dta_kind acts ++ [kind]) \/
  (err = EINVAL /\ exists st0 st0', w_state wb !! s = Some st0 /\ leaked st0 st0' /\ building s e ecb (on_state s st0' wb) acts w').

Lemma same_world w s st p : w_state w !! s = Some st -> set_pool p w = set_pool p (set_state (<[s := st]> (w_state w)) w).
Proof. intros Hs. rewrite insert_id by done. by destruct w. Qed.

Lemma added_einval s e ecb wb acts w kind p : building s e ecb wb acts w -> added s e ecb wb acts kind EINVAL (set_pool p w).
Proof.
  intros Hb. pose proof Hb as [[Hd (st0 & st & Hs0 & Hs & Hsh) Ho Hr] _ _ _ _ _ Har]. right. split; [done|]. exists st0, st0.
  split; [done|]. split; [apply leaked_refl|]. rewrite (same_world w s st) by done. apply (building_leak _ _ _ _ _ _ st0); [done|done|apply leaked_refl|done|by apply Har].
Qed.

(** The place of a new action in the list. *)
Lemma acts_ok_agg m acts l t a :
  acts_ok m acts -> in_chain acts (l ++ t) -> chain_wf l -> t <> [] -> Forall in_tuple t -> aggregates (length l) a ->
  rec_size a <= 2 ^ 20 -> selected a -> key_ok m (key a) -> acts_ok m ((l ++ t) ++ [a]).
Proof.
  intros Hok Hin Hl Hne Ht Ha Hz Hs Hk. destruct (in_chain_ok _ _ _ Hin Hok) as (H1 & H2 & H3 & H4).
  split; [|apply Forall_app; split; [done|]; constructor; [|done]..]; try done.
  - rewrite <- app_assoc. by constructor.
  - intros E. destruct Ha as [Ha _]. unfold isagg in Ha. rewrite E in Ha. done.
Qed.

Lemma add_agg s e ecb wb acts w desc :
  building s e ecb wb acts w -> DTRACEACT_ISAGG (ad_kind desc) = true -> (exists x, ad_arg desc = inl x) ->
  (forall d, ad_difo desc = Some d -> exists dp, w_difo wb !! d = Some dp /\ 1 <= dtdo_refcnt dp) ->
  (forall st0, w_state wb !! s = Some st0 -> dts_aggid_arena st0 + Z.of_nat (length acts) + 1 < 2 ^ 31) ->
  exists err w', dtrace_ecb_action_add kalloc e desc w = Some (err, w') /\ added s e ecb wb acts (ad_kind desc) err w'.
Proof.
  intros Hb Hagg Harg Hdifo Hroom. pose proof Hb as [[Hd (st0 & st & Hs0 & Hs & Hsh) Ho Hr] (Hact & Hst & Hwb) Hes Hcs Hfr Hao Har].
  destruct (get_acts_run _ _ _ _ _ _ Hb) as [He Hga]. unfold dtrace_ecb_action_add. run. rewrite He. cbn beta iota.
  replace (dte_state (with_action (head_of acts) ecb)) with s by (by cbn). rewrite Hs. cbn beta iota. rewrite Hga. cbn [ch_acts ch_refcnt Z.eqb Pos.eqb]. cbn beta iota zeta. rewrite Hagg.
  destruct (_ || _); [exists EINVAL, w; split; [done|]; replace w with (set_pool (w_pool w) w) by (by destruct w); by apply added_einval|].
  destruct (alloc_fresh _ _ _ _ _ _ Hb) as (self & p & -> & Hself). cbn beta iota. change (w_difo (set_pool p w)) with (w_difo w).
  assert (Ha1 : dts_aggid_arena st + 1 < 2 ^ 31) by (specialize (Hroom st0 Hs0); specialize (Har st0 st Hs0 Hs); lia).
  destruct (agg_run st0 st acts desc (fun d => w_difo w !! d) self Hsh (ao_wf _ _ Hao) Ha1 Harg) as (r & st1 & -> & Hres).
  { intros a Ha Hk. apply last_Some_elem_of in Ha. destruct Hao as [_ _ Hkeys _ Hex]. rewrite List.Forall_forall in Hkeys, Hex.
    apply list_elem_of_In in Ha. destruct (Hex a Ha Hk) as [d Hda]. destruct (Hkeys a Ha) as (_ & _ & _ & Hdp). destruct (Hdp d Hda) as (dp & Hdp' & _).
    exists d. eexists. split; [done|]. rewrite (dh_difo _ _ _ _ _ Hd), Hdp'. done. }
  cbn beta iota. destruct r as [[[size acts1] g]|].
  - destruct Hres as (Hz & Hz8 & Har1 & Hid & Hpos & (l & t & -> & Hl & Hne & Hwl & Ht) & Hin & (x & Hx & Hsel) & Hadd).
    set (a := Action self (ad_kind desc) false (ad_difo desc) (RecDesc (ad_kind desc) size 0 (u16 (rec_alignment size)) 0 (ad_arg desc) (ad_uarg desc)) (Some g)).
    assert (Hk : key_ok (w_difo wb) (key a)).
    { split; [done|]. split; [cbn; split; [by eexists|done]|]. split; [cbn; intros id [= <-]; lia|exact Hdifo]. }
    destruct (align_small size) as [Hal Hal8].
    destruct (finish_run s e ecb wb acts w (set_state (<[s := st1]> (w_state w)) (set_pool p w)) (l ++ t) self desc size (ad_arg desc) 0 (Some g) Hb)
      as (w' & Hrun & Hb').
    + exists st1, p. split; [done|]. intros st0' Hs0'. rewrite Hs0 in Hs0'. injection Hs0' as <-. split; [apply Hadd; cbn; congruence|].
      specialize (Har st0 st Hs0 Hs). lia.
    + apply Hin.
    + exact Hk.
    + apply (acts_ok_agg _ acts); try done; fold a.
      * split; [done|]. split; [done|]. split; [cbn; apply Hal8; lia|]. split; [cbn; lia|]. by exists g.
      * cbn. lia.
      * intros g' [= <-]. cbn. by exists x.
    + done.
    + exists 0, w'. split; [exact Hrun|]. left. split; [done|]. eexists. split; [exact Hb'|]. destruct Hin as (_ & _ & Hin & _).
      by rewrite map_app, Hin.
  - subst st1. exists EINVAL. eexists. split; [done|]. unfold set_state. cbn. rewrite insert_id by done. change (added s e ecb wb acts (ad_kind desc) EINVAL (set_pool p w)).
    by apply added_einval.
Qed.

Lemma plain_bump n st ecbsize acts desc dp : plain_action st ecbsize acts desc (Some (bump n dp)) = plain_action st ecbsize acts desc (Some dp).
Proof. reflexivity. Qed.

Lemma add_plain s e ecb wb acts w desc st0 :
  building s e ecb wb acts w -> DTRACEACT_ISAGG (ad_kind desc) = false -> w_state wb !! s = Some st0 ->
  desc_ok (dts_options st0) (w_difo wb) desc ->
  exists err w', dtrace_ecb_action_add kalloc e desc w = Some (err, w') /\ added s e ecb wb acts (ad_kind desc) err w'.
Proof.
  intros Hb Hagg Hs0' [Harg Hdesc]. pose proof Hb as [[Hd (st0a & st & Hs0 & Hs & Hsh) Ho Hr] (Hact & Hst & Hwb) Hes Hcs Hfr Hao Har].
  rewrite Hs0 in Hs0'. injection Hs0' as <-. rename st0a into st0.
  destruct (get_acts_run _ _ _ _ _ _ Hb) as [He Hga]. unfold dtrace_ecb_action_add. run. rewrite He. cbn beta iota.
  replace (dte_state (with_action (head_of acts) ecb)) with s by (by cbn). rewrite Hs. cbn beta iota. rewrite Hga. cbn [ch_acts ch_refcnt Z.eqb Pos.eqb]. cbn beta iota zeta. rewrite Hagg.
  assert (Hopt : dts_options st = dts_options st0) by (apply (sh_same _ _ _ Hsh)). rewrite <- Hopt in Hdesc.
  set (n := dte_size (with_action (head_of acts) ecb)).
  assert (Hrun : exists r st1,
    match ad_difo desc with
    | None => plain_action st n acts desc None
    | Some d => match w_difo w !! d with Some dp => plain_action st n acts desc (Some dp) | None => None end
    end = Some (r, st1) /\ dts_aggid_arena st1 = dts_aggid_arena st /\
    match r with
    | Some (size, arg, f) => 0 <= size <= 2 ^ 20 /\ 0 <= f /\ (ad_kind desc = DTRACEACT_DIFEXPR -> is_Some (ad_difo desc)) /\
        forall k, k_format k = f -> k_id k = None -> sheld st0 (map key acts ++ [k]) st1
    | None => exists st0', leaked st0 st0' /\ sheld st0' (map key acts) st1
    end).
  { destruct (ad_difo desc) as [d|].
    - destruct Hdesc as (dp & Hdp & Hrc & Hrec). rewrite (dh_difo _ _ _ _ _ Hd), Hdp. cbn [fmap option_fmap option_map]. rewrite plain_bump.
      destruct (plain_run st0 (map key acts) st n acts desc (Some dp) Hsh Harg Hagg Hrec) as (r & st1 & H1 & H2 & H3). exists r, st1. split; [done|]. split; [done|].
      destruct r as [[[size arg] f]|]; [|done]. destruct H3 as (? & ? & ? & ?). split_and!; try done; lia.
    - destruct (plain_run st0 (map key acts) st n acts desc None Hsh Harg Hagg Hdesc) as (r & st1 & H1 & H2 & H3). exists r, st1. split; [done|]. split; [done|].
      destruct r as [[[size arg] f]|]; [|done]. destruct H3 as (? & ? & H4 & ?). split; [done|]. split; [done|]. split; [|done]. intros Hk. by destruct (H4 Hk). }
  destruct Hrun as (r & st1 & -> & Har1 & Hres). cbn beta iota. specialize (Har st0 st Hs0 Hs).
  destruct r as [[[size arg] f]|].
  - destruct Hres as (Hz & Hf & Hex & Hadd).
    assert (Hall : exists self p, alloc kalloc (set_state (<[s := st1]> (w_state w)) w) = Some (self, set_pool p (set_state (<[s := st1]> (w_state w)) w)) /\ w_chain wb !! self = None).
    { destruct (alloc_fresh _ _ _ _ _ _ Hb) as (self & p & Hal & Hself). unfold alloc in *. change (in_use (set_state (<[s := st1]> (w_state w)) w)) with (in_use w).
      change (w_pool (set_state (<[s := st1]> (w_state w)) w)) with (w_pool w). destruct (kalloc _ _) as [x y]. injection Hal as -> Hp. exists self, y. by split. }
    destruct Hall as (self & p & -> & Hself). cbn beta iota. destruct (align_small size) as [Hal _].
    set (a := Action self (ad_kind desc) false (ad_difo desc) (RecDesc (ad_kind desc) size 0 (u16 (rec_alignment size)) f arg (ad_uarg desc)) None).
    assert (Hk : key_ok (w_difo wb) (key a)).
    { split; [done|]. split; [cbn; unfold isagg; cbn; rewrite Hagg; split; [done|by intros [? ?]]|]. split; [done|]. cbn. intros d Hd'. rewrite Hd' in Hdesc.
      destruct Hdesc as (dp & Hdp & Hrc & _). by exists dp. }
    destruct (finish_run s e ecb wb acts w (set_pool p (set_state (<[s := st1]> (w_state w)) w)) acts self desc size arg f None Hb) as (w' & Hrun & Hb').
    + exists st1, p. split; [done|]. intros st0' Hs0'. rewrite Hs0 in Hs0'. injection Hs0' as <-. split; [by apply Hadd|lia].
    + done.
    + exact Hk.
    + apply acts_ok_plain; try done. unfold stored, isagg. cbn. by rewrite Hagg.
    + done.
    + exists 0, w'. split; [exact Hrun|]. left. split; [done|]. eexists. split; [exact Hb'|]. by rewrite map_app.
  - destruct Hres as (st0' & Hleak & Hsh'). exists EINVAL. eexists. split; [done|]. right. split; [done|]. exists st0, st0'. split; [done|]. split; [done|].
    change (set_state (<[s := st1]> (w_state w)) w) with (set_pool (w_pool w) (set_state (<[s := st1]> (w_state w)) w)).
    apply (building_leak _ _ _ _ _ _ st0); try done. lia.
Qed.

(** All of the actions, or those before the first that is refused. *)
Lemma add_actions_run s e ecb wb st0 descs : forall acts w,
  building s e ecb wb acts w -> w_state wb !! s = Some st0 -> Forall (desc_ok (dts_options st0) (w_difo wb)) descs ->
  dts_aggid_arena st0 + Z.of_nat (length acts) + Z.of_nat (length descs) < 2 ^ 31 ->
  exists err w' acts', add_actions kalloc e descs w = Some (err, w') /\
    ((err = 0 /\ map dta_kind acts' = map dta_kind acts ++ map ad_kind descs /\ building s e ecb wb acts' w') \/
     (err = EINVAL /\ exists st0', leaked st0 st0' /\ building s e ecb (on_state s st0' wb) acts' w')).
Proof.
  induction descs as [|desc descs IH]; intros acts w Hb Hs0 Hf Hroom.
  - exists 0, w, acts. split; [done|]. left. by rewrite app_nil_r.
  - apply Forall_cons_1 in Hf as [Hdesc Hf]. cbn [length] in Hroom. cbn [add_actions].
    assert (Hstep : exists err w', dtrace_ecb_action_add kalloc e desc w = Some (err, w') /\ added s e ecb wb acts (ad_kind desc) err w').
    { destruct (DTRACEACT_ISAGG (ad_kind desc)) eqn:E; [|by eapply add_plain]. destruct Hdesc as [Harg Hd]. unfold arg_ok in Harg. rewrite E in Harg.
      apply add_agg; try done.
      - intros d Hdd. rewrite Hdd in Hd. destruct Hd as (dp & H1 & H2 & _). by exists dp.
      - intros st0' Hs'. rewrite Hs0 in Hs'. injection Hs' as <-. lia. }
    destruct Hstep as (err & w1 & Hrun & Hadd). unfold pbind. rewrite Hrun. destruct Hadd as [[-> (acts1 & Hb1 & Hl1)]|[-> (st & st0' & Hst & Hleak & Hb1)]].
    + assert (Hlen : length acts1 = S (length acts)) by (apply (f_equal (@length _)) in Hl1; rewrite length_app, !length_map in Hl1; cbn in Hl1; lia).
      destruct (IH acts1 w1 Hb1 Hs0 Hf) as (err & w2 & acts2 & Hrun2 & Hres); [lia|]. exists err, w2, acts2. split; [exact Hrun2|].
      rewrite Hl1 in Hres. by rewrite <- app_assoc in Hres.
    + rewrite Hs0 in Hst. injection Hst as <-. exists EINVAL, w1, acts. split; [done|]. right. split; [done|]. by exists st0'.
Qed.
End Add.

(** * Destruction *)

Section Destroy.
Context {pool : Type}.
Implicit Types w : @world pool.

(** ECB [e] with its actions, in a world that is [wb] but for the resources of the actions. *)
Record built (s e : Z) (ecb : dtrace_ecb) wb (acts : list dtrace_action) w : Prop := {
  bt_holds : holds s wb (map key acts) w;
  bt_action : dte_action ecb = head_of acts;
  bt_ecbs : w_ecb w = <[e := ecb]> (w_ecb wb);
  bt_chain : w_chain w = match head_of acts with Some c => <[c := Chain 1 acts]> (w_chain wb) | None => w_chain wb end;
  bt_fresh : forall c, head_of acts = Some c -> w_chain wb !! c = None;
  bt_keys : Forall (fun a => key_ok (w_difo wb) (key a)) acts
}.

Lemma building_built s e ecb wb acts w : building s e ecb wb acts w -> built s e (with_action (head_of acts) ecb) wb acts w.
Proof. intros [H1 H2 H3 H4 H5 [_ _ Hk _ _] _]. by split. Qed.

Lemma holds_chain s w0 ks w m : holds s w0 ks w -> holds s w0 ks (set_chain m w).
Proof. intros [H1 H2 H3 H4]. by split. Qed.

Lemma holds_ecb s w0 ks w m : holds s w0 ks w -> holds s w0 ks (set_ecb m w).
Proof. intros [H1 H2 H3 H4]. by split. Qed.

Lemma holds_cache s w0 ks w c : holds s w0 ks w -> holds s w0 ks (set_cache c w).
Proof. intros [H1 H2 H3 H4]. by split. Qed.

Definition without_action (ecb : dtrace_ecb) : dtrace_ecb :=
  Ecb (dte_epid ecb) (dte_alignment ecb) (dte_needed ecb) 4 (dte_predicate ecb) None
    (dte_next ecb) (dte_state ecb) (dte_cond ecb) (dte_probe ecb) (dte_uarg ecb).

Lemma action_remove_run s e ecb wb acts w :
  built s e ecb wb acts w -> dte_state ecb = s -> 0 <= (w_vtime wb).1 ->
  exists w', dtrace_ecb_action_remove e w = Some (tt, w') /\ holds s wb [] w' /\ w_chain w' = w_chain wb /\
    w_ecb w' = <[e := without_action ecb]> (w_ecb wb).
Proof.
  intros [Hh Ha He Hc Hf Hk] <- Ht. unfold dtrace_ecb_action_remove. run. rewrite He, lookup_insert_eq. cbn beta iota. rewrite Ha.
  destruct (head_of acts) as [c|] eqn:Eh.
  - rewrite Hc, lookup_insert_eq. cbn [ch_refcnt ch_acts]. change (1 <? 1) with false. change (1 =? 1) with true. cbn beta iota.
    destruct (remove_actions_ok _ wb acts w Hh Hk Ht) as (w1 & Hrun & Hh1 & He1 & Hc1). rewrite Hrun. cbn beta iota.
    eexists. split; [reflexivity|]. split; [by apply holds_ecb, holds_chain|]. cbn. rewrite Hc1, Hc, He1, He. rewrite delete_insert_id by (by apply Hf).
    split; [done|]. by rewrite insert_insert_eq.
  - assert (acts = []) as -> by (by destruct acts). eexists. split; [reflexivity|]. split; [by apply holds_ecb|]. cbn. split; [done|]. rewrite He. by rewrite insert_insert_eq.
Qed.

(** Predicates can be held and released. *)
Definition pred_ok w (p : Z) : Prop :=
  exists pr dp, w_pred w !! p = Some pr /\ 0 < pr_refcnt pr /\ w_difo w !! pr_difo pr = Some dp /\ 1 <= dtdo_refcnt dp.

Definition held_preds w (p : option Z) : gmap Z Ecb.predicate :=
  match p with
  | None => w_pred w
  | Some p => alter (fun pr => Pred (pr_difo pr) (pr_refcnt pr + 1) (pr_cacheid pr)) p (w_pred w)
  end.

Lemma hold_pred_run w op :
  (forall p, op = Some p -> pred_ok w p) ->
  (match op with Some p => hold_pred p | None => pret tt end) w = Some (tt, set_pred (held_preds w op) w).
Proof.
  intros Hp. destruct op as [p|]; [|by destruct w]. destruct (Hp p eq_refl) as (pr & dp & Hpr & Hr & Hd & Hdr). unfold hold_pred. run. rewrite Hpr. cbn beta iota.
  rewrite Hd. cbn beta iota. destruct (Z.eqb_spec (dtdo_refcnt dp) 0); [lia|]. destruct (Z.ltb_spec 0 (pr_refcnt pr)); [|lia]. cbn.
  do 3 f_equal. apply map_eq. intros q. destruct (decide (q = p)) as [->|Hne].
  - rewrite lookup_insert_eq, lookup_alter_eq, Hpr. done.
  - rewrite lookup_insert_ne, lookup_alter_ne; done.
Qed.

Lemma release_pred_run w0 s w op :
  (forall p, op = Some p -> pred_ok w0 p) -> w_pred w = held_preds w0 op ->
  (forall d dp, w_difo w0 !! d = Some dp -> 1 <= dtdo_refcnt dp -> exists dp', w_difo w !! d = Some dp' /\ 1 <= dtdo_refcnt dp') ->
  (match op with Some p => release_pred s p | None => pret tt end) w = Some (tt, set_pred (w_pred w0) w).
Proof.
  intros Hp Hw Hdifo. destruct op as [p|]; [|cbn in Hw; rewrite <- Hw; by destruct w]. destruct (Hp p eq_refl) as (pr & dp & Hpr & Hr & Hd & Hdr).
  destruct (Hdifo _ _ Hd Hdr) as (dp' & Hd' & Hdr'). unfold release_pred. run. rewrite Hw. cbn [held_preds]. rewrite lookup_alter_eq, Hpr. cbn.
  rewrite Hd'. cbn beta iota. destruct (Z.eqb_spec (dtdo_refcnt dp') 0); [lia|]. destruct (Z.ltb_spec 0 (pr_refcnt pr + 1)); [|lia]. cbn.
  destruct (Z.eqb_spec (pr_refcnt pr + 1 - 1) 0); [lia|]. do 3 f_equal. apply map_eq. intros q. destruct (decide (q = p)) as [->|Hne].
  - rewrite lookup_insert_eq, Hpr. f_equal. destruct pr. cbn. f_equal. lia.
  - rewrite lookup_insert_ne, Hw by done. cbn. by rewrite lookup_alter_ne.
Qed.

Lemma holds_refs s w0 ks w d dp :
  holds s w0 ks w -> w_difo w0 !! d = Some dp -> 1 <= dtdo_refcnt dp -> exists dp', w_difo w !! d = Some dp' /\ 1 <= dtdo_refcnt dp'.
Proof.
  intros [[Hd _] _ _ _] Hdp Hr. rewrite Hd, Hdp. cbn. eexists. split; [done|]. cbn. pose proof (drefs_nonneg d ks). lia.
Qed.

Lemma holds_pred s w0 ks w m : holds s w0 ks w -> holds s (set_pred m w0) ks (set_pred m w).
Proof. intros [H1 H2 H3 H4]. split; try done. cbn. by destruct H4 as (_ & ?). Qed.

(** What destroying an ECB leaves of the consumer's state: its tables are as they were, but for the formats [fm] that leaked. *)
Record state_back (st0 st : dtrace_state) (fm : list (option (list Z))) : Prop := {
  sb_ecbs : forall i, entry (dts_ecbs st) i = entry (dts_ecbs st0) i;
  sb_aggs : forall i, entry (dts_aggregations st) i = entry (dts_aggregations st0) i;
  sb_fmts : forall i, entry (dts_formats st) i = entry fm i;
  sb_tabs : tab_ok (dts_epid st) (dts_ecbs st) /\ tab_ok (dts_aggid_arena st + 1) (dts_aggregations st) /\ formats_ok st;
  sb_same : dts_epid st = dts_epid st0 + 1 /\ dts_vstate st = dts_vstate st0 /\ dts_options st = dts_options st0 /\ dcr_visible st = dcr_visible st0
}.

(** Everything an ECB of consumer [s] held is given back. *)
Record given_back (s : Z) (fm : list (option (list Z))) w0 w : Prop := {
  gb_difo : w_difo w = w_difo w0 /\ (w_vtime w).1 = (w_vtime w0).1;
  gb_heap : w_pred w = w_pred w0 /\ w_chain w = w_chain w0 /\ w_ecb w = w_ecb w0 /\ w_probe w = w_probe w0 /\ w_log w = w_log w0;
  gb_state : exists st0 st, w_state w0 !! s = Some st0 /\ w_state w !! s = Some st /\ state_back st0 st fm;
  gb_others : forall s', s' <> s -> w_state w !! s' = w_state w0 !! s'
}.

(** The world with a new ECB [ecb] at [e], the table [l] of ECBs and the formats [fm]. *)
Definition base (s : Z) (st0 : dtrace_state) (pred : option Z) w0 (e : Z) (ecb : dtrace_ecb) (l : list (option Z)) (fm : list (option (list Z)))
    (p : pool) : @world pool :=
  World (w_difo w0) (held_preds w0 pred) (w_chain w0) (<[e := ecb]> (w_ecb w0)) (w_probe w0)
    (<[s := set_formats fm (set_ecbs l (dts_epid st0 + 1) st0)]> (w_state w0)) (w_cache w0) (w_vtime w0) p (w_log w0).

(** A consumer's state, and a probe, for which an ECB can be made. *)
Record consumer_ok (s : Z) (st0 : dtrace_state) (probe pred : option Z) w : Prop := {
  cs_state : w_state w !! s = Some st0;
  cs_ecbs : tab_ok (dts_epid st0) (dts_ecbs st0) /\ dts_epid st0 < 2 ^ 31;
  cs_fmts : formats_ok st0;
  cs_aggs : tab_ok (dts_aggid_arena st0 + 1) (dts_aggregations st0);
  cs_vtime : 0 <= (w_vtime w).1;
  cs_pred : forall p, pred = Some p -> pred_ok w p;
  cs_probe : forall p, probe = Some p -> exists pe, w_probe w !! p = Some pe /\ forall x, pe_ecb pe = Some x -> is_Some (w_ecb w !! x)
}.

(** The actions of ECB [e] can be removed, after its predicate. *)
Record removable (s e : Z) (ecb : dtrace_ecb) wb w : Prop := {
  rm_holds : exists ks, holds s wb ks w;
  rm_ecbs : w_ecb w = <[e := ecb]> (w_ecb wb);
  rm_remove : forall m : gmap Z Ecb.predicate, exists w' ecb', dtrace_ecb_action_remove e (set_pred m w) = Some (tt, w') /\
    holds s (set_pred m wb) [] w' /\ w_chain w' = w_chain wb /\ w_ecb w' = <[e := ecb']> (w_ecb wb)
}.

Lemma built_removable s e ecb wb acts w :
  built s e ecb wb acts w -> dte_state ecb = s -> 0 <= (w_vtime wb).1 -> removable s e ecb wb w.
Proof.
  intros Hb Hs Ht. pose proof Hb as [Hh Ha He Hc Hf Hk]. split; [by eexists|done|]. intros m.
  destruct (action_remove_run s e ecb (set_pred m wb) acts (set_pred m w)) as (w' & H1 & H2 & H3 & H4); [|done|done|by exists w', (without_action ecb)].
  split; try done. by apply holds_pred.
Qed.

(** Actions that another ECB has too. *)
Lemma shared_removable s e ecb wb w c ch :
  holds s wb [] w -> w_ecb w = <[e := ecb]> (w_ecb wb) -> dte_action ecb = Some c -> w_chain wb !! c = Some ch -> 1 <= ch_refcnt ch ->
  w_chain w = <[c := Chain (ch_refcnt ch + 1) (ch_acts ch)]> (w_chain wb) -> removable s e ecb wb w.
Proof.
  intros Hh He Ha Hch Hr Hc. split; [by eexists|done|]. intros m. unfold dtrace_ecb_action_remove. run. cbn. rewrite He, lookup_insert_eq. cbn beta iota. rewrite Ha. cbn beta iota. cbn [w_chain set_pred].
  rewrite Hc, lookup_insert_eq. cbn [ch_refcnt ch_acts]. destruct (Z.ltb_spec 1 (ch_refcnt ch + 1)); [|lia]. cbn beta iota. eexists _, _. split; [reflexivity|].
  split; [by apply holds_ecb, holds_chain, holds_pred|]. cbn. rewrite Hc, !insert_insert_eq, He, insert_insert_eq. split; [|done].
  apply insert_id. rewrite Hch. f_equal. destruct ch. cbn. f_equal. lia.
Qed.

Lemma destroy_run s st0 probe pred w0 e ecb0 ecb l fm p w :
  consumer_ok s st0 probe pred w0 -> w_ecb w0 !! e = None -> table_set (dts_epid st0) e (dts_ecbs st0) = Some l ->
  removable s e ecb (base s st0 pred w0 e ecb0 l fm p) w ->
  dte_epid ecb = dts_epid st0 -> dte_next ecb = None -> dte_state ecb = s -> dte_probe ecb = probe -> dte_predicate ecb = pred ->
  exists w', dtrace_ecb_destroy e w = Some (tt, w') /\ given_back s fm w0 w'.
Proof.
  intros [Hs0 [Htab Hid] Hfm Hag Ht Hpred Hprobe] Hnew Hset Hb Hepid Hnext Hst Hpr Hp. set (wb := base _ _ _ _ _ _ _ _ _) in *.
  destruct Hb as [(ks & Hh) He Hrm]. unfold dtrace_ecb_destroy.
  assert (Hchk : (match dte_probe ecb with None => pret tt | Some p => pbind (get_probe p) (fun pe => assert (negb (bool_decide (pe_ecb pe = Some e)))) end) w = Some (tt, w)).
  { rewrite Hpr. run. destruct probe as [pb|]; [|done]. destruct (Hprobe pb eq_refl) as (pe & Hpe & Hin). destruct Hh as [_ _ _ (_ & Hwp & _)]. rewrite Hwp. cbn.
    rewrite Hpe. cbn beta iota. rewrite bool_decide_false; [done|]. intros E. destruct (Hin e E) as [? ?]. congruence. }
  unfold pbind at 1, get_ecb, gets at 1. rewrite He, lookup_insert_eq. cbn beta iota. unfold pbind at 1, assert at 1. rewrite Hnext, bool_decide_true by done. cbn beta iota.
  unfold pbind at 1. rewrite Hchk. cbn beta iota. rewrite Hp, Hst. unfold pbind at 1.
  rewrite (release_pred_run w0 s w pred Hpred); [|by destruct Hh as [_ _ _ (-> & _)]|intros d dp Hd1 Hd2; by apply (holds_refs s wb ks w d dp)]. cbn beta iota.
  run. destruct (Hrm (w_pred w0)) as (w2 & x & -> & Hh2 & Hc2 & He2). cbn beta iota.
  destruct Hh2 as [Hd2 (st1 & st2 & Hs1 & Hs2 & Hsh) Ho2 (Hr1 & Hr2 & Hr4)]. rewrite Hs2. cbn beta iota. cbn in Hs1. rewrite lookup_insert_eq in Hs1. injection Hs1 as <-.
  destruct (table_set_ok _ e _ Htab Hid) as (l' & Hset' & Htab' & Hent). rewrite Hset in Hset'. injection Hset' as <-.
  destruct Hsh as [[H1 H1'] H2 H3 H4 _ H6 _ _ H9 _]. cbn in H1, H1', H2.
  destruct (table_clear_ok (dts_epid st0) e l) as (l2 & Hclr & Hlen & Hent2); [by destruct Htab|by rewrite Hent, decide_True|].
  rewrite Hepid, H1, Hclr. cbn beta iota. eexists. split; [reflexivity|]. destruct (dheld_nil_eq _ _ _ _ Hd2) as [Hdd Htt].
  assert (Hback : forall i, entry l2 i = entry (dts_ecbs st0) i).
  { intros i. rewrite Hent2, Hent. destruct (decide _) as [->|]; [|done]. symmetry. apply (tk_free _ _ Htab). destruct Htab. lia. }
  split; cbn.
  - by rewrite Hdd, Htt.
  - rewrite Hr1, Hc2, He2, Hr2, Hr4. cbn. rewrite insert_insert_eq, delete_insert_id by done. by split_and!.
  - exists st0. eexists. split; [done|]. split; [by rewrite lookup_insert_eq|]. split; cbn.
    + exact Hback.
    + intros i. apply H9. cbn. set_solver.
    + intros i. apply H6. cbn. set_solver.
    + split; [|by split]. rewrite H1'. split; [destruct Htab; lia|rewrite Hlen; by destruct Htab'|].
      intros i Hi. rewrite Hback. apply (tk_free _ _ Htab). lia.
    + by rewrite H1'.
  - intros s' Hs'. rewrite lookup_insert_ne by done. rewrite Ho2 by done. cbn. by rewrite lookup_insert_ne.
Qed.

End Destroy.

(** * Creation *)

Lemma key_strip a : key (strip a) = key a.
Proof. unfold strip, key. destruct (dta_agg a) eqn:E; cbn; by rewrite ?E. Qed.

Lemma keys_strip l l' : map strip l' = map strip l -> map key l' = map key l.
Proof.
  intros H. apply (f_equal (map key)) in H. rewrite !map_map in H. erewrite (map_ext _ key), (map_ext (fun x => key (strip x)) key) in H; [done|apply key_strip..].
Qed.

Lemma kinds_strip l l' : map strip l' = map strip l -> map dta_kind l' = map dta_kind l.
Proof.
  intros H. apply (f_equal (map dta_kind)) in H. rewrite !map_map in H. erewrite (map_ext _ dta_kind), (map_ext (fun x => dta_kind (strip x)) dta_kind) in H; [done|..];
    intros a; unfold strip; by destruct (dta_agg a).
Qed.

Lemma room_small l : Forall (fun a => rec_size a <= 2 ^ 20) l -> (length l <= 2048)%nat -> 4 + room l < 2 ^ 32.
Proof.
  intros Hf Hl. assert (H : room l <= Z.of_nat (length l) * (2 ^ 20 + 16)).
  { clear Hl. induction Hf as [|a l Ha Hf IH]; cbn [room foldr length]; [lia|]. fold (room l). lia. }
  lia.
Qed.

Section Create.
Context {pool : Type} (kalloc : gset Z -> pool -> Z * pool) (Hfresh : forall used p, (kalloc used p).1 ∉ used) (r : registry).
Implicit Types w : @world pool.

(** The new ECB before its actions. *)
Definition first_ecb (s : Z) (st0 : dtrace_state) (probe : option Z) (desc : ecb_desc) : dtrace_ecb :=
  Ecb (dts_epid st0) 4 4 4 (ed_pred desc) None None s (ecb_cond r (dcr_visible st0) probe) probe (ed_uarg desc).

(** The second half of dtrace_ecb_create(). *)
Definition fill_ecb (e : Z) (desc : ecb_desc) : @prog pool (Z + Z) :=
  pbind (gets (fun w => Some (w_cache w))) (fun cache =>
    match cache with
    | Some cached => pbind (share_actions e cached) (fun _ => pret (inl e))
    | None =>
        pbind (add_actions kalloc e (ed_action desc)) (fun err =>
          if err =? 0 then pbind (resize_ecb e) (fun _ => pbind (puts (set_cache (Some e))) (fun _ => pret (inl e)))
          else pbind (dtrace_ecb_destroy e) (fun _ => pret (inr err)))
    end).

Lemma open_run s st0 probe desc w0 :
  consumer_ok s st0 probe (ed_pred desc) w0 ->
  exists e l p, w_ecb w0 !! e = None /\ table_set (dts_epid st0) e (dts_ecbs st0) = Some l /\
    dtrace_ecb_create kalloc r s probe desc w0 =
    fill_ecb e desc (base s st0 (ed_pred desc) w0 e (first_ecb s st0 probe desc) l (dts_formats st0) p).
Proof.
  intros [Hs0 [Htab Hid] _ _ _ Hpred _]. pose proof (Hfresh (in_use w0) (w_pool w0)) as Hn.
  destruct (kalloc (in_use w0) (w_pool w0)) as [e p] eqn:Ek. cbn in Hn. destruct (table_set_ok _ e _ Htab Hid) as (l & Hset & _). exists e, l, p.
  split; [apply not_elem_of_dom; unfold in_use in Hn; set_solver|]. split; [done|].
  assert (Hu : u32 (dts_epid st0 + 1) = dts_epid st0 + 1) by (apply u32_small; destruct Htab; lia).
  unfold dtrace_ecb_create, dtrace_ecb_add. unfold pbind at 1 2, alloc. rewrite Ek. cbn beta iota. unfold pbind at 1, get_state, gets at 1. cbn [w_state set_pool]. rewrite Hs0. cbn beta iota zeta.
  unfold pbind at 1, gets at 1. rewrite Hset. cbn beta iota. rewrite Hu.
  unfold pbind at 1 2 3, put_state, put_ecb, puts, pret at 1. cbn beta iota.
  set (w1 := set_ecb _ _). change (pbind (match ed_pred desc with Some p0 => hold_pred p0 | None => pret tt end)) with (@pbind pool _ (Z + Z) (match ed_pred desc with Some p0 => hold_pred p0 | None => pret tt end)).
  unfold pbind at 1. rewrite (hold_pred_run w1 (ed_pred desc) Hpred). cbn beta iota. subst w1.
  unfold pbind at 1, get_ecb, gets at 1. cbn [w_ecb set_pred set_ecb]. rewrite lookup_insert_eq. cbn beta iota.
  unfold pbind at 1, gets at 1. cbn [w_state set_pred set_ecb set_state]. rewrite lookup_insert_eq. cbn beta iota.
  unfold pbind at 1. cbn. rewrite !insert_insert_eq. reflexivity.
Qed.

Lemma building_start s st0 probe desc w0 e l p :
  consumer_ok s st0 probe (ed_pred desc) w0 -> w_ecb w0 !! e = None -> 
  let wb := base s st0 (ed_pred desc) w0 e (first_ecb s st0 probe desc) l (dts_formats st0) p in
  building s e (first_ecb s st0 probe desc) wb [] wb.
Proof.
  intros [Hs0 [Htab Hid] Hfm Hag _ _ _] Hnew wb. split; try done.
  - split; try done; [apply dheld_nil|]. eexists _, _. split; [apply lookup_insert_eq|]. split; [apply lookup_insert_eq|]. by apply sheld_nil.
  - split_and!; try done. apply lookup_insert_eq.
  - cbn. by rewrite insert_insert_eq.
  - split; try constructor.
  - cbn. intros x y. rewrite lookup_insert_eq. intros [= <-] [= <-]. lia.
Qed.

Definition laid_ecb (ecb : dtrace_ecb) (align size needed : Z) : dtrace_ecb :=
  Ecb (dte_epid ecb) align needed size (dte_predicate ecb) (dte_action ecb)
    (dte_next ecb) (dte_state ecb) (dte_cond ecb) (dte_probe ecb) (dte_uarg ecb).

Lemma holds_needed s w0 ks w st n :
  holds s w0 ks w -> w_state w !! s = Some st -> holds s w0 ks (set_state (<[s := set_needed n st]> (w_state w)) w).
Proof.
  intros [H1 (st0 & st' & Hs0 & Hs & Hsh) H3 H4] Hst. assert (st' = st) as -> by congruence. split; [exact H1| |by apply others_insert|exact H4].
  exists st0, (set_needed n st). split; [done|]. split; [apply lookup_insert_eq|]. destruct Hsh. by split.
Qed.

Lemma resize_run s e ecb wb acts w :
  building s e ecb wb acts w -> (length acts <= 2048)%nat ->
  exists acts' align size needed w', resize_ecb e w = Some (tt, w') /\
    built s e (laid_ecb (with_action (head_of acts) ecb) align size needed) wb acts' w' /\ w_cache w' = w_cache w /\
    layout_ok acts' align size needed /\ Forall selected acts' /\ chain_wf acts' /\ map dta_kind acts' = map dta_kind acts.
Proof.
  intros Hb Hlen. destruct (get_acts_run _ _ _ _ _ _ Hb) as [He Hga]. pose proof Hb as [Hh (Hact & Hst & Hwb) Hes Hcs Hfr [Hwf Hsel Hk Hz _] _].
  pose proof Hh as [_ (st0 & st & Hs0 & Hs & _) _ _].
  destruct (resize_layout acts (dts_needed st) Hwf (room_small _ Hz Hlen)) as (acts' & al & sz & n & most & Hrs & Hstrip & Hwf' & Hly & _).
  assert (Hkeys : map key acts' = map key acts) by (by apply keys_strip).
  assert (Hhead : head_of acts' = head_of acts) by (unfold head_of; by rewrite Hkeys).
  unfold resize_ecb, pbind, get_ecb, get_state, gets. rewrite He. cbn beta iota. replace (dte_state (with_action (head_of acts) ecb)) with s by (by cbn). rewrite Hs. cbn beta iota.
  rewrite Hga. cbn [ch_acts ch_refcnt]. rewrite Hrs. cbn beta iota zeta.
  assert (Hmid : exists w1, (match dte_action (with_action (head_of acts) ecb) with
      | Some c => puts (fun w => set_chain (<[c := Chain 1 acts']> (w_chain w)) w) | None => pret tt end) w = Some (tt, w1) /\
      w1 = set_chain (match head_of acts with Some c => <[c := Chain 1 acts']> (w_chain w) | None => w_chain w end) w).
  { cbn. destruct (head_of acts); eexists; (split; [done|]); [done|by destruct w]. }
  destruct Hmid as (w1 & -> & ->). cbn beta iota. exists acts', al, sz, n. eexists. split; [reflexivity|]. split; [|split; [done|]; split; [done|]; split; [|split; [done|]]].
  - split; cbn.
    + rewrite Hkeys. apply holds_ecb. apply (holds_needed s wb (map key acts) (set_chain _ w) st most); [by apply holds_chain|done].
    + done.
    + rewrite Hes, insert_insert_eq. unfold laid_ecb. cbn. by rewrite Hst.
    + rewrite Hhead, Hcs. destruct (head_of acts); [by rewrite insert_insert_eq|done].
    + by rewrite Hhead.
    + apply Forall_lookup. intros i a Hi. destruct (map_lookup_eq _ _ _ _ _ Hkeys Hi) as (b & Hb' & Hkb). rewrite <- Hkb.
      by apply (Forall_lookup_1 _ _ _ _ Hk Hb').
  - apply (map_strip_Forall selected acts); [apply selected_strip|done|done].
  - by apply kinds_strip.
Qed.

(** A description whose actions can be tried: at most 2048 of them, with room for their identifiers. *)
Definition descs_ok (st0 : dtrace_state) (desc : ecb_desc) w0 : Prop :=
  Forall (desc_ok (dts_options st0) (w_difo w0)) (ed_action desc) /\ (length (ed_action desc) <= 2048)%nat /\
  dts_aggid_arena st0 + Z.of_nat (length (ed_action desc)) < 2 ^ 31.

Lemma epid_found id e l l' st :
  table_set id e l = Some l' -> tab_ok id l -> id < 2 ^ 31 -> dts_ecbs st = l' -> dtrace_epid2ecb st id = Some e.
Proof.
  intros Hset Ht Hid He. destruct (table_set_ok id e l Ht Hid) as (l2 & Hs2 & Ht2 & Hent). rewrite Hset in Hs2. injection Hs2 as <-.
  destruct Ht, Ht2. unfold dtrace_epid2ecb. rewrite He. destruct (Z.eqb_spec id 0); [lia|]. destruct (Z.ltb_spec (Z.of_nat (length l')) id); [lia|]. cbn.
  rewrite zlookup_entry by lia. cbn. by rewrite Hent, decide_True.
Qed.

(** A new ECB [e] of consumer [s], and its destruction. *)
Record new_ecb (s : Z) (st0 : dtrace_state) (probe : option Z) (desc : ecb_desc) w0 (e : Z) (ecb : dtrace_ecb) w1 : Prop := {
  ne_new : w_ecb w0 !! e = None /\ w_ecb w1 = <[e := ecb]> (w_ecb w0);
  ne_fields : dte_epid ecb = dts_epid st0 /\ dte_state ecb = s /\ dte_probe ecb = probe /\ dte_predicate ecb = ed_pred desc /\
    dte_next ecb = None /\ dte_uarg ecb = ed_uarg desc /\ dte_cond ecb = ecb_cond r (dcr_visible st0) probe;
  ne_pred : w_pred w1 = held_preds w0 (ed_pred desc);
  ne_epid : exists st1, w_state w1 !! s = Some st1 /\ dtrace_epid2ecb st1 (dts_epid st0) = Some e /\ dts_epid st1 = dts_epid st0 + 1;
  ne_destroy : exists w2, dtrace_ecb_destroy e w1 = Some (tt, w2) /\ given_back s (dts_formats st0) w0 w2
}.

Lemma removable_new s st0 probe desc w0 e l p ecb w :
  let wb := base s st0 (ed_pred desc) w0 e (first_ecb s st0 probe desc) l (dts_formats st0) p in
  consumer_ok s st0 probe (ed_pred desc) w0 -> w_ecb w0 !! e = None -> table_set (dts_epid st0) e (dts_ecbs st0) = Some l ->
  removable s e ecb wb w ->
  (exists align size needed c, ecb = laid_ecb (with_action c (first_ecb s st0 probe desc)) align size needed) ->
  new_ecb s st0 probe desc w0 e ecb w.
Proof.
  intros wb Hc Hnew Hset Hrm (al & sz & n & c & ->). pose proof Hrm as [(ks & Hh) He _]. split.
  - split; [done|]. rewrite He. cbn. by rewrite insert_insert_eq.
  - by split_and!.
  - by destruct Hh as [_ _ _ (-> & _)].
  - destruct Hh as [_ (st1 & st & Hs1 & Hs & Hsh) _ _]. exists st. split; [done|]. cbn in Hs1. rewrite lookup_insert_eq in Hs1. injection Hs1 as <-.
    destruct Hsh as [[H1 H2] _ _ _ _ _ _ _ _ _]. cbn in H1, H2. split; [|done]. destruct Hc as [_ [Ht Hid] _ _ _ _ _]. by eapply epid_found.
  - by eapply destroy_run.
Qed.


(** The number of ECBs that share a list of actions. *)
Definition share_chain (o : option Z) (m : gmap Z chain) : gmap Z chain :=
  match o with None => m | Some c => alter (fun ch => Chain (ch_refcnt ch + 1) (ch_acts ch)) c m end.

Lemma share_run s e ecb wb cached cecb :
  building s e ecb wb [] wb -> e <> cached -> w_ecb wb !! cached = Some cecb -> 0 <= (w_vtime wb).1 ->
  (forall c, dte_action cecb = Some c -> exists ch, w_chain wb !! c = Some ch /\ 1 <= ch_refcnt ch) ->
  exists ecb' w', share_actions e cached wb = Some (tt, w') /\ removable s e ecb' wb w' /\
    w' = set_ecb (<[e := ecb']> (w_ecb wb)) (set_chain (share_chain (dte_action cecb) (w_chain wb)) wb) /\
    ecb' = match dte_action cecb with
           | None => ecb
           | Some c => laid_ecb (with_action (Some c) ecb) (dte_alignment cecb) (dte_size cecb) (dte_needed cecb)
           end.
Proof.
  intros Hb Hne Hce Ht Hch. pose proof Hb as [Hh (Hact & Hst & Hwb) _ _ _ _ _]. unfold share_actions. run. rewrite Hwb. cbn beta iota. rewrite Hce. cbn beta iota.
  destruct (dte_action cecb) as [c|] eqn:Ea.
  - destruct (Hch c eq_refl) as (ch & Hc & Hr). rewrite Hc. cbn beta iota. destruct (Z.ltb_spec 0 (ch_refcnt ch)); [|lia]. cbn beta iota.
    eexists _, _. split; [reflexivity|].
    assert (Hsh : share_chain (Some c) (w_chain wb) = <[c := Chain (ch_refcnt ch + 1) (ch_acts ch)]> (w_chain wb)).
    { apply map_eq. intros x. cbn. destruct (decide (x = c)) as [->|Hx]; [by rewrite lookup_alter_eq, lookup_insert_eq, Hc|by rewrite lookup_alter_ne, lookup_insert_ne]. }
    split; [|rewrite Hsh; by split]. apply (shared_removable s e _ wb _ c ch); try done. by apply holds_ecb, holds_chain.
  - exists ecb, wb. split; [done|]. split; [|split; [|done]].
    + apply building_built in Hb. assert (Hw : with_action (head_of []) ecb = ecb) by (unfold with_action; cbn; rewrite <- Hact; by destruct ecb).
      rewrite Hw in Hb. by eapply built_removable.
    + rewrite insert_id by done. by destruct wb.
Qed.

(** For the further probes of a description dtrace_ecb_create() does not add the actions again: the new ECB shares the list
    of the ECB made first, with its layout, and only the list's reference count and the predicate's change.
    dtrace_ecb_destroy() of the new ECB takes exactly that back and leaves the list to the other ECB. *)
Theorem ecb_create_shared s st0 probe desc w0 cached cecb :
  consumer_ok s st0 probe (ed_pred desc) w0 -> w_cache w0 = Some cached -> w_ecb w0 !! cached = Some cecb ->
  (forall c, dte_action cecb = Some c -> exists ch, w_chain w0 !! c = Some ch /\ 1 <= ch_refcnt ch) ->
  exists e ecb w1, dtrace_ecb_create kalloc r s probe desc w0 = Some (inl e, w1) /\ new_ecb s st0 probe desc w0 e ecb w1 /\
    w_cache w1 = Some cached /\ w_chain w1 = share_chain (dte_action cecb) (w_chain w0) /\ w_difo w1 = w_difo w0 /\ w_vtime w1 = w_vtime w0 /\
    dte_action ecb = dte_action cecb /\
    (is_Some (dte_action cecb) -> dte_alignment ecb = dte_alignment cecb /\ dte_size ecb = dte_size cecb /\ dte_needed ecb = dte_needed cecb).
Proof.
  intros Hc Hcache Hce Hch. destruct (open_run s st0 probe desc w0 Hc) as (e & l & p & Hnew & Hset & ->).
  pose proof (building_start s st0 probe desc w0 e l p Hc Hnew) as Hb. cbv zeta in Hb. set (wb := base _ _ _ _ _ _ _ _ _) in *.
  assert (Hne : e <> cached) by congruence.
  destruct (share_run s e _ wb cached cecb Hb Hne) as (ecb & w1 & Hrun & Hrm & Hw1 & Hecb); [by cbn; rewrite lookup_insert_ne|apply Hc|exact Hch|].
  unfold fill_ecb. unfold pbind at 1, gets. replace (w_cache wb) with (Some cached) by (by cbn). cbn beta iota. unfold pbind. rewrite Hrun.
  exists e, ecb, w1. split; [done|]. split.
  - eapply removable_new; [done..|exact Hrm|]. rewrite Hecb. destruct (dte_action cecb) as [c|]; [by eexists _, _, _, _|]. by exists 4, 4, 4, None.
  - rewrite Hw1. split; [done|]. split; [done|]. split; [done|]. split; [done|]. rewrite Hecb. destruct (dte_action cecb); [done|]. split; [done|]. by intros [? ?].
Qed.
End Create.

(** * Examples *)

(** An allocator that goes upwards. *)
Definition upwards (used : gset Z) (_ : unit) : Z * unit := (foldr Z.max 0 (elements used) + 1, tt).

Lemma upwards_fresh used p : (upwards used p).1 ∉ used.
Proof.
  assert (H : forall l x, x ∈ l -> x <= foldr Z.max 0 l).
  { intros l x Hx. induction Hx as [x l|x y l Hx IH]; cbn; lia. }
  intros Hin. apply elem_of_elements, H in Hin. cbn in Hin. lia.
Qed.

(** trace(x), printf("x", x), @[x] = count() for consumer 9 and probe 7, with a predicate; all expressions are DIF object 20. *)
Definition demo_difo : dtrace_difo := Difo [] [] 0 0 [] (DifType 0 0 0 8) 1 0.
Definition demo_state : dtrace_state := State [] 1 0 empty_vstate [] 0 0 0 [] (fun _ => 16) 0.
Definition demo_start : @world unit :=
  World {[20 := demo_difo]} {[30 := Pred 20 1 3]} ∅ ∅ {[7 := ProbeEcbs None None 0]} {[9 := demo_state]} None (0, false) tt [].
Definition demo_acts3 : list act_desc :=
  [ActionDesc DTRACEACT_DIFEXPR 0 0 (inl 0) (Some 20); ActionDesc DTRACEACT_PRINTF 0 0 (inr [120]) (Some 20);
   ActionDesc DTRACEACT_DIFEXPR 0 0 (inl 0) (Some 20); ActionDesc (DTRACEACT_AGGREGATION + 1) 1 0 (inl 0) None].
Definition demo_desc : ecb_desc := EcbDescr demo_acts3 (Some 30) 0.

(** Evaluated: the ECB at address 1, and the worlds after its creation and destruction. *)
Example demo_create :
  match dtrace_ecb_create upwards registry_init 9 (Some 7) demo_desc demo_start with
  | Some (inl e, w) => (e, map (fun a => (dta_self a, rec_offset a)) (ch_acts (default (Chain 0 []) (w_chain w !! 2))),
      dtdo_refcnt <$> w_difo w !! 20, dts_formats <$> w_state w !! 9, dts_aggregations <$> w_state w !! 9)
  | _ => (0, [], None, None, None)
  end = (1, [(2, 8); (3, 16); (4, 32); (5, 40)], Some 4, Some [Some [120; 0]], Some [Some 5]).
Proof. vm_compute. reflexivity. Qed.

Lemma demo_consumer : consumer_ok 9 demo_state (Some 7) (Some 30) demo_start.
Proof.
  assert (Ht : tab_ok 1 []) by (split; cbn; [lia|lia|]; intros i _; by destruct i).
  split; cbn; try done; try lia.
  - intros p [= <-]. exists (Pred 20 1 3), demo_difo. split_and!; try done; cbn; lia.
  - intros p [= <-]. by exists (ProbeEcbs None None 0).
Qed.

Lemma demo_descs : descs_ok demo_state demo_desc demo_start.
Proof.
  split; [|cbn; lia]. repeat constructor; cbn; try lia; try (exists demo_difo; split; [done|]; split; [cbn; lia|]); try (intros n acts; cbn; lia); try (by eexists).
Qed.


(** An ECB at 1 was made for the description; its only action is at 2. *)
Definition demo_first : dtrace_ecb := Ecb 1 8 16 16 None (Some 2) None 9 0 (Some 6) 0.
Definition demo_chain : chain := Chain 1 [Action 2 DTRACEACT_DIFEXPR false (Some 20) (RecDesc 1 8 8 8 0 (inl 0) 0) None].
Definition demo_second : @world unit :=
  World {[20 := demo_difo]} {[30 := Pred 20 1 3]} {[2 := demo_chain]} {[1 := demo_first]} {[7 := ProbeEcbs None None 0]} {[9 := demo_state]} (Some 1) (0, false) tt [].

Lemma ecb_create_shared_witness :
  exists e ecb w1, dtrace_ecb_create upwards registry_init 9 (Some 7) demo_desc demo_second = Some (inl e, w1) /\
    new_ecb registry_init 9 demo_state (Some 7) demo_desc demo_second e ecb w1 /\
    w_cache w1 = Some 1 /\ w_chain w1 = share_chain (dte_action demo_first) (w_chain demo_second) /\ w_difo w1 = w_difo demo_second /\
    w_vtime w1 = w_vtime demo_second /\ dte_action ecb = dte_action demo_first /\
    (is_Some (dte_action demo_first) ->
     dte_alignment ecb = dte_alignment demo_first /\ dte_size ecb = dte_size demo_first /\ dte_needed ecb = dte_needed demo_first).
Proof.
  apply (ecb_create_shared upwards upwards_fresh registry_init 9 demo_state (Some 7) demo_desc demo_second 1 demo_first); [|reflexivity|reflexivity|].
  - destruct demo_consumer as [H1 H2 H3 H4 H5 H6 _]. split; [exact H1|exact H2|exact H3|exact H4|exact H5|exact H6|].
    intros p [= <-]. by exists (ProbeEcbs None None 0).
  - intros c [= <-]. by exists demo_chain.
Defined.

(** Two speculate() actions are accepted: dte_size is still 4 when the second one is checked. *)
Example two_speculates :
  match dtrace_ecb_create upwards registry_init 9 None
    (EcbDescr [ActionDesc DTRACEACT_SPECULATE 0 0 (inl 0) (Some 20); ActionDesc DTRACEACT_SPECULATE 0 0 (inl 0) (Some 20)] None 0) demo_start with
  | Some (inl _, w) => true
  | _ => false
  end = true.
Proof. vm_compute. reflexivity. Qed.

(** The format of a refused printf() stays: the consumer has it without any ECB. *)
Example refused_printf :
  match dtrace_ecb_create upwards registry_init 9 None (EcbDescr [ActionDesc DTRACEACT_PRINTF 0 0 (inr [120]) None] None 0) demo_start with
  | Some (inr err, w) => (err, size (w_ecb w), dts_formats <$> w_state w !! 9)
  | _ => (0, O, None)
  end = (EINVAL, O, Some [Some [120; 0]]).
Proof. vm_compute. reflexivity. Qed.
