(* ===== verification/Privilege.v ===== *)
(** Who may trace what: the security table of the Linux driver, privileges and the
    credentials of a consumer.

    Rules are written to /dev/dtrace as text (driver/dtrace_linux.c, parse_sec() and
    dtracedrv_write()) and asked by priv_policy_only(); dtrace_cred2priv() turns the answers
    into privileges on probes, dtrace_state_create() into what the consumer may see
    and do, dtrace_priv_*() (driver/dtrace.c) ask that from probe context. *)
From S2P Require Import Prelude SafeMem DifValidate Match Ecb.
From stdpp Require Import list.
From Stdlib Require Import String Ascii.
#[local] Open Scope Z_scope.
#[local] Open Scope list_scope.

(** * Rules *)

Definition DIT_UID : Z := 1.
Definition DIT_GID : Z := 2.
Definition DIT_ALL : Z := 3.

Record dsec_item_t := DsecItem { di_flags : Z; di_type : Z; di_priv : Z; di_id : Z }.

Record cred_t := Cred {
  cr_uid : Z; cr_gid : Z; cr_ruid : Z; cr_rgid : Z; cr_suid : Z; cr_sgid : Z; cr_zoneid : Z
}.

Definition PRIV_DTRACE_KERNEL : Z := Z.shiftl 1 1.
Definition PRIV_DTRACE_PROC : Z := Z.shiftl 1 2.
Definition PRIV_DTRACE_USER : Z := Z.shiftl 1 3.
Definition PRIV_PROC_OWNER : Z := Z.shiftl 1 4.
Definition PRIV_PROC_ZONE : Z := Z.shiftl 1 5.
Definition PRIV_ALL : Z := Z.lnot 0.

(** Whether a rule is about the credential; a type that is none of the three is about all. *)
Definition rule_applies (a : cred_t) (d : dsec_item_t) : bool :=
  if di_type d =? DIT_UID then di_id d =? cr_uid a
  else if di_type d =? DIT_GID then di_id d =? cr_gid a
  else true.

(** [rules] are the first [di_cnt] entries of di_list. *)
Definition priv_policy_only (rules : list dsec_item_t) (a : cred_t) (priv : Z) : bool :=
  (cr_uid a =? 0) || existsb (fun d => rule_applies a d && negb (Z.land (di_priv d) priv =? 0)) rules.

(** * The text of rules *)

(** A pointer into the text: the memory from there on, which goes on behind the [len] bytes
    that were written.  [None]: a read outside of the memory. *)
Definition bytes (s : string) : list Z := map (fun c => Z.of_N (N_of_ascii c)) (list_ascii_of_string s).

Definition SPACE : Z := 32.
Definition NEWLINE : Z := 10.
Definition HASH : Z := 35.

Fixpoint skip_white (cp : list Z) (len : nat) {struct len} : option (list Z * nat) :=
  match len with
  | O => Some (cp, O)
  | S n =>
      match cp with
      | [] => None
      | c :: cp' => if c =? SPACE then skip_white cp' n else Some (cp, len)
      end
  end.

(** To the next blank or newline. *)
Fixpoint skip_word (cp : list Z) (len : nat) {struct len} : option (list Z * nat) :=
  match len with
  | O => Some (cp, O)
  | S n =>
      match cp with
      | [] => None
      | c :: cp' => if (c =? SPACE) || (c =? NEWLINE) then Some (cp, len) else skip_word cp' n
      end
  end.

(** strncmp() with a string literal and its length: whether the memory begins with it. *)
Fixpoint begins (pat cp : list Z) : option bool :=
  match pat with
  | [] => Some true
  | p :: pat => match cp with [] => None | c :: cp => if c =? p then begins pat cp else Some false end
  end.

Inductive parsed := FALSE | TRUE | CLEAR.

Definition set_type (t : Z) (d : dsec_item_t) : dsec_item_t := DsecItem (di_flags d) t (di_priv d) (di_id d).
Definition set_id (i : Z) (d : dsec_item_t) : dsec_item_t := DsecItem (di_flags d) (di_type d) (di_priv d) i.
Definition add_priv (p : Z) (d : dsec_item_t) : dsec_item_t :=
  DsecItem (di_flags d) (di_type d) (u16 (Z.lor (di_priv d) p)) (di_id d).

(** The names of the privileges, in the order of the tests. *)
Definition priv_names : list (list Z * Z) :=
  [(bytes "priv_kernel", DTRACE_PRIV_KERNEL); (bytes "priv_user", DTRACE_PRIV_USER);
   (bytes "priv_proc", DTRACE_PRIV_PROC); (bytes "priv_owner", DTRACE_PRIV_OWNER)].

Fixpoint find_priv (names : list (list Z * Z)) (cp : list Z) : option (option Z) :=
  match names with
  | [] => Some None
  | (name, p) :: names =>
      match begins name cp with
      | None => None
      | Some true => Some (Some p)
      | Some false => find_priv names cp
      end
  end.

(** The loop over the privileges; every turn goes on by at least one byte. *)
Fixpoint parse_privs (fuel : nat) (d : dsec_item_t) (cp : list Z) (len : nat) : option (parsed * dsec_item_t) :=
  match fuel with
  | O => None
  | S fuel =>
      match len with
      | O => Some (TRUE, d)
      | S _ =>
          match cp with
          | [] => None
          | c :: _ =>
              if c =? NEWLINE then Some (TRUE, d)
              else
                match skip_white cp len with
                | None => None
                | Some (_, O) => Some (TRUE, d)
                | Some (cp, len) =>
                    match cp with
                    | [] => None
                    | c :: _ =>
                        if (c =? NEWLINE) || (c =? HASH) then Some (TRUE, d)
                        else
                          match find_priv priv_names cp with
                          | None => None
                          | Some None => Some (FALSE, d)
                          | Some (Some p) =>
                              match skip_word cp len with
                              | Some (cp, len) => parse_privs fuel (add_priv p d) cp len
                              | None => None
                              end
                          end
                    end
                end
          end
      end
  end.

Definition first_byte (cp : list Z) : option Z := head cp.

Section Text.
(** simple_strtoul() with base 0, of the kernel. *)
Context (simple_strtoul : list Z -> Z).

(** The first of the three words the memory begins with. *)
Definition rule_type (word : list Z) : option (option Z) :=
  find_priv [(bytes "uid", DIT_UID); (bytes "gid", DIT_GID); (bytes "all", DIT_ALL)] word.

(** The identifier: its value, and the text behind it; no result inside: a newline comes first. *)
Fixpoint skip_id (cp : list Z) (len : nat) {struct len} : option (option (list Z * nat)) :=
  match len with
  | O => Some (Some (cp, O))
  | S n =>
      match cp with
      | [] => None
      | c :: cp' => if c =? SPACE then Some (Some (cp, len)) else if c =? NEWLINE then Some None else skip_id cp' n
      end
  end.

(** [len] is cpend - cp.  The entry keeps what it had: its fields are overwritten one by one,
    and privileges are added. *)
Definition parse_sec (d : dsec_item_t) (cp : list Z) (len : nat) : option (parsed * dsec_item_t) :=
  match skip_white cp len with
  | None => None
  | Some (word, len) =>
      match first_byte word with
      | None => None
      | Some c =>
          if c =? HASH then Some (FALSE, d)
          else
            match skip_word word len, begins (bytes "clear") word with
            | Some (cp, len'), clear =>
                if (5 <=? Z.of_nat (len - len')) && bool_decide (clear = None) then None
                else if (5 <=? Z.of_nat (len - len')) && bool_decide (clear = Some true) then Some (CLEAR, d)
                else
                  match skip_white cp len', rule_type word with
                  | Some (cp, len), Some (Some t) =>
                      let d := set_type t d in
                      if (t =? DIT_UID) || (t =? DIT_GID) then
                        let d := set_id (u32 (simple_strtoul cp)) d in
                        match skip_id cp len with
                        | None => None
                        | Some None => Some (FALSE, d)
                        | Some (Some (cp, len)) => parse_privs (S len) (add_priv 0 d) cp len
                        end
                      else parse_privs (S len) (add_priv 0 d) cp len
                  | Some _, Some None => Some (FALSE, d)
                  | _, _ => None
                  end
            | None, _ => None
            end
      end
  end.

Definition MAX_SEC_LIST : Z := 64.

Record security := Security { di_list : list dsec_item_t; di_cnt : Z; dtrace_here : Z }.

(** strchr(cp, '\n') + 1; no result inside: there is none before the NUL. *)
Fixpoint next_line (cp : list Z) (len : Z) : option (option (list Z * Z)) :=
  match cp with
  | [] => None
  | c :: cp =>
      if c =? NEWLINE then Some (Some (cp, len - 1))
      else if c =? 0 then Some None
      else next_line cp (len - 1)
  end.

(** What one line does. *)
Definition write_line (s : security) (cp : list Z) (len : nat) : option security :=
  match (if (6 <=? Z.of_nat len) then begins (bytes "here=") cp else Some false) with
  | None => None
  | Some true => Some (Security (di_list s) (di_cnt s) (s32 (simple_strtoul (drop 5 cp))))
  | Some false =>
      if di_cnt s <? MAX_SEC_LIST then
        match zlookup (di_list s) (di_cnt s) with
        | None => None
        | Some d =>
            match parse_sec d cp len with
            | None => None
            | Some (res, d) =>
                let l := <[Z.to_nat (di_cnt s) := d]> (di_list s) in
                Some (Security l (match res with CLEAR => 0 | TRUE => di_cnt s + 1 | FALSE => di_cnt s end) (dtrace_here s))
            end
        end
      else Some s
  end.

(** The loop; [len] can go below 0, since strchr() does not stop at the end of what was written. *)
Fixpoint write_loop (fuel : nat) (s : security) (cp : list Z) (len : Z) : option security :=
  match fuel with
  | O => None
  | S fuel =>
      if len <=? 0 then Some s
      else
        match skip_white cp (Z.to_nat len) with
        | None => None
        | Some (_, O) => Some s
        | Some (cp, len) =>
            match first_byte cp with
            | None => None
            | Some c =>
                if c =? NEWLINE then write_loop fuel s (tail cp) (Z.of_nat len - 1)
                else
                  match write_line s cp len with
                  | None => None
                  | Some s =>
                      match next_line cp (Z.of_nat len) with
                      | None => None
                      | Some None => Some s
                      | Some (Some (cp, len)) => write_loop fuel s cp len
                      end
                  end
            end
        end
  end.

(** The result is the number of bytes, whatever happens; users that are not root are ignored. *)
Definition dtracedrv_write (uid euid : Z) (s : security) (buf : list Z) (count : nat) : option (Z * security) :=
  if negb (uid =? 0) && negb (euid =? 0) then Some (Z.of_nat count, s)
  else
    match write_loop (S count) s buf (Z.of_nat count) with
    | Some s => Some (Z.of_nat count, s)
    | None => None
    end.
End Text.

(** ** Reading the rules back *)

(** "%u" *)
Fixpoint digits (fuel : nat) (n : Z) (acc : list Z) : list Z :=
  match fuel with
  | O => acc
  | S fuel => let acc := 48 + n mod 10 :: acc in if n <? 10 then acc else digits fuel (n / 10) acc
  end.
Definition decimal (n : Z) : list Z := digits 20 n [].

(** A line of proc_dtrace_security_read_proc(), without the newline. *)
Definition show_rule (d : dsec_item_t) : list Z :=
  (if di_type d =? DIT_UID then bytes "uid " else if di_type d =? DIT_GID then bytes "gid "
   else if di_type d =? DIT_ALL then bytes "all " else bytes "sec?? ") ++
  (if di_type d =? DIT_ALL then [] else bytes " " ++ decimal (di_id d)) ++
  (if Z.land (di_priv d) DTRACE_PRIV_USER =? 0 then [] else bytes " priv_user") ++
  (if Z.land (di_priv d) DTRACE_PRIV_KERNEL =? 0 then [] else bytes " priv_kernel") ++
  (if Z.land (di_priv d) DTRACE_PRIV_PROC =? 0 then [] else bytes " priv_proc") ++
  (if Z.land (di_priv d) DTRACE_PRIV_OWNER =? 0 then [] else bytes " priv_owner").

(** The loop: what is written to the page, and the number of bytes.  snprintf() writes at most [len] bytes with the NUL and
    returns what it would have written. *)
Fixpoint show_rules (rules : list dsec_item_t) (len : Z) : list Z * Z :=
  match rules with
  | [] => ([], 0)
  | d :: rules =>
      if (di_type d =? 0) || (len <=? 0) then ([], 0)
      else
        let line := show_rule d ++ [NEWLINE] in
        let size := Z.of_nat (List.length line) in
        let '(page, n) := show_rules rules (len - size) in
        (take (Z.to_nat (len - 1)) line ++ page, size + n)
  end.

(** The length, and whether the reader has everything. *)
Definition proc_calc_metrics (off count len : Z) : Z * bool :=
  let eof := len <=? off + count in
  let len := len - off in
  let len := if count <? len then count else len in
  (if len <? 0 then 0 else len, eof).

Definition proc_dtrace_security_read_proc (s : security) (off count : Z) : list Z * (Z * bool) :=
  let '(page, n) := show_rules (take (Z.to_nat (di_cnt s)) (di_list s)) count in
  (page, proc_calc_metrics off count n).

(** * Privileges *)

Section Policy.
(** priv_policy_only() for the table of rules. *)
Context (rules : list dsec_item_t).
#[local] Abbreviation may cr priv := (priv_policy_only rules cr priv).

(** The privileges, the user and the zone; the last two are 0 if they do not matter. *)
Definition dtrace_cred2priv (cr : option cred_t) : Z * Z * Z :=
  match cr with
  | None => (DTRACE_PRIV_ALL, 0, 0)
  | Some cr =>
      if may cr PRIV_ALL then (DTRACE_PRIV_ALL, 0, 0)
      else
        let priv := 0 in
        let priv :=
          if may cr PRIV_DTRACE_KERNEL then Z.lor priv (Z.lor DTRACE_PRIV_KERNEL DTRACE_PRIV_USER)
          else if may cr PRIV_DTRACE_USER then Z.lor priv DTRACE_PRIV_USER else priv in
        let priv := if may cr PRIV_DTRACE_PROC then Z.lor priv DTRACE_PRIV_PROC else priv in
        let priv := if may cr PRIV_PROC_OWNER then Z.lor priv DTRACE_PRIV_OWNER else priv in
        let priv := if may cr PRIV_PROC_ZONE then Z.lor priv DTRACE_PRIV_ZONEOWNER else priv in
        (priv, cr_uid cr, cr_zoneid cr)
  end.

Definition DTRACE_CRV_ALL : Z := Z.lor DTRACE_CRV_ALLPROC (Z.lor DTRACE_CRV_KERNEL DTRACE_CRV_ALLZONE).
Definition DTRACE_CRA_PROC : Z := 0x0001.
Definition DTRACE_CRA_PROC_CONTROL : Z := 0x0002.
Definition DTRACE_CRA_PROC_DESTRUCTIVE_ALLUSER : Z := 0x0004.
Definition DTRACE_CRA_PROC_DESTRUCTIVE_ALLZONE : Z := 0x0008.
Definition DTRACE_CRA_PROC_DESTRUCTIVE_CREDCHG : Z := 0x0010.
Definition DTRACE_CRA_KERNEL : Z := 0x0020.
Definition DTRACE_CRA_KERNEL_DESTRUCTIVE : Z := 0x0040.
Definition DTRACE_CRA_ALL : Z :=
  Z.lor DTRACE_CRA_PROC (Z.lor DTRACE_CRA_PROC_CONTROL (Z.lor DTRACE_CRA_PROC_DESTRUCTIVE_ALLUSER
    (Z.lor DTRACE_CRA_PROC_DESTRUCTIVE_ALLZONE (Z.lor DTRACE_CRA_PROC_DESTRUCTIVE_CREDCHG
      (Z.lor DTRACE_CRA_KERNEL DTRACE_CRA_KERNEL_DESTRUCTIVE))))).

(** dts_cred *)
Record dtrace_cred_t := DCred { dcr_cred : option cred_t; dcr_destructive : Z; dcr_visible : Z; dcr_action : Z }.

Definition see (b : bool) (v a : Z) (c : dtrace_cred_t) : dtrace_cred_t :=
  if b then DCred (dcr_cred c) (dcr_destructive c) (Z.lor (dcr_visible c) v) (Z.lor (dcr_action c) a) else c.

(** The credentials dtrace_state_create() gives a consumer.  priv_isequalset() is 1 on Linux. *)
Definition state_cred (cr : option cred_t) : dtrace_cred_t :=
  match cr with
  | None => DCred None 0 DTRACE_CRV_ALL DTRACE_CRA_ALL
  | Some cr =>
      if may cr PRIV_ALL then DCred None 0 DTRACE_CRV_ALL DTRACE_CRA_ALL
      else
        let c := DCred (Some cr) 0 0 0 in
        let c := see (may cr PRIV_DTRACE_USER || may cr PRIV_DTRACE_PROC) 0 DTRACE_CRA_PROC c in
        let c :=
          if may cr PRIV_DTRACE_USER then
            let c := see (may cr PRIV_PROC_OWNER) DTRACE_CRV_ALLPROC DTRACE_CRA_PROC_DESTRUCTIVE_ALLUSER c in
            let c := see (may cr PRIV_PROC_ZONE) DTRACE_CRV_ALLZONE DTRACE_CRA_PROC_DESTRUCTIVE_ALLZONE c in
            see true 0 DTRACE_CRA_PROC_DESTRUCTIVE_CREDCHG c
          else c in
        let c :=
          if may cr PRIV_DTRACE_KERNEL then
            let c := see true (Z.lor DTRACE_CRV_KERNEL (Z.lor DTRACE_CRV_ALLPROC DTRACE_CRV_ALLZONE))
                       (Z.lor DTRACE_CRA_KERNEL DTRACE_CRA_PROC) c in
            let c := see (may cr PRIV_PROC_OWNER) 0 DTRACE_CRA_PROC_DESTRUCTIVE_ALLUSER c in
            let c := see (may cr PRIV_PROC_ZONE) 0 DTRACE_CRA_PROC_DESTRUCTIVE_ALLZONE c in
            see true 0 DTRACE_CRA_PROC_DESTRUCTIVE_CREDCHG c
          else c in
        if may cr PRIV_DTRACE_PROC then
          let c := see (may cr PRIV_PROC_OWNER) 0 DTRACE_CRA_PROC_DESTRUCTIVE_ALLUSER c in
          see (may cr PRIV_PROC_ZONE) 0 DTRACE_CRA_PROC_DESTRUCTIVE_ALLZONE c
        else c
  end.

Definition EACCES : Z := 13.

(** dtrace_open(): EACCES, or the credentials of the new consumer. *)
Definition open_cred (cr : option cred_t) : Z + dtrace_cred_t :=
  let '(priv, _, _) := dtrace_cred2priv cr in
  if priv =? 0 then inl EACCES else inr (state_cred cr).
End Policy.

(** * Checks in probe context *)

(** The thread: its credential and whether it has a process; SNOCD is 0 on Linux. *)
Record thread := Thread { t_cred : option cred_t; t_proc : bool }.

Definition has (x bit : Z) : bool := negb (Z.land x bit =? 0).

(** [None]: the consumer has no credential to compare with. *)
Definition dtrace_priv_proc_common_user (c : dtrace_cred_t) (t : thread) : option bool :=
  match dcr_cred c with
  | None => None
  | Some s =>
      Some (match t_cred t with
            | Some cr => (cr_uid s =? cr_uid cr) && (cr_uid s =? cr_ruid cr) && (cr_uid s =? cr_suid cr) &&
                         (cr_gid s =? cr_gid cr) && (cr_gid s =? cr_rgid cr) && (cr_gid s =? cr_sgid cr)
            | None => false
            end)
  end.

Definition dtrace_priv_proc_common_zone (c : dtrace_cred_t) (t : thread) : option bool :=
  match dcr_cred c with
  | None => None
  | Some s => Some (match t_cred t with Some cr => cr_zoneid s =? cr_zoneid cr | None => false end)
  end.

Definition dtrace_priv_proc_common_nocd (t : thread) : bool := t_proc t.

(** The answer, and the flags that are raised if it is no. *)
Definition answer (flag : Z) (b : bool) : bool * Z := (b, if b then 0 else flag).

Definition dtrace_priv_proc_destructive (c : dtrace_cred_t) (t : thread) : option (bool * Z) :=
  let unless bit check := if has (dcr_action c) bit then Some true else check in
  answer CPU_DTRACE_UPRIV <$>
    match unless DTRACE_CRA_PROC_DESTRUCTIVE_ALLZONE (dtrace_priv_proc_common_zone c t) with
    | Some true =>
        match unless DTRACE_CRA_PROC_DESTRUCTIVE_ALLUSER (dtrace_priv_proc_common_user c t) with
        | Some true => unless DTRACE_CRA_PROC_DESTRUCTIVE_CREDCHG (Some (dtrace_priv_proc_common_nocd t))
        | r => r
        end
    | r => r
    end.

Definition dtrace_priv_proc_control (c : dtrace_cred_t) (t : thread) : option (bool * Z) :=
  if has (dcr_action c) DTRACE_CRA_PROC_CONTROL then Some (true, 0)
  else
    answer CPU_DTRACE_UPRIV <$>
      match dtrace_priv_proc_common_zone c t with
      | Some true =>
          match dtrace_priv_proc_common_user c t with
          | Some true => Some (dtrace_priv_proc_common_nocd t)
          | r => r
          end
      | r => r
      end.

Definition dtrace_priv_proc (c : dtrace_cred_t) : bool * Z := answer CPU_DTRACE_UPRIV (has (dcr_action c) DTRACE_CRA_PROC).
Definition dtrace_priv_kernel (c : dtrace_cred_t) : bool * Z := answer CPU_DTRACE_KPRIV (has (dcr_action c) DTRACE_CRA_KERNEL).
Definition dtrace_priv_kernel_destructive (c : dtrace_cred_t) : bool * Z :=
  answer CPU_DTRACE_KPRIV (has (dcr_action c) DTRACE_CRA_KERNEL_DESTRUCTIVE).

(** * All or nothing *)

(** Some rule about the user gives him anything. *)
Definition granted (rules : list dsec_item_t) (cr : cred_t) : bool :=
  (cr_uid cr =? 0) || existsb (fun d => rule_applies cr d && negb (di_priv d =? 0)) rules.

Lemma may_all rules cr : priv_policy_only rules cr PRIV_ALL = granted rules cr.
Proof.
  unfold priv_policy_only, granted. f_equal. induction rules as [|d rules IH]; cbn [existsb]; [done|]. rewrite IH.
  change PRIV_ALL with (-1). by rewrite Z.land_m1_r.
Qed.

Lemma may_nothing rules cr priv : granted rules cr = false -> priv_policy_only rules cr priv = false.
Proof.
  unfold priv_policy_only, granted. intros [-> H]%orb_false_elim. apply not_true_is_false. intros (d & Hd & Hp)%existsb_exists.
  apply andb_prop in Hp as [Ha Hp]. assert (Ht : existsb (fun d => rule_applies cr d && negb (di_priv d =? 0)) rules = true); [|congruence].
  apply existsb_exists. exists d. split; [done|]. rewrite Ha. destruct (Z.eqb_spec (di_priv d) 0) as [E|]; [by rewrite E in Hp|done].
Qed.


(** * Reading the text *)

(** [len] more bytes, and a NUL behind them. *)
Definition text (cp : list Z) (len : nat) : Prop := exists i, (len <= i)%nat /\ cp !! i = Some 0.

Lemma text_drop cp len k : text cp len -> (k <= len)%nat -> text (drop k cp) (len - k).
Proof. intros (i & Hi & Hc) Hk. exists (i - k)%nat. split; [lia|]. rewrite lookup_drop. by replace (k + (i - k))%nat with i by lia. Qed.

Lemma text_cons cp len : text cp len -> exists c cp', cp = c :: cp' /\ (forall n, len = S n -> text cp' n).
Proof.
  intros (i & Hi & Hc). destruct cp as [|c cp']; [done|]. exists c, cp'. split; [done|]. intros n ->. destruct i as [|i]; [lia|].
  exists i. split; [lia|done].
Qed.

(** A scan stops [k] bytes further on. *)
Definition scans (f : list Z -> nat -> option (list Z * nat)) : Prop := forall cp len, text cp len ->
  exists k, (k <= len)%nat /\ f cp len = Some (drop k cp, (len - k)%nat) /\ text (drop k cp) (len - k).

Lemma skip_white_scans : scans skip_white.
Proof.
  intros cp len. revert cp. induction len as [|n IH]; intros cp Ht.
  - exists O. split; [lia|split; [reflexivity|exact Ht]].
  - destruct (text_cons cp _ Ht) as (c & cp' & -> & Ht'). cbn. destruct (c =? SPACE).
    + destruct (IH cp' (Ht' n eq_refl)) as (k & Hk & -> & Hd). exists (S k). split; [lia|split; [reflexivity|exact Hd]].
    + exists O. split; [lia|split; [reflexivity|exact Ht]].
Qed.

Lemma skip_white_stop cp len c cp' n : skip_white cp len = Some (c :: cp', S n) -> c <> SPACE.
Proof.
  revert cp. induction len as [|m IH]; intros cp H; [done|]. cbn in H. destruct cp as [|c0 cp0]; [done|].
  destruct (Z.eqb_spec c0 SPACE) as [|Hne]; [by eapply IH|]. by injection H as -> -> ->.
Qed.

Lemma skip_word_scans : scans skip_word.
Proof.
  intros cp len. revert cp. induction len as [|n IH]; intros cp Ht.
  - exists O. split; [lia|split; [reflexivity|exact Ht]].
  - destruct (text_cons cp _ Ht) as (c & cp' & -> & Ht'). cbn. destruct (_ || _).
    + exists O. split; [lia|split; [reflexivity|exact Ht]].
    + destruct (IH cp' (Ht' n eq_refl)) as (k & Hk & -> & Hd). exists (S k). split; [lia|split; [reflexivity|exact Hd]].
Qed.

Lemma skip_id_ok cp len : text cp len ->
  skip_id cp len = Some None \/ exists k, (k <= len)%nat /\ skip_id cp len = Some (Some (drop k cp, (len - k)%nat)) /\ text (drop k cp) (len - k).
Proof.
  revert cp. induction len as [|n IH]; intros cp Ht.
  - right. exists O. split; [lia|split; [reflexivity|exact Ht]].
  - destruct (text_cons cp _ Ht) as (c & cp' & -> & Ht'). cbn. destruct (c =? SPACE); [right; exists O; split; [lia|split; [reflexivity|exact Ht]]|].
    destruct (c =? NEWLINE); [by left|]. destruct (IH cp' (Ht' n eq_refl)) as [->|(k & Hk & -> & Hd)]; [by left|].
    right. exists (S k). split; [lia|split; [reflexivity|exact Hd]].
Qed.

Lemma begins_ok pat cp len : text cp len -> Forall (fun c => c <> 0) pat -> exists b, begins pat cp = Some b.
Proof.
  intros Ht Hp. assert (Ht0 : text cp 0) by (destruct Ht as (i & _ & Hi); exists i; split; [lia|done]). clear Ht. revert cp Ht0.
  induction Hp as [|p pat Hp _ IH]; intros cp Ht; cbn; [by eexists|]. destruct Ht as (i & _ & Hi). destruct cp as [|c cp]; [done|].
  destruct (Z.eqb_spec c p) as [->|]; [|by eexists]. apply IH. destruct i as [|i]; [by injection Hi|]. exists i. split; [lia|done].
Qed.

Lemma find_priv_ok names cp len :
  text cp len -> Forall (fun np => Forall (fun c => c <> 0) (fst np)) names -> exists r, find_priv names cp = Some r.
Proof.
  intros Ht. induction 1 as [|[name p] names Hn _ IH]; cbn; [by eexists|]. destruct (begins_ok name cp len Ht Hn) as [[] ->]; [by eexists|done].
Qed.

Lemma priv_names_ok : Forall (fun np => Forall (fun c => c <> 0) (fst np)) priv_names.
Proof. repeat constructor; vm_compute; done. Qed.

Lemma parse_privs_ok fuel : forall d cp len, (len < fuel)%nat -> text cp len -> exists r d', parse_privs fuel d cp len = Some (r, d').
Proof.
  induction fuel as [|fuel IH]; intros d cp len Hf Ht; [lia|]. cbn [parse_privs]. destruct len as [|n]; [by eexists _, _|].
  destruct cp as [|c cp']; [by destruct Ht as (i & _ & Hi)|]. destruct (c =? NEWLINE); [by eexists _, _|].
  destruct (skip_white_scans (c :: cp') (S n) Ht) as (k & Hk & Hs & Ht1). rewrite Hs. destruct (S n - k)%nat as [|m] eqn:Em; [by eexists _, _|].
  destruct (text_cons _ _ Ht1) as (c1 & cp1 & Hd & _). rewrite Hd in Hs, Ht1 |- *. pose proof (skip_white_stop _ _ _ _ _ Hs) as Hns.
  destruct ((c1 =? NEWLINE) || (c1 =? HASH)) eqn:Ec; [by eexists _, _|]. apply orb_false_elim in Ec as [Hnl _].
  destruct (find_priv_ok priv_names _ _ Ht1 priv_names_ok) as [[p|] ->]; [|by eexists _, _].
  destruct (skip_word_scans _ _ Ht1) as (j & Hj & Hw & Ht2). rewrite Hw. apply IH; [|done].
  cbn [skip_word] in Hw. rewrite Hnl, orb_false_r in Hw. destruct (Z.eqb_spec c1 SPACE); [done|].
  destruct j as [|j]; [|lia]. rewrite drop_0, Nat.sub_0_r in Hw. clear - Hw.
  exfalso. destruct (skip_word cp1 m) as [[x y]|] eqn:E; [|done]. injection Hw as -> ->. assert (H : forall n cp x y, skip_word cp n = Some (x, y) -> (y <= n)%nat).
  { clear. induction n as [|n IH]; intros cp x y; cbn; [intros [= _ <-]; lia|]. destruct cp; [done|]. destruct (_ || _); [intros [= _ <-]; lia|]. intros H%IH. lia. }
  apply H in E. lia.
Qed.

Section Write.
Context (simple_strtoul : list Z -> Z).

Lemma parse_sec_ok d cp len : text cp len -> exists r d', parse_sec simple_strtoul d cp len = Some (r, d').
Proof.
  intros Ht. unfold parse_sec. destruct (skip_white_scans cp len Ht) as (k & Hk & -> & Ht1). set (word := drop k cp) in *. set (n := (len - k)%nat) in *.
  destruct (text_cons word n Ht1) as (c & cp1 & Hw & _). assert (Hf : first_byte word = Some c) by (by rewrite Hw). rewrite Hf.
  destruct (c =? HASH); [by eexists _, _|]. destruct (skip_word_scans word n Ht1) as (j & Hj & -> & Ht2).
  destruct (begins_ok (bytes "clear") word n Ht1) as [b ->]; [repeat constructor; vm_compute; done|].
  rewrite (bool_decide_eq_false_2 (Some b = None)), andb_false_r by done. destruct (_ && _); [by eexists _, _|].
  destruct (skip_white_scans _ _ Ht2) as (i & Hi & -> & Ht3). unfold rule_type.
  destruct (find_priv_ok [(bytes "uid", DIT_UID); (bytes "gid", DIT_GID); (bytes "all", DIT_ALL)] word n Ht1) as [[t|] ->];
    [repeat constructor; vm_compute; done| |by eexists _, _].
  cbv zeta. destruct (_ || _).
  - destruct (skip_id_ok _ _ Ht3) as [->|(m & Hm & -> & Ht4)]; [by eexists _, _|]. apply parse_privs_ok; [lia|done].
  - apply parse_privs_ok; [lia|done].
Qed.

(** The table: 64 entries, of which [di_cnt] are in use. *)
Definition table_ok (s : security) : Prop := Z.of_nat (List.length (di_list s)) = MAX_SEC_LIST /\ 0 <= di_cnt s <= MAX_SEC_LIST.

Lemma write_line_ok s cp len : table_ok s -> text cp len -> exists s', write_line simple_strtoul s cp len = Some s' /\ table_ok s'.
Proof.
  intros [Hl Hc] Ht. unfold write_line, MAX_SEC_LIST in *. destruct (begins_ok (bytes "here=") cp len Ht) as [b Hb]; [repeat constructor; vm_compute; done|].
  assert (Hif : exists b', (if 6 <=? Z.of_nat len then begins (bytes "here=") cp else Some false) = Some b') by (destruct (_ <=? _); by eexists).
  destruct Hif as [[] ->]; [by eexists|]. destruct (Z.ltb_spec (di_cnt s) 64); [|by exists s].
  destruct (zlookup (di_list s) (di_cnt s)) as [d|] eqn:E.
  - destruct (parse_sec_ok d cp len Ht) as (r & d' & ->). eexists. split; [done|]. split; cbn; [by rewrite length_insert|]. unfold MAX_SEC_LIST. destruct r; lia.
  - exfalso. unfold zlookup in E. destruct (Z.leb_spec 0 (di_cnt s)), (Z.ltb_spec (di_cnt s) (Z.of_nat (List.length (di_list s)))); try lia. cbn in E.
    apply lookup_ge_None_1 in E. lia.
Qed.

Lemma next_line_ok cp len : text cp 0 ->
  next_line cp len = Some None \/ exists k, next_line cp len = Some (Some (drop (S k) cp, len - Z.of_nat (S k))) /\ text cp (S k).
Proof.
  intros (i & _ & Hi). revert len i Hi. induction cp as [|c cp IH]; intros len i Hi; [done|]. cbn.
  assert (Hnz : c =? 0 = false -> exists j, i = S j /\ cp !! j = Some 0).
  { intros Hc. destruct i as [|j]; [|by exists j]. injection Hi as ->. done. }
  destruct (Z.eqb_spec c NEWLINE) as [->|].
  - right. destruct (Hnz eq_refl) as (j & -> & Hj). exists O. split; [do 3 f_equal; lia|]. exists (S j). split; [lia|done].
  - destruct (c =? 0) eqn:E; [by left|]. destruct (Hnz eq_refl) as (j & -> & Hj). destruct (IH (len - 1) j Hj) as [->|(k & -> & (j' & Hj' & Hc))]; [by left|].
    right. exists (S k). split; [do 3 f_equal; lia|]. exists (S j'). split; [lia|done].
Qed.

(** Text behind the bytes that were written: the count may have passed 0. *)
Definition written (cp : list Z) (len : Z) : Prop := 0 <= len -> text cp (Z.to_nat len).

Lemma write_loop_ok fuel : forall s cp len, table_ok s -> written cp len -> Z.max len 0 < Z.of_nat fuel ->
  exists s', write_loop simple_strtoul fuel s cp len = Some s' /\ table_ok s'.
Proof.
  induction fuel as [|fuel IH]; intros s cp len Hs Ht Hf.
  - lia.
  - cbn [write_loop]. destruct (Z.leb_spec len 0); [by exists s|]. specialize (Ht ltac:(lia)).
    destruct (skip_white_scans cp _ Ht) as (k & Hk & -> & Ht1). destruct (Z.to_nat len - k)%nat as [|n] eqn:En; [by exists s|].
    destruct (text_cons _ _ Ht1) as (c & cp1 & Hd & Ht2). rewrite Hd in Ht1 |- *. cbn [first_byte head tail]. destruct (c =? NEWLINE).
    + apply IH; [done| |lia]. intros _. replace (Z.to_nat (Z.of_nat (S n) - 1)) with n by lia. by apply Ht2.
    + destruct (write_line_ok s _ _ Hs Ht1) as (s1 & -> & Hs1).
      destruct (next_line_ok (c :: cp1) (Z.of_nat (S n))) as [->|(j & -> & (i & Hi & Hc))]; [|by exists s1|].
      * destruct Ht1 as (i & _ & Hi). exists i. split; [lia|done].
      * apply IH; [done| |lia]. intros Hpos. destruct Ht1 as (i1 & Hi1 & Hc1). exists (i1 - S j)%nat. split; [lia|]. rewrite lookup_drop.
        by replace (S j + (i1 - S j))%nat with i1 by lia.
Qed.

(** C21: writing to the device always comes back with the number of bytes, and never touches an entry outside of the table of 64
    rules, provided a NUL ends the text at or behind the last byte; a writer that is not root changes nothing. *)
Theorem dtracedrv_write_total uid euid s buf count :
  table_ok s -> text buf count ->
  exists s', dtracedrv_write simple_strtoul uid euid s buf count = Some (Z.of_nat count, s') /\ table_ok s' /\
    (uid <> 0 -> euid <> 0 -> s' = s).
Proof.
  intros Hs Ht. unfold dtracedrv_write. destruct (Z.eqb_spec uid 0), (Z.eqb_spec euid 0); cbn [negb andb];
    try (destruct (write_loop_ok (S count) s buf (Z.of_nat count) Hs) as (s' & -> & Hs'); [intros _; by rewrite Nat2Z.id|lia|by exists s']).
  by exists s.
Qed.
End Write.

(** A table with nothing in it. *)
Definition no_rule : dsec_item_t := DsecItem 0 0 0 0.
Definition no_rules : security := Security (replicate 64 no_rule) 0 0.

(** The value of the decimal digits at the beginning. *)
Fixpoint read_digits (acc : Z) (cp : list Z) : Z :=
  match cp with
  | c :: cp => if (48 <=? c) && (c <=? 57) then read_digits (10 * acc + (c - 48)) cp else acc
  | [] => acc
  end.

Lemma dtracedrv_write_total_witness :
  exists s', dtracedrv_write (read_digits 0) 0 0 no_rules (bytes "uid 5 priv_user" ++ [0]) 15 = Some (15, s') /\ table_ok s' /\
    (0 <> 0 -> 0 <> 0 -> s' = no_rules).
Proof.
  apply (dtracedrv_write_total (read_digits 0) 0 0 no_rules (bytes "uid 5 priv_user" ++ [0]) 15).
  - split; [reflexivity|]. cbn. unfold MAX_SEC_LIST. lia.
  - exists 15%nat. split; [lia|reflexivity].
Defined.

(** Entries keep their old privileges: after a clear the first rule, for user 2, has also what user 1 had. *)
Example privileges_outlive_clear :
  match dtracedrv_write (read_digits 0) 0 0 no_rules
          (bytes "uid 1 priv_kernel" ++ [NEWLINE] ++ bytes "clear" ++ [NEWLINE] ++ bytes "uid 2 priv_user" ++ [NEWLINE; 0]) 40 with
  | Some (_, s) => (di_cnt s, head (di_list s))
  | None => (0, None)
  end = (1, Some (DsecItem 0 DIT_UID (Z.lor DTRACE_PRIV_KERNEL DTRACE_PRIV_USER) 2)).
Proof. vm_compute. reflexivity. Qed.

(** A full table cannot be cleared. *)
Example full_table_stays :
  match dtracedrv_write (read_digits 0) 0 0 (Security (replicate 64 (DsecItem 0 DIT_ALL 1 0)) 64 0) (bytes "clear" ++ [NEWLINE; 0]) 6 with
  | Some (_, s) => di_cnt s
  | None => 0
  end = 64.
Proof. vm_compute. reflexivity. Qed.

(** * Rules survive being shown and written back *)

Lemma digits_range fuel : forall n acc, 0 <= n -> Forall (fun c => 48 <= c <= 57) acc -> Forall (fun c => 48 <= c <= 57) (digits fuel n acc).
Proof.
  induction fuel as [|fuel IH]; intros n acc Hn Ha; cbn; [done|]. assert (Ha' : Forall (fun c => 48 <= c <= 57) (48 + n mod 10 :: acc)) by (constructor; [lia|done]).
  destruct (_ <? _); [done|]. apply IH; [lia|done].
Qed.

Lemma digits_length fuel : forall k n acc, 0 <= n < 10 ^ Z.of_nat k -> (0 < k)%nat -> (List.length (digits fuel n acc) <= k + List.length acc)%nat.
Proof.
  induction fuel as [|fuel IH]; intros k n acc Hn Hk; cbn [digits]; [lia|]. destruct (Z.ltb_spec n 10); [cbn; lia|].
  destruct k as [|[|k]]; [lia|cbn in Hn; lia|]. specialize (IH (S k) (n / 10) (48 + n mod 10 :: acc)). cbn [List.length] in IH.
  rewrite Nat2Z.inj_succ, Z.pow_succ_r in Hn by lia. assert (0 <= n / 10 < 10 ^ Z.of_nat (S k)) by lia. lia.
Qed.

Lemma digits_nonempty fuel : forall n acc, (List.length acc < List.length (digits (S fuel) n acc))%nat.
Proof.
  induction fuel as [|fuel IH]; intros n acc; cbn [digits]; destruct (_ <? _); cbn [List.length]; try lia.
  specialize (IH (n / 10) (48 + n mod 10 :: acc)). cbn [List.length digits] in *. lia.
Qed.

Lemma decimal_spec n : 0 <= n < 2 ^ 32 -> Forall (fun c => 48 <= c <= 57) (decimal n) /\ decimal n <> [] /\ (List.length (decimal n) <= 10)%nat.
Proof.
  intros Hn. split; [by apply digits_range; [lia|]|]. split.
  - intros E. pose proof (digits_nonempty 19 n []) as H. unfold decimal in E. rewrite E in H. cbn in H. lia.
  - unfold decimal. pose proof (digits_length 20 10 n []). cbn [List.length] in H. lia.
Qed.

(** A rule as the text can express it. *)
Definition rule_ok (d : dsec_item_t) : Prop :=
  di_flags d = 0 /\ 0 <= di_priv d < 16 /\
  ((di_type d = DIT_UID \/ di_type d = DIT_GID) /\ 0 <= di_id d < 2 ^ 32 /\ di_priv d <> 0 \/ di_type d = DIT_ALL /\ di_id d = 0).

Definition show_privs (p : Z) : list Z :=
  (if Z.land p DTRACE_PRIV_USER =? 0 then [] else bytes " priv_user") ++
  (if Z.land p DTRACE_PRIV_KERNEL =? 0 then [] else bytes " priv_kernel") ++
  (if Z.land p DTRACE_PRIV_PROC =? 0 then [] else bytes " priv_proc") ++
  (if Z.land p DTRACE_PRIV_OWNER =? 0 then [] else bytes " priv_owner").

Ltac each_priv p := let H := fresh in
  assert (H : p = 0 \/ p = 1 \/ p = 2 \/ p = 3 \/ p = 4 \/ p = 5 \/ p = 6 \/ p = 7 \/ p = 8 \/ p = 9 \/ p = 10 \/ p = 11 \/ p = 12 \/ p = 13 \/ p = 14 \/ p = 15) by lia;
  repeat (destruct H as [-> | H]); [..|subst p].

Lemma parse_show_privs p fl t i rest m :
  0 <= p < 16 ->
  parse_privs (S (List.length (show_privs p) + S m)) (DsecItem fl t 0 i) (show_privs p ++ NEWLINE :: rest) (List.length (show_privs p) + S m) =
  Some (TRUE, DsecItem fl t p i).
Proof. intros Hp. each_priv p; reflexivity. Qed.

(** Neither a newline nor the NUL. *)
Definition plain_byte (c : Z) : bool := negb (c =? NEWLINE) && negb (c =? 0).

Lemma show_privs_text p : 0 <= p < 16 -> forallb plain_byte (show_privs p) = true /\ (List.length (show_privs p) <= 43)%nat /\
  (p <> 0 -> exists x, show_privs p = SPACE :: x).
Proof. intros Hp. each_priv p; (split; [reflexivity|split; [by apply Nat.leb_le|intros Hnz; (done || (eexists; reflexivity))]]). Qed.

Lemma skip_id_digits ds rest m :
  Forall (fun c => 48 <= c <= 57) ds -> skip_id (ds ++ SPACE :: rest) (List.length ds + S m) = Some (Some (SPACE :: rest, S m)).
Proof.
  induction 1 as [|c ds Hc _ IH]; cbn [app List.length Nat.add skip_id]; [done|]. unfold SPACE, NEWLINE. destruct (Z.eqb_spec c 32), (Z.eqb_spec c 10); try lia. exact IH.
Qed.

(** The beginning of parse_sec() on a word of three letters that is not a comment. *)
Ltac parse_word t :=
  unfold parse_sec, rule_type; cbn [app List.length Nat.add skip_white first_byte head skip_word Z.eqb Pos.eqb SPACE NEWLINE HASH orb];
  match goal with |- context [begins (bytes "clear") ?l] => change (begins (bytes "clear") l) with (Some false) end;
  rewrite !bool_decide_eq_false_2, !andb_false_r by done;
  match goal with |- context [find_priv ?names ?l] => change (find_priv names l) with (Some (Some t)) end.

Section Reload.
Context (simple_strtoul : list Z -> Z).
(** Decimal numbers before a blank are understood. *)
Hypothesis strtoul_decimal : forall n rest, 0 <= n < 2 ^ 32 -> simple_strtoul (decimal n ++ SPACE :: rest) = n.

Lemma parse_show d rest m :
  rule_ok d -> parse_sec simple_strtoul no_rule (show_rule d ++ NEWLINE :: rest) (List.length (show_rule d) + S m) = Some (TRUE, d).
Proof.
  destruct d as [fl t p i]. intros (Hfl & Hp & Hc). cbn in Hfl, Hp, Hc. subst fl. unfold show_rule. cbn [di_type di_priv di_id]. fold (show_privs p).
  destruct Hc as [(Ht & Hi & Hp0)|[-> ->]].
  - destruct (decimal_spec i Hi) as (Hdig & Hne & _). destruct (show_privs_text p Hp) as (_ & _ & Hsp). destruct (Hsp Hp0) as [x Hx].
    pose proof (strtoul_decimal i (x ++ NEWLINE :: rest) Hi) as Hv. pose proof (skip_id_digits (decimal i) (x ++ NEWLINE :: rest) (List.length x + S m) Hdig) as Hid.
    pose proof (parse_show_privs p 0 t i rest m Hp) as Hpp. rewrite Hx in Hpp |- *. cbn [app List.length Nat.add] in Hpp.
    destruct (decimal i) as [|c ds] eqn:Ed; [done|]. apply Forall_cons_1 in Hdig as [Hc _].
    assert (Hcs : (c =? SPACE) = false) by (unfold SPACE; lia).
    assert (Hlen : forall k, (S (List.length ds + S (List.length x) + k) = List.length (c :: ds) + S (List.length x + k))%nat) by (intros k; cbn; lia).
    assert (Hu : u32 i = i) by (unfold u32; lia).
    destruct Ht as [-> | ->]; cbn [Z.eqb Pos.eqb DIT_UID DIT_GID DIT_ALL]; rewrite <- !app_assoc; rewrite !length_app; change (bytes " ") with [32].
    + change (bytes "uid ") with [117; 105; 100; 32]. parse_word DIT_UID. rewrite Hcs. cbn [Z.eqb Pos.eqb DIT_UID DIT_GID orb]. cbv zeta.
      cbn [app] in Hv, Hid. rewrite Hv, Hlen, Hid, Hu. exact Hpp.
    + change (bytes "gid ") with [103; 105; 100; 32]. parse_word DIT_GID. rewrite Hcs. cbn [Z.eqb Pos.eqb DIT_UID DIT_GID orb]. cbv zeta.
      cbn [app] in Hv, Hid. rewrite Hv, Hlen, Hid, Hu. exact Hpp.
  - cbn [Z.eqb Pos.eqb DIT_UID DIT_GID DIT_ALL]; each_priv p; rewrite <- !app_assoc; rewrite !length_app; change (bytes "all ") with [97; 108; 108; 32]; parse_word DIT_ALL; reflexivity.
Qed.

Lemma show_rule_text d : rule_ok d -> forallb plain_byte (show_rule d) = true /\ (List.length (show_rule d) <= 58)%nat /\
  exists c x, show_rule d = c :: x /\ (c = 117 \/ c = 103 \/ c = 97).
Proof.
  intros (_ & Hp & Hc). unfold show_rule. fold (show_privs (di_priv d)). destruct (show_privs_text _ Hp) as (Hpt & Hpl & _).
  assert (Hnum : (di_type d = DIT_UID \/ di_type d = DIT_GID) -> 0 <= di_id d < 2 ^ 32 -> forallb plain_byte (bytes " " ++ decimal (di_id d)) = true /\ (List.length (bytes " " ++ decimal (di_id d)) <= 11)%nat).
  { intros _ Hi. destruct (decimal_spec _ Hi) as (Hd & _ & Hl). split; [|rewrite length_app; change (List.length (bytes _)) with 1%nat; lia]. rewrite forallb_app. apply andb_true_intro. split; [done|]. apply forallb_forall. intros c Hin. rewrite List.Forall_forall in Hd.
    specialize (Hd c Hin). unfold plain_byte, NEWLINE. destruct (Z.eqb_spec c 10), (Z.eqb_spec c 0); (done || lia). }
  destruct Hc as [(Ht & Hi & _)|[-> _]].
  - destruct (Hnum Ht Hi) as [H1 H2]. set (num := bytes " " ++ decimal (di_id d)) in *. clearbody num. assert (Hall : di_type d =? DIT_ALL = false) by (destruct Ht as [-> | ->]; done). rewrite Hall.
    destruct Ht as [-> | ->]; cbn [Z.eqb Pos.eqb DIT_UID DIT_GID]; rewrite !forallb_app, Hpt, H1; (split; [done|]); (split; [rewrite !length_app; change (List.length (bytes _)) with 4%nat; lia|]);
      eexists _, _; (split; [reflexivity|]); vm_compute; tauto.
  - cbn [Z.eqb Pos.eqb DIT_UID DIT_GID DIT_ALL app]. rewrite forallb_app, Hpt. split; [done|]. split; [rewrite length_app; change (List.length (bytes _)) with 4%nat; lia|].
    eexists _, _. split; [reflexivity|]. vm_compute. tauto.
Qed.

Lemma next_line_show l r n : forallb plain_byte l = true -> next_line (l ++ NEWLINE :: r) n = Some (Some (r, n - Z.of_nat (List.length l) - 1)).
Proof.
  revert n. induction l as [|c l IH]; intros n Hl; cbn [app next_line List.length]; [do 3 f_equal; lia|].
  cbn in Hl. apply andb_prop in Hl as [Hc Hl]. unfold plain_byte in Hc. apply andb_prop in Hc as [Hn H0]. apply negb_true_iff in Hn, H0. rewrite Hn, H0, IH by done.
  do 3 f_equal. lia.
Qed.

(** The table as text. *)
Definition lines (rules : list dsec_item_t) : list Z := List.concat (map (fun d => show_rule d ++ [NEWLINE]) rules).

Lemma write_rules rules : forall fuel done k h junk,
  Forall rule_ok rules -> (List.length done + List.length rules + k = 64)%nat -> (List.length (lines rules) < fuel)%nat ->
  write_loop simple_strtoul fuel (Security (done ++ replicate (List.length rules + k) no_rule) (Z.of_nat (List.length done)) h) (lines rules ++ 0 :: junk)
    (Z.of_nat (List.length (lines rules))) =
  Some (Security (done ++ rules ++ replicate k no_rule) (Z.of_nat (List.length done + List.length rules)) h).
Proof.
  induction rules as [|d rules IH]; intros fuel done k h junk Hok Hlen Hf; (destruct fuel as [|fuel]; [lia|]).
  - cbn. by rewrite Nat.add_0_r.
  - apply Forall_cons_1 in Hok as [Hd Hok]. destruct (show_rule_text d Hd) as (Hpl & _ & c & x & Hx & Hc). cbn [lines map List.concat] in *. fold (lines rules) in *.
    rewrite length_app in Hf |- *. rewrite length_app in Hf |- *. cbn [List.length] in Hf |- *. rewrite <- !app_assoc. cbn [app].
    set (n := (List.length (show_rule d) + 1 + List.length (lines rules))%nat) in *. assert (Hn : (n = List.length (show_rule d) + S (List.length (lines rules)))%nat) by lia.
    cbn [write_loop]. destruct (Z.leb_spec (Z.of_nat n) 0); [lia|]. rewrite Nat2Z.id.
    assert (Hsw : skip_white (show_rule d ++ NEWLINE :: lines rules ++ 0 :: junk) n = Some (show_rule d ++ NEWLINE :: lines rules ++ 0 :: junk, n)).
    { destruct n as [|n']; [done|]. rewrite Hx. cbn [app skip_white]. unfold SPACE. destruct (Z.eqb_spec c 32); [lia|done]. }
    rewrite Hsw. destruct n as [|n'] eqn:En; [lia|]. rewrite <- En in *. replace (first_byte (show_rule d ++ NEWLINE :: lines rules ++ 0 :: junk)) with (Some c) by (by rewrite Hx).
    unfold NEWLINE at 1. destruct (Z.eqb_spec c 10); [lia|].
    assert (Hwl : write_line simple_strtoul (Security (done ++ replicate (S (List.length rules) + k) no_rule) (Z.of_nat (List.length done)) h) (show_rule d ++ NEWLINE :: lines rules ++ 0 :: junk) n =
      Some (Security ((done ++ [d]) ++ replicate (List.length rules + k) no_rule) (Z.of_nat (List.length (done ++ [d]))) h)).
    { unfold write_line. assert (Hb : begins (bytes "here=") (show_rule d ++ NEWLINE :: lines rules ++ 0 :: junk) = Some false).
      { rewrite Hx. change (bytes "here=") with [104; 101; 114; 101; 61]. cbn [app begins]. destruct (Z.eqb_spec c 104); [lia|done]. }
      rewrite Hb. assert (Hif : (if 6 <=? Z.of_nat n then Some false else Some false) = Some false) by (by destruct (_ <=? _)). rewrite Hif.
      cbn [di_cnt di_list dtrace_here]. unfold MAX_SEC_LIST. cbn [List.length] in Hlen. destruct (Z.ltb_spec (Z.of_nat (List.length done)) 64); [|lia].
      rewrite zlookup_nat, Nat2Z.id by lia. cbn [List.length Nat.add replicate]. rewrite list_lookup_middle by done.
      rewrite Hn, parse_show by done. f_equal. rewrite insert_app_r_alt, Nat.sub_diag by lia. cbn. rewrite <- app_assoc, length_app. cbn. f_equal. lia. }
    rewrite Hwl, next_line_show by done. replace (Z.of_nat n - Z.of_nat (List.length (show_rule d)) - 1) with (Z.of_nat (List.length (lines rules))) by lia.
    rewrite IH; [|done|rewrite length_app; cbn in *; lia|lia]. rewrite <- app_assoc, length_app. cbn. do 2 f_equal. lia.
Qed.


Lemma lines_length rules : Forall rule_ok rules -> (List.length (lines rules) <= 59 * List.length rules)%nat.
Proof.
  induction 1 as [|d rules Hd _ IH]; cbn [lines map List.concat List.length]; [lia|]. fold (lines rules). destruct (show_rule_text d Hd) as (_ & Hl & _).
  rewrite !length_app. cbn [List.length]. lia.
Qed.

Lemma show_rules_lines rules : forall len, Forall rule_ok rules -> Z.of_nat (List.length (lines rules)) < len ->
  show_rules rules len = (lines rules, Z.of_nat (List.length (lines rules))).
Proof.
  induction rules as [|d rules IH]; intros len Hok Hlen; [done|]. apply Forall_cons_1 in Hok as [Hd Hok].
  cbn [lines map List.concat show_rules] in *. fold (lines rules) in *. rewrite !length_app in Hlen |- *.
  assert (Ht : di_type d =? 0 = false) by (destruct Hd as (_ & _ & [[[-> | ->] _]|[-> _]]); done). rewrite Ht. destruct (Z.leb_spec len 0); [lia|]. cbn [orb]. cbv zeta.
  rewrite IH by (done || lia). rewrite take_ge by (rewrite length_app; cbn [List.length] in *; lia). f_equal. rewrite length_app. lia.
Qed.

End Reload.

Lemma read_digits_decimal n rest : 0 <= n < 2 ^ 32 -> read_digits 0 (decimal n ++ SPACE :: rest) = n.
Proof.
  intros Hn. assert (H : forall fuel m acc a, 0 <= m < 10 ^ Z.of_nat fuel -> (0 < fuel)%nat -> exists k, read_digits a (digits fuel m acc ++ SPACE :: rest) =
    read_digits (a * 10 ^ k + m) (acc ++ SPACE :: rest) /\ 0 <= k).
  { induction fuel as [|fuel IH]; intros m acc a Hm Hf; [lia|]. cbn [digits]. assert (Hd : forall b, read_digits b ((48 + m mod 10 :: acc) ++ SPACE :: rest) =
      read_digits (10 * b + m mod 10) (acc ++ SPACE :: rest)).
    { intros b. cbn [app read_digits]. destruct (Z.leb_spec 48 (48 + m mod 10)), (Z.leb_spec (48 + m mod 10) 57); try lia. cbn [andb]. f_equal. lia. }
    destruct (Z.ltb_spec m 10).
    - exists 1. rewrite Hd. split; [|lia]. f_equal. lia.
    - destruct fuel as [|fuel]; [cbn in Hm; lia|]. rewrite Nat2Z.inj_succ, Z.pow_succ_r in Hm by lia.
      destruct (IH (m / 10) (48 + m mod 10 :: acc) a) as (k & -> & Hk); [lia|lia|]. exists (Z.succ k). rewrite Hd. split; [|lia]. f_equal. rewrite Z.pow_succ_r by lia. lia. }
  unfold decimal. destruct (H 20%nat n [] 0) as (k & -> & _); [lia|lia|]. cbn. lia.
Qed.

Definition demo_rules : security := Security (DsecItem 0 DIT_UID 3 501 :: DsecItem 0 DIT_ALL 8 0 :: replicate 62 no_rule) 2 0.

