(* ===== verification/Enabling.v ===== *)
(** Enablings (driver/dtrace.c, dtrace_enabling_create() to dtrace_enabling_provide(), and
    dtrace_probe_enable()).

    An enabling is an array of ECB descriptions; the retained ones form a doubly linked list, are
    matched again when probes appear, and are counted per consumer.  Descriptions made by
    replication share predicates and action descriptions, which are counted. *)
From S2P Require Import Prelude StateProg Dif SafeMem DifValidate DifObject Aggregate Match Probes Dof Ecb EcbLayout EcbLists EcbHeld EcbLife Privilege.
From stdpp Require Import gmap list.
#[local] Open Scope Z_scope.

(** * Data *)

(** [xd_pred] and [xd_action] are the addresses of the predicate and of the first action description. *)
Record ecb_descr := EcbDescrAt { xd_probe : dtrace_probedesc; xd_pred : option Z; xd_action : option Z; xd_uarg : Z }.

(** [dten_desc] has the dten_ndesc descriptions in use; [dten_state] is the consumer of dten_vstate. *)
Record dtrace_enabling := Enabling {
  dten_desc : list ecb_descr;
  dten_maxdesc : Z;
  dten_state : Z;
  dten_probegen : Z;
  dten_current : option ecb_descr;
  dten_error : Z;
  dten_primed : bool;
  dten_prev : option Z;
  dten_next : option Z
}.

Definition set_desc (l : list ecb_descr) (max : Z) (en : dtrace_enabling) : dtrace_enabling :=
  Enabling l max (dten_state en) (dten_probegen en) (dten_current en) (dten_error en) (dten_primed en) (dten_prev en) (dten_next en).
Definition set_links (prev next : option Z) (en : dtrace_enabling) : dtrace_enabling :=
  Enabling (dten_desc en) (dten_maxdesc en) (dten_state en) (dten_probegen en) (dten_current en) (dten_error en) (dten_primed en) prev next.
Definition set_current (c : option ecb_descr) (err : Z) (en : dtrace_enabling) : dtrace_enabling :=
  Enabling (dten_desc en) (dten_maxdesc en) (dten_state en) (dten_probegen en) c err (dten_primed en) (dten_prev en) (dten_next en).
Definition set_probegen (gen : Z) (en : dtrace_enabling) : dtrace_enabling :=
  Enabling (dten_desc en) (dten_maxdesc en) (dten_state en) gen (dten_current en) (dten_error en) (dten_primed en) (dten_prev en) (dten_next en).
Definition set_primed (en : dtrace_enabling) : dtrace_enabling :=
  Enabling (dten_desc en) (dten_maxdesc en) (dten_state en) (dten_probegen en) (dten_current en) (dten_error en) true (dten_prev en) (dten_next en).

Definition dtrace_retain_max : Z := 1024.
Definition ENOENT : Z := 2.
Definition ENOSPC : Z := 28.

(** What providers are asked to provide. *)
Inductive provide_call :=
| FbtKernel | InstrKernel                              (** fbt_provide_kernel(), instr_provide_kernel() *)
| Provide (prv : Z) (desc : option dtrace_probedesc)
| ProvideModule (prv modp : Z).

Section Enablings.
Context {pool : Type} (kalloc : gset Z -> pool -> Z * pool).

(** The ECBs and what they use; the lists of action descriptions, each description with its reference count,
    under the address of the first; the enablings; the retained ones and how many each consumer has. *)
Record eworld := EWorld {
  x_w : @world pool;
  x_act : gmap Z (list (Z * act_desc));
  x_enab : gmap Z dtrace_enabling;
  dtrace_retained : option Z;
  dtrace_retained_gen : Z;
  x_nretained : gmap Z Z;
  x_calls : list provide_call
}.

Definition set_w (w : @world pool) (x : eworld) : eworld :=
  EWorld w (x_act x) (x_enab x) (dtrace_retained x) (dtrace_retained_gen x) (x_nretained x) (x_calls x).
Definition set_act (m : gmap Z (list (Z * act_desc))) (x : eworld) : eworld :=
  EWorld (x_w x) m (x_enab x) (dtrace_retained x) (dtrace_retained_gen x) (x_nretained x) (x_calls x).
Definition set_enab (m : gmap Z dtrace_enabling) (x : eworld) : eworld :=
  EWorld (x_w x) (x_act x) m (dtrace_retained x) (dtrace_retained_gen x) (x_nretained x) (x_calls x).
Definition set_retained (r : option Z) (x : eworld) : eworld :=
  EWorld (x_w x) (x_act x) (x_enab x) r (dtrace_retained_gen x) (x_nretained x) (x_calls x).
Definition set_gen (g : Z) (x : eworld) : eworld :=
  EWorld (x_w x) (x_act x) (x_enab x) (dtrace_retained x) g (x_nretained x) (x_calls x).
Definition set_nretained (m : gmap Z Z) (x : eworld) : eworld :=
  EWorld (x_w x) (x_act x) (x_enab x) (dtrace_retained x) (dtrace_retained_gen x) m (x_calls x).
Definition add_call (c : provide_call) (x : eworld) : eworld :=
  EWorld (x_w x) (x_act x) (x_enab x) (dtrace_retained x) (dtrace_retained_gen x) (x_nretained x) (x_calls x ++ [c]).

(** A program on the objects and ECBs of all consumers. *)
Definition liftw {A} (m : @prog pool A) : sprog eworld A :=
  fun x => match m (x_w x) with Some (a, w) => Some (a, set_w w x) | None => None end.

#[local] Open Scope sprog_scope.

Definition get_enab (a : Z) : sprog eworld dtrace_enabling := sgets (fun x => x_enab x !! a).
Definition put_enab (a : Z) (en : dtrace_enabling) : sprog eworld unit := sputs (fun x => set_enab (<[a := en]> (x_enab x)) x).

(** * Creation *)

Definition dtrace_enabling_create (s : Z) : sprog eworld Z := fun x =>
  let '(a, p) := kalloc (dom (x_enab x)) (w_pool (x_w x)) in
  Some (a, set_enab (<[a := Enabling [] 0 s 0 None 0 false None None]> (x_enab x)) (set_w (set_pool p (x_w x)) x)).

Definition dtrace_enabling_add (a : Z) (ecb : ecb_descr) : sprog eworld unit :=
  en <~ get_enab a;
  sassert ((dten_probegen en =? 0) && bool_decide (dten_next en = None) && bool_decide (dten_prev en = None)) ~;
  let ndesc := Z.of_nat (length (dten_desc en)) in
  if ndesc <? dten_maxdesc en then put_enab a (set_desc (dten_desc en ++ [ecb]) (dten_maxdesc en) en)
  else
    let maxdesc := if dten_maxdesc en =? 0 then 1 else s32 (Z.shiftl (dten_maxdesc en) 1) in
    sassert (ndesc <? maxdesc) ~;
    put_enab a (set_desc (dten_desc en ++ [ecb]) maxdesc en).

(** dtrace_actdesc_hold() of every description of a list. *)
Definition hold_acts (c : Z) : sprog eworld unit :=
  acts <~ sgets (fun x => x_act x !! c);
  sassert (forallb (fun na => 1 <=? fst na) acts) ~;
  sputs (fun x => set_act (<[c := map (fun na => (fst na + 1, snd na)) acts]> (x_act x)) x).

(** The references a new description with the predicate and the actions of an old one takes. *)
Definition hold_desc (ecb : ecb_descr) : sprog eworld unit :=
  (match xd_pred ecb with Some p => liftw (hold_pred p) | None => sret tt end) ~;
  match xd_action ecb with Some c => hold_acts c | None => sret tt end.

Definition dtrace_enabling_addlike (a : Z) (ecb : ecb_descr) (pd : dtrace_probedesc) : sprog eworld unit :=
  hold_desc ecb ~;
  dtrace_enabling_add a (EcbDescrAt pd (xd_pred ecb) (xd_action ecb) (xd_uarg ecb)).

(** * Destruction *)

(** dtrace_actdesc_release(); no result inside: the description was freed. *)
Definition release_act (s : Z) (na : Z * act_desc) : sprog eworld (option (Z * act_desc)) :=
  let '(n, ad) := na in
  sassert (1 <=? n) ~;
  if negb (n - 1 =? 0) then sret (Some (n - 1, ad))
  else
    (match ad_difo ad with Some d => liftw (Ecb.release_difo s d) | None => sret tt end) ~;
    sassert (negb (DTRACEACT_ISPRINTFLIKE (ad_kind ad)) ||
             match ad_arg ad with inr _ => true | inl v => (v =? 0) && (ad_kind ad =? DTRACEACT_PRINTA) end) ~;
    sret None.

(** The descriptions that are left. *)
Fixpoint release_acts (s : Z) (acts : list (Z * act_desc)) : sprog eworld (list (Z * act_desc)) :=
  match acts with
  | [] => sret []
  | na :: acts =>
      r <~ release_act s na;
      rest <~ release_acts s acts;
      sret (match r with Some na => na :: rest | None => rest end)
  end.

Definition destroy_desc (s : Z) (ep : ecb_descr) : sprog eworld unit :=
  (match xd_pred ep with Some p => liftw (Ecb.release_pred s p) | None => sret tt end) ~;
  match xd_action ep with
  | None => sret tt
  | Some c =>
      acts <~ sgets (fun x => x_act x !! c);
      rest <~ release_acts s acts;
      sputs (fun x => set_act (match rest with [] => delete c (x_act x) | _ => <[c := rest]> (x_act x) end) x)
  end.

Fixpoint destroy_descs (s : Z) (descs : list ecb_descr) : sprog eworld unit :=
  match descs with
  | [] => sret tt
  | ep :: descs => destroy_desc s ep ~; destroy_descs s descs
  end.

(** A retained enabling is taken off the list. *)
Definition unretain (a : Z) (en : dtrace_enabling) : sprog eworld unit :=
  ret <~ sgets (fun x => Some (dtrace_retained x));
  (if bool_decide (dten_prev en <> None) || bool_decide (dten_next en <> None) || bool_decide (ret = Some a) then
     n <~ sgets (fun x => x_nretained x !! dten_state en);
     sassert (0 <? n) ~;
     sputs (fun x => set_gen (u64 (dtrace_retained_gen x + 1)) (set_nretained (<[dten_state en := n - 1]> (x_nretained x)) x))
   else sret tt) ~;
  (match dten_prev en with
   | None =>
       if bool_decide (ret = Some a) then
         sputs (set_retained (dten_next en)) ~;
         match dten_next en with
         | Some b => eb <~ get_enab b; put_enab b (set_links None (dten_next eb) eb)
         | None => sret tt
         end
       else sret tt
   | Some b =>
       sassert (negb (bool_decide (ret = Some a)) && bool_decide (ret <> None)) ~;
       eb <~ get_enab b; put_enab b (set_links (dten_prev eb) (dten_next en) eb)
   end) ~;
  match dten_next en with
  | None => sret tt
  | Some b =>
      ret <~ sgets (fun x => Some (dtrace_retained x));
      sassert (bool_decide (ret <> None)) ~;
      eb <~ get_enab b; put_enab b (set_links (dten_prev en) (dten_next eb) eb)
  end.

Definition dtrace_enabling_destroy (a : Z) : sprog eworld unit :=
  en <~ get_enab a;
  destroy_descs (dten_state en) (dten_desc en) ~;
  unretain a en ~;
  sputs (fun x => set_enab (delete a (x_enab x)) x).

(** * Retained enablings *)

Definition dtrace_enabling_retain (a : Z) : sprog eworld Z :=
  en <~ get_enab a;
  sassert (bool_decide (dten_next en = None) && bool_decide (dten_prev en = None)) ~;
  n <~ sgets (fun x => x_nretained x !! dten_state en);
  if dtrace_retain_max <=? n then sret ENOSPC
  else
    sputs (fun x => set_nretained (<[dten_state en := n + 1]> (x_nretained x)) x) ~;
    ret <~ sgets (fun x => Some (dtrace_retained x));
    match ret with
    | None => sputs (set_retained (Some a)) ~; sret 0
    | Some b =>
        put_enab a (set_links (dten_prev en) (Some b) en) ~;
        eb <~ get_enab b; put_enab b (set_links (Some a) (dten_next eb) eb) ~;
        sputs (set_retained (Some a)) ~; sret 0
    end.

(** strcmp() on all four strings. *)
Definition same_desc (pd m : dtrace_probedesc) : bool :=
  bool_decide (dtpd_provider pd = dtpd_provider m) && bool_decide (dtpd_mod pd = dtpd_mod m) &&
  bool_decide (dtpd_func pd = dtpd_func m) && bool_decide (dtpd_name pd = dtpd_name m).

(** The copies of the descriptions of one enabling that match. *)
Fixpoint replicate_descs (new : Z) (descs : list ecb_descr) (m create : dtrace_probedesc) (found : bool) : sprog eworld bool :=
  match descs with
  | [] => sret found
  | ep :: descs =>
      if same_desc (xd_probe ep) m then
        dtrace_enabling_addlike new ep create ~; replicate_descs new descs m create true
      else replicate_descs new descs m create found
  end.

Fixpoint replicate_loop (fuel : nat) (s new : Z) (m create : dtrace_probedesc) (cur : option Z) (found : bool) : sprog eworld bool :=
  match cur with
  | None => sret found
  | Some c =>
      match fuel with
      | O => fun _ => None
      | S fuel =>
          en <~ get_enab c;
          found <~ (if dten_state en =? s then replicate_descs new (dten_desc en) m create found else sret found);
          en <~ get_enab c;
          replicate_loop fuel s new m create (dten_next en) found
      end
  end.

Definition short_strings (m : dtrace_probedesc) : bool :=
  (length (dtpd_provider m) <? DTRACE_PROVNAMELEN)%nat && (length (dtpd_mod m) <? DTRACE_MODNAMELEN)%nat &&
  (length (dtpd_func m) <? DTRACE_FUNCNAMELEN)%nat && (length (dtpd_name m) <? DTRACE_NAMELEN)%nat.

Definition dtrace_enabling_replicate (s : Z) (m create : dtrace_probedesc) : sprog eworld Z :=
  sassert (short_strings m) ~;
  new <~ dtrace_enabling_create s;
  ret <~ sgets (fun x => Some (dtrace_retained x));
  n <~ sgets (fun x => Some (size (x_enab x)));
  found <~ replicate_loop n s new m create ret false;
  err <~ (if found then dtrace_enabling_retain new else sret ENOENT);
  if err =? 0 then sret 0 else dtrace_enabling_destroy new ~; sret err.

Fixpoint retract_loop (fuel : nat) (s : Z) (cur : option Z) : sprog eworld unit :=
  match cur with
  | None => sret tt
  | Some c =>
      match fuel with
      | O => fun _ => None
      | S fuel =>
          en <~ get_enab c;
          (if dten_state en =? s then
             n <~ sgets (fun x => x_nretained x !! s);
             sassert (0 <? n) ~; dtrace_enabling_destroy c
           else sret tt) ~;
          retract_loop fuel s (dten_next en)
      end
  end.

Definition dtrace_enabling_retract (s : Z) : sprog eworld unit :=
  ret <~ sgets (fun x => Some (dtrace_retained x));
  n <~ sgets (fun x => Some (size (x_enab x)));
  retract_loop n s ret ~;
  n <~ sgets (fun x => x_nretained x !! s);
  sassert (n =? 0).

(** * Matching *)

(** The registry, the answers of the providers, the rules, and the credential of each consumer. *)
Context (r : registry) (dtps_enable : Z -> Z -> Z -> Z) (rules : list dsec_item_t) (cred_of : Z -> option cred_t).

(** The description as dtrace_ecb_create() reads it. *)
Definition ecb_desc_of (x : eworld) (ep : ecb_descr) : option ecb_desc :=
  match xd_action ep with
  | None => Some (EcbDescr [] (xd_pred ep) (xd_uarg ep))
  | Some c => match x_act x !! c with Some acts => Some (EcbDescr (map snd acts) (xd_pred ep) (xd_uarg ep)) | None => None end
  end.

(** Whether dtrace_ecb_create() adds actions, each of which leaves its result in dten_error. *)
Definition adds_actions (en : dtrace_enabling) (cached : option Z) (desc : ecb_desc) (probe : option Z) : bool :=
  negb (match probe with Some p => dtpr_gen (probe_at r p) <? dten_probegen en | None => false end) &&
  bool_decide (cached = None) && bool_decide (ed_action desc <> []).

(** dtrace_ecb_create_enable() for the current description of an enabling. *)
Definition create_enable (a : Z) (probe : option Z) : sprog eworld Z :=
  en <~ get_enab a;
  ep <~ sgets (fun _ => dten_current en);
  desc <~ sgets (fun x => ecb_desc_of x ep);
  cached <~ sgets (fun x => Some (w_cache (x_w x)));
  res <~ liftw (dtrace_ecb_create_enable kalloc r dtps_enable (dten_state en) (dten_probegen en) desc probe);
  let '(rc, err) := res in
  (if adds_actions en cached desc probe then put_enab a (set_current (dten_current en) err en) else sret tt) ~;
  sret rc.

(** The callback of dtrace_match(): no state once something has gone wrong. *)
Definition matched_enable (a : Z) (p : Z) (x : option eworld) : Z * option eworld :=
  match x with
  | None => (DTRACE_MATCH_DONE, None)
  | Some x => match create_enable a (Some p) x with Some (rc, x) => (rc, Some x) | None => (DTRACE_MATCH_DONE, None) end
  end.

Definition dtrace_probe_enable (desc : option dtrace_probedesc) (a : Z) : sprog eworld Z :=
  liftw (puts (set_cache None)) ~;
  match desc with
  | None => create_enable a None ~; sret 0
  | Some pd =>
      en <~ get_enab a;
      let '(priv, uid, zoneid) := dtrace_cred2priv rules (cred_of (dten_state en)) in
      fun x =>
        match dtrace_match (matched_enable a) r (dtrace_probekey pd) priv uid zoneid (Some x) with
        | Some (n, Some x) => Some (n, x)
        | _ => None
        end
  end.

(** The error, or the number of probes that matched. *)
Fixpoint match_descs (a : Z) (descs : list ecb_descr) (total : Z) : sprog eworld (Z + Z) :=
  match descs with
  | [] => sret (inr total)
  | ep :: descs =>
      en <~ get_enab a;
      put_enab a (set_current (Some ep) 0 en) ~;
      matched <~ dtrace_probe_enable (Some (xd_probe ep)) a;
      if matched <? 0 then sret (inl EBUSY)
      else
        en <~ get_enab a;
        if dten_error en =? 0 then match_descs a descs (s32 (total + matched)) else sret (inl (dten_error en))
  end.

Definition dtrace_enabling_match (a : Z) : sprog eworld (Z + Z) :=
  en <~ get_enab a;
  res <~ match_descs a (dten_desc en) 0;
  match res with
  | inl err => sret (inl err)
  | inr total => en <~ get_enab a; put_enab a (set_probegen (dtrace_probegen r) en) ~; sret (inr total)
  end.

(** Every consumer is in the global zone. *)
Fixpoint matchall_loop (fuel : nat) (cur : option Z) : sprog eworld unit :=
  match cur with
  | None => sret tt
  | Some c =>
      match fuel with
      | O => fun _ => None
      | S fuel => dtrace_enabling_match c ~; en <~ get_enab c; matchall_loop fuel (dten_next en)
      end
  end.

Definition dtrace_enabling_matchall : sprog eworld unit :=
  ret <~ sgets (fun x => Some (dtrace_retained x));
  n <~ sgets (fun x => Some (size (x_enab x)));
  matchall_loop n ret.

Fixpoint prime_descs (a : Z) (descs : list ecb_descr) : sprog eworld unit :=
  match descs with
  | [] => sret tt
  | ep :: descs =>
      en <~ get_enab a;
      put_enab a (set_current (Some ep) (dten_error en) en) ~;
      dtrace_probe_enable None a ~;
      prime_descs a descs
  end.

Fixpoint prime_loop (fuel : nat) (s : Z) (cur : option Z) : sprog eworld unit :=
  match cur with
  | None => sret tt
  | Some c =>
      match fuel with
      | O => fun _ => None
      | S fuel =>
          en <~ get_enab c;
          (if (dten_state en =? s) && negb (dten_primed en) then
             prime_descs c (dten_desc en) ~;
             en <~ get_enab c; put_enab c (set_primed en)
           else sret tt) ~;
          en <~ get_enab c;
          prime_loop fuel s (dten_next en)
      end
  end.

Definition dtrace_enabling_prime (s : Z) : sprog eworld unit :=
  ret <~ sgets (fun x => Some (dtrace_retained x));
  n <~ sgets (fun x => Some (size (x_enab x)));
  prime_loop n s ret.

(** * Providing probes *)

(** What happens during a call, by the provider and by others: the lock is not held.  The modules
    of the system, and whether each is live. *)
Context (react : provide_call -> eworld -> eworld) (modules : list (Z * bool)).

Definition call (c : provide_call) : sprog eworld unit := sputs (fun x => react c (add_call c x)).

Fixpoint calls (l : list provide_call) : sprog eworld unit :=
  match l with
  | [] => sret tt
  | c :: l => call c ~; calls l
  end.

(** The providers to ask: the one given, or all, of which there has to be one. *)
Definition providers (prv : option Z) : sprog eworld (list Z) :=
  match prv with
  | Some p => sret [p]
  | None => match dtrace_provider r with [] => fun _ => None | l => sret l end
  end.

Definition dtrace_probe_provide (desc : option dtrace_probedesc) (prv : option Z) : sprog eworld unit :=
  l <~ providers prv;
  calls [FbtKernel; InstrKernel] ~;
  calls (concat (map (fun p => Provide p desc :: map (fun m => ProvideModule p (fst m)) (filter (fun m => snd m = true) modules)) l)).

(** The descriptions of the retained enablings, from description [i] of [cur] on.  When the retained enablings
    have changed, the walk begins again, with the enabling it was at. *)
Fixpoint provide_loop (fuel : nat) (prv : Z) (cur : option Z) (i : nat) (gen : Z) : sprog eworld unit :=
  match cur with
  | None => sret tt
  | Some c =>
      match fuel with
      | O => fun _ => None
      | S fuel =>
          en <~ get_enab c;
          match dten_desc en !! i with
          | None => provide_loop fuel prv (dten_next en) 0 gen
          | Some ep =>
              call (Provide prv (Some (xd_probe ep))) ~;
              gen' <~ sgets (fun x => Some (dtrace_retained_gen x));
              if gen =? gen' then provide_loop fuel prv cur (S i) gen else provide_loop fuel prv cur 0 gen'
          end
      end
  end.

Fixpoint provide_all (fuel : nat) (l : list Z) : sprog eworld unit :=
  match l with
  | [] => sret tt
  | prv :: l =>
      ret <~ sgets (fun x => Some (dtrace_retained x));
      gen <~ sgets (fun x => Some (dtrace_retained_gen x));
      provide_loop fuel prv ret 0 gen ~; provide_all fuel l
  end.

Definition dtrace_enabling_provide (fuel : nat) (prv : option Z) : sprog eworld unit :=
  l <~ providers prv;
  provide_all fuel l ~;
  dtrace_probe_provide None prv.
End Enablings.
