(* ===== verification/EnablingLists.v ===== *)
(** Retained enablings: the doubly linked list, the counts per consumer and the references that
    descriptions hold, under dtrace_enabling_retain(), _destroy(), _replicate() and _retract().

    What descriptions hold is behind an interface, [DescStore]; the file EnablingRefs implements it. *)
From S2P Require Import Prelude StateProg Dif SafeMem DifValidate DifObject Aggregate Match Probes Dof Ecb EcbLayout EcbLists EcbHeld EcbLife Privilege Enabling.
From stdpp Require Import gmap list.
#[local] Open Scope Z_scope.

(** * Programs that return *)

Section Runs.
Context {pool : Type}.
Implicit Types x : @eworld pool.

Lemma bind_enab {B} a en (f : dtrace_enabling -> sprog eworld B) x Q : x_enab x !! a = Some en -> runs (f en) x Q -> runs (sbind (get_enab a) f) x Q.
Proof. intros H. by apply bind_gets. Qed.

Lemma bind_if {A B} (b : bool) (m1 m2 : sprog eworld A) (f : A -> sprog eworld B) x Q :
  (b = true -> runs (sbind m1 f) x Q) -> (b = false -> runs (sbind m2 f) x Q) -> runs (sbind (if b then m1 else m2) f) x Q.
Proof. intros H1 H2. destruct b; [by apply H1|by apply H2]. Qed.
End Runs.

(** * The list *)

Definition prev_of (L : list Z) (i : nat) : option Z := match i with O => None | S j => L !! j end.

(** The consumer of an enabling. *)
Definition state_of (m : gmap Z dtrace_enabling) (a : Z) : option Z := dten_state <$> m !! a.
Definition owned_by (m : gmap Z dtrace_enabling) (s : Z) (L : list Z) : list Z := filter (fun a => state_of m a = Some s) L.

(** The pointers form the list [L]. *)
Record linked (m : gmap Z dtrace_enabling) (ret : option Z) (L : list Z) : Prop := {
  lk_head : ret = head L;
  lk_nodup : NoDup L;
  lk_in : forall i a, L !! i = Some a -> exists en, m !! a = Some en /\ dten_prev en = prev_of L i /\ dten_next en = L !! S i;
  lk_off : forall a en, m !! a = Some en -> a ∉ L -> dten_prev en = None /\ dten_next en = None
}.

(** The counts: every consumer with an enabling has one. *)
Definition counts_ok (m : gmap Z dtrace_enabling) (L : list Z) (n : gmap Z Z) : Prop :=
  (forall s k, n !! s = Some k -> k = Z.of_nat (length (owned_by m s L))) /\
  (forall a en, m !! a = Some en -> is_Some (n !! dten_state en)).

(** Enablings without their links. *)
Definition unlinked_enab (en : dtrace_enabling) : dtrace_enabling := set_links None None en.

Definition same_but_links (m m' : gmap Z dtrace_enabling) : Prop := unlinked_enab <$> m' = unlinked_enab <$> m.

Lemma same_links_lookup m m' a : same_but_links m m' -> unlinked_enab <$> m' !! a = unlinked_enab <$> m !! a.
Proof. intros H. apply (f_equal (fun f => f !! a)) in H. by rewrite !lookup_fmap in H. Qed.

Lemma same_links_state m m' a : same_but_links m m' -> state_of m' a = state_of m a.
Proof.
  intros H%(same_links_lookup _ _ a). unfold state_of. destruct (m !! a) as [en|], (m' !! a) as [en'|]; cbn in *; try done. injection H as H. by f_equal.
Qed.

Lemma owned_same m m' s L : (forall a, a ∈ L -> state_of m' a = state_of m a) -> owned_by m' s L = owned_by m s L.
Proof.
  intros H. unfold owned_by. induction L as [|a L IH]; [done|]. rewrite !filter_cons, H by set_solver. rewrite IH; [done|]. intros b Hb. apply H. set_solver.
Qed.

Lemma state_insert_links m a en en' b : m !! a = Some en -> dten_state en' = dten_state en -> state_of (<[a := en']> m) b = state_of m b.
Proof.
  intros Ha Hs. unfold state_of. destruct (decide (b = a)) as [->|Hne]; [by rewrite lookup_insert_eq, Ha; cbn; rewrite Hs|by rewrite lookup_insert_ne].
Qed.

(** ** Insertion at the head *)

Definition push (m : gmap Z dtrace_enabling) (a : Z) (L : list Z) : gmap Z dtrace_enabling :=
  match head L with
  | None => m
  | Some b => alter (fun eb => set_links (Some a) (dten_next eb) eb) b (alter (fun en => set_links (dten_prev en) (Some b) en) a m)
  end.

Lemma same_links_alter m f a : (forall en, unlinked_enab (f en) = unlinked_enab en) -> same_but_links m (alter f a m).
Proof.
  intros H. unfold same_but_links. apply map_eq. intros b. rewrite !lookup_fmap. destruct (decide (b = a)) as [->|Hne].
  - rewrite lookup_alter_eq. destruct (m !! a); cbn; [by rewrite H|done].
  - by rewrite lookup_alter_ne.
Qed.

Lemma same_links_trans m1 m2 m3 : same_but_links m1 m2 -> same_but_links m2 m3 -> same_but_links m1 m3.
Proof. unfold same_but_links. congruence. Qed.

Lemma push_same m a L : same_but_links m (push m a L).
Proof. unfold push. destruct (head L); [|done]. eapply same_links_trans; apply same_links_alter; done. Qed.

Lemma push_linked m ret L a en :
  linked m ret L -> m !! a = Some en -> a ∉ L -> linked (push m a L) (Some a) (a :: L).
Proof.
  intros [Hh Hnd Hin Hoff] Ha Hni. destruct (Hoff a en Ha Hni) as [Hp Hn]. split.
  - done.
  - by constructor.
  - intros i y Hy. unfold push. destruct L as [|b L]; cbn [head].
    + destruct i as [|i]; [|by destruct i]. injection Hy as <-. by exists en.
    + assert (Hab : a <> b) by set_solver. destruct i as [|i].
      * injection Hy as <-. rewrite lookup_alter_ne by done. rewrite lookup_alter_eq, Ha. eexists. split; [done|]. split; [exact Hp|done].
      * cbn in Hy. assert (Hya : y <> a) by (intros ->; apply Hni; by eapply list_elem_of_lookup_2). destruct (Hin i y Hy) as (ey & Hey & Hpy & Hny).
        destruct i as [|i].
        -- injection Hy as <-. rewrite lookup_alter_eq, lookup_alter_ne by done. rewrite Hey. eexists. split; [done|]. by cbn in *.
        -- assert (Hyb : y <> b). { intros ->. apply NoDup_cons in Hnd as [Hnb _]. apply Hnb. by eapply list_elem_of_lookup_2. }
           rewrite !lookup_alter_ne by done. exists ey. by split_and!.
  - intros y ey Hy Hny. assert (Hold : m !! y = Some ey).
    { unfold push in Hy. destruct L as [|b L]; [done|]. cbn [head] in Hy. rewrite !lookup_alter_ne in Hy by set_solver. done. }
    apply (Hoff y ey Hold). set_solver.
Qed.

(** ** Removal *)

Definition unlink (m : gmap Z dtrace_enabling) (L1 : list Z) (a : Z) (L2 : list Z) : gmap Z dtrace_enabling :=
  let m := match last L1 with Some b => alter (fun eb => set_links (dten_prev eb) (head L2) eb) b m | None => m end in
  match head L2 with Some c => alter (fun ec => set_links (last L1) (dten_next ec) ec) c m | None => m end.

Lemma unlink_same m L1 a L2 : same_but_links m (unlink m L1 a L2).
Proof.
  assert (Hr : forall mm, same_but_links mm mm) by done. assert (H : forall mm f b, (forall en, unlinked_enab (f en) = unlinked_enab en) -> same_but_links m mm -> same_but_links m (alter f b mm)).
  { intros mm f b Hf Hm. eapply same_links_trans; [exact Hm|by apply same_links_alter]. }
  unfold unlink. destruct (head L2), (last L1); repeat (apply H; [done|]); apply Hr.
Qed.

Lemma last_lookup_len {A} (l : list A) : last l = match length l with O => None | S j => l !! j end.
Proof. rewrite last_lookup. destruct l; done. Qed.

Lemma unlink_linked m ret L1 a L2 :
  linked m ret (L1 ++ a :: L2) -> linked (delete a (unlink m L1 a L2)) (head (L1 ++ L2)) (L1 ++ L2).
Proof.
  intros [Hh Hnd Hin Hoff]. pose proof Hnd as Hnd'. apply NoDup_app in Hnd' as (Hnd1 & Hdis & Hnd2). apply NoDup_cons in Hnd2 as [Ha2 Hnd2].
  assert (Ha1 : a ∉ L1) by (intros H; apply (Hdis a H); set_solver).
  assert (Hlast : forall b, last L1 = Some b -> b ∈ L1) by (intros b Hb; by apply last_Some_elem_of).
  assert (Hhead : forall c, head L2 = Some c -> c ∈ L2) by (intros c Hc; destruct L2; [done|]; injection Hc as ->; set_solver).
  split; [done| | |].
  - apply NoDup_app. split_and!; [done| |done]. intros y Hy Hy2. apply (Hdis y Hy). set_solver.
  - intros i y Hy. destruct (decide (i < length L1)%nat) as [Hi|Hi].
    + assert (Hy1 : L1 !! i = Some y) by (by rewrite lookup_app_l in Hy). assert (Hyin : y ∈ L1) by (by eapply list_elem_of_lookup_2).
      destruct (Hin i y) as (ey & Hey & Hp & Hn); [by rewrite lookup_app_l|].
      assert (Hp' : dten_prev ey = prev_of (L1 ++ L2) i). { rewrite Hp. destruct i as [|j]; [done|]. cbn. by rewrite !lookup_app_l by lia. }
      rewrite lookup_delete_ne by set_solver. unfold unlink. assert (Hc : forall c, head L2 = Some c -> c <> y) by (intros c Hc ->; apply (Hdis y Hyin), elem_of_cons; right; by apply Hhead).
      assert (Hm : forall f (mm : gmap Z dtrace_enabling), (match head L2 with Some c => alter f c mm | None => mm end) !! y = mm !! y) by (intros f mm; destruct (head L2) as [c|] eqn:E; [rewrite lookup_alter_ne by (by apply Hc)|]; done).
      rewrite Hm. destruct (last L1) as [b|] eqn:El; [|by apply last_None in El as ->]. destruct (decide (b = y)) as [->|Hby].
      * rewrite lookup_alter_eq, Hey. eexists. split; [done|]. split; [exact Hp'|]. cbn. rewrite last_lookup in El.
        assert (Hil : i = pred (length L1)) by (eapply NoDup_lookup; [exact Hnd1|exact Hy1|exact El]). rewrite lookup_app_r by lia.
        replace (S i - length L1)%nat with O by lia. by destruct L2.
      * rewrite lookup_alter_ne by done. exists ey. split; [done|]. split; [exact Hp'|]. rewrite Hn.
        assert (Hil : (S i < length L1)%nat). { destruct (decide (S i = length L1)) as [E|]; [|lia]. rewrite last_lookup, <- E in El. cbn in El. congruence. }
        by rewrite !lookup_app_l by done.
    + assert (Hy2 : L2 !! (i - length L1)%nat = Some y) by (rewrite lookup_app_r in Hy by lia; done). assert (Hyin : y ∈ L2) by (by eapply list_elem_of_lookup_2).
      destruct (Hin (S i) y) as (ey & Hey & Hp & Hn). { rewrite lookup_app_r by lia. by replace (S i - length L1)%nat with (S (i - length L1)) by lia. }
      assert (Hn' : dten_next ey = (L1 ++ L2) !! S i). { rewrite Hn, !lookup_app_r by lia. by replace (S (S i) - length L1)%nat with (S (S i - length L1)) by lia. }
      rewrite lookup_delete_ne by (intros <-; done). unfold unlink.
      assert (Hm : forall f (mm : gmap Z dtrace_enabling), (match last L1 with Some c => alter f c mm | None => mm end) !! y = mm !! y).
      { intros f mm. destruct (last L1) as [c|] eqn:E; [|done]. rewrite lookup_alter_ne; [done|]. intros <-. apply (Hdis c (Hlast c eq_refl)). set_solver. }
      destruct (head L2) as [c|] eqn:Eh; [|by destruct L2]. destruct (decide (c = y)) as [->|Hcy].
      * rewrite lookup_alter_eq, Hm, Hey. eexists. split; [done|]. split; [|exact Hn']. cbn.
        assert (Hi0 : (i - length L1 = 0)%nat) by (eapply NoDup_lookup; [exact Hnd2|exact Hy2|by destruct L2]).
        rewrite last_lookup_len. replace (length L1) with i by lia. destruct i as [|j]; [done|]. cbn. by rewrite lookup_app_l by lia.
      * rewrite lookup_alter_ne, Hm by done. exists ey. split; [done|]. split; [|exact Hn']. rewrite Hp.
        destruct (i - length L1)%nat as [|k] eqn:Ek; [destruct L2; cbn in *; congruence|]. destruct i as [|j]; [lia|]. cbn. rewrite !lookup_app_r by lia.
        by replace (S j - length L1)%nat with (S (j - length L1)) by lia.
  - intros y ey Hy Hny. assert (Hya : y <> a) by (intros ->; by rewrite lookup_delete_eq in Hy). rewrite lookup_delete_ne in Hy by done.
    assert (Hold : m !! y = Some ey).
    { unfold unlink in Hy. assert (H1 : forall f (mm : gmap Z dtrace_enabling), (match last L1 with Some c => alter f c mm | None => mm end) !! y = mm !! y).
      { intros f mm. destruct (last L1) as [c|] eqn:E; [|done]. rewrite lookup_alter_ne; [done|]. intros <-. apply Hny, elem_of_app. left. by apply Hlast. }
      destruct (head L2) as [c|] eqn:Eh; [rewrite lookup_alter_ne in Hy by (intros <-; apply Hny, elem_of_app; right; by apply Hhead)|]; by rewrite H1 in Hy. }
    apply (Hoff y ey Hold). set_solver.
Qed.

(** * The descriptions *)

(** The descriptions of all enablings, each with its consumer. *)
Definition tagged (en : dtrace_enabling) : list (Z * ecb_descr) := map (pair (dten_state en)) (dten_desc en).
Definition all_descs (m : gmap Z dtrace_enabling) : list (Z * ecb_descr) := concat (map (fun ae => tagged (snd ae)) (map_to_list m)).

Lemma descs_insert m a en : m !! a = None -> all_descs (<[a := en]> m) ≡ₚ tagged en ++ all_descs m.
Proof.
  intros Ha. unfold all_descs. pose proof (map_to_list_insert m a en Ha) as Hp. apply (Permutation_map (fun ae => tagged (snd ae))) in Hp. rewrite Hp. done.
Qed.

Lemma descs_delete m a en : m !! a = Some en -> all_descs m ≡ₚ tagged en ++ all_descs (delete a m).
Proof. intros Ha. rewrite <- (insert_delete_id m a en) at 1 by done. apply descs_insert. apply lookup_delete_eq. Qed.

Lemma descs_replace m a en en' : m !! a = Some en -> tagged en' = tagged en -> all_descs (<[a := en']> m) ≡ₚ all_descs m.
Proof.
  intros Ha Ht. rewrite (descs_delete m a en Ha), <- Ht. rewrite <- (insert_delete_eq m a en'). apply descs_insert. apply lookup_delete_eq.
Qed.

Lemma descs_links m m' : same_but_links m m' -> all_descs m' = all_descs m.
Proof.
  intros H. assert (Hu : forall n : gmap Z dtrace_enabling, all_descs (unlinked_enab <$> n) = all_descs n).
  { intros n. unfold all_descs. rewrite map_to_list_fmap. induction (map_to_list n) as [|[a en] l IH]; cbn; [done|]. f_equal. exact IH. }
  by rewrite <- (Hu m'), H, Hu.
Qed.

(** Lists. *)

Lemma filter_same {A} (P Q : A -> Prop) `{!forall y, Decision (P y)} `{!forall y, Decision (Q y)} (l : list A) :
  (forall y, y ∈ l -> P y <-> Q y) -> filter P l = filter Q l.
Proof.
  induction l as [|a l IH]; intros Hpq; [done|]. rewrite !filter_cons, IH by (intros y Hy; apply Hpq; set_solver). pose proof (Hpq a ltac:(set_solver)).
  destruct (decide (P a)), (decide (Q a)); tauto.
Qed.

Lemma list_nil_elem {A} (l : list A) : (forall a, a ∉ l) -> l = [].
Proof. intros H. destruct l as [|a l]; [done|]. destruct (H a). set_solver. Qed.

Section Store.
Context {pool : Type}.
Implicit Types (w : @world pool) (x : @eworld pool) (D : list (Z * ecb_descr)).

(** What enablings need of predicates and action descriptions: [inv D w m] says that the descriptions [D] hold their references. *)
Class DescStore (inv : list (Z * ecb_descr) -> @world pool -> gmap Z (list (Z * act_desc)) -> Prop) : Prop := {
  ds_perm D D' w m : D ≡ₚ D' -> inv D w m -> inv D' w m;
  ds_pool D w m p : inv D w m -> inv D (set_pool p w) m;
  ds_hold D s ep ep' x : inv D (x_w x) (x_act x) -> (s, ep) ∈ D -> xd_pred ep' = xd_pred ep -> xd_action ep' = xd_action ep ->
    exists w' m', hold_desc ep x = Some (tt, set_act m' (set_w w' x)) /\ inv ((s, ep') :: D) w' m';
  ds_destroy D s ep x : inv ((s, ep) :: D) (x_w x) (x_act x) ->
    exists w' m', destroy_desc s ep x = Some (tt, set_act m' (set_w w' x)) /\ inv D w' m'
}.

Context (inv : list (Z * ecb_descr) -> @world pool -> gmap Z (list (Z * act_desc)) -> Prop) `{HS : !DescStore inv}.

Lemma destroy_descs_run s descs : forall D x, inv (map (pair s) descs ++ D) (x_w x) (x_act x) ->
  runs (destroy_descs s descs) x (fun _ x' => exists w' m', x' = set_act m' (set_w w' x) /\ inv D w' m').
Proof.
  induction descs as [|ep descs IH]; intros D x Hi; cbn [destroy_descs].
  - apply runs_ret. exists (x_w x), (x_act x). split; [by destruct x|done].
  - destruct (ds_destroy _ _ _ _ Hi) as (w1 & m1 & Hrun & Hi1).
    apply (runs_bind _ _ _ (fun _ x1 => x1 = set_act m1 (set_w w1 x))); [by exists tt; eexists|]. intros _ x1 ->.
    eapply runs_weaken; [by apply (IH D)|]. intros _ x2 (w2 & m2 & -> & Hi2). exists w2, m2. by split.
Qed.

(** The invariant: [L] is the list of the retained enablings. *)
Record sys (L : list Z) x : Prop := {
  sy_linked : linked (x_enab x) (dtrace_retained x) L;
  sy_counts : counts_ok (x_enab x) L (x_nretained x);
  sy_refs : inv (all_descs (x_enab x)) (x_w x) (x_act x)
}.

Lemma put_alter a en f x : x_enab x !! a = Some en -> set_enab (<[a := f en]> (x_enab x)) x = set_enab (alter f a (x_enab x)) x.
Proof.
  intros Ha. f_equal. apply map_eq. intros b. destruct (decide (b = a)) as [->|Hne]; [by rewrite lookup_insert_eq, lookup_alter_eq, Ha|by rewrite lookup_insert_ne, lookup_alter_ne].
Qed.

(** ** dtrace_enabling_retain() *)

Lemma counts_links m m' L n : same_but_links m m' -> counts_ok m L n -> counts_ok m' L n.
Proof.
  intros Hs [H1 H2]. split.
  - intros s k Hk. rewrite (H1 s k Hk). do 2 f_equal. symmetry. apply owned_same. intros a _. by apply same_links_state.
  - intros a en Ha. pose proof (same_links_state m m' a Hs) as Hst. unfold state_of in Hst. rewrite Ha in Hst. cbn in Hst.
    destruct (m !! a) as [en0|] eqn:E; [|done]. cbn in Hst. injection Hst as Hst. rewrite Hst. by apply (H2 a).
Qed.

Lemma counts_push m L n a en k :
  counts_ok m L n -> m !! a = Some en -> n !! dten_state en = Some k -> counts_ok m (a :: L) (<[dten_state en := k + 1]> n).
Proof.
  intros [H1 H2] Ha Hk. split.
  - intros s j Hj. unfold owned_by. rewrite filter_cons. assert (Hst : state_of m a = Some (dten_state en)) by (unfold state_of; by rewrite Ha).
    destruct (decide (state_of m a = Some s)) as [E|Hne]; [rewrite Hst in E; injection E as <-|rewrite Hst in Hne].
    + rewrite lookup_insert_eq in Hj. injection Hj as <-. rewrite (H1 _ _ Hk). unfold owned_by. cbn [length]. lia.
    + rewrite lookup_insert_ne in Hj by congruence. by apply H1.
  - intros b eb Hb. destruct (decide (dten_state eb = dten_state en)) as [->|Hne]; [rewrite lookup_insert_eq; by eexists|]. rewrite lookup_insert_ne by done. by apply (H2 b).
Qed.

(** The world after [a] was retained. *)
Definition retained_world (a : Z) (L : list Z) (s k : Z) x : eworld :=
  EWorld (x_w x) (x_act x) (push (x_enab x) a L) (Some a) (dtrace_retained_gen x) (<[s := k + 1]> (x_nretained x)) (x_calls x).

Lemma retain_run L a en k x :
  sys L x -> x_enab x !! a = Some en -> a ∉ L -> x_nretained x !! dten_state en = Some k ->
  runs (dtrace_enabling_retain a) x (fun err x' =>
    if dtrace_retain_max <=? k then err = ENOSPC /\ x' = x
    else err = 0 /\ x' = retained_world a L (dten_state en) k x /\ sys (a :: L) (retained_world a L (dten_state en) k x)).
Proof.
  intros [Hl Hc Hr] Ha Hni Hk. destruct (lk_off _ _ _ Hl a en Ha Hni) as [Hp Hn]. unfold dtrace_enabling_retain. apply (bind_enab a en); [done|].
  apply bind_assert; [by rewrite Hp, Hn|]. eapply bind_gets; [exact Hk|]. destruct (dtrace_retain_max <=? k); [by apply runs_ret|].
  apply bind_puts. eapply bind_gets; [reflexivity|]. cbn [dtrace_retained set_nretained].
  assert (Hsys : sys (a :: L) (retained_world a L (dten_state en) k x)).
  { split; cbn.
    - by eapply push_linked.
    - apply (counts_links (x_enab x)); [apply push_same|]. by apply counts_push.
    - by rewrite (descs_links (x_enab x) _ (push_same _ _ _)). }
  pose proof (lk_head _ _ _ Hl) as Hh. destruct L as [|b L]; cbn in Hh; rewrite Hh.
  - apply bind_puts. apply runs_ret. split; [done|]. split; [|exact Hsys]. done.
  - apply bind_puts. destruct (lk_in _ _ _ Hl 0 b eq_refl) as (eb & Heb & _). assert (Hab : b <> a) by set_solver.
    apply (bind_enab b eb); [cbn; by rewrite lookup_insert_ne|]. apply bind_puts. apply bind_puts. apply runs_ret. split; [done|]. split; [|exact Hsys].
    unfold retained_world, push. cbn [head]. unfold set_enab, set_retained, set_nretained. cbn. f_equal. apply map_eq. intros y. destruct (decide (y = b)) as [->|Hyb].
    + rewrite lookup_insert_eq, lookup_alter_eq, lookup_alter_ne by done. by rewrite Heb.
    + rewrite lookup_insert_ne, lookup_alter_ne by done. destruct (decide (y = a)) as [->|Hya]; [by rewrite lookup_insert_eq, lookup_alter_eq, Ha|by rewrite lookup_insert_ne, lookup_alter_ne].
Qed.


(** ** dtrace_enabling_destroy() *)

(** The world after [a] was taken off the list. *)
Definition unretained_world (L1 : list Z) (a : Z) (L2 : list Z) (s k : Z) x : eworld :=
  EWorld (x_w x) (x_act x) (unlink (x_enab x) L1 a L2) (head (L1 ++ L2)) (u64 (dtrace_retained_gen x + 1)) (<[s := k - 1]> (x_nretained x)) (x_calls x).

Lemma unretain_off L a en x : linked (x_enab x) (dtrace_retained x) L -> x_enab x !! a = Some en -> a ∉ L -> runs (unretain a en) x (fun _ x' => x' = x).
Proof.
  intros Hl Ha Hni. destruct (lk_off _ _ _ Hl a en Ha Hni) as [Hp Hn]. unfold unretain. eapply bind_gets; [reflexivity|]. rewrite Hp, Hn.
  assert (Hr : dtrace_retained x <> Some a). { rewrite (lk_head _ _ _ Hl). destruct L as [|b L]; [done|]. cbn. intros [= ->]. set_solver. }
  rewrite !(bool_decide_eq_false_2 (_ <> None)), !(bool_decide_eq_false_2 (dtrace_retained x = Some a)) by tauto. cbn [orb].
  apply bind_ret. apply bind_ret. by apply runs_ret.
Qed.

Lemma unretain_on L1 a L2 en k x :
  linked (x_enab x) (dtrace_retained x) (L1 ++ a :: L2) -> x_enab x !! a = Some en -> x_nretained x !! dten_state en = Some k -> 0 < k ->
  runs (unretain a en) x (fun _ x' => x' = unretained_world L1 a L2 (dten_state en) k x).
Proof.
  intros Hl Ha Hk Hpos. destruct (lk_in _ _ _ Hl (length L1) a (list_lookup_middle _ _ _ _ eq_refl)) as (en' & Hen & Hp & Hn). rewrite Ha in Hen. injection Hen as <-.
  assert (Hn' : dten_next en = head L2). { rewrite Hn, lookup_app_r by lia. replace (S (length L1) - length L1)%nat with 1%nat by lia. by destruct L2. }
  assert (Hp' : dten_prev en = last L1). { rewrite Hp, last_lookup_len. destruct (length L1) as [|j] eqn:E; [done|]. cbn. by rewrite lookup_app_l by lia. }
  pose proof (lk_nodup _ _ _ Hl) as Hnd. pose proof (lk_head _ _ _ Hl) as Hh.
  assert (Hin2 : forall c, head L2 = Some c -> exists ec, x_enab x !! c = Some ec /\ c <> a /\ c ∉ L1).
  { intros c Hc. destruct L2 as [|c' L2]; [done|]. injection Hc as ->. apply NoDup_app in Hnd as (_ & Hd & [Hca _]%NoDup_cons).
    destruct (lk_in _ _ _ Hl (S (length L1)) c) as (ec & Hec & _). { rewrite lookup_app_r by lia. by replace (S (length L1) - length L1)%nat with 1%nat by lia. }
    exists ec. split; [done|]. split; [set_solver|]. intros H. apply (Hd c H). set_solver. }
  unfold unretain. eapply bind_gets; [reflexivity|].
  assert (Hcond : bool_decide (dten_prev en <> None) || bool_decide (dten_next en <> None) || bool_decide (dtrace_retained x = Some a) = true).
  { rewrite Hp'. destruct (last L1) as [b|] eqn:El; [by rewrite bool_decide_eq_true_2|]. apply last_None in El as ->. cbn in Hh. rewrite Hh. rewrite (bool_decide_eq_true_2 (Some a = Some a)) by done. by rewrite orb_true_r. }
  rewrite Hcond. apply bind_assoc. eapply bind_gets; [exact Hk|]. apply bind_assoc. apply bind_assert; [by apply Z.ltb_lt|]. apply bind_puts.
  set (x1 := set_gen _ _). rewrite Hp', Hn'. destruct (last L1) as [b|] eqn:El.
  - assert (Hb : exists eb, x_enab x !! b = Some eb /\ b <> a).
    { pose proof El as El'. rewrite last_lookup in El'. destruct (lk_in _ _ _ Hl (pred (length L1)) b) as (eb & Heb & _). { rewrite lookup_app_l; [done|]. by apply lookup_lt_Some in El'. }
      exists eb. split; [done|]. intros ->. apply NoDup_app in Hnd as (_ & Hd & _). apply (Hd a); [by apply last_Some_elem_of|set_solver]. }
    destruct Hb as (eb & Heb & Hba). assert (Hret : dtrace_retained x <> Some a /\ dtrace_retained x <> None /\ head (L1 ++ L2) = dtrace_retained x).
    { rewrite Hh. destruct L1 as [|y L1]; [done|]. cbn. split_and!; try done. intros [= ->]. apply NoDup_app in Hnd as (_ & Hd & _). apply (Hd a); set_solver. }
    destruct Hret as (Hr1 & Hr2 & Hr3). apply bind_assoc. apply bind_assert; [rewrite bool_decide_eq_false_2, bool_decide_eq_true_2 by done; done|].
    apply bind_assoc. apply (bind_enab b eb); [done|]. apply bind_puts. cbn beta. destruct (head L2) as [c|] eqn:E2.
    + destruct (Hin2 c eq_refl) as (ec & Hec & Hca & Hc1). assert (Hcb : c <> b) by (intros ->; apply Hc1; by apply last_Some_elem_of).
      eapply bind_gets; [reflexivity|]. apply bind_assert; [by apply bool_decide_eq_true_2|]. apply (bind_enab c ec); [cbn; by rewrite lookup_insert_ne|]. 
      eexists _, _. split; [reflexivity|]. unfold unretained_world, unlink, x1, set_enab, set_gen, set_nretained. cbn. rewrite El, E2, Hr3. f_equal.
      apply map_eq. intros y. destruct (decide (y = c)) as [->|Hyc].
      * rewrite lookup_insert_eq, lookup_alter_eq, lookup_alter_ne by done. by rewrite Hec.
      * rewrite lookup_insert_ne, lookup_alter_ne by done. destruct (decide (y = b)) as [->|Hyb]; [by rewrite lookup_insert_eq, lookup_alter_eq, Heb|by rewrite lookup_insert_ne, lookup_alter_ne].
    + apply runs_ret. unfold unretained_world, unlink, x1, set_enab, set_gen, set_nretained. cbn. rewrite El, E2, Hr3. f_equal.
      apply map_eq. intros y. destruct (decide (y = b)) as [->|Hyb]; [by rewrite lookup_insert_eq, lookup_alter_eq, Heb|by rewrite lookup_insert_ne, lookup_alter_ne].
  - apply last_None in El as ->. cbn in Hh. rewrite Hh. rewrite (bool_decide_eq_true_2 (Some a = Some a)) by done. apply bind_assoc. apply bind_puts. destruct (head L2) as [c|] eqn:E2.
    + destruct (Hin2 c eq_refl) as (ec & Hec & Hca & _). apply bind_assoc. apply (bind_enab c ec); [done|]. apply bind_puts. eapply bind_gets; [reflexivity|].
      apply bind_assert; [by apply bool_decide_eq_true_2|]. eapply (bind_enab c); [cbn; apply lookup_insert_eq|]. eexists _, _. split; [reflexivity|].
      unfold unretained_world, unlink, x1, set_enab, set_gen, set_nretained, set_retained. cbn. rewrite E2. f_equal. rewrite insert_insert_eq.
      apply map_eq. intros y. destruct (decide (y = c)) as [->|Hyc]; [by rewrite lookup_insert_eq, lookup_alter_eq, Hec|by rewrite lookup_insert_ne, lookup_alter_ne].
    + apply bind_ret. apply runs_ret. unfold unretained_world, unlink, x1, set_gen, set_nretained, set_retained. cbn. by rewrite E2.
Qed.

Lemma counts_remove m m' L1 a L2 n en k :
  counts_ok m (L1 ++ a :: L2) n -> m !! a = Some en -> n !! dten_state en = Some k -> same_but_links m m' -> NoDup (L1 ++ a :: L2) ->
  counts_ok (delete a m') (L1 ++ L2) (<[dten_state en := k - 1]> n).
Proof.
  intros [H1 H2] Ha Hk Hs Hnd. apply NoDup_app in Hnd as (_ & Hd & [Hna _]%NoDup_cons).
  assert (Hst : forall y, y ∈ L1 ++ L2 -> state_of (delete a m') y = state_of m y).
  { intros y Hy. assert (y <> a). { intros ->. apply elem_of_app in Hy as [Hy|Hy]; [apply (Hd a Hy); set_solver|done]. }
    rewrite <- (same_links_state m m' y Hs). unfold state_of. by rewrite lookup_delete_ne. }
  assert (Hsa : state_of m a = Some (dten_state en)) by (unfold state_of; by rewrite Ha). split.
  - intros s j Hj. rewrite (owned_same m _ s (L1 ++ L2) Hst). pose proof (fun j => H1 s j) as Hc. unfold owned_by in *. rewrite filter_app in *. rewrite filter_cons in Hc.
    destruct (decide (state_of m a = Some s)) as [E|Hne].
    + rewrite Hsa in E. injection E as <-. rewrite lookup_insert_eq in Hj. injection Hj as <-. specialize (Hc k Hk). rewrite length_app in *. cbn [length] in Hc. lia.
    + rewrite lookup_insert_ne in Hj by congruence. by apply Hc.
  - intros b eb Hb. assert (b <> a) by (intros ->; by rewrite lookup_delete_eq in Hb). rewrite lookup_delete_ne in Hb by done.
    destruct (decide (dten_state eb = dten_state en)) as [->|]; [rewrite lookup_insert_eq; by eexists|]. rewrite lookup_insert_ne by done.
    pose proof (same_links_state m m' b Hs) as Hbs. unfold state_of in Hbs. rewrite Hb in Hbs. cbn in Hbs. destruct (m !! b) as [e0|] eqn:E; [|done]. cbn in Hbs. injection Hbs as ->. by apply (H2 b).
Qed.

Definition without (a : Z) (L : list Z) : list Z := filter (fun b => b <> a) L.

Lemma without_off a L : a ∉ L -> without a L = L.
Proof.
  intros Ha. unfold without. induction L as [|b L IH]; [done|]. rewrite filter_cons_True by (intros ->; apply Ha; set_solver). rewrite IH; [done|]. set_solver.
Qed.

Lemma without_split L1 a L2 : NoDup (L1 ++ a :: L2) -> without a (L1 ++ a :: L2) = L1 ++ L2.
Proof.
  intros (_ & Hd & [Hna _]%NoDup_cons)%NoDup_app. unfold without. rewrite filter_app, filter_cons_False by tauto. fold (without a L1) (without a L2).
  rewrite !without_off; [done|done|]. intros H. apply (Hd a H). set_solver.
Qed.

(** What destroying [a] leaves. *)
Record destroyed (a : Z) (L : list Z) x x' : Prop := {
  dd_sys : sys (without a L) x';
  dd_enab : forall b, unlinked_enab <$> x_enab x' !! b = if decide (b = a) then None else unlinked_enab <$> x_enab x !! b;
  dd_gen : dtrace_retained_gen x' = if decide (a ∈ L) then u64 (dtrace_retained_gen x + 1) else dtrace_retained_gen x;
  dd_counts : dom (x_nretained x') = dom (x_nretained x)
}.

Lemma owned_length_pos m s L a : a ∈ L -> state_of m a = Some s -> (0 < length (owned_by m s L))%nat.
Proof. intros Ha Hs. assert (H : a ∈ owned_by m s L) by (by apply list_elem_of_filter). destruct (owned_by m s L); [set_solver|cbn; lia]. Qed.

Lemma descs_delete_links m m' a : same_but_links m m' -> all_descs (delete a m') = all_descs (delete a m).
Proof. intros H. apply descs_links. unfold same_but_links in *. by rewrite !fmap_delete, H. Qed.

Lemma destroy_enabling_run L a en x :
  sys L x -> x_enab x !! a = Some en -> runs (dtrace_enabling_destroy a) x (fun _ x' => destroyed a L x x').
Proof.
  intros [Hl Hc Hr] Ha. unfold dtrace_enabling_destroy. apply (bind_enab a en); [done|].
  eapply runs_bind; [apply (destroy_descs_run (dten_state en) (dten_desc en) (all_descs (delete a (x_enab x))))|].
  { eapply ds_perm; [by apply descs_delete|exact Hr]. }
  intros _ x1 (w1 & m1 & -> & Hr1). destruct (decide (a ∈ L)) as [Hin|Hni].
  - pose proof Hin as Hin'. apply list_elem_of_split in Hin as (L1 & L2 & ->). destruct (proj2 Hc a en Ha) as [k Hk].
    assert (Hsa : state_of (x_enab x) a = Some (dten_state en)) by (unfold state_of; by rewrite Ha).
    assert (Hpos : 0 < k). { rewrite (proj1 Hc _ _ Hk). pose proof (owned_length_pos (x_enab x) _ (L1 ++ a :: L2) a Hin' Hsa). lia. }
    eapply runs_bind; [by apply (unretain_on L1 a L2 en k)|]. intros _ x2 ->. eexists _, _. split; [reflexivity|].
    pose proof (unlink_same (x_enab x) L1 a L2) as Hs. split; cbn.
    + rewrite without_split by apply Hl. split; cbn.
      * by eapply unlink_linked.
      * by eapply counts_remove; [exact Hc|..|apply Hl].
      * by rewrite (descs_delete_links _ _ a Hs).
    + intros b. destruct (decide (b = a)) as [->|Hne]; [by rewrite lookup_delete_eq|]. rewrite lookup_delete_ne by done. by apply same_links_lookup.
    + by rewrite decide_True.
    + rewrite dom_insert_L. apply elem_of_dom_2 in Hk. set_solver.
  - eapply runs_bind; [by apply (unretain_off L)|]. intros _ x2 ->. eexists _, _. split; [reflexivity|]. split; cbn.
    + rewrite without_off by done. destruct Hl as [H1 H2 H3 H4]. split; cbn.
      * split; [done|done| |].
        -- intros i y Hy. destruct (H3 i y Hy) as (ey & Hey & Hpn). exists ey. rewrite lookup_delete_ne; [done|]. intros <-. apply Hni. by eapply list_elem_of_lookup_2.
        -- intros y ey Hy. apply (H4 y). by apply lookup_delete_Some in Hy as [_ Hy].
      * destruct Hc as [Hc1 Hc2]. split.
        -- intros s k Hk. rewrite (Hc1 s k Hk). do 2 f_equal. symmetry. apply owned_same. intros y Hy. unfold state_of. rewrite lookup_delete_ne; [done|]. by intros <-.
        -- intros b eb Hb. apply (Hc2 b). by apply lookup_delete_Some in Hb as [_ Hb].
      * exact Hr1.
    + intros b. destruct (decide (b = a)) as [->|Hne]; [by rewrite lookup_delete_eq|]. by rewrite lookup_delete_ne.
    + by rewrite decide_False.
    + done.
Qed.


Lemma linked_size m ret L : linked m ret L -> (length L <= size m)%nat.
Proof.
  intros [_ Hnd Hin _]. rewrite <- (size_dom m). rewrite <- (size_list_to_set (C := gset Z) L Hnd). apply subseteq_size. intros a Ha%elem_of_list_to_set.
  apply list_elem_of_lookup in Ha as [i Hi]. destruct (Hin i a Hi) as (en & He & _). by apply elem_of_dom.
Qed.

(** ** dtrace_enabling_retract() *)

(** The enablings in [gone] are destroyed, the others keep all but their links. *)
Definition others_kept (gone : list Z) x x' : Prop :=
  forall b, unlinked_enab <$> x_enab x' !! b = if decide (b ∈ gone) then None else unlinked_enab <$> x_enab x !! b.

Lemma retract_loop_run s rest : forall fuel before x,
  sys (before ++ rest) x -> (length rest <= fuel)%nat -> (forall b, b ∈ before -> state_of (x_enab x) b <> Some s) ->
  runs (retract_loop fuel s (head rest)) x (fun _ x' =>
    sys (filter (fun b => state_of (x_enab x) b <> Some s) (before ++ rest)) x' /\ others_kept (owned_by (x_enab x) s (before ++ rest)) x x' /\
    dom (x_nretained x') = dom (x_nretained x)).
Proof.
  induction rest as [|c rest IH]; intros fuel before x Hs Hf Hb.
  - assert (Hall : filter (fun b => state_of (x_enab x) b <> Some s) before = before /\ owned_by (x_enab x) s before = []).
    { clear Hs. induction before as [|b before IHb]; [done|]. destruct IHb as [H1 H2]; [intros y Hy; apply Hb; set_solver|]. unfold owned_by in *.
      rewrite filter_cons_True, filter_cons_False by (try intros ?; apply (Hb b); (done || set_solver)). by rewrite H1, H2. }
    rewrite app_nil_r in Hs |- *. destruct Hall as [-> ->]. destruct fuel; (apply runs_ret; split; [done|]; split; [|done]; intros b; rewrite decide_False by set_solver; done).
  - destruct fuel as [|fuel]; [cbn in Hf; lia|]. cbn [retract_loop head]. pose proof (sy_linked _ _ Hs) as Hl.
    destruct (lk_in _ _ _ Hl (length before) c (list_lookup_middle _ _ _ _ eq_refl)) as (en & Hen & _ & Hn).
    assert (Hnext : dten_next en = head rest). { rewrite Hn, lookup_app_r by lia. replace (S (length before) - length before)%nat with 1%nat by lia. by destruct rest. }
    assert (Hsc : state_of (x_enab x) c = Some (dten_state en)) by (unfold state_of; by rewrite Hen).
    apply (bind_enab c en); [done|]. rewrite Hnext. destruct (Z.eqb_spec (dten_state en) s) as [He|Hne].
    + destruct (proj2 (sy_counts _ _ Hs) c en Hen) as [k Hk]. rewrite He in Hk, Hsc. apply bind_assoc. eapply bind_gets; [exact Hk|]. apply bind_assoc. apply bind_assert.
      { rewrite (proj1 (sy_counts _ _ Hs) _ _ Hk). pose proof (owned_length_pos (x_enab x) s (before ++ c :: rest) c ltac:(set_solver) Hsc). apply Z.ltb_lt. lia. }
      eapply runs_bind; [by apply (destroy_enabling_run (before ++ c :: rest) c en)|]. intros _ x1 [Hs1 He1 _ Hd1].
      rewrite without_split in Hs1 by apply Hl. assert (Hst : forall b, b <> c -> state_of (x_enab x1) b = state_of (x_enab x) b).
      { intros b Hbc. specialize (He1 b). rewrite decide_False in He1 by done. unfold state_of. destruct (x_enab x1 !! b) as [e1|], (x_enab x !! b) as [e2|]; cbn in *; try done. injection He1 as He1. by f_equal. }
      pose proof (lk_nodup _ _ _ Hl) as Hnd. apply NoDup_app in Hnd as (_ & Hdis & [Hnc _]%NoDup_cons).
      assert (Hne : forall b, b ∈ before ++ rest -> b <> c). { intros b Hin ->. apply elem_of_app in Hin as [Hin|Hin]; [apply (Hdis c Hin); set_solver|done]. }
      eapply runs_weaken; [apply (IH fuel before x1 Hs1); [cbn in Hf; lia|]|].
      { intros b Hin. rewrite Hst; [by apply Hb|]. apply Hne. set_solver. }
      intros _ x2 (Hs2 & Ho2 & Hd2). assert (Hfe : filter (fun b => state_of (x_enab x1) b <> Some s) (before ++ rest) = filter (fun b => state_of (x_enab x) b <> Some s) (before ++ c :: rest)).
      { rewrite !filter_app, filter_cons_False by tauto. f_equal; apply filter_same; intros b Hin; (rewrite Hst; [done|apply Hne; set_solver]). }
      assert (Hoe : owned_by (x_enab x) s (before ++ c :: rest) ≡ₚ c :: owned_by (x_enab x1) s (before ++ rest)).
      { rewrite (owned_same (x_enab x) (x_enab x1) s (before ++ rest)) by (intros b Hin; by apply Hst, Hne). unfold owned_by. rewrite !filter_app, filter_cons_True by done. by rewrite Permutation_middle. }
      rewrite Hfe in Hs2. split; [done|]. split; [|congruence]. intros b. rewrite Ho2, He1.
      destruct (decide (b ∈ owned_by (x_enab x1) s (before ++ rest))) as [Hin|Hnin]; [rewrite decide_True by (rewrite Hoe; set_solver); done|].
      destruct (decide (b = c)) as [->|Hbc]; [rewrite decide_True by (rewrite Hoe; set_solver); done|]. rewrite decide_False; [done|]. rewrite Hoe. set_solver.
    + apply bind_ret. specialize (IH fuel (before ++ [c]) x). rewrite <- app_assoc in IH. cbn [app] in IH. apply IH; [done|cbn in Hf; lia|].
      intros b Hin. apply elem_of_app in Hin as [Hin|Hin]; [by apply Hb|]. apply list_elem_of_singleton in Hin as ->. rewrite Hsc. congruence.
Qed.

Lemma retract_run s L x :
  sys L x -> is_Some (x_nretained x !! s) ->
  runs (dtrace_enabling_retract s) x (fun _ x' =>
    sys (filter (fun b => state_of (x_enab x) b <> Some s) L) x' /\ others_kept (owned_by (x_enab x) s L) x x' /\ x_nretained x' !! s = Some 0 /\ dom (x_nretained x') = dom (x_nretained x)).
Proof.
  intros Hs Hn. unfold dtrace_enabling_retract. do 2 (eapply bind_gets; [reflexivity|]). rewrite (lk_head _ _ _ (sy_linked _ _ Hs)).
  eapply runs_bind; [apply (retract_loop_run s L (size (x_enab x)) [] x Hs)|]; [by eapply linked_size, sy_linked|set_solver|].
  cbn [app]. intros _ x' (Hs' & Ho & Hd). assert (Hk : is_Some (x_nretained x' !! s)) by (apply elem_of_dom; rewrite Hd; by apply elem_of_dom).
  destruct Hk as [k Hk]. assert (Hk0 : k = 0).
  { rewrite (proj1 (sy_counts _ _ Hs') _ _ Hk). assert (Hnil : owned_by (x_enab x') s (filter (fun b => state_of (x_enab x) b <> Some s) L) = []); [|by rewrite Hnil].
    apply list_nil_elem. intros b [Hb1 [Hb2 Hb3]%list_elem_of_filter]%list_elem_of_filter. specialize (Ho b). destruct (decide (b ∈ owned_by (x_enab x) s L)) as [Hin|Hnin].
    - apply list_elem_of_filter in Hin as [Hin _]. done.
    - unfold state_of in *. destruct (x_enab x' !! b), (x_enab x !! b); cbn in *; try done. injection Ho as Ho. congruence. }
  subst k. eapply bind_gets; [exact Hk|]. exists tt, x'. split; [done|]. by split_and!.
Qed.
(** ** dtrace_enabling_replicate() *)

Context (kalloc : gset Z -> pool -> Z * pool) (Hfresh : forall used p, (kalloc used p).1 ∉ used).

(** The description that replication makes of [ep], and those it copies. *)
Definition like (create : dtrace_probedesc) (ep : ecb_descr) : ecb_descr := EcbDescrAt create (xd_pred ep) (xd_action ep) (xd_uarg ep).
Definition picked (md : dtrace_probedesc) (descs : list ecb_descr) : list ecb_descr := filter (fun ep => same_desc (xd_probe ep) md = true) descs.
Definition descs_of (m : gmap Z dtrace_enabling) (a : Z) : list ecb_descr := match m !! a with Some en => dten_desc en | None => [] end.
Definition copied (m : gmap Z dtrace_enabling) (s : Z) (md : dtrace_probedesc) (L : list Z) : list ecb_descr :=
  concat (map (fun a => picked md (descs_of m a)) (owned_by m s L)).

Definition new_enabling (s : Z) (descs : list ecb_descr) (max : Z) : dtrace_enabling := Enabling descs max s 0 None 0 false None None.

(** The enabling being made has the descriptions [acc], and nothing else has changed since [x0] but the references. *)
Definition growing (s new : Z) (acc : list ecb_descr) x0 x : Prop := exists w m max,
  x = set_enab (<[new := new_enabling s acc max]> (x_enab x0)) (set_act m (set_w w x0)) /\
  inv (map (pair s) acc ++ all_descs (x_enab x0)) w m /\
  Z.of_nat (length acc) <= max <= 2 * Z.of_nat (length acc).

Lemma add_run s new acc ecb x0 w m max :
  Z.of_nat (length acc) <= max <= 2 * Z.of_nat (length acc) -> Z.of_nat (length acc) < 2 ^ 29 ->
  inv ((s, ecb) :: map (pair s) acc ++ all_descs (x_enab x0)) w m ->
  runs (dtrace_enabling_add new ecb) (set_enab (<[new := new_enabling s acc max]> (x_enab x0)) (set_act m (set_w w x0))) (fun _ x' => growing s new (acc ++ [ecb]) x0 x').
Proof.
  intros Hm Hb Hi. unfold dtrace_enabling_add. eapply bind_enab; [cbn; apply lookup_insert_eq|]. apply bind_assert; [done|]. cbn [new_enabling dten_desc dten_maxdesc].
  assert (Hg : forall max', Z.of_nat (length acc) + 1 <= max' <= 2 * (Z.of_nat (length acc) + 1) ->
    growing s new (acc ++ [ecb]) x0 (set_enab (<[new := new_enabling s (acc ++ [ecb]) max']> (x_enab x0)) (set_act m (set_w w x0)))).
  { intros max' Hm'. exists w, m, max'. split; [done|]. split; [|rewrite length_app; cbn; lia]. eapply ds_perm; [|exact Hi]. rewrite map_app. cbn. solve_Permutation. }
  assert (Hput : forall max', set_enab (<[new := set_desc (acc ++ [ecb]) max' (new_enabling s acc max)]> (<[new := new_enabling s acc max]> (x_enab x0))) (set_act m (set_w w x0))
                 = set_enab (<[new := new_enabling s (acc ++ [ecb]) max']> (x_enab x0)) (set_act m (set_w w x0))).
  { intros max'. by rewrite insert_insert_eq. }
  destruct (Z.ltb_spec (Z.of_nat (length acc)) max) as [Hlt|Hge].
  - eexists _, _. split; [reflexivity|]. cbn [x_enab set_enab]. cbn. rewrite insert_insert_eq. apply (Hg max). lia.
  - assert (max = Z.of_nat (length acc)) as -> by lia.
    assert (Hmx : (if Z.of_nat (length acc) =? 0 then 1 else s32 (Z.shiftl (Z.of_nat (length acc)) 1)) = if Z.of_nat (length acc) =? 0 then 1 else 2 * Z.of_nat (length acc)).
    { destruct (_ =? 0); [done|]. rewrite Z.shiftl_mul_pow2 by lia. clear -Hb. word. }
    rewrite Hmx. apply bind_assert; [apply Z.ltb_lt; destruct (Z.eqb_spec (Z.of_nat (length acc)) 0); lia|].
    eexists _, _. split; [reflexivity|]. cbn. rewrite insert_insert_eq. apply Hg. destruct (Z.eqb_spec (Z.of_nat (length acc)) 0); lia.
Qed.

Lemma addlike_run s new acc ep create x0 x :
  growing s new acc x0 x -> (s, ep) ∈ all_descs (x_enab x0) -> Z.of_nat (length acc) < 2 ^ 29 ->
  runs (dtrace_enabling_addlike new ep create) x (fun _ x' => growing s new (acc ++ [like create ep]) x0 x').
Proof.
  intros (w & m & max & -> & Hi & Hm) Hin Hb. unfold dtrace_enabling_addlike.
  destruct (ds_hold _ s ep (like create ep) (set_enab (<[new := new_enabling s acc max]> (x_enab x0)) (set_act m (set_w w x0))) Hi) as (w' & m' & Hrun & Hi'); [set_solver|done|done|].
  apply (runs_bind _ _ _ (fun _ x1 => x1 = set_enab (<[new := new_enabling s acc max]> (x_enab x0)) (set_act m' (set_w w' x0)))).
  { eexists _, _. split; [exact Hrun|]. done. }
  intros _ x1 ->. by apply add_run.
Qed.

Lemma replicate_descs_run s new md create x0 descs : forall acc x,
  growing s new acc x0 x -> (forall ep, ep ∈ descs -> (s, ep) ∈ all_descs (x_enab x0)) -> Z.of_nat (length (acc ++ map (like create) (picked md descs))) <= 2 ^ 29 ->
  runs (replicate_descs new descs md create (bool_decide (acc <> []))) x (fun found x' =>
    growing s new (acc ++ map (like create) (picked md descs)) x0 x' /\ found = bool_decide (acc ++ map (like create) (picked md descs) <> [])).
Proof.
  induction descs as [|ep descs IH]; intros acc x Hg Hin Hb; cbn [replicate_descs picked].
  - apply runs_ret. cbn. by rewrite app_nil_r.
  - unfold picked in *. rewrite filter_cons in Hb |- *. destruct (same_desc (xd_probe ep) md) eqn:E.
    + rewrite decide_True in Hb |- * by done. cbn [map] in *. rewrite (cons_middle _ acc), app_assoc in Hb |- *.
      rewrite !length_app in Hb. cbn in Hb.
      eapply runs_bind; [apply (addlike_run s new acc ep create x0 x Hg); [apply Hin; set_solver|lia]|]. intros ? x1 Hg1. cbn beta in Hg1.
      pose proof (IH (acc ++ [like create ep]) x1 Hg1) as IH1. rewrite (bool_decide_eq_true_2 (acc ++ [like create ep] <> [])) in IH1 by (by destruct acc).
      apply IH1; [intros e He; apply Hin; set_solver|]. rewrite !length_app. cbn. lia.
    + rewrite decide_False in Hb |- * by done. apply IH; [done|intros e He; apply Hin; set_solver|done].
Qed.

Lemma all_descs_elem m a en ep : m !! a = Some en -> ep ∈ dten_desc en -> (dten_state en, ep) ∈ all_descs m.
Proof. intros Ha He. rewrite (descs_delete m a en Ha). apply elem_of_app. left. unfold tagged. apply list_elem_of_In, in_map, list_elem_of_In, He. Qed.

Lemma copied_cons m s md c L en :
  m !! c = Some en -> copied m s md (c :: L) = (if dten_state en =? s then picked md (dten_desc en) else []) ++ copied m s md L.
Proof.
  intros Hc. unfold copied, owned_by. assert (Hs : state_of m c = Some (dten_state en)) by (unfold state_of; by rewrite Hc).
  destruct (Z.eqb_spec (dten_state en) s) as [He|Hne].
  - rewrite filter_cons_True by congruence. cbn. unfold descs_of at 1. by rewrite Hc.
  - by rewrite filter_cons_False by congruence.
Qed.

Lemma replicate_loop_run s new md create x0 rest : forall fuel before acc x,
  linked (x_enab x0) (dtrace_retained x0) (before ++ rest) -> x_enab x0 !! new = None -> growing s new acc x0 x -> (length rest <= fuel)%nat ->
  Z.of_nat (length (acc ++ map (like create) (copied (x_enab x0) s md rest))) <= 2 ^ 29 ->
  runs (replicate_loop fuel s new md create (head rest) (bool_decide (acc <> []))) x (fun found x' =>
    growing s new (acc ++ map (like create) (copied (x_enab x0) s md rest)) x0 x' /\
    found = bool_decide (acc ++ map (like create) (copied (x_enab x0) s md rest) <> [])).
Proof.
  induction rest as [|c rest IH]; intros fuel before acc x Hl Hnew Hg Hf Hb.
  - destruct fuel; (apply runs_ret; cbn; by rewrite app_nil_r).
  - destruct fuel as [|fuel]; [cbn in Hf; lia|]. cbn [replicate_loop head].
    destruct (lk_in _ _ _ Hl (length before) c (list_lookup_middle _ _ _ _ eq_refl)) as (en & Hen & _ & Hn).
    assert (Hnext : dten_next en = head rest). { rewrite Hn, lookup_app_r by lia. replace (S (length before) - length before)%nat with 1%nat by lia. by destruct rest. }
    assert (Hcn : forall acc' x', growing s new acc' x0 x' -> x_enab x' !! c = Some en).
    { intros acc' x' (w & m & max & -> & _). cbn. rewrite lookup_insert_ne; [done|]. intros <-. congruence. }
    apply (bind_enab c en); [by eapply Hcn|]. rewrite (copied_cons _ _ _ _ _ en Hen), map_app, app_assoc in Hb |- *.
    assert (Hstep : runs (if dten_state en =? s then replicate_descs new (dten_desc en) md create (bool_decide (acc <> [])) else sret (bool_decide (acc <> []))) x
      (fun found x' => let acc' := acc ++ map (like create) (if dten_state en =? s then picked md (dten_desc en) else []) in growing s new acc' x0 x' /\ found = bool_decide (acc' <> []))).
    { destruct (Z.eqb_spec (dten_state en) s) as [He|Hne]; cbn zeta.
      - apply replicate_descs_run; [done| |rewrite !length_app in *; lia]. intros ep Hin. rewrite <- He. by eapply all_descs_elem.
      - apply runs_ret. cbn. by rewrite app_nil_r. }
    eapply runs_bind; [exact Hstep|]. cbn zeta. intros found x1 [Hg1 ->]. apply (bind_enab c en); [by eapply Hcn|]. rewrite Hnext.
    apply (IH fuel (before ++ [c])); [by rewrite <- app_assoc|done|done|cbn in Hf; lia|done].
Qed.

Lemma linked_insert m ret L a en :
  linked m ret L -> m !! a = None -> dten_prev en = None -> dten_next en = None -> linked (<[a := en]> m) ret L.
Proof.
  intros [H1 H2 H3 H4] Ha Hp Hn. split; [done|done| |].
  - intros i y Hy. destruct (H3 i y Hy) as (ey & Hey & He). exists ey. rewrite lookup_insert_ne; [done|]. intros <-. congruence.
  - intros y ey Hy Hni. destruct (decide (y = a)) as [->|Hne]; [rewrite lookup_insert_eq in Hy; by injection Hy as <-|]. rewrite lookup_insert_ne in Hy by done. by apply (H4 y).
Qed.

Lemma linked_fresh m ret L a : linked m ret L -> m !! a = None -> a ∉ L.
Proof. intros [_ _ H _] Ha Hin. apply list_elem_of_lookup in Hin as [i Hi]. destruct (H i a Hi) as (en & He & _). congruence. Qed.

Lemma counts_insert m L n a en :
  counts_ok m L n -> m !! a = None -> a ∉ L -> is_Some (n !! dten_state en) -> counts_ok (<[a := en]> m) L n.
Proof.
  intros [H1 H2] Ha Hni Hn. split.
  - intros s k Hk. rewrite (H1 s k Hk). do 2 f_equal. symmetry. apply owned_same. intros b Hb. unfold state_of. rewrite lookup_insert_ne; [done|]. by intros <-.
  - intros b eb Hb. destruct (decide (b = a)) as [->|Hne]; [rewrite lookup_insert_eq in Hb; by injection Hb as <-|]. rewrite lookup_insert_ne in Hb by done. by apply (H2 b).
Qed.

Lemma growing_sys s new acc L x0 x :
  sys L x0 -> x_enab x0 !! new = None -> is_Some (x_nretained x0 !! s) -> growing s new acc x0 x -> sys L x.
Proof.
  intros [Hl Hc _] Hnew Hn (w & m & max & -> & Hi & _). split; cbn.
  - by apply linked_insert.
  - apply counts_insert; [done|done|by eapply linked_fresh|done].
  - eapply ds_perm; [symmetry; by apply descs_insert|exact Hi].
Qed.

(** The other enablings keep all but their links. *)
Definition rest_kept (new : Z) x x' : Prop := forall b, b <> new -> unlinked_enab <$> x_enab x' !! b = unlinked_enab <$> x_enab x !! b.

(** All enablings do, and the same consumers are known. *)
Definition unchanged x x' : Prop := (forall b, unlinked_enab <$> x_enab x' !! b = unlinked_enab <$> x_enab x !! b) /\ dom (x_nretained x') = dom (x_nretained x).

(** What replication comes to. *)
Definition replicated (s : Z) (md create : dtrace_probedesc) (L : list Z) (k : Z) x (err : Z) x' : Prop :=
  let copies := map (like create) (copied (x_enab x) s md L) in
  if decide (copies = []) then err = ENOENT /\ sys L x' /\ unchanged x x'
  else if dtrace_retain_max <=? k then err = ENOSPC /\ sys L x' /\ unchanged x x'
  else err = 0 /\ exists new max en, x_enab x !! new = None /\ sys (new :: L) x' /\ rest_kept new x x' /\ dom (x_nretained x') = dom (x_nretained x) /\ x_enab x' !! new = Some en /\
         unlinked_enab en = new_enabling s copies max.

Lemma create_run s x :
  inv (all_descs (x_enab x)) (x_w x) (x_act x) ->
  runs (dtrace_enabling_create kalloc s) x (fun new x' => x_enab x !! new = None /\ growing s new [] x x').
Proof.
  intros Hi. unfold dtrace_enabling_create, runs. pose proof (Hfresh (dom (x_enab x)) (w_pool (x_w x))) as Hf. destruct (kalloc _ _) as [a p].
  eexists _, _. split; [reflexivity|]. split; [by apply not_elem_of_dom|]. exists (set_pool p (x_w x)), (x_act x), 0.
  split; [by destruct x|]. split; [by apply ds_pool|]. cbn. lia.
Qed.

Lemma undo_run s new acc L x0 x :
  sys L x -> x_enab x0 !! new = None -> new ∉ L -> growing s new acc x0 x ->
  runs (dtrace_enabling_destroy new) x (fun _ x' => sys L x' /\ unchanged x0 x').
Proof.
  intros Hs Hnew Hni (w & m & max & -> & _). eapply runs_weaken; [eapply destroy_enabling_run; [exact Hs|cbn; apply lookup_insert_eq]|].
  intros _ x' [Hs' He _ Hd]. rewrite without_off in Hs' by done. split; [done|]. split; [|exact Hd]. intros b. rewrite He. cbn. destruct (decide (b = new)) as [->|Hne]; [by rewrite Hnew|].
  by rewrite lookup_insert_ne.
Qed.

Lemma replicate_run s md create L k x :
  sys L x -> x_nretained x !! s = Some k -> short_strings md = true -> Z.of_nat (length (copied (x_enab x) s md L)) <= 2 ^ 29 ->
  runs (dtrace_enabling_replicate kalloc s md create) x (fun err x' => replicated s md create L k x err x').
Proof.
  intros Hs Hk Hsh Hb. unfold dtrace_enabling_replicate. apply bind_assert; [done|]. eapply runs_bind; [apply create_run, Hs|].
  intros new x1 [Hnew Hg]. pose proof (growing_sys s new [] L x x1 Hs Hnew (ex_intro _ k Hk) Hg) as Hs1. pose proof (linked_fresh _ _ _ _ (sy_linked _ _ Hs) Hnew) as Hni.
  do 2 (eapply bind_gets; [reflexivity|]). rewrite (lk_head _ _ _ (sy_linked _ _ Hs1)).
  eapply runs_bind; [apply (replicate_loop_run s new md create x L _ [] [] x1 (sy_linked _ _ Hs) Hnew Hg); [by eapply linked_size, sy_linked|]|].
  { cbn [app]. by rewrite length_map. }
  cbn [app]. intros found x2 [Hg2 ->]. unfold replicated. set (copies := map (like create) (copied (x_enab x) s md L)) in *.
  pose proof (growing_sys s new copies L x x2 Hs Hnew (ex_intro _ k Hk) Hg2) as Hs2. destruct (decide (copies = [])) as [Hnil|Hcons].
  - rewrite bool_decide_eq_false_2 by tauto. apply bind_ret. cbn. eapply runs_bind; [by eapply undo_run|]. intros ? x3 Hx3. by apply runs_ret.
  - rewrite bool_decide_eq_true_2 by done. destruct Hg2 as (w & m & max & -> & Hi & Hm).
    eapply runs_bind; [eapply (retain_run L new _ k); [exact Hs2|cbn; apply lookup_insert_eq|exact Hni|exact Hk]|].
    cbn [dten_state new_enabling]. intros err x3. destruct (dtrace_retain_max <=? k).
    + intros [-> ->]. cbn. eapply runs_bind; [eapply undo_run; [exact Hs2|exact Hnew|exact Hni|by exists w, m, max]|]. intros ? x3 Hx3. by apply runs_ret.
    + intros (-> & -> & Hs3). apply runs_ret. split; [done|]. set (x2 := set_enab _ _) in *.
      assert (He : forall b, unlinked_enab <$> push (x_enab x2) new L !! b = unlinked_enab <$> x_enab x2 !! b) by (intros b; apply same_links_lookup, push_same).
      assert (Hx2 : x_enab x2 !! new = Some (new_enabling s copies max)) by (cbn; apply lookup_insert_eq). pose proof (He new) as Hen. rewrite Hx2 in Hen. destruct (push (x_enab x2) new L !! new) as [en|] eqn:E; [|done].
      exists new, max, en. split; [done|]. split; [exact Hs3|]. split; [|split; [|split; [exact E|]]].
      * intros b Hbn. cbn [x_enab retained_world]. rewrite He. cbn. by rewrite lookup_insert_ne.
      * cbn. rewrite dom_insert_L. apply elem_of_dom_2 in Hk. set_solver.
      * by apply (inj Some) in Hen.
Qed.

End Store.
