(* ===== verification/EnablingRefs.v ===== *)
(** The references of ECB descriptions: predicates, action descriptions and DIF objects are freed exactly when
    their last description goes, and the interface [DescStore] holds of dtrace_enabling_addlike() and
    dtrace_enabling_destroy(). *)
From S2P Require Import Prelude StateProg Dif SafeMem DifValidate DifObject Aggregate Match Probes Dof Ecb EcbLayout EcbLists EcbHeld EcbLife Privilege Enabling EnablingLists.
From stdpp Require Import gmap list.
#[local] Open Scope Z_scope.

(** * Sums and occurrences *)

Fixpoint lsum {A} (f : A -> Z) (l : list A) : Z := match l with [] => 0 | a :: l => f a + lsum f l end.

#[export] Instance lsum_proper {A} (f : A -> Z) : Proper ((≡ₚ) ==> eq) (lsum f).
Proof. induction 1; cbn; lia. Qed.

Lemma lsum_app {A} (f : A -> Z) l l' : lsum f (l ++ l') = lsum f l + lsum f l'.
Proof. induction l; cbn; lia. Qed.

Lemma lsum_ext {A} (f g : A -> Z) l : (forall a, a ∈ l -> f a = g a) -> lsum f l = lsum g l.
Proof. induction l as [|a l IH]; intros H; cbn; [done|]. rewrite (H a), IH by (try (intros; apply H); set_solver). done. Qed.

Lemma lsum_nonneg {A} (f : A -> Z) l : (forall a, a ∈ l -> 0 <= f a) -> 0 <= lsum f l.
Proof. induction l as [|a l IH]; intros H; cbn; [done|]. pose proof (H a ltac:(set_solver)). pose proof (IH ltac:(intros; apply H; set_solver)). lia. Qed.

Definition occ (a : Z) (l : list Z) : Z := lsum (fun b => if decide (b = a) then 1 else 0) l.

Lemma occ_nonneg a l : 0 <= occ a l.
Proof. apply lsum_nonneg. intros b _. destruct (decide _); lia. Qed.

Lemma occ_pos a l : a ∈ l <-> 1 <= occ a l.
Proof.
  induction l as [|b l IH]; [cbn; split; [set_solver|lia]|]. rewrite elem_of_cons, IH. unfold occ. cbn. fold (occ a l). pose proof (occ_nonneg a l).
  destruct (decide (b = a)) as [->|Hne]; split; intros H'; try lia; intuition (congruence || lia).
Qed.

Lemma occ_app a l l' : occ a (l ++ l') = occ a l + occ a l'.
Proof. apply lsum_app. Qed.

(** A map with the value of a key changed, as a list. *)
Lemma map_insert_perm {A} (m : gmap Z A) k v v' : m !! k = Some v -> map_to_list m ≡ₚ (k, v) :: map_to_list (delete k m) /\ map_to_list (<[k := v']> m) ≡ₚ (k, v') :: map_to_list (delete k m).
Proof.
  intros Hk. split.
  - symmetry. by apply map_to_list_delete.
  - rewrite <- insert_delete_eq. apply map_to_list_insert. apply lookup_delete_eq.
Qed.

(** * DIF objects *)

Section Objects.
Context {pool : Type} (ncpu : Z) (owner : Z -> Z).
Implicit Types (w : @world pool) (x : @eworld pool) (R : list Z).

Definition vrefs_at (m : gmap Z dtrace_difo) (d : Z) : Z := match m !! d with Some dp => vtime_refs (dtdo_vartab dp) | None => 0 end.

(** What the DIF objects of consumer [s] take of its static variables. *)
Definition statics_used (m : gmap Z dtrace_difo) (s scope : Z) (n : nat) : Z :=
  lsum (fun ddp => if decide (owner (fst ddp) = s) then count scope n (dtdo_vartab (snd ddp)) else 0) (map_to_list m).

(** The references [R] to DIF objects are counted; [owner] gives the consumer whose variables a DIF object uses. *)
Record refs_ok R w : Prop := {
  ro_live : forall d, d ∈ R -> is_Some (w_difo w !! d) /\ is_Some (w_state w !! owner d);
  ro_count : forall d dp, w_difo w !! d = Some dp -> occ d R <= dtdo_refcnt dp /\ Forall var_shape (dtdo_vartab dp);
  ro_vtime : lsum (vrefs_at (w_difo w)) R <= (w_vtime w).1;
  ro_vars : forall s st, w_state w !! s = Some st -> vstate_wf ncpu (dts_vstate st) /\
    forall scope n, is_static scope -> statics_used (w_difo w) s scope n <= refs scope (dts_vstate st) n
}.

Lemma refs_perm R R' w : R ≡ₚ R' -> refs_ok R w -> refs_ok R' w.
Proof.
  intros Hp [H1 H2 H3 H4]. split; [|..|done].
  - intros d Hd. apply H1. by rewrite Hp.
  - intros d dp Hd. unfold occ. rewrite <- Hp. by apply H2.
  - by rewrite <- Hp.
Qed.

Lemma statics_same m d dp dp' s scope n : m !! d = Some dp -> dtdo_vartab dp' = dtdo_vartab dp -> statics_used (<[d := dp']> m) s scope n = statics_used m s scope n.
Proof. intros Hd Hv. unfold statics_used. destruct (map_insert_perm m d dp dp' Hd) as [-> ->]. cbn. by rewrite Hv. Qed.

Lemma statics_delete m d dp s scope n :
  m !! d = Some dp -> statics_used m s scope n = (if decide (owner d = s) then count scope n (dtdo_vartab dp) else 0) + statics_used (delete d m) s scope n.
Proof. intros Hd. unfold statics_used. destruct (map_insert_perm m d dp dp Hd) as [-> _]. done. Qed.

Lemma statics_nonneg m s scope n : 0 <= statics_used m s scope n.
Proof. apply lsum_nonneg. intros a _. destruct (decide _); [apply count_nonneg|lia]. Qed.

Lemma vrefs_insert m d dp dp' d' : m !! d = Some dp -> dtdo_vartab dp' = dtdo_vartab dp -> vrefs_at (<[d := dp']> m) d' = vrefs_at m d'.
Proof. intros Hd Hv. unfold vrefs_at. destruct (decide (d' = d)) as [->|Hne]; [by rewrite lookup_insert_eq, Hd, Hv|by rewrite lookup_insert_ne]. Qed.

Lemma vrefs_at_nonneg m d : 0 <= vrefs_at m d.
Proof. unfold vrefs_at. destruct (m !! d); [apply vtime_refs_nonneg|lia]. Qed.

(** A reference to a DIF object that others have too. *)
Lemma refs_drop R w d dp st b :
  refs_ok (d :: R) w -> w_difo w !! d = Some dp -> dtdo_refcnt dp <> 1 -> w_state w !! owner d = Some st ->
  refs_ok R (set_state (<[owner d := set_vstate (dts_vstate st) st]> (w_state w))
    (set_difo (<[d := set_refcnt (dtdo_refcnt dp - 1) dp]> (w_difo w)) ((w_vtime w).1 - vtime_refs (dtdo_vartab dp), b) w)).
Proof.
  intros [H1 H2 H3 H4] Hd Hn Hs. split; cbn.
  - intros d' Hd'. destruct (H1 d' ltac:(set_solver)) as [Ha Hb]. split; by apply lookup_insert_is_Some'; right.
  - intros d' dp' Hd'. destruct (decide (d' = d)) as [->|Hne].
    + rewrite lookup_insert_eq in Hd'. injection Hd' as <-. destruct (H2 d dp Hd) as [Ho Hv]. split; [|done]. unfold occ in Ho. cbn in Ho. rewrite decide_True in Ho by done. cbn. unfold occ. lia.
    + rewrite lookup_insert_ne in Hd' by done. destruct (H2 d' dp' Hd') as [Ho Hv]. split; [|done]. unfold occ in Ho. cbn in Ho. rewrite decide_False in Ho by done. unfold occ. lia.
  - rewrite (lsum_ext _ (vrefs_at (w_difo w))) by (intros d' _; by apply (vrefs_insert _ d dp)). cbn in H3. unfold vrefs_at at 1 in H3. rewrite Hd in H3. lia.
  - intros s st' Hst. assert (Hst' : exists st0, w_state w !! s = Some st0 /\ dts_vstate st' = dts_vstate st0).
    { destruct (decide (s = owner d)) as [->|Hne]; [rewrite lookup_insert_eq in Hst; injection Hst as <-; by exists st|]. rewrite lookup_insert_ne in Hst by done. by exists st'. }
    destruct Hst' as (st0 & Hst0 & ->). destruct (H4 s st0 Hst0) as [Hw Hu]. split; [done|]. intros scope n Hsc. rewrite (statics_same _ d dp) by done. by apply Hu.
Qed.

(** The last reference. *)
Lemma refs_last R w d dp st vs t :
  refs_ok (d :: R) w -> w_difo w !! d = Some dp -> dtdo_refcnt dp = 1 -> w_state w !! owner d = Some st ->
  vstate_wf ncpu vs -> (forall scope n, is_static scope -> refs scope vs n = refs scope (dts_vstate st) n - count scope n (dtdo_vartab dp)) ->
  t.1 = (w_vtime w).1 - vtime_refs (dtdo_vartab dp) ->
  refs_ok R (set_state (<[owner d := set_vstate vs st]> (w_state w)) (set_difo (delete d (w_difo w)) t w)).
Proof.
  intros [H1 H2 H3 H4] Hd Hn Hs Hwf Hr Ht. assert (HdR : d ∉ R).
  { intros Hin%occ_pos. destruct (H2 d dp Hd) as [Ho _]. unfold occ in Ho, Hin. cbn in Ho. rewrite decide_True in Ho by done. lia. }
  assert (Hsame : forall d', d' ∈ R -> d' <> d) by (intros d' Hin ->; done). split; cbn.
  - intros d' Hd'. destruct (H1 d' ltac:(set_solver)) as [Ha Hb]. split; [rewrite lookup_delete_ne; [done|]; intros <-; done|by apply lookup_insert_is_Some'; right].
  - intros d' dp' [Hne Hd']%lookup_delete_Some. destruct (H2 d' dp' Hd') as [Ho Hv]. split; [|done]. unfold occ in Ho. cbn in Ho. rewrite decide_False in Ho by done. unfold occ. lia.
  - rewrite (lsum_ext _ (vrefs_at (w_difo w))). { cbn in H3. unfold vrefs_at at 1 in H3. rewrite Hd in H3. lia. }
    intros d' Hd'. unfold vrefs_at. rewrite lookup_delete_ne; [done|]. intros <-. done.
  - intros s st' Hst. destruct (decide (s = owner d)) as [->|Hne].
    + rewrite lookup_insert_eq in Hst. injection Hst as <-. cbn. split; [done|]. intros scope n Hsc. rewrite Hr by done. destruct (H4 _ st Hs) as [_ Hu]. specialize (Hu scope n Hsc).
      rewrite (statics_delete _ d dp), decide_True in Hu by done. lia.
    + rewrite lookup_insert_ne in Hst by done. destruct (H4 s st' Hst) as [Hw Hu]. split; [done|]. intros scope n Hsc. specialize (Hu scope n Hsc).
      rewrite (statics_delete _ d dp), decide_False in Hu by done. done.
Qed.

Lemma release_ok R w d :
  refs_ok (d :: R) w -> exists w', release_difo (owner d) d w = Some (tt, w') /\ refs_ok R w' /\ w_pred w' = w_pred w.
Proof.
  intros Hok. destruct (ro_live _ _ Hok d ltac:(set_solver)) as [[dp Hd] [st Hs]]. destruct (ro_count _ _ Hok d dp Hd) as [Ho Hv].
  assert (Hpos : 1 <= dtdo_refcnt dp). { pose proof (proj1 (occ_pos d (d :: R)) ltac:(set_solver)). lia. }
  assert (Hvt : vtime_refs (dtdo_vartab dp) <= (w_vtime w).1).
  { pose proof (ro_vtime _ _ Hok) as H. cbn in H. unfold vrefs_at at 1 in H. rewrite Hd in H. pose proof (lsum_nonneg (vrefs_at (w_difo w)) R ltac:(intros; apply vrefs_at_nonneg)). lia. }
  destruct (ro_vars _ _ Hok _ st Hs) as [Hwf Hu]. unfold release_difo, pbind, get_difo, get_state, gets, puts, put_state. rewrite Hd. cbn. rewrite Hs.
  destruct (decide (dtdo_refcnt dp = 1)) as [H1|Hn1].
  - destruct (difo_release_spec ncpu dp (dts_vstate st) (w_vtime w) H1 Hv Hwf) as (vs' & t' & -> & Hwf' & Hr & Ht).
    { intros scope n Hsc. specialize (Hu scope n Hsc). rewrite (statics_delete _ d dp), decide_True in Hu by done. pose proof (statics_nonneg (delete d (w_difo w)) (owner d) scope n). lia. }
    { done. }
    eexists. split; [reflexivity|]. split; [|done]. by apply (refs_last R w d dp st).
  - unfold dtrace_difo_release. destruct (Z.eqb_spec (dtdo_refcnt dp) 0); [lia|]. destruct (release_vtime_ok (dtdo_vartab dp) (w_vtime w) Hvt) as (b & ->).
    cbn. destruct (Z.eqb_spec (dtdo_refcnt dp - 1) 0); [lia|]. eexists. split; [reflexivity|]. split; [|done]. exact (refs_drop R w d dp st b Hok Hd Hn1 Hs).
Qed.

(** * The store *)

Definition pred_refs (D : list (Z * ecb_descr)) : list Z := omap (fun se => xd_pred (snd se)) D.
Definition act_refs (D : list (Z * ecb_descr)) : list Z := omap (fun se => xd_action (snd se)) D.
Definition act_difos (acts : list (Z * act_desc)) : list Z := omap (fun na => ad_difo (snd na)) acts.
Definition preds_difos (m : gmap Z Ecb.predicate) : list Z := map (fun ppr => pr_difo (snd ppr)) (map_to_list m).
Definition store_difos (m : gmap Z (list (Z * act_desc))) : list Z := concat (map (fun ca => act_difos (snd ca)) (map_to_list m)).

(** The string of a printf-like action is there when the action is released. *)
Definition act_arg_ok (ad : act_desc) : bool :=
  negb (DTRACEACT_ISPRINTFLIKE (ad_kind ad)) || match ad_arg ad with inr _ => true | inl v => (v =? 0) && (ad_kind ad =? DTRACEACT_PRINTA) end.

(** Predicates may have more references than the descriptions', those of ECBs; action descriptions have no others. *)
Record preds_ok (D : list (Z * ecb_descr)) (m : gmap Z Ecb.predicate) : Prop := {
  po_live : forall p, p ∈ pred_refs D -> is_Some (m !! p);
  po_count : forall p pr, m !! p = Some pr -> 1 <= pr_refcnt pr /\ occ p (pred_refs D) <= pr_refcnt pr;
  po_owner : forall s ep p pr, (s, ep) ∈ D -> xd_pred ep = Some p -> m !! p = Some pr -> owner (pr_difo pr) = s
}.

Record acts_ok (D : list (Z * ecb_descr)) (m : gmap Z (list (Z * act_desc))) : Prop := {
  ao_live : forall c, c ∈ act_refs D -> is_Some (m !! c);
  ao_count : forall c acts, m !! c = Some acts -> acts <> [] /\ c ∈ act_refs D /\ Forall (fun na => fst na = occ c (act_refs D) /\ act_arg_ok (snd na) = true) acts;
  ao_owner : forall s ep c acts d, (s, ep) ∈ D -> xd_action ep = Some c -> m !! c = Some acts -> d ∈ act_difos acts -> owner d = s
}.

Record store_ok (D : list (Z * ecb_descr)) w (m : gmap Z (list (Z * act_desc))) : Prop := {
  st_preds : preds_ok D (w_pred w);
  st_acts : acts_ok D m;
  st_difos : refs_ok (preds_difos (w_pred w) ++ store_difos m) w
}.

Lemma store_perm D D' w m : D ≡ₚ D' -> store_ok D w m -> store_ok D' w m.
Proof.
  intros Hp [[H1 H2 H3] [H4 H5 H6] H7]. assert (Hpp : pred_refs D ≡ₚ pred_refs D') by (unfold pred_refs; by rewrite Hp). assert (Hpa : act_refs D ≡ₚ act_refs D') by (unfold act_refs; by rewrite Hp).
  assert (Ho : forall a l l', l ≡ₚ l' -> occ a l' = occ a l) by (intros a l l' Hl; unfold occ; by rewrite Hl). split; [| |done]; split.
  - intros p. rewrite <- Hpp. apply H1.
  - intros p pr. rewrite (Ho p _ _ Hpp). apply H2.
  - intros s ep p pr. rewrite <- Hp. apply H3.
  - intros c. rewrite <- Hpa. apply H4.
  - intros c acts. rewrite (Ho c _ _ Hpa), <- Hpa. apply H5.
  - intros s ep c acts d. rewrite <- Hp. apply H6.
Qed.

(** ** Holding *)

Lemma preds_hold D m p pr s ep ep' :
  preds_ok D m -> (s, ep) ∈ D -> xd_pred ep = Some p -> xd_pred ep' = Some p -> m !! p = Some pr ->
  preds_ok ((s, ep') :: D) (<[p := Pred (pr_difo pr) (pr_refcnt pr + 1) (pr_cacheid pr)]> m).
Proof.
  intros [H1 H2 H3] Hin Hep Hep' Hp. split.
  - intros q Hq. apply lookup_insert_is_Some'. unfold pred_refs in Hq. cbn in Hq. rewrite Hep' in Hq. apply elem_of_cons in Hq as [->|Hq]; [by left|right; by apply H1].
  - intros q qr Hq. unfold pred_refs. cbn. rewrite Hep'. unfold occ. cbn. fold (pred_refs D). destruct (decide (q = p)) as [->|Hne].
    + rewrite lookup_insert_eq in Hq. injection Hq as <-. cbn. rewrite decide_True by done. destruct (H2 p pr Hp) as [Ha Hb]. unfold occ in Hb. lia.
    + rewrite lookup_insert_ne in Hq by done. rewrite decide_False by done. destruct (H2 q qr Hq) as [Ha Hb]. unfold occ in Hb. lia.
  - intros s' e q qr He Heq Hq. assert (Hq' : exists qr0, m !! q = Some qr0 /\ pr_difo qr0 = pr_difo qr).
    { destruct (decide (q = p)) as [->|Hne]; [rewrite lookup_insert_eq in Hq; injection Hq as <-; by exists pr|]. rewrite lookup_insert_ne in Hq by done. by exists qr. }
    destruct Hq' as (qr0 & Hq0 & <-). apply elem_of_cons in He as [[= -> ->]|He]; [|by apply (H3 s' e q)]. apply (H3 s ep q qr0 Hin); congruence.
Qed.

Lemma preds_hold_none D m s ep' : preds_ok D m -> xd_pred ep' = None -> preds_ok ((s, ep') :: D) m.
Proof.
  intros [H1 H2 H3] Hn. assert (Hr : pred_refs ((s, ep') :: D) = pred_refs D) by (unfold pred_refs; cbn; by rewrite Hn). split; [by rewrite Hr|by rewrite Hr|].
  intros s' e q qr He. apply elem_of_cons in He as [[= -> ->]|He]; [congruence|]. by apply H3.
Qed.

Lemma acts_hold D m c acts s ep ep' :
  acts_ok D m -> (s, ep) ∈ D -> xd_action ep = Some c -> xd_action ep' = Some c -> m !! c = Some acts ->
  acts_ok ((s, ep') :: D) (<[c := map (fun na => (fst na + 1, snd na)) acts]> m).
Proof.
  intros [H1 H2 H3] Hin Hep Hep' Hc. assert (Hr : act_refs ((s, ep') :: D) = c :: act_refs D) by (unfold act_refs; cbn; by rewrite Hep'). split.
  - intros q. rewrite Hr, elem_of_cons. intros [->|Hq]; apply lookup_insert_is_Some'; [by left|right; by apply H1].
  - intros q qs Hq. rewrite Hr. unfold occ. cbn. destruct (decide (q = c)) as [->|Hne].
    + rewrite lookup_insert_eq in Hq. injection Hq as <-. destruct (H2 c acts Hc) as (Ha & Hb & Hf). split; [by destruct acts|]. split; [set_solver|]. rewrite decide_True by done.
      apply Forall_map. eapply Forall_impl; [exact Hf|]. intros na [Hn Hok]. split; [|done]. cbn. unfold occ in Hn. lia.
    + rewrite lookup_insert_ne in Hq by done. rewrite decide_False by done. destruct (H2 q qs Hq) as (Ha & Hb & Hf). split_and!; [done|set_solver|exact Hf].
  - intros s' e q qs d He Heq Hq Hd. assert (Hq' : exists q0, m !! q = Some q0 /\ d ∈ act_difos q0).
    { destruct (decide (q = c)) as [->|Hne]; [|rewrite lookup_insert_ne in Hq by done; by exists qs]. rewrite lookup_insert_eq in Hq. injection Hq as <-. exists acts. split; [done|].
      clear -Hd. induction acts as [|[n ad] acts IH]; [done|]. unfold act_difos in *. cbn in *. destruct (ad_difo ad); set_solver. }
    destruct Hq' as (q0 & Hq0 & Hd0). apply elem_of_cons in He as [[= -> ->]|He]; [|by apply (H3 s' e q q0)]. apply (H3 s ep q q0 d Hin); congruence.
Qed.

Lemma acts_hold_none D m s ep' : acts_ok D m -> xd_action ep' = None -> acts_ok ((s, ep') :: D) m.
Proof.
  intros [H1 H2 H3] Hn. assert (Hr : act_refs ((s, ep') :: D) = act_refs D) by (unfold act_refs; cbn; by rewrite Hn). split; [by rewrite Hr|by rewrite Hr|].
  intros s' e q qs d He. apply elem_of_cons in He as [[= -> ->]|He]; [congruence|]. by apply H3.
Qed.

Lemma pred_difos_insert (m : gmap Z Ecb.predicate) p pr pr' : m !! p = Some pr -> pr_difo pr' = pr_difo pr -> preds_difos (<[p := pr']> m) ≡ₚ preds_difos m.
Proof. intros Hp Hd. unfold preds_difos. destruct (map_insert_perm m p pr pr' Hp) as [-> ->]. cbn. by rewrite Hd. Qed.

Lemma pred_difos_delete (m : gmap Z Ecb.predicate) p pr : m !! p = Some pr -> preds_difos m ≡ₚ pr_difo pr :: preds_difos (delete p m).
Proof. intros Hp. unfold preds_difos. destruct (map_insert_perm m p pr pr Hp) as [-> _]. done. Qed.

Lemma store_difos_delete m c acts : m !! c = Some acts -> store_difos m ≡ₚ act_difos acts ++ store_difos (delete c m).
Proof. intros Hc. unfold store_difos. destruct (map_insert_perm m c acts acts Hc) as [Hp _]. apply (Permutation_map (fun ca => act_difos (snd ca))) in Hp. by rewrite Hp. Qed.

Lemma store_difos_insert m c acts acts' : m !! c = Some acts -> act_difos acts' = act_difos acts -> store_difos (<[c := acts']> m) ≡ₚ store_difos m.
Proof.
  intros Hc Hd. rewrite (store_difos_delete m c acts Hc), <- Hd. unfold store_difos. destruct (map_insert_perm m c acts acts' Hc) as [_ Hp].
  apply (Permutation_map (fun ca => act_difos (snd ca))) in Hp. by rewrite Hp.
Qed.

Lemma act_difos_map f acts : act_difos (map (fun na => (f (fst na), snd na)) acts) = act_difos acts.
Proof. unfold act_difos. induction acts as [|[n ad] acts IH]; [done|]. cbn. by rewrite IH. Qed.

Lemma refs_set_pred R w (m : gmap Z Ecb.predicate) : refs_ok R w -> refs_ok R (set_pred m w).
Proof. intros [H1 H2 H3 H4]. by split. Qed.

Lemma store_hold D s ep ep' x :
  store_ok D (x_w x) (x_act x) -> (s, ep) ∈ D -> xd_pred ep' = xd_pred ep -> xd_action ep' = xd_action ep ->
  exists w' m', hold_desc ep x = Some (tt, set_act m' (set_w w' x)) /\ store_ok ((s, ep') :: D) w' m'.
Proof.
  intros [Hp Ha Hd] Hin Hep Hea. set (R := preds_difos (w_pred (x_w x)) ++ store_difos (x_act x)) in *.
  assert (Hpred : exists mp, preds_ok ((s, ep') :: D) mp /\ preds_difos mp ≡ₚ preds_difos (w_pred (x_w x)) /\
    (match xd_pred ep with Some p => liftw (hold_pred p) | None => sret tt end) x = Some (tt, set_w (set_pred mp (x_w x)) x)).
  { destruct (xd_pred ep) as [p|] eqn:E; [|exists (w_pred (x_w x)); split; [by apply preds_hold_none|]; split; [done|]; by destruct x as [[] ? ? ? ? ? ?]].
    destruct (po_live _ _ Hp p) as [pr Hpr]. { unfold pred_refs. apply list_elem_of_omap. by exists (s, ep). }
    exists (<[p := Pred (pr_difo pr) (pr_refcnt pr + 1) (pr_cacheid pr)]> (w_pred (x_w x))). split; [by apply (preds_hold D _ p pr s ep)|]. split; [by eapply pred_difos_insert|].
    destruct (po_count _ _ Hp p pr Hpr) as [Hr _]. assert (HdR : pr_difo pr ∈ R).
    { unfold R. rewrite (pred_difos_delete _ p pr Hpr). set_solver. }
    destruct (ro_live _ _ Hd _ HdR) as [[dp Hdp] _]. destruct (ro_count _ _ Hd _ dp Hdp) as [Ho _]. pose proof (proj1 (occ_pos _ _) HdR).
    unfold liftw, hold_pred, pbind, get_pred, get_difo, gets, puts, assert. rewrite Hpr, Hdp. destruct (Z.eqb_spec (dtdo_refcnt dp) 0); [lia|]. destruct (Z.ltb_spec 0 (pr_refcnt pr)); [|lia]. done. }
  destruct Hpred as (mp & Hmp & Hdp & Hrun). unfold hold_desc, sbind. rewrite Hrun. destruct (xd_action ep) as [c|] eqn:E.
  - destruct (ao_live _ _ Ha c) as [acts Hc]. { unfold act_refs. apply list_elem_of_omap. by exists (s, ep). }
    destruct (ao_count _ _ Ha c acts Hc) as (Hne & Hcin & Hf). exists (set_pred mp (x_w x)), (<[c := map (fun na => (fst na + 1, snd na)) acts]> (x_act x)). split.
    + unfold hold_acts, sbind, sgets, sputs, sassert. cbn. rewrite Hc. replace (forallb _ acts) with true; [done|]. symmetry. apply Is_true_true, forallb_True. eapply Forall_impl; [exact Hf|]. intros na [-> _].
      pose proof (proj1 (occ_pos _ _) Hcin). apply Is_true_true. by apply Z.leb_le.
    + split; [done|by apply (acts_hold D _ c acts s ep)|]. apply refs_set_pred. eapply refs_perm; [|exact Hd]. cbn. rewrite Hdp, (store_difos_insert _ c acts _ Hc) by apply (act_difos_map (fun n => n + 1)). done.
  - exists (set_pred mp (x_w x)), (x_act x). split; [by destruct x|]. split; [done|by apply acts_hold_none|]. apply refs_set_pred. eapply refs_perm; [|exact Hd]. cbn. by rewrite Hdp.
Qed.

(** ** Releasing *)

Lemma preds_release D m s ep p pr :
  preds_ok ((s, ep) :: D) m -> xd_pred ep = Some p -> m !! p = Some pr ->
  preds_ok D (if pr_refcnt pr - 1 =? 0 then delete p m else <[p := Pred (pr_difo pr) (pr_refcnt pr - 1) (pr_cacheid pr)]> m).
Proof.
  intros [H1 H2 H3] Hep Hp. assert (Hr : pred_refs ((s, ep) :: D) = p :: pred_refs D) by (unfold pred_refs; cbn; by rewrite Hep). rewrite Hr in H1, H2.
  assert (Hcnt : occ p (pred_refs D) <= pr_refcnt pr - 1). { destruct (H2 p pr Hp) as [_ H]. unfold occ in *. cbn in H. rewrite decide_True in H by done. lia. }
  assert (Hoth : forall q qr, q <> p -> m !! q = Some qr -> 1 <= pr_refcnt qr /\ occ q (pred_refs D) <= pr_refcnt qr).
  { intros q qr Hne Hq. destruct (H2 q qr Hq) as [Ha Hb]. split; [done|]. unfold occ in *. cbn in Hb. rewrite decide_False in Hb by done. lia. }
  assert (H1p := proj1 (H2 p pr Hp)). destruct (Z.eqb_spec (pr_refcnt pr - 1) 0) as [H0|H0].
  - assert (Hni : p ∉ pred_refs D) by (intros Hin%occ_pos; lia). split.
    + intros q Hq. rewrite lookup_delete_ne by (intros <-; done). apply H1. set_solver.
    + intros q qr [Hne Hq]%lookup_delete_Some. by apply Hoth.
    + intros s' e q qr He Heq [_ Hq]%lookup_delete_Some. apply (H3 s' e q); [set_solver|done|done].
  - split.
    + intros q Hq. apply lookup_insert_is_Some'. right. apply H1. set_solver.
    + intros q qr Hq. destruct (decide (q = p)) as [->|Hne]; [rewrite lookup_insert_eq in Hq; injection Hq as <-; cbn; lia|]. rewrite lookup_insert_ne in Hq by done. by apply Hoth.
    + intros s' e q qr He Heq Hq. destruct (decide (q = p)) as [->|Hne]; [rewrite lookup_insert_eq in Hq; injection Hq as <-; apply (H3 s' e p pr); [set_solver|done|done]|].
      rewrite lookup_insert_ne in Hq by done. apply (H3 s' e q); [set_solver|done|done].
Qed.

Lemma preds_release_none D m s ep : preds_ok ((s, ep) :: D) m -> xd_pred ep = None -> preds_ok D m.
Proof.
  intros [H1 H2 H3] Hn. assert (Hr : pred_refs ((s, ep) :: D) = pred_refs D) by (unfold pred_refs; cbn; by rewrite Hn). rewrite Hr in H1, H2. split; [done|done|].
  intros s' e q qr He. apply H3. set_solver.
Qed.

Lemma release_pred_counted R w s p pr :
  refs_ok (pr_difo pr :: R) w -> w_pred w !! p = Some pr -> 1 <= pr_refcnt pr -> owner (pr_difo pr) = s ->
  exists w', Ecb.release_pred s p w = Some (tt, w') /\
    w_pred w' = (if pr_refcnt pr - 1 =? 0 then delete p (w_pred w) else <[p := Pred (pr_difo pr) (pr_refcnt pr - 1) (pr_cacheid pr)]> (w_pred w)) /\
    refs_ok (if pr_refcnt pr - 1 =? 0 then R else pr_difo pr :: R) w'.
Proof.
  intros Hd Hp Hr <-. destruct (ro_live _ _ Hd (pr_difo pr) ltac:(set_solver)) as [[dp Hdp] _]. destruct (ro_count _ _ Hd _ dp Hdp) as [Ho _].
  pose proof (proj1 (occ_pos (pr_difo pr) (pr_difo pr :: R)) ltac:(set_solver)). unfold Ecb.release_pred, get_pred, get_difo. unfold pbind at 1 2 3, gets at 1 2, assert. rewrite Hp, Hdp. cbn.
  destruct (Z.eqb_spec (dtdo_refcnt dp) 0); [lia|]. destruct (Z.ltb_spec 0 (pr_refcnt pr)); [|lia]. cbn. destruct (Z.eqb_spec (pr_refcnt pr - 1) 0) as [E0|E0].
  - destruct (release_ok R w _ Hd) as (w1 & Hrun & Hok & Hwp). unfold pbind. rewrite Hrun. eexists. split; [reflexivity|]. cbn. rewrite Hwp. split; [done|]. by apply refs_set_pred.
  - eexists. split; [reflexivity|]. split; [done|]. by apply refs_set_pred.
Qed.

Lemma release_acts_held s acts x : Forall (fun na => 2 <= fst na) acts -> release_acts s acts x = Some (map (fun na => (fst na - 1, snd na)) acts, x).
Proof.
  induction 1 as [|[n ad] acts Hn _ IH]; [done|]. cbn [release_acts]. unfold sbind at 1, release_act, sbind at 1, sassert. cbn in Hn.
  destruct (Z.leb_spec 1 n); [|lia]. destruct (Z.eqb_spec (n - 1) 0); [lia|]. cbn. unfold sbind at 1. by rewrite IH.
Qed.

Lemma release_act_last s ad R x :
  act_arg_ok ad = true -> (forall d, ad_difo ad = Some d -> owner d = s) -> refs_ok (act_difos [(1, ad)] ++ R) (x_w x) ->
  exists w', release_act s (1, ad) x = Some (None, set_w w' x) /\ refs_ok R w' /\ w_pred w' = w_pred (x_w x).
Proof.
  intros Harg Hown Hok. unfold release_act. unfold sbind at 1, sassert at 1. change (1 <=? 1) with true. change (negb (1 - 1 =? 0)) with false. cbn beta iota.
  unfold act_difos in Hok. cbn in Hok. destruct (ad_difo ad) as [d|].
  - cbn in Hok. destruct (release_ok _ _ _ Hok) as (w1 & Hrun & Hok1 & Hw1). rewrite (Hown d eq_refl) in Hrun. exists w1. unfold sbind at 1, liftw. cbn beta. rewrite Hrun.
    unfold sbind at 1. fold (act_arg_ok ad). by rewrite Harg.
  - exists (x_w x). unfold sbind at 1, sret at 1. unfold sbind at 1. fold (act_arg_ok ad). rewrite Harg. split; [by destruct x|done].
Qed.

Lemma act_difos_cons na acts : act_difos (na :: acts) = act_difos [na] ++ act_difos acts.
Proof. unfold act_difos. cbn. by destruct (ad_difo (snd na)). Qed.

Lemma release_acts_last s acts : forall R x,
  Forall (fun na => fst na = 1 /\ act_arg_ok (snd na) = true) acts -> (forall d, d ∈ act_difos acts -> owner d = s) -> refs_ok (act_difos acts ++ R) (x_w x) ->
  exists w', release_acts s acts x = Some ([], set_w w' x) /\ refs_ok R w' /\ w_pred w' = w_pred (x_w x).
Proof.
  induction acts as [|[n ad] acts IH]; intros R x Hf Hown Hok; [exists (x_w x); split; [by destruct x|done]|].
  apply Forall_cons in Hf as [[Hn Harg] Hf]. cbn in Hn, Harg. subst n. rewrite act_difos_cons, <- app_assoc in Hok.
  destruct (release_act_last s ad (act_difos acts ++ R) x Harg) as (w1 & Hrun & Hok1 & Hw1); [|exact Hok|].
  { intros d Hd. apply Hown. unfold act_difos. cbn. rewrite Hd. set_solver. }
  destruct (IH R (set_w w1 x) Hf) as (w2 & Hrun2 & Hok2 & Hw2); [intros d Hd; apply Hown; rewrite act_difos_cons; set_solver|done|].
  cbn [release_acts]. unfold sbind at 1. rewrite Hrun. unfold sbind at 1. rewrite Hrun2. exists w2. split; [done|]. split; [done|]. cbn in Hw2. congruence.
Qed.

Lemma acts_release D m s ep c acts :
  acts_ok ((s, ep) :: D) m -> xd_action ep = Some c -> m !! c = Some acts ->
  acts_ok D (if decide (c ∈ act_refs D) then <[c := map (fun na => (fst na - 1, snd na)) acts]> m else delete c m).
Proof.
  intros [H1 H2 H3] Hep Hc. assert (Hr : act_refs ((s, ep) :: D) = c :: act_refs D) by (unfold act_refs; cbn; by rewrite Hep). rewrite Hr in H1, H2.
  assert (Hoth : forall q qs, q <> c -> m !! q = Some qs -> qs <> [] /\ q ∈ act_refs D /\ Forall (fun na => fst na = occ q (act_refs D) /\ act_arg_ok (snd na) = true) qs).
  { intros q qs Hne Hq. destruct (H2 q qs Hq) as (Ha & Hb & Hf). split; [done|]. split; [set_solver|]. eapply Forall_impl; [exact Hf|]. intros na. unfold occ. cbn. by rewrite decide_False by done. }
  destruct (decide (c ∈ act_refs D)) as [Hin|Hni]; split.
  - intros q Hq. apply lookup_insert_is_Some'. right. apply H1. set_solver.
  - intros q qs Hq. destruct (decide (q = c)) as [->|Hne]; [|rewrite lookup_insert_ne in Hq by done; by apply Hoth]. rewrite lookup_insert_eq in Hq. injection Hq as <-.
    destruct (H2 c acts Hc) as (Ha & _ & Hf). split; [by destruct acts|]. split; [done|]. apply Forall_map. eapply Forall_impl; [exact Hf|]. intros na [Hn Hok]. split; [|done].
    unfold occ in *. cbn in *. rewrite decide_True in Hn by done. lia.
  - intros s' e q qs d He Heq Hq Hd. destruct (decide (q = c)) as [->|Hne]; [|rewrite lookup_insert_ne in Hq by done; apply (H3 s' e q qs d); [set_solver|done..]].
    rewrite lookup_insert_eq in Hq. injection Hq as <-. rewrite (act_difos_map (fun n => n - 1)) in Hd. apply (H3 s' e c acts d); [set_solver|done..].
  - intros q Hq. rewrite lookup_delete_ne by (intros <-; done). apply H1. set_solver.
  - intros q qs [Hne Hq]%lookup_delete_Some. by apply Hoth.
  - intros s' e q qs d He Heq [_ Hq]%lookup_delete_Some. apply (H3 s' e q qs d); [set_solver|done..].
Qed.

Lemma acts_release_none D m s ep : acts_ok ((s, ep) :: D) m -> xd_action ep = None -> acts_ok D m.
Proof.
  intros [H1 H2 H3] Hn. assert (Hr : act_refs ((s, ep) :: D) = act_refs D) by (unfold act_refs; cbn; by rewrite Hn). rewrite Hr in H1, H2. split; [done|done|].
  intros s' e q qs d He. apply H3. set_solver.
Qed.

Lemma store_destroy D s ep x :
  store_ok ((s, ep) :: D) (x_w x) (x_act x) -> exists w' m', destroy_desc s ep x = Some (tt, set_act m' (set_w w' x)) /\ store_ok D w' m'.
Proof.
  intros [Hp Ha Hd]. set (S0 := store_difos (x_act x)) in *.
  assert (Hpred : exists w1, (match xd_pred ep with Some p => liftw (Ecb.release_pred s p) | None => sret tt end) x = Some (tt, set_w w1 x) /\
    preds_ok D (w_pred w1) /\ refs_ok (preds_difos (w_pred w1) ++ S0) w1).
  { destruct (xd_pred ep) as [p|] eqn:E; [|exists (x_w x); split; [by destruct x|]; split; [by eapply preds_release_none|done]].
    destruct (po_live _ _ Hp p) as [pr Hpr]. { unfold pred_refs. apply list_elem_of_omap. exists (s, ep). split; [set_solver|done]. }
    pose proof (preds_release D _ s ep p pr Hp E Hpr) as Hp1. destruct (po_count _ _ Hp p pr Hpr) as [Hr _].
    assert (Hown : owner (pr_difo pr) = s) by (apply (po_owner _ _ Hp s ep p pr); [set_solver|done|done]).
    destruct (release_pred_counted (preds_difos (delete p (w_pred (x_w x))) ++ S0) (x_w x) s p pr) as (w1 & Hrun & Hw1 & Hok1); [|done|done|done|].
    { eapply refs_perm; [|exact Hd]. by rewrite (pred_difos_delete _ p pr Hpr). }
    exists w1. unfold liftw. rewrite Hrun. split; [done|]. rewrite Hw1. split; [exact Hp1|]. destruct (pr_refcnt pr - 1 =? 0); [done|].
    eapply refs_perm; [|exact Hok1]. rewrite (pred_difos_insert _ p pr _ Hpr) by done. by rewrite (pred_difos_delete _ p pr Hpr). }
  destruct Hpred as (w1 & Hrun & Hp1 & Hd1). unfold destroy_desc. unfold sbind at 1. rewrite Hrun. destruct (xd_action ep) as [c|] eqn:E.
  2: { exists w1, (x_act x). split; [by destruct x|]. split; [done|by eapply acts_release_none|done]. }
  assert (Hcin : c ∈ act_refs ((s, ep) :: D)). { unfold act_refs. apply list_elem_of_omap. exists (s, ep). split; [set_solver|done]. }
  destruct (ao_live _ _ Ha c Hcin) as [acts Hc]. destruct (ao_count _ _ Ha c acts Hc) as (Hne & _ & Hf). pose proof (acts_release D _ s ep c acts Ha E Hc) as Ha1.
  unfold sbind at 1, sgets at 1. cbn [x_act set_w]. rewrite Hc.
  assert (Hocc : occ c (act_refs ((s, ep) :: D)) = 1 + occ c (act_refs D)) by (unfold act_refs, occ; cbn; rewrite E; cbn; by rewrite decide_True).
  destruct (decide (c ∈ act_refs D)) as [Hin|Hni].
  - pose proof (proj1 (occ_pos _ _) Hin). unfold sbind at 1. rewrite release_acts_held by (eapply Forall_impl; [exact Hf|]; intros na [Hn _]; cbn beta; rewrite Hn, Hocc; lia).
    exists w1, (<[c := map (fun na => (fst na - 1, snd na)) acts]> (x_act x)). split; [by destruct acts|]. split; [done|exact Ha1|]. eapply refs_perm; [|exact Hd1].
    rewrite (store_difos_insert _ c acts _ Hc) by apply (act_difos_map (fun n => n - 1)). done.
  - assert (Ho0 : occ c (act_refs D) = 0). { pose proof (occ_nonneg c (act_refs D)). destruct (decide (1 <= occ c (act_refs D))) as [H1|]; [|lia]. by apply occ_pos in H1. }
    destruct (release_acts_last s acts (preds_difos (w_pred w1) ++ store_difos (delete c (x_act x))) (set_w w1 x)) as (w2 & Hrun2 & Hok2 & Hw2).
    + eapply Forall_impl; [exact Hf|]. intros na [Hn Hok]. split; [rewrite Hn, Hocc; lia|done].
    + intros d Hdd. apply (ao_owner _ _ Ha s ep c acts d); [set_solver|done..].
    + cbn. eapply refs_perm; [|exact Hd1]. unfold S0. rewrite (store_difos_delete _ c acts Hc). solve_Permutation.
    + unfold sbind at 1. rewrite Hrun2. cbn in Hw2. eexists w2, _. split; [reflexivity|]. cbn. split; [by rewrite Hw2|done|by rewrite Hw2].
Qed.

#[export] Instance store_desc_store : DescStore store_ok.
Proof.
  split; [apply store_perm| |apply store_hold|apply store_destroy].
  intros D w m p [H1 H2 [H3 H4 H5 H6]]. split; [done|done|]. by split.
Qed.
End Objects.
