(* ===== verification/EnablingSpec.v ===== *)
(** What enablings promise: a list of retained enablings with a limit per consumer, where replication copies
    descriptions and retraction drops those of a consumer; and that dtrace_enabling_create(), _retain(), _destroy(),
    _replicate() and _retract() implement it. *)
From S2P Require Import Prelude StateProg Dif SafeMem DifValidate DifObject Aggregate Match Probes Dof Ecb EcbLayout EcbLists EcbHeld EcbLife Privilege Enabling EnablingLists EnablingRefs.
From stdpp Require Import gmap list.
#[local] Open Scope Z_scope.

(** * The specification *)

(** An enabling is its consumer and its descriptions. *)
Abbreviation enab := (Z * list ecb_descr)%type.

(** The retained enablings, newest first; all enablings; the consumers. *)
Record spec := Spec { sp_retained : list Z; sp_enab : gmap Z enab; sp_consumers : gset Z }.

Inductive eop :=
| OpCreate (s : Z)
| OpRetain (a : Z)
| OpDestroy (a : Z)
| OpReplicate (s : Z) (md create : dtrace_probedesc)
| OpRetract (s : Z).

Definition owner_is (S : spec) (s a : Z) : Prop := fst <$> sp_enab S !! a = Some s.
#[export] Instance owner_is_dec S s a : Decision (owner_is S s a).
Proof. unfold owner_is. apply _. Defined.

Definition retained_by (S : spec) (s : Z) : list Z := filter (owner_is S s) (sp_retained S).
Definition spec_copied (S : spec) (s : Z) (md : dtrace_probedesc) : list ecb_descr :=
  concat (map (fun a => picked md (match sp_enab S !! a with Some e => snd e | None => [] end)) (retained_by S s)).

Definition full (S : spec) (s : Z) : bool := dtrace_retain_max <=? Z.of_nat (length (retained_by S s)).

(** The result of an operation and what is there afterwards; [new] is the address of an enabling it makes. *)
Definition spec_step (new : Z) (op : eop) (S : spec) : Z * spec :=
  match op with
  | OpCreate s => (new, Spec (sp_retained S) (<[new := (s, [])]> (sp_enab S)) (sp_consumers S))
  | OpRetain a =>
      match sp_enab S !! a with
      | None => (0, S)
      | Some e => if full S (fst e) then (ENOSPC, S) else (0, Spec (a :: sp_retained S) (sp_enab S) (sp_consumers S))
      end
  | OpDestroy a => (0, Spec (without a (sp_retained S)) (delete a (sp_enab S)) (sp_consumers S))
  | OpReplicate s md create =>
      match map (like create) (spec_copied S s md) with
      | [] => (ENOENT, S)
      | copies => if full S s then (ENOSPC, S) else (0, Spec (new :: sp_retained S) (<[new := (s, copies)]> (sp_enab S)) (sp_consumers S))
      end
  | OpRetract s =>
      (0, Spec (filter (fun a => ~ owner_is S s a) (sp_retained S)) (filter (fun ae => fst ae ∉ retained_by S s) (sp_enab S)) (sp_consumers S))
  end.

(** When an operation may be used. *)
Definition allowed (op : eop) (S : spec) : Prop :=
  match op with
  | OpCreate s | OpRetract s => s ∈ sp_consumers S
  | OpRetain a => is_Some (sp_enab S !! a) /\ a ∉ sp_retained S
  | OpDestroy a => is_Some (sp_enab S !! a)
  | OpReplicate s md _ => s ∈ sp_consumers S /\ short_strings md = true /\ Z.of_nat (length (spec_copied S s md)) <= 2 ^ 29
  end.

(** * The implementation *)

Section Refinement.
Context {pool : Type} (kalloc : gset Z -> pool -> Z * pool) (Hfresh : forall used p, (kalloc used p).1 ∉ used).
Context (inv : list (Z * ecb_descr) -> @world pool -> gmap Z (list (Z * act_desc)) -> Prop) `{HS : !DescStore inv}.
Implicit Types (x : @eworld pool) (S : spec).

Definition run_op (op : eop) : sprog eworld Z :=
  match op with
  | OpCreate s => dtrace_enabling_create kalloc s
  | OpRetain a => dtrace_enabling_retain a
  | OpDestroy a => sbind (dtrace_enabling_destroy a) (fun _ => sret 0)
  | OpReplicate s md create => dtrace_enabling_replicate kalloc s md create
  | OpRetract s => sbind (dtrace_enabling_retract s) (fun _ => sret 0)
  end.

Definition abs (en : dtrace_enabling) : enab := (dten_state en, dten_desc en).

Record implements S x : Prop := {
  im_sys : sys inv (sp_retained S) x;
  im_enab : forall a, abs <$> x_enab x !! a = sp_enab S !! a;
  im_consumers : dom (x_nretained x) = sp_consumers S
}.

Lemma abs_unlinked (o o' : option dtrace_enabling) : unlinked_enab <$> o' = unlinked_enab <$> o -> abs <$> o' = abs <$> o.
Proof. destruct o as [en|], o' as [en'|]; cbn; try done. intros H. injection H as H1 H2 H3. unfold abs. by f_equal; f_equal. Qed.

Lemma owner_state S x s a : implements S x -> owner_is S s a <-> state_of (x_enab x) a = Some s.
Proof. intros H. unfold owner_is, state_of. rewrite <- (im_enab _ _ H a). destruct (x_enab x !! a); done. Qed.

Lemma retained_owned S x s : implements S x -> owned_by (x_enab x) s (sp_retained S) = retained_by S s.
Proof. intros H. apply filter_same. intros a _. symmetry. by apply owner_state. Qed.

Lemma copied_spec S x s md : implements S x -> copied (x_enab x) s md (sp_retained S) = spec_copied S s md.
Proof.
  intros H. unfold copied, spec_copied. rewrite (retained_owned S x s H). f_equal. apply map_ext. intros a. f_equal. unfold descs_of. rewrite <- (im_enab _ _ H a).
  by destruct (x_enab x !! a).
Qed.

Lemma count_full S x s : implements S x -> s ∈ sp_consumers S -> exists k, x_nretained x !! s = Some k /\ (dtrace_retain_max <=? k) = full S s.
Proof.
  intros H Hs. rewrite <- (im_consumers _ _ H) in Hs. apply elem_of_dom in Hs as [k Hk]. exists k. split; [done|]. unfold full. f_equal.
  rewrite (proj1 (sy_counts _ _ _ (im_sys _ _ H)) s k Hk). by rewrite (retained_owned S x s H).
Qed.

Lemma consumer_of S x a en : implements S x -> x_enab x !! a = Some en -> dten_state en ∈ sp_consumers S.
Proof. intros H Ha. rewrite <- (im_consumers _ _ H). apply elem_of_dom. by apply (proj2 (sy_counts _ _ _ (im_sys _ _ H)) a). Qed.

Lemma unchanged_implements S x x' : implements S x -> sys inv (sp_retained S) x' -> unchanged x x' -> implements S x'.
Proof.
  intros H Hs [He Hd]. split; [done| |by rewrite Hd; apply H]. intros a. rewrite (abs_unlinked _ _ (He a)). apply H.
Qed.

Definition refines (op : eop) S x : Prop := runs (run_op op) x (fun res x' =>
  exists new S', sp_enab S !! new = None /\ spec_step new op S = (res, S') /\ implements S' x').

Lemma free_address S : exists new, sp_enab S !! new = None.
Proof. exists (fresh (dom (sp_enab S))). apply not_elem_of_dom, is_fresh. Qed.

Lemma create_refines s S x : implements S x -> s ∈ sp_consumers S -> refines (OpCreate s) S x.
Proof.
  intros H Hs. eapply runs_weaken; [apply (create_run inv kalloc Hfresh), H|]. intros new x' [Hn Hg]. exists new.
  assert (Hno : sp_enab S !! new = None) by (rewrite <- (im_enab _ _ H new); by rewrite Hn). eexists. split; [done|]. split; [reflexivity|].
  rewrite <- (im_consumers _ _ H) in Hs. pose proof (growing_sys inv s new [] _ x x' (im_sys _ _ H) Hn (proj1 (elem_of_dom _ _) Hs) Hg) as Hs'.
  destruct Hg as (w & m & max & -> & _). split; cbn; [done| |apply H]. intros a. destruct (decide (a = new)) as [->|Hne]; [by rewrite !lookup_insert_eq|].
  rewrite !lookup_insert_ne by done. apply H.
Qed.

Lemma retain_refines a S x : implements S x -> is_Some (sp_enab S !! a) -> a ∉ sp_retained S -> refines (OpRetain a) S x.
Proof.
  intros H [e He] Hni. pose proof (im_enab _ _ H a) as Ha. rewrite He in Ha. destruct (x_enab x !! a) as [en|] eqn:E; [|done]. cbn in Ha. injection Ha as <-.
  destruct (count_full S x (dten_state en) H (consumer_of S x a en H E)) as (k & Hk & Hfull).
  eapply runs_weaken; [apply (retain_run inv (sp_retained S) a en k x (im_sys _ _ H) E Hni Hk)|]. rewrite Hfull. intros err x'. destruct (free_address S) as [new Hnew].
  cbn [spec_step]. rewrite He. cbn [fst abs]. destruct (full S (dten_state en)).
  - intros [-> ->]. by exists new, S.
  - intros (-> & -> & Hs). exists new. eexists. split; [done|]. split; [reflexivity|]. split; cbn; [done| |].
    + intros b. rewrite <- (im_enab _ _ H b). apply abs_unlinked, same_links_lookup, push_same.
    + rewrite dom_insert_L, (im_consumers _ _ H). pose proof (consumer_of S x a en H E). set_solver.
Qed.

Lemma destroy_refines a S x : implements S x -> is_Some (sp_enab S !! a) -> refines (OpDestroy a) S x.
Proof.
  intros H [e He]. pose proof (im_enab _ _ H a) as Ha. rewrite He in Ha. destruct (x_enab x !! a) as [en|] eqn:E; [|done].
  eapply runs_bind; [apply (destroy_enabling_run inv (sp_retained S) a en x (im_sys _ _ H) E)|]. intros _ x' [Hs Hk _ Hd]. apply runs_ret. destruct (free_address S) as [new Hnew].
  exists new. eexists. split; [done|]. split; [reflexivity|]. split; cbn; [done| |by rewrite Hd; apply H]. intros b. destruct (decide (b = a)) as [->|Hne].
  - rewrite lookup_delete_eq. specialize (Hk a). rewrite decide_True in Hk by done. by destruct (x_enab x' !! a).
  - rewrite lookup_delete_ne, <- (im_enab _ _ H b) by done. specialize (Hk b). rewrite decide_False in Hk by done. by apply abs_unlinked.
Qed.

Lemma replicate_refines s md create S x :
  implements S x -> s ∈ sp_consumers S -> short_strings md = true -> Z.of_nat (length (spec_copied S s md)) <= 2 ^ 29 -> refines (OpReplicate s md create) S x.
Proof.
  intros H Hs Hsh Hb. destruct (count_full S x s H Hs) as (k & Hk & Hfull). rewrite <- (copied_spec S x s md H) in Hb.
  eapply runs_weaken; [apply (replicate_run inv kalloc Hfresh s md create (sp_retained S) k x (im_sys _ _ H) Hk Hsh Hb)|]. intros err x'. unfold replicated. cbn [spec_step].
  rewrite (copied_spec S x s md H), Hfull. destruct (free_address S) as [free Hfree]. destruct (map (like create) (spec_copied S s md)) as [|c0 copies].
  - rewrite decide_True by done. intros (-> & Hs' & Hu). exists free, S. split_and!; [done|done|]. by eapply unchanged_implements.
  - rewrite decide_False by done. destruct (full S s).
    + intros (-> & Hs' & Hu). exists free, S. split_and!; [done|done|]. by eapply unchanged_implements.
    + intros (-> & new & max & en & Hn & Hs' & Hr & Hd & Hen & Hu). exists new. eexists. split; [rewrite <- (im_enab _ _ H new); by rewrite Hn|]. split; [reflexivity|].
      split; cbn; [done| |by rewrite Hd; apply H]. intros b. destruct (decide (b = new)) as [->|Hne].
      * rewrite lookup_insert_eq, Hen. cbn. f_equal. unfold abs. injection Hu as H1 H2 H3. by rewrite H1, H3.
      * rewrite lookup_insert_ne, <- (im_enab _ _ H b) by done. apply abs_unlinked. by apply Hr.
Qed.

Lemma retract_refines s S x : implements S x -> s ∈ sp_consumers S -> refines (OpRetract s) S x.
Proof.
  intros H Hs. rewrite <- (im_consumers _ _ H) in Hs. apply elem_of_dom in Hs.
  eapply runs_bind; [apply (retract_run inv s (sp_retained S) x (im_sys _ _ H) Hs)|]. intros _ x' (Hs' & Ho & _ & Hd). apply runs_ret. destruct (free_address S) as [new Hnew].
  exists new. eexists. split; [done|]. split; [reflexivity|]. split; cbn; [|..|by rewrite Hd; apply H].
  - erewrite filter_same; [exact Hs'|]. intros a _. cbn. by rewrite (owner_state S x s a H).
  - intros b. specialize (Ho b). rewrite (retained_owned S x s H) in Ho. destruct (decide (b ∈ retained_by S s)) as [Hin|Hni].
    + symmetry. etransitivity; [apply map_lookup_filter_None; right; intros v _ Hv; by apply Hv|]. by destruct (x_enab x' !! b).
    + rewrite (abs_unlinked _ _ Ho), (im_enab _ _ H b). symmetry. destruct (sp_enab S !! b) as [e|] eqn:E; [by apply map_lookup_filter_Some|by apply map_lookup_filter_None; left].
Qed.

Lemma op_refines op S x : implements S x -> allowed op S -> refines op S x.
Proof.
  intros H Ha. destruct op; cbn in Ha.
  - by apply create_refines.
  - destruct Ha. by apply retain_refines.
  - by apply destroy_refines.
  - destruct Ha as (? & ? & ?). by apply replicate_refines.
  - by apply retract_refines.
Qed.
End Refinement.

(** * Histories *)

(** The results of a sequence of operations. *)
Inductive spec_runs : list eop -> spec -> list Z -> spec -> Prop :=
| spec_nil S : spec_runs [] S [] S
| spec_cons op ops S new res S1 ress S2 :
    sp_enab S !! new = None -> spec_step new op S = (res, S1) -> spec_runs ops S1 ress S2 -> spec_runs (op :: ops) S (res :: ress) S2.

(** Every operation may be used when its turn comes. *)
Fixpoint allowed_all (ops : list eop) (S : spec) : Prop :=
  match ops with
  | [] => True
  | op :: ops => allowed op S /\ forall new res S1, sp_enab S !! new = None -> spec_step new op S = (res, S1) -> allowed_all ops S1
  end.

Fixpoint run_ops {pool} (kalloc : gset Z -> pool -> Z * pool) (ops : list eop) : sprog (@eworld pool) (list Z) :=
  match ops with
  | [] => sret []
  | op :: ops => sbind (run_op kalloc op) (fun res => sbind (run_ops kalloc ops) (fun ress => sret (res :: ress)))
  end.

(** C33: sequences of dtrace_enabling_create(), _retain(), _destroy(), _replicate() and _retract() on any state in which the
    links, the counts and the references are right: no assertion fails and no pointer is bad, the results are those of the
    specification (a list with a limit of dtrace_retain_max for each consumer: ENOSPC, ENOENT when nothing matches), and
    the state again has the right links, counts and references. *)
Theorem enabling_history_refines {pool} (kalloc : gset Z -> pool -> Z * pool) ncpu owner ops S x :
  (forall used p, (kalloc used p).1 ∉ used) -> implements (store_ok ncpu owner) S x -> allowed_all ops S ->
  exists ress x' S', run_ops kalloc ops x = Some (ress, x') /\ spec_runs ops S ress S' /\ implements (store_ok ncpu owner) S' x'.
Proof.
  intros Hfresh. revert S x. induction ops as [|op ops IH]; intros S x Hi Ha.
  - exists [], x, S. split; [done|]. split; [constructor|done].
  - destruct Ha as [Ha Hnext]. destruct (op_refines kalloc Hfresh (store_ok ncpu owner) op S x Hi Ha) as (res & x1 & Hrun & new & S1 & Hnew & Hst & Hi1).
    destruct (IH S1 x1 Hi1 (Hnext new res S1 Hnew Hst)) as (ress & x2 & S2 & Hrun2 & Hsp & Hi2). exists (res :: ress), x2, S2. split; [|split; [by econstructor|done]].
    cbn [run_ops]. unfold sbind at 1. rewrite Hrun. unfold sbind at 1. by rewrite Hrun2.
Qed.


(** * Examples *)

Definition pd_from : dtrace_probedesc := ProbeDesc 0 [115] [] [] [97].
Definition pd_to : dtrace_probedesc := ProbeDesc 0 [115] [] [] [98].

(** Consumer 9 has one retained enabling, whose description has a predicate and an action on the same DIF object. *)
Definition demo_ep : ecb_descr := EcbDescrAt pd_from (Some 30) (Some 40) 0.
Definition demo_enabling : dtrace_enabling := Enabling [demo_ep] 1 9 0 None 0 false None None.
Definition demo_eworld : @eworld unit :=
  EWorld (World {[20 := set_refcnt 2 demo_difo]} {[30 := Pred 20 1 3]} ∅ ∅ ∅ {[9 := demo_state]} None (0, false) tt [])
    {[40 := [(1, ActionDesc DTRACEACT_DIFEXPR 0 0 (inl 0) (Some 20))]]} {[50 := demo_enabling]} (Some 50) 1 {[9 := 1]} [].
Definition demo_spec : spec := Spec [50] {[50 := (9, [demo_ep])]} {[9]}.

Lemma demo_refs : refs_ok 4 (fun _ => 9) (preds_difos (w_pred (x_w demo_eworld)) ++ store_difos (x_act demo_eworld)) (x_w demo_eworld).
Proof.
  change (preds_difos _ ++ _) with [20; 20]. split.
  - intros d Hd. assert (d = 20) as -> by set_solver. split; by eexists.
  - intros d dp Hd. cbn [w_difo x_w demo_eworld] in Hd. apply lookup_singleton_Some in Hd as [<- <-]. split; [done|]. constructor.
  - done.
  - intros s st Hs. cbn [w_state x_w demo_eworld] in Hs. apply lookup_singleton_Some in Hs as [<- <-]. split; [apply empty_wf|]. intros scope n _. unfold refs, statics. cbn. by destruct (_ =? _).
Qed.

Lemma demo_implements : implements (store_ok 4 (fun _ => 9)) demo_spec demo_eworld.
Proof.
  split; [split| |done].
  - split; [done|by apply NoDup_singleton| |].
    + intros [|i] a Ha; [|by destruct i]. injection Ha as <-. by exists demo_enabling.
    + intros a en Ha Hni. cbn [x_enab demo_eworld] in Ha. apply lookup_singleton_Some in Ha as [<- <-]. set_solver.
  - split.
    + intros s k Hk. cbn [x_nretained demo_eworld] in Hk. apply lookup_singleton_Some in Hk as [<- <-]. done.
    + intros a en Ha. cbn [x_enab demo_eworld] in Ha. apply lookup_singleton_Some in Ha as [<- <-]. by eexists.
  - change (all_descs (x_enab demo_eworld)) with [(9, demo_ep)]. split; [split|split|apply demo_refs].
    + intros p Hp. assert (p = 30) as -> by (cbn in Hp; set_solver). by eexists.
    + intros p pr Hp. cbn [w_pred x_w demo_eworld] in Hp. apply lookup_singleton_Some in Hp as [<- <-]. done.
    + intros s ep p pr Hin _ _. apply list_elem_of_singleton in Hin. congruence.
    + intros c Hc. assert (c = 40) as -> by (cbn in Hc; set_solver). by eexists.
    + intros c acts Hc. cbn [x_act demo_eworld] in Hc. apply lookup_singleton_Some in Hc as [<- <-]. split_and!; [done|cbn; set_solver|]. by repeat constructor.
    + intros s ep c acts d Hin _ _ _. apply list_elem_of_singleton in Hin. congruence.
  - intros a. cbn. destruct (decide (a = 50)) as [->|Hne]; [done|]. by rewrite !lookup_singleton_ne.
Qed.

(** A copy for the other probe, which takes the second reference to the predicate and to the action description;
    then the first enabling goes, and then the rest. *)
Definition demo_ops : list eop := [OpReplicate 9 pd_from pd_to; OpReplicate 9 pd_to pd_to; OpDestroy 50; OpReplicate 9 pd_from pd_to; OpRetract 9].

Example demo_results : fst <$> run_ops upwards demo_ops demo_eworld = Some [0; 0; 0; ENOENT; 0].
Proof. vm_compute. reflexivity. Qed.

Definition demo_ops3 : list eop := [OpReplicate 9 pd_from pd_to; OpDestroy 50; OpRetract 9].

Lemma demo_allowed : allowed_all demo_ops3 demo_spec.
Proof.
  split; [split_and!; [set_solver|done|vm_compute; discriminate]|]. intros n1 r1 S1 _ Hs1.
  assert (Hc : spec_step n1 (OpReplicate 9 pd_from pd_to) demo_spec = (0, Spec [n1; 50] (<[n1 := (9, [like pd_to demo_ep])]> {[50 := (9, [demo_ep])]}) {[9]})) by reflexivity.
  rewrite Hc in Hs1. injection Hs1 as <- <-.
  split. { apply lookup_insert_is_Some'. right. by eexists. }
  intros n2 r2 S2 _ [= <- <-]. split; [|done]. cbn. set_solver.
Qed.

Lemma enabling_history_refines_witness :
  exists ress x' S', run_ops upwards demo_ops3 demo_eworld = Some (ress, x') /\ spec_runs demo_ops3 demo_spec ress S' /\ implements (store_ok 4 (fun _ => 9)) S' x'.
Proof. apply (enabling_history_refines upwards 4 (fun _ => 9) demo_ops3 demo_spec demo_eworld upwards_fresh demo_implements demo_allowed). Defined.


(** dtrace_enabling_provide() goes on with the enabling it was at, whatever happened to it while the lock was not held: when a
    consumer closes during the call of the provider, the pointer is bad, however often the walk begins again. *)
Definition closing (c : provide_call) (x : @eworld unit) : eworld :=
  match dtrace_enabling_retract 9 x with Some (_, x) => x | None => x end.

Example provide_goes_on_with_freed fuel : dtrace_enabling_provide registry_init closing [] fuel (Some 5) demo_eworld = None.
Proof. destruct fuel as [|[|fuel]]; reflexivity. Qed.

(** With nothing else going on, the provider is asked for every description, and then for all it has. *)
Example provide_asks :
  (fun r => x_calls (snd r)) <$> dtrace_enabling_provide registry_init (fun _ x => x) [] 3 (Some 5) demo_eworld
  = Some [Provide 5 (Some pd_from); FbtKernel; InstrKernel; Provide 5 None].
Proof. reflexivity. Qed.
