(* ===== verification/DynVar.v ===== *)
(** Dynamic variables (driver/dtrace.c, dtrace_dynvar(), dtrace_dynvar_clean(), dtrace_dstate_init()).

    Associative arrays and thread-local variables live in chunks of a fixed size, found through a hash table whose
    chains end in a sink.  Chunks that are not in use are on lists per CPU: free ones; dirty ones, to which
    another CPU may still have a pointer; rinsing ones, which dtrace_dynvar_clean() has moved aside; clean ones.

    The header of a chunk is a record, found by its address; key data are bytes of the kernel memory. *)
From S2P Require Import Prelude StateProg Dif SafeMem DifValidate DifEmulate.
From stdpp Require Import gmap list.
#[local] Open Scope Z_scope.
#[local] Open Scope sprog_scope.

(** * Data *)

(** [dtdv_tuple] has the dtt_nkeys keys, each with value and size. *)
Record dynvar := Dynvar { dtdv_hashval : Z; dtdv_next : option Z; dtdv_data : Z; dtdv_tuple : list dtrace_key }.

Record dynhash := Dynhash { dtdh_chain : option Z; dtdh_lock : Z }.

Record percpu := Percpu {
  dtdsc_free : option Z;
  dtdsc_dirty : option Z;
  dtdsc_rinsing : option Z;
  dtdsc_clean : option Z;
  dtdsc_drops : Z;
  dtdsc_dirty_drops : Z;
  dtdsc_rinsing_drops : Z
}.

Inductive dstate_state := DTRACE_DSTATE_CLEAN | DTRACE_DSTATE_EMPTY | DTRACE_DSTATE_DIRTY | DTRACE_DSTATE_RINSING.

#[export] Instance dstate_state_dec : EqDecision dstate_state.
Proof. solve_decision. Defined.

Definition DTRACE_DYNHASH_FREE : Z := 0.
Definition DTRACE_DYNHASH_SINK : Z := 1.
Definition DTRACE_DYNHASH_VALID : Z := 2.
Definition DTRACE_DYNVAR_CHUNKSIZE : Z := 256.
Definition sizeof_key : Z := 16.
Definition ENOMEM : Z := 12.

(** The dynamic variables of a consumer, with the headers of all chunks, and kernel memory. *)
Record dyn := Dyn {
  dy_ds : dtrace_dstate;
  dy_hash : list dynhash;
  dy_state : dstate_state;
  dy_percpu : list percpu;
  dy_vars : gmap Z dynvar;
  dy_m : mach;
  dy_time : nat                     (** the number of accesses that compete with other CPUs *)
}.

Definition set_hash (l : list dynhash) (x : dyn) : dyn := Dyn (dy_ds x) l (dy_state x) (dy_percpu x) (dy_vars x) (dy_m x) (dy_time x).
Definition set_dstate (s : dstate_state) (x : dyn) : dyn := Dyn (dy_ds x) (dy_hash x) s (dy_percpu x) (dy_vars x) (dy_m x) (dy_time x).
Definition set_percpu (l : list percpu) (x : dyn) : dyn := Dyn (dy_ds x) (dy_hash x) (dy_state x) l (dy_vars x) (dy_m x) (dy_time x).
Definition set_vars (m : gmap Z dynvar) (x : dyn) : dyn := Dyn (dy_ds x) (dy_hash x) (dy_state x) (dy_percpu x) m (dy_m x) (dy_time x).
Definition set_mach (m : mach) (x : dyn) : dyn := Dyn (dy_ds x) (dy_hash x) (dy_state x) (dy_percpu x) (dy_vars x) m (dy_time x).
Definition tick (x : dyn) : dyn := Dyn (dy_ds x) (dy_hash x) (dy_state x) (dy_percpu x) (dy_vars x) (dy_m x) (S (dy_time x)).

Definition put_free (o : option Z) (d : percpu) : percpu :=
  Percpu o (dtdsc_dirty d) (dtdsc_rinsing d) (dtdsc_clean d) (dtdsc_drops d) (dtdsc_dirty_drops d) (dtdsc_rinsing_drops d).
Definition put_dirty (o : option Z) (d : percpu) : percpu :=
  Percpu (dtdsc_free d) o (dtdsc_rinsing d) (dtdsc_clean d) (dtdsc_drops d) (dtdsc_dirty_drops d) (dtdsc_rinsing_drops d).
Definition put_rinsing (o : option Z) (d : percpu) : percpu :=
  Percpu (dtdsc_free d) (dtdsc_dirty d) o (dtdsc_clean d) (dtdsc_drops d) (dtdsc_dirty_drops d) (dtdsc_rinsing_drops d).
Definition put_clean (o : option Z) (d : percpu) : percpu :=
  Percpu (dtdsc_free d) (dtdsc_dirty d) (dtdsc_rinsing d) o (dtdsc_drops d) (dtdsc_dirty_drops d) (dtdsc_rinsing_drops d).
Definition add_drops (n d r : Z) (c : percpu) : percpu :=
  Percpu (dtdsc_free c) (dtdsc_dirty c) (dtdsc_rinsing c) (dtdsc_clean c)
    (u64 (dtdsc_drops c + n)) (u64 (dtdsc_dirty_drops c + d)) (u64 (dtdsc_rinsing_drops c + r)).

Definition put_hashval (h : Z) (v : dynvar) : dynvar := Dynvar h (dtdv_next v) (dtdv_data v) (dtdv_tuple v).
Definition put_next (o : option Z) (v : dynvar) : dynvar := Dynvar (dtdv_hashval v) o (dtdv_data v) (dtdv_tuple v).

(** * Hashing of keys *)

Section Hash.
Context (P : platform).

(** One step of the one-at-a-time hash. *)
Definition key_hash_add (h c : Z) : Z :=
  let h := u64 (h + c) in
  let h := u64 (h + Z.shiftl h 10) in
  Z.lxor h (Z.shiftr h 6).

Definition hash_value (h val : Z) : Z :=
  let h := key_hash_add h (Z.land (Z.shiftr val 48) 0xffff) in
  let h := key_hash_add h (Z.land (Z.shiftr val 32) 0xffff) in
  let h := key_hash_add h (Z.land (Z.shiftr val 16) 0xffff) in
  key_hash_add h (Z.land val 0xffff).

Definition key_hash_bytes (h base size : Z) (m : mach) : option (Z * mach) :=
  zloop (fun '(j, h, m) =>
    if j <? size then let '(c, m) := dtrace_load8 P (u64 (base + j)) m in inl (j + 1, key_hash_add h c, m) else inr (h, m))
    (size + 1) (0, h, m).

Fixpoint hash_keys (keys : list dtrace_key) (ms : dtrace_mstate) (vs : dtrace_vstate) (h : Z) (m : mach) : option (Z * mach) :=
  match keys with
  | [] => Some (h, m)
  | (val, size) :: keys =>
      if size =? 0 then hash_keys keys ms vs (hash_value h val) m
      else
        match dtrace_canload val size ms vs m with
        | (false, m) => Some (h, m)
        | (true, m) => match key_hash_bytes h val size m with Some (h, m) => hash_keys keys ms vs h m | None => None end
        end
  end.

Definition hash_finish (h : Z) : Z :=
  let h := u64 (h + Z.shiftl h 3) in
  let h := Z.lxor h (Z.shiftr h 11) in
  let h := u64 (h + Z.shiftl h 15) in
  if (h =? DTRACE_DYNHASH_FREE) || (h =? DTRACE_DYNHASH_SINK) then DTRACE_DYNHASH_VALID else h.

(** The comparison of a tuple with the keys asked for. *)
Fixpoint keys_match (tuple keys : list dtrace_key) (m : mach) : option (bool * mach) :=
  match tuple, keys with
  | (dval, dsize) :: tuple, (val, size) :: keys =>
      if negb (dsize =? size) then Some (false, m)
      else if negb (dsize =? 0) then
        match dtrace_bcmp P val dval dsize m with
        | None => None
        | Some (r, m) => if r =? 0 then keys_match tuple keys m else Some (false, m)
        end
      else if dval =? val then keys_match tuple keys m
      else Some (false, m)
  | _, _ => Some (true, m)
  end.
End Hash.

(** * dtrace_dynvar() *)

Section DynVar.
(** The memory of the machine, &dtrace_dynhash_sink, and what other CPUs do before the [n]th access that competes with them. *)
Context (P : platform) (sink : Z) (others : nat -> dyn -> dyn).

Definition interfere : sprog dyn unit := sputs (fun x => tick (others (dy_time x) x)).

Definition get_var (a : Z) : sprog dyn dynvar := sgets (fun x => dy_vars x !! a).
Definition upd_var (a : Z) (f : dynvar -> dynvar) : sprog dyn unit :=
  v <~ get_var a; sputs (fun x => set_vars (<[a := f v]> (dy_vars x)) x).
Definition get_cpu (c : nat) : sprog dyn percpu := sgets (fun x => dy_percpu x !! c).
Definition upd_cpu (c : nat) (f : percpu -> percpu) : sprog dyn unit :=
  d <~ get_cpu c; sputs (fun x => set_percpu (<[c := f d]> (dy_percpu x)) x).
Definition get_bucket (b : Z) : sprog dyn dynhash := sgets (fun x => dy_hash x !! Z.to_nat b).
Definition put_bucket (b : Z) (h : dynhash) : sprog dyn unit := sputs (fun x => set_hash (<[Z.to_nat b := h]> (dy_hash x)) x).

(** Operations on memory that may not end. *)
Definition on_mach {A} (f : mach -> option (A * mach)) : sprog dyn A :=
  r <~ sgets (fun x => f (dy_m x)); let '(a, m) := r in sputs (set_mach m) ~; sret a.

Inductive search_res :=
| Found (dvar : Z) (prev : option Z)
| AtSink
| OffRails.

(** The walk along a chain from [cur]. *)
Fixpoint search (fuel : nat) (hashval : Z) (keys : list dtrace_key) (prev cur : option Z) : sprog dyn search_res :=
  match cur with
  | None => sret OffRails
  | Some a =>
      match fuel with
      | O => sfail
      | S fuel =>
          interfere ~;
          v <~ get_var a;
          if negb (dtdv_hashval v =? hashval) then
            if dtdv_hashval v =? DTRACE_DYNHASH_SINK then
              sassert (bool_decide (dtdv_next v = None) && (a =? sink)) ~; sret AtSink
            else if dtdv_hashval v =? DTRACE_DYNHASH_FREE then sret OffRails
            else search fuel hashval keys (Some a) (dtdv_next v)
          else if negb (length (dtdv_tuple v) =? length keys)%nat then search fuel hashval keys (Some a) (dtdv_next v)
          else
            same <~ on_mach (keys_match P (dtdv_tuple v) keys);
            if (same : bool) then sret (Found a prev) else search fuel hashval keys (Some a) (dtdv_next v)
      end
  end.

(** The chunk is put at the head of the dirty list of a CPU. *)
Fixpoint push_dirty (fuel : nat) (c : nat) (a : Z) : sprog dyn unit :=
  match fuel with
  | O => sfail
  | S fuel =>
      d <~ get_cpu c;
      let next := dtdsc_dirty d in
      upd_var a (put_next next) ~;
      interfere ~;
      d <~ get_cpu c;
      if bool_decide (dtdsc_dirty d = next) then upd_cpu c (put_dirty (Some a)) else push_dirty fuel c a
  end.

(** dtdh_lock++, by the holder of the lock. *)
Definition unlock (bucket lock : Z) : sprog dyn unit :=
  h <~ get_bucket bucket;
  sassert ((dtdh_lock h =? lock) && Z.odd lock) ~;
  put_bucket bucket (Dynhash (dtdh_chain h) (u64 (dtdh_lock h + 1))).

(** The state word to show when no chunk was found, from the lists of a CPU passed over. *)
Definition next_nstate (d : percpu) (nstate : dstate_state) : dstate_state :=
  let nstate := if bool_decide (dtdsc_dirty d <> None) && bool_decide (nstate = DTRACE_DSTATE_EMPTY) then DTRACE_DSTATE_DIRTY else nstate in
  if bool_decide (dtdsc_rinsing d <> None) then DTRACE_DSTATE_RINSING else nstate.

(** A chunk from the lists of the CPUs, beginning with [cpu]: the chunk and the CPU it was taken from. *)
Fixpoint take_chunk (fuel : nat) (me cpu : nat) (nstate : dstate_state) : sprog dyn (option (Z * nat)) :=
  match fuel with
  | O => sfail
  | S fuel =>
      d <~ get_cpu cpu;
      match dtdsc_free d with
      | Some free =>
          v <~ get_var free;
          interfere ~;
          d <~ get_cpu cpu;
          if bool_decide (dtdsc_free d = Some free) then upd_cpu cpu (put_free (dtdv_next v)) ~; sret (Some (free, cpu))
          else take_chunk fuel me cpu nstate
      | None =>
          match dtdsc_clean d with
          | Some clean =>
              interfere ~;
              d <~ get_cpu cpu;
              if bool_decide (dtdsc_clean d = Some clean) then
                upd_cpu cpu (put_clean None) ~;
                v <~ get_var clean;
                sassert (dtdv_hashval v =? DTRACE_DYNHASH_FREE) ~;
                interfere ~;
                d <~ get_cpu cpu;
                sassert (bool_decide (dtdsc_free d = None)) ~;
                upd_cpu cpu (put_free (Some clean)) ~;
                take_chunk fuel me cpu nstate
              else take_chunk fuel me cpu nstate
          | None =>
              s <~ sgets (fun x => Some (dy_state x));
              match s with
              | DTRACE_DSTATE_CLEAN =>
                  n <~ sgets (fun x => Some (length (dy_percpu x)));
                  let cpu := if (n <=? S cpu)%nat then O else S cpu in
                  let nstate := next_nstate d nstate in
                  if negb (cpu =? me)%nat then take_chunk fuel me cpu nstate
                  else
                    interfere ~;
                    sputs (fun x => if decide (dy_state x = DTRACE_DSTATE_CLEAN) then set_dstate nstate x else x) ~;
                    take_chunk fuel me cpu nstate
              | DTRACE_DSTATE_DIRTY => upd_cpu cpu (add_drops 0 1 0) ~; sputs (fun x => set_mach (set_flag CPU_DTRACE_DROP (dy_m x)) x) ~; sret None
              | DTRACE_DSTATE_RINSING => upd_cpu cpu (add_drops 0 0 1) ~; sputs (fun x => set_mach (set_flag CPU_DTRACE_DROP (dy_m x)) x) ~; sret None
              | DTRACE_DSTATE_EMPTY => upd_cpu cpu (add_drops 1 0 0) ~; sputs (fun x => set_mach (set_flag CPU_DTRACE_DROP (dy_m x)) x) ~; sret None
              end
          end
      end
  end.

(** The keys, with the data of those by reference copied to [kdata] and after it. *)
Fixpoint copy_keys (keys : list dtrace_key) (kdata : Z) (m : mach) : option (list dtrace_key * mach) :=
  match keys with
  | [] => Some ([], m)
  | (val, size) :: keys =>
      if size =? 0 then match copy_keys keys kdata m with Some (l, m) => Some ((val, size) :: l, m) | None => None end
      else
        match dtrace_bcopy P val kdata size m with
        | None => None
        | Some m => match copy_keys keys (u64 (kdata + P2ROUNDUP size 8)) m with Some (l, m) => Some ((kdata, size) :: l, m) | None => None end
        end
  end.

Definition key_space (keys : list dtrace_key) : Z := fold_left (fun n k => u64 (n + P2ROUNDUP (snd k) 8)) keys 0.

(** The header of a new variable at [a]. *)
Definition fill_chunk (a : Z) (keys : list dtrace_key) (hashval : Z) (start : option Z) : sprog dyn unit :=
  let kdata := u64 (a + 32 + sizeof_key * Z.of_nat (length keys)) in
  tuple <~ on_mach (copy_keys keys kdata);
  v <~ get_var a;
  sassert (dtdv_hashval v =? DTRACE_DYNHASH_FREE) ~;
  upd_var a (fun _ => Dynvar hashval start (u64 (kdata + key_space keys)) tuple).

(** What to do after a failed compare-and-swap. *)
Inductive again := Retry | Recall.

(** The variable, or another try. *)
Definition dynvar_alloc (fuel : nat) (me : nat) (keys : list dtrace_key) (dsize hashval bucket : Z) (start : option Z) : sprog dyn (option Z + again) :=
  chunksize <~ sgets (fun x => Some (dtds_chunksize (dy_ds x)));
  if chunksize <? u64 (sizeof_dynvar + sizeof_key * (Z.of_nat (length keys) - 1) + key_space keys + dsize) then
    upd_cpu me (add_drops 1 0 0) ~; sret (inl None)
  else
    r <~ take_chunk fuel me me DTRACE_DSTATE_EMPTY;
    match r with
    | None => sret (inl None)
    | Some (a, cpu) =>
        fill_chunk a keys hashval start ~;
        interfere ~;
        h <~ get_bucket bucket;
        if bool_decide (dtdh_chain h = start) then put_bucket bucket (Dynhash (Some a) (dtdh_lock h)) ~; sret (inl (Some a))
        else upd_var a (put_hashval DTRACE_DYNHASH_FREE) ~; push_dirty fuel cpu a ~; sret (inr Recall)
    end.

(** The variable is taken off its chain and freed, unless the head of the chain has changed. *)
Definition dynvar_remove (fuel : nat) (me : nat) (bucket lock : Z) (start : option Z) (a : Z) (prev : option Z) : sprog dyn (option Z + again) :=
  v <~ get_var a;
  (match dtdv_next v with
   | None => sret tt
   | Some b => w <~ get_var b; sassert (negb (dtdv_hashval w =? DTRACE_DYNHASH_FREE))
   end) ~;
  swung <~
    (match prev with
     | Some p =>
         h <~ get_bucket bucket;
         w <~ get_var p;
         sassert (negb (bool_decide (dtdh_chain h = Some a)) && negb (bool_decide (start = Some a)) && bool_decide (dtdv_next w = Some a)) ~;
         upd_var p (put_next (dtdv_next v)) ~; sret true
     | None =>
         interfere ~;
         h <~ get_bucket bucket;
         if bool_decide (dtdh_chain h = start) then put_bucket bucket (Dynhash (dtdv_next v) (dtdh_lock h)) ~; sret true else sret false
     end);
  if negb swung then sret (inr Retry)
  else
    h <~ get_bucket bucket;
    sassert (negb (bool_decide (dtdh_chain h = Some a))) ~;
    upd_var a (put_hashval DTRACE_DYNHASH_FREE) ~;
    push_dirty fuel me a ~;
    unlock bucket lock ~;
    sret (inl None).

Definition is_dealloc (op : dtrace_dynvar_op) : bool := match op with DTRACE_DYNVAR_DEALLOC => true | _ => false end.

(** One pass from the label top. *)
Definition dynvar_pass (fuel : nat) (me : nat) (keys : list dtrace_key) (dsize : Z) (op : dtrace_dynvar_op) (hashval bucket : Z) : sprog dyn (option Z + again) :=
  h <~ get_bucket bucket;
  let lock := dtdh_lock h in
  let start := dtdh_chain h in
  (match start with
   | None => sfail
   | Some s => v <~ get_var s; sassert (negb (dtdv_hashval v =? DTRACE_DYNHASH_FREE) || negb (is_dealloc op))
   end) ~;
  r <~ search fuel hashval keys None start;
  match r with
  | Found a prev => if is_dealloc op then dynvar_remove fuel me bucket lock start a prev else sret (inl (Some a))
  | OffRails => sassert (negb (is_dealloc op)) ~; sret (inr Retry)
  | AtSink =>
      match op with
      | DTRACE_DYNVAR_ALLOC => dynvar_alloc fuel me keys dsize hashval bucket start
      | DTRACE_DYNVAR_NOALLOC =>
          interfere ~;
          h <~ get_bucket bucket;
          if negb (dtdh_lock h =? lock) then sret (inr Retry) else sret (inl None)
      | DTRACE_DYNVAR_DEALLOC => unlock bucket lock ~; sret (inl None)
      end
  end.

(** Passes until one is not disturbed; None: the chunk could not be linked, and all begins again. *)
Fixpoint dynvar_top (fuel : nat) (me : nat) (keys : list dtrace_key) (dsize : Z) (op : dtrace_dynvar_op) (hashval bucket : Z) : sprog dyn (option (option Z)) :=
  match fuel with
  | O => sfail
  | S n =>
      r <~ dynvar_pass fuel me keys dsize op hashval bucket;
      match r with
      | inl dvar => sret (Some dvar)
      | inr Retry => dynvar_top n me keys dsize op hashval bucket
      | inr Recall => sret None
      end
  end.

(** The lock of a bucket is taken; a lock that is held and stays held is waited for for ever. *)
Fixpoint lock_bucket (fuel : nat) (bucket : Z) : sprog dyn unit :=
  match fuel with
  | O => sfail
  | S fuel =>
      h <~ get_bucket bucket;
      let lock := dtdh_lock h in
      interfere ~;
      if Z.odd lock then lock_bucket fuel bucket
      else
        h <~ get_bucket bucket;
        if dtdh_lock h =? lock then put_bucket bucket (Dynhash (dtdh_chain h) (u64 (lock + 1))) else lock_bucket fuel bucket
  end.

Fixpoint dtrace_dynvar (fuel : nat) (me : nat) (keys : list dtrace_key) (dsize : Z) (op : dtrace_dynvar_op) (ms : dtrace_mstate) (vs : dtrace_vstate) : sprog dyn (option Z) :=
  match fuel with
  | O => sfail
  | S n =>
      sassert (negb (bool_decide (keys = []))) ~;
      hashval <~ on_mach (hash_keys P keys ms vs DTRACE_DYNHASH_VALID);
      bad <~ sgets (fun x => Some (faulted (dy_m x)));
      if (bad : bool) then sret None
      else
        hashsize <~ sgets (fun x => Some (dtds_hashsize (dy_ds x)));
        sassert (negb (hashsize =? 0)) ~;
        let hashval := hash_finish hashval in
        let bucket := hashval mod hashsize in
        (if is_dealloc op then lock_bucket fuel bucket else sret tt) ~;
        r <~ dynvar_top fuel me keys dsize op hashval bucket;
        match r with
        | Some dvar => sret dvar
        | None => dtrace_dynvar n me keys dsize op ms vs
        end
  end.

(** * dtrace_dynvar_clean() *)

(** The dirty list of a CPU is moved aside. *)
Fixpoint rinse (fuel : nat) (c : nat) : sprog dyn unit :=
  match fuel with
  | O => sfail
  | S fuel =>
      d <~ get_cpu c;
      let dirty := dtdsc_dirty d in
      upd_cpu c (put_rinsing dirty) ~;
      interfere ~;
      d <~ get_cpu c;
      if bool_decide (dtdsc_dirty d = dirty) then upd_cpu c (put_dirty None) else rinse fuel c
  end.

(** The first loop, on the CPUs [cs]: whether there is work to do. *)
Fixpoint rinse_cpus (fuel : nat) (cs : list nat) (work : bool) : sprog dyn bool :=
  match cs with
  | [] => sret work
  | c :: cs =>
      d <~ get_cpu c;
      sassert (bool_decide (dtdsc_rinsing d = None)) ~;
      if bool_decide (dtdsc_dirty d = None) then rinse_cpus fuel cs work
      else if bool_decide (dtdsc_clean d <> None) then rinse_cpus fuel cs work
      else rinse fuel c ~; rinse_cpus fuel cs true
  end.

(** The second loop: what was moved aside is clean now. *)
Fixpoint clean_cpus (cs : list nat) : sprog dyn unit :=
  match cs with
  | [] => sret tt
  | c :: cs =>
      d <~ get_cpu c;
      (if bool_decide (dtdsc_rinsing d = None) then sret tt
       else
         sassert (bool_decide (dtdsc_clean d = None)) ~;
         upd_cpu c (fun d => put_rinsing None (put_clean (dtdsc_rinsing d) d))) ~;
      clean_cpus cs
  end.

Definition dtrace_dynvar_clean (fuel : nat) : sprog dyn unit :=
  n <~ sgets (fun x => Some (length (dy_percpu x)));
  work <~ rinse_cpus fuel (seq 0 n) false;
  if negb work then sret tt
  else
    interfere ~;                       (** dtrace_sync() *)
    clean_cpus (seq 0 n) ~;
    interfere ~;
    sputs (set_dstate DTRACE_DSTATE_CLEAN).
End DynVar.

(** * dtrace_dstate_init() *)

Definition sink_var : dynvar := Dynvar DTRACE_DYNHASH_SINK None 0 [].
Definition free_chunk (next : option Z) : dynvar := Dynvar DTRACE_DYNHASH_FREE next 0 [].

(** The chunks from [dvar] on that end below [limit] are linked; the last one is the end of the list. *)
Fixpoint carve (fuel : nat) (chunksize limit dvar : Z) (vars : gmap Z dynvar) : option (gmap Z dynvar) :=
  match fuel with
  | O => None
  | S fuel =>
      let next := u64 (dvar + chunksize) in
      if limit <=? u64 (next + chunksize) then Some (<[dvar := free_chunk None]> vars)
      else carve fuel chunksize limit next (<[dvar := free_chunk (Some next)]> vars)
  end.

Definition no_chunks : percpu := Percpu None None None None 0 0 0.

(** The free lists of the [n] CPUs that have none yet. *)
Fixpoint share_chunks (fuel n : nat) (chunksize maxper limit start : Z) (vars : gmap Z dynvar) : option (list percpu * gmap Z dynvar) :=
  match n with
  | O => Some ([], vars)
  | S n =>
      let lim := if (maxper =? 0) || (n =? 0)%nat then limit else u64 (start + maxper) in
      if limit <? lim then None
      else
        match carve fuel chunksize lim start vars with
        | None => None
        | Some vars =>
            let d := put_free (Some start) no_chunks in
            if maxper =? 0 then Some (d :: replicate n no_chunks, vars)
            else match share_chunks fuel n chunksize maxper limit lim vars with Some (l, vars) => Some (d :: l, vars) | None => None end
        end
  end.

(** [zalloc]: where kmem_zalloc() puts the space, if it has room; [m] is memory with that space cleared.  The error, or the new state. *)
Definition dtrace_dstate_init (sink : Z) (ncpu : nat) (zalloc : Z -> option Z) (chunksize size : Z) (m : mach) : option (Z + dyn) :=
  let chunksize := if chunksize =? 0 then DTRACE_DYNVAR_CHUNKSIZE else chunksize in
  let min := u64 (chunksize + sizeof_dynhash) in
  let size := if size <? min then min else size in
  match zalloc size with
  | None => Some (inl ENOMEM)
  | Some base =>
      let hashsize := size / min in
      let hashsize := if negb (hashsize =? 1) && Z.odd hashsize then hashsize - 1 else hashsize in
      let start := u64 (base + hashsize * sizeof_dynhash) in
      let limit := u64 (base + size) in
      let maxper := u64 (limit - start) / Z.of_nat ncpu in
      let maxper := maxper / chunksize * chunksize in
      match share_chunks (S (Z.to_nat (size / chunksize))) ncpu chunksize maxper limit start {[sink := sink_var]} with
      | None => None
      | Some (cpus, vars) =>
          Some (inr (Dyn (DState base size hashsize chunksize) (replicate (Z.to_nat hashsize) (Dynhash (Some sink) 0)) DTRACE_DSTATE_CLEAN cpus vars m 0))
      end
  end.

(** dtrace_dstate_fini(): the memory given back to the allocator, with its size; the lists of the CPUs go back to their cache. *)
Definition dtrace_dstate_fini (ds : dtrace_dstate) : list (Z * Z) := if dtds_base ds =? 0 then [] else [(dtds_base ds, dtds_size ds)].
