(* ===== verification/DynKeys.v ===== *)
(** Keys of dynamic variables: what hashing, comparison and copying make of the contents of a tuple. *)
From S2P Require Import Prelude StateProg Dif SafeMem DifValidate DifEmulate DifSafety DynVar.
From stdpp Require Import gmap list.
#[local] Open Scope Z_scope.

(** * Contents *)

Definition bytes_at (mem : Z -> Z) (a n : Z) : list Z := map (fun i => mem (a + Z.of_nat i)) (seq 0 (Z.to_nat n)).

(** A key is a value, or the bytes it refers to. *)
Definition content (mem : Z -> Z) (k : dtrace_key) : Z + list Z := if snd k =? 0 then inl (fst k) else inr (bytes_at mem (fst k) (snd k)).
Definition contents (mem : Z -> Z) (keys : list dtrace_key) : list (Z + list Z) := map (content mem) keys.

Definition hash_content (h : Z) (c : Z + list Z) : Z := match c with inl v => hash_value h v | inr l => fold_left key_hash_add l h end.
Definition hash_of (cs : list (Z + list Z)) : Z := hash_finish (fold_left hash_content cs DTRACE_DYNHASH_VALID).

#[local] Opaque hash_value key_hash_add.

Lemma hash_finish_valid h : hash_finish h <> DTRACE_DYNHASH_FREE /\ hash_finish h <> DTRACE_DYNHASH_SINK.
Proof.
  unfold hash_finish. set (k := u64 _). destruct (Z.eqb_spec k DTRACE_DYNHASH_FREE), (Z.eqb_spec k DTRACE_DYNHASH_SINK); cbn [orb]; done.
Qed.

Lemma bytes_length mem a n : length (bytes_at mem a n) = Z.to_nat n.
Proof. unfold bytes_at. by rewrite length_map, length_seq. Qed.

Lemma bytes_ext mem mem' a n : (forall i, a <= i < a + n -> mem' i = mem i) -> bytes_at mem' a n = bytes_at mem a n.
Proof. intros H. unfold bytes_at. apply map_ext_in. intros i Hi. apply in_seq in Hi. apply H. lia. Qed.

Lemma bytes_succ mem a n : 0 <= n -> bytes_at mem a (n + 1) = bytes_at mem a n ++ [mem (a + n)].
Proof. intros Hn. unfold bytes_at. replace (Z.to_nat (n + 1)) with (S (Z.to_nat n)) by lia. rewrite seq_S, map_app. cbn. do 3 f_equal. lia. Qed.

Lemma bytes_lookup mem a n i : 0 <= i < n -> bytes_at mem a n !! Z.to_nat i = Some (mem (a + i)).
Proof.
  intros Hi. unfold bytes_at. rewrite list_lookup_fmap, lookup_seq_lt by lia. cbn. do 2 f_equal. lia.
Qed.

Section Keys.
Context (P : platform).

(** A key by reference can be read, and the consumer may read it. *)
Definition range_ok (val size : Z) : Prop :=
  0 < val /\ 0 < size /\ val + size <= 2 ^ 64 /\ forall i, 0 <= i < size -> readable P (val + i).
Definition key_ok (ms : dtrace_mstate) (vs : dtrace_vstate) (k : dtrace_key) : Prop :=
  snd k = 0 \/ (range_ok (fst k) (snd k) /\ forall m, dtrace_canload (fst k) (snd k) ms vs m = (true, m)).

(** What an operation on keys leaves: the same memory, no fault. *)
Definition untouched (m m' : mach) : Prop := m_mem m' = m_mem m /\ faulted m' = false.

Lemma untouched_trans m1 m2 m3 : untouched m1 m2 -> untouched m2 m3 -> untouched m1 m3.
Proof. intros [H1 _] [H2 H3]. split; [congruence|done]. Qed.

(** * Hashing *)

Lemma key_hash_bytes_ok h val size m :
  range_ok val size -> faulted m = false ->
  exists m', key_hash_bytes P h val size m = Some (fold_left key_hash_add (bytes_at (m_mem m) val size) h, m') /\ untouched m m'.
Proof.
  intros (Hv & Hs & Hw & Hr) Hf. unfold key_hash_bytes.
  destruct (zloop_total (fun '(j, h', m') => 0 <= j <= size /\ h' = fold_left key_hash_add (bytes_at (m_mem m) val j) h /\ untouched m m')
    (fun '(j, _, _) => size - j) (fun '(h', m') => h' = fold_left key_hash_add (bytes_at (m_mem m) val size) h /\ untouched m m')
    (fun '(j, h, m) => if j <? size then let '(c, m) := dtrace_load8 P (u64 (val + j)) m in inl (j + 1, key_hash_add h c, m) else inr (h, m))
    (size + 1) (0, h, m)) as ([h' m'] & -> & -> & Hu).
  - intros [[j h'] m'] (Hj & -> & Hu). destruct (Z.ltb_spec j size) as [Hlt|Hge].
    + rewrite u64_id by (unfold is_u; lia). destruct (load8_ok P (val + j) m' (Hr j ltac:(lia)) (proj2 Hu)) as (m2 & -> & Hf2 & Hm2).
      destruct Hu as [Hm _]. split; [lia|]. split; [|lia]. split; [lia|]. split; [|split; [congruence|done]]. rewrite bytes_succ, fold_left_app by lia. cbn. by rewrite Hm.
    + split; [lia|]. by replace size with j by lia.
  - split; [lia|]. done.
  - lia.
  - exists m'. done.
Qed.

Lemma hash_keys_ok ms vs keys : forall h m,
  Forall (key_ok ms vs) keys -> faulted m = false ->
  exists m', hash_keys P keys ms vs h m = Some (fold_left hash_content (contents (m_mem m) keys) h, m') /\ untouched m m'.
Proof.
  induction keys as [|[val size] keys IH]; intros h m Hk Hf; [by exists m|]. apply Forall_cons in Hk as [Hk Hks]. cbn [hash_keys].
  change (fold_left hash_content (contents (m_mem m) ((val, size) :: keys)) h) with (fold_left hash_content (contents (m_mem m) keys) (hash_content h (content (m_mem m) (val, size)))).
  unfold content. cbn [fst snd]. destruct (Z.eqb_spec size 0) as [->|Hne]; cbn [hash_content]; [exact (IH (hash_value h val) m Hks Hf)|].
  destruct Hk as [Hk|[Hr Hc]]; cbn [fst snd] in *; [done|]. rewrite Hc. destruct (key_hash_bytes_ok h val size m Hr Hf) as (m1 & -> & Hm1 & Hf1).
  destruct (IH (fold_left key_hash_add (bytes_at (m_mem m) val size) h) m1 Hks Hf1) as (m2 & -> & Hu2). exists m2. rewrite Hm1. split; [done|]. by eapply untouched_trans.
Qed.

(** * Comparison *)

(** The range of a stored key; [dtrace_bcmp()] reads it directly. *)
Definition stored_ok (val size : Z) : Prop := 0 < val /\ 0 < size /\ val + size <= 2 ^ 64.

Lemma bytes_neq mem a b n i : 0 <= i < n -> mem (a + i) <> mem (b + i) -> bytes_at mem a n <> bytes_at mem b n.
Proof. intros Hi Hne H. apply Hne. apply (f_equal (fun l => l !! Z.to_nat i)) in H. rewrite !bytes_lookup in H by done. by injection H. Qed.

Lemma bcmp_ok s1 s2 len m :
  range_ok s1 len -> stored_ok s2 len -> faulted m = false ->
  exists r m', dtrace_bcmp P s1 s2 len m = Some (r, m') /\ (r = 0 <-> bytes_at (m_mem m) s1 len = bytes_at (m_mem m) s2 len) /\ untouched m m'.
Proof.
  intros (Hv & Hl & Hw & Hr) (Hv2 & _ & Hw2) Hf. unfold dtrace_bcmp. destruct (Z.eqb_spec s1 s2) as [->|Hne]; [by exists 0, m|].
  destruct (Z.eqb_spec s1 0), (Z.eqb_spec s2 0), (Z.eqb_spec len 0); try lia. cbn [orb].
  edestruct (zloop_total (fun '(p1, p2, l, m') => exists j, 0 <= j < len /\ p1 = s1 + j /\ p2 = s2 + j /\ l = len - j /\ bytes_at (m_mem m) s1 j = bytes_at (m_mem m) s2 j /\ untouched m m')
    (fun '(_, _, l, _) => l - 1) (fun '(r, m') => (r = 0 <-> bytes_at (m_mem m) s1 len = bytes_at (m_mem m) s2 len) /\ untouched m m')) as ([r m'] & Hz & Hq); [| | |by exists r, m'; rewrite Hz].
  - intros [[[p1 p2] l] m'] (j & Hj & -> & -> & -> & Hb & Hm & Hf'). split; [lia|].
    destruct (load8_ok P (s1 + j) m' (Hr j Hj) Hf') as (m2 & -> & Hf2 & Hm2). rewrite Hm2, Hm. assert (Hu : untouched m m2) by (split; [congruence|done]).
    destruct (Z.eqb_spec (m_mem m (s1 + j)) (m_mem m (s2 + j))) as [He|Hne']; cbn [negb].
    + assert (Hb' : bytes_at (m_mem m) s1 (j + 1) = bytes_at (m_mem m) s2 (j + 1)) by (rewrite !bytes_succ by lia; by rewrite Hb, He).
      rewrite Hf2. destruct (Z.eqb_spec (len - j - 1) 0) as [E|Hn]; cbn [negb andb]; [by replace len with (j + 1) by lia|].
      split; [|lia]. exists (j + 1). rewrite !u64_id by (unfold is_u; lia). split_and!; try lia; [done|apply Hu..].
    + split; [|done]. split; [done|]. intros H. by destruct (bytes_neq (m_mem m) s1 s2 len j).
  - exists 0. split_and!; try lia; done.
  - cbn. lia.
Qed.

Definition stored_key (k : dtrace_key) : Prop := snd k = 0 \/ stored_ok (fst k) (snd k).

Lemma content_size mem val size val' size' : 0 <= size -> 0 <= size' -> size <> size' -> content mem (val, size) <> content mem (val', size').
Proof.
  intros H1 H2 Hne. unfold content. cbn. destruct (Z.eqb_spec size 0), (Z.eqb_spec size' 0); try done; try lia. intros [= H]. apply (f_equal length) in H. rewrite !bytes_length in H. lia.
Qed.

Lemma keys_match_ok ms vs keys : forall tuple m,
  Forall stored_key tuple -> Forall (key_ok ms vs) keys -> length tuple = length keys -> faulted m = false ->
  exists m', keys_match P tuple keys m = Some (bool_decide (contents (m_mem m) tuple = contents (m_mem m) keys), m') /\ untouched m m'.
Proof.
  assert (Hno : forall (c d : Z + list Z) cs ds, c <> d -> bool_decide (c :: cs = d :: ds) = false) by (intros c d cs ds H; apply bool_decide_eq_false_2; congruence).
  assert (Hyes : forall (c : Z + list Z) cs ds, bool_decide (c :: cs = c :: ds) = bool_decide (cs = ds)) by (intros c cs ds; apply bool_decide_ext; split; congruence).
  induction keys as [|[val size] keys IH]; intros [|[dval dsize] tuple] m Ht Hk Hl Hf; try done; [by exists m|]. injection Hl as Hl.
  apply Forall_cons in Ht as [Ht Hts]. apply Forall_cons in Hk as [Hk Hks]. cbn [keys_match contents map].
  assert (0 <= size /\ 0 <= dsize) as [Hs0 Hd0]. { destruct Hk as [Hk|[(_ & Hk & _) _]], Ht as [Ht|(_ & Ht & _)]; cbn in *; lia. }
  destruct (Z.eqb_spec dsize size) as [->|Hne]; cbn [negb]; [|exists m; rewrite Hno; [done|]; by apply content_size].
  destruct (Z.eqb_spec size 0) as [->|Hz]; cbn [negb].
  - unfold content. cbn. destruct (Z.eqb_spec dval val) as [->|Hv]; [|exists m; rewrite Hno by congruence; done]. rewrite Hyes. by apply IH.
  - destruct Hk as [Hk|[Hr _]]; [done|]. destruct Ht as [Ht|Ht]; [done|]. cbn in *. destruct (bcmp_ok val dval size m Hr Ht Hf) as (r & m1 & -> & Hiff & Hm1 & Hf1).
    assert (Hc : forall v, content (m_mem m) (v, size) = inr (bytes_at (m_mem m) v size)) by (intros v; unfold content; cbn; by destruct (Z.eqb_spec size 0)).
    fold (contents (m_mem m) tuple) (contents (m_mem m) keys). rewrite !Hc. destruct (Z.eqb_spec r 0) as [E|E].
    + rewrite (proj1 Hiff E), Hyes. destruct (IH tuple m1 Hts Hks Hl Hf1) as (m2 & -> & Hu). exists m2. rewrite Hm1. split; [done|]. by eapply untouched_trans.
    + exists m1. rewrite Hno; [done|]. intros [= H]. apply E, Hiff. done.
Qed.

(** * Copying *)

(** The room for the data of keys by reference. *)
Fixpoint key_sum (keys : list dtrace_key) : Z := match keys with [] => 0 | k :: keys => P2ROUNDUP (snd k) 8 + key_sum keys end.

(** Sizes as the validator allows them. *)
Definition size_ok (k : dtrace_key) : Prop := 0 <= snd k < 2 ^ 63.

Lemma roundup_range n : 0 <= n < 2 ^ 63 -> n <= P2ROUNDUP n 8 < n + 8.
Proof. intros Hn. apply P2ROUNDUP_8; unfold is_u; lia. Qed.

Lemma key_sum_nonneg keys : Forall size_ok keys -> 0 <= key_sum keys.
Proof. induction 1 as [|k keys Hk _ IH]; cbn; [lia|]. pose proof (roundup_range (snd k) Hk). destruct Hk. lia. Qed.

Lemma key_space_sum keys : Forall size_ok keys -> key_sum keys < 2 ^ 64 -> key_space keys = key_sum keys.
Proof.
  intros Hk Hs. unfold key_space. assert (H : forall n, 0 <= n -> n + key_sum keys < 2 ^ 64 -> fold_left (fun n k => u64 (n + P2ROUNDUP (snd k) 8)) keys n = n + key_sum keys); [|by rewrite H].
  clear Hs. induction Hk as [|k keys Hk Hks IH]; intros n Hn Hs; cbn [fold_left key_sum] in *; [lia|]. pose proof (roundup_range (snd k) Hk). pose proof (key_sum_nonneg keys Hks).
  destruct Hk. rewrite (u64_id (n + P2ROUNDUP (snd k) 8)) by (unfold is_u; lia). rewrite IH by lia. lia.
Qed.

(** The data of a key are not where the copy goes. *)
Definition away (lo hi : Z) (k : dtrace_key) : Prop := snd k = 0 \/ fst k + snd k <= lo \/ hi <= fst k.

(** A stored key has its data between [lo] and [hi]. *)
Definition key_inside (lo hi : Z) (k : dtrace_key) : Prop := snd k = 0 \/ (0 < snd k /\ lo <= fst k /\ fst k + snd k <= hi).

Lemma contents_ext mem mem' keys lo hi :
  Forall (away lo hi) keys -> (forall a, ~ lo <= a < hi -> mem' a = mem a) -> contents mem' keys = contents mem keys.
Proof.
  intros Hk Hm. unfold contents. apply map_ext_in. intros [val size] Hin. rewrite Forall_forall in Hk. apply list_elem_of_In in Hin. specialize (Hk _ Hin). unfold content. cbn in *.
  destruct (Z.eqb_spec size 0) as [|Hz]; [done|]. f_equal. apply bytes_ext. intros i Hi. apply Hm. destruct Hk as [?|?]; cbn in *; lia.
Qed.

Lemma contents_inside mem mem' keys lo hi :
  Forall (key_inside lo hi) keys -> (forall a, lo <= a < hi -> mem' a = mem a) -> contents mem' keys = contents mem keys.
Proof.
  intros Hk Hm. unfold contents. apply map_ext_in. intros [val size] Hin. rewrite Forall_forall in Hk. apply list_elem_of_In in Hin. specialize (Hk _ Hin). unfold content. cbn in *.
  destruct (Z.eqb_spec size 0) as [|Hz]; [done|]. f_equal. apply bytes_ext. intros i Hi. apply Hm. destruct Hk as [?|?]; cbn in *; lia.
Qed.

Lemma bcopy_bytes val kdata size m :
  range_ok val size -> 0 < kdata -> kdata + size <= 2 ^ 64 -> bytes_ok m -> faulted m = false ->
  exists m', dtrace_bcopy P val kdata size m = Some m' /\ faulted m' = false /\ bytes_ok m' /\
    bytes_at (m_mem m') kdata size = bytes_at (m_mem m) val size /\ (forall a, ~ kdata <= a < kdata + size -> m_mem m' a = m_mem m a).
Proof.
  intros (Hv & Hs & Hw & Hr) Hk Hkw Hb Hf. destruct (bcopy_ok P val kdata size m) as (m' & -> & Hf' & Hm); try done; try lia. exists m'.
  assert (Hout : forall a, ~ kdata <= a < kdata + size -> m_mem m' a = m_mem m a).
  { intros a Ha. rewrite Hm. unfold copied. destruct (Z.leb_spec (kdata + 0) a), (Z.ltb_spec a (kdata + size)); cbn; try done; lia. }
  split_and!; try done.
  - intros a. rewrite Hm. unfold copied. destruct (_ && _); apply Hb.
  - unfold bytes_at. apply map_ext_in. intros i Hi. apply in_seq in Hi. rewrite Hm. unfold copied.
    destruct (Z.leb_spec (kdata + 0) (kdata + Z.of_nat i)), (Z.ltb_spec (kdata + Z.of_nat i) (kdata + size)); cbn; try lia. f_equal. lia.
Qed.

Lemma copy_keys_ok ms vs keys : forall kdata m,
  Forall (key_ok ms vs) keys -> Forall size_ok keys -> 0 < kdata -> kdata + key_sum keys <= 2 ^ 64 - 1 -> Forall (away kdata (kdata + key_sum keys)) keys ->
  bytes_ok m -> faulted m = false ->
  exists tuple m', copy_keys P keys kdata m = Some (tuple, m') /\ length tuple = length keys /\ Forall (key_inside kdata (kdata + key_sum keys)) tuple /\
    contents (m_mem m') tuple = contents (m_mem m) keys /\ (forall a, ~ kdata <= a < kdata + key_sum keys -> m_mem m' a = m_mem m a) /\ bytes_ok m' /\ faulted m' = false.
Proof.
  induction keys as [|[val size] keys IH]; intros kdata m Hk Hsz H0 Hw Ha Hb Hf; [by exists [], m|].
  apply Forall_cons in Hk as [Hk Hks]. apply Forall_cons in Hsz as [Hsz Hszs]. apply Forall_cons in Ha as [Ha Has]. cbn [key_sum snd] in *.
  pose proof (key_sum_nonneg keys Hszs) as Hnn. pose proof (roundup_range size Hsz) as Hru. destruct Hsz as [Hsz _]. cbn in Hsz. set (r := P2ROUNDUP size 8) in *.
  assert (Hin : forall lo hi lo' hi' (l : list dtrace_key), lo' <= lo -> hi <= hi' -> Forall (key_inside lo hi) l -> Forall (key_inside lo' hi') l).
  { intros lo hi lo' hi' l H1 H2 H. eapply Forall_impl; [exact H|]. intros k [?|?]; [by left|right; lia]. }
  assert (Haw : forall lo hi lo' hi' (l : list dtrace_key), lo <= lo' -> hi' <= hi -> Forall (away lo hi) l -> Forall (away lo' hi') l).
  { intros lo hi lo' hi' l H1 H2 H. eapply Forall_impl; [exact H|]. intros k [?|?]; [by left|right; lia]. }
  cbn [copy_keys]. destruct (Z.eqb_spec size 0) as [->|Hz].
  - assert (r = 0) as -> by done. rewrite Z.add_0_l in *. destruct (IH kdata m Hks Hszs H0 Hw Has Hb Hf) as (tuple & m' & -> & Hl & Hi & Hc & Hout & Hb' & Hf').
    exists ((val, 0) :: tuple), m'. split; [done|]. split; [cbn; lia|]. split; [constructor; [by left|done]|]. split; [|done]. unfold contents in *. cbn [map]. rewrite Hc. done.
  - destruct Hk as [Hk|[Hr _]]; cbn [fst snd] in *; [done|]. assert (Hkw : kdata + size <= 2 ^ 64) by lia. destruct (bcopy_bytes val kdata size m Hr H0 Hkw Hb Hf) as (m1 & -> & Hf1 & Hb1 & Hby & Hout1).
    change (P2ROUNDUP size 8) with r. rewrite (u64_id (kdata + r)) by (unfold is_u; lia).
    assert (Has' : Forall (away (kdata + r) (kdata + r + key_sum keys)) keys) by (eapply Haw; [..|exact Has]; lia).
    destruct (IH (kdata + r) m1 Hks Hszs ltac:(lia) ltac:(lia) Has' Hb1 Hf1) as (tuple & m' & -> & Hl & Hi & Hc & Hout & Hb' & Hf').
    exists ((kdata, size) :: tuple), m'. split; [done|]. split; [cbn; lia|]. split; [constructor; [right; cbn; lia|by eapply Hin; [..|exact Hi]; lia]|].
    split; [|split; [intros a Hna; rewrite Hout, Hout1 by lia; done|done]].
    unfold contents in *. cbn [map]. rewrite Hc. f_equal.
    + unfold content. cbn [fst snd]. destruct (Z.eqb_spec size 0); [done|]. f_equal. rewrite <- Hby. apply bytes_ext. intros i Hi'. apply Hout. lia.
    + apply (contents_ext (m_mem m) (m_mem m1) keys kdata (kdata + (r + key_sum keys)) Has). intros a Hna. apply Hout1. lia.
Qed.
End Keys.
