(* ===== verification/DynLists.v ===== *)
(** The chunks of dynamic variables: hash chains and the lists of the CPUs, and how the operations move chunks between them. *)
From S2P Require Import Prelude StateProg Dif SafeMem DifValidate DifEmulate DifSafety DynVar DynKeys.
From stdpp Require Import gmap list.
#[local] Open Scope Z_scope.
#[local] Open Scope sprog_scope.

(** * Linked lists of chunks *)

(** From [o], the chunks [l] follow each other, and then comes [e]. *)
Fixpoint seg (vars : gmap Z dynvar) (o : option Z) (l : list Z) (e : option Z) : Prop :=
  match l with
  | [] => o = e
  | a :: l => o = Some a /\ exists v, vars !! a = Some v /\ seg vars (dtdv_next v) l e
  end.

Definition same_next (vars vars' : gmap Z dynvar) (a : Z) : Prop := dtdv_next <$> vars' !! a = dtdv_next <$> vars !! a.

Lemma chunks_frame vars vars' o l e : (forall a, a ∈ l -> same_next vars vars' a) -> seg vars o l e -> seg vars' o l e.
Proof.
  revert o. induction l as [|a l IH]; intros o Hs; [done|]. intros [-> (v & Hv & Hseg)]. split; [done|]. pose proof (Hs a ltac:(set_solver)) as Ha. unfold same_next in Ha.
  rewrite Hv in Ha. destruct (vars' !! a) as [v'|]; [|done]. injection Ha as Ha. exists v'. split; [done|]. rewrite Ha. apply IH; [|done]. intros b Hb. apply Hs. set_solver.
Qed.

Lemma seg_head vars o l e : seg vars o l e -> o = match l with [] => e | a :: _ => Some a end.
Proof. destruct l; [done|]. by intros [-> _]. Qed.

Lemma chunks_app vars o l1 l2 e : seg vars o (l1 ++ l2) e <-> exists p, seg vars o l1 p /\ seg vars p l2 e.
Proof.
  revert o. induction l1 as [|a l1 IH]; intros o; cbn.
  - split; [intros H; by exists o|]. by intros (p & -> & H).
  - split.
    + intros [-> (v & Hv & H)]. apply IH in H as (p & H1 & H2). exists p. split; [|done]. split; [done|]. by exists v.
    + intros (p & [-> (v & Hv & H1)] & H2). split; [done|]. exists v. split; [done|]. apply IH. by exists p.
Qed.

Lemma seg_elem vars o l e a : seg vars o l e -> a ∈ l -> exists v, vars !! a = Some v.
Proof.
  revert o. induction l as [|b l IH]; intros o; [set_solver|]. intros [_ (v & Hv & Hs)] [->|Ha]%elem_of_cons; [by exists v|]. by eapply IH.
Qed.

(** * Who has which chunk *)

Record cpu_lists := CpuLists { cl_free : list Z; cl_dirty : list Z; cl_rinsing : list Z; cl_clean : list Z }.
Definition cpu_all (l : cpu_lists) : list Z := cl_free l ++ cl_dirty l ++ cl_rinsing l ++ cl_clean l.

(** The chunks in hash chains, on lists, and in the hands of an operation. *)
Definition all_chunks (C : list (list Z)) (L : list cpu_lists) (E : list Z) : list Z := E ++ concat C ++ concat (map cpu_all L).

Definition cont (x : dyn) (a : Z) : list (Z + list Z) := match dy_vars x !! a with Some v => contents (m_mem (dy_m x)) (dtdv_tuple v) | None => [] end.
Definition chunksize (x : dyn) : Z := dtds_chunksize (dy_ds x).

(** A variable: its hash value is that of its keys, and the keys are inside of the chunk. *)
Record live_at (mem : Z -> Z) (hashsize size : Z) (b : nat) (a : Z) (v : dynvar) : Prop := {
  lv_hash : dtdv_hashval v = hash_of (contents mem (dtdv_tuple v));
  lv_bucket : dtdv_hashval v mod hashsize = Z.of_nat b;
  lv_keys : Forall (key_inside a (a + size)) (dtdv_tuple v)
}.
Definition live_ok (x : dyn) : nat -> Z -> dynvar -> Prop := live_at (m_mem (dy_m x)) (dtds_hashsize (dy_ds x)) (chunksize x).

Definition cpu_ok (vars : gmap Z dynvar) (d : percpu) (l : cpu_lists) : Prop :=
  seg vars (dtdsc_free d) (cl_free l) None /\ seg vars (dtdsc_dirty d) (cl_dirty l) None /\
  seg vars (dtdsc_rinsing d) (cl_rinsing l) None /\ seg vars (dtdsc_clean d) (cl_clean l) None.

Section Inv.
Context (P : platform) (sink : Z).

(** [k] is the bucket that is locked. *)
Record dyn_inv (k : option nat) (C : list (list Z)) (L : list cpu_lists) (E : list Z) (x : dyn) : Prop := {
  di_buckets : length (dy_hash x) = length C;
  di_hashsize : dtds_hashsize (dy_ds x) = Z.of_nat (length C);
  di_some : (0 < length C)%nat;
  di_ncpu : length (dy_percpu x) = length L;
  di_sink : dy_vars x !! sink = Some sink_var;
  di_nodup : NoDup (sink :: all_chunks C L E);
  di_chain : forall b l, C !! b = Some l -> exists h, dy_hash x !! b = Some h /\ seg (dy_vars x) (dtdh_chain h) l (Some sink) /\
    is_u64 (dtdh_lock h) /\ Z.odd (dtdh_lock h) = bool_decide (k = Some b);
  di_live : forall b l a, C !! b = Some l -> a ∈ l -> exists v, dy_vars x !! a = Some v /\ live_ok x b a v;
  di_cpu : forall c ls, L !! c = Some ls -> exists d, dy_percpu x !! c = Some d /\ cpu_ok (dy_vars x) d ls;
  di_free : forall a, a ∈ E \/ a ∈ concat (map cpu_all L) -> exists v, dy_vars x !! a = Some v /\ dtdv_hashval v = DTRACE_DYNHASH_FREE;
  di_unique : forall a a', a ∈ concat C -> a' ∈ concat C -> cont x a = cont x a' -> a = a';
  di_spaced : forall a a', a ∈ all_chunks C L E -> a' ∈ all_chunks C L E -> a <> a' -> a + chunksize x <= a' \/ a' + chunksize x <= a;
  di_range : forall a, a ∈ all_chunks C L E -> 0 < a /\ a + chunksize x < 2 ^ 64;
  di_size : 0 < chunksize x;
  di_bytes : bytes_ok (dy_m x)
}.

(** States that differ in the time and the flags only. *)
Record alike (x x' : dyn) : Prop := {
  al_ds : dy_ds x' = dy_ds x;
  al_hash : dy_hash x' = dy_hash x;
  al_state : dy_state x' = dy_state x;
  al_percpu : dy_percpu x' = dy_percpu x;
  al_vars : dy_vars x' = dy_vars x;
  al_mem : m_mem (dy_m x') = m_mem (dy_m x)
}.

Lemma alike_refl x : alike x x.
Proof. by split. Qed.

Lemma alike_trans x y z : alike x y -> alike y z -> alike x z.
Proof. intros [] []. split; congruence. Qed.

Lemma alike_tick x : alike x (tick x).
Proof. by split. Qed.

Lemma alike_mach x m : m_mem m = m_mem (dy_m x) -> alike x (set_mach m x).
Proof. by split. Qed.

Lemma inv_fields k C L E x x' :
  dyn_inv k C L E x -> dy_ds x' = dy_ds x -> dy_hash x' = dy_hash x -> dy_percpu x' = dy_percpu x -> dy_vars x' = dy_vars x -> m_mem (dy_m x') = m_mem (dy_m x) -> dyn_inv k C L E x'.
Proof.
  intros [] H1 H2 H3 H4 H5. assert (Hc : forall a, cont x' a = cont x a) by (intros a; unfold cont; by rewrite H4, H5). assert (Hcs : chunksize x' = chunksize x) by (unfold chunksize; by rewrite H1).
  split; rewrite ?H1, ?H2, ?H3, ?H4, ?Hcs; try done.
  - intros b l a Hb Ha. destruct (di_live0 b l a Hb Ha) as (v & Hv & [Ha1 Ha2 Ha3]). exists v. split; [done|]. unfold live_ok. by rewrite H5, H1, Hcs.
  - intros a a' Ha Ha'. rewrite !Hc. by apply di_unique0.
  - intros a. rewrite H5. apply di_bytes0.
Qed.

Lemma inv_alike k C L E x x' : alike x x' -> dyn_inv k C L E x -> dyn_inv k C L E x'.
Proof. intros [] H. by eapply inv_fields. Qed.

Lemma cont_alike x x' a : alike x x' -> cont x' a = cont x a.
Proof. intros [_ _ _ _ Hv Hm]. unfold cont. by rewrite Hv, Hm. Qed.

(** * Searching *)

(** No other CPU does anything. *)
Definition alone (n : nat) (x : dyn) : dyn := x.

Definition before_or (pre : list Z) (prev : option Z) : option Z := match last pre with Some q => Some q | None => prev end.

(** The result of a walk along the chunks [l]. *)
Definition found_in (x : dyn) (ct : list (Z + list Z)) (prev : option Z) (l : list Z) (r : search_res) : Prop :=
  match r with
  | Found a p => exists pre post, l = pre ++ a :: post /\ cont x a = ct /\ p = before_or pre prev
  | AtSink => forall a, a ∈ l -> cont x a <> ct
  | OffRails => False
  end.

Lemma found_cons x ct prev a l r : cont x a <> ct -> found_in x ct (Some a) l r -> found_in x ct prev (a :: l) r.
Proof.
  intros Hne. destruct r as [a' p| |]; cbn; [|set_solver|done]. intros (pre & post & -> & Hc & ->). exists (a :: pre), post. split_and!; [done|done|].
  unfold before_or. rewrite last_cons. by destruct (last pre).
Qed.

Lemma inside_stored a cs keys : 0 < a -> a + cs < 2 ^ 64 -> Forall (key_inside a (a + cs)) keys -> Forall stored_key keys.
Proof. intros H1 H2 H. eapply Forall_impl; [exact H|]. intros key [H0|(Hs & Hlo & Hhi)]; [by left|right]. unfold stored_ok. lia. Qed.

Lemma chunk_in_bucket k C L E x b l a : dyn_inv k C L E x -> C !! b = Some l -> a ∈ l -> a ∈ all_chunks C L E.
Proof. intros _ Hb Ha. unfold all_chunks. apply elem_of_app. right. apply elem_of_app. left. apply list_elem_of_In, in_concat. exists l. split; apply list_elem_of_In; [by eapply list_elem_of_lookup_2|done]. Qed.

Lemma search_run k C L E b keys ms vs l2 : forall l1 fuel prev cur x,
  dyn_inv k C L E x -> C !! b = Some (l1 ++ l2) -> Forall (key_ok P ms vs) keys -> faulted (dy_m x) = false ->
  seg (dy_vars x) cur l2 (Some sink) -> (length l2 < fuel)%nat ->
  runs (search P sink alone fuel (hash_of (contents (m_mem (dy_m x)) keys)) keys prev cur) x
    (fun r x' => alike x x' /\ faulted (dy_m x') = false /\ found_in x (contents (m_mem (dy_m x)) keys) prev l2 r).
Proof.
  induction l2 as [|a l2 IH]; intros l1 fuel prev cur x Hi Hb Hk Hf Hseg Hfuel; (destruct fuel as [|fuel]; [lia|]); set (ct := contents (m_mem (dy_m x)) keys) in *.
  - cbn in Hseg. subst cur. cbn [search]. apply bind_puts. eapply bind_gets; [cbn; apply (di_sink _ _ _ _ _ Hi)|]. destruct (hash_finish_valid (fold_left hash_content ct DTRACE_DYNHASH_VALID)) as [_ Hns].
    fold (hash_of ct) in Hns. cbn [dtdv_hashval sink_var dtdv_next]. destruct (Z.eqb_spec DTRACE_DYNHASH_SINK (hash_of ct)); [congruence|]. cbn [negb]. rewrite Z.eqb_refl.
    apply bind_assert; [by rewrite Z.eqb_refl|]. apply runs_ret. split; [apply alike_tick|]. split; [done|]. set_solver.
  - destruct Hseg as [-> (v & Hv & Hseg)]. cbn [search]. apply bind_puts. eapply bind_gets; [cbn; exact Hv|].
    destruct (di_live _ _ _ _ _ Hi b (l1 ++ a :: l2) a Hb ltac:(set_solver)) as (v' & Hv' & [Hh _ Hin]). rewrite Hv in Hv'. injection Hv' as <-.
    assert (Hcont : cont x a = contents (m_mem (dy_m x)) (dtdv_tuple v)) by (unfold cont; by rewrite Hv). rewrite <- Hcont in Hh.
    destruct (hash_finish_valid (fold_left hash_content (cont x a) DTRACE_DYNHASH_VALID)) as [Hnf Hns]. fold (hash_of (cont x a)) in Hnf, Hns. rewrite <- Hh in Hnf, Hns.
    assert (Hgo : forall x1, alike x x1 -> faulted (dy_m x1) = false -> cont x a <> ct ->
      runs (search P sink alone fuel (hash_of ct) keys (Some a) (dtdv_next v)) x1 (fun r x' => alike x x' /\ faulted (dy_m x') = false /\ found_in x ct prev (a :: l2) r)).
    { intros x1 Hal Hf1 Hne. assert (Hct : contents (m_mem (dy_m x1)) keys = ct) by (by rewrite (al_mem _ _ Hal)).
      specialize (IH (l1 ++ [a]) fuel (Some a) (dtdv_next v) x1 (inv_alike _ _ _ _ _ _ Hal Hi)). rewrite <- app_assoc in IH. specialize (IH Hb Hk Hf1). rewrite (al_vars _ _ Hal), Hct in IH.
      eapply runs_weaken; [apply IH; [done|cbn in Hfuel; lia]|]. intros r x' (Hal' & Hf' & Hr). split; [by eapply alike_trans|]. split; [done|]. apply found_cons; [done|].
      destruct r; cbn in *; [destruct Hr as (pre & post & H1 & H2 & H3); exists pre, post; by rewrite <- (cont_alike x x1) |intros a' Ha'; rewrite <- (cont_alike x x1 a' Hal); by apply Hr|done]. }
    destruct (Z.eqb_spec (dtdv_hashval v) (hash_of ct)) as [Heq|Hneq]; cbn [negb].
    2: { destruct (Z.eqb_spec (dtdv_hashval v) DTRACE_DYNHASH_SINK); [done|]. destruct (Z.eqb_spec (dtdv_hashval v) DTRACE_DYNHASH_FREE); [done|].
         apply Hgo; [apply alike_tick|done|]. intros E1. apply Hneq. by rewrite Hh, E1. }
    destruct (Nat.eqb_spec (length (dtdv_tuple v)) (length keys)) as [Hlen|Hlen]; cbn [negb].
    2: { apply Hgo; [apply alike_tick|done|]. rewrite Hcont. unfold ct, contents. intros E1. apply (f_equal length) in E1. by rewrite !length_map in E1. }
    assert (Hall : a ∈ all_chunks C L E) by (apply (chunk_in_bucket k C L E x b _ a Hi Hb); set_solver). destruct (di_range _ _ _ _ _ Hi a Hall) as [Ha0 Ha1].
    destruct (keys_match_ok P ms vs keys (dtdv_tuple v) (dy_m x) (inside_stored a _ _ Ha0 Ha1 Hin) Hk Hlen Hf) as (m' & Hkm & Hm' & Hf').
    apply bind_assoc. eapply bind_gets; [cbn; exact Hkm|]. apply bind_assoc. apply bind_puts. apply bind_ret. rewrite <- Hcont. fold ct.
    assert (Hal : alike x (set_mach m' (tick x))) by (split; done). destruct (bool_decide_reflect (cont x a = ct)) as [Hc|Hc].
    + apply runs_ret. split; [exact Hal|]. split; [done|]. exists [], l2. done.
    + by apply Hgo.
Qed.

(** * Moving chunks *)

Lemma concat_put {A} (f : A -> list Z) (l : list A) i a :
  l !! i = Some a -> exists rest, concat (map f l) ≡ₚ f a ++ rest /\ forall a', concat (map f (<[i := a']> l)) ≡ₚ f a' ++ rest.
Proof.
  intros Hi. exists (concat (map f (take i l)) ++ concat (map f (drop (S i) l))). pose proof (take_drop_middle l i a Hi) as Hl.
  assert (Hp : forall b, concat (map f (take i l ++ b :: drop (S i) l)) ≡ₚ f b ++ concat (map f (take i l)) ++ concat (map f (drop (S i) l))).
  { intros b. rewrite map_app, concat_app. cbn. rewrite Permutation_app_swap_app. done. }
  split; [by rewrite <- Hl at 1; apply Hp|]. intros a'. rewrite insert_take_drop by (by eapply lookup_lt_Some). apply Hp.
Qed.

Lemma chains_insert (C : list (list Z)) b l : C !! b = Some l -> exists rest, concat C ≡ₚ l ++ rest /\ forall l', concat (<[b := l']> C) ≡ₚ l' ++ rest.
Proof. intros Hb. destruct (concat_put (fun l => l) C b l Hb) as (rest & H1 & H2). exists rest. rewrite map_id in H1. split; [done|]. intros l'. specialize (H2 l'). by rewrite map_id in H2. Qed.

(** Chunks that are in no hash chain. *)
Definition spare (L : list cpu_lists) (E : list Z) : list Z := E ++ concat (map cpu_all L).

Lemma all_spare C L E : all_chunks C L E ≡ₚ concat C ++ spare L E.
Proof. unfold all_chunks, spare. solve_Permutation. Qed.

Lemma all_perm C L E C' L' E' : concat C' ++ spare L' E' ≡ₚ concat C ++ spare L E -> all_chunks C' L' E' ≡ₚ all_chunks C L E.
Proof. intros H. by rewrite !all_spare. Qed.

(** Chunks move between lists and hands, headers unchanged. *)
Lemma inv_lists k C L E L' E' x x' :
  dyn_inv k C L E x -> dy_ds x' = dy_ds x -> dy_hash x' = dy_hash x -> dy_vars x' = dy_vars x -> m_mem (dy_m x') = m_mem (dy_m x) ->
  spare L' E' ≡ₚ spare L E -> length (dy_percpu x') = length L' ->
  (forall c ls, L' !! c = Some ls -> exists d, dy_percpu x' !! c = Some d /\ cpu_ok (dy_vars x) d ls) ->
  dyn_inv k C L' E' x'.
Proof.
  intros Hi H1 H2 H3 H4 Hp Hn Hc. assert (Hall : all_chunks C L' E' ≡ₚ all_chunks C L E) by (apply all_perm; by rewrite Hp).
  assert (Hx : dyn_inv k C L E (set_percpu (dy_percpu x) x')) by (by apply (inv_fields k C L E x)). destruct Hx as [a1 a2 a3 a4 a5 a6 a7 a8 a9 a10 a11 a12 a13 a14 a15]. cbn in *.
  split; [exact a1|exact a2|exact a3|exact Hn|exact a5| |exact a7|exact a8|rewrite H3; exact Hc| |exact a11|intros a a'; rewrite Hall; apply a12|intros a; rewrite Hall; apply a13|exact a14|exact a15].
  - apply NoDup_cons in a6 as [Hs Hnd]. apply NoDup_cons. rewrite Hall. done.
  - intros a Ha. apply a10. apply elem_of_app. fold (spare L E). rewrite <- Hp. unfold spare. by apply elem_of_app.
Qed.

Lemma cpu_insert L x c ls d' ls' :
  (forall c ls, L !! c = Some ls -> exists d, dy_percpu x !! c = Some d /\ cpu_ok (dy_vars x) d ls) -> length (dy_percpu x) = length L -> L !! c = Some ls ->
  cpu_ok (dy_vars x) d' ls' ->
  forall c1 ls1, <[c := ls']> L !! c1 = Some ls1 -> exists d, <[c := d']> (dy_percpu x) !! c1 = Some d /\ cpu_ok (dy_vars x) d ls1.
Proof.
  intros H Hl Hc Hok c1 ls1. apply lookup_lt_Some in Hc. destruct (decide (c1 = c)) as [->|Hne].
  - rewrite !list_lookup_insert_eq by lia. intros [= <-]. by exists d'.
  - rewrite !list_lookup_insert_ne by done. apply H.
Qed.

(** The lists of one CPU change. *)
Lemma inv_cpu k C L E E' x c ls d ls' d' :
  dyn_inv k C L E x -> L !! c = Some ls -> dy_percpu x !! c = Some d -> cpu_ok (dy_vars x) d' ls' -> E' ++ cpu_all ls' ≡ₚ E ++ cpu_all ls ->
  dyn_inv k C (<[c := ls']> L) E' (set_percpu (<[c := d']> (dy_percpu x)) x).
Proof.
  intros Hi Hc Hd Hok Hp. destruct (concat_put cpu_all L c ls Hc) as (rest & H1 & H2). eapply inv_lists; [exact Hi|done..| | |].
  - unfold spare. rewrite H1, H2, !app_assoc. by rewrite Hp.
  - cbn. rewrite !length_insert. apply (di_ncpu _ _ _ _ _ Hi).
  - cbn. eapply cpu_insert; [apply (di_cpu _ _ _ _ _ Hi)|apply (di_ncpu _ _ _ _ _ Hi)|exact Hc|exact Hok].
Qed.

Lemma bind_var {B} a v (f : dynvar -> sprog dyn B) x Q : dy_vars x !! a = Some v -> runs (f v) x Q -> runs (sbind (get_var a) f) x Q.
Proof. intros H. by apply bind_gets. Qed.

Lemma bind_cpu {B} c d (f : percpu -> sprog dyn B) x Q : dy_percpu x !! c = Some d -> runs (f d) x Q -> runs (sbind (get_cpu c) f) x Q.
Proof. intros H. by apply bind_gets. Qed.

Lemma bind_bucket {B} (b : Z) h (f : dynhash -> sprog dyn B) x Q : dy_hash x !! Z.to_nat b = Some h -> runs (f h) x Q -> runs (sbind (get_bucket b) f) x Q.
Proof. intros H. by apply bind_gets. Qed.

Lemma bind_upd_cpu {B} c d g (f : unit -> sprog dyn B) x Q :
  dy_percpu x !! c = Some d -> runs (f tt) (set_percpu (<[c := g d]> (dy_percpu x)) x) Q -> runs (sbind (upd_cpu c g) f) x Q.
Proof. intros H Hf. apply bind_assoc. eapply bind_cpu; [exact H|]. by apply bind_puts. Qed.

Lemma bind_upd_var {B} a v g (f : unit -> sprog dyn B) x Q :
  dy_vars x !! a = Some v -> runs (f tt) (set_vars (<[a := g v]> (dy_vars x)) x) Q -> runs (sbind (upd_var a g) f) x Q.
Proof. intros H Hf. apply bind_assoc. eapply bind_var; [exact H|]. by apply bind_puts. Qed.

(** * Taking a chunk *)

(** States with the same variables. *)
Record kept (x x' : dyn) : Prop := {
  kp_ds : dy_ds x' = dy_ds x;
  kp_hash : dy_hash x' = dy_hash x;
  kp_vars : dy_vars x' = dy_vars x;
  kp_mem : m_mem (dy_m x') = m_mem (dy_m x);
  kp_fault : faulted (dy_m x') = faulted (dy_m x)
}.

Lemma kept_trans x y z : kept x y -> kept y z -> kept x z.
Proof. intros [] []. split; congruence. Qed.

Lemma faulted_drop m : faulted (set_flag CPU_DTRACE_DROP m) = faulted m.
Proof.
  unfold faulted, set_flag. cbn [m_flags]. rewrite Z.land_lor_distr_l. change (Z.land CPU_DTRACE_DROP CPU_DTRACE_FAULT) with 0. by rewrite Z.lor_0_r.
Qed.

Definition idle (L : list cpu_lists) (c : nat) : Prop := exists ls, L !! c = Some ls /\ cl_free ls = [] /\ cl_clean ls = [].

(** A chunk was taken from the list of a CPU. *)
Definition took (k : option nat) (C : list (list Z)) (L : list cpu_lists) (E : list Z) (x : dyn) (r : option (Z * nat)) (x' : dyn) : Prop :=
  exists a c L', r = Some (a, c) /\ dyn_inv k C L' (a :: E) x' /\ kept x x' /\ map cl_rinsing L' = map cl_rinsing L /\ spare L' (a :: E) ≡ₚ spare L E /\ (c < length L)%nat.

(** A drop was counted. *)
Definition dropped (k : option nat) (C : list (list Z)) (L : list cpu_lists) (E : list Z) (me : nat) (x : dyn) (r : option (Z * nat)) (x' : dyn) : Prop :=
  r = None /\ dyn_inv k C L E x' /\ kept x x' /\ exists d n m o, dy_percpu x !! me = Some d /\ n + m + o = 1 /\ 0 <= n /\ 0 <= m /\ 0 <= o /\
    dy_percpu x' = <[me := add_drops n m o d]> (dy_percpu x).

Lemma rinsing_insert L c ls ls' : L !! c = Some ls -> cl_rinsing ls' = cl_rinsing ls -> map cl_rinsing (<[c := ls']> L) = map cl_rinsing L.
Proof.
  intros Hc Hr. change (cl_rinsing <$> <[c := ls']> L = cl_rinsing <$> L). rewrite list_fmap_insert, Hr. apply list_insert_id. by rewrite list_lookup_fmap, Hc.
Qed.

Lemma take_free k C L E fuel me c ns a rest ls x :
  dyn_inv k C L E x -> L !! c = Some ls -> cl_free ls = a :: rest -> runs (take_chunk alone (S fuel) me c ns) x (took k C L E x).
Proof.
  intros Hi Hc Hfree. destruct (di_cpu _ _ _ _ _ Hi c ls Hc) as (d & Hd & Hf & Hdi & Hr & Hcl). rewrite Hfree in Hf. destruct Hf as [Hda (v & Hv & Hf)].
  cbn [take_chunk]. eapply bind_cpu; [exact Hd|]. rewrite Hda. eapply bind_var; [exact Hv|]. apply bind_puts. eapply bind_cpu; [exact Hd|]. rewrite Hda, bool_decide_eq_true_2 by done.
  eapply bind_upd_cpu; [exact Hd|]. apply runs_ret. exists a, c, (<[c := CpuLists rest (cl_dirty ls) (cl_rinsing ls) (cl_clean ls)]> L). split; [done|].
  assert (Hp : (a :: E) ++ cpu_all (CpuLists rest (cl_dirty ls) (cl_rinsing ls) (cl_clean ls)) ≡ₚ E ++ cpu_all ls).
  { unfold cpu_all. rewrite Hfree. cbn. solve_Permutation. }
  split. { apply (inv_alike _ _ _ _ (set_percpu (<[c := put_free (dtdv_next v) d]> (dy_percpu x)) x)); [by split|]. by eapply inv_cpu. }
  split; [by split|]. split; [by eapply rinsing_insert|]. split; [|by eapply lookup_lt_Some].
  destruct (concat_put cpu_all L c ls Hc) as (rest' & H1 & H2). unfold spare. rewrite H1, H2, !app_assoc. by rewrite Hp.
Qed.

Lemma took_weaken k C L L1 E x x1 r x' :
  kept x x1 -> map cl_rinsing L1 = map cl_rinsing L -> spare L1 E ≡ₚ spare L E -> took k C L1 E x1 r x' -> took k C L E x r x'.
Proof.
  intros Hk Hl Hp (a & c & L' & -> & Hi & Hk' & Hl' & Hp' & Hc). exists a, c, L'. split; [done|]. split; [done|]. split; [by eapply kept_trans|]. split; [congruence|]. split; [by rewrite Hp', <- Hp|]. apply (f_equal length) in Hl. rewrite !length_map in Hl. lia.
Qed.

Lemma take_clean k C L E fuel me c ns a rest ls x :
  dyn_inv k C L E x -> L !! c = Some ls -> cl_free ls = [] -> cl_clean ls = a :: rest -> runs (take_chunk alone (S (S fuel)) me c ns) x (took k C L E x).
Proof.
  intros Hi Hc Hfree Hclean. destruct (di_cpu _ _ _ _ _ Hi c ls Hc) as (d & Hd & Hf & Hdi & Hr & Hcl). rewrite Hfree in Hf. cbn in Hf. rewrite Hclean in Hcl. pose proof (seg_head _ _ _ _ Hcl) as Hda.
  assert (Hsp : a ∈ concat (map cpu_all L)).
  { destruct (concat_put cpu_all L c ls Hc) as (rest' & -> & _). unfold cpu_all. rewrite Hclean. set_solver. }
  destruct (di_free _ _ _ _ _ Hi a (or_intror Hsp)) as (v & Hv & Hv0). pose proof (lookup_lt_Some _ _ _ Hd) as Hlt.
  remember (S fuel) as f1. cbn [take_chunk]. eapply bind_cpu; [exact Hd|]. rewrite Hf, Hda. apply bind_puts. eapply bind_cpu; [exact Hd|]. rewrite Hda, bool_decide_eq_true_2 by done.
  eapply bind_upd_cpu; [exact Hd|]. eapply bind_var; [exact Hv|]. apply bind_assert; [by rewrite Hv0|]. apply bind_puts.
  eapply bind_cpu; [cbn; by apply list_lookup_insert_eq|]. apply bind_assert; [cbn; by rewrite Hf|]. eapply bind_upd_cpu; [cbn; by apply list_lookup_insert_eq|]. subst f1.
  set (L1 := <[c := CpuLists (a :: rest) (cl_dirty ls) (cl_rinsing ls) []]> L). set (x1 := set_percpu _ _).
  assert (Hp : E ++ cpu_all (CpuLists (a :: rest) (cl_dirty ls) (cl_rinsing ls) []) ≡ₚ E ++ cpu_all ls). { unfold cpu_all. rewrite Hfree, Hclean. cbn. solve_Permutation. }
  assert (Hi1 : dyn_inv k C L1 E x1).
  { apply (inv_fields _ _ _ _ (set_percpu (<[c := put_free (Some a) (put_clean None d)]> (dy_percpu x)) x)); try done; [|cbn; by rewrite list_insert_insert_eq].
    eapply inv_cpu; [exact Hi|exact Hc|exact Hd| |exact Hp]. rewrite Hda in Hcl. unfold cpu_ok. cbn -[seg]. by split_and!. }
  eapply runs_weaken; [eapply (take_free k C L1 E fuel me c ns a rest); [exact Hi1|unfold L1; apply list_lookup_insert_eq; by eapply lookup_lt_Some|done]|].
  intros r x'. apply took_weaken; [by split|unfold L1; by eapply rinsing_insert|].
  destruct (concat_put cpu_all L c ls Hc) as (rest' & H1 & H2). unfold spare, L1. rewrite H1, H2, !app_assoc. by rewrite Hp.
Qed.

Lemma busy_take k C L E fuel me c ns ls x :
  dyn_inv k C L E x -> L !! c = Some ls -> ~ idle L c -> runs (take_chunk alone (S (S fuel)) me c ns) x (took k C L E x).
Proof.
  intros Hi Hc Hn. destruct (cl_free ls) as [|a rest] eqn:Ef; [|by eapply take_free]. destruct (cl_clean ls) as [|a rest] eqn:Ec; [|by eapply take_clean]. destruct Hn. by exists ls.
Qed.

(** The lists of a CPU whose lists are empty. *)
Lemma idle_cpu k C L E x c : dyn_inv k C L E x -> idle L c -> exists d, dy_percpu x !! c = Some d /\ dtdsc_free d = None /\ dtdsc_clean d = None.
Proof. intros Hi (ls & Hc & Hf & Hcl). destruct (di_cpu _ _ _ _ _ Hi c ls Hc) as (d & Hd & H1 & _ & _ & H4). rewrite Hf in H1. rewrite Hcl in H4. by exists d. Qed.

Lemma take_drop_run k C L E fuel me c ns x :
  dyn_inv k C L E x -> idle L c -> dy_state x <> DTRACE_DSTATE_CLEAN -> runs (take_chunk alone (S fuel) me c ns) x (dropped k C L E c x).
Proof.
  intros Hi Hidle Hs. destruct (idle_cpu _ _ _ _ _ _ Hi Hidle) as (d & Hd & Hf & Hcl). destruct Hidle as (ls & Hc & _).
  assert (Hdrop : forall n m o, n + m + o = 1 -> 0 <= n -> 0 <= m -> 0 <= o ->
    runs (sbind (upd_cpu c (add_drops n m o)) (fun _ => sbind (sputs (fun x => set_mach (set_flag CPU_DTRACE_DROP (dy_m x)) x)) (fun _ => sret (@None (Z * nat))))) x (dropped k C L E c x)).
  { intros n m o Hn H1 H2 H3. eapply bind_upd_cpu; [exact Hd|]. apply bind_puts. apply runs_ret. split; [done|].
    split. { apply (inv_fields _ _ _ _ (set_percpu (<[c := add_drops n m o d]> (dy_percpu x)) x)); try done. rewrite <- (list_insert_id L c ls Hc).
      destruct (di_cpu _ _ _ _ _ Hi c ls Hc) as (d' & Hd' & Hok). rewrite Hd in Hd'. injection Hd' as <-. by eapply inv_cpu. }
    split; [split; try done; apply faulted_drop|]. by exists d, n, m, o. }
  cbn [take_chunk]. eapply bind_cpu; [exact Hd|]. rewrite Hf, Hcl. eapply bind_gets; [reflexivity|]. destruct (dy_state x); [done|by apply Hdrop..].
Qed.

Definition next_cpu (n c : nat) : nat := if (n <=? S c)%nat then O else S c.

Lemma next_cpu_mod n c : (c < n)%nat -> next_cpu n c = (S c mod n)%nat.
Proof.
  intros Hc. unfold next_cpu. destruct (Nat.leb_spec n (S c)); [replace (S c) with n by lia; by rewrite Nat.Div0.mod_same|by rewrite Nat.mod_small].
Qed.

Lemma nstate_not_clean d ns : ns <> DTRACE_DSTATE_CLEAN -> next_nstate d ns <> DTRACE_DSTATE_CLEAN.
Proof. intros H. unfold next_nstate. cbn zeta. destruct (bool_decide (dtdsc_rinsing d <> None)); [done|]. by destruct (_ && _). Qed.

(** A lap over the CPUs from [c] to [me], which has nothing. *)
Lemma take_lap k C L E me x : forall j fuel c ns,
  dyn_inv k C L E x -> idle L me -> dy_state x = DTRACE_DSTATE_CLEAN -> ns <> DTRACE_DSTATE_CLEAN -> (c < length L)%nat -> c <> me -> (j < length L)%nat -> ((c + j) mod length L = me)%nat -> (j + 2 < fuel)%nat ->
  runs (take_chunk alone fuel me c ns) x (fun r x' => took k C L E x r x' \/ (dropped k C L E me x r x' /\ forall i, (i <= j)%nat -> idle L ((c + i) mod length L)%nat)).
Proof.
  induction j as [|j IH]; intros fuel c ns Hi Hme Hs Hns Hc Hne Hj Hm Hfuel.
  { rewrite Nat.add_0_r, Nat.mod_small in Hm by done. done. }
  destruct (lookup_lt_is_Some_2 L c Hc) as [ls Hls]. destruct fuel as [|[|fuel]]; [lia..|]. destruct (cl_free ls) as [|a rest] eqn:Ef.
  2: { eapply runs_weaken; [by eapply take_free|]. by left. }
  destruct (cl_clean ls) as [|a rest] eqn:Ec.
  2: { eapply runs_weaken; [by eapply take_clean|]. by left. }
  assert (Hidle : idle L c) by (by exists ls). destruct (idle_cpu _ _ _ _ _ _ Hi Hidle) as (d & Hd & Hdf & Hdc). remember (S fuel) as f1. cbn [take_chunk]. eapply bind_cpu; [exact Hd|].
  rewrite Hdf, Hdc. eapply bind_gets; [reflexivity|]. rewrite Hs. eapply bind_gets; [reflexivity|]. cbn zeta. rewrite (di_ncpu _ _ _ _ _ Hi). fold (next_cpu (length L) c).
  pose proof (next_cpu_mod (length L) c Hc) as Hnc. assert (Hstep : ((next_cpu (length L) c + j) mod length L = me)%nat).
  { rewrite Hnc, Nat.Div0.add_mod_idemp_l. by replace (S c + j)%nat with (c + S j)%nat by lia. }
  assert (Hcov : (forall i, (i <= j)%nat -> idle L ((next_cpu (length L) c + i) mod length L)%nat) -> forall i, (i <= S j)%nat -> idle L ((c + i) mod length L)%nat).
  { intros H [|i] Hle; [by rewrite Nat.add_0_r, Nat.mod_small|]. specialize (H i ltac:(lia)). rewrite Hnc, Nat.Div0.add_mod_idemp_l in H. by replace (c + S i)%nat with (S c + i)%nat by lia. }
  destruct (Nat.eqb_spec (next_cpu (length L) c) me) as [He|Hn]; cbn [negb].
  - apply bind_puts. apply bind_puts. rewrite decide_True by (cbn; done). subst f1. eapply runs_weaken; [apply (take_drop_run k C L E fuel me (next_cpu (length L) c))|].
    + by apply (inv_fields _ _ _ _ x).
    + by rewrite He.
    + cbn. by apply nstate_not_clean.
    + intros r x' (-> & Hi' & Hk' & Hd'). right. rewrite He in Hd'. split.
      * split; [done|]. split; [done|]. split; [|exact Hd']. destruct Hk'. by split.
      * assert (Hj0 : j = 0%nat). { rewrite He in Hstep. assert (me < length L)%nat by (destruct Hme as (lm & Hlm & _); by eapply lookup_lt_Some).
          destruct (decide (j = 0)%nat) as [|Hj0]; [done|]. exfalso. destruct (decide (me + j < length L)%nat) as [Hlt|Hge]; [rewrite Nat.mod_small in Hstep by done; lia|].
          replace (me + j)%nat with (me + j - length L + 1 * length L)%nat in Hstep by lia. rewrite Nat.Div0.mod_add, Nat.mod_small in Hstep by lia. lia. }
        apply Hcov. intros i Hle. replace i with 0%nat by lia. rewrite Nat.add_0_r, He, Nat.mod_small; [done|]. destruct Hme as (lm & Hlm & _). by eapply lookup_lt_Some.
  - subst f1. eapply runs_weaken; [apply (IH (S fuel) (next_cpu (length L) c) (next_nstate d ns)); try done; try lia|].
    + by apply nstate_not_clean.
    + rewrite Hnc. apply Nat.mod_upper_bound. lia.
    + intros r x' [H|[H1 H2]]; [by left|right; split; [done|by apply Hcov]].
Qed.

(** No CPU that was asked had a chunk: only [me] when the state word says that there is none, else all. *)
Definition starved (L : list cpu_lists) (me : nat) (s : dstate_state) : Prop :=
  idle L me /\ (s = DTRACE_DSTATE_CLEAN -> forall c, (c < length L)%nat -> idle L c).

#[local] Instance idle_dec L c : Decision (idle L c).
Proof.
  unfold idle. destruct (L !! c) as [ls|]; [|right; by intros (ls & H & _)]. destruct (decide (cl_free ls = [] /\ cl_clean ls = [])) as [H|H]; [left; by exists ls|].
  right. intros (ls' & [= <-] & H'). done.
Defined.

Lemma wrap_index n me c : (me < n)%nat -> (c < n)%nat -> exists i, (i <= n - 1)%nat /\ ((next_cpu n me + i) mod n = c)%nat.
Proof.
  intros Hme Hc. rewrite (next_cpu_mod n me Hme). destruct (decide (me < c)%nat).
  - exists (c - S me)%nat. split; [lia|]. rewrite Nat.Div0.add_mod_idemp_l. replace (S me + (c - S me))%nat with c by lia. by apply Nat.mod_small.
  - exists (c + n - S me)%nat. split; [lia|]. rewrite Nat.Div0.add_mod_idemp_l. replace (S me + (c + n - S me))%nat with (c + 1 * n)%nat by lia. rewrite Nat.Div0.mod_add. by apply Nat.mod_small.
Qed.

Lemma take_chunk_run k C L E fuel me x :
  dyn_inv k C L E x -> (me < length L)%nat -> (length L + 3 < fuel)%nat ->
  runs (take_chunk alone fuel me me DTRACE_DSTATE_EMPTY) x (fun r x' => took k C L E x r x' \/ (dropped k C L E me x r x' /\ starved L me (dy_state x))).
Proof.
  intros Hi Hme Hfuel. destruct (lookup_lt_is_Some_2 L me Hme) as [ls Hls]. destruct fuel as [|[|fuel]]; [lia..|].
  destruct (decide (idle L me)) as [Hidle|Hbusy]; [|eapply runs_weaken; [by eapply busy_take|by left]].
  destruct (decide (dy_state x = DTRACE_DSTATE_CLEAN)) as [Hs|Hs].
  2: { eapply runs_weaken; [by apply (take_drop_run k C L E)|]. intros r x' H. right. split; [done|]. split; [done|]. by intros. }
  destruct (idle_cpu _ _ _ _ _ _ Hi Hidle) as (d & Hd & Hdf & Hdc). remember (S fuel) as f1. cbn [take_chunk]. eapply bind_cpu; [exact Hd|].
  rewrite Hdf, Hdc. eapply bind_gets; [reflexivity|]. rewrite Hs. eapply bind_gets; [reflexivity|]. cbn zeta. rewrite (di_ncpu _ _ _ _ _ Hi). fold (next_cpu (length L) me).
  assert (Hns : next_nstate d DTRACE_DSTATE_EMPTY <> DTRACE_DSTATE_CLEAN) by (by apply nstate_not_clean). pose proof (next_cpu_mod (length L) me Hme) as Hnc.
  destruct (Nat.eqb_spec (next_cpu (length L) me) me) as [He|Hn]; cbn [negb].
  - apply bind_puts. apply bind_puts. rewrite decide_True by (cbn; done). subst f1. eapply runs_weaken; [apply (take_drop_run k C L E fuel me (next_cpu (length L) me))|].
    + by apply (inv_fields _ _ _ _ x).
    + by rewrite He.
    + done.
    + intros r x' (-> & Hi' & Hk' & Hd'). right. rewrite He in Hd'. split; [split; [done|]; split; [done|]; split; [|exact Hd']; destruct Hk'; by split|]. split; [done|]. intros _ c Hc.
      assert (Hl : length L = 1%nat). { rewrite Hnc in He. destruct (decide (S me < length L)%nat) as [Hlt|]; [rewrite Nat.mod_small in He by done; lia|].
        replace (S me) with (length L) in He by lia. rewrite Nat.Div0.mod_same in He. lia. }
      by replace c with me by lia.
  - subst f1. eapply runs_weaken; [apply (take_lap k C L E me x (length L - 1) (S fuel) (next_cpu (length L) me) (next_nstate d DTRACE_DSTATE_EMPTY)); try done; try lia|].
    + rewrite Hnc. apply Nat.mod_upper_bound. lia.
    + rewrite Hnc, Nat.Div0.add_mod_idemp_l. replace (S me + (length L - 1))%nat with (me + 1 * length L)%nat by lia. rewrite Nat.Div0.mod_add. by apply Nat.mod_small.
    + intros r x' [H|[H1 H2]]; [by left|right]. split; [done|]. split; [done|]. intros _ c Hc. destruct (wrap_index (length L) me c Hme Hc) as (i & Hle & <-). by apply H2.
Qed.

(** * Changing headers *)

Lemma in_concat_lookup {A} (f : A -> list Z) (l : list A) i y a : l !! i = Some y -> a ∈ f y -> a ∈ concat (map f l).
Proof. intros Hi Ha. apply list_elem_of_In, in_concat. exists (f y). split; [apply in_map, list_elem_of_In; by eapply list_elem_of_lookup_2|by apply list_elem_of_In]. Qed.

Lemma in_chain (C : list (list Z)) b l a : C !! b = Some l -> a ∈ l -> a ∈ concat C.
Proof. intros Hb Ha. pose proof (in_concat_lookup (fun l => l) C b l a Hb Ha) as H. by rewrite map_id in H. Qed.

Lemma in_hands k C L E a x : dyn_inv k C L (a :: E) x -> a <> sink /\ a ∉ E /\ a ∉ concat C /\ a ∉ concat (map cpu_all L).
Proof.
  intros Hi. pose proof (di_nodup _ _ _ _ _ Hi) as Hn. unfold all_chunks in Hn. cbn in Hn. apply NoDup_cons in Hn as [Hs Hn]. apply NoDup_cons in Hn as [Ha _]. set_solver.
Qed.

(** The chains, the lists and the spare chunks have no chunk in common. *)
Lemma apart k C L E x a : dyn_inv k C L E x -> a ∈ concat C -> a <> sink /\ a ∉ E /\ a ∉ concat (map cpu_all L).
Proof.
  intros Hi Ha. pose proof (di_nodup _ _ _ _ _ Hi) as Hn. unfold all_chunks in Hn. apply NoDup_cons in Hn as [Hs Hn]. apply NoDup_app in Hn as (_ & H1 & Hn). apply NoDup_app in Hn as (_ & H2 & _).
  split; [intros ->; apply Hs; set_solver|]. split; [intros He; apply (H1 a He); set_solver|by apply H2].
Qed.

Lemma inv_rebuild k C L E k' C' L' E' x x' :
  dyn_inv k C L E x -> dy_ds x' = dy_ds x -> length C' = length C -> length (dy_hash x') = length (dy_hash x) -> length (dy_percpu x') = length L' ->
  dy_vars x' !! sink = dy_vars x !! sink -> all_chunks C' L' E' ≡ₚ all_chunks C L E -> bytes_ok (dy_m x') ->
  (forall b l, C' !! b = Some l -> exists h, dy_hash x' !! b = Some h /\ seg (dy_vars x') (dtdh_chain h) l (Some sink) /\ is_u64 (dtdh_lock h) /\ Z.odd (dtdh_lock h) = bool_decide (k' = Some b)) ->
  (forall b l a, C' !! b = Some l -> a ∈ l -> exists v, dy_vars x' !! a = Some v /\ live_ok x' b a v) ->
  (forall c ls, L' !! c = Some ls -> exists d, dy_percpu x' !! c = Some d /\ cpu_ok (dy_vars x') d ls) ->
  (forall a, a ∈ E' \/ a ∈ concat (map cpu_all L') -> exists v, dy_vars x' !! a = Some v /\ dtdv_hashval v = DTRACE_DYNHASH_FREE) ->
  (forall a a', a ∈ concat C' -> a' ∈ concat C' -> cont x' a = cont x' a' -> a = a') ->
  dyn_inv k' C' L' E' x'.
Proof.
  intros [a1 a2 a3 a4 a5 a6 a7 a8 a9 a10 a11 a12 a13 a14 a15] Hds Hc Hh Hp Hs Hall Hb b1 b2 b3 b4 b5. assert (Hcs : chunksize x' = chunksize x) by (unfold chunksize; by rewrite Hds).
  split; try done.
  - congruence.
  - rewrite Hds, Hc. done.
  - by rewrite Hc.
  - by rewrite Hs.
  - apply NoDup_cons in a6 as [Hns Hnd]. apply NoDup_cons. by rewrite Hall.
  - intros a a'. rewrite Hall, Hcs. apply a12.
  - intros a. rewrite Hall, Hcs. apply a13.
  - by rewrite Hcs.
Qed.

Lemma cpu_ok_frame vars vars' d ls : (forall a, a ∈ cpu_all ls -> same_next vars vars' a) -> cpu_ok vars d ls -> cpu_ok vars' d ls.
Proof. intros H (H1 & H2 & H3 & H4). unfold cpu_all in H. split_and!; (eapply chunks_frame; [|eassumption]); intros a Ha; apply H; set_solver. Qed.

Lemma same_next_insert vars a v b : b <> a -> same_next vars (<[a := v]> vars) b.
Proof. intros H. unfold same_next. by rewrite lookup_insert_ne. Qed.

(** * Freeing a chunk *)

Lemma push_dirty_run k C L E fuel c a ls x :
  dyn_inv k C L (a :: E) x -> L !! c = Some ls ->
  runs (push_dirty alone (S fuel) c a) x (fun _ x' => dyn_inv k C (<[c := CpuLists (cl_free ls) (a :: cl_dirty ls) (cl_rinsing ls) (cl_clean ls)]> L) E x' /\
    (forall b, b <> a -> dy_vars x' !! b = dy_vars x !! b) /\ dy_ds x' = dy_ds x /\ dy_hash x' = dy_hash x /\ dy_m x' = dy_m x).
Proof.
  intros Hi Hc. destruct (di_cpu _ _ _ _ _ Hi c ls Hc) as (d & Hd & Hok). destruct (di_free _ _ _ _ _ Hi a ltac:(left; set_solver)) as (v & Hv & Hv0).
  destruct (in_hands _ _ _ _ _ _ Hi) as (Has & HaE & HaC & HaL). pose proof (lookup_lt_Some _ _ _ Hc) as Hlt.
  cbn [push_dirty]. eapply bind_cpu; [exact Hd|]. eapply bind_upd_var; [exact Hv|]. apply bind_puts. eapply bind_cpu; [exact Hd|]. rewrite bool_decide_eq_true_2 by done.
  eexists _, _. split; [unfold upd_cpu, sbind, get_cpu, sgets; cbn; rewrite Hd; reflexivity|]. split; [|split; [intros b Hb; cbn; by rewrite lookup_insert_ne|done]].
  pose (vars' := <[a := put_next (dtdsc_dirty d) v]> (dy_vars x)). set (ls' := CpuLists _ _ _ _). assert (Hsn : forall b, b <> a -> same_next (dy_vars x) vars' b) by (intros b Hb; by apply same_next_insert).
  eapply inv_rebuild; [exact Hi|done|done|done|cbn; rewrite !length_insert; apply Hi|cbn; by rewrite lookup_insert_ne| |apply Hi|..]; cbn [alone dy_ds dy_hash dy_vars dy_percpu dy_m set_percpu set_vars set_hash tick].
  - destruct (concat_put cpu_all L c ls Hc) as (rest & H1 & H2). apply all_perm. unfold spare. rewrite H1, H2. unfold ls', cpu_all. cbn. solve_Permutation.
  - intros b l Hb. destruct (di_chain _ _ _ _ _ Hi b l Hb) as (h & Hh & Hseg & Hl). exists h. split; [done|]. split; [|done]. eapply chunks_frame; [|exact Hseg]. intros e He. apply Hsn. intros ->. by apply HaC, (in_chain C b l).
  - intros b l e Hb He. destruct (di_live _ _ _ _ _ Hi b l e Hb He) as (w & Hw & Hl). exists w. split; [|exact Hl]. rewrite lookup_insert_ne; [done|]. intros <-. by apply HaC, (in_chain C b l).
  - intros c1 ls1. destruct (decide (c1 = c)) as [->|Hne].
    + rewrite !list_lookup_insert_eq by (rewrite ?(di_ncpu _ _ _ _ _ Hi); lia). intros [= <-]. eexists. split; [done|]. assert (Hf : cpu_ok vars' d ls). { eapply cpu_ok_frame; [|exact Hok]. intros e He. apply Hsn. intros ->. apply HaL. by eapply in_concat_lookup. }
      destruct Hf as (H1 & H2 & H3 & H4). split; [exact H1|]. split; [|done]. split; [done|]. exists (put_next (dtdsc_dirty d) v). split; [apply lookup_insert_eq|exact H2].
    + rewrite !list_lookup_insert_ne by done. intros Hc1. destruct (di_cpu _ _ _ _ _ Hi c1 ls1 Hc1) as (d1 & Hd1 & Hok1). exists d1. split; [done|]. eapply cpu_ok_frame; [|exact Hok1].
      intros e He. apply Hsn. intros ->. apply HaL. by eapply in_concat_lookup.
  - intros e He. destruct (decide (e = a)) as [->|Hne]; [rewrite lookup_insert_eq; by eexists|]. rewrite lookup_insert_ne by done. apply (di_free _ _ _ _ _ Hi). destruct He as [He|He]; [left; set_solver|].
    right. destruct (concat_put cpu_all L c ls Hc) as (rest & H1 & H2). rewrite H1. rewrite H2 in He. unfold ls', cpu_all in *. cbn in He. set_solver.
  - intros e e' He He'. unfold cont. cbn [dy_vars dy_m set_percpu set_vars tick interfere alone]. rewrite !lookup_insert_ne by (intros <-; done). apply (di_unique _ _ _ _ _ Hi e e' He He').
Qed.

(** * The lock of a bucket *)

Lemma inv_lock k k' C L E x b h lock :
  dyn_inv k C L E x -> dy_hash x !! b = Some h -> is_u64 lock -> Z.odd lock = bool_decide (k' = Some b) ->
  (forall b', b' <> b -> bool_decide (k' = Some b') = bool_decide (k = Some b')) ->
  dyn_inv k' C L E (set_hash (<[b := Dynhash (dtdh_chain h) lock]> (dy_hash x)) x).
Proof.
  intros Hi Hh Hu Ho Hk. pose proof (lookup_lt_Some _ _ _ Hh) as Hlt. eapply inv_rebuild; [exact Hi|done|done|cbn; by rewrite length_insert|apply Hi|done|done|apply Hi| |apply Hi|apply Hi|apply Hi|apply Hi].
  intros b' l Hb'. destruct (di_chain _ _ _ _ _ Hi b' l Hb') as (h' & Hh' & Hs & Hl' & Ho'). cbn [dy_hash dy_vars set_hash]. destruct (decide (b' = b)) as [->|Hne].
  - rewrite list_lookup_insert_eq by done. rewrite Hh in Hh'. injection Hh' as <-. eexists. split; [done|]. done.
  - rewrite list_lookup_insert_ne by done. exists h'. rewrite Hk by done. done.
Qed.

Lemma odd_u64_succ n : Z.odd (u64 (n + 1)) = negb (Z.odd n).
Proof.
  unfold u64. rewrite <- Z.negb_even, <- (Z.negb_even n). f_equal.
  assert (H : (n + 1) mod 18446744073709551616 = n + 1 - 2 * (9223372036854775808 * ((n + 1) / 18446744073709551616))) by (pose proof (Z.div_mod (n + 1) 18446744073709551616); lia).
  rewrite H, Z.even_sub, Z.even_mul, Z.even_add. cbn. by destruct (Z.even n).
Qed.

Lemma lock_run C L E fuel b x :
  dyn_inv None C L E x -> (b < length C)%nat ->
  runs (lock_bucket alone (S fuel) (Z.of_nat b)) x (fun _ x' => dyn_inv (Some b) C L E x' /\ dy_vars x' = dy_vars x /\ dy_ds x' = dy_ds x /\ dy_m x' = dy_m x).
Proof.
  intros Hi Hb. destruct (lookup_lt_is_Some_2 C b Hb) as [l Hl]. destruct (di_chain _ _ _ _ _ Hi b l Hl) as (h & Hh & Hs & Hu & Ho).
  cbn [lock_bucket]. eapply bind_bucket; [by rewrite Nat2Z.id|]. apply bind_puts. rewrite Ho, bool_decide_eq_false_2 by done. eapply bind_bucket; [cbn; by rewrite Nat2Z.id|]. rewrite Z.eqb_refl.
  apply runs_puts. split; [|done]. rewrite Nat2Z.id. apply (inv_lock None (Some b) C L E (tick x) b h).
  - by eapply inv_alike; [apply alike_tick|].
  - done.
  - apply u64_range.
  - rewrite odd_u64_succ, Ho, bool_decide_eq_false_2, bool_decide_eq_true_2 by done. done.
  - intros b' Hne. rewrite !bool_decide_eq_false_2 by congruence. done.
Qed.

Lemma unlock_run C L E b h x :
  dyn_inv (Some b) C L E x -> dy_hash x !! b = Some h ->
  runs (unlock (Z.of_nat b) (dtdh_lock h)) x (fun _ x' => dyn_inv None C L E x' /\ dy_vars x' = dy_vars x /\ dy_ds x' = dy_ds x /\ dy_m x' = dy_m x).
Proof.
  intros Hi Hh. assert (Hb : (b < length C)%nat) by (rewrite <- (di_buckets _ _ _ _ _ Hi); by eapply lookup_lt_Some). destruct (lookup_lt_is_Some_2 C b Hb) as [l Hl].
  destruct (di_chain _ _ _ _ _ Hi b l Hl) as (h' & Hh' & Hs & Hu & Ho). rewrite Hh in Hh'. injection Hh' as <-. rewrite bool_decide_eq_true_2 in Ho by done.
  unfold unlock. eapply bind_bucket; [by rewrite Nat2Z.id|]. apply bind_assert; [by rewrite Z.eqb_refl, Ho|]. apply runs_puts. split; [|done]. rewrite Nat2Z.id.
  apply (inv_lock (Some b) None C L E x b h); [done|done|apply u64_range| |].
  - rewrite odd_u64_succ, Ho, bool_decide_eq_false_2 by done. done.
  - intros b' Hne. rewrite !bool_decide_eq_false_2 by congruence. done.
Qed.

(** * Taking a variable off its chain *)

(** The headers and the head of the chain after chunk [a] of the chain [pre ++ a :: post] was taken out and marked free. *)
Definition unlink_vars (vars : gmap Z dynvar) (pre : list Z) (a : Z) (v : dynvar) : gmap Z dynvar :=
  <[a := put_hashval DTRACE_DYNHASH_FREE v]> (match last pre with Some p => alter (put_next (dtdv_next v)) p vars | None => vars end).
Definition unlink_head (pre : list Z) (v : dynvar) (h : dynhash) : option Z := match last pre with Some _ => dtdh_chain h | None => dtdv_next v end.

Lemma unlink_seg vars pre a v post o :
  NoDup (pre ++ a :: post) -> vars !! a = Some v -> seg vars o (pre ++ a :: post) (Some sink) ->
  seg (unlink_vars vars pre a v) (match last pre with Some _ => o | None => dtdv_next v end) (pre ++ post) (Some sink).
Proof.
  intros Hnd Hv Hseg. apply chunks_app in Hseg as (p & H1 & [-> (v' & Hv' & H2)]). rewrite Hv in Hv'. injection Hv' as <-.
  apply NoDup_app in Hnd as (Hn1 & Hd & [Ha Hn2]%NoDup_cons). unfold unlink_vars. destruct (last pre) as [q|] eqn:El.
  - apply last_Some in El as [pre0 ->]. apply chunks_app in H1 as (r & H0 & [-> (w & Hw & Hwn)]). cbn in Hwn.
    apply NoDup_app in Hn1 as (Hn0 & Hd0 & _). assert (Hqa : q <> a) by (intros ->; apply (Hd a); set_solver).
    rewrite <- app_assoc. apply chunks_app. exists (Some q). split.
    + eapply chunks_frame; [|exact H0]. intros e He. unfold same_next. rewrite lookup_insert_ne by (intros <-; apply (Hd a); set_solver). rewrite lookup_alter_ne; [done|]. intros <-. apply (Hd0 q He). set_solver.
    + split; [done|]. exists (put_next (dtdv_next v) w). split; [rewrite lookup_insert_ne by done; by rewrite lookup_alter_eq, Hw|]. eapply chunks_frame; [|exact H2].
      intros e He. unfold same_next. rewrite lookup_insert_ne by (intros <-; done). rewrite lookup_alter_ne; [done|]. intros <-. apply (Hd q); set_solver.
  - apply last_None in El as ->. cbn in *. eapply chunks_frame; [|exact H2]. intros e He. apply same_next_insert. by intros ->.
Qed.

Lemma unlink_other vars pre a v e : e <> a -> dtdv_tuple <$> unlink_vars vars pre a v !! e = dtdv_tuple <$> vars !! e /\ dtdv_hashval <$> unlink_vars vars pre a v !! e = dtdv_hashval <$> vars !! e.
Proof.
  intros Hne. unfold unlink_vars. rewrite lookup_insert_ne by done. destruct (last pre) as [q|]; [|done]. destruct (decide (q = e)) as [->|Hq]; [rewrite lookup_alter_eq; by destruct (vars !! e)|by rewrite lookup_alter_ne].
Qed.

Lemma unlink_outside vars pre a v e : e <> a -> e ∉ pre -> unlink_vars vars pre a v !! e = vars !! e.
Proof.
  intros Hne Hni. unfold unlink_vars. rewrite lookup_insert_ne by done. destruct (last pre) as [q|] eqn:El; [|done]. rewrite lookup_alter_ne; [done|]. intros ->. apply Hni. by apply last_Some_elem_of.
Qed.

(** Two variables with the same keys, hash value and place. *)
Lemma live_same x x' b a v v' :
  dtdv_tuple v' = dtdv_tuple v -> dtdv_hashval v' = dtdv_hashval v -> dy_ds x' = dy_ds x -> m_mem (dy_m x') = m_mem (dy_m x) -> live_ok x b a v -> live_ok x' b a v'.
Proof. intros H1 H2 H3 H4 [L1 L2 L3]. unfold live_ok, chunksize. split; rewrite ?H1, ?H2, ?H3, ?H4; done. Qed.

Lemma chain_nodup k C L E x b l : dyn_inv k C L E x -> C !! b = Some l -> NoDup l.
Proof.
  intros Hi Hb. pose proof (di_nodup _ _ _ _ _ Hi) as Hn. unfold all_chunks in Hn. apply NoDup_cons in Hn as [_ (_ & _ & [Hc _]%NoDup_app)%NoDup_app].
  destruct (chains_insert C b l Hb) as (rest & H1 & _). rewrite H1 in Hc. by apply NoDup_app in Hc as [Hc _].
Qed.

Lemma chains_apart k C L E x b b' l l' a : dyn_inv k C L E x -> C !! b = Some l -> C !! b' = Some l' -> a ∈ l -> a ∈ l' -> b = b'.
Proof.
  intros Hi Hb Hb' Ha Ha'. destruct (di_live _ _ _ _ _ Hi b l a Hb Ha) as (v & Hv & [_ H1 _]). destruct (di_live _ _ _ _ _ Hi b' l' a Hb' Ha') as (v' & Hv' & [_ H2 _]).
  rewrite Hv in Hv'. injection Hv' as <-. lia.
Qed.

Lemma unlink_chunk k C L E x b pre a post v h :
  dyn_inv k C L E x -> C !! b = Some (pre ++ a :: post) -> dy_vars x !! a = Some v -> dy_hash x !! b = Some h ->
  dyn_inv k (<[b := pre ++ post]> C) L (a :: E) (set_vars (unlink_vars (dy_vars x) pre a v) (set_hash (<[b := Dynhash (unlink_head pre v h) (dtdh_lock h)]> (dy_hash x)) x)).
Proof.
  intros Hi Hb Hv Hh. pose proof (lookup_lt_Some _ _ _ Hh) as Hlt. pose proof (lookup_lt_Some _ _ _ Hb) as HltC. pose proof (chain_nodup _ _ _ _ _ _ _ Hi Hb) as Hnd.
  assert (Hsub : forall e, e ∈ concat (<[b := pre ++ post]> C) -> e ∈ concat C /\ e <> a).
  { intros e He. destruct (chains_insert C b _ Hb) as (rest & H1 & H2). rewrite H2 in He. split; [rewrite H1; set_solver|]. intros ->. pose proof (di_nodup _ _ _ _ _ Hi) as Hn.
    apply NoDup_cons in Hn as [_ (_ & _ & [Hc _]%NoDup_app)%NoDup_app]. rewrite H1, <- app_assoc in Hc. cbn in Hc. rewrite <- Permutation_middle in Hc. apply NoDup_cons in Hc as [Hc _]. apply Hc. set_solver. }
  assert (Hpre : forall e, e ∈ pre -> e ∈ concat C) by (intros e He; apply (in_chain C b _ e Hb); set_solver).
  assert (HaC : a ∈ concat C) by (apply (in_chain C b _ a Hb); set_solver). destruct (apart _ _ _ _ _ _ Hi HaC) as (Has & HaE & HaL).
  eapply inv_rebuild; [exact Hi|done|by rewrite length_insert|cbn; by rewrite length_insert|apply Hi| | |apply Hi|..]; cbn [dy_ds dy_hash dy_vars dy_percpu dy_m set_vars set_hash].
  - apply unlink_outside; [done|]. intros Hs. by destruct (apart _ _ _ _ _ _ Hi (Hpre _ Hs)).
  - apply all_perm. destruct (chains_insert C b _ Hb) as (rest & H1 & H2). rewrite H1, H2. unfold spare. cbn. solve_Permutation.
  - intros b' l Hb'. destruct (decide (b' = b)) as [->|Hne].
    + rewrite list_lookup_insert_eq in Hb' by done. rewrite list_lookup_insert_eq by done. injection Hb' as <-. destruct (di_chain _ _ _ _ _ Hi b _ Hb) as (h' & Hh' & Hs & Hl). rewrite Hh in Hh'. injection Hh' as <-.
      eexists. split; [done|]. split; [|exact Hl]. cbn. by apply unlink_seg.
    + rewrite list_lookup_insert_ne in Hb' by done. rewrite list_lookup_insert_ne by done. destruct (di_chain _ _ _ _ _ Hi b' l Hb') as (h' & Hh' & Hs & Hl). exists h'. split; [done|]. split; [|done].
      eapply chunks_frame; [|exact Hs]. intros e He. unfold same_next. rewrite unlink_outside; [done| |].
      * intros ->. apply Hne. eapply (chains_apart _ _ _ _ _ b' b l _ a Hi); [done|exact Hb|done|set_solver].
      * intros He'. apply Hne. eapply (chains_apart _ _ _ _ _ b' b l _ e Hi); [done|exact Hb|done|set_solver].
  - intros b' l e Hb' He. assert (Hold : exists l0, C !! b' = Some l0 /\ e ∈ l0).
    { destruct (decide (b' = b)) as [->|Hne]; [rewrite list_lookup_insert_eq in Hb' by done; injection Hb' as <-; eexists; split; [exact Hb|set_solver]|]. rewrite list_lookup_insert_ne in Hb' by done. by exists l. }
    destruct Hold as (l0 & Hl0 & He0). destruct (di_live _ _ _ _ _ Hi b' l0 e Hl0 He0) as (w & Hw & Hlive). destruct (Hsub e (in_chain _ b' l e Hb' He)) as [_ Hea].
    destruct (unlink_other (dy_vars x) pre a v e Hea) as [Ht Hhv]. rewrite Hw in Ht, Hhv. destruct (unlink_vars (dy_vars x) pre a v !! e) as [w'|] eqn:Ew; [|done]. exists w'. split; [done|].
    injection Ht as Ht. injection Hhv as Hhv. by eapply live_same; [..|exact Hlive].
  - intros c ls Hc. destruct (di_cpu _ _ _ _ _ Hi c ls Hc) as (d & Hd & Hok). exists d. split; [done|]. eapply cpu_ok_frame; [|exact Hok]. intros e He. unfold same_next.
    assert (HeL : e ∈ concat (map cpu_all L)) by (by eapply in_concat_lookup). rewrite unlink_outside; [done|by intros ->|]. intros Hep. by destruct (apart _ _ _ _ _ _ Hi (Hpre _ Hep)) as (_ & _ & ?).
  - intros e He. destruct (decide (e = a)) as [->|Hne]; [unfold unlink_vars; rewrite lookup_insert_eq; by eexists|]. assert (He' : e ∈ E \/ e ∈ concat (map cpu_all L)) by set_solver.
    rewrite unlink_outside; [by apply (di_free _ _ _ _ _ Hi)|done|]. intros Hep. destruct (apart _ _ _ _ _ _ Hi (Hpre _ Hep)) as (_ & ? & ?). tauto.
  - intros e e' He He'. destruct (Hsub e He) as [HeC Hea]. destruct (Hsub e' He') as [HeC' Hea']. assert (Hcont : forall y, y <> a -> cont (set_vars (unlink_vars (dy_vars x) pre a v) (set_hash (<[b := Dynhash (unlink_head pre v h) (dtdh_lock h)]> (dy_hash x)) x)) y = cont x y).
    { intros y Hy. unfold cont. cbn [dy_vars dy_m set_vars set_hash]. destruct (unlink_other (dy_vars x) pre a v y Hy) as [Ht _]. destruct (unlink_vars _ _ _ _ !! y), (dy_vars x !! y); cbn in Ht; try done. injection Ht as ->. done. }
    rewrite !Hcont by done. by apply (di_unique _ _ _ _ _ Hi).
Qed.
End Inv.
