(* ===== verification/DynOps.v ===== *)
(** Lookup, allocation and deallocation of dynamic variables, run alone, on states whose chunks are in order. *)
From S2P Require Import Prelude StateProg Dif SafeMem DifValidate DifEmulate DifSafety DynVar DynKeys DynLists.
From stdpp Require Import gmap list.
#[local] Open Scope Z_scope.
#[local] Open Scope sprog_scope.

Section Ops.
Context (P : platform) (sink : Z).
Abbreviation dyn_inv := (DynLists.dyn_inv sink).

(** The contents of the variables other than [a] are as before. *)
Definition others_same (a : Z) (x x' : dyn) : Prop :=
  dy_ds x' = dy_ds x /\ dy_m x' = dy_m x /\ forall e, e <> a -> dtdv_tuple <$> dy_vars x' !! e = dtdv_tuple <$> dy_vars x !! e.

Lemma others_cont a x x' e : others_same a x x' -> e <> a -> cont x' e = cont x e.
Proof. intros (_ & Hm & Hv) He. specialize (Hv e He). unfold cont. rewrite Hm. destruct (dy_vars x' !! e), (dy_vars x !! e); cbn in Hv; try done. by injection Hv as ->. Qed.

(** * Deallocation *)

(** What comes after a variable in its chain is not free. *)
Lemma next_not_free k C L E x b pre a post v :
  dyn_inv k C L E x -> C !! b = Some (pre ++ a :: post) -> dy_vars x !! a = Some v ->
  exists c w, dtdv_next v = Some c /\ c <> a /\ dy_vars x !! c = Some w /\ dtdv_hashval w <> DTRACE_DYNHASH_FREE.
Proof.
  intros Hi Hb Hv. destruct (di_chain _ _ _ _ _ _ Hi b _ Hb) as (h & _ & Hs & _). apply chunks_app in Hs as (p & _ & [_ (v' & Hv' & Hs)]). rewrite Hv in Hv'. injection Hv' as <-.
  pose proof (chain_nodup _ _ _ _ _ _ _ _ Hi Hb) as Hnd. apply NoDup_app in Hnd as (_ & _ & [Ha _]%NoDup_cons).
  pose proof (seg_head _ _ _ _ Hs) as Hn. destruct post as [|c post].
  - exists sink, sink_var. split; [done|]. split; [|split; [apply Hi|done]]. intros ->. destruct (apart _ _ _ _ _ _ a Hi); [apply (in_chain C b _ a Hb); set_solver|done].
  - destruct (di_live _ _ _ _ _ _ Hi b _ c Hb ltac:(set_solver)) as (w & Hw & [Hh _ _]). exists c, w. split; [done|]. split; [set_solver|]. split; [done|]. rewrite Hh. apply hash_finish_valid.
Qed.

Lemma head_not_later k C L E x b pre a post h q :
  dyn_inv k C L E x -> C !! b = Some (pre ++ a :: post) -> dy_hash x !! b = Some h -> last pre = Some q -> dtdh_chain h <> Some a.
Proof.
  intros Hi Hb Hh Hq Hc. destruct (di_chain _ _ _ _ _ _ Hi b _ Hb) as (h' & Hh' & Hs & _). rewrite Hh in Hh'. injection Hh' as <-. apply seg_head in Hs. rewrite Hc in Hs.
  pose proof (chain_nodup _ _ _ _ _ _ _ _ Hi Hb) as Hnd. apply NoDup_app in Hnd as (_ & Hd & _). destruct pre as [|e pre]; [done|]. cbn in Hs. injection Hs as <-. apply (Hd a); set_solver.
Qed.

Lemma remove_run C L fuel me ls b pre a post h x :
  dyn_inv (Some b) C L [] x -> C !! b = Some (pre ++ a :: post) -> dy_hash x !! b = Some h -> L !! me = Some ls ->
  runs (dynvar_remove alone (S fuel) me (Z.of_nat b) (dtdh_lock h) (dtdh_chain h) a (before_or pre None)) x (fun r x' => r = inl None /\
    dyn_inv None (<[b := pre ++ post]> C) (<[me := CpuLists (cl_free ls) (a :: cl_dirty ls) (cl_rinsing ls) (cl_clean ls)]> L) [] x' /\ others_same a x x').
Proof.
  intros Hi Hb Hh Hls. destruct (di_live _ _ _ _ _ _ Hi b _ a Hb ltac:(set_solver)) as (v & Hv & _). destruct (next_not_free _ _ _ _ _ _ _ _ _ _ Hi Hb Hv) as (c & w & Hnext & Hca & Hw & Hwf).
  pose proof (unlink_chunk sink _ _ _ _ _ _ _ _ _ _ _ Hi Hb Hv Hh) as Hu. pose proof (lookup_lt_Some _ _ _ Hh) as Hlt. pose proof (chain_nodup _ _ _ _ _ _ _ _ Hi Hb) as Hnd.
  unfold dynvar_remove. eapply bind_var; [exact Hv|]. rewrite Hnext. apply bind_assoc. eapply bind_var; [exact Hw|]. apply bind_assert; [by apply negb_true_iff, Z.eqb_neq|].
  set (xu := set_vars _ _) in Hu.
  assert (Hrest : forall x1, dy_ds x1 = dy_ds x -> dy_hash x1 = dy_hash xu -> dy_percpu x1 = dy_percpu x -> dy_vars x1 = dy_vars xu -> dy_m x1 = dy_m x ->
    runs (sbind (push_dirty alone (S fuel) me a) (fun _ => sbind (unlock (Z.of_nat b) (dtdh_lock h)) (fun _ => sret (@inl (option Z) again None)))) x1 (fun r x' => r = inl None /\
      dyn_inv None (<[b := pre ++ post]> C) (<[me := CpuLists (cl_free ls) (a :: cl_dirty ls) (cl_rinsing ls) (cl_clean ls)]> L) [] x' /\ others_same a x x')).
  { intros x1 H1 H2 H3 H4 H5. assert (Hi1 : dyn_inv (Some b) (<[b := pre ++ post]> C) L [a] x1) by (apply (inv_fields sink _ _ _ _ xu); try done; by rewrite H5).
    eapply runs_bind; [by apply (push_dirty_run sink _ _ _ _ _ _ _ _ _ Hi1 Hls)|]. intros _ x2 (Hi2 & Hv2 & Hds2 & Hh2 & Hm2). 
    assert (Hh3 : dy_hash x2 !! b = Some (Dynhash (unlink_head pre v h) (dtdh_lock h))) by (rewrite Hh2, H2; cbn; by apply list_lookup_insert_eq).
    eapply runs_bind; [apply (unlock_run sink _ _ _ _ _ _ Hi2 Hh3)|]. intros _ x3 (Hi3 & Hv3 & Hds3 & Hm3). apply runs_ret. split; [done|]. split; [done|]. split; [congruence|]. split; [congruence|].
    intros e He. rewrite Hv3, Hv2, H4 by done. cbn. by destruct (unlink_other (dy_vars x) pre a v e He). }
  unfold before_or. unfold unlink_vars, unlink_head in xu. destruct (last pre) as [q|] eqn:El.
  - assert (Hq : exists wq, dy_vars x !! q = Some wq /\ dtdv_next wq = Some a /\ q <> a).
    { pose proof El as El'. apply last_Some in El' as [pre0 ->]. destruct (di_chain _ _ _ _ _ _ Hi b _ Hb) as (h' & _ & Hs & _). rewrite <- app_assoc in Hs. apply chunks_app in Hs as (p & _ & [_ (wq & Hwq & [Hn _])]).
      exists wq. split; [done|]. split; [done|]. intros ->. apply NoDup_app in Hnd as (_ & Hd & _). apply (Hd a); set_solver. }
    destruct Hq as (wq & Hwq & Hqn & Hqa). pose proof (head_not_later _ _ _ _ _ _ _ _ _ _ _ Hi Hb Hh El) as Hha.
    apply bind_assoc. eapply bind_bucket; [by rewrite Nat2Z.id|]. apply bind_assoc. eapply bind_var; [exact Hwq|]. apply bind_assoc. apply bind_assert; [rewrite !(bool_decide_eq_false_2 (dtdh_chain h = Some a)), (bool_decide_eq_true_2 (dtdv_next wq = Some a)) by done; done|].
    apply bind_assoc. eapply bind_upd_var; [exact Hwq|]. apply bind_ret. cbn [negb]. eapply bind_bucket; [by rewrite Nat2Z.id|]. apply bind_assert; [by rewrite bool_decide_eq_false_2|].
    eapply bind_upd_var; [cbn; rewrite lookup_insert_ne by done; exact Hv|]. apply Hrest; try done; cbn.
    + rewrite list_insert_id; [done|]. rewrite Hh. by destruct h.
    + f_equal. rewrite Hnext. apply map_eq. intros e. destruct (decide (e = q)) as [->|Hne]; [by rewrite lookup_insert_eq, lookup_alter_eq, Hwq|by rewrite lookup_insert_ne, lookup_alter_ne].
  - apply bind_assoc. apply bind_puts. apply bind_assoc. eapply bind_bucket; [cbn; by rewrite Nat2Z.id|]. rewrite bool_decide_eq_true_2 by done. apply bind_assoc. apply bind_puts. apply bind_ret. cbn [negb].
    eapply bind_bucket; [cbn; rewrite Nat2Z.id; by apply list_lookup_insert_eq|]. apply bind_assert; [cbn; rewrite bool_decide_eq_false_2; [done|congruence]|].
    eapply bind_upd_var; [exact Hv|]. apply Hrest; try done; cbn. by rewrite Nat2Z.id, Hnext.
Qed.

(** * Allocation *)

(** What is stored in other chunks does not depend on chunk [a]. *)
Lemma cont_outside k C L E x m' a e :
  dyn_inv k C L (a :: E) x -> e ∈ concat C -> (forall i, ~ a <= i < a + chunksize x -> m_mem m' i = m_mem (dy_m x) i) ->
  forall v, dy_vars x !! e = Some v -> contents (m_mem m') (dtdv_tuple v) = contents (m_mem (dy_m x)) (dtdv_tuple v).
Proof.
  intros Hi He Hm v Hv. apply list_elem_of_In, in_concat in He as (l & Hl%list_elem_of_In & Hel%list_elem_of_In). apply list_elem_of_lookup in Hl as [b Hb].
  destruct (di_live _ _ _ _ _ _ Hi b l e Hb Hel) as (v' & Hv' & [_ _ Hk]). rewrite Hv in Hv'. injection Hv' as <-. apply (contents_inside _ _ _ e (e + chunksize x) Hk).
  intros i Hin. apply Hm. assert (Hea : e <> a). { intros ->. destruct (in_hands _ _ _ _ _ _ _ Hi) as (_ & _ & HaC & _). apply HaC. by eapply in_chain. }
  destruct (di_spaced _ _ _ _ _ _ Hi e a) as [?|?]; [|unfold all_chunks; set_solver|done|lia..]. unfold all_chunks. apply elem_of_app. right. apply elem_of_app. left. by eapply in_chain.
Qed.

Lemma insert_inv k C L E x b l a h m' v' :
  dyn_inv k C L (a :: E) x -> C !! b = Some l -> dy_hash x !! b = Some h ->
  (forall i, ~ a <= i < a + chunksize x -> m_mem m' i = m_mem (dy_m x) i) -> bytes_ok m' ->
  live_at (m_mem m') (dtds_hashsize (dy_ds x)) (chunksize x) b a v' -> dtdv_next v' = dtdh_chain h ->
  (forall e, e ∈ concat C -> cont x e <> contents (m_mem m') (dtdv_tuple v')) ->
  dyn_inv k (<[b := a :: l]> C) L E (set_hash (<[b := Dynhash (Some a) (dtdh_lock h)]> (dy_hash x)) (set_vars (<[a := v']> (dy_vars x)) (set_mach m' x))).
Proof.
  intros Hi Hb Hh Hm Hbm Hlive Hnext Hnew. destruct (in_hands _ _ _ _ _ _ _ Hi) as (Has & HaE & HaC & HaL). pose proof (lookup_lt_Some _ _ _ Hh) as Hlt. pose proof (lookup_lt_Some _ _ _ Hb) as HltC.
  assert (Hcont : forall e, e ∈ concat C -> match dy_vars x !! e with Some v => contents (m_mem m') (dtdv_tuple v) | None => [] end = cont x e).
  { intros e He. unfold cont. destruct (dy_vars x !! e) as [v|] eqn:Ev; [|done]. by eapply cont_outside. }
  assert (Hsn : forall e, e <> a -> same_next (dy_vars x) (<[a := v']> (dy_vars x)) e) by (intros e He; by apply same_next_insert).
  eapply inv_rebuild; [exact Hi|done|by rewrite length_insert|cbn; by rewrite length_insert|apply Hi| | |exact Hbm|..]; cbn [dy_ds dy_hash dy_vars dy_percpu dy_m set_vars set_hash set_mach].
  - by rewrite lookup_insert_ne.
  - apply all_perm. destruct (chains_insert C b _ Hb) as (rest & H1 & H2). rewrite H1, H2. unfold spare. cbn. solve_Permutation.
  - intros b' l' Hb'. destruct (decide (b' = b)) as [->|Hne].
    + rewrite list_lookup_insert_eq in Hb' by done. rewrite list_lookup_insert_eq by done. injection Hb' as <-. destruct (di_chain _ _ _ _ _ _ Hi b _ Hb) as (h' & Hh' & Hs & Hl). rewrite Hh in Hh'. injection Hh' as <-.
      eexists. split; [done|]. split; [|exact Hl]. split; [done|]. exists v'. split; [apply lookup_insert_eq|]. rewrite Hnext. eapply chunks_frame; [|exact Hs]. intros e He. apply Hsn. intros ->. apply HaC. by eapply in_chain.
    + rewrite list_lookup_insert_ne in Hb' by done. rewrite list_lookup_insert_ne by done. destruct (di_chain _ _ _ _ _ _ Hi b' l' Hb') as (h' & Hh' & Hs & Hl). exists h'. split; [done|]. split; [|done].
      eapply chunks_frame; [|exact Hs]. intros e He. apply Hsn. intros ->. apply HaC. by eapply in_chain.
  - intros b' l' e Hb' He. destruct (decide (e = a)) as [->|Hea].
    + exists v'. split; [apply lookup_insert_eq|]. destruct (decide (b' = b)) as [->|Hne]; [exact Hlive|]. rewrite list_lookup_insert_ne in Hb' by done. destruct HaC. by eapply in_chain.
    + assert (Hold : exists l0, C !! b' = Some l0 /\ e ∈ l0).
      { destruct (decide (b' = b)) as [->|Hne]; [rewrite list_lookup_insert_eq in Hb' by done; injection Hb' as <-; eexists; split; [exact Hb|set_solver]|]. rewrite list_lookup_insert_ne in Hb' by done. by exists l'. }
      destruct Hold as (l0 & Hl0 & He0). destruct (di_live _ _ _ _ _ _ Hi b' l0 e Hl0 He0) as (w & Hw & [Hh1 Hh2 Hh3]). exists w. split; [by rewrite lookup_insert_ne|].
      split; [|exact Hh2|exact Hh3]. cbn [dy_m set_hash set_vars set_mach]. by rewrite (cont_outside _ _ _ _ _ m' a e Hi (in_chain _ _ _ _ Hl0 He0) Hm w Hw).
  - intros c ls Hc. destruct (di_cpu _ _ _ _ _ _ Hi c ls Hc) as (d & Hd & Hok). exists d. split; [done|]. eapply cpu_ok_frame; [|exact Hok]. intros e He. apply Hsn. intros ->. apply HaL. by eapply in_concat_lookup.
  - intros e He. assert (Hea : e <> a) by (intros ->; by destruct He). rewrite lookup_insert_ne by done. apply (di_free _ _ _ _ _ _ Hi). set_solver.
  - assert (Hc : forall e, e ∈ concat (<[b := a :: l]> C) -> e = a \/ (e <> a /\ e ∈ concat C)).
    { intros e He. destruct (decide (e = a)) as [->|Hea]; [by left|right]. split; [done|]. destruct (chains_insert C b _ Hb) as (rest & H1 & H2). rewrite H2 in He. rewrite H1. set_solver. }
    intros e e' He He'. unfold cont. cbn [dy_vars dy_m set_hash set_vars set_mach]. destruct (Hc e He) as [->|[Hea HeC]], (Hc e' He') as [->|[Hea' HeC']]; [done|..].
    + rewrite lookup_insert_eq, lookup_insert_ne, Hcont by done. intros Heq. by destruct (Hnew e' HeC').
    + rewrite lookup_insert_eq, lookup_insert_ne, Hcont by done. intros Heq. by destruct (Hnew e HeC).
    + rewrite !lookup_insert_ne, !Hcont by done. by apply (di_unique _ _ _ _ _ _ Hi).
Qed.

(** The room a variable needs. *)
Definition need (keys : list dtrace_key) (dsize : Z) : Z := sizeof_dynvar + sizeof_key * (Z.of_nat (length keys) - 1) + key_sum keys + dsize.

(** The data of a variable are inside of its chunk, after its keys. *)
Definition payload (x : dyn) (a dsize : Z) : Prop := exists v, dy_vars x !! a = Some v /\ a + sizeof_dynvar <= dtdv_data v /\ dtdv_data v + dsize <= a + chunksize x /\
  Forall (fun k => snd k = 0 \/ fst k + snd k <= dtdv_data v) (dtdv_tuple v).

(** One of the drop counters of CPU [me] went up by one. *)
Definition counted (me : nat) (x x' : dyn) : Prop := exists d n m o, dy_percpu x !! me = Some d /\ n + m + o = 1 /\ 0 <= n /\ 0 <= m /\ 0 <= o /\
  dy_percpu x' = <[me := add_drops n m o d]> (dy_percpu x).

(** A query: readable keys, of sizes that do not overflow, whose data are in no chunk that is not in use. *)
Record query_ok (ms : dtrace_mstate) (vs : dtrace_vstate) (L : list cpu_lists) (x : dyn) (keys : list dtrace_key) (dsize : Z) : Prop := {
  qo_some : keys <> [];
  qo_keys : Forall (key_ok P ms vs) keys;
  qo_sizes : Forall size_ok keys;
  qo_dsize : 0 <= dsize;
  qo_need : need keys dsize < 2 ^ 64;
  qo_away : forall a, a ∈ spare L [] -> Forall (away a (a + chunksize x)) keys
}.

Definition allocated (C : list (list Z)) (L : list cpu_lists) (b : nat) (l : list Z) (ct : list (Z + list Z)) (dsize : Z) (x : dyn) (r : option Z + again) (x' : dyn) : Prop :=
  exists a L', r = inl (Some a) /\ dyn_inv None (<[b := a :: l]> C) L' [] x' /\ map cl_rinsing L' = map cl_rinsing L /\ spare L' [a] ≡ₚ spare L [] /\ cont x' a = ct /\
    (forall e, e ∈ concat C -> cont x' e = cont x e) /\ payload x' a dsize /\ dy_ds x' = dy_ds x /\ faulted (dy_m x') = false /\
    (forall i, ~ a <= i < a + chunksize x -> m_mem (dy_m x') i = m_mem (dy_m x) i).

Definition refused (C : list (list Z)) (L : list cpu_lists) (me : nat) (keys : list dtrace_key) (dsize : Z) (x : dyn) (r : option Z + again) (x' : dyn) : Prop :=
  r = inl None /\ dyn_inv None C L [] x' /\ kept x x' /\ counted me x x' /\ (chunksize x < need keys dsize \/ starved L me (dy_state x)).

Lemma publish_run C L b l h a ms vs keys dsize hashval fuel x :
  dyn_inv None C L [a] x -> C !! b = Some l -> dy_hash x !! b = Some h -> Forall (key_ok P ms vs) keys -> Forall size_ok keys -> keys <> [] -> 0 <= dsize ->
  need keys dsize <= chunksize x -> Forall (away a (a + chunksize x)) keys -> faulted (dy_m x) = false ->
  hashval = hash_of (contents (m_mem (dy_m x)) keys) -> hashval mod dtds_hashsize (dy_ds x) = Z.of_nat b ->
  (forall e, e ∈ concat C -> cont x e <> contents (m_mem (dy_m x)) keys) ->
  forall cpu, runs (sbind (fill_chunk P a keys hashval (dtdh_chain h)) (fun _ => sbind (interfere alone) (fun _ => sbind (get_bucket (Z.of_nat b)) (fun h0 =>
      if bool_decide (dtdh_chain h0 = dtdh_chain h) then sbind (put_bucket (Z.of_nat b) (Dynhash (Some a) (dtdh_lock h0))) (fun _ => sret (inl (Some a)))
      else sbind (upd_var a (put_hashval DTRACE_DYNHASH_FREE)) (fun _ => sbind (push_dirty alone fuel cpu a) (fun _ => sret (inr Recall))))))) x
    (fun r x' => r = inl (Some a) /\ dyn_inv None (<[b := a :: l]> C) L [] x' /\ cont x' a = contents (m_mem (dy_m x)) keys /\
      (forall e, e ∈ concat C -> cont x' e = cont x e) /\ payload x' a dsize /\ dy_ds x' = dy_ds x /\ faulted (dy_m x') = false /\
      (forall i, ~ a <= i < a + chunksize x -> m_mem (dy_m x') i = m_mem (dy_m x) i)).
Proof.
  intros Hi Hb Hh Hk Hsz Hne Hds Hneed Haway Hf -> Hmod Hnew cpu. destruct (di_range _ _ _ _ _ _ Hi a ltac:(unfold all_chunks; set_solver)) as [Ha0 Ha1].
  destruct (di_free _ _ _ _ _ _ Hi a ltac:(left; set_solver)) as (v & Hv & Hv0). pose proof (key_sum_nonneg keys Hsz) as Hks. assert (Hn : 1 <= Z.of_nat (length keys)) by (destruct keys; [done|cbn; lia]).
  unfold need, sizeof_dynvar, sizeof_key in Hneed. set (n := Z.of_nat (length keys)) in *. set (kdata := a + 32 + 16 * n).
  assert (Hkd : u64 (a + 32 + sizeof_key * n) = kdata) by (apply u64_id; unfold is_u, sizeof_key; lia). assert (Hsub : Forall (away kdata (kdata + key_sum keys)) keys).
  { eapply Forall_impl; [exact Haway|]. intros key [H0|H0]; [by left|right; unfold kdata; lia]. }
  destruct (copy_keys_ok P ms vs keys kdata (dy_m x) Hk Hsz ltac:(unfold kdata; lia) ltac:(unfold kdata; lia) Hsub (di_bytes _ _ _ _ _ _ Hi) Hf) as (tuple & m' & Hcopy & Hlen & Hins & Hcont & Hout & Hbm & Hf').
  unfold fill_chunk. fold n. rewrite Hkd. apply bind_assoc. unfold on_mach at 1. apply bind_assoc. eapply bind_gets; [exact Hcopy|]. apply bind_assoc. apply bind_puts. apply bind_ret.
  apply bind_assoc. eapply bind_var; [exact Hv|]. apply bind_assoc. apply bind_assert; [by rewrite Hv0|]. eapply bind_upd_var; [exact Hv|]. apply bind_puts.
  eapply bind_bucket; [cbn; by rewrite Nat2Z.id|]. rewrite bool_decide_eq_true_2 by done. apply bind_puts. apply runs_ret. rewrite Nat2Z.id.
  rewrite (key_space_sum keys Hsz) by lia. rewrite (u64_id (kdata + key_sum keys)) by (unfold is_u, kdata; lia). set (v' := Dynvar _ _ _ _).
  assert (Hm' : forall i, ~ a <= i < a + chunksize x -> m_mem m' i = m_mem (dy_m x) i) by (intros i Hni; apply Hout; unfold kdata; lia).
  assert (Hlive : live_at (m_mem m') (dtds_hashsize (dy_ds x)) (chunksize x) b a v').
  { unfold v'. split; cbn [dtdv_hashval dtdv_tuple]; [by rewrite Hcont|done|]. eapply Forall_impl; [exact Hins|]. intros key [H0|H0]; [by left|right; unfold kdata in H0; lia]. }
  assert (Hinv : dyn_inv None (<[b := a :: l]> C) L [] (set_hash (<[b := Dynhash (Some a) (dtdh_lock h)]> (dy_hash x)) (set_vars (<[a := v']> (dy_vars x)) (set_mach m' x)))).
  { eapply insert_inv; try done. intros e He. unfold v'. cbn [dtdv_tuple]. rewrite Hcont. by apply Hnew. }
  split; [done|]. split; [by eapply inv_fields|]. split; [unfold cont; cbn [alone dy_vars dy_m set_hash set_vars set_mach tick]; by rewrite lookup_insert_eq|]. split; [|split; [|done]].
  - intros e He. unfold cont. cbn [alone dy_vars dy_m set_hash set_vars set_mach tick]. destruct (in_hands _ _ _ _ _ _ _ Hi) as (_ & _ & HaC & _). rewrite lookup_insert_ne by (intros <-; done).
    destruct (dy_vars x !! e) as [w|] eqn:Ew; [|done]. by eapply cont_outside.
  - exists v'. split; [cbn; apply lookup_insert_eq|]. unfold v'. cbn [dtdv_data dtdv_tuple]. split; [unfold kdata, sizeof_dynvar; lia|]. split; [unfold kdata, chunksize in *; cbn; lia|].
    eapply Forall_impl; [exact Hins|]. intros key [H0|H0]; [by left|right; lia].
Qed.

Lemma need_u64 keys dsize : Forall size_ok keys -> keys <> [] -> 0 <= dsize -> need keys dsize < 2 ^ 64 ->
  u64 (sizeof_dynvar + sizeof_key * (Z.of_nat (length keys) - 1) + key_space keys + dsize) = need keys dsize.
Proof.
  intros Hsz Hne Hd Hn. pose proof (key_sum_nonneg keys Hsz). assert (1 <= Z.of_nat (length keys)) by (destruct keys; [done|cbn; lia]). unfold need, sizeof_dynvar, sizeof_key in *.
  rewrite (key_space_sum keys Hsz) by lia. apply u64_id. unfold is_u. lia.
Qed.

Lemma alloc_run C L fuel me b l h ms vs keys dsize x :
  dyn_inv None C L [] x -> C !! b = Some l -> dy_hash x !! b = Some h -> (me < length L)%nat -> (length L + 3 < fuel)%nat -> query_ok ms vs L x keys dsize -> faulted (dy_m x) = false ->
  hash_of (contents (m_mem (dy_m x)) keys) mod dtds_hashsize (dy_ds x) = Z.of_nat b -> (forall e, e ∈ concat C -> cont x e <> contents (m_mem (dy_m x)) keys) ->
  runs (dynvar_alloc P alone fuel me keys dsize (hash_of (contents (m_mem (dy_m x)) keys)) (Z.of_nat b) (dtdh_chain h)) x
    (fun r x' => allocated C L b l (contents (m_mem (dy_m x)) keys) dsize x r x' \/ refused C L me keys dsize x r x').
Proof.
  intros Hi Hb Hh Hme Hfuel [Hne Hk Hsz Hd Hn Haway] Hf Hmod Hnew. unfold dynvar_alloc. eapply bind_gets; [reflexivity|]. rewrite need_u64 by done. fold (chunksize x). destruct (lookup_lt_is_Some_2 L me Hme) as [ls Hls].
  destruct (di_cpu _ _ _ _ _ _ Hi me ls Hls) as (d & Hd' & Hok). destruct (Z.ltb_spec (chunksize x) (need keys dsize)) as [Hbig|Hfits].
  - eapply bind_upd_cpu; [exact Hd'|]. apply runs_ret. right. split; [done|]. split; [rewrite <- (list_insert_id L me ls Hls); eapply inv_cpu; [exact Hi|exact Hls|exact Hd'|exact Hok|done]|].
    split; [by split|]. split; [by exists d, 1, 0, 0|]. by left.
  - eapply runs_bind; [apply (take_chunk_run sink None C L [] fuel me x Hi Hme Hfuel)|]. intros r x1 [(a & c & L' & -> & Hi1 & [K1 K2 K3 K4 K5] & Hl & Hp & Hc)|[(-> & Hi1 & Hk1 & Hcount) Hst]].
    + assert (Has : a ∈ spare L []) by (rewrite <- Hp; unfold spare; set_solver). assert (Hcs : chunksize x1 = chunksize x) by (unfold chunksize; by rewrite K1).
      assert (Hcont : forall e, cont x1 e = cont x e) by (intros e; unfold cont; by rewrite K3, K4). rewrite <- K4.
      eapply runs_weaken; [eapply (publish_run C L' b l h a ms vs keys dsize); [exact Hi1|exact Hb|by rewrite K2|exact Hk|exact Hsz|exact Hne|exact Hd|by rewrite Hcs|rewrite Hcs; by apply Haway|congruence|done|by rewrite K4, K1|]|].
      * intros e He. rewrite Hcont, K4. by apply Hnew.
      * intros r x2 (-> & Hi2 & Hc2 & Ho2 & Hp2 & Hd2 & Hf2 & Hm2). left. exists a, L'. split; [done|]. split; [done|]. split; [done|]. split; [done|]. split; [done|].
        split; [intros e He; by rewrite Ho2, Hcont|]. split; [done|]. split; [congruence|]. split; [done|]. intros i Hni. rewrite Hm2, K4 by (by rewrite Hcs). done.
    + apply runs_ret. right. split; [done|]. split; [done|]. split; [done|]. split; [done|]. by right.
Qed.

(** * One pass *)

Lemma bucket_of C L E k x e :
  dyn_inv k C L E x -> e ∈ concat C -> exists b l, C !! b = Some l /\ e ∈ l /\ hash_of (cont x e) mod dtds_hashsize (dy_ds x) = Z.of_nat b.
Proof.
  intros Hi He. apply list_elem_of_In, in_concat in He as (l & Hl%list_elem_of_In & Hel%list_elem_of_In). apply list_elem_of_lookup in Hl as [b Hb].
  destruct (di_live _ _ _ _ _ _ Hi b l e Hb Hel) as (v & Hv & [H1 H2 _]). exists b, l. split; [done|]. split; [done|]. unfold cont. by rewrite Hv, <- H1.
Qed.

(** A chain has no more chunks than there are. *)
Lemma chain_length C L E b l : C !! b = Some l -> (length l <= length (all_chunks C L E))%nat.
Proof. intros Hb. destruct (chains_insert C b l Hb) as (rest & H1 & _). rewrite all_spare, length_app, H1, length_app. lia. Qed.

(** The first steps of a pass: the chain is searched. *)
Lemma pass_search k C L fuel me b l h ms vs keys dsize op x Q :
  dyn_inv k C L [] x -> C !! b = Some l -> dy_hash x !! b = Some h -> Forall (key_ok P ms vs) keys -> faulted (dy_m x) = false -> (length (all_chunks C L []) < fuel)%nat ->
  let ct := contents (m_mem (dy_m x)) keys in
  (forall r x1, alike x x1 -> faulted (dy_m x1) = false -> found_in x ct None l r ->
    runs (match r with
      | Found a prev => if is_dealloc op then dynvar_remove alone fuel me (Z.of_nat b) (dtdh_lock h) (dtdh_chain h) a prev else sret (inl (Some a))
      | OffRails => sbind (sassert (negb (is_dealloc op))) (fun _ => sret (inr Retry))
      | AtSink =>
          match op with
          | DTRACE_DYNVAR_ALLOC => dynvar_alloc P alone fuel me keys dsize (hash_of ct) (Z.of_nat b) (dtdh_chain h)
          | DTRACE_DYNVAR_NOALLOC => sbind (interfere alone) (fun _ => sbind (get_bucket (Z.of_nat b)) (fun h0 => if negb (dtdh_lock h0 =? dtdh_lock h) then sret (inr Retry) else sret (inl None)))
          | DTRACE_DYNVAR_DEALLOC => sbind (unlock (Z.of_nat b) (dtdh_lock h)) (fun _ => sret (inl None))
          end
      end) x1 Q) ->
  runs (dynvar_pass P sink alone fuel me keys dsize op (hash_of ct) (Z.of_nat b)) x Q.
Proof.
  intros Hi Hb Hh Hk Hf Hfuel ct Hrest. destruct (di_chain _ _ _ _ _ _ Hi b l Hb) as (h' & Hh' & Hseg & _). rewrite Hh in Hh'. injection Hh' as <-. pose proof (seg_head _ _ _ _ Hseg) as Hhead.
  unfold dynvar_pass. eapply bind_bucket; [by rewrite Nat2Z.id|]. cbn zeta. assert (Hstart : exists s0 v0, dtdh_chain h = Some s0 /\ dy_vars x !! s0 = Some v0 /\ dtdv_hashval v0 <> DTRACE_DYNHASH_FREE).
  { destruct l as [|s0 l]; [exists sink, sink_var; split; [done|]; split; [apply Hi|done]|]. destruct (di_live _ _ _ _ _ _ Hi b _ s0 Hb ltac:(set_solver)) as (v0 & Hv0 & [H0 _ _]).
    exists s0, v0. split; [done|]. split; [done|]. rewrite H0. apply hash_finish_valid. }
  destruct Hstart as (s0 & v0 & Hs0 & Hv0 & Hn0). rewrite Hs0. apply bind_assoc. eapply bind_var; [exact Hv0|]. apply bind_assert; [by rewrite (proj2 (Z.eqb_neq _ _) Hn0)|]. rewrite <- Hs0.
  pose proof (chain_length C L [] b l Hb) as Hlen. eapply runs_bind; [eapply (search_run P sink k C L [] b keys ms vs l []); [exact Hi|exact Hb|exact Hk|exact Hf|exact Hseg|lia]|].
  intros r x1 (Hal & Hf1 & Hr). by apply Hrest.
Qed.
End Ops.
