(* ===== verification/DynSpec.v ===== *)
(** What dynamic variables promise: a finite map from tuples to chunks.  dtrace_dynvar() and dtrace_dynvar_clean(), run
    alone, implement it on every CPU and in any order, and dtrace_dstate_init() begins with the empty map. *)
From S2P Require Import Prelude StateProg Dif SafeMem DifValidate DifEmulate DifSafety DynVar DynKeys DynLists DynOps.
From stdpp Require Import gmap list.
#[local] Open Scope Z_scope.

Abbreviation tuple := (list (Z + list Z)).

(** * The specification *)

(** What an operation on tuple [ct] returns and leaves; an allocation may fail. *)
Definition dynvar_spec (A : gmap tuple Z) (op : dtrace_dynvar_op) (ct : tuple) (r : option Z) (A' : gmap tuple Z) : Prop :=
  match op with
  | DTRACE_DYNVAR_NOALLOC => r = A !! ct /\ A' = A
  | DTRACE_DYNVAR_DEALLOC => r = None /\ A' = delete ct A
  | DTRACE_DYNVAR_ALLOC =>
      match A !! ct with
      | Some a => r = Some a /\ A' = A
      | None => (exists a, r = Some a /\ (forall ct', A !! ct' <> Some a) /\ A' = <[ct := a]> A) \/ (r = None /\ A' = A)
      end
  end.

Section Spec.
Context (P : platform) (sink : Z).

(** The variables are those of [A]; [C] are the hash chains and [L] the lists of the CPUs. *)
Record represents (A : gmap tuple Z) (C : list (list Z)) (L : list cpu_lists) (x : dyn) : Prop := {
  rp_inv : dyn_inv sink None C L [] x;
  rp_map : forall ct a, A !! ct = Some a <-> a ∈ concat C /\ cont x a = ct
}.

Lemma rp_fresh A C L x a ct : represents A C L x -> a ∈ spare L [] -> A !! ct <> Some a.
Proof. intros H Ha Hct. apply (rp_map _ _ _ _ H) in Hct as [Hc _]. destruct (apart _ _ _ _ _ _ a (rp_inv _ _ _ _ H) Hc) as (_ & _ & Hn). by unfold spare in Ha. Qed.

Lemma represents_same A C L L' x x' :
  represents A C L x -> dyn_inv sink None C L' [] x' -> (forall e, e ∈ concat C -> cont x' e = cont x e) -> represents A C L' x'.
Proof.
  intros H Hi Hc. split; [done|]. intros ct a. rewrite (rp_map _ _ _ _ H). split; intros [Ha <-]; split; try done; [by apply Hc|by rewrite Hc].
Qed.

Lemma represents_delete A C L L' x x' b pre a post ct :
  represents A C L x -> C !! b = Some (pre ++ a :: post) -> cont x a = ct -> dyn_inv sink None (<[b := pre ++ post]> C) L' [] x' -> (forall e, e <> a -> cont x' e = cont x e) ->
  represents (delete ct A) (<[b := pre ++ post]> C) L' x'.
Proof.
  intros H Hb Hct Hi Hc. split; [done|]. destruct (chains_insert C b _ Hb) as (rest & H1 & H2). assert (Hna : a ∉ concat (<[b := pre ++ post]> C)).
  { pose proof (di_nodup _ _ _ _ _ _ (rp_inv _ _ _ _ H)) as Hn. apply NoDup_cons in Hn as [_ (_ & _ & [Hn _]%NoDup_app)%NoDup_app]. rewrite H1, <- app_assoc in Hn. cbn in Hn.
    rewrite <- Permutation_middle in Hn. apply NoDup_cons in Hn as [Hn _]. rewrite H2. set_solver. }
  assert (HaC : a ∈ concat C) by (apply (in_chain C b _ a Hb); set_solver).
  intros ct' e. rewrite lookup_delete_Some, (rp_map _ _ _ _ H). split.
  - intros (Hne & He & <-). assert (Hea : e <> a) by congruence. split; [rewrite H2; rewrite H1 in He; set_solver|by apply Hc].
  - intros [He <-]. assert (Hea : e <> a) by (intros ->; done). assert (HeC : e ∈ concat C) by (rewrite H1; rewrite H2 in He; set_solver). rewrite Hc by done. split; [|done].
    intros Heq. apply Hea. apply (di_unique _ _ _ _ _ _ (rp_inv _ _ _ _ H) e a HeC HaC). congruence.
Qed.

Lemma represents_insert A C L L' x x' b l a ct :
  represents A C L x -> C !! b = Some l -> A !! ct = None -> dyn_inv sink None (<[b := a :: l]> C) L' [] x' -> cont x' a = ct -> (forall e, e ∈ concat C -> cont x' e = cont x e) ->
  a ∉ concat C -> represents (<[ct := a]> A) (<[b := a :: l]> C) L' x'.
Proof.
  intros H Hb Hnone Hi Hct Hc HaC. split; [done|]. destruct (chains_insert C b _ Hb) as (rest & H1 & H2).
  assert (Hel : forall e, e ∈ concat (<[b := a :: l]> C) <-> e = a \/ e ∈ concat C) by (intros e; rewrite H1, H2; set_solver).
  intros ct' e. rewrite Hel, lookup_insert_Some, (rp_map _ _ _ _ H). split.
  - intros [[<- <-]|(Hne & He & <-)]; [by split; [left|]|]. split; [by right|by apply Hc].
  - intros [[->|He] <-]; [by left|]. destruct (decide (e = a)) as [->|Hea]; [done|]. right. rewrite Hc by done. split; [|done]. intros Heq.
    assert (A !! ct = Some e) by (apply (rp_map _ _ _ _ H); split; [done|congruence]). congruence.
Qed.

(** * The passes *)

(** Chunks change hands, and memory changes only inside of chunks. *)
Record moved (C : list (list Z)) (L : list cpu_lists) (C' : list (list Z)) (L' : list cpu_lists) (x x' : dyn) : Prop := {
  mv_rinsing : map cl_rinsing L' = map cl_rinsing L;
  mv_chunks : all_chunks C' L' [] ≡ₚ all_chunks C L [];
  mv_mem : forall i, (forall a, a ∈ all_chunks C L [] -> ~ a <= i < a + chunksize x) -> m_mem (dy_m x') i = m_mem (dy_m x) i
}.

Lemma moved_same C L x x' : m_mem (dy_m x') = m_mem (dy_m x) -> moved C L C L x x'.
Proof. intros H. split; [done|done|]. intros i _. by rewrite H. Qed.

(** The result of an operation that was not disturbed. *)
Definition done_well (A : gmap tuple Z) (C : list (list Z)) (L : list cpu_lists) (me : nat) (keys : list dtrace_key) (dsize : Z) (op : dtrace_dynvar_op) (x : dyn) (r : option Z) (x' : dyn) : Prop :=
  exists A' C' L', represents A' C' L' x' /\ dynvar_spec A op (contents (m_mem (dy_m x)) keys) r A' /\ moved C L C' L' x x' /\ dy_ds x' = dy_ds x /\ faulted (dy_m x') = false /\
    match op with
    | DTRACE_DYNVAR_ALLOC =>
        match A !! contents (m_mem (dy_m x)) keys, r with
        | None, Some a => payload x' a dsize
        | None, None => counted me x x' /\ (chunksize x < need keys dsize \/ starved L me (dy_state x))
        | _, _ => True
        end
    | _ => True
    end.

(** The bucket of a tuple has its variable, if any. *)
Lemma lookup_found A C L x b l ct a pre post :
  represents A C L x -> C !! b = Some l -> l = pre ++ a :: post -> cont x a = ct -> A !! ct = Some a.
Proof. intros H Hb -> Hct. apply (rp_map _ _ _ _ H). split; [|done]. apply (in_chain C b _ a Hb). set_solver. Qed.

Lemma lookup_absent A C L x b l ct :
  represents A C L x -> C !! b = Some l -> hash_of ct mod dtds_hashsize (dy_ds x) = Z.of_nat b -> (forall a, a ∈ l -> cont x a <> ct) -> A !! ct = None /\ forall e, e ∈ concat C -> cont x e <> ct.
Proof.
  intros H Hb Hm Hl. assert (Hno : forall e, e ∈ concat C -> cont x e <> ct).
  { intros e He Hct. destruct (bucket_of sink _ _ _ _ _ _ (rp_inv _ _ _ _ H) He) as (b' & l' & Hb' & Hel & Hm'). rewrite Hct, Hm in Hm'. apply Nat2Z.inj in Hm' as <-. rewrite Hb in Hb'. injection Hb' as <-. by apply (Hl e). }
  split; [|done]. destruct (A !! ct) as [a|] eqn:E; [|done]. apply (rp_map _ _ _ _ H) in E as [Ha Hc]. by destruct (Hno a Ha).
Qed.

Lemma pass_run A C L fuel me b l h ms vs keys dsize op x :
  represents A C L x -> op <> DTRACE_DYNVAR_DEALLOC -> C !! b = Some l -> dy_hash x !! b = Some h -> (me < length L)%nat -> (length (all_chunks C L []) + length L + 3 < fuel)%nat ->
  query_ok P ms vs L x keys dsize -> faulted (dy_m x) = false -> hash_of (contents (m_mem (dy_m x)) keys) mod dtds_hashsize (dy_ds x) = Z.of_nat b ->
  runs (dynvar_pass P sink alone fuel me keys dsize op (hash_of (contents (m_mem (dy_m x)) keys)) (Z.of_nat b)) x
    (fun r x' => exists o, r = inl o /\ done_well A C L me keys dsize op x o x').
Proof.
  intros Hr Hop Hb Hh Hme Hfuel Hq Hf Hmod. pose proof (rp_inv _ _ _ _ Hr) as Hi. eapply (pass_search P sink None C L fuel me b l h ms vs keys dsize op); [exact Hi|exact Hb|exact Hh|apply Hq|exact Hf|lia|].
  intros r x1 Hal Hf1 Hfound. assert (Hr1 : represents A C L x1). { eapply represents_same; [exact Hr|by eapply inv_alike|]. intros e _. by apply cont_alike. }
  set (ct := contents (m_mem (dy_m x)) keys) in *. destruct r as [a prev| |]; [|clear Hr|done].
  - destruct Hfound as (pre & post & Hl & Hct & _). pose proof (lookup_found _ _ _ _ _ _ _ _ _ _ Hr Hb Hl Hct) as HA. replace (is_dealloc op) with false by (by destruct op). apply runs_ret. exists (Some a).
    split; [done|]. exists A, C, L. split; [done|]. fold ct. rewrite HA. split; [destruct op; cbn; [by rewrite HA|by rewrite HA|done]|]. split; [apply moved_same, Hal|]. split; [apply Hal|]. split; [done|]. by destruct op.
  - assert (Hf' : forall a, a ∈ l -> cont x1 a <> ct) by (intros a Ha; rewrite (cont_alike _ _ _ Hal); by apply Hfound).
    assert (Hmod1 : hash_of ct mod dtds_hashsize (dy_ds x1) = Z.of_nat b) by (by rewrite (al_ds _ _ Hal)). destruct (lookup_absent _ _ _ _ _ _ _ Hr1 Hb Hmod1 Hf') as [HA Hno].
    assert (Hct : contents (m_mem (dy_m x1)) keys = ct) by (by rewrite (al_mem _ _ Hal)). destruct op; [|clear Hop|done].
    + rewrite <- Hct. assert (Hq1 : query_ok P ms vs L x1 keys dsize). { destruct Hq as [q1 q2 q3 q4 q5 q6]. split; try done. intros a Ha. unfold chunksize. rewrite (al_ds _ _ Hal). by apply q6. }
      eapply runs_weaken; [apply (alloc_run P sink C L fuel me b l h ms vs keys dsize x1); [apply Hr1|done|by rewrite (al_hash _ _ Hal)|done|lia|exact Hq1|done|by rewrite Hct|by rewrite Hct]|].
      intros r x2 [(a & L' & -> & Hi2 & Hrin & Hsp & Hc2 & Ho2 & Hp2 & Hd2 & Hf2 & Hm2)|(-> & Hi2 & Hk2 & Hcount & Hwhy)].
      * exists (Some a). split; [done|]. assert (Has : a ∈ spare L []) by (rewrite <- Hsp; unfold spare; set_solver). rewrite Hct in Hc2. exists (<[ct := a]> A), (<[b := a :: l]> C), L'. split.
        { eapply represents_insert; [exact Hr1|done|done|done|done|done|]. intros Ha. destruct (apart _ _ _ _ _ _ a (rp_inv _ _ _ _ Hr1) Ha) as (_ & _ & Hn). by unfold spare in Has. }
        fold ct. rewrite HA. cbn [dynvar_spec]. rewrite HA. split; [left; exists a; split; [done|]; split; [|done]; intros ct'; by eapply rp_fresh|].
        split; [|split; [rewrite Hd2; apply Hal|done]]. destruct (chains_insert C b l Hb) as (rest & Hc1 & Hc3). split; [done| |].
        -- apply all_perm. rewrite Hc1, Hc3, <- Hsp. unfold spare. cbn. solve_Permutation.
        -- intros i Hi'. rewrite Hm2, (al_mem _ _ Hal); [done|]. unfold chunksize in *. rewrite (al_ds _ _ Hal). apply Hi'. rewrite all_spare. set_solver.
      * exists None. split; [done|]. exists A, C, L. split. { eapply represents_same; [exact Hr1|done|]. intros e _. destruct Hk2 as [_ _ K3 K4 _]. unfold cont. by rewrite K3, K4. }
        fold ct. rewrite HA. cbn [dynvar_spec]. rewrite HA. split; [by right|]. split; [apply moved_same; rewrite (kp_mem _ _ Hk2); apply Hal|]. split; [rewrite (kp_ds _ _ Hk2); apply Hal|]. split; [rewrite (kp_fault _ _ Hk2); done|].
        split; [|unfold chunksize in *; rewrite (al_ds _ _ Hal), (al_state _ _ Hal) in Hwhy; done]. destruct Hcount as (d & n & m & o & H1 & H2). rewrite (al_percpu _ _ Hal) in H1, H2. by exists d, n, m, o.
    + assert (Hh1 : dy_hash x1 !! b = Some h) by (by rewrite (al_hash _ _ Hal)). apply bind_puts. eapply bind_bucket; [rewrite Nat2Z.id; exact Hh1|]. rewrite Z.eqb_refl. cbn [negb]. apply runs_ret. exists None. split; [done|]. exists A, C, L.
      split; [eapply represents_same; [exact Hr1|by eapply inv_alike; [apply alike_tick|apply Hr1]|done]|]. fold ct. cbn [dynvar_spec]. rewrite HA. split; [done|]. split; [apply moved_same, Hal|]. split; [apply Hal|done].
Qed.

(** Deallocation, in a bucket that is locked. *)
Lemma pass_dealloc C L fuel me ls b l h ms vs keys dsize x :
  dyn_inv sink (Some b) C L [] x -> C !! b = Some l -> dy_hash x !! b = Some h -> L !! me = Some ls -> (length (all_chunks C L []) < fuel)%nat -> Forall (key_ok P ms vs) keys -> faulted (dy_m x) = false ->
  let ct := contents (m_mem (dy_m x)) keys in
  runs (dynvar_pass P sink alone fuel me keys dsize DTRACE_DYNVAR_DEALLOC (hash_of ct) (Z.of_nat b)) x (fun r x' => r = inl None /\ dy_ds x' = dy_ds x /\ faulted (dy_m x') = false /\ m_mem (dy_m x') = m_mem (dy_m x) /\
    ((exists a pre post, l = pre ++ a :: post /\ cont x a = ct /\ (forall e, e <> a -> cont x' e = cont x e) /\
       dyn_inv sink None (<[b := pre ++ post]> C) (<[me := CpuLists (cl_free ls) (a :: cl_dirty ls) (cl_rinsing ls) (cl_clean ls)]> L) [] x') \/
     ((forall a, a ∈ l -> cont x a <> ct) /\ (forall e, cont x' e = cont x e) /\ dyn_inv sink None C L [] x'))).
Proof.
  intros Hi Hb Hh Hls Hfuel Hk Hf ct. eapply (pass_search P sink (Some b) C L fuel me b l h ms vs keys dsize); [exact Hi|exact Hb|exact Hh|exact Hk|exact Hf|lia|].
  intros r x1 Hal Hf1 Hfound. assert (Hi1 : dyn_inv sink (Some b) C L [] x1) by (by eapply inv_alike). assert (Hh1 : dy_hash x1 !! b = Some h) by (by rewrite (al_hash _ _ Hal)).
  assert (Hc1 : forall e, cont x1 e = cont x e) by (intros e; by apply cont_alike). destruct r as [a prev| |]; [| |done].
  - destruct Hfound as (pre & post & -> & Hct & ->). cbn [is_dealloc]. destruct fuel as [|fuel]; [lia|].
    eapply runs_weaken; [apply (remove_run sink C L fuel me ls b pre a post h x1 Hi1 Hb Hh1 Hls)|]. intros r x2 (-> & Hi2 & Ho2). split; [done|]. pose proof Ho2 as (Hd2 & Hm2 & _).
    split; [rewrite Hd2; apply Hal|]. split; [by rewrite Hm2|]. split; [rewrite Hm2; apply Hal|]. left. exists a, pre, post. split; [done|]. split; [done|]. split; [|done]. intros e He. by rewrite (others_cont _ _ _ _ Ho2), Hc1.
  - eapply runs_bind; [apply (unlock_run sink C L [] b h x1 Hi1 Hh1)|]. intros _ x2 (Hi2 & Hv2 & Hd2 & Hm2). apply runs_ret. split; [done|]. split; [rewrite Hd2; apply Hal|]. split; [by rewrite Hm2|]. split; [rewrite Hm2; apply Hal|]. right.
    split; [done|]. split; [|done]. intros e. rewrite <- Hc1. unfold cont. by rewrite Hv2, Hm2.
Qed.

(** * The whole function *)

Lemma done_well_alike A C L me keys dsize op x x1 r x' : alike x x1 -> done_well A C L me keys dsize op x1 r x' -> done_well A C L me keys dsize op x r x'.
Proof.
  intros [H1 H2 H3 H4 H5 H6] (A' & C' & L' & Hr & Hs & Hl & Hd & Hf & Hm). exists A', C', L'. unfold counted, chunksize in *. rewrite H6, H4, H3, H1 in *. split; [done|]. split; [done|]. split; [|done]. destruct Hl as [l1 l2 l3]. unfold chunksize in l3. rewrite H1, H6 in l3. by split.
Qed.

Lemma dealloc_run A C L fuel me b l ms vs keys dsize x :
  represents A C L x -> C !! b = Some l -> (me < length L)%nat -> (length (all_chunks C L []) < fuel)%nat -> Forall (key_ok P ms vs) keys -> faulted (dy_m x) = false ->
  hash_of (contents (m_mem (dy_m x)) keys) mod dtds_hashsize (dy_ds x) = Z.of_nat b ->
  runs (sbind (lock_bucket alone fuel (Z.of_nat b)) (fun _ => dynvar_pass P sink alone fuel me keys dsize DTRACE_DYNVAR_DEALLOC (hash_of (contents (m_mem (dy_m x)) keys)) (Z.of_nat b))) x
    (fun r x' => exists o, r = inl o /\ done_well A C L me keys dsize DTRACE_DYNVAR_DEALLOC x o x').
Proof.
  intros Hr Hb Hme Hfuel Hk Hf Hmod. pose proof (rp_inv _ _ _ _ Hr) as Hi. destruct (lookup_lt_is_Some_2 L me Hme) as [ls Hls]. pose proof (lookup_lt_Some _ _ _ Hb) as Hlt. destruct fuel as [|fuel]; [lia|].
  eapply runs_bind; [apply (lock_run sink C L [] fuel b x Hi Hlt)|]. intros _ x1 (Hi1 & Hv1 & Hd1 & Hm1). destruct (di_chain _ _ _ _ _ _ Hi1 b l Hb) as (h & Hh & _).
  assert (Hc1 : forall e, cont x1 e = cont x e) by (intros e; unfold cont; by rewrite Hv1, Hm1). rewrite <- Hm1.
  eapply runs_weaken; [apply (pass_dealloc C L (S fuel) me ls b l h ms vs keys dsize x1); [done|done|done|done|done|done|by rewrite Hm1]|].
  intros r x2 (-> & Hd2 & Hf2 & Hm2 & Hcase). rewrite Hm1 in Hm2. rewrite Hm1 in Hcase. exists None. split; [done|]. destruct Hcase as [(a & pre & post & -> & Hct & Ho & Hi2)|(Hno & Ho & Hi2)].
  - exists (delete (contents (m_mem (dy_m x)) keys) A), (<[b := pre ++ post]> C), (<[me := CpuLists (cl_free ls) (a :: cl_dirty ls) (cl_rinsing ls) (cl_clean ls)]> L). split.
    { eapply represents_delete; [exact Hr|exact Hb|by rewrite <- Hc1|exact Hi2|]. intros e He. by rewrite Ho, Hc1. }
    split; [done|]. split; [|split; [congruence|done]]. destruct (chains_insert C b _ Hb) as (rest & C1 & C2). destruct (concat_put cpu_all L me ls Hls) as (rest' & L1 & L2). split.
    + by eapply rinsing_insert.
    + apply all_perm. rewrite C1, C2. unfold spare. rewrite L1, L2. unfold cpu_all. cbn. solve_Permutation.
    + intros i _. by rewrite Hm2.
  - destruct (lookup_absent _ _ _ _ _ _ _ Hr Hb Hmod) as [HA _]; [intros a Ha; rewrite <- Hc1; by apply Hno|]. exists A, C, L.
    split; [eapply represents_same; [exact Hr|exact Hi2|intros e _; by rewrite Ho, Hc1]|]. split; [cbn; by rewrite delete_id|]. split; [by apply moved_same|]. split; [congruence|done].
Qed.

Lemma dynvar_run A C L fuel me ms vs keys dsize op x :
  represents A C L x -> (me < length L)%nat -> (length (all_chunks C L []) + length L + 3 < fuel)%nat -> query_ok P ms vs L x keys dsize -> faulted (dy_m x) = false ->
  runs (dtrace_dynvar P sink alone fuel me keys dsize op ms vs) x (done_well A C L me keys dsize op x).
Proof.
  intros Hr Hme Hfuel Hq Hf. destruct fuel as [|n]; [lia|]. pose proof (rp_inv _ _ _ _ Hr) as Hi. cbn [dtrace_dynvar]. apply bind_assert; [rewrite bool_decide_eq_false_2; [done|apply Hq]|].
  destruct (hash_keys_ok P ms vs keys DTRACE_DYNHASH_VALID (dy_m x) (qo_keys _ _ _ _ _ _ _ Hq) Hf) as (m1 & Hhash & Hm1 & Hf1). unfold on_mach at 1. apply bind_assoc. eapply bind_gets; [exact Hhash|]. apply bind_assoc. apply bind_puts. apply bind_ret.
  eapply bind_gets; [reflexivity|]. change (faulted (dy_m (set_mach m1 x))) with (faulted m1). rewrite Hf1. eapply bind_gets; [reflexivity|]. cbn [dy_ds set_mach].
  set (ct := contents (m_mem (dy_m x)) keys). change (hash_finish (fold_left hash_content ct DTRACE_DYNHASH_VALID)) with (hash_of ct). rewrite (di_hashsize _ _ _ _ _ _ Hi). pose proof (di_some _ _ _ _ _ _ Hi) as Hpos.
  apply bind_assert; [destruct (Z.eqb_spec (Z.of_nat (length C)) 0); [lia|done]|]. set (b := Z.to_nat (hash_of ct mod Z.of_nat (length C))). pose proof (Z.mod_pos_bound (hash_of ct) (Z.of_nat (length C)) ltac:(lia)) as Hmb.
  assert (Hbz : hash_of ct mod Z.of_nat (length C) = Z.of_nat b) by (unfold b; lia). rewrite Hbz. destruct (lookup_lt_is_Some_2 C b ltac:(lia)) as [l Hb].
  assert (Hal : alike x (set_mach m1 x)) by (by apply alike_mach). set (x1 := set_mach m1 x) in *. assert (Hr1 : represents A C L x1) by (eapply represents_same; [exact Hr|by eapply inv_alike|]; intros e _; by apply cont_alike).
  assert (Hct : contents (m_mem (dy_m x1)) keys = ct) by (unfold ct, x1; cbn; by rewrite Hm1).
  assert (Hmod1 : hash_of (contents (m_mem (dy_m x1)) keys) mod dtds_hashsize (dy_ds x1) = Z.of_nat b) by (rewrite Hct; unfold x1; cbn [dy_ds set_mach]; by rewrite (di_hashsize _ _ _ _ _ _ Hi)).
  assert (Hq1 : query_ok P ms vs L x1 keys dsize) by (destruct Hq; by split).
  assert (Hfin : forall m x0, runs m x0 (fun r x' => exists o, r = inl o /\ done_well A C L me keys dsize op x1 o x') ->
    runs (sbind (sbind m (fun r => match r with inl dvar => sret (Some dvar) | inr Retry => dynvar_top P sink alone n me keys dsize op (hash_of ct) (Z.of_nat b) | inr Recall => sret None end))
      (fun r => match r with Some dvar => sret dvar | None => dtrace_dynvar P sink alone n me keys dsize op ms vs end)) x0 (done_well A C L me keys dsize op x)).
  { intros m x0 Hm. apply bind_assoc. eapply runs_bind; [exact Hm|]. intros r x' (o & -> & Hd). apply bind_ret. apply runs_ret. by eapply done_well_alike. }
  destruct (is_dealloc op) eqn:Eop.
  - destruct op; try done. pose proof (dealloc_run A C L (S n) me b l ms vs keys dsize x1 Hr1 Hb Hme ltac:(lia) (qo_keys _ _ _ _ _ _ _ Hq) Hf1 Hmod1) as Hd. rewrite Hct in Hd.
    apply Hfin in Hd. unfold sbind at 1. unfold runs, sbind at 1 2 3 in Hd. unfold runs. cbn [dynvar_top]. destruct (lock_bucket alone (S n) (Z.of_nat b) x1) as [[[] x2]|]; done.
  - apply bind_ret. cbn [dynvar_top]. apply Hfin. destruct (di_chain _ _ _ _ _ _ (rp_inv _ _ _ _ Hr1) b l Hb) as (h & Hh & _). rewrite <- Hct.
    apply (pass_run A C L (S n) me b l h ms vs keys dsize op x1); try done. by destruct op.
Qed.
End Spec.
