(* ===== verification/DynClean.v ===== *)
(** dtrace_dynvar_clean(): dirty chunks become clean, and nothing else changes. *)
From S2P Require Import Prelude StateProg Dif SafeMem DifValidate DifEmulate DifSafety DynVar DynKeys DynLists DynOps DynSpec.
From stdpp Require Import gmap list.
#[local] Open Scope Z_scope.

(** The dirty chunks of a CPU are moved when the CPU has no clean ones. *)
Definition to_rinse (ls : cpu_lists) : bool := negb (bool_decide (cl_dirty ls = [])) && bool_decide (cl_clean ls = []).
Definition rinsed (ls : cpu_lists) : cpu_lists := if to_rinse ls then CpuLists (cl_free ls) [] (cl_dirty ls) [] else ls.
Definition hung_out (ls : cpu_lists) : cpu_lists := if bool_decide (cl_rinsing ls = []) then ls else CpuLists (cl_free ls) (cl_dirty ls) [] (cl_rinsing ls).
Definition cleaned (ls : cpu_lists) : cpu_lists := if to_rinse ls then CpuLists (cl_free ls) [] [] (cl_dirty ls) else ls.

Lemma hung_rinsed ls : cl_rinsing ls = [] -> hung_out (rinsed ls) = cleaned ls.
Proof.
  intros H. unfold hung_out, rinsed, cleaned, to_rinse. destruct (bool_decide_reflect (cl_dirty ls = [])) as [Hd|Hd]; cbn; [by rewrite bool_decide_eq_true_2|].
  destruct (bool_decide_reflect (cl_clean ls = [])); cbn; [by rewrite bool_decide_eq_false_2|by rewrite bool_decide_eq_true_2].
Qed.

Lemma cleaned_perm ls : cl_rinsing ls = [] -> cpu_all (cleaned ls) ≡ₚ cpu_all ls.
Proof.
  intros H. unfold cleaned, to_rinse. destruct (bool_decide_reflect (cl_dirty ls = [])); cbn; [done|]. destruct (bool_decide_reflect (cl_clean ls = [])) as [E|]; [|done]. unfold cpu_all. cbn. rewrite H, E, !app_nil_r. done.
Qed.

Lemma seg_none vars o l : seg vars o l None -> o = None <-> l = [].
Proof. intros H%seg_head. destruct l; cbn in H; subst; done. Qed.

(** The lists [cs] of CPUs, each changed by [f]. *)
Definition at_cpus (f : cpu_lists -> cpu_lists) (cs : list nat) (L L' : list cpu_lists) : Prop :=
  length L' = length L /\ forall c, L' !! c = (if decide (c ∈ cs) then f <$> L !! c else L !! c).

Lemma at_cpus_nil f L : at_cpus f [] L L.
Proof. split; [done|]. intros c. by rewrite decide_False by set_solver. Qed.

Lemma at_cpus_cons f c cs L ls L' : L !! c = Some ls -> c ∉ cs -> at_cpus f cs (<[c := f ls]> L) L' -> at_cpus f (c :: cs) L L'.
Proof.
  intros Hc Hn [Hl H]. rewrite length_insert in Hl. split; [done|]. intros c'. rewrite H. pose proof (lookup_lt_Some _ _ _ Hc). destruct (decide (c' = c)) as [->|Hne].
  - rewrite decide_False by done. rewrite decide_True by set_solver. by rewrite list_lookup_insert_eq, Hc.
  - rewrite list_lookup_insert_ne by done. destruct (decide (c' ∈ cs)); [rewrite decide_True by set_solver|rewrite decide_False by set_solver]; done.
Qed.

Section Clean.
Context (P : platform) (sink : Z).
Abbreviation dyn_inv := (DynLists.dyn_inv sink).

Lemma kept_refl x : kept x x.
Proof. by split. Qed.

Lemma rinse_run C L c ls fuel x :
  dyn_inv None C L [] x -> L !! c = Some ls -> cl_rinsing ls = [] -> to_rinse ls = true ->
  runs (rinse alone (S fuel) c) x (fun _ x' => dyn_inv None C (<[c := rinsed ls]> L) [] x' /\ kept x x' /\ dy_state x' = dy_state x).
Proof.
  intros Hi Hc Hr Ht. destruct (di_cpu _ _ _ _ _ _ Hi c ls Hc) as (d & Hd & H1 & H2 & H3 & H4). pose proof (lookup_lt_Some _ _ _ Hd) as Hlt. unfold rinsed. rewrite Ht.
  unfold to_rinse in Ht. apply andb_prop in Ht as [_ Ht%bool_decide_eq_true]. rewrite Ht in H4. cbn [rinse]. eapply bind_cpu; [exact Hd|]. eapply bind_upd_cpu; [exact Hd|]. apply bind_puts.
  eapply bind_cpu; [cbn; by apply list_lookup_insert_eq|]. rewrite bool_decide_eq_true_2 by done. eexists _, _. split; [unfold upd_cpu, sbind, get_cpu, sgets; cbn; rewrite list_lookup_insert_eq by done; reflexivity|].
  split; [|by split; [split|]]. apply (inv_fields _ _ _ _ _ (set_percpu (<[c := put_dirty None (put_rinsing (dtdsc_dirty d) d)]> (dy_percpu x)) x)); try done; [|cbn; by rewrite list_insert_insert_eq].
  eapply inv_cpu; [exact Hi|exact Hc|exact Hd|by split_and!|]. unfold cpu_all. cbn. rewrite Hr, Ht, !app_nil_r. done.
Qed.

(** One of the CPUs [cs] has chunks to move. *)
Definition some_rinse (cs : list nat) (L : list cpu_lists) : Prop := exists c ls, c ∈ cs /\ L !! c = Some ls /\ to_rinse ls = true.

Lemma some_rinse_cons c cs L ls : L !! c = Some ls -> some_rinse (c :: cs) L <-> to_rinse ls = true \/ some_rinse cs L.
Proof.
  intros Hc. split.
  - intros (c' & ls' & [->|Hin]%elem_of_cons & Hl & Ht); [left; congruence|right; by exists c', ls'].
  - intros [Ht|(c' & ls' & Hin & Hl & Ht)]; [exists c, ls; split_and!; [apply list_elem_of_here|done|done]|exists c', ls'; split_and!; [by apply list_elem_of_further|done|done]].
Qed.

Lemma rinse_cpus_run C fuel cs : forall L x work,
  dyn_inv None C L [] x -> NoDup cs -> (forall c, c ∈ cs -> exists ls, L !! c = Some ls /\ cl_rinsing ls = []) ->
  runs (rinse_cpus alone (S fuel) cs work) x (fun w x' => exists L', dyn_inv None C L' [] x' /\ at_cpus rinsed cs L L' /\ kept x x' /\ dy_state x' = dy_state x /\
    (w = true <-> work = true \/ some_rinse cs L)).
Proof.
  induction cs as [|c cs IH]; intros L x work Hi Hnd Hcs.
  - apply runs_ret. exists L. split; [done|]. split; [apply at_cpus_nil|]. split; [apply kept_refl|]. split; [done|]. split; [by left|]. intros [?|(c & ls & Hin & _)]; [done|]. by apply elem_of_nil in Hin.
  - apply NoDup_cons in Hnd as [Hn Hnd]. destruct (Hcs c (list_elem_of_here _ _)) as (ls & Hc & Hr). destruct (di_cpu _ _ _ _ _ _ Hi c ls Hc) as (d & Hd & H1 & H2 & H3 & H4).
    cbn [rinse_cpus]. eapply bind_cpu; [exact Hd|]. rewrite Hr in H3. apply bind_assert; [by rewrite bool_decide_eq_true_2|].
    assert (Hskip : to_rinse ls = false -> runs (rinse_cpus alone (S fuel) cs work) x (fun w x' => exists L', dyn_inv None C L' [] x' /\ at_cpus rinsed (c :: cs) L L' /\ kept x x' /\ dy_state x' = dy_state x /\
      (w = true <-> work = true \/ some_rinse (c :: cs) L))).

    { intros Ht. eapply runs_weaken; [apply (IH L x work Hi Hnd); intros c' Hc'; apply Hcs; by apply list_elem_of_further|]. intros w x' (L' & Hi' & Hat & Hk & Hst & Hw). exists L'. split; [done|]. split.
      - apply (at_cpus_cons _ _ _ _ ls); [done|done|]. unfold rinsed at 2. by rewrite Ht, list_insert_id.
      - split; [done|]. split; [done|]. rewrite Hw, (some_rinse_cons c cs L ls Hc), Ht. split; [tauto|]. intros [?|[?|?]]; [by left|done|by right]. }
    destruct (bool_decide_reflect (dtdsc_dirty d = None)) as [E|E]; [apply Hskip; unfold to_rinse; by rewrite bool_decide_eq_true_2 by (by apply (seg_none _ _ _ H2))|].
    destruct (bool_decide_reflect (dtdsc_clean d <> None)) as [E2|E2]; [apply Hskip; unfold to_rinse; rewrite (bool_decide_eq_false_2 (cl_clean ls = [])); [by rewrite andb_false_r|]; intros Hcl; apply E2; by apply (seg_none _ _ _ H4)|].
    assert (Ht : to_rinse ls = true). { unfold to_rinse. rewrite bool_decide_eq_false_2, bool_decide_eq_true_2; [done| |]; [apply (seg_none _ _ _ H4); by apply dec_stable|]. intros Hcl. apply E. by apply (seg_none _ _ _ H2). }
    eapply runs_bind; [by apply (rinse_run C L c ls)|]. intros _ x1 (Hi1 & Hk1 & Hs1).
    eapply runs_weaken; [apply (IH (<[c := rinsed ls]> L) x1 true Hi1 Hnd)|].
    + intros c' Hc'. rewrite list_lookup_insert_ne by (intros ->; done). apply Hcs. by apply list_elem_of_further.
    + intros w x' (L' & Hi' & Hat & Hk & Hst & Hw). exists L'. split; [done|]. split; [by eapply at_cpus_cons|]. split; [by eapply kept_trans|]. split; [congruence|]. rewrite Hw, (some_rinse_cons c cs L ls Hc), Ht. split; [tauto|by left].
Qed.

Lemma clean_cpus_run C cs : forall L x,
  dyn_inv None C L [] x -> NoDup cs -> (forall c, c ∈ cs -> exists ls, L !! c = Some ls /\ (cl_rinsing ls <> [] -> cl_clean ls = [])) ->
  runs (clean_cpus cs) x (fun _ x' => exists L', dyn_inv None C L' [] x' /\ at_cpus hung_out cs L L' /\ kept x x').
Proof.
  induction cs as [|c cs IH]; intros L x Hi Hnd Hcs.
  - apply runs_ret. exists L. split; [done|]. split; [apply at_cpus_nil|apply kept_refl].
  - apply NoDup_cons in Hnd as [Hn Hnd]. destruct (Hcs c (list_elem_of_here _ _)) as (ls & Hc & Hr). destruct (di_cpu _ _ _ _ _ _ Hi c ls Hc) as (d & Hd & H1 & H2 & H3 & H4). cbn [clean_cpus]. eapply bind_cpu; [exact Hd|].
    assert (Hstep : runs (if bool_decide (dtdsc_rinsing d = None) then sret tt else sbind (sassert (bool_decide (dtdsc_clean d = None))) (fun _ => upd_cpu c (fun d => put_rinsing None (put_clean (dtdsc_rinsing d) d)))) x
      (fun _ x' => dyn_inv None C (<[c := hung_out ls]> L) [] x' /\ kept x x')).
    { unfold hung_out. destruct (bool_decide_reflect (dtdsc_rinsing d = None)) as [E|E].
      - rewrite (bool_decide_eq_true_2 (cl_rinsing ls = [])) by (by apply (seg_none _ _ _ H3)). apply runs_ret. rewrite list_insert_id by done. split; [done|apply kept_refl].
      - assert (Hne : cl_rinsing ls <> []) by (intros Hcl; apply E; by apply (seg_none _ _ _ H3)). rewrite (bool_decide_eq_false_2 (cl_rinsing ls = [])) by done. pose proof (Hr Hne) as Hcl. rewrite Hcl in H4. apply bind_assert; [by rewrite bool_decide_eq_true_2|].
        eexists _, _. split; [unfold upd_cpu, sbind, get_cpu, sgets; rewrite Hd; reflexivity|]. split; [|by split]. eapply inv_cpu; [exact Hi|exact Hc|exact Hd|by split_and!|]. unfold cpu_all. cbn. rewrite Hcl, !app_nil_r. done. }
    eapply runs_bind; [exact Hstep|]. intros _ x1 [Hi1 Hk1]. eapply runs_weaken; [apply (IH (<[c := hung_out ls]> L) x1 Hi1 Hnd)|].
    + intros c' Hc'. rewrite list_lookup_insert_ne by (intros ->; done). apply Hcs. by apply list_elem_of_further.
    + intros ? x' (L' & Hi' & Hat & Hk). exists L'. split; [done|]. split; [by eapply at_cpus_cons|by eapply kept_trans].
Qed.

Lemma at_all f L L' : at_cpus f (seq 0 (length L)) L L' -> L' = map f L.
Proof.
  intros [Hl H]. apply list_eq. intros c. rewrite H. change (map f L) with (f <$> L). rewrite list_lookup_fmap. destruct (decide (c ∈ seq 0 (length L))) as [|Hn]; [done|].
  rewrite lookup_ge_None_2; [done|]. destruct (decide (length L <= c)%nat); [done|]. destruct Hn. apply elem_of_seq. lia.
Qed.

Lemma clean_run A C L fuel x :
  represents sink A C L x -> Forall (fun ls => cl_rinsing ls = []) L ->
  runs (dtrace_dynvar_clean alone (S fuel)) x (fun _ x' => represents sink A C (map cleaned L) x' /\ kept x x' /\
    dy_state x' = if existsb to_rinse L then DTRACE_DSTATE_CLEAN else dy_state x).
Proof.
  intros Hr Hrin. pose proof (rp_inv _ _ _ _ _ Hr) as Hi. unfold dtrace_dynvar_clean. eapply bind_gets; [reflexivity|]. rewrite (di_ncpu _ _ _ _ _ _ Hi).
  assert (Hin : forall c, c ∈ seq 0 (length L) -> exists ls, L !! c = Some ls /\ cl_rinsing ls = []).
  { intros c Hc%elem_of_seq. destruct (lookup_lt_is_Some_2 L c ltac:(lia)) as [ls Hls]. exists ls. split; [done|]. rewrite Forall_forall in Hrin. apply Hrin. by eapply list_elem_of_lookup_2. }
  assert (Hsame : forall x' L', dyn_inv None C L' [] x' -> kept x x' -> represents sink A C L' x'). { intros x' L' Hi' [_ _ K3 K4 _]. eapply represents_same; [exact Hr|done|]. intros e _. unfold cont. by rewrite K3, K4. }
  assert (Hsome : existsb to_rinse L = true <-> some_rinse (seq 0 (length L)) L).
  { rewrite existsb_exists. split.
    - intros (ls & Hls & Ht). apply list_elem_of_In, list_elem_of_lookup in Hls as [c Hc]. exists c, ls. split; [|done]. apply elem_of_seq. apply lookup_lt_Some in Hc. lia.
    - intros (c & ls & _ & Hc & Ht). exists ls. split; [apply list_elem_of_In; by eapply list_elem_of_lookup_2|done]. }
  eapply runs_bind; [apply (rinse_cpus_run C fuel (seq 0 (length L)) L x false Hi (NoDup_seq _ _) Hin)|]. intros w x1 (L1 & Hi1 & Hat1 & Hk1 & Hs1 & Hw). apply at_all in Hat1 as ->. destruct w; cbn [negb].
  - apply bind_puts. eapply runs_bind; [apply (clean_cpus_run C (seq 0 (length L)) (map rinsed L)); [by eapply inv_alike; [apply alike_tick|]|apply NoDup_seq|]|].
    { intros c Hc. destruct (Hin c Hc) as (ls & Hls & Hls0). exists (rinsed ls). split; [change (map rinsed L) with (rinsed <$> L); by rewrite list_lookup_fmap, Hls|]. unfold rinsed. by destruct (to_rinse ls). }
    intros _ x2 (L2 & Hi2 & Hat2 & Hk2). rewrite <- (length_map rinsed L) in Hat2. apply at_all in Hat2 as ->. rewrite map_map in Hi2. apply bind_puts. apply runs_puts.
    assert (Hmap : map (fun ls => hung_out (rinsed ls)) L = map cleaned L). { apply map_ext_in. intros ls Hls. apply hung_rinsed. rewrite Forall_forall in Hrin. apply Hrin. by apply list_elem_of_In. }
    rewrite Hmap in Hi2. set (x3 := set_dstate _ _). assert (Hk : kept x x3) by (eapply kept_trans; [exact Hk1|]; eapply kept_trans; [|eapply kept_trans; [exact Hk2|]]; by split).
    split; [|split; [exact Hk|]].
    + apply Hsame; [by eapply inv_fields|exact Hk].
    + cbn. replace (existsb to_rinse L) with true; [done|]. symmetry. apply Hsome. by destruct (proj1 Hw eq_refl) as [?|?].
  - apply runs_ret. assert (Hno : existsb to_rinse L = false). { destruct (existsb to_rinse L) eqn:E; [|done]. by discriminate (proj2 Hw (or_intror (proj1 Hsome eq_refl))). }
    rewrite Hno. assert (Hid : forall f : cpu_lists -> cpu_lists, (forall ls, to_rinse ls = false -> f ls = ls) -> map f L = L).
    { intros f Hf. rewrite <- (map_id L) at 2. apply map_ext_in. intros ls Hls. apply Hf. destruct (to_rinse ls) eqn:Et; [|done]. rewrite <- Hno. symmetry. apply existsb_exists. by exists ls. }
    rewrite (Hid cleaned) by (intros ls Ht; unfold cleaned; by rewrite Ht). rewrite (Hid rinsed) in Hi1 by (intros ls Ht; unfold rinsed; by rewrite Ht). split; [by apply Hsame|]. done.
Qed.
End Clean.
