(* ===== verification/DynInit.v ===== *)
(** dtrace_dstate_init(): the space is cut into the free lists of the CPUs. *)
From S2P Require Import Prelude StateProg Dif SafeMem DifValidate DifEmulate DifSafety DynVar DynKeys DynLists DynOps DynSpec.
From stdpp Require Import gmap list.
#[local] Open Scope Z_scope.

(** Chunks of the grid of [size] from [origin], between [lo] and [hi]. *)
Definition on_grid (origin size lo hi a : Z) : Prop := lo <= a /\ a + size <= hi /\ (a - origin) mod size = 0.

Lemma grid_spaced origin size lo hi a a' : 0 < size -> on_grid origin size lo hi a -> on_grid origin size lo hi a' -> a <> a' -> a + size <= a' \/ a' + size <= a.
Proof.
  intros Hs (_ & _ & H1) (_ & _ & H2) Hne. apply Z.mod_divide in H1 as [k Hk]; [|lia]. apply Z.mod_divide in H2 as [k' Hk']; [|lia]. assert (k < k' \/ k' < k) as [|] by nia; nia.
Qed.

Lemma grid_weaken origin size lo hi lo' hi' a : lo' <= lo -> hi <= hi' -> on_grid origin size lo hi a -> on_grid origin size lo' hi' a.
Proof. intros ?? (?&?&?). split; [lia|]. split; [lia|done]. Qed.

(** What a list of free chunks is. *)
Definition freshly (origin size lo hi : Z) (vars vars' : gmap Z dynvar) (l : list Z) : Prop :=
  NoDup l /\ (forall a, a ∈ l -> on_grid origin size lo hi a /\ exists v, vars' !! a = Some v /\ dtdv_hashval v = DTRACE_DYNHASH_FREE) /\
  forall a, a ∉ l -> vars' !! a = vars !! a.

Lemma carve_run origin cs limit : forall fuel dvar vars, 0 < cs -> 0 < dvar -> dvar + cs <= limit -> limit + cs < 2 ^ 64 -> limit - dvar < cs * Z.of_nat fuel -> (dvar - origin) mod cs = 0 ->
  exists l vars', carve fuel cs limit dvar vars = Some vars' /\ seg vars' (Some dvar) (dvar :: l) None /\ freshly origin cs dvar limit vars vars' (dvar :: l).
Proof.
  induction fuel as [|fuel IH]; intros dvar vars Hcs Hd Hfit Hlim Hfuel Hgrid; [lia|]. cbn [carve]. assert (Hg : on_grid origin cs dvar limit dvar) by (split; [lia|done]).
  rewrite (u64_id (dvar + cs)), (u64_id (dvar + cs + cs)) by (unfold is_u; lia). destruct (limit <=? dvar + cs + cs) eqn:E.
  - exists [], (<[dvar := free_chunk None]> vars). split; [done|]. split.
    + split; [done|]. exists (free_chunk None). by rewrite lookup_insert_eq.
    + split; [apply NoDup_singleton|]. split; [|intros a Ha; rewrite lookup_insert_ne; [done|set_solver]]. intros a ->%list_elem_of_singleton. split; [done|]. eexists. by rewrite lookup_insert_eq.
  - destruct (IH (dvar + cs) (<[dvar := free_chunk (Some (dvar + cs))]> vars)) as (l & vars' & Hc & Hs & Hn & Hi & Ho); [lia..| |].
    { replace (dvar + cs - origin) with (dvar - origin + 1 * cs) by lia. by rewrite Z.mod_add by lia. }
    assert (Hnd : dvar ∉ dvar + cs :: l). { intros Hin. destruct (Hi _ Hin) as [(Hlo & _) _]. lia. }
    assert (Hdv : vars' !! dvar = Some (free_chunk (Some (dvar + cs)))) by (rewrite Ho by done; by rewrite lookup_insert_eq).
    exists (dvar + cs :: l), vars'. split; [done|]. split; [|split; [by apply NoDup_cons|]; split].
    + split; [done|]. eexists. split; [exact Hdv|]. exact Hs.
    + intros a [->|Ha]%elem_of_cons; [split; [done|]; eexists; by split; [exact Hdv|]|]. destruct (Hi a Ha) as [Hga Hv]. split; [|done]. eapply grid_weaken; [..|exact Hga]; lia.
    + intros a Ha. rewrite Ho by set_solver. rewrite lookup_insert_ne; [done|set_solver].
Qed.

Definition only_free (l : list Z) : cpu_lists := CpuLists l [] [] [].

(** Lists of CPUs of which none but the free list has chunks. *)
Definition shared (vars : gmap Z dynvar) (cpus : list percpu) (F : list (list Z)) : Prop :=
  Forall2 (fun d l => cpu_ok vars d (only_free l)) cpus F.

Lemma shared_frame vars vars' cpus F : (forall a, a ∈ concat F -> same_next vars vars' a) -> shared vars cpus F -> shared vars' cpus F.
Proof.
  intros H Hs. induction Hs as [|d l cpus F Hd Hs IH]; [constructor|]. cbn in H. constructor; [|apply IH; set_solver].
  eapply cpu_ok_frame; [|exact Hd]. unfold cpu_all, only_free. cbn. intros a Ha. apply H. set_solver.
Qed.

Lemma shared_none vars n : shared vars (replicate n no_chunks) (replicate n []).
Proof. induction n as [|n IH]; constructor; [|exact IH]. by split; [|split; [|split]]. Qed.

Lemma concat_nils {A} n : concat (replicate n (@nil A)) = [].
Proof. by induction n. Qed.

Lemma share_chunks_run origin fuel cs maxper limit : forall n start vars,
  0 < cs -> 0 < start -> (start + cs <= limit /\ (start - origin) mod cs = 0) \/ n = O -> limit + cs < 2 ^ 64 -> limit - start < cs * Z.of_nat fuel -> maxper mod cs = 0 -> 0 <= maxper ->
  start + Z.of_nat n * maxper <= limit ->
  exists cpus vars' F, share_chunks fuel n cs maxper limit start vars = Some (cpus, vars') /\ length F = n /\ shared vars' cpus F /\ freshly origin cs start limit vars vars' (concat F) /\
    (forall i, (i < n)%nat -> (0 < maxper \/ i = 0%nat) -> exists a l, F !! i = Some (a :: l)).
Proof.
  induction n as [|n IH]; intros start vars Hcs Hs Hfit Hlim Hfuel Hm Hm0 Hall; cbn [share_chunks].
  { exists [], vars, []. split; [done|]. split; [done|]. split; [constructor|]. split; [|lia]. split; [constructor|]. split; [set_solver|done]. }
  destruct Hfit as [[Hfit Hg]|]; [|done]. set (lim := if (maxper =? 0) || (n =? 0)%nat then limit else u64 (start + maxper)).
  assert (Hmcs : maxper = 0 \/ cs <= maxper). { apply Z.mod_divide in Hm as [k Hk]; [|lia]. assert (k <= 0 \/ 1 <= k) as [|] by lia; nia. }
  assert (Hl : lim <= limit /\ start + cs <= lim /\ ((maxper <> 0 /\ n <> 0%nat) -> lim = start + maxper) /\ (n = 0%nat -> lim = limit)).
  { unfold lim. destruct (Z.eqb_spec maxper 0) as [->|Hne]; cbn; [split; [lia|]; split; [lia|]; split; [tauto|done]|]. destruct (Nat.eqb_spec n 0) as [->|Hn]; [split; [lia|]; split; [lia|]; split; [tauto|done]|].
    rewrite u64_id by (unfold is_u; nia). split; [nia|]. split; [lia|]. by split. }
  clearbody lim. destruct Hl as (Hl1 & Hl2 & Hl3 & Hl4). destruct (Z.ltb_spec limit lim); [lia|].
  destruct (carve_run origin cs lim fuel start vars) as (l & vars1 & -> & Hseg & Hn1 & Hi1 & Ho1); [lia..|done|].
  assert (Hfree : forall vars', seg vars' (Some start) (start :: l) None -> cpu_ok vars' (put_free (Some start) no_chunks) (only_free (start :: l))) by (intros vars' H'; by split; [|split; [|split]]).
  destruct (Z.eqb_spec maxper 0) as [->|Hne].
  - exists (put_free (Some start) no_chunks :: replicate n no_chunks), vars1, ((start :: l) :: replicate n []). split; [done|]. split; [cbn; by rewrite length_replicate|].
    split; [constructor; [by apply Hfree|apply shared_none]|]. cbn [concat]. rewrite concat_nils, app_nil_r. split; [|intros i Hi [?| ->]; [lia|by eexists _, _]].
    split; [done|]. split; [|done]. intros a Ha. destruct (Hi1 a Ha) as [Hga Hv]. split; [|done]. eapply grid_weaken; [..|exact Hga]; lia.
  - destruct (IH lim vars1) as (cpus & vars2 & F & -> & HF & Hsh & (Hn2 & Hi2 & Ho2) & Hsome); [lia|lia| |lia|lia|done|done| |].
    { destruct n; [by right|left]. rewrite Hl3 by done. split; [nia|]. replace (start + maxper - origin) with (maxper + (start - origin)) by lia. by rewrite Z.add_mod, Hm, Hg by lia. }
    { destruct n; [rewrite Hl4 by done; lia|rewrite Hl3 by done; nia]. }
    assert (Hdis : forall a, a ∈ start :: l -> a ∉ concat F). { intros a Ha Ha'. destruct (Hi1 a Ha) as [(_ & H1 & _) _], (Hi2 a Ha') as [(H2 & _) _]. lia. }
    assert (Hkeep : forall a, a ∈ start :: l -> vars2 !! a = vars1 !! a) by (intros a Ha; by apply Ho2, Hdis).
    eexists _, vars2, ((start :: l) :: F). split; [done|]. split; [cbn; by rewrite HF|]. split; [|split].
    + constructor; [|exact Hsh]. apply Hfree. eapply chunks_frame; [|exact Hseg]. intros a Ha. unfold same_next. by rewrite Hkeep.
    + cbn [concat]. split; [apply NoDup_app; by split|]. split.
      * intros a [Ha|Ha]%elem_of_app; [destruct (Hi1 a Ha) as [Hga Hv]|destruct (Hi2 a Ha) as [Hga Hv]]; (split; [eapply grid_weaken; [..|exact Hga]; lia|]); [by rewrite Hkeep|done].
      * intros a Ha. rewrite Ho2 by set_solver. apply Ho1. set_solver.
    + intros [|i] Hi _; [by eexists _, _|]. apply Hsome; [lia|left; lia].
Qed.

Definition chunk_size (chunksize : Z) : Z := if chunksize =? 0 then DTRACE_DYNVAR_CHUNKSIZE else chunksize.
Definition space_size (chunksize size : Z) : Z := Z.max size (chunk_size chunksize + sizeof_dynhash).

(** What the callers of dtrace_dstate_init() and kmem_zalloc() see to: memory outside of the sink, not at the end of the address space. *)
Record room (sink : Z) (ncpu : nat) (chunksize size base : Z) (m : mach) : Prop := {
  rm_cpus : (0 < ncpu)%nat;
  rm_chunk : 0 <= chunksize;
  rm_size : 0 <= size;
  rm_base : 0 < base;
  rm_end : base + space_size chunksize size + chunk_size chunksize < 2 ^ 64;
  rm_sink : ~ base <= sink < base + space_size chunksize size;
  rm_bytes : bytes_ok m
}.

(** A state with no variables and all chunks free. *)
Record pristine (sink : Z) (ncpu : nat) (chunksize size base : Z) (m : mach) (L : list cpu_lists) (x : dyn) : Prop := {
  ps_empty : represents sink ∅ (replicate (Z.to_nat (dtds_hashsize (dy_ds x))) []) L x;
  ps_cpus : length L = ncpu;
  ps_free : Forall (fun ls => ls = only_free (cl_free ls)) L;
  ps_some : exists a l, L !! O = Some (only_free (a :: l));
  ps_chunk : dtds_chunksize (dy_ds x) = chunk_size chunksize;
  ps_inside : forall a, a ∈ concat (map cpu_all L) -> let start := base + dtds_hashsize (dy_ds x) * sizeof_dynhash in on_grid start (chunk_size chunksize) start (base + space_size chunksize size) a;
  ps_hash : 1 <= dtds_hashsize (dy_ds x);
  ps_space : dtds_base (dy_ds x) = base /\ dtds_size (dy_ds x) = space_size chunksize size;
  ps_mem : dy_m x = m;
  ps_state : dy_state x = DTRACE_DSTATE_CLEAN
}.

Lemma cpu_all_free F : map cpu_all (map only_free F) = F.
Proof. induction F as [|l F IH]; [done|]. cbn. rewrite IH. unfold cpu_all, only_free. cbn. by rewrite app_nil_r. Qed.

Lemma hashsize_bounds q : 1 <= q -> let h := if negb (q =? 1) && Z.odd q then q - 1 else q in 1 <= h <= q.
Proof. intros Hq h. unfold h. destruct (Z.eqb_spec q 1); cbn; [lia|]. destruct (Z.odd q); lia. Qed.

(** The new state, from free lists that are as they should be. *)
Lemma pristine_state sink ncpu chunksize size base m cpus vars F h :
  room sink ncpu chunksize size base m -> let cs := chunk_size chunksize in let ds := DState base (space_size chunksize size) h cs in let start := base + h * sizeof_dynhash in
  1 <= h -> length F = ncpu -> shared vars cpus F -> freshly start cs start (base + space_size chunksize size) {[sink := sink_var]} vars (concat F) -> (exists a l, F !! O = Some (a :: l)) ->
  pristine sink ncpu chunksize size base m (map only_free F) (Dyn ds (replicate (Z.to_nat h) (Dynhash (Some sink) 0)) DTRACE_DSTATE_CLEAN cpus vars m 0).
Proof.
  intros [rm1 rm2 rm3 rm4 rm5 rm6 rm7] cs ds start Hh HF Hsh (Hn & Hi & Ho) (a0 & l0 & Hsome). assert (Hcs : 0 < cs) by (unfold cs, chunk_size; destruct (Z.eqb_spec chunksize 0); unfold DTRACE_DYNVAR_CHUNKSIZE; lia).
  fold cs in rm5. assert (Hst : base < start) by (unfold start, sizeof_dynhash; lia).
  assert (Hsink : sink ∉ concat F). { intros Hin. destruct (Hi _ Hin) as [(H1 & H2 & _) _]. lia. }
  assert (Hall : all_chunks (replicate (Z.to_nat h) []) (map only_free F) [] = concat F) by (unfold all_chunks; by rewrite concat_nils, cpu_all_free).
  split; cbn [dy_ds dtds_hashsize dtds_chunksize dy_m dy_state]; try done.
  - split; [split; cbn [dy_ds dy_hash dy_percpu dy_vars dy_m dtds_hashsize ds]|].
    + by rewrite !length_replicate.
    + rewrite length_replicate. lia.
    + rewrite length_replicate. lia.
    + rewrite length_map. by eapply Forall2_length.
    + rewrite Ho by done. apply lookup_singleton_eq.
    + rewrite Hall. by apply NoDup_cons.
    + intros b l Hb. apply lookup_replicate in Hb as [-> Hb]. exists (Dynhash (Some sink) 0). split; [by apply lookup_replicate|]. split; [done|]. split; [by unfold is_u64, is_u|]. by rewrite bool_decide_eq_false_2.
    + intros b l a Hb Ha. apply lookup_replicate in Hb as [-> Hb]. set_solver.
    + intros c ls Hc. apply list_lookup_fmap_Some in Hc as (l & -> & Hl). destruct (Forall2_lookup_r _ _ _ _ _ Hsh Hl) as (d & Hd & Hok). by exists d.
    + rewrite cpu_all_free. intros a [Ha|Ha]; [set_solver|]. apply (Hi a Ha).
    + rewrite concat_nils. set_solver.
    + rewrite Hall. intros a a' Ha Ha'. apply (grid_spaced start cs start (base + space_size chunksize size)); [done|apply (Hi a Ha)|apply (Hi a' Ha')].
    + rewrite Hall. intros a Ha. destruct (Hi a Ha) as [(H1 & H2 & _) _]. unfold DynLists.chunksize. cbn. lia.
    + done.
    + done.
    + intros ct a. rewrite lookup_empty, concat_nils. set_solver.
  - by rewrite length_map.
  - apply Forall_forall. intros ls Hls. apply list_elem_of_fmap in Hls as (l & -> & _). done.
  - exists a0, l0. change (map only_free F) with (only_free <$> F). by rewrite list_lookup_fmap, Hsome.
  - rewrite cpu_all_free. intros a Ha. apply (Hi a Ha).
Qed.

Lemma init_run sink ncpu zalloc chunksize size base m :
  zalloc (space_size chunksize size) = Some base -> room sink ncpu chunksize size base m ->
  exists L x, dtrace_dstate_init sink ncpu zalloc chunksize size m = Some (inr x) /\ pristine sink ncpu chunksize size base m L x.
Proof.
  intros Hz Hr. pose proof Hr as [rm1 rm2 rm3 rm4 rm5 rm6 _]. unfold dtrace_dstate_init. fold (chunk_size chunksize). set (cs := chunk_size chunksize) in *.
  assert (Hcs : 0 < cs) by (unfold cs, chunk_size; destruct (Z.eqb_spec chunksize 0); unfold DTRACE_DYNVAR_CHUNKSIZE; lia). set (sz := space_size chunksize size) in *.
  assert (Hsz : cs + sizeof_dynhash <= sz /\ sz < 2 ^ 64) by (split; [unfold sz, space_size; fold cs|]; lia). assert (Hdh : sizeof_dynhash = 64) by done.
  rewrite (u64_id (cs + sizeof_dynhash)) by (unfold is_u; lia). replace (if size <? cs + sizeof_dynhash then cs + sizeof_dynhash else size) with sz.
  2: { unfold sz, space_size. fold cs. destruct (Z.ltb_spec size (cs + sizeof_dynhash)); lia. }
  rewrite Hz. set (q := sz / (cs + sizeof_dynhash)). assert (Hq : 1 <= q) by (apply Z.div_le_lower_bound; lia). pose proof (hashsize_bounds q Hq) as Hh. set (h := if negb (q =? 1) && Z.odd q then q - 1 else q) in *. cbv zeta in Hh.
  assert (Hqs : q * (cs + sizeof_dynhash) <= sz) by (rewrite Z.mul_comm; apply Z.mul_div_le; lia). assert (Hroom : h * sizeof_dynhash + h * cs <= sz) by nia.
  rewrite (u64_id (base + sz)), (u64_id (base + h * sizeof_dynhash)) by (unfold is_u; nia). set (start := base + h * sizeof_dynhash) in *. set (limit := base + sz) in *.
  assert (Hfit : start + cs <= limit) by (unfold start, limit; nia). rewrite (u64_id (limit - start)) by (unfold is_u, limit, start in *; nia). set (per := (limit - start) / Z.of_nat ncpu).
  assert (Hper : 0 <= per) by (apply Z.div_pos; lia). assert (Hper2 : Z.of_nat ncpu * per <= limit - start) by (apply Z.mul_div_le; lia).
  pose proof (Z.div_pos per cs Hper Hcs) as Hk. pose proof (Z.mul_div_le per cs Hcs) as Hk2. set (maxper := per / cs * cs).
  destruct (share_chunks_run start (S (Z.to_nat (sz / cs))) cs maxper limit ncpu start {[sink := sink_var]}) as (cpus & vars & F & -> & HF & Hsh & Hfr & Hsome).
  { done. } { unfold start. lia. } { left. split; [done|]. by rewrite Z.sub_diag. } { unfold limit. lia. }
  { pose proof (Z.mul_succ_div_gt sz cs Hcs). pose proof (Z.div_pos sz cs). unfold limit, start. rewrite Nat2Z.inj_succ, Z2Nat.id by lia. nia. }
  { apply Z.mod_mul. apply Z.neq_sym, Z.lt_neq. exact Hcs. } { unfold maxper. nia. } { unfold maxper. nia. }
  eexists (map only_free F), _. split; [reflexivity|]. apply pristine_state; [exact Hr|lia|exact HF|exact Hsh|exact Hfr|]. apply (Hsome O); [exact rm1|by right].
Qed.

Lemma init_fails sink ncpu zalloc chunksize size m :
  zalloc (space_size chunksize size) = None -> 0 <= chunksize -> chunk_size chunksize + sizeof_dynhash < 2 ^ 64 -> dtrace_dstate_init sink ncpu zalloc chunksize size m = Some (inl ENOMEM).
Proof.
  intros Hz Hc Hsum. unfold dtrace_dstate_init. fold (chunk_size chunksize). assert (Hcs : 0 < chunk_size chunksize + sizeof_dynhash) by (unfold chunk_size, DTRACE_DYNVAR_CHUNKSIZE, sizeof_dynhash; destruct (Z.eqb_spec chunksize 0); lia).
  rewrite (u64_id (chunk_size chunksize + sizeof_dynhash)) by (unfold is_u; lia). replace (if size <? _ then _ else size) with (space_size chunksize size); [by rewrite Hz|].
  unfold space_size. destruct (Z.ltb_spec size (chunk_size chunksize + sizeof_dynhash)); lia.
Qed.
