(* ===== verification/DynHistory.v ===== *)
(** Histories of dynamic variables: dtrace_dstate_init(), then lookups, allocations and deallocations on any CPU, with
    dtrace_dynvar_clean() in between, one after the other. *)
From S2P Require Import Prelude StateProg Dif SafeMem DifValidate DifEmulate DifSafety DynVar DynKeys DynLists DynOps DynSpec DynClean DynInit.
From stdpp Require Import gmap list.
#[local] Open Scope Z_scope.
#[local] Open Scope sprog_scope.

(** * Histories *)

Inductive dop :=
| DoVar (me : nat) (keys : list dtrace_key) (dsize : Z) (op : dtrace_dynvar_op)
| DoClean.

Section History.
Context (P : platform) (sink : Z) (ms : dtrace_mstate) (vs : dtrace_vstate).

Definition run_dop (fuel : nat) (d : dop) : sprog dyn (option Z) :=
  match d with
  | DoVar me keys dsize op => dtrace_dynvar P sink alone fuel me keys dsize op ms vs
  | DoClean => dtrace_dynvar_clean alone fuel ~; sret None
  end.

Fixpoint run_dops (fuel : nat) (ds : list dop) : sprog dyn (list (option Z)) :=
  match ds with
  | [] => sret []
  | d :: ds => r <~ run_dop fuel d; rs <~ run_dops fuel ds; sret (r :: rs)
  end.

(** Cleaning is not visible; the keys are read from the memory [mem]. *)
Definition dop_spec (mem : Z -> Z) (A : gmap tuple Z) (d : dop) (r : option Z) (A' : gmap tuple Z) : Prop :=
  match d with
  | DoVar _ keys _ op => dynvar_spec A op (contents mem keys) r A'
  | DoClean => r = None /\ A' = A
  end.

Fixpoint dops_spec (mem : Z -> Z) (A : gmap tuple Z) (ds : list dop) (rs : list (option Z)) (A' : gmap tuple Z) : Prop :=
  match ds, rs with
  | [], [] => A' = A
  | d :: ds, r :: rs => exists A1, dop_spec mem A d r A1 /\ dops_spec mem A1 ds rs A'
  | _, _ => False
  end.

(** Keys that can be read, are not in the space [lo, hi) itself, and do not overflow. *)
Definition dop_ok (ncpu : nat) (lo hi : Z) (d : dop) : Prop :=
  match d with
  | DoVar me keys dsize _ => (me < ncpu)%nat /\ keys <> [] /\ Forall (key_ok P ms vs) keys /\ Forall size_ok keys /\ 0 <= dsize /\ need keys dsize < 2 ^ 64 /\ Forall (away lo hi) keys
  | DoClean => True
  end.

(** Between operations: no chunk is being rinsed, and all are in [lo, hi), outside of which memory is [mem]. *)
Record settled (ncpu : nat) (chunks : list Z) (lo hi : Z) (mem : Z -> Z) (A : gmap tuple Z) (x : dyn) : Prop := {
  st_lists : exists C L, represents sink A C L x /\ length L = ncpu /\ Forall (fun ls => cl_rinsing ls = []) L /\ all_chunks C L [] ≡ₚ chunks;
  st_inside : forall a, a ∈ chunks -> lo <= a /\ a + chunksize x <= hi;
  st_fault : faulted (dy_m x) = false;
  st_mem : forall i, ~ lo <= i < hi -> m_mem (dy_m x) i = mem i
}.

Lemma rinsing_nils (L : list cpu_lists) : Forall (fun ls => cl_rinsing ls = []) L <-> map cl_rinsing L = replicate (length L) [].
Proof.
  split; [|intros H].
  - induction 1 as [|ls L H _ IH]; [done|]. cbn. by rewrite H, IH.
  - apply Forall_forall. intros ls Hls. assert (Hin : cl_rinsing ls ∈ map cl_rinsing L) by (by apply (list_elem_of_fmap_2 cl_rinsing)). rewrite H in Hin. by apply elem_of_replicate in Hin as [-> _].
Qed.

Lemma away_within lo hi lo' hi' (keys : list dtrace_key) : lo <= lo' -> hi' <= hi -> Forall (away lo hi) keys -> Forall (away lo' hi') keys.
Proof. intros ?? H. eapply Forall_impl; [exact H|]. intros [val size] [?|[?|?]]; unfold away; [by left|right; left; lia|right; right; lia]. Qed.

Lemma var_settled ncpu chunks lo hi mem A fuel me keys dsize op x :
  settled ncpu chunks lo hi mem A x -> (length chunks + ncpu + 3 < fuel)%nat -> dop_ok ncpu lo hi (DoVar me keys dsize op) ->
  runs (dtrace_dynvar P sink alone fuel me keys dsize op ms vs) x (fun r x' => exists A', settled ncpu chunks lo hi mem A' x' /\ dynvar_spec A op (contents mem keys) r A').
Proof.
  intros [(C & L & Hr & Hn & Hrin & Hch) Hin Hf Hmem] Hfuel (Hme & Hk0 & Hk & Hs & Hd & Hneed & Haw).
  assert (Hlen : length (all_chunks C L []) = length chunks) by (by rewrite Hch).
  assert (Hct : contents (m_mem (dy_m x)) keys = contents mem keys) by (by eapply contents_ext).
  eapply runs_weaken; [apply (dynvar_run P sink A C L fuel me ms vs keys dsize op x Hr); [lia|lia| |done]|].
  - split; try done. intros a Ha. destruct (Hin a) as [H1 H2]; [rewrite <- Hch, all_spare; set_solver|]. by eapply away_within.
  - intros r x' (A' & C' & L' & Hr' & Hsp & [M1 M2 M3] & Hds & Hf' & _). rewrite Hct in Hsp. exists A'. split; [|done].
    assert (HL : length L' = length L) by (rewrite <- (length_map cl_rinsing L'), M1; apply length_map). split.
    + exists C', L'. split; [done|]. split; [lia|]. split; [apply rinsing_nils; rewrite M1, HL; by apply rinsing_nils|]. by rewrite M2.
    + unfold chunksize in *. by rewrite Hds.
    + done.
    + intros i Hi. rewrite M3; [by apply Hmem|]. intros a Ha Hai. destruct (Hin a) as [H1 H2]; [by rewrite <- Hch|]. lia.
Qed.

Lemma cleaned_lists (L : list cpu_lists) : Forall (fun ls => cl_rinsing ls = []) L -> concat (map cpu_all (map cleaned L)) ≡ₚ concat (map cpu_all L) /\ Forall (fun ls => cl_rinsing ls = []) (map cleaned L).
Proof.
  induction 1 as [|ls L H _ [IH1 IH2]]; [done|]. cbn. split; [by rewrite IH1, cleaned_perm|]. constructor; [|done]. unfold cleaned. by destruct (to_rinse ls).
Qed.

Lemma clean_settled ncpu chunks lo hi mem A fuel x :
  settled ncpu chunks lo hi mem A x -> (0 < fuel)%nat -> runs (dtrace_dynvar_clean alone fuel) x (fun _ x' => settled ncpu chunks lo hi mem A x').
Proof.
  intros [(C & L & Hr & Hn & Hrin & Hch) Hin Hf Hmem] Hfuel. destruct fuel as [|fuel]; [lia|]. eapply runs_weaken; [by apply (clean_run sink A C L fuel x)|].
  intros _ x' (Hr' & [K1 K2 K3 K4 K5] & _). destruct (cleaned_lists L Hrin) as [Hp Hrin']. split.
  - exists C, (map cleaned L). split; [done|]. split; [by rewrite length_map|]. split; [done|]. rewrite <- Hch. unfold all_chunks. by rewrite Hp.
  - unfold chunksize in *. by rewrite K1.
  - by rewrite K5.
  - by rewrite K4.
Qed.

Lemma dops_settled ncpu chunks lo hi mem fuel : (length chunks + ncpu + 3 < fuel)%nat -> forall ds A x,
  settled ncpu chunks lo hi mem A x -> Forall (dop_ok ncpu lo hi) ds ->
  runs (run_dops fuel ds) x (fun rs x' => exists A', settled ncpu chunks lo hi mem A' x' /\ dops_spec mem A ds rs A').
Proof.
  intros Hfuel. induction ds as [|d ds IH]; intros A x Hst Hok; [apply runs_ret; by exists A|]. apply Forall_cons in Hok as [Hd Hds]. cbn [run_dops].
  apply (runs_bind _ _ _ (fun r x1 => exists A1, settled ncpu chunks lo hi mem A1 x1 /\ dop_spec mem A d r A1)).
  - destruct d as [me keys dsize op|]; cbn [run_dop]; [by apply var_settled|]. eapply runs_bind; [apply (clean_settled ncpu chunks lo hi mem A fuel x Hst); lia|]. intros u x1 H1. apply runs_ret. by exists A.
  - intros r x1 (A1 & Hst1 & Hsp1). eapply runs_bind; [by apply IH|]. intros rs x2 (A2 & Hst2 & Hsp2). apply runs_ret. exists A2. split; [done|]. by exists A1.
Qed.
End History.

(** The number of chunks in a space. *)
Lemma grid_count size lo hi l : 0 < size -> NoDup l -> (forall a, a ∈ l -> on_grid lo size lo hi a) -> (length l <= Z.to_nat ((hi - lo) / size))%nat.
Proof.
  intros Hs Hn Hin. rewrite <- (length_map (fun a => Z.to_nat ((a - lo) / size)) l). rewrite <- (length_seq (Z.to_nat ((hi - lo) / size)) 0). apply NoDup_incl_length.
  - apply NoDup_ListNoDup. apply NoDup_fmap_2_strong; [|done]. intros a a' Ha Ha' Heq. destruct (Hin a Ha) as (H1 & _ & H2), (Hin a' Ha') as (H1' & _ & H2').
    apply Z2Nat.inj in Heq; [|apply Z.div_pos; lia..]. apply Z.mod_divide in H2 as [k Hk], H2' as [k' Hk']; [|lia..]. rewrite Hk, Hk', !Z.div_mul in Heq by lia. nia.
  - intros n Hn'. apply list_elem_of_In, list_elem_of_fmap in Hn' as (a & -> & Ha). destruct (Hin a Ha) as (H1 & H2 & _). apply in_seq. split; [lia|]. apply Z2Nat.inj_lt; [apply Z.div_pos; lia|apply Z.div_pos; lia|].
    apply Z.lt_le_trans with ((a + size - lo) / size); [|apply Z.div_le_mono; lia]. replace (a + size - lo) with (a - lo + 1 * size) by lia. rewrite Z.div_add by lia. lia.
Qed.

(** A new state is settled. *)
Lemma pristine_settled sink ncpu chunksize size base m L x :
  room sink ncpu chunksize size base m -> pristine sink ncpu chunksize size base m L x -> faulted m = false ->
  let hi := base + space_size chunksize size in
  settled sink ncpu (concat (map cpu_all L)) base hi (m_mem m) ∅ x /\ (length (concat (map cpu_all L)) <= Z.to_nat (space_size chunksize size / chunk_size chunksize))%nat.
Proof.
  intros Hr [p1 p2 p3 _ p4 p5 p6 _ p7 p8] Hf hi. pose proof (rp_inv _ _ _ _ _ p1) as Hi. pose proof (di_size _ _ _ _ _ _ Hi) as Hcs. unfold DynLists.chunksize in Hcs. rewrite p4 in Hcs.
  assert (Hall : all_chunks (replicate (Z.to_nat (dtds_hashsize (dy_ds x))) []) L [] = concat (map cpu_all L)) by (unfold all_chunks; by rewrite concat_nils). assert (Hdh : sizeof_dynhash = 64) by done. split; [split|].
  - exists (replicate (Z.to_nat (dtds_hashsize (dy_ds x))) []), L. split; [done|]. split; [done|]. split; [|by rewrite Hall]. eapply Forall_impl; [exact p3|]. by intros ls ->.
  - intros a Ha. destruct (p5 a Ha) as (H1 & H2 & _). unfold DynLists.chunksize, hi. rewrite p4. lia.
  - by rewrite p7.
  - by rewrite p7.
  - set (start := base + dtds_hashsize (dy_ds x) * sizeof_dynhash). etrans; [apply (grid_count (chunk_size chunksize) start hi); [done| |exact p5]|].
    + pose proof (di_nodup _ _ _ _ _ _ Hi) as Hn. rewrite Hall in Hn. by apply NoDup_cons in Hn as [_ Hn].
    + destruct (decide (hi - start <= 0)) as [Hle|Hgt].
      { assert ((hi - start) / chunk_size chunksize <= 0) by (apply Z.div_le_upper_bound; lia). lia. }
      apply Z2Nat.inj_le; [apply Z.div_pos; lia|apply Z.div_pos; [|lia]; unfold hi, start in *; lia|]. apply Z.div_le_mono; [lia|]. unfold hi, start. lia.
Qed.

(** * The theorems *)


(** C30: Refinement: from dtrace_dstate_init() on, any sequence of lookups, allocations and deallocations on any CPUs, with
    dtrace_dynvar_clean() anywhere between them, ends, fails no assertion, and returns what a finite map from tuples to variables
    returns (an allocation may fail); it writes no memory outside of the dynamic variable space. *)
Theorem dynvar_history_refines P sink ncpu zalloc chunksize size base m ms vs fuel ops :
  let space := space_size chunksize size in
  zalloc space = Some base -> room sink ncpu chunksize size base m -> faulted m = false ->
  Forall (dop_ok P ms vs ncpu base (base + space)) ops -> (Z.to_nat (space / chunk_size chunksize) + ncpu + 3 < fuel)%nat ->
  exists x rs x' A, dtrace_dstate_init sink ncpu zalloc chunksize size m = Some (inr x) /\ run_dops P sink ms vs fuel ops x = Some (rs, x') /\
    dops_spec (m_mem m) ∅ ops rs A /\ faulted (dy_m x') = false /\ forall i, ~ base <= i < base + space -> m_mem (dy_m x') i = m_mem m i.
Proof.
  intros space Hz Hr Hf Hops Hfuel. destruct (init_run _ _ _ _ _ _ _ Hz Hr) as (L & x & Hx & Hp). destruct (pristine_settled _ _ _ _ _ _ _ _ Hr Hp Hf) as [Hst Hlen].
  destruct (dops_settled P sink ms vs ncpu (concat (map cpu_all L)) base (base + space) (m_mem m) fuel ltac:(unfold space in *; lia) ops ∅ x Hst Hops) as (rs & x' & Hrun & A & [_ _ Hf' Hm'] & Hsp).
  by exists x, rs, x', A.
Qed.

(** C31: Chunks are recycled: after dtrace_dynvar_clean(), if some CPU had dirty chunks and no clean ones, an allocation on any CPU of
    a variable that fits into a chunk succeeds, and the data of the variable lie inside of its chunk, after its keys. *)
Theorem dynvar_clean_recycles P sink A C L fuel me ms vs keys dsize x :
  represents sink A C L x -> Forall (fun ls => cl_rinsing ls = []) L -> existsb to_rinse L = true ->
  (me < length L)%nat -> (length (all_chunks C L []) + length L + 3 < fuel)%nat -> query_ok P ms vs L x keys dsize -> faulted (dy_m x) = false ->
  need keys dsize <= chunksize x -> A !! contents (m_mem (dy_m x)) keys = None ->
  runs (dtrace_dynvar_clean alone fuel ~; dtrace_dynvar P sink alone fuel me keys dsize DTRACE_DYNVAR_ALLOC ms vs) x (fun r x' =>
    exists a C' L', r = Some a /\ payload x' a dsize /\ represents sink (<[contents (m_mem (dy_m x)) keys := a]> A) C' L' x').
Proof.
  intros Hr Hrin Hto Hme Hfuel [q1 q2 q3 q4 q5 q6] Hf Hneed HA. destruct fuel as [|fuel]; [lia|]. eapply runs_bind; [by apply (clean_run sink A C L fuel x)|].
  intros u x1 (Hr1 & [K1 K2 K3 K4 K5] & Hs1). rewrite Hto in Hs1. destruct (cleaned_lists L Hrin) as [Hp _]. rewrite <- K4 in *.
  eapply runs_weaken; [apply (dynvar_run P sink A C (map cleaned L) (S fuel) me ms vs keys dsize DTRACE_DYNVAR_ALLOC x1 Hr1)|].
  - by rewrite length_map.
  - unfold all_chunks in *. rewrite length_map. by rewrite Hp.
  - split; try done. intros a Ha. unfold chunksize. rewrite K1. apply q6. unfold spare in *. by rewrite <- Hp.
  - by rewrite K5.
  - intros r x2 (A' & C' & L' & Hr' & Hsp & _ & _ & _ & Hwhy). cbn [dynvar_spec] in Hsp. rewrite HA in *. destruct Hsp as [(a & -> & _ & ->)|[-> _]]; [by exists a, C', L'|].
    exfalso. destruct Hwhy as [_ [Hbig|[_ Hidle]]]; [unfold chunksize in *; rewrite K1 in Hbig; lia|].
    apply existsb_exists in Hto as (ls & Hls & Ht). apply list_elem_of_In, list_elem_of_lookup in Hls as [c Hc]. destruct (Hidle Hs1 c) as (ls' & Hls' & _ & Hcl); [rewrite length_map; by eapply lookup_lt_Some|].
    change (map cleaned L) with (cleaned <$> L) in Hls'. rewrite list_lookup_fmap, Hc in Hls'. injection Hls' as <-. unfold cleaned in Hcl. rewrite Ht in Hcl. cbn in Hcl. unfold to_rinse in Ht. rewrite Hcl in Ht. by rewrite bool_decide_eq_true_2 in Ht.
Qed.

(** Where dtt_key[i] of the variable at [a] is: only the first key is part of the dtrace_dynvar_t. *)
Definition key_addr (a i : Z) : Z := a + 32 + sizeof_key * i.

(** Dtrace_canstore() allows a store over every key but the first of a variable, though its comment
    rules out stores to the metadata of dynamic variables. *)
Theorem canstore_admits_keys sink ncpu chunksize size base m L x a i ms vs :
  room sink ncpu chunksize size base m -> pristine sink ncpu chunksize size base m L x -> dtvs_dynvars vs = dy_ds x ->
  a ∈ concat (map cpu_all L) -> 1 <= i -> 32 + sizeof_key * (i + 1) <= chunk_size chunksize ->
  dtrace_canstore (key_addr a i) sizeof_key ms vs = true.
Proof.
  intros Hr Hp Hds Ha Hi Hfit. destruct Hr as [_ _ r1 r2 r3 _ _]. destruct Hp as [_ _ _ _ p4 p5 p6 [Hb Hz] _ _]. destruct (p5 a Ha) as (H1 & H2 & H3). set (h := dtds_hashsize (dy_ds x)) in *. set (cs := chunk_size chunksize) in *. set (sp := space_size chunksize size) in *.
  assert (Hk : sizeof_key = 16) by done. assert (Hdh : sizeof_dynhash = 64) by done. assert (Hdv : sizeof_dynvar = 48) by done. set (start := base + h * sizeof_dynhash) in *.
  unfold dtrace_canstore. destruct (DTRACE_INRANGE _ _ (dtms_scratch_base ms) _); [done|]. rewrite Hds, Hb, Hz. fold h. rewrite p4. fold cs. unfold key_addr.
  assert (Hin : DTRACE_INRANGE (a + 32 + sizeof_key * i) sizeof_key base sp = true).
  { unfold DTRACE_INRANGE. rewrite (u64_id (a + 32 + sizeof_key * i + sizeof_key)) by (unfold is_u; lia). rewrite !u64_id by (unfold is_u; lia). lia. }
  rewrite Hin. rewrite (u64_id (h * sizeof_dynhash)), (u64_id (base + h * sizeof_dynhash)) by (unfold is_u, start in *; lia). fold start. destruct (Z.ltb_spec (a + 32 + sizeof_key * i) start); [lia|].
  rewrite (u64_id (a + 32 + sizeof_key * i - start)) by (unfold is_u, start in *; lia). replace (a + 32 + sizeof_key * i - start) with ((a - start) + (32 + sizeof_key * i)) by lia.
  rewrite Z.add_mod by lia. rewrite H3, Z.add_0_l, Z.mod_mod, Z.mod_small by lia. destruct (Z.ltb_spec (32 + sizeof_key * i) sizeof_dynvar); [lia|]. rewrite u64_id by (unfold is_u; lia). destruct (Z.ltb_spec cs (32 + sizeof_key * i + sizeof_key)); [lia|done].
Qed.


(** * A small space *)

Definition kernel_mstate : dtrace_mstate := MState 0x1000 0x1000 64 0 0 DTRACE_ACCESS_KERNEL demo_difo.
Definition small_alloc (n : Z) : option Z := if n <=? 4096 then Some 0x100000 else None.
Definition small_init (size : Z) : option (Z + dyn) := dtrace_dstate_init 0x500 2 small_alloc 0 size demo_mach.
Definition small_state (size : Z) : dyn := match small_init size with Some (inr x) => x | _ => Dyn (DState 0 0 0 0) [] DTRACE_DSTATE_CLEAN [] ∅ demo_mach 0 end.

(** An integer and eight bytes of memory. *)
Definition pair_key : list dtrace_key := [(7, 0); (0x2000, 8)].
Definition small_ops : list dop :=
  [DoVar 0 pair_key 16 DTRACE_DYNVAR_ALLOC; DoVar 1 pair_key 16 DTRACE_DYNVAR_NOALLOC; DoVar 1 [(9, 0)] 8 DTRACE_DYNVAR_ALLOC;
   DoVar 1 pair_key 16 DTRACE_DYNVAR_DEALLOC; DoClean; DoVar 0 pair_key 16 DTRACE_DYNVAR_NOALLOC; DoVar 0 [(9, 0)] 8 DTRACE_DYNVAR_NOALLOC].

Lemma small_room size : 0 <= size <= 4096 -> room 0x500 2 0 size 0x100000 demo_mach.
Proof.
  intros Hs. assert (320 <= space_size 0 size <= 4096) by (unfold space_size; change (chunk_size 0 + sizeof_dynhash) with 320; lia).
  split; [lia..|change (chunk_size 0) with 256; lia|lia|]. intros a. apply u8_range.
Qed.

Lemma small_keys : Forall (key_ok demo_platform kernel_mstate demo_vstate) pair_key.
Proof.
  apply Forall_cons. split; [by left|]. apply Forall_singleton. right. split; [|done]. split; [done|]. split; [done|]. split; [done|]. intros i Hi. cbn [fst snd] in *. unfold readable, demo_platform, toxic_hit. cbn [toxranges load_traps existsb].
  rewrite u64_id by (unfold is_u; lia). cbn [dtt_base dtt_limit]. split; [|lia]. destruct (Z.leb_spec 0xb000 (0x2000 + i)); [done|]. destruct (Z.leb_spec (0x2000 + i + 1) 0xa000); [done|lia].
Qed.

Lemma small_ops_ok : Forall (dop_ok demo_platform kernel_mstate demo_vstate 2 0x100000 (0x100000 + 2048)) small_ops.
Proof.
  assert (Hp : forall me op, (me < 2)%nat -> dop_ok demo_platform kernel_mstate demo_vstate 2 0x100000 (0x100000 + 2048) (DoVar me pair_key 16 op)).
  { intros me op Hme. split; [done|]. split; [done|]. split; [apply small_keys|]. split; [by repeat constructor|]. split; [done|]. split; [done|]. apply Forall_cons. split; [by left|]. apply Forall_singleton. right. left. by vm_compute. }
  assert (H9 : forall me op, (me < 2)%nat -> dop_ok demo_platform kernel_mstate demo_vstate 2 0x100000 (0x100000 + 2048) (DoVar me [(9, 0)] 8 op)).
  { intros me op Hme. split; [done|]. split; [done|]. split; [apply Forall_singleton; by left|]. split; [by repeat constructor|]. split; [done|]. split; [done|]. apply Forall_singleton. by left. }
  unfold small_ops. repeat (apply Forall_cons; split; [first [apply Hp; lia|apply H9; lia|exact I]|]). constructor.
Qed.

Lemma dynvar_history_refines_witness : exists rs x' A,
  run_dops demo_platform 0x500 kernel_mstate demo_vstate 20 small_ops (small_state 2048) = Some (rs, x') /\ dops_spec (m_mem demo_mach) ∅ small_ops rs A /\
  rs = [Some 0x100180; Some 0x100180; Some 0x100480; None; None; None; Some 0x100480].
Proof.
  destruct (dynvar_history_refines demo_platform 0x500 2 small_alloc 0 2048 0x100000 demo_mach kernel_mstate demo_vstate 20 small_ops) as (x & rs & x' & A & Hx & Hrun & Hsp & _);
    [reflexivity|apply small_room; lia|reflexivity|apply small_ops_ok|vm_compute; lia|].
  assert (Hs : small_state 2048 = x) by (unfold small_state, small_init; by rewrite Hx). exists rs, x', A. rewrite Hs. split; [done|]. split; [done|].
  rewrite <- Hs in Hrun. apply (f_equal (option_map fst)) in Hrun. vm_compute in Hrun. by injection Hrun.
Defined.


(** One CPU and one chunk, which is dirty. *)
Definition dirty_lists : list cpu_lists := [CpuLists [] [0x100040] [] []].
Definition dirty_state : dyn :=
  Dyn (DState 0x100000 320 1 256) [Dynhash (Some 0x500) 2] DTRACE_DSTATE_DIRTY [put_dirty (Some 0x100040) no_chunks] {[0x500 := sink_var; 0x100040 := free_chunk None]} demo_mach 0.

Lemma dirty_represents : represents 0x500 ∅ [[]] dirty_lists dirty_state.
Proof.
  assert (Hc : forall b (l : list Z), [[]] !! b = Some l -> b = O /\ l = []) by (intros [|b] l Hb; [by injection Hb|done]).
  assert (Hone : forall a, a ∈ all_chunks [[]] dirty_lists [] -> a = 0x100040) by (intros a Ha; by apply list_elem_of_singleton in Ha).
  split; [split|]; try done; try (cbn; lia).
  - apply NoDup_cons. split; [intros ?%Hone; lia|apply NoDup_singleton].
  - intros b l (-> & ->)%Hc. eexists. split; [reflexivity|]. by vm_compute.
  - intros b l a (-> & ->)%Hc Ha. set_solver.
  - intros [|c] ls Hls; [|done]. injection Hls as <-. eexists. split; [reflexivity|]. split; [done|]. split; [|done]. split; [done|]. by exists (free_chunk None).
  - intros a [Ha|Ha]; [set_solver|]. apply Hone in Ha as ->. by exists (free_chunk None).
  - intros a a' Ha. set_solver.
  - intros a a' ->%Hone ->%Hone. done.
  - intros a ->%Hone. by vm_compute.
  - intros a. apply u8_range.
  - intros ct a. rewrite lookup_empty. set_solver.
Qed.

Lemma dynvar_clean_recycles_witness :
  option_map fst (dtrace_dynvar demo_platform 0x500 alone 9 0 pair_key 16 DTRACE_DYNVAR_ALLOC kernel_mstate demo_vstate dirty_state) = Some None /\
  runs (dtrace_dynvar_clean alone 9 ~; dtrace_dynvar demo_platform 0x500 alone 9 0 pair_key 16 DTRACE_DYNVAR_ALLOC kernel_mstate demo_vstate) dirty_state (fun r _ => r <> None).
Proof.
  split; [by vm_compute|]. eapply runs_weaken; [apply (dynvar_clean_recycles demo_platform 0x500 ∅ [[]] dirty_lists 9 0 kernel_mstate demo_vstate pair_key 16 dirty_state)|].
  - exact dirty_represents.
  - by repeat constructor.
  - reflexivity.
  - vm_compute; lia.
  - vm_compute; lia.
  - split; [done|exact small_keys|by repeat constructor|lia|by vm_compute|]. intros a ->%list_elem_of_singleton. apply Forall_cons. split; [by left|]. apply Forall_singleton. right. left. by vm_compute.
  - reflexivity.
  - by vm_compute.
  - reflexivity.
  - by intros r x' (a & _ & _ & -> & _).
Defined.

Lemma canstore_admits_keys_witness : exists x, small_init 2048 = Some (inr x) /\
  forall vs, dtvs_dynvars vs = dy_ds x -> dtrace_canstore (key_addr 0x100180 1) sizeof_key kernel_mstate vs = true.
Proof.
  destruct (init_run 0x500 2 small_alloc 0 2048 0x100000 demo_mach eq_refl (small_room 2048 ltac:(lia))) as (L & x & Hx & Hp). exists x. split; [done|]. intros vs Hvs.
  apply (canstore_admits_keys 0x500 2 0 2048 0x100000 demo_mach L x); [apply small_room; lia|done|done| |lia|by vm_compute].
  destruct (ps_some _ _ _ _ _ _ _ _ Hp) as (a & l & HL). destruct (di_cpu _ _ _ _ _ _ (rp_inv _ _ _ _ _ (ps_empty _ _ _ _ _ _ _ _ Hp)) O _ HL) as (d & Hd & [Hfree _] & _).
  vm_compute in Hx. injection Hx as <-. cbn in Hd. injection Hd as <-. injection Hfree as <-. apply (in_concat_lookup cpu_all L O _ _ HL). by apply list_elem_of_here.
Defined.

(** Another CPU allocates the same variable after the chunk was filled and before it is linked: the chunk becomes dirty, and the variable of the other CPU is found. *)
Definition rival (n : nat) (x : dyn) : dyn :=
  if (n =? 2)%nat then match dtrace_dynvar demo_platform 0x500 alone 20 1 pair_key 16 DTRACE_DYNVAR_ALLOC kernel_mstate demo_vstate x with Some (_, x') => x' | None => x end else x.

Example dynvar_lost_race :
  match dtrace_dynvar demo_platform 0x500 rival 20 0 pair_key 16 DTRACE_DYNVAR_ALLOC kernel_mstate demo_vstate (small_state 2048) with
  | Some (r, x) => r = Some 0x100480 /\ map dtdsc_dirty (dy_percpu x) = [Some 0x100180; None] /\ map dtdsc_free (dy_percpu x) = [Some 0x100280; Some 0x100580]
  | None => False
  end.
Proof. by vm_compute. Qed.

(** The space has room for six chunks after the hash table; only five are on the free lists. *)
Example init_leaves_chunk : (2048 - 6 * sizeof_dynhash) / 256 = 6 /\ size (dom (dy_vars (small_state 2048)) ∖ {[0x500]}) = 5%nat.
Proof. by vm_compute. Qed.
