(* ===== verification/Dispatch.v ===== *)
(** The firing of a probe (driver/dtrace.c, dtrace_probe()).

    When a probe fires on a CPU, its ECBs are processed in order: each that wants to see the firing reserves room
    in the buffer of its consumer, evaluates its predicate, and runs its actions, which store records, aggregate, speculate
    or act on the system.  A record is committed at the end, unless it was dropped or an action faulted; then
    the ERROR probe fires.

    Pointers are resolved: the ECBs of a probe are a list, each with its predicate and its actions, and these with their DIF
    objects.  Interrupts are off, so that the data of the CPU do not change under way; the state word of the consumer, which
    other CPUs change, is read and written in one step. *)
From S2P Require Import Prelude StateProg Dif SafeMem DifValidate DifEmulate DifSafety DifObject Aggregate Buffer Speculation Match Probes Dof Ecb EcbLayout Privilege.
From stdpp Require Import gmap list.
#[local] Open Scope Z_scope.
#[local] Open Scope sprog_scope.

(** * Data *)

Record pact := PAct { pa_act : dtrace_action; pa_difo : option dtrace_difo }.

(** [pe_pred]: the DIF object of the predicate and its cache identifier. *)
Record pecb := PEcb { pe_ecb : dtrace_ecb; pe_pred : option (dtrace_difo * Z); pe_acts : list pact }.

Record probe := Probe {
  p_id : Z;
  p_provider : Z;
  p_predcache : Z;
  p_arg : Z;
  p_anchored : bool;                (** DTRACE_ANCHORED() *)
  p_aframes : Z;
  p_ecbs : list pecb
}.

(** What probe context uses of a dtrace_state_t. *)
Record consumer := Consumer {
  c_activity : Z;
  c_alive : Z;
  c_cred : dtrace_cred_t;
  c_vstate : dtrace_vstate;
  c_reserve : Z;
  c_sizes : list (option Z);                 (** dte_size by EPID *)
  c_specs : list dtrace_speculation_t;
  c_bufs : list dtrace_buffer;
  c_busy : Z;
  c_unavail : Z;
  c_aggbufs : list aggbuf;
  c_dblerrors : Z;
  c_stkstroverflows : Z
}.

(** What the actions do to the system, with the consumer whose action it is; and the calls of dtrace_probe_error(). *)
Inductive pevent :=
| EvStop
| EvBreakpoint (epid : Z)
| EvPanic (epid : Z)
| EvRaise (sig : Z)
| EvChill (val : Z)
| EvError (epid ndx fltoffs fault : Z).

(** The kthread_t. *)
Record pthread := PThread { th_predcache : Z; th_start : Z; th_vtime : Z; th_sig : Z; th_stop : bool; th_check : bool }.

(** Consumers by address; memory and flags of the CPU; the thread; dtrace_panicked; the times of chill(). *)
Record pworld := PWorld {
  pw_cons : gmap Z consumer;
  pw_m : mach;
  pw_th : pthread;
  pw_panicked : bool;
  pw_chillmark : Z;
  pw_chilled : Z;
  pw_reads : nat;                   (** calls of dtrace_gethrtime() *)
  pw_log : list (Z * pevent)
}.

Definition set_cons (l : gmap Z consumer) (x : pworld) : pworld := PWorld l (pw_m x) (pw_th x) (pw_panicked x) (pw_chillmark x) (pw_chilled x) (pw_reads x) (pw_log x).
Definition set_mach (m : mach) (x : pworld) : pworld := PWorld (pw_cons x) m (pw_th x) (pw_panicked x) (pw_chillmark x) (pw_chilled x) (pw_reads x) (pw_log x).
Definition set_thread (t : pthread) (x : pworld) : pworld := PWorld (pw_cons x) (pw_m x) t (pw_panicked x) (pw_chillmark x) (pw_chilled x) (pw_reads x) (pw_log x).
Definition set_panicked (x : pworld) : pworld := PWorld (pw_cons x) (pw_m x) (pw_th x) true (pw_chillmark x) (pw_chilled x) (pw_reads x) (pw_log x).
Definition set_chill (mark chilled : Z) (x : pworld) : pworld := PWorld (pw_cons x) (pw_m x) (pw_th x) (pw_panicked x) mark chilled (pw_reads x) (pw_log x).
Definition set_reads (n : nat) (x : pworld) : pworld := PWorld (pw_cons x) (pw_m x) (pw_th x) (pw_panicked x) (pw_chillmark x) (pw_chilled x) n (pw_log x).
Definition add_event (s : Z) (ev : pevent) (x : pworld) : pworld := PWorld (pw_cons x) (pw_m x) (pw_th x) (pw_panicked x) (pw_chillmark x) (pw_chilled x) (pw_reads x) (pw_log x ++ [(s, ev)]).

Definition put_activity (a : Z) (c : consumer) : consumer :=
  Consumer a (c_alive c) (c_cred c) (c_vstate c) (c_reserve c) (c_sizes c) (c_specs c) (c_bufs c) (c_busy c) (c_unavail c) (c_aggbufs c) (c_dblerrors c) (c_stkstroverflows c).
Definition put_vstate (vs : dtrace_vstate) (c : consumer) : consumer :=
  Consumer (c_activity c) (c_alive c) (c_cred c) vs (c_reserve c) (c_sizes c) (c_specs c) (c_bufs c) (c_busy c) (c_unavail c) (c_aggbufs c) (c_dblerrors c) (c_stkstroverflows c).
Definition put_specs (l : list dtrace_speculation_t) (bufs : list dtrace_buffer) (c : consumer) : consumer :=
  Consumer (c_activity c) (c_alive c) (c_cred c) (c_vstate c) (c_reserve c) (c_sizes c) l bufs (c_busy c) (c_unavail c) (c_aggbufs c) (c_dblerrors c) (c_stkstroverflows c).
Definition put_aggbufs (l : list aggbuf) (c : consumer) : consumer :=
  Consumer (c_activity c) (c_alive c) (c_cred c) (c_vstate c) (c_reserve c) (c_sizes c) (c_specs c) (c_bufs c) (c_busy c) (c_unavail c) l (c_dblerrors c) (c_stkstroverflows c).
Definition put_errors (d o : Z) (c : consumer) : consumer :=
  Consumer (c_activity c) (c_alive c) (c_cred c) (c_vstate c) (c_reserve c) (c_sizes c) (c_specs c) (c_bufs c) (c_busy c) (c_unavail c) (c_aggbufs c) d o.

Definition DTRACE_ACTIVITY_WARMUP : Z := 1.
Definition DTRACE_ACTIVITY_ACTIVE : Z := 2.
Definition DTRACE_ACTIVITY_DRAINING : Z := 3.
Definition DTRACE_ACTIVITY_KILLED : Z := 6.
Definition CPU_DTRACE_ERROR : Z := Z.lor CPU_DTRACE_FAULT CPU_DTRACE_DROP.
Definition DTRACE_MSTATE_ARGS : Z := 1.
Definition DTRACE_MSTATE_PROBE : Z := 2.
Definition DTRACE_MSTATE_EPID : Z := 4.
Definition DTRACE_MSTATE_TIMESTAMP : Z := 8.
Definition NSIG : Z := 64.

Definition DTRACE_FLAGS2FLT (flags : Z) : Z :=
  if has flags CPU_DTRACE_BADADDR then 1
  else if has flags CPU_DTRACE_ILLOP then 3
  else if has flags CPU_DTRACE_DIVZERO then 4
  else if has flags CPU_DTRACE_KPRIV then 6
  else if has flags CPU_DTRACE_UPRIV then 7
  else if has flags CPU_DTRACE_TUPOFLOW then 8
  else if has flags CPU_DTRACE_BADALIGN then 2
  else if has flags CPU_DTRACE_NOSCRATCH then 5
  else if has flags CPU_DTRACE_BADSTACK then 9
  else 0.

Definition set_present (p : Z) (ms : dtrace_mstate) : dtrace_mstate :=
  MState (dtms_scratch_base ms) (dtms_scratch_ptr ms) (dtms_scratch_size ms) p (dtms_fltoffs ms) (dtms_access ms) (dtms_difo ms).
Definition set_access (a : Z) (ms : dtrace_mstate) : dtrace_mstate :=
  MState (dtms_scratch_base ms) (dtms_scratch_ptr ms) (dtms_scratch_size ms) (dtms_present ms) (dtms_fltoffs ms) a (dtms_difo ms).

Definition set_errors (n : Z) (b : dtrace_buffer) : dtrace_buffer :=
  Buffer (dtb_offset b) (dtb_size b) (dtb_flags b) (dtb_drops b) (dtb_tomax b) (dtb_xamot b)
    (dtb_xamot_flags b) (dtb_xamot_drops b) (dtb_xamot_offset b) n (dtb_xamot_errors b).

(** dtrace_error() *)
Definition dtrace_error (counter : Z) : Z := if u32 (counter + 1) =? 0 then 1 else u32 (counter + 1).

(** * The environment *)

Class probe_env := ProbeEnv {
  pv_dif :: dif_env;
  pv_cpu : nat;
  pv_thread : thread;
  pv_regs : list Z;                 (** what is on the stack when emulation begins *)
  pv_tup : list dtrace_key;
  pv_mstate : dtrace_mstate;
  pv_onintr : bool;                 (** CPU_ON_INTR(CPU) *)
  pv_quiesce : bool;                (** panic_quiesce *)
  pv_disallow : bool;               (** dtrace_destructive_disallow *)
  pv_vtime : bool;                  (** dtrace_vtime_references != 0 *)
  pv_helpers : bool;                (** curproc->p_dtrace_helpers != NULL *)
  pv_clock : nat -> Z;              (** the results of dtrace_gethrtime() *)
  pv_patience : nat;                (** a bound on the turns of a busy wait *)
  dtrace_deadman_timeout : Z;
  dtrace_chill_interval : Z;
  dtrace_chill_max : Z;
  dtrace_provider : Z;
  dtrace_probeid_begin : Z;
  dtrace_error_probe : probe;       (** the probe dtrace_probeid_error *)
  dtps_usermode : Z -> Z -> Z -> bool;
  dtrace_getpcstack : Z -> Z -> Z -> option Z -> mach -> mach;
  dtrace_getupcstack : Z -> Z -> mach -> mach;
  (** The stack of a process with helpers: whether the strings did not fit, memory and flags. *)
  dtrace_action_ustack : dtrace_mstate -> Z -> Z -> mach -> bool * mach
}.

Section Dispatch.
Context {E : probe_env}.

Abbreviation prog := (sprog pworld).

Definition get_con (s : Z) : prog consumer := sgets (fun x => pw_cons x !! s).
Definition upd_con (s : Z) (f : consumer -> consumer) : prog unit :=
  c <~ get_con s; sputs (fun x => set_cons (<[s := f c]> (pw_cons x)) x).

Definition get_m : prog mach := sgets (fun x => Some (pw_m x)).
Definition upd_m (f : mach -> mach) : prog unit := sputs (fun x => set_mach (f (pw_m x)) x).
Definition raise_flags (f : Z) : prog unit := upd_m (set_flag f).
Definition get_flags : prog Z := sgets (fun x => Some (m_flags (pw_m x))).
(** *flags & CPU_DTRACE_ERROR *)
Definition erred : prog bool := f <~ get_flags; sret (has f CPU_DTRACE_ERROR).

Definition gethrtime : prog Z := n <~ sgets (fun x => Some (pw_reads x)); sputs (set_reads (S n)) ~; sret (pv_clock n).

(** An answer of one of the functions that check privileges, with the flags it raises. *)
Definition ask (r : option (bool * Z)) : prog bool :=
  match r with None => sfail | Some (b, f) => raise_flags f ~; sret b end.

(** * Buffers *)

(** The variable buf: the buffer of the CPU, or that of a speculation. *)
Inductive bufref := Principal | Speculative (i : nat).

Definition buf_of (r : bufref) (c : consumer) : option dtrace_buffer :=
  match r with
  | Principal => c_bufs c !! pv_cpu
  | Speculative i => match c_specs c !! i with Some sp => dtsp_buffer sp !! pv_cpu | None => None end
  end.
Definition put_buf (r : bufref) (b : dtrace_buffer) (c : consumer) : consumer :=
  match r with
  | Principal => put_specs (c_specs c) (<[pv_cpu := b]> (c_bufs c)) c
  | Speculative i => put_specs (alter (with_buffer pv_cpu b) i (c_specs c)) (c_bufs c) c
  end.

Definition get_buf (s : Z) (r : bufref) : prog dtrace_buffer := c <~ get_con s; sgets (fun _ => buf_of r c).
Definition upd_buf (s : Z) (r : bufref) (f : dtrace_buffer -> dtrace_buffer) : prog unit :=
  b <~ get_buf s r; upd_con s (put_buf r (f b)).

Definition buf_state_of (c : consumer) : buf_state := BufState (c_activity c) (c_reserve c) (c_sizes c).

(** dtrace_buffer_reserve(buf, ecb->dte_needed, ecb->dte_alignment, state, mstate) *)
Definition reserve (s : Z) (r : bufref) (e : dtrace_ecb) (ms : option dtrace_mstate) : prog (Z * option dtrace_mstate) :=
  c <~ get_con s;
  b <~ get_buf s r;
  m <~ get_m;
  rv <~ sgets (fun _ => dtrace_buffer_reserve (buf_state_of c) (dte_needed e) (dte_alignment e) ms b (m_mem m));
  upd_con s (put_buf r (rv_buf rv)) ~;
  upd_m (fun m => Mach (rv_mem rv) (m_flags m) (m_illval m)) ~;
  sret (rv_offs rv, rv_mstate rv).

(** The EPID at the head of a record; the result is tomax. *)
Definition store_epid (s : Z) (r : bufref) (e : dtrace_ecb) (offs : Z) : prog Z :=
  b <~ get_buf s r;
  sassert (negb (dtb_tomax b =? 0)) ~;
  (if dte_size e =? 0 then sret tt else upd_m (write_le (dtb_tomax b + offs) (dte_epid e) 4)) ~;
  sret (dtb_tomax b).

(** The speculations as the functions of the file Speculation have them: flags of all CPUs, kernel memory. *)
Definition spec_of (c : consumer) (m : mach) : spec_sys :=
  SpecSys (c_specs c) (c_bufs c) (c_busy c) (c_unavail c) (<[pv_cpu := m_flags m]> (replicate (S pv_cpu) 0)) (m_mem m).
Definition put_spec (s : Z) (sy : spec_sys) : prog unit :=
  f <~ sgets (fun _ => cpuc_flags sy !! pv_cpu);
  upd_con s (put_specs (dts_speculations sy) (dts_buffer sy)) ~;
  upd_m (fun m => Mach (sys_mem sy) f (m_illval m)).

(** * Emulation *)

Definition put_predcache (n : Z) (t : pthread) : pthread := PThread n (th_start t) (th_vtime t) (th_sig t) (th_stop t) (th_check t).
Definition put_start (n : Z) (t : pthread) : pthread := PThread (th_predcache t) n (th_vtime t) (th_sig t) (th_stop t) (th_check t).
Definition upd_th (f : pthread -> pthread) : prog unit := sputs (fun x => set_thread (f (pw_th x)) x).

Definition emulate (s : Z) (dp : dtrace_difo) (ms : dtrace_mstate) : prog (Z * dtrace_mstate) :=
  c <~ get_con s;
  r <~ sgets (fun x => match dtrace_dif_emulate dp pv_regs pv_tup (th_predcache (pw_th x)) ms (c_vstate c) (pw_m x) with DifEmulate.Ok r => Some r | _ => None end);
  let '(v, st) := r in
  upd_con s (put_vstate (e_vs st)) ~;
  upd_m (fun _ => e_m st) ~;
  upd_th (put_predcache (e_predcache st)) ~;
  sret (v, e_ms st).

(** * Destructive actions *)

Definition dtrace_action_breakpoint (s : Z) (e : dtrace_ecb) : prog unit :=
  if pv_disallow then sret tt else sputs (add_event s (EvBreakpoint (dte_epid e))).

Definition dtrace_action_panic (s : Z) (e : dtrace_ecb) : prog unit :=
  if pv_disallow then sret tt
  else
    p <~ sgets (fun x => Some (pw_panicked x));
    if p : bool then sret tt else sputs set_panicked ~; sputs (add_event s (EvPanic (dte_epid e))).

Definition dtrace_action_raise (s : Z) (sig : Z) : prog unit :=
  if pv_disallow then sret tt
  else if NSIG <=? sig then raise_flags CPU_DTRACE_ILLOP
  else
    upd_th (fun t => PThread (th_predcache t) (th_start t) (th_vtime t) (if th_sig t =? 0 then u8 sig else th_sig t) (th_stop t) true) ~;
    sputs (add_event s (EvRaise sig)).

Definition dtrace_action_stop (s : Z) : prog unit :=
  if pv_disallow then sret tt
  else
    stop <~ sgets (fun x => Some (th_stop (pw_th x)));
    if stop : bool then sret tt
    else
      upd_th (fun t => PThread (th_predcache t) (th_start t) (th_vtime t) (th_sig t) true true) ~;
      sputs (add_event s EvStop).

(** while (dtrace_gethrtime() - now < val) *)
Fixpoint spin (fuel : nat) (now val : Z) : prog unit :=
  match fuel with
  | O => sfail
  | S fuel => t <~ gethrtime; if s64 (t - now) <? val then spin fuel now val else sret tt
  end.

Definition dtrace_action_chill (s : Z) (ms : dtrace_mstate) (val : Z) : prog dtrace_mstate :=
  if pv_disallow then sret ms
  else
    now <~ gethrtime;
    sputs (fun x => if dtrace_chill_interval <? s64 (now - pw_chillmark x) then set_chill now 0 x else x) ~;
    chilled <~ sgets (fun x => Some (pw_chilled x));
    if (dtrace_chill_max <? s64 (chilled + val)) || (s64 (chilled + val) <? chilled) then raise_flags CPU_DTRACE_ILLOP ~; sret ms
    else
      spin pv_patience now val ~;
      sputs (fun x => set_chill (pw_chillmark x) (s64 (pw_chilled x + val)) x) ~;
      sputs (add_event s (EvChill val)) ~;
      sret (set_present (Z.ldiff (dtms_present ms) DTRACE_MSTATE_TIMESTAMP) ms).

(** * Records *)

(** The variables of the loop over the actions. *)
Record ctx := Ctx { x_ms : dtrace_mstate; x_buf : bufref; x_offs : Z; x_tomax : Z; x_val : Z; x_committed : bool }.

Definition put_ms (ms : dtrace_mstate) (x : ctx) : ctx := Ctx ms (x_buf x) (x_offs x) (x_tomax x) (x_val x) (x_committed x).
Definition put_val (ms : dtrace_mstate) (v : Z) (x : ctx) : ctx := Ctx ms (x_buf x) (x_offs x) (x_tomax x) v (x_committed x).

Section Store.
Context (P : platform).

(** A string: after its end zeros are stored, in a tuple nothing.  The results are the value, which has been advanced, and the machine. *)
Fixpoint store_string (n : nat) (intuple : bool) (c addr val : Z) (m : mach) : Z * mach :=
  match n with
  | O => (val, m)
  | S n =>
      let '(c, val, m) := if c =? 0 then (c, val, m) else let '(c, m) := dtrace_load8 P val m in (c, u64 (val + 1), m) in
      let m := store8 addr c m in
      if (c =? 0) && intuple then (val, m) else store_string n intuple c (addr + 1) val m
  end.

Fixpoint store_bytes (n : nat) (addr val : Z) (m : mach) : Z * mach :=
  match n with
  | O => (val, m)
  | S n => let '(c, m) := dtrace_load8 P val m in store_bytes n (addr + 1) (u64 (val + 1)) (store8 addr c m)
  end.
End Store.

Definition store_value (s : Z) (a : pact) (dp : dtrace_difo) (x : ctx) : prog ctx :=
  let size := rec_size (pa_act a) in
  let addr := x_tomax x + (x_offs x + rec_offset (pa_act a)) in
  if byref (dtdo_rtype dp) then
    c <~ get_con s;
    r <~ sgets (fun w => dtrace_vcanload env_platform (x_val x) (dtdo_rtype dp) (x_ms x) (c_vstate c) (pw_m w));
    let '(ok, m) := r in
    upd_m (fun _ => m) ~;
    if negb ok then sret x
    else
      let '(v, m) :=
        if dtdt_kind (dtdo_rtype dp) =? DIF_TYPE_STRING then store_string env_platform (Z.to_nat size) (dta_intuple (pa_act a)) 1 addr (x_val x) m
        else store_bytes env_platform (Z.to_nat size) addr (x_val x) m in
      upd_m (fun _ => m) ~; sret (put_val (x_ms x) v x)
  else if size =? 0 then sret x
  else
    sassert ((size =? 1) || (size =? 2) || (size =? 4) || (size =? 8)) ~;
    upd_m (write_le addr (x_val x) (Z.to_nat size)) ~; sret x.

(** * Actions *)

Definition isstring (a : pact) : bool :=
  (dta_kind (pa_act a) =? DTRACEACT_DIFEXPR) && match pa_difo a with Some dp => dtdt_kind (dtdo_rtype dp) =? DIF_TYPE_STRING | None => false end.

(** [isstr] finds the DIF object of an action of the list. *)
Definition isstr_in (acts : list pact) (b : dtrace_action) : bool := existsb (fun a => (dta_self (pa_act a) =? dta_self b) && isstring a) acts.

Definition bytes_of (mem : Z -> Z) (a n : Z) : list Z := map (fun i => mem (a + Z.of_nat i)) (seq 0 (Z.to_nat n)).

Definition call_aggregate (s : Z) (agg : dtrace_aggregation) (data : list Z) (v val : Z) (b : aggbuf) : prog unit :=
  r <~ sgets (fun _ => dtrace_aggregate agg data v val b);
  let '(b, ill) := r in
  upd_con s (fun c => put_aggbufs (<[pv_cpu := b]> (c_aggbufs c)) c) ~;
  if ill : bool then raise_flags CPU_DTRACE_ILLOP else sret tt.

(** The action [k] of [acts] aggregates. *)
Definition fire_agg (s : Z) (acts : list pact) (k : nat) (a : pact) (x : ctx) : prog ctx :=
  r <~ (match pa_difo a with Some dp => emulate s dp (x_ms x) | None => sret (0xbad, x_ms x) end);
  let '(v, ms) := r in
  err <~ erred;
  if err : bool then sret (put_ms ms x)
  else
    g <~ sgets (fun _ => dta_agg (pa_act a));
    b <~ get_buf s (x_buf x);
    c <~ get_con s;
    aggbuf <~ sgets (fun _ => c_aggbufs c !! pv_cpu);
    m <~ get_m;
    let agg := agg_of (isstr_in acts) (map pa_act acts) k (pa_act a) g in
    let data := bytes_of (m_mem m) (dtb_tomax b + x_offs x + dtag_base g) (dtag_size agg) in
    call_aggregate s agg data v (x_val x) aggbuf ~;
    sret (put_ms ms x).

(** stack(), ustack() and jstack() *)
Definition fire_stack (p : probe) (arg0 : Z) (a : pact) (x : ctx) : prog unit :=
  let addr := x_tomax x + (x_offs x + rec_offset (pa_act a)) in
  upd_m (dtrace_getpcstack addr (rec_size (pa_act a) / 8) (p_aframes p) (if p_anchored p then None else Some arg0)).

Definition fire_ustack (s : Z) (p : probe) (a : pact) (x : ctx) : prog unit :=
  let addr := x_tomax x + (x_offs x + rec_offset (pa_act a)) in
  arg <~ sgets (fun _ => match dtrd_arg (dta_rec (pa_act a)) with inl n => Some n | inr _ => None end);
  let depth := s32 (DTRACE_USTACK_NFRAMES arg + 1) in
  if p_anchored p && pv_onintr then upd_m (dtrace_bzero addr (DTRACE_USTACK_STRSIZE arg + depth * 8))
  else if negb (DTRACE_USTACK_STRSIZE arg =? 0) && pv_helpers then
    m <~ get_m;
    let '(over, m) := dtrace_action_ustack (x_ms x) addr arg m in
    upd_m (fun _ => m) ~;
    if over : bool then upd_con s (fun c => put_errors (c_dblerrors c) (dtrace_error (c_stkstroverflows c)) c) else sret tt
  else upd_m (fun m => clear_flag CPU_DTRACE_NOFAULT (dtrace_getupcstack addr depth (set_flag CPU_DTRACE_NOFAULT m))).

(** speculate() *)
Definition fire_speculate (s : Z) (e : dtrace_ecb) (x : ctx) : prog ctx :=
  sassert (match x_buf x with Principal => true | _ => false end) ~;
  c <~ get_con s;
  m <~ get_m;
  r <~ sgets (fun _ => dtrace_speculation_buffer pv_cpu (u32 (x_val x)) (spec_of c m));
  let '(found, sy) := r in
  put_spec s sy ~;
  if negb found then raise_flags CPU_DTRACE_DROP ~; sret x
  else
    let buf := Speculative (Z.to_nat (u32 (x_val x) - 1)) in
    r <~ reserve s buf e None;
    let '(offs, _) := r in
    if offs <? 0 then raise_flags CPU_DTRACE_DROP ~; sret (Ctx (x_ms x) buf offs (x_tomax x) (x_val x) (x_committed x))
    else tomax <~ store_epid s buf e offs; sret (Ctx (x_ms x) buf offs tomax (x_val x) (x_committed x)).

(** commit() *)
Definition fire_commit (s : Z) (e : dtrace_ecb) (x : ctx) : prog ctx :=
  sassert (negb (x_committed x)) ~;
  (if dte_size e =? 0 then sret tt else upd_buf s (x_buf x) (Buffer.set_offset (x_offs x + dte_size e))) ~;
  c <~ get_con s;
  m <~ get_m;
  sy <~ sgets (fun _ => dtrace_speculation_commit (buf_state_of c) pv_cpu (u32 (x_val x)) (spec_of c m));
  put_spec s sy ~;
  sret (Ctx (x_ms x) Principal (x_offs x) (x_tomax x) (x_val x) true).

Definition fire_discard (s : Z) (x : ctx) : prog unit :=
  c <~ get_con s;
  m <~ get_m;
  sy <~ sgets (fun _ => dtrace_speculation_discard pv_cpu (u32 (x_val x)) (spec_of c m));
  put_spec s sy.

(** exit(): whether the status is recorded. *)
Definition fire_exit (s : Z) : prog bool :=
  c <~ get_con s;
  if c_activity c =? DTRACE_ACTIVITY_COOLDOWN then sret true
  else if (c_activity c =? DTRACE_ACTIVITY_WARMUP) || (c_activity c =? DTRACE_ACTIVITY_ACTIVE) then
    upd_con s (put_activity DTRACE_ACTIVITY_DRAINING) ~; sret true
  else raise_flags CPU_DTRACE_DROP ~; sret false.

(** The actions that evaluate no expression; no result: another action. *)
Definition fire_plain (s : Z) (p : probe) (arg0 : Z) (e : dtrace_ecb) (a : pact) (x : ctx) : prog (option unit) :=
  let kind := dta_kind (pa_act a) in
  cred <~ sgets (fun w => c_cred <$> pw_cons w !! s);
  if kind =? DTRACEACT_STOP then
    ok <~ ask (dtrace_priv_proc_destructive cred pv_thread); (if ok : bool then dtrace_action_stop s else sret tt) ~; sret (Some tt)
  else if kind =? DTRACEACT_BREAKPOINT then
    ok <~ ask (Some (dtrace_priv_kernel_destructive cred)); (if ok : bool then dtrace_action_breakpoint s e else sret tt) ~; sret (Some tt)
  else if kind =? DTRACEACT_PANIC then
    ok <~ ask (Some (dtrace_priv_kernel_destructive cred)); (if ok : bool then dtrace_action_panic s e else sret tt) ~; sret (Some tt)
  else if kind =? DTRACEACT_STACK then
    ok <~ ask (Some (dtrace_priv_kernel cred)); (if ok : bool then fire_stack p arg0 a x else sret tt) ~; sret (Some tt)
  else if (kind =? DTRACEACT_JSTACK) || (kind =? DTRACEACT_USTACK) then
    ok <~ ask (Some (dtrace_priv_proc cred)); (if ok : bool then fire_ustack s p a x else sret tt) ~; sret (Some tt)
  else sret None.

(** The kinds whose value is recorded. *)
Definition recorded (kind : Z) : bool :=
  (kind =? DTRACEACT_DIFEXPR) || (kind =? DTRACEACT_LIBACT) || (kind =? DTRACEACT_PRINTF) || (kind =? DTRACEACT_PRINTA) ||
  (kind =? DTRACEACT_SYSTEM) || (kind =? DTRACEACT_FREOPEN).

(** The actions on the value of an expression. *)
Definition fire_value (s : Z) (e : dtrace_ecb) (a : pact) (dp : dtrace_difo) (x : ctx) : prog ctx :=
  let kind := dta_kind (pa_act a) in
  cred <~ sgets (fun w => c_cred <$> pw_cons w !! s);
  if kind =? DTRACEACT_SPECULATE then fire_speculate s e x
  else if kind =? DTRACEACT_CHILL then
    ok <~ ask (Some (dtrace_priv_kernel_destructive cred));
    if ok : bool then ms <~ dtrace_action_chill s (x_ms x) (s64 (x_val x)); sret (put_ms ms x) else sret x
  else if kind =? DTRACEACT_RAISE then
    ok <~ ask (dtrace_priv_proc_destructive cred pv_thread); (if ok : bool then dtrace_action_raise s (x_val x) else sret tt) ~; sret x
  else if kind =? DTRACEACT_COMMIT then fire_commit s e x
  else if kind =? DTRACEACT_DISCARD then fire_discard s x ~; sret x
  else if recorded kind then store_value s a dp x
  else if (kind =? DTRACEACT_SYM) || (kind =? DTRACEACT_MOD) then
    ok <~ ask (Some (dtrace_priv_kernel cred)); if ok : bool then store_value s a dp x else sret x
  else if (kind =? DTRACEACT_USYM) || (kind =? DTRACEACT_UMOD) || (kind =? DTRACEACT_UADDR) then sret x
  else if kind =? DTRACEACT_EXIT then
    ok <~ fire_exit s; if ok : bool then store_value s a dp x else sret x
  else sfail.

(** The action [k] of the ECB. *)
Definition fire_action (s : Z) (p : probe) (arg0 : Z) (e : pecb) (k : nat) (a : pact) (x : ctx) : prog ctx :=
  if DTRACEACT_ISAGG (dta_kind (pa_act a)) then fire_agg s (pe_acts e) k a x
  else
    r <~ fire_plain s p arg0 (pe_ecb e) a x;
    match r with
    | Some _ => sret x
    | None =>
        dp <~ sgets (fun _ => pa_difo a);
        r <~ emulate s dp (x_ms x);
        let '(v, ms) := r in
        err <~ erred;
        if err : bool then sret (put_val ms v x) else fire_value s (pe_ecb e) a dp (put_val ms v x)
    end.

(** The loop over the actions, until an error; the result has the number of actions begun. *)
Fixpoint fire_actions (s : Z) (p : probe) (arg0 : Z) (e : pecb) (k : nat) (acts : list pact) (x : ctx) : prog (nat * ctx) :=
  err <~ erred;
  if err : bool then sret (k, x)
  else
    match acts with
    | [] => sret (k, x)
    | a :: acts => x <~ fire_action s p arg0 e k a x; fire_actions s p arg0 e (S k) acts x
    end.

(** * ECBs *)

(** Whether the consumer sees the firing; no result: an ASSERT fails. *)
Definition sees (p : probe) (arg0 : Z) (e : dtrace_ecb) (c : consumer) : option bool :=
  let cond bit := has (dte_cond e) bit in
  if (p_provider p =? dtrace_provider) && negb (arg0 =? dte_state e) then Some false
  else if negb (c_activity c =? DTRACE_ACTIVITY_ACTIVE) && negb (p_provider p =? dtrace_provider) then Some false
  else if negb (c_activity c =? DTRACE_ACTIVITY_ACTIVE) && (p_id p =? dtrace_probeid_begin) && negb (c_activity c =? DTRACE_ACTIVITY_WARMUP) then
    if c_activity c =? DTRACE_ACTIVITY_DRAINING then Some false else None
  else if cond DTRACE_COND_USERMODE && negb (dtps_usermode (p_provider p) (p_id p) (p_arg p)) then Some false
  else
    match (if cond DTRACE_COND_OWNER then dtrace_priv_proc_common_user (c_cred c) pv_thread else Some true) with
    | None => None
    | Some owner =>
        if negb owner || (cond DTRACE_COND_OWNER && negb (t_proc pv_thread)) then Some false
        else if cond DTRACE_COND_ZONEOWNER then dtrace_priv_proc_common_zone (c_cred c) pv_thread else Some true
    end.

(** The consumer has not been heard of for too long: it is killed, unless it may do anything. *)
Definition deadman (s now : Z) (c : consumer) : prog bool :=
  if dtrace_deadman_timeout <? s64 (now - c_alive c) then
    ok <~ ask (Some (dtrace_priv_kernel_destructive (c_cred c)));
    if negb ok || (dcr_destructive (c_cred c) =? 0) || pv_disallow then upd_con s (put_activity DTRACE_ACTIVITY_KILLED) ~; sret true
    else sret false
  else sret false.

(** Whether the predicate lets the actions run. *)
Definition fire_pred (s : Z) (p : probe) (e : pecb) (ms : dtrace_mstate) : prog (bool * dtrace_mstate) :=
  match pe_pred e with
  | None => sret (true, ms)
  | Some (dp, cacheid) =>
      r <~ emulate s dp ms;
      let '(v, ms) := r in
      err <~ erred;
      if negb err && (s32 v =? 0) then                      (** int rval *)
        (if negb (p_predcache p =? DTRACE_CACHEIDNONE) && negb pv_onintr then
           sassert (p_predcache p =? cacheid) ~; upd_th (put_predcache (p_predcache p))
         else sret tt) ~;
        sret (false, ms)
      else sret (true, ms)
  end.

(** The end of an ECB: [n] actions were begun.  [error] fires the ERROR probe. *)
Definition finish_ecb (error : Z -> prog unit) (s : Z) (p : probe) (e : dtrace_ecb) (n : nat) (x : ctx) : prog unit :=
  flags <~ get_flags;
  if has flags CPU_DTRACE_DROP then sret tt
  else if has flags CPU_DTRACE_FAULT then
    upd_buf s (x_buf x) (fun b => set_errors (u32 (dtb_errors b + 1)) b) ~;
    if p_id p =? p_id dtrace_error_probe then upd_con s (fun c => put_errors (dtrace_error (c_dblerrors c)) (c_stkstroverflows c) c)
    else
      (if pv_vtime then upd_th (put_start 0) else sret tt) ~;
      sputs (add_event s (EvError (dte_epid e) (Z.of_nat n)
        (if has (dtms_present (x_ms x)) DTRACE_MSTATE_FLTOFFS then dtms_fltoffs (x_ms x) else -1) (DTRACE_FLAGS2FLT flags))) ~;
      error s
  else if x_committed x then sret tt
  else upd_buf s (x_buf x) (Buffer.set_offset (x_offs x + dte_size e)).

(** Room for the record of the ECB [e] is at [offs]; [c]: the consumer at the beginning. *)
Definition fire_reserved (error : Z -> prog unit) (p : probe) (arg0 : Z) (e : pecb) (c : consumer) (offs : Z) (ms : dtrace_mstate) : prog dtrace_mstate :=
  let ecb := pe_ecb e in
  let s := dte_state ecb in
  tomax <~ store_epid s Principal ecb offs;
  let ms := set_present (Z.lor (dtms_present ms) DTRACE_MSTATE_EPID) ms in
  let ms := set_access (if has (dcr_visible (c_cred c)) DTRACE_CRV_KERNEL then DTRACE_ACCESS_KERNEL else 0) ms in
  r <~ fire_pred s p e ms;
  let '(go, ms) := r in
  if negb go then sret ms
  else
    r <~ fire_actions s p arg0 e 0 (pe_acts e) (Ctx ms Principal offs tomax 0 false);
    let '(n, x) := r in
    finish_ecb error s p ecb n x ~;
    sret (x_ms x).

(** The consumer [c] sees the firing. *)
Definition fire_seen (error : Z -> prog unit) (p : probe) (arg0 now : Z) (e : pecb) (c : consumer) (ms : dtrace_mstate) : prog dtrace_mstate :=
  let s := dte_state (pe_ecb e) in
  dead <~ deadman s now c;
  if dead : bool then sret ms
  else
    r <~ reserve s Principal (pe_ecb e) (Some ms);
    let '(offs, oms) := r in
    let ms := match oms with Some ms => ms | None => ms end in
    if offs <? 0 then sret ms else fire_reserved error p arg0 e c offs ms.

Definition fire_ecb (error : Z -> prog unit) (p : probe) (arg0 now : Z) (e : pecb) (ms : dtrace_mstate) : prog dtrace_mstate :=
  let ms := set_present (Z.lor DTRACE_MSTATE_ARGS DTRACE_MSTATE_PROBE) ms in
  upd_m (clear_flag CPU_DTRACE_ERROR) ~;
  c <~ get_con (dte_state (pe_ecb e));
  ok <~ sgets (fun _ => sees p arg0 (pe_ecb e) c);
  if negb ok then sret ms else fire_seen error p arg0 now e c ms.

Fixpoint fire_ecbs (error : Z -> prog unit) (p : probe) (arg0 now : Z) (es : list pecb) (ms : dtrace_mstate) : prog unit :=
  match es with
  | [] => sret tt
  | e :: es => ms <~ fire_ecb error p arg0 now e ms; fire_ecbs error p arg0 now es ms
  end.

(** [fuel] bounds the depth of dtrace_probe_error(): the ERROR probe fires no other. *)
Fixpoint dtrace_probe (fuel : nat) (p : probe) (arg0 : Z) : prog unit :=
  match fuel with
  | O => sfail
  | S fuel =>
      cache <~ sgets (fun x => Some (th_predcache (pw_th x)));
      if negb pv_onintr && negb (p_predcache p =? DTRACE_CACHEIDNONE) && (p_predcache p =? cache) then sret tt
      else if pv_quiesce then sret tt
      else
        now <~ gethrtime;
        (if pv_vtime then
           upd_th (fun t => if th_start t =? 0 then t else PThread (th_predcache t) (th_start t) (s64 (th_vtime t + (now - th_start t))) (th_sig t) (th_stop t) (th_check t))
         else sret tt) ~;
        fire_ecbs (dtrace_probe fuel dtrace_error_probe) p arg0 now (p_ecbs p) pv_mstate ~;
        (if pv_vtime then t <~ gethrtime; upd_th (put_start t) else sret tt)
  end.
End Dispatch.
