(* ===== verification/DispatchSafe.v ===== *)
(** What the firing of a probe may and may not do: which consumers it changes, which actions on the system need
    privileges, and that the ERROR probe ends it. *)
From S2P Require Import Prelude StateProg Dif SafeMem DifValidate DifEmulate DifSafety DifObject Aggregate Buffer Speculation Match Probes Dof Ecb EcbLayout Privilege Dispatch.
From stdpp Require Import gmap list.
#[local] Open Scope Z_scope.
#[local] Open Scope sprog_scope.

(** Decomposes a program; what remains are changes of the world. *)
Ltac prog_walk :=
  repeat (intros; cbv zeta; match goal with
  | |- within _ (sbind _ _) => apply within_bind; [exact _|..]
  | |- within _ (sret _) => apply within_ret; exact _
  | |- within _ (sgets _) => apply within_gets; exact _
  | |- within _ (sassert _) => apply within_assert; exact _
  | |- within _ sfail => apply within_fail
  | |- within _ (if ?b then _ else _) => destruct b
  | |- within _ (match ?o with _ => _ end) => destruct o
  | |- within _ _ => solve [eauto 3 with prog]
  end); intros.

Section Safe.
Context {E : probe_env}.

(** * Consumers that are not concerned *)

Section Spared.
Context (s : Z).

(** The consumer [s] stays as it is. *)
Definition spared (x x' : pworld) : Prop := pw_cons x' !! s = pw_cons x !! s.

#[local] Instance spared_preorder : PreOrder spared.
Proof. split; [done|]. intros x y z H1 H2. unfold spared in *. congruence. Qed.

Lemma spared_puts g : (forall x, pw_cons (g x) = pw_cons x) -> within spared (sputs g).
Proof. intros H. apply within_puts. intros x. unfold spared. by rewrite H. Qed.

Lemma spared_m f : within spared (upd_m f).
Proof. by apply spared_puts. Qed.
Lemma spared_th f : within spared (upd_th f).
Proof. by apply spared_puts. Qed.
#[local] Hint Resolve spared_m spared_th : prog.

Lemma spared_flags f : within spared (raise_flags f).
Proof. apply spared_m. Qed.
Lemma spared_event t ev : within spared (sputs (add_event t ev)).
Proof. by apply spared_puts. Qed.
#[local] Hint Resolve spared_flags spared_event : prog.

Lemma spared_clock : within spared gethrtime.
Proof. unfold gethrtime. prog_walk. by apply spared_puts. Qed.
Lemma spared_ask r : within spared (ask r).
Proof. unfold ask. prog_walk. Qed.
#[local] Hint Resolve spared_clock spared_ask : prog.

Lemma spared_spin fuel now val : within spared (spin fuel now val).
Proof. induction fuel; cbn [spin]; prog_walk. Qed.
#[local] Hint Resolve spared_spin : prog.

Lemma spared_chill t ms val : within spared (dtrace_action_chill t ms val).
Proof. unfold dtrace_action_chill. prog_walk; apply spared_puts; [|done]. intros x. by destruct (_ <? _). Qed.
Lemma spared_panic t e : within spared (dtrace_action_panic t e).
Proof. unfold dtrace_action_panic. prog_walk. by apply spared_puts. Qed.
Lemma spared_breakpoint t e : within spared (dtrace_action_breakpoint t e).
Proof. unfold dtrace_action_breakpoint. prog_walk. Qed.
Lemma spared_stop t : within spared (dtrace_action_stop t).
Proof. unfold dtrace_action_stop. prog_walk. Qed.
Lemma spared_raise t sig : within spared (dtrace_action_raise t sig).
Proof. unfold dtrace_action_raise. prog_walk. Qed.
#[local] Hint Resolve spared_chill spared_panic spared_breakpoint spared_stop spared_raise : prog.

(** The actions of another consumer. *)
Section Other.
Context (t : Z) (Hne : t <> s).

Lemma spared_con f : within spared (upd_con t f).
Proof. unfold upd_con, get_con. prog_walk. apply within_puts. intros x. unfold spared. cbn. by rewrite lookup_insert_ne. Qed.
#[local] Hint Resolve spared_con : prog.

Lemma spared_buf r f : within spared (upd_buf t r f).
Proof. unfold upd_buf, get_buf, get_con. prog_walk. Qed.
Lemma spared_reserve r e ms : within spared (reserve t r e ms).
Proof. unfold reserve, get_buf, get_con, get_m. prog_walk. Qed.
Lemma spared_epid r e offs : within spared (store_epid t r e offs).
Proof. unfold store_epid, get_buf, get_con. prog_walk. Qed.
Lemma spared_put sy : within spared (put_spec t sy).
Proof. unfold put_spec. prog_walk. Qed.
Lemma spared_emulate dp ms : within spared (emulate t dp ms).
Proof. unfold emulate, get_con. prog_walk. Qed.
#[local] Hint Resolve spared_buf spared_reserve spared_epid spared_put spared_emulate : prog.

Lemma spared_erred : within spared erred.
Proof. unfold erred, get_flags. prog_walk. Qed.
#[local] Hint Resolve spared_erred : prog.

Lemma spared_agg acts k a x : within spared (fire_agg t acts k a x).
Proof. unfold fire_agg, call_aggregate, get_buf, get_con, get_m. prog_walk. Qed.
Lemma spared_store a dp x : within spared (store_value t a dp x).
Proof. unfold store_value, get_con. prog_walk. Qed.
Lemma spared_ustack p a x : within spared (fire_ustack t p a x).
Proof. unfold fire_ustack, get_m. prog_walk. Qed.
Lemma spared_speculate e x : within spared (fire_speculate t e x).
Proof. unfold fire_speculate, get_con, get_m. prog_walk. Qed.
Lemma spared_commit e x : within spared (fire_commit t e x).
Proof. unfold fire_commit, get_con, get_m. prog_walk. Qed.
Lemma spared_discard x : within spared (fire_discard t x).
Proof. unfold fire_discard, get_con, get_m. prog_walk. Qed.
Lemma spared_exit : within spared (fire_exit t).
Proof. unfold fire_exit, get_con. prog_walk. Qed.
#[local] Hint Resolve spared_agg spared_store spared_ustack spared_speculate spared_commit spared_discard spared_exit : prog.

Lemma spared_plain p arg0 e a x : within spared (fire_plain t p arg0 e a x).
Proof. unfold fire_plain, fire_stack. prog_walk. Qed.
Lemma spared_value e a dp x : within spared (fire_value t e a dp x).
Proof. unfold fire_value. prog_walk. Qed.
#[local] Hint Resolve spared_plain spared_value : prog.

Lemma spared_action p arg0 e k a x : within spared (fire_action t p arg0 e k a x).
Proof. unfold fire_action. prog_walk. Qed.
#[local] Hint Resolve spared_action : prog.

Lemma spared_actions p arg0 e acts : forall k x, within spared (fire_actions t p arg0 e k acts x).
Proof. induction acts; cbn [fire_actions]; prog_walk. Qed.
Lemma spared_pred p e ms : within spared (fire_pred t p e ms).
Proof. unfold fire_pred. prog_walk. Qed.
Lemma spared_deadman now c : within spared (deadman t now c).
Proof. unfold deadman. prog_walk. Qed.
Lemma spared_finish error p e n x : (forall u, u <> s -> within spared (error u)) -> within spared (finish_ecb error t p e n x).
Proof. intros He. unfold finish_ecb, get_flags. prog_walk. Qed.
End Other.
#[local] Hint Resolve spared_actions spared_pred spared_deadman spared_finish spared_reserve spared_epid : prog.

Lemma spared_ecb_other error p arg0 now e ms :
  (forall u, u <> s -> within spared (error u)) -> dte_state (pe_ecb e) <> s -> within spared (fire_ecb error p arg0 now e ms).
Proof. intros He Hne. unfold fire_ecb, fire_seen, fire_reserved, get_con. prog_walk. Qed.

(** An ECB of the consumer itself that does not see the firing. *)
Lemma spared_ecb_blind error p arg0 now e ms x c :
  pw_cons x !! dte_state (pe_ecb e) = Some c -> sees p arg0 (pe_ecb e) c <> Some true -> after (fire_ecb error p arg0 now e ms) x (fun _ x' => spared x x').
Proof.
  intros Hc Hs. unfold fire_ecb. apply after_bind, after_puts. apply after_bind. apply after_gets. intros c' Hc'. cbn in Hc'. rewrite Hc in Hc'. injection Hc' as <-.
  apply after_bind, after_gets. intros ok Hok. destruct ok; [done|]. by apply after_ret.
Qed.

(** A firing that is no concern of [s]. *)
Definition unconcerned (p : probe) (arg0 : Z) (x : pworld) : Prop :=
  (forall e, e ∈ p_ecbs p -> dte_state (pe_ecb e) <> s) \/
  (p_provider p = dtrace_provider /\ arg0 <> s) \/
  (p_provider p <> dtrace_provider /\ forall c, pw_cons x !! s = Some c -> c_activity c <> DTRACE_ACTIVITY_ACTIVE).

Lemma unconcerned_blind p arg0 x e c :
  unconcerned p arg0 x -> e ∈ p_ecbs p -> dte_state (pe_ecb e) = s -> pw_cons x !! s = Some c -> sees p arg0 (pe_ecb e) c <> Some true.
Proof.
  intros [H|[[Hp Ha]|[Hp Ha]]] He Hs Hc; [by destruct (H e He)| |]; unfold sees.
  - rewrite Hs, (proj2 (Z.eqb_eq _ _) Hp), (proj2 (Z.eqb_neq _ _) Ha). done.
  - rewrite (proj2 (Z.eqb_neq _ _) Hp), (proj2 (Z.eqb_neq _ _) (Ha c Hc)). done.
Qed.

Lemma unconcerned_same p arg0 x x' : spared x x' -> unconcerned p arg0 x -> unconcerned p arg0 x'.
Proof. intros Hx [H|[H|[H1 H2]]]; [by left|by right; left|]. right. right. split; [done|]. unfold spared in Hx. by rewrite Hx. Qed.

Lemma spared_ecbs error p arg0 now : (forall u, u <> s -> within spared (error u)) -> forall es ms x,
  unconcerned p arg0 x -> (forall e, e ∈ es -> e ∈ p_ecbs p) -> after (fire_ecbs error p arg0 now es ms) x (fun _ x' => spared x x').
Proof.
  intros He. induction es as [|e es IH]; intros ms x Hu Hin; cbn [fire_ecbs]; [by apply after_ret|]. apply after_bind. eapply (after_weaken _ _ (fun _ x1 => spared x x1)).
  - destruct (decide (dte_state (pe_ecb e) = s)) as [Hs|Hs]; [|by apply spared_ecb_other]. destruct (pw_cons x !! s) as [c|] eqn:Hc.
    + eapply spared_ecb_blind; [by rewrite Hs|]. eapply unconcerned_blind; [done|apply Hin; set_solver|done|done].
    + unfold fire_ecb. apply after_bind, after_puts. apply after_bind, after_gets. intros c Hc'. cbn in Hc'. rewrite Hs, Hc in Hc'. done.
  - intros ms1 x1 H1. eapply after_weaken; [apply IH; [by eapply unconcerned_same|set_solver]|]. intros ? x2 H2. by etrans.
Qed.

Lemma spared_probe fuel : p_provider dtrace_error_probe = dtrace_provider -> forall p arg0 x, unconcerned p arg0 x -> after (dtrace_probe fuel p arg0) x (fun _ x' => spared x x').
Proof.
  intros Herr. induction fuel as [|fuel IH]; intros p arg0 x Hu; [done|]. cbn [dtrace_probe]. apply after_bind, after_gets. intros cache _. destruct (_ && _); [by apply after_ret|]. destruct pv_quiesce; [by apply after_ret|].
  assert (Hk : forall A (m : sprog pworld A) (f : A -> sprog pworld unit) y, within spared m -> unconcerned p arg0 y -> (forall a y', unconcerned p arg0 y' -> after (f a) y' (fun _ x' => spared y' x')) -> after (sbind m f) y (fun _ x' => spared y x')).
  { intros A m f y Hm Hy Hf. apply after_bind. eapply after_weaken; [apply Hm|]. intros a y1 H1. eapply after_weaken; [apply Hf; eapply unconcerned_same; [exact H1|exact Hy]|]. intros ? y2 H2. etrans; [exact H1|exact H2]. }
  apply Hk; [apply spared_clock|done|]. intros now x1 H1. apply Hk; [prog_walk|done|]. intros ? x2 H2. apply after_bind. eapply after_weaken; [apply spared_ecbs; [|exact H2|done]|].
  - intros u Hne y. apply IH. right. by left.
  - intros ? x3 H3. eapply after_weaken; [|intros ? x4 H4; etrans; [exact H3|exact H4]]. assert (Hw : within spared (if pv_vtime then sbind gethrtime (fun t => upd_th (put_start t)) else sret tt)) by prog_walk. apply Hw.
Qed.
End Spared.

(** * Privileges *)

Definition cred_of (s : Z) (x : pworld) : option dtrace_cred_t := c_cred <$> pw_cons x !! s.

(** The consumer may do this, and destructive actions are not disallowed. *)
Definition allowed (s : Z) (ev : pevent) (x : pworld) : Prop :=
  match ev with
  | EvStop | EvRaise _ => pv_disallow = false /\ exists cr f, cred_of s x = Some cr /\ dtrace_priv_proc_destructive cr pv_thread = Some (true, f)
  | EvBreakpoint _ | EvPanic _ | EvChill _ => pv_disallow = false /\ exists cr, cred_of s x = Some cr /\ has (dcr_action cr) DTRACE_CRA_KERNEL_DESTRUCTIVE = true
  | EvError _ _ _ _ => True
  end.

(** The thread was stopped or sent a signal, or the system panicked, only by the events of [l]. *)
Record logged (x x' : pworld) (l : list (Z * pevent)) : Prop := {
  lg_stop : th_stop (pw_th x') = th_stop (pw_th x) \/ exists s, (s, EvStop) ∈ l;
  lg_raise : th_sig (pw_th x') = th_sig (pw_th x) \/ exists s n, (s, EvRaise n) ∈ l;
  lg_panic : pw_panicked x' = pw_panicked x \/ exists s n, (s, EvPanic n) ∈ l
}.

(** Credentials stay; everything that was done was allowed. *)
Definition lawful (x x' : pworld) : Prop :=
  (forall s, cred_of s x' = cred_of s x) /\ exists new, pw_log x' = pw_log x ++ new /\ Forall (fun sev => allowed sev.1 sev.2 x) new /\ logged x x' new.

Lemma allowed_same s ev x x' : cred_of s x' = cred_of s x -> allowed s ev x' -> allowed s ev x.
Proof. intros H. unfold allowed. by rewrite H. Qed.

Lemma logged_same x x' l : th_stop (pw_th x') = th_stop (pw_th x) -> th_sig (pw_th x') = th_sig (pw_th x) -> pw_panicked x' = pw_panicked x -> logged x x' l.
Proof. intros H1 H2 H3. split; by left. Qed.

Lemma logged_trans x y z l1 l2 : logged x y l1 -> logged y z l2 -> logged x z (l1 ++ l2).
Proof.
  assert (Hj : forall (A : Type) (a b c : A) (P : list (Z * pevent) -> Prop), (forall l, P l -> P (l ++ l2)) -> (forall l, P l -> P (l1 ++ l)) -> b = a \/ P l1 -> c = b \/ P l2 -> c = a \/ P (l1 ++ l2)).
  { intros A a b c P Hl Hr [<-|H1] [<-|H2]; (by left) || right; auto. }
  intros [a1 a2 a3] [b1 b2 b3]. split.
  - apply (Hj _ _ (th_stop (pw_th y)) _ (fun l => exists s, (s, EvStop) ∈ l)); [..|done|done]; intros l [s H]; exists s; apply elem_of_app; tauto.
  - apply (Hj _ _ (th_sig (pw_th y)) _ (fun l => exists s n, (s, EvRaise n) ∈ l)); [..|done|done]; intros l (s & n & H); exists s, n; apply elem_of_app; tauto.
  - apply (Hj _ _ (pw_panicked y) _ (fun l => exists s n, (s, EvPanic n) ∈ l)); [..|done|done]; intros l (s & n & H); exists s, n; apply elem_of_app; tauto.
Qed.

#[local] Instance lawful_preorder : PreOrder lawful.
Proof.
  split.
  - intros x. split; [done|]. exists []. rewrite app_nil_r. split; [done|]. split; [done|by apply logged_same].
  - intros x y z [H1 (n1 & L1 & F1 & G1)] [H2 (n2 & L2 & F2 & G2)]. split; [intros s; by rewrite H2|]. exists (n1 ++ n2). rewrite L2, L1, app_assoc. split; [done|]. split; [|by eapply logged_trans]. apply Forall_app. split; [done|].
    eapply Forall_impl; [exact F2|]. intros [s ev] Ha. eapply (allowed_same s ev x y); [apply H1|exact Ha].
Qed.

(** Steps that do nothing to the system. *)
Lemma lawful_same x x' : (forall s, cred_of s x' = cred_of s x) -> pw_log x' = pw_log x -> logged x x' [] -> lawful x x'.
Proof. intros H1 H2 H3. split; [done|]. exists []. by rewrite H2, app_nil_r. Qed.

Lemma lawful_puts g : (forall x, pw_cons (g x) = pw_cons x /\ pw_log (g x) = pw_log x /\ pw_th (g x) = pw_th x /\ pw_panicked (g x) = pw_panicked x) -> within lawful (sputs g).
Proof.
  intros H. apply within_puts. intros x. destruct (H x) as (H1 & H2 & H3 & H4). apply lawful_same; [intros s; unfold cred_of; by rewrite H1|done|]. apply logged_same; by rewrite ?H3.
Qed.

Lemma lawful_m f : within lawful (upd_m f).
Proof. by apply lawful_puts. Qed.
Lemma lawful_th f : (forall t, th_stop (f t) = th_stop t /\ th_sig (f t) = th_sig t) -> within lawful (upd_th f).
Proof. intros H. apply within_puts. intros x. destruct (H (pw_th x)) as [H1 H2]. apply lawful_same; [done|done|by apply logged_same]. Qed.
Lemma lawful_flags f : within lawful (raise_flags f).
Proof. apply lawful_m. Qed.
Lemma lawful_con t f : (forall c, c_cred (f c) = c_cred c) -> within lawful (upd_con t f).
Proof.
  intros Hf x. unfold upd_con, get_con. apply after_bind, after_gets. intros c Hc. apply after_puts. apply lawful_same; [|done|by apply logged_same].
  intros s. unfold cred_of. cbn. destruct (decide (t = s)) as [<-|Hne]; [rewrite lookup_insert_eq, Hc; cbn; by rewrite Hf|by rewrite lookup_insert_ne].
Qed.
#[local] Hint Resolve lawful_m lawful_flags : prog.
#[local] Hint Extern 3 (within lawful (upd_th _)) => apply lawful_th; intros ?; repeat case_match; split; reflexivity : prog.
#[local] Hint Extern 3 (within lawful (upd_con _ _)) => apply lawful_con; intros ?; reflexivity : prog.

Lemma lawful_clock : within lawful gethrtime.
Proof. unfold gethrtime. prog_walk. by apply lawful_puts. Qed.
Lemma lawful_error t a b c d : within lawful (sputs (add_event t (EvError a b c d))).
Proof. apply within_puts. intros x. split; [done|]. eexists. split; [done|]. split; [by constructor|by apply logged_same]. Qed.
Lemma lawful_erred : within lawful erred.
Proof. unfold erred, get_flags. prog_walk. Qed.
#[local] Hint Resolve lawful_clock lawful_error lawful_erred : prog.

Lemma lawful_spin fuel now val : within lawful (spin fuel now val).
Proof. induction fuel; cbn [spin]; prog_walk. Qed.
Lemma lawful_ask r : within lawful (ask r).
Proof. unfold ask. prog_walk. Qed.
Lemma lawful_put_buf t r b : within lawful (upd_con t (put_buf r b)).
Proof. apply lawful_con. intros c. by destruct r. Qed.
#[local] Hint Resolve lawful_spin lawful_ask lawful_put_buf : prog.

Lemma lawful_buf t r f : within lawful (upd_buf t r f).
Proof. unfold upd_buf, get_buf, get_con. prog_walk. Qed.
Lemma lawful_reserve t r e ms : within lawful (reserve t r e ms).
Proof. unfold reserve, get_buf, get_con, get_m. prog_walk. Qed.
Lemma lawful_epid t r e offs : within lawful (store_epid t r e offs).
Proof. unfold store_epid, get_buf, get_con. prog_walk. Qed.
Lemma lawful_put t sy : within lawful (put_spec t sy).
Proof. unfold put_spec. prog_walk. Qed.
Lemma lawful_emulate t dp ms : within lawful (emulate t dp ms).
Proof. unfold emulate, get_con. prog_walk. Qed.
#[local] Hint Resolve lawful_buf lawful_reserve lawful_epid lawful_put lawful_emulate : prog.

Lemma lawful_agg t acts k a x : within lawful (fire_agg t acts k a x).
Proof. unfold fire_agg, call_aggregate, get_buf, get_con, get_m. prog_walk. Qed.
Lemma lawful_store t a dp x : within lawful (store_value t a dp x).
Proof. unfold store_value, get_con. prog_walk. Qed.
Lemma lawful_ustack t p a x : within lawful (fire_ustack t p a x).
Proof. unfold fire_ustack, get_m. prog_walk. Qed.
Lemma lawful_speculate t e x : within lawful (fire_speculate t e x).
Proof. unfold fire_speculate, get_con, get_m. prog_walk. Qed.
Lemma lawful_commit t e x : within lawful (fire_commit t e x).
Proof. unfold fire_commit, get_con, get_m. prog_walk. Qed.
Lemma lawful_discard t x : within lawful (fire_discard t x).
Proof. unfold fire_discard, get_con, get_m. prog_walk. Qed.
Lemma lawful_exit t : within lawful (fire_exit t).
Proof. unfold fire_exit, get_con. prog_walk. Qed.
#[local] Hint Resolve lawful_agg lawful_store lawful_ustack lawful_speculate lawful_commit lawful_discard lawful_exit : prog.

(** An event that is allowed. *)
Lemma lawful_event t ev x : allowed t ev x -> after (sputs (add_event t ev)) x (fun _ x' => lawful x x').
Proof. intros Ha. apply after_puts. split; [done|]. eexists. split; [done|]. split; [by constructor|by apply logged_same]. Qed.

(** An effect that is allowed and its event. *)
Lemma lawful_effect t ev g x : allowed t ev x -> pw_cons (g x) = pw_cons x -> pw_log (g x) = pw_log x -> logged x (g x) [(t, ev)] -> after (sputs g ~; sputs (add_event t ev)) x (fun _ x' => lawful x x').
Proof.
  intros Ha H1 H2 [g1 g2 g3]. apply after_bind, after_puts, after_puts. split; [intros s; unfold cred_of; cbn; by rewrite H1|]. exists [(t, ev)]. cbn. rewrite H2. split; [done|]. split; [by constructor|by split].
Qed.

(** After lawful steps a program that is lawful here. *)
Lemma lawful_then {A B} (m : sprog pworld A) (f : A -> sprog pworld B) x :
  within lawful m -> (forall a x', lawful x x' -> m x = Some (a, x') -> after (f a) x' (fun _ x2 => lawful x' x2)) -> after (sbind m f) x (fun _ x2 => lawful x x2).
Proof. intros Hm Hf. apply after_bind. intros a x1 H1. pose proof (Hm x a x1 H1) as Hl. eapply after_weaken; [by apply Hf|]. intros ? x2 H2. etrans; [exact Hl|exact H2]. Qed.

Lemma allowed_later t ev x x' : lawful x x' -> allowed t ev x -> allowed t ev x'.
Proof. intros [H _]. apply allowed_same. by rewrite H. Qed.

Lemma lawful_stop t x : (pv_disallow = false -> allowed t EvStop x) -> after (dtrace_action_stop t) x (fun _ x' => lawful x x').
Proof.
  intros Ha. unfold dtrace_action_stop. destruct pv_disallow eqn:Hd; [by apply after_ret|specialize (Ha eq_refl)]. apply lawful_then; [prog_walk|]. intros stop x1 H1 _. destruct stop; [by apply after_ret|]. apply lawful_effect; [by eapply allowed_later|done|done|].
  split; [right; exists t; by left|by left|by left].
Qed.
Lemma lawful_raise t sig x : (pv_disallow = false -> allowed t (EvRaise sig) x) -> after (dtrace_action_raise t sig) x (fun _ x' => lawful x x').
Proof.
  intros Ha. unfold dtrace_action_raise. destruct pv_disallow eqn:Hd; [by apply after_ret|specialize (Ha eq_refl)]. destruct (_ <=? _); [apply lawful_flags|]. apply lawful_effect; [done|done|done|].
  split; [by left|right; exists t, sig; by left|by left].
Qed.
Lemma lawful_panic t e x : (pv_disallow = false -> allowed t (EvPanic (dte_epid e)) x) -> after (dtrace_action_panic t e) x (fun _ x' => lawful x x').
Proof.
  intros Ha. unfold dtrace_action_panic. destruct pv_disallow eqn:Hd; [by apply after_ret|specialize (Ha eq_refl)]. apply lawful_then; [prog_walk|]. intros b x1 H1 _. destruct b; [by apply after_ret|]. apply lawful_effect; [by eapply allowed_later|done|done|].
  split; [by left|by left|right; exists t, (dte_epid e); by left].
Qed.
Lemma lawful_breakpoint t e x : (pv_disallow = false -> allowed t (EvBreakpoint (dte_epid e)) x) -> after (dtrace_action_breakpoint t e) x (fun _ x' => lawful x x').
Proof. intros Ha. unfold dtrace_action_breakpoint. destruct pv_disallow eqn:Hd; [by apply after_ret|specialize (Ha eq_refl)]. by apply lawful_event. Qed.
Lemma lawful_chill t ms val x : (pv_disallow = false -> allowed t (EvChill val) x) -> after (dtrace_action_chill t ms val) x (fun _ x' => lawful x x').
Proof.
  intros Ha. unfold dtrace_action_chill. destruct pv_disallow eqn:Hd; [by apply after_ret|specialize (Ha eq_refl)]. apply lawful_then; [prog_walk|]. intros now x1 H1 _. apply lawful_then; [apply lawful_puts; intros y; by destruct (_ <? _)|].
  intros ? x2 H2 _. apply lawful_then; [prog_walk|]. intros chilled x3 H3 _. destruct (_ || _).
  - assert (Hw : within lawful (raise_flags CPU_DTRACE_ILLOP ~; sret ms)) by prog_walk. apply Hw.
  - apply lawful_then; [prog_walk|]. intros ? x4 H4 _. apply lawful_then; [by apply lawful_puts|]. intros ? x5 H5 _. apply after_bind. eapply after_weaken; [apply (lawful_event t (EvChill val)); do 5 (eapply allowed_later; [eassumption|]); exact Ha|]. intros ? x6 H6. by apply after_ret.
Qed.

(** The answer yes. *)
Lemma ask_yes r x a x' : ask r x = Some (a, x') -> a = true -> exists f, r = Some (true, f).
Proof. unfold ask, raise_flags, upd_m, sbind, sputs, sret. destruct r as [[b f]|]; [|done]. intros [= <- _] ->. by exists f. Qed.

Lemma kernel_yes c f : Some (dtrace_priv_kernel_destructive c) = Some (true, f) -> has (dcr_action c) DTRACE_CRA_KERNEL_DESTRUCTIVE = true.
Proof. by intros [= -> _]. Qed.

(** A check, then what it allows. *)
Lemma lawful_guard {A B} r (m n : sprog pworld A) (k : A -> sprog pworld B) x :
  (forall x' f, lawful x x' -> r = Some (true, f) -> after m x' (fun _ x2 => lawful x' x2)) -> within lawful n -> (forall a, within lawful (k a)) ->
  after (ok <~ ask r; sbind (if ok : bool then m else n) k) x (fun _ x2 => lawful x x2).
Proof.
  intros Hm Hn Hk. apply lawful_then; [prog_walk|]. intros ok x1 H1 Hask. assert (Hmn : after (if ok : bool then m else n) x1 (fun _ x2 => lawful x1 x2)).
  { destruct ok; [|apply Hn]. destruct (ask_yes _ _ _ _ Hask eq_refl) as [f Hf]. by eapply Hm. }
  apply after_bind. eapply after_weaken; [exact Hmn|]. intros a x2 H2. eapply after_weaken; [apply Hk|]. intros ? x3 H3. etrans; [exact H2|exact H3].
Qed.

Lemma lawful_if {A} r (m n : sprog pworld A) x :
  (forall x' f, lawful x x' -> r = Some (true, f) -> after m x' (fun _ x2 => lawful x' x2)) -> within lawful n -> after (ok <~ ask r; if ok : bool then m else n) x (fun _ x2 => lawful x x2).
Proof.
  intros Hm Hn. apply lawful_then; [prog_walk|]. intros ok x1 H1 Hask. destruct ok; [|apply Hn]. destruct (ask_yes _ _ _ _ Hask eq_refl) as [f Hf]. by eapply Hm.
Qed.

Lemma lawful_plain t p arg0 e a x : within lawful (fire_plain t p arg0 e a x).
Proof.
  intros w. unfold fire_plain. apply lawful_then; [prog_walk|]. intros cred w1 H1 Hcred. assert (Hc : cred_of t w1 = Some cred) by (unfold sgets, cred_of in *; destruct (c_cred <$> _) eqn:Ec; [by injection Hcred as <- <-|done]).
  assert (Hproc : forall x' f ev, (ev = EvStop \/ exists n, ev = EvRaise n) -> lawful w1 x' -> dtrace_priv_proc_destructive cred pv_thread = Some (true, f) -> pv_disallow = false -> allowed t ev x').
  { intros x' f ev Hev [Hl _] Hf Hd. assert (Hx : allowed t EvStop x') by (split; [done|]; exists cred, f; by rewrite Hl). by destruct Hev as [->|[n ->]]. }
  assert (Hkern : forall x' f ev, (ev = EvBreakpoint (dte_epid e) \/ ev = EvPanic (dte_epid e)) -> lawful w1 x' -> Some (dtrace_priv_kernel_destructive cred) = Some (true, f) -> pv_disallow = false -> allowed t ev x').
  { intros x' f ev Hev [Hl _] Hf Hd. apply kernel_yes in Hf. assert (Hx : allowed t (EvPanic (dte_epid e)) x') by (split; [done|]; exists cred; by rewrite Hl). by destruct Hev as [->| ->]. }
  repeat match goal with |- after (if ?b then _ else _) _ _ => destruct b end.
  - apply lawful_guard; [|prog_walk..]. intros x' f Hl Hf. apply lawful_stop. intros Hd. eapply Hproc; [by left|done..].
  - apply lawful_guard; [|prog_walk..]. intros x' f Hl Hf. apply lawful_breakpoint. intros Hd. eapply Hkern; [by left|done..].
  - apply lawful_guard; [|prog_walk..]. intros x' f Hl Hf. apply lawful_panic. intros Hd. eapply Hkern; [by right|done..].
  - apply lawful_guard; [|prog_walk..]. intros x' f Hl Hf. unfold fire_stack. apply lawful_m.
  - apply lawful_guard; [|prog_walk..]. intros x' f Hl Hf. apply lawful_ustack.
  - by apply after_ret.
Qed.

Lemma lawful_value t e a dp x : within lawful (fire_value t e a dp x).
Proof.
  intros w. unfold fire_value. apply lawful_then; [prog_walk|]. intros cred w1 H1 Hcred. assert (Hc : cred_of t w1 = Some cred) by (unfold sgets, cred_of in *; destruct (c_cred <$> _) eqn:Ec; [by injection Hcred as <- <-|done]).
  assert (Hin : forall A (m : sprog pworld A), within lawful m -> after m w1 (fun _ x2 => lawful w1 x2)) by (intros A m Hm; apply Hm).
  repeat match goal with |- after (if ?b then _ else _) _ _ => destruct b end; try (apply Hin; prog_walk; fail).
  - apply lawful_if; [|prog_walk]. intros x' f [Hl _] Hf. apply after_bind. eapply after_weaken; [apply lawful_chill|].
    + intros Hd. split; [done|]. exists cred. rewrite Hl. split; [done|]. by eapply kernel_yes.
    + intros ? x2 H2. by apply after_ret.
  - apply lawful_guard; [|prog_walk..]. intros x' f [Hl _] Hf. apply lawful_raise. intros Hd. split; [done|]. exists cred, f. by rewrite Hl.
Qed.
#[local] Hint Resolve lawful_plain lawful_value : prog.

Lemma lawful_action t p arg0 e k a x : within lawful (fire_action t p arg0 e k a x).
Proof. unfold fire_action. prog_walk. Qed.
#[local] Hint Resolve lawful_action : prog.
Lemma lawful_actions t p arg0 e acts : forall k x, within lawful (fire_actions t p arg0 e k acts x).
Proof. induction acts; cbn [fire_actions]; prog_walk. Qed.
Lemma lawful_pred t p e ms : within lawful (fire_pred t p e ms).
Proof. unfold fire_pred. prog_walk. Qed.
Lemma lawful_deadman t now c : within lawful (deadman t now c).
Proof. unfold deadman. prog_walk. Qed.
Lemma lawful_finish error t p e n x : (forall u, within lawful (error u)) -> within lawful (finish_ecb error t p e n x).
Proof. intros He. unfold finish_ecb, get_flags. prog_walk. Qed.
#[local] Hint Resolve lawful_actions lawful_pred lawful_deadman lawful_finish : prog.

Lemma lawful_ecb error p arg0 now e ms : (forall u, within lawful (error u)) -> within lawful (fire_ecb error p arg0 now e ms).
Proof. intros He. unfold fire_ecb, fire_seen, fire_reserved, get_con. prog_walk. Qed.
#[local] Hint Resolve lawful_ecb : prog.
Lemma lawful_ecbs error p arg0 now es : (forall u, within lawful (error u)) -> forall ms, within lawful (fire_ecbs error p arg0 now es ms).
Proof. intros He. induction es; cbn [fire_ecbs]; prog_walk. Qed.
#[local] Hint Resolve lawful_ecbs : prog.
Lemma lawful_probe fuel : forall p arg0, within lawful (dtrace_probe fuel p arg0).
Proof. induction fuel as [|fuel IH]; intros p arg0; cbn [dtrace_probe]; prog_walk. Qed.
End Safe.
