(* ===== verification/DispatchTotal.v ===== *)
(** The firing of a probe always comes to an end, and writes only memory of the consumers that see it. *)
From S2P Require Import Prelude StateProg Dif SafeMem DifValidate DifEmulate DifSafety DifObject Aggregate Buffer Speculation Match Probes Dof Ecb EcbLayout Privilege Dispatch DispatchSafe.
From stdpp Require Import gmap list.
#[local] Open Scope Z_scope.
#[local] Open Scope sprog_scope.

(** What is relied on: the promises of the emulator's environment; stacks are stored where they should be; the clock runs. *)
Class probe_env_ok (E : probe_env) : Prop := {
  pv_dif_ok :: dif_env_ok pv_dif;
  pv_regs_ok : length pv_regs = 8%nat /\ Forall (is_u 64) pv_regs;
  pv_tup_ok : length pv_tup = 10%nat;
  getpcstack_ok addr n aframes arg m : only_wrote addr (8 * n) m (dtrace_getpcstack addr n aframes arg m);
  getupcstack_ok addr n m : only_wrote addr (8 * n) m (dtrace_getupcstack addr n m);
  ustack_ok ms addr arg m : bytes_ok m -> let m' := (dtrace_action_ustack ms addr arg m).2 in bytes_ok m' /\
    forall a, ~ addr <= a < addr + (DTRACE_USTACK_STRSIZE arg + (DTRACE_USTACK_NFRAMES arg + 1) * 8) ->
      ~ dtms_scratch_base ms <= a < dtms_scratch_base ms + dtms_scratch_size ms -> m_mem m' a = m_mem m a;
  clock_ok n : exists k, (k < pv_patience)%nat /\ dtrace_chill_max <= s64 (pv_clock (S n + k) - pv_clock n);
  chill_max_ok : 0 <= dtrace_chill_max < 2 ^ 62
}.

Section Total.
Context {E : probe_env} {HE : probe_env_ok E}.

(** * Variables *)

Definition no_scratch : dtrace_mstate := MState 0 0 0 0 0 0 (Difo [] [] 0 0 [] (DifType 0 0 0 0) 0 0).

(** The variables of a consumer are in order. *)
Definition vars_ok (vs : dtrace_vstate) : Prop := consumer_ok env_ncpu no_scratch vs.

(** A scratch area is below the top of memory. *)
Record scratch_ok (ms : dtrace_mstate) : Prop := {
  so_base : 0 <= dtms_scratch_base ms;
  so_size : 0 <= dtms_scratch_size ms;
  so_top : dtms_scratch_base ms + dtms_scratch_size ms + 8 < 2 ^ 64;
  so_ptr : dtms_scratch_base ms <= dtms_scratch_ptr ms <= dtms_scratch_base ms + dtms_scratch_size ms
}.

Lemma vars_scratch vs ms : vars_ok vs -> scratch_ok ms -> consumer_ok env_ncpu ms vs.
Proof. intros [[_ r2 r3] _ c3 c4 c5 c6] [s1 s2 s3 s4]. split; try done; split; try done; lia. Qed.

(** The data of static variables stay where they are. *)
Lemma globals_same vs vs' sv' : vs_same vs vs' -> In (Some sv') (dtvs_globals vs') -> exists sv, In (Some sv) (dtvs_globals vs) /\ global_same (Some sv) (Some sv').
Proof.
  intros [_ _ _ _ Hg] Hin. induction Hg as [|o o' l l' Ho Hg IH]; [done|]. destruct Hin as [->|Hin].
  - destruct o as [sv|]; [|done]. exists sv. split; [by left|done].
  - destruct (IH Hin) as (sv & Hsv & Hs). exists sv. split; [by right|done].
Qed.

Lemma static_same vs vs' sv' : vars_ok vs -> vs_same vs vs' -> In (Some sv') (dtvs_locals vs' ++ dtvs_globals vs') -> dtsv_size sv' <> 0 ->
  exists sv, In (Some sv) (dtvs_locals vs ++ dtvs_globals vs) /\ dtsv_size sv = dtsv_size sv' /\ dtsv_data sv = dtsv_data sv'.
Proof.
  intros Hv Hs Hin Hne. apply in_app_or in Hin as [Hin|Hin].
  - rewrite (vs_locals _ _ Hs) in Hin. exists sv'. split; [apply in_or_app; by left|done].
  - destruct (globals_same _ _ _ Hs Hin) as (sv & Hsv & Hsz & Hvar & Hd & Hbyref). exists sv. split; [apply in_or_app; by right|]. split; [done|]. symmetry. apply Hbyref.
    destruct (co_globals _ _ _ Hv sv Hsv) as (_ & _ & Hsize). rewrite Hsz in Hne. rewrite Hsize in Hne. by destruct (byref _).
Qed.

Lemma vars_same vs vs' : vars_ok vs -> vs_same vs vs' -> vars_ok vs'.
Proof.
  intros Hv Hs. pose proof Hv as [[r1 r2 r3] c2 c3 c4 c5 c6]. pose proof Hs as [s1 s2 s3 s4 s5]. split; [split|..]; try done.
  - by rewrite s4.
  - intros sv' Hin Hne. destruct (static_same _ _ _ Hv Hs Hin Hne) as (sv & Hsv & H1 & H2). rewrite <- H1, <- H2. rewrite <- H1 in Hne. by apply r3.
  - by rewrite s1.
  - intros sv' Hin. destruct (globals_same _ _ _ Hs Hin) as (sv & Hsv & Hsz & Hvar & Hd & _). destruct (c4 sv Hsv) as (_ & H2 & H3). unfold global_ok. by rewrite Hsz, Hvar.
  - by rewrite s3.
  - by rewrite s2.
Qed.

Lemma writable_same ms vs vs' a : vars_ok vs -> vs_same vs vs' -> writable ms vs' a -> writable ms vs a.
Proof.
  intros Hv Hs [H|[H|(sv' & Hin & Ha)]]; [by left| |].
  - right. left. by rewrite (vs_dynvars _ _ Hs) in H.
  - destruct (static_same _ _ _ Hv Hs Hin) as (sv & Hsv & H1 & H2); [lia|]. right. right. exists sv. split; [done|]. lia.
Qed.

Lemma vs_same_trans vs1 vs2 vs3 : vs_same vs1 vs2 -> vs_same vs2 vs3 -> vs_same vs1 vs3.
Proof.
  intros [a1 a2 a3 a4 a5] [b1 b2 b3 b4 b5]. split; try congruence. clear -a5 b5. revert a5 b5. generalize (dtvs_globals vs1), (dtvs_globals vs2), (dtvs_globals vs3). intros l1 l2 l3 H. revert l3.
  induction H as [|o o' l l' Ho H IH]; intros l3 H3; inversion H3 as [|? o3 ? l3' Ho3 Hl3]; subst; constructor; [|by apply IH].
  destruct o as [sv|], o' as [sv'|], o3 as [sv3|]; try done. destruct Ho as (h1 & h2 & h3 & h4), Ho3 as (k1 & k2 & k3 & k4). split; [congruence|]. split; [congruence|]. split; [done|]. intros Hb. rewrite k4, h4; [done|done|]. by rewrite h2.
Qed.

(** A DIF object that a consumer may run: validated, with its variables declared, and without the instructions that may not end well. *)
Record difo_ok (vs : dtrace_vstate) (dp : dtrace_difo) : Prop := {
  do_text : text_valid DIF_DIR_NREGS dp;
  do_int : Forall (is_u 64) (dtdo_inttab dp);
  do_vars : declared_text dp vs;
  do_ops : ~ has_op dp DIF_OP_SDIV /\ ~ has_op dp DIF_OP_SREM /\ ~ has_op dp DIF_OP_PUSHTR
}.

Lemma has_static_same l l' id : Forall2 global_same l l' -> has_static l id -> has_static l' id.
Proof.
  intros H [Hb (sv & Hsv)]. split; [done|]. destruct (Forall2_lookup_l _ _ _ _ _ H Hsv) as (o & Ho & Hs). destruct o as [sv'|]; [|done]. by exists sv'.
Qed.

Lemma difo_same vs vs' dp : vs_same vs vs' -> difo_ok vs dp -> difo_ok vs' dp.
Proof.
  intros [s1 s2 s3 s4 s5] [d1 d2 d3 d4]. split; try done. intros pc i o Hi Ho. specialize (d3 pc i o Hi Ho). unfold declared, has_tlocal in *. rewrite s3, s2.
  destruct o; try done; try (by eapply has_static_same); intros Hb; eapply has_static_same; [done|by apply d3].
Qed.

(** * Consumers *)

Definition in_buf (b : dtrace_buffer) (a : Z) : Prop := dtb_tomax b <= a < dtb_tomax b + dtb_size b \/ dtb_xamot b <= a < dtb_xamot b + dtb_size b.

(** Memory of a consumer: the halves of its buffer on this CPU, and its variables. *)
Definition owns (c : consumer) (a : Z) : Prop := (exists b, c_bufs c !! pv_cpu = Some b /\ in_buf b a) \/ writable no_scratch (c_vstate c) a.

Record pbuf_ok (reserve : Z) (b : dtrace_buffer) : Prop := {
  pb_linear : linear_inv b;
  pb_reserve : 0 <= reserve <= dtb_size b;
  pb_top : dtb_tomax b + dtb_size b + 8 < 2 ^ 64;
  pb_xamot : 0 <= dtb_xamot b /\ dtb_xamot b + dtb_size b + 8 < 2 ^ 64
}.

Record con_ok (c : consumer) : Prop := {
  k_vars : vars_ok (c_vstate c);
  k_buf : exists b, c_bufs c !! pv_cpu = Some b /\ pbuf_ok (c_reserve c) b;
  k_agg : exists ab, c_aggbufs c !! pv_cpu = Some ab /\ agg_inv ab
}.

(** The buffer is where it was. *)
Definition same_place (b b' : dtrace_buffer) : Prop := dtb_tomax b' = dtb_tomax b /\ dtb_size b' = dtb_size b /\ dtb_xamot b' = dtb_xamot b.

Record con_same (c c' : consumer) : Prop := {
  cs_vars : c_vstate c' = c_vstate c \/ vs_same (c_vstate c) (c_vstate c');
  cs_buf : forall b', c_bufs c' !! pv_cpu = Some b' -> exists b, c_bufs c !! pv_cpu = Some b /\ same_place b b';
  cs_cred : c_cred c' = c_cred c;
  cs_reserve : c_reserve c' = c_reserve c
}.

Lemma con_same_refl c : con_same c c.
Proof. split; [by left| |done|done]. intros b Hb. by exists b. Qed.

Lemma con_same_trans c1 c2 c3 : con_same c1 c2 -> con_same c2 c3 -> con_same c1 c3.
Proof.
  intros [a1 a2 a3 a4] [b1 b2 b3 b4]. split; try congruence.
  - destruct a1 as [a1|a1], b1 as [b1|b1]; [left; congruence|right; by rewrite <- a1|right; by rewrite b1|right; by eapply vs_same_trans].
  - intros b Hb. destruct (b2 b Hb) as (b' & Hb' & p1 & p2 & p3). destruct (a2 b' Hb') as (b'' & Hb'' & q1 & q2 & q3). exists b''. split; [done|]. unfold same_place. split; [congruence|]. split; congruence.
Qed.

Lemma difo_con c c' dp : con_same c c' -> difo_ok (c_vstate c) dp -> difo_ok (c_vstate c') dp.
Proof. intros [[->|H] _ _ _]; [done|]. by apply difo_same. Qed.

Lemma owns_same c c' a : con_ok c -> con_same c c' -> owns c' a -> owns c a.
Proof.
  intros [kv _ _] [s1 s2 _ _] [(b' & Hb' & Ha)|Ha].
  - destruct (s2 b' Hb') as (b & Hb & p1 & p2 & p3). left. exists b. split; [done|]. unfold in_buf in *. by rewrite p1, p2, p3 in Ha.
  - right. destruct s1 as [<-|s1]; [done|]. by eapply writable_same.
Qed.

(** * Worlds *)

Record winv (x : pworld) : Prop := {
  wi_cons : forall s c, pw_cons x !! s = Some c -> con_ok c;
  wi_bytes : bytes_ok (pw_m x);
  wi_chill : 0 <= pw_chilled x < 2 ^ 62
}.

(** The consumers stay the same, and only memory of those in [S] is written. *)
Record calm (S : Z -> Prop) (x x' : pworld) : Prop := {
  cm_cons : forall t, option_Forall2 con_same (pw_cons x !! t) (pw_cons x' !! t);
  cm_mem : forall a, (forall t c, S t -> pw_cons x !! t = Some c -> ~ owns c a) -> m_mem (pw_m x') a = m_mem (pw_m x) a
}.

Definition fine_for (S : Z -> Prop) (x x' : pworld) : Prop := winv x' /\ calm S x x'.

(** The steps of one consumer. *)
Abbreviation fine s := (fine_for (eq s)).

Lemma calm_con S x x' t c : calm S x x' -> pw_cons x !! t = Some c -> exists c', pw_cons x' !! t = Some c' /\ con_same c c'.
Proof. intros [H _] Hc. specialize (H t). rewrite Hc in H. inversion H as [? c' Hs He|]. by exists c'. Qed.

Lemma same_cons x : forall t : Z, option_Forall2 con_same (pw_cons x !! t) (pw_cons x !! t).
Proof. intros t. destruct (pw_cons x !! t); constructor. apply con_same_refl. Qed.

Lemma calm_refl S x : calm S x x.
Proof. split; [apply same_cons|done]. Qed.

Lemma calm_trans S x y z : winv x -> calm S x y -> calm S y z -> calm S x z.
Proof.
  intros Hx [a1 a2] [b1 b2]. split.
  - intros t. specialize (a1 t). specialize (b1 t). destruct a1 as [c c1 H1|]; inversion b1 as [? c2 H2 He|]; constructor. by eapply con_same_trans.
  - intros a Ha. rewrite b2; [by apply a2|]. intros t c' HS Hc' Ho. specialize (a1 t). rewrite Hc' in a1. inversion a1 as [c ? Hs He|]. apply (Ha t c HS); [by rewrite <- He|]. eapply owns_same; [|exact Hs|done]. by eapply wi_cons.
Qed.

Lemma fine_sub (S S' : Z -> Prop) x x' : (forall t, S t -> S' t) -> fine_for S x x' -> fine_for S' x x'.
Proof. intros HS [H1 [H2 H3]]. split; [done|]. split; [done|]. intros a Ha. apply H3. intros t c Ht. by apply Ha, HS. Qed.

Lemma fine_refl S x : winv x -> fine_for S x x.
Proof. intros H. split; [done|apply calm_refl]. Qed.

Lemma fine_trans S x y z : winv x -> fine_for S x y -> fine_for S y z -> fine_for S x z.
Proof. intros Hx [_ H1] [H2 H3]. split; [done|]. by eapply calm_trans. Qed.

(** Steps one after the other. *)
Lemma fine_bind {A B} S (m : sprog pworld A) (f : A -> sprog pworld B) x (Q : A -> pworld -> Prop) (R : B -> pworld -> Prop) :
  winv x -> runs m x (fun a x' => fine_for S x x' /\ Q a x') -> (forall a x', fine_for S x x' -> Q a x' -> runs (f a) x' (fun b x2 => fine_for S x' x2 /\ R b x2)) ->
  runs (sbind m f) x (fun b x2 => fine_for S x x2 /\ R b x2).
Proof.
  intros Hx Hm Hf. eapply runs_bind; [exact Hm|]. intros a x1 [H1 HQ]. eapply runs_weaken; [by apply Hf|]. intros b x2 [H2 HR]. split; [|done]. by eapply fine_trans.
Qed.

Lemma fine_ret {A} S (a : A) x (R : A -> pworld -> Prop) : winv x -> R a x -> runs (sret a) x (fun b x2 => fine_for S x x2 /\ R b x2).
Proof. intros Hx HR. apply runs_ret. split; [by apply fine_refl|done]. Qed.

(** * Changes of the world *)

(** Thread, time and log. *)
Lemma fine_other S x x' : winv x -> pw_cons x' = pw_cons x -> pw_m x' = pw_m x -> 0 <= pw_chilled x' < 2 ^ 62 -> fine_for S x x'.
Proof. intros [w1 w2 w3] H1 H2 H3. split; [split; [by rewrite H1|by rewrite H2|done]|]. split; [|by rewrite H2]. rewrite H1. apply same_cons. Qed.

(** Memory of the consumer. *)
Lemma fine_mach s x c m' : winv x -> pw_cons x !! s = Some c -> bytes_ok m' -> (forall a, ~ owns c a -> m_mem m' a = m_mem (pw_m x) a) -> fine s x (set_mach m' x).
Proof. intros [w1 w2 w3] Hc Hb Hm. split; [by split|]. split; [apply (same_cons x)|]. intros a Ha. apply Hm. by apply (Ha s). Qed.

Lemma fine_wrote s x c m' dst len : winv x -> pw_cons x !! s = Some c -> only_wrote dst len (pw_m x) m' -> (forall a, dst <= a < dst + len -> owns c a) -> fine s x (set_mach m' x).
Proof.
  intros Hx Hc [Hb Hm] Ho. eapply fine_mach; [done|done|apply Hb, Hx|]. intros a Ha. apply Hm. intros Hin. by apply Ha, Ho.
Qed.

Lemma fine_flags S x f : winv x -> fine_for S x (set_mach (Mach (m_mem (pw_m x)) f (m_illval (pw_m x))) x).
Proof. intros [w1 w2 w3]. split; [by split|]. split; [apply (same_cons x)|done]. Qed.

(** The consumer itself. *)
Lemma fine_con s x c c' : winv x -> pw_cons x !! s = Some c -> con_ok c' -> con_same c c' -> fine s x (set_cons (<[s := c']> (pw_cons x)) x).
Proof.
  intros [w1 w2 w3] Hc Hok Hs. split; [split; try done|split; [|done]].
  - intros t d Hd. cbn in Hd. apply lookup_insert_Some in Hd as [[_ <-]|[_ Hd]]; [done|]. by eapply w1.
  - intros t. cbn. destruct (decide (t = s)) as [->|Hne]; [rewrite Hc, lookup_insert_eq; by constructor|]. rewrite lookup_insert_ne by done. apply same_cons.
Qed.

Lemma upd_con_run s f x c (R : unit -> pworld -> Prop) :
  winv x -> pw_cons x !! s = Some c -> con_ok (f c) -> con_same c (f c) -> R tt (set_cons (<[s := f c]> (pw_cons x)) x) -> runs (upd_con s f) x (fun u x' => fine s x x' /\ R u x').
Proof. intros Hx Hc Hok Hs HR. unfold upd_con, get_con. eapply bind_gets; [exact Hc|]. apply runs_puts. split; [by eapply fine_con|done]. Qed.

Lemma flags_run s f x (R : unit -> pworld -> Prop) : winv x -> R tt (set_mach (set_flag f (pw_m x)) x) -> runs (raise_flags f) x (fun u x' => fine s x x' /\ R u x').
Proof. intros Hx HR. apply runs_puts. split; [by apply fine_flags|done]. Qed.

Lemma erred_run s x : winv x -> runs erred x (fun b x' => fine s x x' /\ x' = x).
Proof. intros Hx. unfold erred, get_flags. eapply bind_gets; [reflexivity|]. apply runs_ret. split; [by apply fine_refl|done]. Qed.

Lemma fine_change s x x' c c' :
  winv x -> pw_cons x !! s = Some c -> pw_cons x' = <[s := c']> (pw_cons x) -> con_ok c' -> con_same c c' -> bytes_ok (pw_m x') -> (forall a, ~ owns c a -> m_mem (pw_m x') a = m_mem (pw_m x) a) ->
  pw_chilled x' = pw_chilled x -> fine s x x'.
Proof.
  intros [w1 w2 w3] Hc Hx' Hok Hs Hb Hm Hch. split; [split; [|done|by rewrite Hch]|split].
  - intros t d. rewrite Hx'. intros [[_ <-]|[_ Hd]]%lookup_insert_Some; [done|]. by eapply w1.
  - intros t. rewrite Hx'. destruct (decide (t = s)) as [->|Hne]; [rewrite Hc, lookup_insert_eq; by constructor|]. rewrite lookup_insert_ne by done. apply same_cons.
  - intros a Ha. apply Hm. by apply (Ha s).
Qed.

(** * Emulation *)

(** The scratch area is in the buffer of the consumer. *)
Definition ms_ok (c : consumer) (ms : dtrace_mstate) : Prop :=
  scratch_ok ms /\ exists b, c_bufs c !! pv_cpu = Some b /\ forall a, dtms_scratch_base ms <= a < dtms_scratch_base ms + dtms_scratch_size ms -> in_buf b a.

Lemma writable_owned c ms a : ms_ok c ms -> writable ms (c_vstate c) a -> owns c a.
Proof. intros [_ (b & Hb & H)] [Ha|Ha]; [left; exists b; split; [done|by apply H]|]. right. by right. Qed.

Lemma scratch_frame ms ms' : scratch_ok ms -> ms_frame ms ms' -> scratch_ok ms'.
Proof. intros [s1 s2 s3 s4] [f1 f2 f3 f4]. split; rewrite ?f1, ?f2; done. Qed.

Lemma ms_frame_ok c ms ms' : ms_ok c ms -> ms_frame ms ms' -> ms_ok c ms'.
Proof. intros [H1 H2] Hf. split; [by eapply scratch_frame|]. by rewrite (mf_base _ _ Hf), (mf_size _ _ Hf). Qed.

Lemma ms_later c c' ms : con_ok c' -> con_same c c' -> ms_ok c ms -> ms_ok c' ms.
Proof.
  intros [_ (b' & Hb' & _) _] [_ Hs _ _] [H1 (b & Hb & H2)]. split; [done|]. destruct (Hs b' Hb') as (b0 & Hb0 & p1 & p2 & p3). rewrite Hb in Hb0. injection Hb0 as <-. exists b'. split; [done|]. intros a Ha. unfold in_buf. rewrite p1, p2, p3. by apply H2.
Qed.

Lemma emulate_run s c dp ms x :
  winv x -> pw_cons x !! s = Some c -> difo_ok (c_vstate c) dp -> ms_ok c ms ->
  runs (emulate s dp ms) x (fun r x' => fine s x x' /\ is_u64 r.1 /\ ms_frame ms r.2 /\ exists vs, pw_cons x' !! s = Some (put_vstate vs c)).
Proof.
  intros Hx Hc [d1 d2 d3 (n1 & n2 & n3)] Hms. pose proof (wi_cons _ Hx s c Hc) as Hok. unfold emulate, get_con. eapply bind_gets; [exact Hc|].
  assert (Hem : emulation_ok env_ncpu dp pv_regs pv_tup ms (c_vstate c) (pw_m x)).
  { split; [apply vars_scratch; [apply Hok|apply Hms]|apply Hms|done|apply HE|apply HE|apply Hx|done]. }
  pose proof (emulate_post dp pv_regs pv_tup (th_predcache (pw_th x)) ms (c_vstate c) (pw_m x) Hem d1) as Hp.
  destruct (dtrace_dif_emulate dp pv_regs pv_tup (th_predcache (pw_th x)) ms (c_vstate c) (pw_m x)) as [[v st]| | |] eqn:Hrun; cbn [post] in Hp; [|done|by destruct Hp|done].
  destruct Hp as (Hv & _ & Hf & Hvs & Hmem & _ & Hb). eapply bind_gets; [by rewrite Hrun|]. cbn beta iota. unfold upd_con, get_con. apply bind_assoc. eapply bind_gets; [exact Hc|]. apply bind_puts. apply bind_puts. apply bind_puts. apply runs_ret.
  split; [|split; [exact Hv|split; [exact Hf|]]].
  - eapply (fine_change s x _ c (put_vstate (e_vs st) c)); [done|done|done| | |exact Hb| |done].
    + destruct Hok as [k1 k2 k3]. split; [|done|done]. by eapply vars_same.
    + split; [by right| |done|done]. intros b Hb'. by exists b.
    + intros a Ha. apply Hmem. intros Hw. by apply Ha, (writable_owned c ms a Hms).
  - exists (e_vs st). cbn. by rewrite lookup_insert_eq.
Qed.

(** * Reservation *)

Lemma padded_frame align b m mem' :
  linear_inv b -> only_padded align b (m_mem m) mem' -> bytes_ok m -> (forall a, is_u8 (mem' a)) /\ forall a, ~ dtb_tomax b <= a < dtb_tomax b + dtb_size b -> mem' a = m_mem m a.
Proof.
  intros [_ _ _ _ [Ho _]] (Hle & _ & Hm) Hb. split; intros a; specialize (Hm (a - dtb_tomax b)); rewrite Zplus_minus in Hm; rewrite Hm; destruct (_ && _) eqn:Ec; [by unfold is_u|apply Hb|intros Ha; lia|done].
Qed.

Lemma aligned_mod align b : linear_inv b -> Buffer.align_ok align -> aligned_offset align b mod 4 = 0 /\ 0 <= aligned_offset align b.
Proof.
  intros [_ _ _ _ [H1 H2]] Ha. unfold aligned_offset. pose proof (land_align align (dtb_offset b) Ha H2) as Hl. rewrite Hl. case_match; lia.
Qed.

(** What ECBs claim of the buffer. *)
Record claim_ok (e : dtrace_ecb) : Prop := {
  cl_align : Buffer.align_ok (dte_alignment e);
  cl_needed : 4 <= dte_needed e < 2 ^ 31;
  cl_size : 0 <= dte_size e <= dte_needed e /\ dte_size e mod 4 = 0 /\ (dte_size e = 0 \/ 4 <= dte_size e)
}.

Lemma reserved_ok c b ms ms' base size :
  c_bufs c !! pv_cpu = Some b -> 0 <= base -> 0 <= size -> base + size + 8 < 2 ^ 64 -> (forall a, base <= a < base + size -> in_buf b a) -> set_scratch base size (Some ms) = Some ms' -> ms_ok c ms'.
Proof.
  intros Hb H1 H2 H3 Hin [= <-]. split; [split; cbn; lia|]. by exists b.
Qed.

(** The outcome of a reservation: the buffer is as it was, and there is room for the record and a scratch area, or the offset is negative. *)
Definition reserved (s : Z) (c : consumer) (b : dtrace_buffer) (e : dtrace_ecb) (r : Z * option dtrace_mstate) (x' : pworld) : Prop :=
  exists c' b' ms', pw_cons x' !! s = Some c' /\ con_same c c' /\ c_bufs c' !! pv_cpu = Some b' /\ same_place b b' /\ dtb_offset b' = dtb_offset b /\ r.2 = Some ms' /\
    (r.1 < 0 \/ (0 <= r.1 /\ r.1 + dte_needed e <= dtb_size b' /\ r.1 mod 4 = 0 /\ ms_ok c' ms')).

Lemma reserve_any s c b e ms x rv :
  winv x -> pw_cons x !! s = Some c -> c_bufs c !! pv_cpu = Some b -> dtrace_buffer_reserve (buf_state_of c) (dte_needed e) (dte_alignment e) (Some ms) b (m_mem (pw_m x)) = Some rv ->
  pbuf_ok (c_reserve c) (rv_buf rv) -> same_place b (rv_buf rv) -> dtb_offset (rv_buf rv) = dtb_offset b -> (forall a, is_u8 (rv_mem rv a)) ->
  (forall a, ~ dtb_tomax b <= a < dtb_tomax b + dtb_size b -> rv_mem rv a = m_mem (pw_m x) a) ->
  (exists ms', rv_mstate rv = Some ms' /\ (rv_offs rv < 0 \/ (0 <= rv_offs rv /\ rv_offs rv + dte_needed e <= dtb_size b /\ rv_offs rv mod 4 = 0 /\
    forall c', c_bufs c' !! pv_cpu = Some (rv_buf rv) -> ms_ok c' ms'))) ->
  runs (reserve s Principal e (Some ms)) x (fun r x' => fine s x x' /\ reserved s c b e r x').
Proof.
  intros Hx Hc Hb Hrv Hpb Hsp Hoff Hby Hmem (ms' & Hms' & Hcase). pose proof (wi_cons _ Hx s c Hc) as [kv _ ka]. unfold reserve, get_con, get_buf, get_m. eapply bind_gets; [exact Hc|]. apply bind_assoc. eapply bind_gets; [exact Hc|].
  eapply bind_gets; [exact Hb|]. eapply bind_gets; [reflexivity|]. eapply bind_gets; [exact Hrv|]. unfold upd_con, get_con. apply bind_assoc. eapply bind_gets; [exact Hc|]. apply bind_puts. apply bind_puts. apply runs_ret. set (c' := put_buf Principal (rv_buf rv) c).
  assert (Hb' : c_bufs c' !! pv_cpu = Some (rv_buf rv)) by (cbn; rewrite list_lookup_insert_eq; [done|by eapply lookup_lt_Some]). assert (Hs : con_same c c'). { split; [by left| |done|done]. intros b1 Hb1. rewrite Hb' in Hb1. injection Hb1 as <-. by exists b. }
  split.
  - eapply (fine_change s x _ c c'); [done|done|done| |exact Hs|exact Hby| |done].
    + split; [done|exists (rv_buf rv); by split|done].
    + intros a Ha. apply Hmem. intros Hin. apply Ha. left. exists b. split; [done|by left].
  - exists c', (rv_buf rv), ms'. split; [cbn; by rewrite lookup_insert_eq|]. do 5 (split; [done|]). cbn [fst]. destruct Hsp as (_ & -> & _). destruct Hcase as [?|(?&?&?&Hm)]; [by left|right]. do 3 (split; [done|]). by apply Hm.
Qed.

Lemma reserve_run s c b e ms x :
  winv x -> pw_cons x !! s = Some c -> c_bufs c !! pv_cpu = Some b -> claim_ok e -> runs (reserve s Principal e (Some ms)) x (fun r x' => fine s x x' /\ reserved s c b e r x').
Proof.
  intros Hx Hc Hb [Hal Hn Hsz]. pose proof (wi_cons _ Hx s c Hc) as [_ (b0 & Hb0 & Hpb) _]. rewrite Hb in Hb0. injection Hb0 as <-. pose proof Hpb as [Hli Hres Htop Hxam]. pose proof Hli as [l1 l2 l3 [l4 l4'] l5].
  pose proof (reserve_linear (buf_state_of c) (dte_needed e) (dte_alignment e) (Some ms) b (m_mem (pw_m x)) Hli Hal Hres) as Hr. destruct (aligned_mod _ _ Hli Hal) as [Ham Ha0]. destruct (_ && _) in Hr.
  { eapply reserve_any; [done|done|done|exact Hr|done|done|done|apply Hx|done|]. exists ms. split; [done|left; cbn; lia]. }
  destruct Hr as (mem' & Hpad & Hr). cbv zeta in Hr. destruct (padded_frame _ _ _ _ Hli Hpad (wi_bytes _ Hx)) as [Hby Hmem]. pose proof Hpad as (Hle & _).
  set (limit := if has_flag b DTRACEBUF_FILL then dtb_size b - dts_reserve (buf_state_of c) else dtb_size b) in Hr. assert (Hlim : limit <= dtb_size b) by (unfold limit; change (dts_reserve (buf_state_of c)) with (c_reserve c); destruct (has_flag b DTRACEBUF_FILL); lia).
  destruct (Z.ltb_spec limit (aligned_offset (dte_alignment e) b + dte_needed e)) as [Hfull|Hroom].
  - assert (Hd : pbuf_ok (c_reserve c) (dtrace_buffer_drop b)) by (split; [|done..]; by split). assert (Hf : pbuf_ok (c_reserve c) (set_flags (Z.lor (dtb_flags b) DTRACEBUF_FULL) b)).
    { split; [|done..]. change DTRACEBUF_RING with (2 ^ 0) in *. change DTRACEBUF_INACTIVE with (2 ^ 8) in *. split; try done; change DTRACEBUF_FULL with (2 ^ 6); change DTRACEBUF_RING with (2 ^ 0); change DTRACEBUF_INACTIVE with (2 ^ 8); rewrite has_flag_set by lia; [by rewrite l1|by rewrite l2]. }
    eapply reserve_any; [done|done|done|exact Hr|destruct (has_flag b DTRACEBUF_FILL); done|destruct (has_flag b DTRACEBUF_FILL); done|destruct (has_flag b DTRACEBUF_FILL); done|exact Hby|exact Hmem|]. exists ms. split; [done|left; cbn; lia].
  - eapply reserve_any; [done|done|done|exact Hr|done|done|done|exact Hby|exact Hmem|]. cbn [rv_mstate rv_offs rv_buf]. destruct (has_flag b DTRACEBUF_FILL).
    + eexists. split; [reflexivity|]. right. do 2 (split; [lia|]). split; [done|]. intros c' Hc'. eapply (reserved_ok c' b ms _ (dtb_xamot b) (dtb_size b)); [done| | | | |reflexivity]; [lia..|]. intros a Ha. by right.
    + eexists. split; [reflexivity|]. right. do 2 (split; [lia|]). split; [done|]. intros c' Hc'. eapply (reserved_ok c' b ms _ (dtb_tomax b + (aligned_offset (dte_alignment e) b + dte_needed e)) (dtb_size b - (aligned_offset (dte_alignment e) b + dte_needed e))); [done| | | | |reflexivity]; [lia..|]. intros a Ha. left. lia.
Qed.

(** * Records *)

(** The record that is being written: its place, and the scratch area. *)
Definition ctx_ok (s : Z) (e : dtrace_ecb) (x : ctx) (w : pworld) : Prop :=
  exists c b, pw_cons w !! s = Some c /\ c_bufs c !! pv_cpu = Some b /\ x_buf x = Principal /\ x_committed x = false /\ x_tomax x = dtb_tomax b /\
    0 <= x_offs x /\ x_offs x + dte_needed e <= dtb_size b /\ x_offs x mod 4 = 0 /\ ms_ok c (x_ms x) /\ is_u64 (x_val x).

Lemma ctx_later s e x w w' : fine s w w' -> ctx_ok s e x w -> ctx_ok s e x w'.
Proof.
  intros [Hw' Hcalm] (c & b & Hc & Hb & H1 & H2 & H3 & H4 & H5 & H6 & H7 & H8). destruct (calm_con _ _ _ _ _ Hcalm Hc) as (c' & Hc' & Hs). pose proof (wi_cons _ Hw' s c' Hc') as Hok. pose proof Hok as [_ (b' & Hb' & _) _].
  destruct (cs_buf _ _ Hs b' Hb') as (b0 & Hb0 & p1 & p2 & p3). rewrite Hb in Hb0. injection Hb0 as <-. exists c', b'. rewrite p1, p2. do 8 (split; [done|]). split; [|done]. by eapply ms_later.
Qed.

Lemma ctx_con s e x w : ctx_ok s e x w -> exists c, pw_cons w !! s = Some c.
Proof. intros (c & b & Hc & _). by exists c. Qed.

Lemma ctx_ms s e x w ms v : ctx_ok s e x w -> ms_frame (x_ms x) ms -> is_u64 v -> ctx_ok s e (put_val ms v x) w.
Proof. intros (c & b & Hc & Hb & H1 & H2 & H3 & H4 & H5 & H6 & H7 & H8) Hf Hv. exists c, b. do 8 (split; [done|]). split; [|done]. by eapply ms_frame_ok. Qed.

Lemma ctx_val s e x w v : ctx_ok s e x w -> is_u64 v -> ctx_ok s e (put_val (x_ms x) v x) w.
Proof. intros Hx. apply ctx_ms; [done|]. destruct Hx as (_ & _ & _ & _ & _ & _ & _ & _ & _ & _ & [[_ _ _ Hp] _] & _). by split. Qed.

(** Bytes of the record are written. *)
Lemma rec_write s e x w f off len :
  winv w -> ctx_ok s e x w -> 0 <= off -> off + len <= dte_needed e -> only_wrote (x_tomax x + (x_offs x + off)) len (pw_m w) (f (pw_m w)) ->
  runs (upd_m f) w (fun _ w' => fine s w w' /\ ctx_ok s e x w').
Proof.
  intros Hw Hx Ho Hl Hf. assert (Hfine : fine s w (set_mach (f (pw_m w)) w)).
  { destruct Hx as (c & b & Hc & Hb & _ & _ & H3 & H4 & H5 & _). eapply fine_wrote; [done|exact Hc|exact Hf|]. intros a Ha. left. exists b. split; [done|]. left. lia. }
  apply runs_puts. split; [done|]. by eapply ctx_later.
Qed.

Lemma only_wrote_same dst len m1 m2 m3 : m_mem m2 = m_mem m1 -> only_wrote dst len m2 m3 -> only_wrote dst len m1 m3.
Proof. intros He. apply only_wrote_trans. by apply only_wrote_refl. Qed.

Lemma only_wrote_sub dst len dst' len' m m' : dst' <= dst -> dst + len <= dst' + len' -> only_wrote dst len m m' -> only_wrote dst' len' m m'.
Proof. intros H1 H2 [Hb Hm]. split; [done|]. intros a Ha. apply Hm. lia. Qed.

Lemma store_string_frame n : forall intuple c addr val m, is_u64 val ->
  let r := store_string env_platform n intuple c addr val m in only_wrote addr (Z.of_nat n) m r.2 /\ is_u64 r.1.
Proof.
  induction n as [|n IH]; intros intuple c addr val m Hv; cbn [store_string]; [split; [by apply only_wrote_refl|done]|]. cbv zeta.
  destruct (if c =? 0 then (c, val, m) else let '(c, m) := dtrace_load8 env_platform val m in (c, u64 (val + 1), m)) as [[c1 v1] m1] eqn:E1.
  assert (H1 : m_mem m1 = m_mem m /\ is_u64 v1).
  { destruct (c =? 0); [by injection E1 as <- <- <-|]. pose proof (load_mem env_platform 1 val m) as Hl. unfold dtrace_load8 in E1. destruct (dtrace_load env_platform 1 val m) as [c2 m2]. injection E1 as <- <- <-. split; [exact Hl|apply u64_range]. }
  destruct H1 as [Hm1 Hv1]. assert (Hs : only_wrote addr (Z.of_nat (S n)) m (store8 addr c1 m1)) by (eapply only_wrote_same; [exact Hm1|]; apply store8_only; lia).
  destruct (_ && _); [by split|]. destruct (IH intuple c1 (addr + 1) v1 (store8 addr c1 m1) Hv1) as [H2 H3]. split; [|done]. eapply only_wrote_trans; [exact Hs|]. eapply only_wrote_sub; [..|exact H2]; lia.
Qed.

Lemma store_bytes_frame n : forall addr val m, is_u64 val ->
  let r := store_bytes env_platform n addr val m in only_wrote addr (Z.of_nat n) m r.2 /\ is_u64 r.1.
Proof.
  induction n as [|n IH]; intros addr val m Hv; cbn [store_bytes]; [split; [by apply only_wrote_refl|done]|]. cbv zeta. pose proof (load_mem env_platform 1 val m) as Hl. unfold dtrace_load8. destruct (dtrace_load env_platform 1 val m) as [c1 m1]. cbn in Hl.
  destruct (IH (addr + 1) (u64 (val + 1)) (store8 addr c1 m1) (u64_range _)) as [H2 H3]. split; [|done]. eapply only_wrote_same; [exact Hl|]. eapply only_wrote_trans; [apply (store8_only addr c1 addr (Z.of_nat (S n)) m1); lia|]. eapply only_wrote_sub; [..|exact H2]; lia.
Qed.

Definition rec_fits (e : dtrace_ecb) (a : pact) : Prop := 0 <= rec_offset (pa_act a) /\ 0 <= rec_size (pa_act a) /\ rec_offset (pa_act a) + rec_size (pa_act a) <= dte_needed e.

(** The outcome of an action. *)
Definition goes_on (s : Z) (e : dtrace_ecb) (w : pworld) (x : ctx) (w' : pworld) : Prop := fine s w w' /\ ctx_ok s e x w'.

Lemma goes_bind {A} s e (m : sprog pworld A) (f : A -> sprog pworld ctx) w (Q : A -> pworld -> Prop) :
  winv w -> runs m w (fun a w' => fine s w w' /\ Q a w') -> (forall a w', fine s w w' -> Q a w' -> runs (f a) w' (goes_on s e w')) -> runs (sbind m f) w (goes_on s e w).
Proof. intros Hw Hm Hf. by eapply fine_bind. Qed.

Lemma goes_ret s e x w : winv w -> ctx_ok s e x w -> runs (sret x) w (goes_on s e w).
Proof. intros Hw Hx. apply runs_ret. split; [by apply fine_refl|done]. Qed.

Lemma store_value_run s e a dp x w :
  winv w -> ctx_ok s e x w -> rec_fits e a -> (byref (dtdo_rtype dp) = false -> rec_size (pa_act a) ∈ [0; 1; 2; 4; 8]) -> runs (store_value s a dp x) w (goes_on s e w).
Proof.
  intros Hw Hx (Ho & Hz & Hfit) Hsz. unfold store_value. set (addr := x_tomax x + (x_offs x + rec_offset (pa_act a))). destruct (byref (dtdo_rtype dp)).
  - pose proof Hx as (c & b & Hc & _ & _ & _ & _ & _ & _ & _ & _ & Hv). unfold get_con. eapply bind_gets; [exact Hc|]. pose proof (k_vars _ (wi_cons _ Hw s c Hc)) as Hvars.
    destruct (vcanload_total env_platform (x_val x) (dtdo_rtype dp) (x_ms x) (c_vstate c) (pw_m w)) as (ok & m1 & Hl & Hm1); [apply Hvars|]. eapply bind_gets; [exact Hl|]. cbn beta iota.
    eapply (goes_bind _ _ _ _ _ (fun _ w1 => ctx_ok s e x w1 /\ pw_m w1 = m1)); [done| |].
    { apply runs_puts. assert (Hf : fine s w (set_mach m1 w)) by (eapply fine_mach; [done|exact Hc|unfold bytes_ok; rewrite Hm1; apply Hw|intros ? _; by rewrite Hm1]). split; [done|]. split; [by eapply ctx_later|done]. }
    intros _ w1 Hf1 [Hx1 Hpm]. destruct ok; cbn [negb]; [|by apply goes_ret; [apply Hf1|]].
    set (r := if dtdt_kind (dtdo_rtype dp) =? DIF_TYPE_STRING then store_string env_platform (Z.to_nat (rec_size (pa_act a))) (dta_intuple (pa_act a)) 1 addr (x_val x) m1 else store_bytes env_platform (Z.to_nat (rec_size (pa_act a))) addr (x_val x) m1).
    assert (Hr : only_wrote addr (rec_size (pa_act a)) m1 r.2 /\ is_u64 r.1). { rewrite <- (Z2Nat.id (rec_size (pa_act a))) by done. unfold r. destruct (_ =? _); [by apply store_string_frame|by apply store_bytes_frame]. }
    clearbody r. destruct r as [v m2]. cbn [fst snd] in Hr. destruct Hr as [Hr Hv2]. eapply goes_bind; [apply Hf1| |].
    + eapply (rec_write s e x w1 (fun _ => m2) (rec_offset (pa_act a)) (rec_size (pa_act a))); [apply Hf1|done|done|lia|]. rewrite Hpm. exact Hr.
    + cbn beta. intros _ w2 Hf2 Hx2. apply goes_ret; [apply Hf2|]. by apply ctx_val.
  - specialize (Hsz eq_refl). destruct (Z.eqb_spec (rec_size (pa_act a)) 0); [by apply goes_ret|]. apply bind_assert; [rewrite !elem_of_cons, elem_of_nil in Hsz; lia|]. eapply goes_bind; [done| |].
    + eapply (rec_write s e x w _ (rec_offset (pa_act a)) (rec_size (pa_act a))); [done|done|done|lia|]. apply write_le_only; [lia|]. rewrite Z2Nat.id by done. lia.
    + cbn beta. intros _ w2 Hf2 Hx2. apply goes_ret; [apply Hf2|done].
Qed.

(** * Programs that return *)

(** [m] returns, and only memory of [s] is written. *)
Definition quiet {A} (s : Z) (m : sprog pworld A) (w : pworld) : Prop := runs m w (fun _ w' => fine s w w').

Lemma quiet_bind {A B} s (m : sprog pworld A) (f : A -> sprog pworld B) w :
  winv w -> quiet s m w -> (forall a w', fine s w w' -> quiet s (f a) w') -> quiet s (sbind m f) w.
Proof. intros Hw Hm Hf. eapply runs_bind; [exact Hm|]. intros a w1 H1. eapply runs_weaken; [by apply Hf|]. intros b w2 H2. eapply fine_trans; [exact Hw|exact H1|exact H2]. Qed.

Lemma quiet_ret {A} s (a : A) w : winv w -> quiet s (sret a) w.
Proof. intros Hw. apply runs_ret. by apply fine_refl. Qed.

Lemma quiet_if {A} s (b : bool) (m n : sprog pworld A) w : quiet s m w -> quiet s n w -> quiet s (if b then m else n) w.
Proof. by destruct b. Qed.

Lemma quiet_puts s g w : winv w -> pw_cons (g w) = pw_cons w -> pw_m (g w) = pw_m w -> 0 <= pw_chilled (g w) < 2 ^ 62 -> quiet s (sputs g) w.
Proof. intros Hw H1 H2 H3. apply runs_puts. by apply fine_other. Qed.

Lemma quiet_flags s f w : winv w -> quiet s (raise_flags f) w.
Proof. intros Hw. apply runs_puts. by apply fine_flags. Qed.

Lemma quiet_gets {A B} s (g : pworld -> option A) (f : A -> sprog pworld B) w a : g w = Some a -> quiet s (f a) w -> quiet s (sbind (sgets g) f) w.
Proof. apply bind_gets. Qed.

Lemma quiet_ask s r w : winv w -> r <> None -> quiet s (ask r) w.
Proof. intros Hw Hr. destruct r as [[b f]|]; [|done]. cbn [ask]. apply quiet_bind; [done|by apply quiet_flags|]. intros _ w' Hf. apply quiet_ret, Hf. Qed.

Lemma quiet_log s ev w : winv w -> quiet s (sputs (add_event s ev)) w.
Proof. intros Hw. apply quiet_puts; try done. apply Hw. Qed.

Lemma quiet_th s f w : winv w -> quiet s (upd_th f) w.
Proof. intros Hw. apply quiet_puts; try done. apply Hw. Qed.

Lemma quiet_con s f w c : winv w -> pw_cons w !! s = Some c -> con_ok (f c) -> con_same c (f c) -> quiet s (upd_con s f) w.
Proof. intros Hw Hc H1 H2. eapply runs_weaken; [by apply (upd_con_run s f w c (fun _ _ => True))|]. by intros ? ? [? _]. Qed.

Lemma goes_quiet {A} s e (m : sprog pworld A) w x : winv w -> ctx_ok s e x w -> quiet s m w -> runs (m ~; sret x) w (goes_on s e w).
Proof.
  intros Hw Hx Hm. eapply runs_bind; [exact Hm|]. intros a w1 H1. apply runs_ret. split; [done|]. exact (ctx_later s e x w w1 H1 Hx).
Qed.

(** * Destructive actions *)

Lemma quiet_stop s w : winv w -> quiet s (dtrace_action_stop s) w.
Proof.
  intros Hw. unfold dtrace_action_stop. apply quiet_if; [by apply quiet_ret|]. eapply quiet_gets; [reflexivity|]. apply quiet_if; [by apply quiet_ret|]. apply quiet_bind; [done|by apply quiet_th|]. intros _ w1 H1. apply quiet_log, H1.
Qed.

Lemma quiet_raise s sig w : winv w -> quiet s (dtrace_action_raise s sig) w.
Proof.
  intros Hw. unfold dtrace_action_raise. apply quiet_if; [by apply quiet_ret|]. apply quiet_if; [by apply quiet_flags|]. apply quiet_bind; [done|by apply quiet_th|]. intros _ w1 H1. apply quiet_log, H1.
Qed.

Lemma quiet_breakpoint s e w : winv w -> quiet s (dtrace_action_breakpoint s e) w.
Proof. intros Hw. unfold dtrace_action_breakpoint. apply quiet_if; [by apply quiet_ret|by apply quiet_log]. Qed.

Lemma quiet_panic s e w : winv w -> quiet s (dtrace_action_panic s e) w.
Proof.
  intros Hw. unfold dtrace_action_panic. apply quiet_if; [by apply quiet_ret|]. eapply quiet_gets; [reflexivity|]. apply quiet_if; [by apply quiet_ret|]. apply quiet_bind; [done|apply quiet_puts; [done..|apply Hw]|]. intros _ w1 H1. apply quiet_log, H1.
Qed.

Lemma clock_run {B} s (f : Z -> sprog pworld B) w (R : B -> pworld -> Prop) :
  winv w -> runs (f (pv_clock (pw_reads w))) (set_reads (S (pw_reads w)) w) (fun b w' => fine s (set_reads (S (pw_reads w)) w) w' /\ R b w') -> runs (sbind gethrtime f) w (fun b w' => fine s w w' /\ R b w').
Proof.
  intros Hw Hf. unfold gethrtime. apply bind_assoc. eapply bind_gets; [reflexivity|]. apply bind_assoc. apply bind_puts. apply bind_ret. eapply runs_weaken; [exact Hf|]. intros b w' [H' HR]. split; [|done]. apply (fine_trans _ w (set_reads (S (pw_reads w)) w) w'); [done|apply fine_other; [done..|apply Hw]|exact H'].
Qed.

(** The busy wait ends when the clock has gone far enough. *)
Lemma spin_run s now val : forall fuel k w, winv w -> (k < fuel)%nat -> val <= s64 (pv_clock (pw_reads w + k) - now) -> runs (spin fuel now val) w (fun _ w' => fine s w w' /\ pw_chilled w' = pw_chilled w).
Proof.
  induction fuel as [|fuel IH]; intros k w Hw Hk Hv; [lia|]. cbn [spin]. apply clock_run; [done|]. assert (Hw' : winv (set_reads (S (pw_reads w)) w)) by (destruct Hw; by split).
  destruct (Z.ltb_spec (s64 (pv_clock (pw_reads w) - now)) val) as [Hlt|Hge]; [|apply runs_ret; split; [by apply fine_refl|done]]. destruct k as [|k]; [rewrite Nat.add_0_r in Hv; lia|]. apply (IH k (set_reads (S (pw_reads w)) w)); [done|lia|]. cbn [pw_reads set_reads]. by rewrite Nat.add_succ_l, <- Nat.add_succ_r.
Qed.

(** What chill() may add. *)
Lemma chill_bounds chilled val : 0 <= chilled < 2 ^ 62 -> - 2 ^ 63 <= val < 2 ^ 63 -> (dtrace_chill_max <? s64 (chilled + val)) || (s64 (chilled + val) <? chilled) = false -> 0 <= val <= dtrace_chill_max /\ 0 <= s64 (chilled + val) < 2 ^ 62.
Proof.
  intros Hc Hv Hb. apply orb_false_iff in Hb as [H1 H2]. apply Z.ltb_ge in H1, H2. pose proof chill_max_ok as Hm. destruct (decide (chilled + val < 2 ^ 63)) as [Hlt|Hge].
  - rewrite s64_id in * by lia. lia.
  - exfalso. unfold s64, u64 in *. zcase; lia.
Qed.

Lemma chill_run s ms val w : winv w -> - 2 ^ 63 <= val < 2 ^ 63 -> runs (dtrace_action_chill s ms val) w (fun ms' w' => fine s w w' /\ exists p, ms' = set_present p ms).
Proof.
  intros Hw Hv. assert (Hms : exists p, ms = set_present p ms) by (exists (dtms_present ms); by destruct ms). unfold dtrace_action_chill. destruct pv_disallow; [apply runs_ret; split; [by apply fine_refl|done]|]. unfold gethrtime. apply bind_assoc. eapply bind_gets; [reflexivity|]. apply bind_assoc. apply bind_puts. apply bind_ret. apply bind_puts.
  set (w1 := if _ <? _ then _ else _). assert (H1 : fine s w w1 /\ pw_reads w1 = S (pw_reads w)).
  { unfold w1. destruct (_ <? _); (split; [apply fine_other; [done..|]|done]); [done|apply Hw]. }
  destruct H1 as [H1 Hr]. clearbody w1. pose proof (proj1 H1) as Hw1. eapply bind_gets; [reflexivity|]. destruct (_ || _) eqn:Hb.
  - eapply runs_bind; [apply (quiet_flags s); apply Hw1|]. intros u w2 H2. apply runs_ret. split; [by eapply fine_trans|done].
  - destruct (chill_bounds _ _ (wi_chill _ Hw1) Hv Hb) as [Hval Hch]. destruct (clock_ok (pw_reads w)) as (k & Hk & Hclk). eapply runs_bind; [apply (spin_run s _ _ _ k); [done|done|rewrite Hr; lia]|]. intros u w2 [H2 Hc2]. apply bind_puts. apply bind_puts. apply runs_ret.
    split; [|by eexists]. eapply fine_trans; [done|exact H1|]. eapply fine_trans; [done|exact H2|]. apply fine_other; [apply H2|done|done|]. cbn. by rewrite Hc2.
Qed.

(** * Actions *)

(** The kinds that evaluate no expression; those that evaluate one, without the actions on speculations. *)
Definition plain_kinds : list Z := [DTRACEACT_STOP; DTRACEACT_BREAKPOINT; DTRACEACT_PANIC; DTRACEACT_STACK; DTRACEACT_JSTACK; DTRACEACT_USTACK].
Definition value_kinds : list Z :=
  [DTRACEACT_CHILL; DTRACEACT_RAISE; DTRACEACT_DIFEXPR; DTRACEACT_LIBACT; DTRACEACT_PRINTF; DTRACEACT_PRINTA; DTRACEACT_SYSTEM; DTRACEACT_FREOPEN;
   DTRACEACT_SYM; DTRACEACT_MOD; DTRACEACT_USYM; DTRACEACT_UMOD; DTRACEACT_UADDR; DTRACEACT_EXIT].

(** The action [k] of the ECB: its record lies in the room that is reserved, its expression may be run. *)
Record act_ok (vs : dtrace_vstate) (e : pecb) (k : nat) (a : pact) : Prop := {
  ao_fits : rec_fits (pe_ecb e) a;
  ao_kind : DTRACEACT_ISAGG (dta_kind (pa_act a)) = true \/ dta_kind (pa_act a) ∈ plain_kinds ++ value_kinds;
  ao_difo : forall dp, pa_difo a = Some dp -> difo_ok vs dp;
  ao_expr : dta_kind (pa_act a) ∈ value_kinds -> exists dp, pa_difo a = Some dp /\ (byref (dtdo_rtype dp) = false -> rec_size (pa_act a) ∈ [0; 1; 2; 4; 8]);
  ao_stack : dta_kind (pa_act a) = DTRACEACT_JSTACK \/ dta_kind (pa_act a) = DTRACEACT_USTACK -> exists arg, dtrd_arg (dta_rec (pa_act a)) = inl arg /\
    DTRACE_USTACK_NFRAMES arg + 1 < 2 ^ 31 /\ DTRACE_USTACK_STRSIZE arg + (DTRACE_USTACK_NFRAMES arg + 1) * 8 <= rec_size (pa_act a);
  ao_agg : DTRACEACT_ISAGG (dta_kind (pa_act a)) = true -> exists g, dta_agg (pa_act a) = Some g /\
    agg_ok (agg_of (isstr_in (pe_acts e)) (map pa_act (pe_acts e)) k (pa_act a) g)
}.

(** The consumer has a credential to compare with, or needs none. *)
Definition cred_ok (cr : dtrace_cred_t) (cond : Z) : Prop :=
  dcr_cred cr <> None \/
  (has (dcr_action cr) DTRACE_CRA_PROC_DESTRUCTIVE_ALLZONE = true /\ has (dcr_action cr) DTRACE_CRA_PROC_DESTRUCTIVE_ALLUSER = true /\
   has cond DTRACE_COND_OWNER = false /\ has cond DTRACE_COND_ZONEOWNER = false).

Lemma destructive_known cr cond t : cred_ok cr cond -> dtrace_priv_proc_destructive cr t <> None.
Proof.
  intros [H|(H1 & H2 & _)]; unfold dtrace_priv_proc_destructive.
  - unfold dtrace_priv_proc_common_zone, dtrace_priv_proc_common_user. destruct (dcr_cred cr) as [c|]; [|done]. repeat (case_match; try done).
  - rewrite H1, H2. by case_match.
Qed.

Lemma act_con c c' e k a : con_same c c' -> act_ok (c_vstate c) e k a -> act_ok (c_vstate c') e k a.
Proof. intros Hs [a1 a2 a3 a4 a5 a6]. split; try done. intros dp Hdp. eapply difo_con; [exact Hs|by apply a3]. Qed.

Lemma quiet_exit s w c : winv w -> pw_cons w !! s = Some c -> quiet s (fire_exit s) w.
Proof.
  intros Hw Hc. unfold fire_exit, get_con. eapply quiet_gets; [exact Hc|]. apply quiet_if; [by apply quiet_ret|]. apply quiet_if.
  - apply quiet_bind; [done| |intros _ w1 H1; apply quiet_ret, H1]. destruct (wi_cons _ Hw s c Hc) as [k1 k2 k3]. eapply quiet_con; [done|exact Hc|by split|]. split; [by left| |done|done]. intros b Hb. by exists b.
  - apply quiet_bind; [done|by apply quiet_flags|]. intros _ w1 H1. apply quiet_ret, H1.
Qed.

Lemma bytes_of_length mem a n : 0 <= n -> Z.of_nat (length (bytes_of mem a n)) = n.
Proof. intros Hn. unfold bytes_of. rewrite length_map, length_seq. lia. Qed.

(** dtrace_aggregate() is called with the bytes of the record. *)
Lemma call_aggregate_run s (agg : dtrace_aggregation) addr v val w c ab :
  winv w -> pw_cons w !! s = Some c -> c_aggbufs c !! pv_cpu = Some ab -> agg_ok agg -> is_u64 v -> 0 <= dtag_size agg ->
  quiet s (call_aggregate s agg (bytes_of (m_mem (pw_m w)) addr (dtag_size agg)) v val ab) w.
Proof.
  unfold call_aggregate. intros Hw Hc Hab Hok Hv Hsz. pose proof (wi_cons _ Hw s c Hc) as [k1 k2 (ab0 & Hab0 & Hinv)]. rewrite Hab in Hab0. injection Hab0 as <-.
  destruct (dtrace_aggregate_spec agg (bytes_of (m_mem (pw_m w)) addr (dtag_size agg)) v val Hok (bytes_of_length _ _ _ Hsz) Hv ab Hinv) as (ab' & ill & Hr & Hinv' & _). eapply quiet_gets; [exact Hr|]. cbn beta iota. apply quiet_bind; [done| |].
  - eapply quiet_con; [done|exact Hc| |].
    + split; [done|done|]. exists ab'. split; [|done]. cbn. rewrite list_lookup_insert_eq; [done|by eapply lookup_lt_Some].
    + split; [by left| |done|done]. intros b Hb. by exists b.
  - intros _ w1 H1. apply quiet_if; [apply quiet_flags, H1|apply quiet_ret, H1].
Qed.

(** A step that keeps the record, then the next. *)
Lemma goes_then {A} s e (m : sprog pworld A) (f : A -> sprog pworld ctx) w x :
  winv w -> ctx_ok s e x w -> quiet s m w -> (forall a w', fine s w w' -> ctx_ok s e x w' -> runs (f a) w' (goes_on s e w')) -> runs (sbind m f) w (goes_on s e w).
Proof.
  intros Hw Hx Hm Hf. eapply (goes_bind _ _ _ _ _ (fun _ w' => ctx_ok s e x w')); [done| |exact Hf]. eapply runs_weaken; [exact Hm|]. intros a w' H. split; [done|exact (ctx_later s e x w w' H Hx)].
Qed.

(** An expression is evaluated. *)
Lemma goes_emulate s e dp x w c :
  winv w -> ctx_ok s e x w -> pw_cons w !! s = Some c -> difo_ok (c_vstate c) dp ->
  runs (emulate s dp (x_ms x)) w (fun r w' => fine s w w' /\ is_u64 r.1 /\ ms_frame (x_ms x) r.2 /\ ctx_ok s e x w' /\ exists c', pw_cons w' !! s = Some c' /\ con_same c c').
Proof.
  intros Hw Hx Hc Hdp. assert (Hms : ms_ok c (x_ms x)). { destruct Hx as (c0 & b & Hc0 & _ & _ & _ & _ & _ & _ & _ & Hms & _). rewrite Hc in Hc0. by injection Hc0 as <-. }
  eapply runs_weaken; [by apply (emulate_run s c dp (x_ms x) w)|]. intros r w' (Hf & Hv & Hfr & _). do 3 (split; [done|]). split; [exact (ctx_later s e x w w' Hf Hx)|]. eapply calm_con; [apply Hf|done].
Qed.

Lemma goes_erred {A} (s : Z) (f : bool -> sprog pworld A) w (Q : A -> pworld -> Prop) : winv w -> (forall b, runs (f b) w Q) -> runs (sbind erred f) w Q.
Proof. intros Hw Hf. eapply runs_bind; [by apply (erred_run s)|]. intros b w' [_ ->]. apply Hf. Qed.

Lemma ctx_put s e x w ms : ctx_ok s e x w -> ms_frame (x_ms x) ms -> ctx_ok s e (put_ms ms x) w.
Proof. intros Hx Hf. apply (ctx_ms s e x w ms (x_val x)); [done|done|]. by destruct Hx as (_ & _ & _ & _ & _ & _ & _ & _ & _ & _ & _ & Hv). Qed.

Lemma ctx_refl s e x w : ctx_ok s e x w -> ms_frame (x_ms x) (x_ms x).
Proof. intros (_ & _ & _ & _ & _ & _ & _ & _ & _ & _ & [[_ _ _ Hp] _] & _). by split. Qed.

Lemma fire_agg_run s e k a x w c :
  winv w -> ctx_ok s (pe_ecb e) x w -> pw_cons w !! s = Some c -> act_ok (c_vstate c) e k a -> DTRACEACT_ISAGG (dta_kind (pa_act a)) = true -> runs (fire_agg s (pe_acts e) k a x) w (goes_on s (pe_ecb e) w).
Proof.
  intros Hw Hx Hc [_ _ Hdifo _ _ Hagg] Hk. destruct (Hagg Hk) as (g & Hg & Hok). unfold fire_agg.
  eapply (goes_bind _ _ _ _ _ (fun r w' => is_u64 r.1 /\ ms_frame (x_ms x) r.2 /\ ctx_ok s (pe_ecb e) x w')); [done| |].
  { destruct (pa_difo a) as [dp|]; [|apply runs_ret; split; [by apply fine_refl|]; split; [done|split; [by eapply ctx_refl|done]]].
    eapply runs_weaken; [by apply (goes_emulate s (pe_ecb e) dp x w c); [..|apply Hdifo]|]. by intros r w' (H1 & H2 & H3 & H4 & _). }
  intros [v ms] w1 Hf1 (Hv & Hfr & Hx1). cbn [fst snd] in *. pose proof (proj1 Hf1) as Hw1. apply (goes_erred s); [done|]. intros [|]; [by apply goes_ret; [|apply ctx_put]|].
  eapply bind_gets; [exact Hg|]. pose proof Hx1 as (c1 & b1 & Hc1 & Hb1 & Hbuf & _). unfold get_buf, get_con, get_m. rewrite Hbuf. apply bind_assoc. eapply bind_gets; [exact Hc1|]. eapply bind_gets; [exact Hb1|]. eapply bind_gets; [exact Hc1|].
  destruct (k_agg _ (wi_cons _ Hw1 s c1 Hc1)) as (ab & Hab & _). eapply bind_gets; [exact Hab|]. eapply bind_gets; [reflexivity|]. eapply goes_then; [done|by apply (ctx_put s (pe_ecb e) x w1 ms)| |].
  - eapply call_aggregate_run; [done|exact Hc1|exact Hab|exact Hok|exact Hv|]. pose proof (acts_from_le 4 _ _ ltac:(lia) (ok_acts _ Hok)). lia.
  - intros _ w2 H2 Hx2. apply goes_ret; [apply H2|done].
Qed.

(** Bytes of the record are written, and flags set. *)
Lemma quiet_write s e x w f off len :
  winv w -> ctx_ok s e x w -> 0 <= off -> off + len <= dte_needed e -> only_wrote (x_tomax x + (x_offs x + off)) len (pw_m w) (f (pw_m w)) -> quiet s (upd_m f) w.
Proof. intros Hw Hx Ho Hl Hf. eapply runs_weaken; [by eapply (rec_write s e x w f off len)|]. by intros ? ? [? _]. Qed.

Lemma quiet_stack s e p arg0 k a x w vs : winv w -> ctx_ok s (pe_ecb e) x w -> act_ok vs e k a -> quiet s (fire_stack p arg0 a x) w.
Proof.
  intros Hw Hx [(Ho & Hz & Hfit) _ _ _ _ _]. unfold fire_stack. assert (8 * (rec_size (pa_act a) / 8) <= rec_size (pa_act a)) by (apply Z.mul_div_le; lia). eapply quiet_write; [done|exact Hx|exact Ho| |apply getpcstack_ok]. lia.
Qed.

Lemma ustack_slow s e x w c arg off size :
  winv w -> ctx_ok s e x w -> pw_cons w !! s = Some c -> 0 <= off -> off + size <= dte_needed e -> DTRACE_USTACK_STRSIZE arg + (DTRACE_USTACK_NFRAMES arg + 1) * 8 <= size ->
  quiet s (upd_m (fun _ => (dtrace_action_ustack (x_ms x) (x_tomax x + (x_offs x + off)) arg (pw_m w)).2)) w.
Proof.
  intros Hw Hx Hc Ho Hfit Hsz. pose proof Hx as (c0 & b & Hc0 & Hb & _ & _ & Ht & H0 & Hn & _ & Hms & _). rewrite Hc in Hc0. injection Hc0 as <-. apply runs_puts.
  destruct (ustack_ok (x_ms x) (x_tomax x + (x_offs x + off)) arg (pw_m w) (wi_bytes _ Hw)) as [Hby Hmem]. eapply fine_mach; [done|exact Hc|exact Hby|]. intros a Ha. apply Hmem.
  - intros Hin. apply Ha. left. exists b. split; [done|]. left. lia.
  - intros Hin. destruct Hms as [_ (b' & Hb' & Hscr)]. apply Ha. left. exists b'. split; [done|by apply Hscr].
Qed.

Lemma s32_id x : - 2 ^ 31 <= x < 2 ^ 31 -> s32 x = x.
Proof. word. Qed.

Lemma quiet_ustack s e p k a x w c :
  winv w -> ctx_ok s (pe_ecb e) x w -> pw_cons w !! s = Some c -> act_ok (c_vstate c) e k a -> dta_kind (pa_act a) = DTRACEACT_JSTACK \/ dta_kind (pa_act a) = DTRACEACT_USTACK -> quiet s (fire_ustack s p a x) w.
Proof.
  intros Hw Hx Hc [(Ho & Hz & Hfit) _ _ _ Hstack _] Hk. destruct (Hstack Hk) as (arg & Harg & Hn & Hsz). assert (0 <= DTRACE_USTACK_NFRAMES arg /\ 0 <= DTRACE_USTACK_STRSIZE arg) as [Hn0 Hs0] by (split; apply u32_range).
  unfold fire_ustack. eapply quiet_gets; [by rewrite Harg|]. cbn beta iota zeta. rewrite s32_id by lia. apply quiet_if; [|apply quiet_if].
  - eapply quiet_write; [done|exact Hx|exact Ho|exact Hfit|]. apply bzero_only. lia.
  - unfold get_m. eapply quiet_gets; [reflexivity|]. cbn beta iota. pose proof (ustack_slow s (pe_ecb e) x w c arg _ _ Hw Hx Hc Ho Hfit Hsz) as Hslow. destruct (dtrace_action_ustack _ _ _ _) as [over m]. cbn [snd] in Hslow. apply quiet_bind; [done|exact Hslow|].
    intros _ w1 H1. destruct (calm_con _ _ _ _ _ (proj2 H1) Hc) as (c1 & Hc1 & _). apply quiet_if; [|apply quiet_ret, H1]. destruct (wi_cons _ (proj1 H1) s c1 Hc1) as [k1 k2 k3]. eapply quiet_con; [apply H1|exact Hc1|by split|]. split; [by left| |done|done]. intros b Hb. by exists b.
  - eapply (quiet_write s (pe_ecb e) x w _ (rec_offset (pa_act a)) (8 * (DTRACE_USTACK_NFRAMES arg + 1))); [done|exact Hx|exact Ho|lia|]. eapply (only_wrote_same _ _ _ (set_flag CPU_DTRACE_NOFAULT (pw_m w))); [done|]. destruct (getupcstack_ok (x_tomax x + (x_offs x + rec_offset (pa_act a))) (DTRACE_USTACK_NFRAMES arg + 1) (set_flag CPU_DTRACE_NOFAULT (pw_m w))) as [Hb Hm]. by split.
Qed.

Lemma get_cred {B} s (f : dtrace_cred_t -> sprog pworld B) w c Q : pw_cons w !! s = Some c -> runs (f (c_cred c)) w Q -> runs (cred <~ sgets (fun w => c_cred <$> pw_cons w !! s); f cred) w Q.
Proof. intros Hc Hf. eapply bind_gets; [by rewrite Hc|done]. Qed.

(** The actions without expression: no result for the others. *)
Lemma fire_plain_run s e p arg0 k a x w c cond :
  winv w -> ctx_ok s (pe_ecb e) x w -> pw_cons w !! s = Some c -> cred_ok (c_cred c) cond -> act_ok (c_vstate c) e k a ->
  runs (fire_plain s p arg0 (pe_ecb e) a x) w (fun r w' => fine s w w' /\ (r = None -> dta_kind (pa_act a) ∉ plain_kinds)).
Proof.
  intros Hw Hx Hc Hcr Ha. unfold fire_plain. eapply get_cred; [exact Hc|]. cbv zeta.
  assert (Hq : forall m : sprog pworld unit, (forall w', fine s w w' -> quiet s m w') -> forall r, r <> None -> runs (ok <~ ask r; (if ok : bool then m else sret tt) ~; sret (Some tt)) w (fun r w' => fine s w w' /\ (r = None -> dta_kind (pa_act a) ∉ plain_kinds))).
  { intros m Hm r Hr. destruct r as [[b f]|]; [|done]. apply bind_assoc. eapply runs_bind; [apply (quiet_flags s f w Hw)|]. intros u w1 H1. apply bind_ret. eapply runs_bind; [apply (quiet_if s b m (sret tt) w1); [by apply Hm|apply quiet_ret, H1]|]. intros u2 w2 H2. apply runs_ret. split; [|done]. exact (fine_trans _ w w1 w2 Hw H1 H2). }
  assert (Hctx : forall w', fine s w w' -> ctx_ok s (pe_ecb e) x w') by (intros w' H; exact (ctx_later s (pe_ecb e) x w w' H Hx)).
  repeat match goal with |- runs (if ?kind =? ?n then _ else _) _ _ => destruct (Z.eqb_spec kind n) as [?|?] end.
  - apply Hq; [|by eapply destructive_known]. intros w' H. apply quiet_stop, H.
  - apply Hq; [|done]. intros w' H. apply quiet_breakpoint, H.
  - apply Hq; [|done]. intros w' H. apply quiet_panic, H.
  - apply Hq; [|done]. intros w' H. eapply quiet_stack; [apply H|by apply Hctx|exact Ha].
  - destruct (_ || _) eqn:Hk.
    + apply Hq; [|done]. intros w' H. destruct (calm_con _ _ _ _ _ (proj2 H) Hc) as (c' & Hc' & Hs). eapply quiet_ustack; [apply H|by apply Hctx|exact Hc'|by eapply act_con|]. apply orb_true_iff in Hk as [Hk|Hk]; apply Z.eqb_eq in Hk; tauto.
    + apply runs_ret. split; [by apply fine_refl|]. intros _. apply orb_false_iff in Hk as [H1 H2]. apply Z.eqb_neq in H1, H2. unfold plain_kinds. rewrite !elem_of_cons, elem_of_nil. tauto.
Qed.

Lemma present_frame s e x w p : ctx_ok s e x w -> ms_frame (x_ms x) (set_present p (x_ms x)).
Proof. intros Hx. by destruct (ctx_refl s e x w Hx). Qed.

(** A question about privileges, then a step that keeps the record. *)
Lemma goes_ask s e r (f : bool -> sprog pworld ctx) x w :
  winv w -> ctx_ok s e x w -> r <> None -> (forall b w', fine s w w' -> ctx_ok s e x w' -> runs (f b) w' (goes_on s e w')) -> runs (sbind (ask r) f) w (goes_on s e w).
Proof. intros Hw Hx Hr Hf. eapply goes_then; [done|exact Hx|by apply quiet_ask|exact Hf]. Qed.

Lemma fire_value_run s e a dp x w c cond :
  winv w -> ctx_ok s e x w -> pw_cons w !! s = Some c -> cred_ok (c_cred c) cond -> dta_kind (pa_act a) ∈ value_kinds -> rec_fits e a ->
  (byref (dtdo_rtype dp) = false -> rec_size (pa_act a) ∈ [0; 1; 2; 4; 8]) -> runs (fire_value s e a dp x) w (goes_on s e w).
Proof.
  intros Hw Hx Hc Hcr Hk Hfit Hsz. assert (Hst : forall w', fine s w w' -> ctx_ok s e x w' -> runs (store_value s a dp x) w' (goes_on s e w')) by (intros w' H Hx'; by apply store_value_run; [apply H|..]).
  assert (Hret : forall w', fine s w w' -> ctx_ok s e x w' -> runs (sret x) w' (goes_on s e w')) by (intros w' H Hx'; apply goes_ret; [apply H|done]). pose proof (fine_refl (eq s) w Hw) as H0.
  unfold fire_value. eapply get_cred; [exact Hc|]. cbv zeta. set (kind := dta_kind (pa_act a)) in *. clearbody kind. unfold value_kinds in Hk. rewrite !elem_of_cons, elem_of_nil in Hk.
  repeat match goal with |- runs (if ?kind =? ?n then _ else _) _ _ => destruct (Z.eqb_spec kind n) as [->|?]; [try (exfalso; clear -Hk; repeat destruct Hk as [Hk|Hk]; (discriminate Hk || done))|] end.
  - apply (goes_ask s e _ _ x); [done|done|done|]. intros [] w1 H1 Hx1; [|by apply Hret]. eapply goes_bind; [apply H1|apply chill_run; [apply H1|apply s64_range]|]. intros ms w2 H2 [p ->]. apply goes_ret; [apply H2|]. pose proof (ctx_later s e x w1 w2 H2 Hx1) as Hx2. by eapply ctx_put, present_frame.
  - apply (goes_ask s e _ _ x); [done|done|by eapply destructive_known|]. intros ok w1 H1 Hx1. apply goes_quiet; [apply H1|done|]. apply quiet_if; [apply quiet_raise, H1|apply quiet_ret, H1].
  - destruct (recorded kind) eqn:Hrec; [by apply Hst|]. unfold recorded in Hrec. match goal with |- runs (if ?b then _ else _) _ _ => destruct b eqn:? end; [|match goal with |- runs (if ?b then _ else _) _ _ => destruct b eqn:? end].
    + apply (goes_ask s e _ _ x); [done|done|done|]. intros [] w1 H1 Hx1; [by apply Hst|by apply Hret].
    + by apply Hret.
    + destruct (Z.eqb_spec kind DTRACEACT_EXIT) as [->|?]; [|exfalso; rewrite !orb_false_iff, !Z.eqb_neq in *; tauto]. eapply goes_then; [done|exact Hx|by eapply quiet_exit|]. intros [] w1 H1 Hx1; [by apply Hst|by apply Hret].
Qed.

Lemma kinds_apart a : dta_kind a ∈ plain_kinds ++ value_kinds -> DTRACEACT_ISAGG (dta_kind a) = false.
Proof. generalize (dta_kind a). by apply Forall_forall, (bool_decide_unpack (Forall (fun k => DTRACEACT_ISAGG k = false) (plain_kinds ++ value_kinds))). Qed.

Lemma fire_action_run s e p arg0 k a x w c cond :
  winv w -> ctx_ok s (pe_ecb e) x w -> pw_cons w !! s = Some c -> cred_ok (c_cred c) cond -> act_ok (c_vstate c) e k a -> runs (fire_action s p arg0 e k a x) w (goes_on s (pe_ecb e) w).
Proof.
  intros Hw Hx Hc Hcr Ha. unfold fire_action. destruct (DTRACEACT_ISAGG _) eqn:Hagg; [by eapply fire_agg_run|]. eapply goes_bind; [done|by eapply fire_plain_run|]. intros r w1 H1 Hr. pose proof (ctx_later s (pe_ecb e) x w w1 H1 Hx) as Hx1. destruct r as [[]|]; [apply goes_ret; [apply H1|done]|].
  specialize (Hr eq_refl). destruct (ao_kind _ _ _ _ Ha) as [Hk|Hk]; [congruence|]. apply elem_of_app in Hk as [?|Hk]; [done|]. destruct (calm_con _ _ _ _ _ (proj2 H1) Hc) as (c1 & Hc1 & Hs1). pose proof (act_con _ _ e k a Hs1 Ha) as Ha1.
  destruct (ao_expr _ _ _ _ Ha Hk) as (dp & Hdp & Hsz). eapply bind_gets; [exact Hdp|]. eapply goes_bind; [apply H1|eapply goes_emulate; [apply H1|exact Hx1|exact Hc1|by apply (ao_difo _ _ _ _ Ha1)]|].
  intros [v ms] w2 H2 (Hv & Hfr & Hx2 & c2 & Hc2 & Hs2). cbn [fst snd] in *. pose proof (ctx_ms s (pe_ecb e) x w2 ms v Hx2 Hfr Hv) as Hx3. apply (goes_erred s); [apply H2|]. intros [|]; [apply goes_ret; [apply H2|done]|].
  eapply fire_value_run; [apply H2|done|exact Hc2|rewrite (cs_cred _ _ Hs2), (cs_cred _ _ Hs1); exact Hcr|done|apply Ha|done].
Qed.

Lemma fire_actions_run s e p arg0 cond acts : forall k x w c,
  winv w -> ctx_ok s (pe_ecb e) x w -> pw_cons w !! s = Some c -> cred_ok (c_cred c) cond -> (forall i a, acts !! i = Some a -> act_ok (c_vstate c) e (k + i) a) ->
  runs (fire_actions s p arg0 e k acts x) w (fun r w' => fine s w w' /\ ctx_ok s (pe_ecb e) r.2 w').
Proof.
  induction acts as [|a acts IH]; intros k x w c Hw Hx Hc Hcr Ha; cbn [fire_actions]; (apply (goes_erred s); [done|]; intros [|]; [apply runs_ret; split; [by apply fine_refl|done]|]); [apply runs_ret; split; [by apply fine_refl|done]|].
  eapply (fine_bind _ _ _ _ (fun x' w' => ctx_ok s (pe_ecb e) x' w')); [done| |].
  - eapply fire_action_run; [done|exact Hx|exact Hc|exact Hcr|]. specialize (Ha 0%nat a eq_refl). by rewrite Nat.add_0_r in Ha.
  - intros x' w1 H1 Hx1. destruct (calm_con _ _ _ _ _ (proj2 H1) Hc) as (c1 & Hc1 & Hs1). eapply (IH (S k)); [apply H1|done|exact Hc1|by rewrite (cs_cred _ _ Hs1)|]. intros i b Hb. eapply act_con; [exact Hs1|]. rewrite Nat.add_succ_l, <- Nat.add_succ_r. by apply Ha.
Qed.

(** * ECBs *)

(** The EPID is stored in the record. *)
Lemma store_epid_run s e offs ms w c b :
  winv w -> pw_cons w !! s = Some c -> c_bufs c !! pv_cpu = Some b -> claim_ok e -> 0 <= offs -> offs + dte_needed e <= dtb_size b -> offs mod 4 = 0 -> ms_ok c ms ->
  runs (store_epid s Principal e offs) w (fun tomax w' => fine s w w' /\ forall ms', ms_frame ms ms' -> ctx_ok s e (Ctx ms' Principal offs tomax 0 false) w').
Proof.
  intros Hw Hc Hb [_ Hn (Hz & _ & Hz4)] Ho Hfit H4 Hms. pose proof (wi_cons _ Hw s c Hc) as [_ (b0 & Hb0 & [Hli _ _ _]) _]. rewrite Hb in Hb0. injection Hb0 as <-. unfold store_epid, get_buf, get_con. apply bind_assoc. eapply bind_gets; [exact Hc|]. eapply bind_gets; [exact Hb|].
  apply bind_assert; [pose proof (li_tomax _ Hli); lia|]. assert (Hctx : forall ms', ms_frame ms ms' -> ctx_ok s e (Ctx ms' Principal offs (dtb_tomax b) 0 false) w).
  { intros ms' Hf. exists c, b. do 8 (split; [done|]). split; [|done]. by eapply ms_frame_ok. }
  eapply runs_bind; [|intros u w1 H1; apply runs_ret; split; [exact H1|]; intros ms' Hf; by eapply ctx_later; [exact H1|apply Hctx]]. change (quiet s (if dte_size e =? 0 then sret tt else upd_m (write_le (dtb_tomax b + offs) (dte_epid e) 4)) w). destruct (Z.eqb_spec (dte_size e) 0); [by apply quiet_ret|].
  apply (quiet_write s e (Ctx ms Principal offs (dtb_tomax b) 0 false) w _ 0 4); [done| |lia|lia|].
  - apply Hctx. destruct Hms as [[_ _ _ Hp] _]. by split.
  - cbn [x_tomax x_offs]. apply write_le_only; lia.
Qed.

Lemma sees_total p arg0 e c : p_id p <> dtrace_probeid_begin -> cred_ok (c_cred c) (dte_cond e) -> sees p arg0 e c <> None.
Proof.
  intros Hid Hcr. unfold sees. rewrite (proj2 (Z.eqb_neq _ _) Hid), andb_false_r. cbn [andb]. repeat case_match; try done; unfold dtrace_priv_proc_common_user, dtrace_priv_proc_common_zone in *; destruct Hcr as [Hcr|(_ & _ & Hown & Hzone)]; (destruct (dcr_cred (c_cred c)); done) || congruence.
Qed.

Lemma quiet_activity s n w c : winv w -> pw_cons w !! s = Some c -> quiet s (upd_con s (put_activity n)) w.
Proof. intros Hw Hc. destruct (wi_cons _ Hw s c Hc) as [k1 k2 k3]. eapply quiet_con; [done|exact Hc|by split|]. split; [by left| |done|done]. intros b Hb. by exists b. Qed.

Lemma quiet_deadman s now c w : winv w -> pw_cons w !! s = Some c -> quiet s (deadman s now c) w.
Proof.
  intros Hw Hc. unfold deadman. apply quiet_if; [|by apply quiet_ret]. apply quiet_bind; [done|by apply quiet_ask|]. intros ok w1 H1. destruct (calm_con _ _ _ _ _ (proj2 H1) Hc) as (c1 & Hc1 & _). apply quiet_if; [|apply quiet_ret, H1]. apply quiet_bind; [apply H1|eapply quiet_activity; [apply H1|exact Hc1]|]. intros _ w2 H2. apply quiet_ret, H2.
Qed.

(** An ECB that a consumer may have on the probe. *)
Record ecb_ok (p : probe) (c : consumer) (e : pecb) : Prop := {
  eo_claim : claim_ok (pe_ecb e);
  eo_cred : cred_ok (c_cred c) (dte_cond (pe_ecb e));
  eo_pred : forall dp id, pe_pred e = Some (dp, id) -> difo_ok (c_vstate c) dp /\ (p_predcache p = DTRACE_CACHEIDNONE \/ p_predcache p = id);
  eo_acts : forall i a, pe_acts e !! i = Some a -> act_ok (c_vstate c) e i a
}.

Lemma ecb_con p c c' e : con_same c c' -> ecb_ok p c e -> ecb_ok p c' e.
Proof.
  intros Hs [e1 e2 e3 e4]. split; [done|by rewrite (cs_cred _ _ Hs)| |].
  - intros dp id Hp. destruct (e3 dp id Hp) as [H1 H2]. split; [by eapply difo_con|done].
  - intros i a Ha. eapply act_con; [exact Hs|by apply e4].
Qed.

Lemma fire_pred_run s p e ms w c :
  winv w -> pw_cons w !! s = Some c -> ecb_ok p c e -> ms_ok c ms -> runs (fire_pred s p e ms) w (fun r w' => fine s w w' /\ ms_frame ms r.2).
Proof.
  intros Hw Hc [_ _ Hpred _] Hms. assert (Hrefl : ms_frame ms ms) by (destruct Hms as [[_ _ _ Hp] _]; by split). unfold fire_pred. destruct (pe_pred e) as [[dp id]|]; [|apply runs_ret; split; [by apply fine_refl|done]]. destruct (Hpred dp id eq_refl) as [Hdp Hid].
  eapply (fine_bind _ _ _ _ (fun r w' => ms_frame ms r.2)); [done|eapply runs_weaken; [by apply (emulate_run s c dp ms w)|]; by intros r w' (H & _ & H2 & _)|]. intros [v ms'] w1 H1 Hfr. cbn [snd] in Hfr. apply (goes_erred s); [apply H1|]. intros err.
  destruct (negb err && _); [|apply runs_ret; split; [apply fine_refl, H1|done]]. eapply (fine_bind _ _ _ _ (fun _ _ => True)); [apply H1| |intros _ w2 H2 _; apply runs_ret; split; [apply fine_refl, H2|done]].
  destruct (negb _ && _) eqn:Hc1; [|apply runs_ret; split; [apply fine_refl, H1|done]]. apply andb_true_iff in Hc1 as [Hc1 _]. apply negb_true_iff, Z.eqb_neq in Hc1. apply bind_assert; [destruct Hid as [?| ->]; [done|apply Z.eqb_refl]|].
  eapply runs_weaken; [apply (quiet_th s), H1|]. by intros ? ? ?.
Qed.

(** The buffer is changed, but neither where it is nor its flags. *)
Lemma quiet_buf s f w c b :
  winv w -> pw_cons w !! s = Some c -> c_bufs c !! pv_cpu = Some b -> pbuf_ok (c_reserve c) (f b) -> same_place b (f b) -> quiet s (upd_buf s Principal f) w.
Proof.
  intros Hw Hc Hb Hok Hsp. destruct (wi_cons _ Hw s c Hc) as [k1 _ k3]. unfold upd_buf, get_buf, get_con. apply bind_assoc. eapply bind_gets; [exact Hc|]. eapply bind_gets; [exact Hb|]. assert (Hl : <[pv_cpu := f b]> (c_bufs c) !! pv_cpu = Some (f b)) by (rewrite list_lookup_insert_eq; [done|by eapply lookup_lt_Some]). eapply quiet_con; [done|exact Hc| |].
  - split; [done|by exists (f b)|done].
  - split; [by left| |done|done]. cbn. intros b' Hb'. rewrite Hl in Hb'. injection Hb' as <-. by exists b.
Qed.

Definition watched (p : probe) (w : pworld) : Prop :=
  p_id p <> dtrace_probeid_begin /\ forall e, e ∈ p_ecbs p -> exists c, pw_cons w !! dte_state (pe_ecb e) = Some c /\ ecb_ok p c e.

Lemma watched_later S p w w' : fine_for S w w' -> watched p w -> watched p w'.
Proof.
  intros [_ Hcalm] [Hid H]. split; [done|]. intros e He. destruct (H e He) as (c & Hc & Hok). destruct (calm_con _ _ _ _ _ Hcalm Hc) as (c' & Hc' & Hs). exists c'. split; [done|by eapply ecb_con].
Qed.

Section Error.
Context (error : Z -> sprog pworld unit) (p : probe).
Context (Herror : p_id p <> p_id dtrace_error_probe -> forall s w, winv w -> watched dtrace_error_probe w -> quiet s (error s) w).

Lemma quiet_finish s e n x w :
  winv w -> watched dtrace_error_probe w -> claim_ok e -> ctx_ok s e x w -> quiet s (finish_ecb error s p e n x) w.
Proof.
  intros Hw Hwe [_ _ (Hz & Hz4 & _)] Hx. pose proof Hx as (c & b & Hc & Hb & Hbuf & Hcom & _ & Ho & Hfit & Hmod & _). destruct (wi_cons _ Hw s c Hc) as [_ (b0 & Hb0 & Hpb) _]. rewrite Hb in Hb0. injection Hb0 as <-. pose proof Hpb as [[l1 l2 l3 l4 l5] Hr Htop Hxam].
  unfold finish_ecb, get_flags. eapply quiet_gets; [reflexivity|]. rewrite Hbuf, Hcom. apply quiet_if; [by apply quiet_ret|]. apply quiet_if.
  - apply quiet_bind; [done|eapply quiet_buf; [done|exact Hc|exact Hb|split; [by split|done..]|done]|]. intros _ w1 H1. destruct (calm_con _ _ _ _ _ (proj2 H1) Hc) as (c1 & Hc1 & _). destruct (Z.eqb_spec (p_id p) (p_id dtrace_error_probe)) as [|Hne].
    + destruct (wi_cons _ (proj1 H1) s c1 Hc1) as [k1 k2 k3]. eapply quiet_con; [apply H1|exact Hc1|by split|]. split; [by left| |done|done]. intros b1 Hb1. by exists b1.
    + apply quiet_bind; [apply H1|apply quiet_if; [apply quiet_th, H1|apply quiet_ret, H1]|]. intros _ w2 H2. apply quiet_bind; [apply H2|apply quiet_log, H2|]. intros _ w3 H3. apply Herror; [done|apply H3|]. by eapply watched_later, watched_later, watched_later.
  - eapply quiet_buf; [done|exact Hc|exact Hb| |done]. split; [|done..]. split; try done. cbn. split; [lia|]. rewrite Z.add_mod, Hmod, Hz4 by done. done.
Qed.

(** The consumers that may see the firing. *)
Definition concerned (arg0 t : Z) : Prop := (exists e, e ∈ p_ecbs p /\ dte_state (pe_ecb e) = t) /\ (p_provider p = dtrace_provider -> t = arg0).

Lemma sees_concerned arg0 e c : e ∈ p_ecbs p -> sees p arg0 (pe_ecb e) c = Some true -> concerned arg0 (dte_state (pe_ecb e)).
Proof.
  intros He Hs. split; [by exists e|]. intros Hp. unfold sees in Hs. rewrite (proj2 (Z.eqb_eq _ _) Hp) in Hs. destruct (Z.eqb_spec arg0 (dte_state (pe_ecb e))); [done|discriminate].
Qed.

(** A result that is looked at before the next steps. *)
Lemma quiet_then {A B} s (m : sprog pworld A) (f : A -> sprog pworld B) w (Q : A -> pworld -> Prop) :
  winv w -> runs m w (fun a w' => fine s w w' /\ Q a w') -> (forall a w', fine s w w' -> Q a w' -> quiet s (f a) w') -> quiet s (sbind m f) w.
Proof. intros Hw Hm Hf. eapply runs_bind; [exact Hm|]. intros a w1 [H1 HQ]. eapply runs_weaken; [by apply Hf|]. intros b w2 H2. exact (fine_trans _ w w1 w2 Hw H1 H2). Qed.

(** An ECB whose record has been given room. *)
Lemma quiet_reserved arg0 e c0 offs ms w c b :
  winv w -> watched dtrace_error_probe w -> pw_cons w !! dte_state (pe_ecb e) = Some c -> ecb_ok p c e -> c_bufs c !! pv_cpu = Some b ->
  0 <= offs -> offs + dte_needed (pe_ecb e) <= dtb_size b -> offs mod 4 = 0 -> ms_ok c ms -> quiet (dte_state (pe_ecb e)) (fire_reserved error p arg0 e c0 offs ms) w.
Proof.
  intros Hw Herr Hc Hok Hb Ho Hfit Hmod Hms. unfold fire_reserved. cbv zeta. set (s := dte_state (pe_ecb e)) in *. set (ms1 := set_access _ _). assert (Hms1 : ms_ok c ms1) by (destruct Hms as [[m1 m2 m3 m4] Hm]; by split). clearbody ms1.
  eapply quiet_then; [done|eapply (store_epid_run s (pe_ecb e) offs ms1 w c b); try done; apply Hok|]. intros tomax w1 H1 Hctx. destruct (calm_con _ _ _ _ _ (proj2 H1) Hc) as (c1 & Hc1 & Hs1). pose proof (ecb_con p c c1 e Hs1 Hok) as Hok1.
  eapply quiet_then; [apply H1|eapply fire_pred_run; [apply H1|exact Hc1|exact Hok1|]|].
  { eapply ms_later; [by eapply wi_cons; [apply H1|]|exact Hs1|exact Hms1]. }
  intros [go ms2] w2 H2 Hfr. cbn [snd] in Hfr. destruct (calm_con _ _ _ _ _ (proj2 H2) Hc1) as (c2 & Hc2 & Hs2). pose proof (ecb_con p c1 c2 e Hs2 Hok1) as Hok2. apply quiet_if; [apply quiet_ret, H2|].
  eapply quiet_then; [apply H2|eapply fire_actions_run; [apply H2|eapply ctx_later; [exact H2|by apply Hctx]|exact Hc2|apply Hok2|apply Hok2]|]. intros [n x] w3 H3 Hx. cbn [snd] in Hx.
  apply quiet_bind; [apply H3| |intros _ w4 H4; apply quiet_ret, H4]. apply quiet_finish; [apply H3| |apply Hok|exact Hx]. by eapply watched_later, watched_later, watched_later.
Qed.

(** An ECB that sees the firing. *)
Lemma quiet_seen arg0 now e ms w c :
  winv w -> watched dtrace_error_probe w -> pw_cons w !! dte_state (pe_ecb e) = Some c -> ecb_ok p c e -> quiet (dte_state (pe_ecb e)) (fire_seen error p arg0 now e c ms) w.
Proof.
  intros Hw Herr Hc Hok. set (s := dte_state (pe_ecb e)) in *. unfold fire_seen. fold s. apply quiet_bind; [done|by apply quiet_deadman|]. intros dead w1 H1. apply quiet_if; [apply quiet_ret, H1|].
  destruct (calm_con _ _ _ _ _ (proj2 H1) Hc) as (c1 & Hc1 & Hs1). destruct (k_buf _ (wi_cons _ (proj1 H1) s c1 Hc1)) as (b1 & Hb1 & _). eapply quiet_then; [apply H1|eapply (reserve_run s c1 b1 (pe_ecb e) ms w1); [apply H1|exact Hc1|exact Hb1|apply Hok]|].
  intros [offs oms] w2 H2 (c2 & b2 & ms2 & Hc2 & Hs2 & Hb2 & _ & _ & Hms & Hcase). cbn [fst snd] in *. subst oms. destruct (Z.ltb_spec offs 0) as [Hneg|Hpos]; [apply quiet_ret, H2|]. destruct Hcase as [?|(Ho & Hfit & Hmod & Hmok)]; [lia|].
  eapply quiet_reserved; [apply H2|by eapply watched_later, watched_later|exact Hc2|eapply ecb_con; [exact Hs2|by eapply ecb_con]|exact Hb2|done..].
Qed.

Lemma fire_ecb_run arg0 now e ms w :
  winv w -> watched p w -> watched dtrace_error_probe w -> e ∈ p_ecbs p -> runs (fire_ecb error p arg0 now e ms) w (fun _ w' => fine_for (concerned arg0) w w').
Proof.
  intros Hw Hp Herr He. unfold fire_ecb. cbv zeta. apply bind_puts. set (w1 := set_mach _ _). assert (H1 : forall S, fine_for S w w1) by (intros S; by apply fine_flags). clearbody w1. destruct (proj2 (watched_later _ _ _ _ (H1 (fun _ => True)) Hp) e He) as (c & Hc & Hok). unfold get_con. eapply bind_gets; [exact Hc|].
  destruct (sees p arg0 (pe_ecb e) c) as [b|] eqn:Hs; [|by apply sees_total in Hs; [|apply Hp|apply Hok]]. eapply bind_gets; [reflexivity|]. destruct b; cbn [negb]; [|by apply runs_ret].
  eapply runs_weaken; [eapply quiet_seen; [apply (H1 (fun _ => True))|exact (watched_later _ _ _ _ (H1 (fun _ => True)) Herr)|exact Hc|exact Hok]|]. intros u w2 H2. eapply fine_trans; [done|apply H1|]. eapply fine_sub; [|exact H2]. intros t <-. by eapply sees_concerned.
Qed.

Lemma fire_ecbs_run arg0 now : forall es ms w,
  winv w -> watched p w -> watched dtrace_error_probe w -> (forall e, e ∈ es -> e ∈ p_ecbs p) -> runs (fire_ecbs error p arg0 now es ms) w (fun _ w' => fine_for (concerned arg0) w w').
Proof.
  induction es as [|e es IH]; intros ms w Hw Hp Herr Hin; cbn [fire_ecbs]; [by apply runs_ret, fine_refl|]. eapply runs_bind; [apply (fire_ecb_run arg0 now e ms w); [done..|apply Hin; set_solver]|].
  intros ms1 w1 H1. cbn beta in H1. eapply runs_weaken; [apply IH; [apply H1|by eapply watched_later..|set_solver]|]. intros u w2 H2. exact (fine_trans _ w w1 w2 Hw H1 H2).
Qed.
End Error.

(** * Probes *)

(** The head and the tail of dtrace_probe(). *)
Lemma dtrace_probe_run fuel p arg0 w :
  winv w -> watched p w -> watched dtrace_error_probe w -> (p_id p <> p_id dtrace_error_probe -> forall s w, winv w -> watched dtrace_error_probe w -> quiet s (dtrace_probe fuel dtrace_error_probe s) w) ->
  runs (dtrace_probe (S fuel) p arg0) w (fun _ w' => fine_for (concerned p arg0) w w').
Proof.
  intros Hw Hp Herr He. cbn [dtrace_probe]. eapply bind_gets; [reflexivity|]. destruct (_ && _); [by apply runs_ret, fine_refl|]. destruct pv_quiesce; [by apply runs_ret, fine_refl|]. unfold gethrtime at 1. apply bind_assoc. eapply bind_gets; [reflexivity|]. apply bind_assoc. apply bind_puts. apply bind_ret.
  eapply (runs_bind _ _ _ (fun _ w1 => fine_for (concerned p arg0) w w1)); [destruct pv_vtime; [apply runs_puts|apply runs_ret]; apply fine_other; try done; apply Hw|]. intros u w1 H1. cbn beta in H1. eapply runs_bind; [apply (fire_ecbs_run (dtrace_probe fuel dtrace_error_probe)); [exact He|apply H1|by eapply watched_later..|done]|].
  intros u2 w2 H2. pose proof (fine_trans _ w w1 w2 Hw H1 H2) as H3. destruct pv_vtime; [|by apply runs_ret]. unfold gethrtime. apply bind_assoc. eapply bind_gets; [reflexivity|]. apply bind_assoc. apply bind_puts. apply bind_ret. apply runs_puts. eapply fine_trans; [done|exact H3|]. apply fine_other; try done; apply H3.
Qed.

Lemma error_probe_run fuel s w : p_provider dtrace_error_probe = dtrace_provider -> winv w -> watched dtrace_error_probe w -> quiet s (dtrace_probe (S fuel) dtrace_error_probe s) w.
Proof.
  intros Hprov Hw Herr. eapply runs_weaken; [by apply dtrace_probe_run|]. intros u w' H. eapply fine_sub; [|exact H]. intros t [_ Ht]. by rewrite Ht.
Qed.

(** Every firing ends; the ERROR probe fires at most once for an ECB. *)
Lemma probe_run fuel p arg0 w :
  p_provider dtrace_error_probe = dtrace_provider -> winv w -> watched p w -> watched dtrace_error_probe w -> runs (dtrace_probe (S (S fuel)) p arg0) w (fun _ w' => fine_for (concerned p arg0) w w').
Proof. intros Hprov Hw Hp Herr. apply dtrace_probe_run; [done..|]. intros _ s w'. by apply error_probe_run. Qed.
End Total.
