(* ===== verification/Firing.v ===== *)
(** The promises of dtrace_probe(), with a system of two consumers as an example. *)
From S2P Require Import Prelude StateProg Dif SafeMem DifValidate DifEmulate DifSafety DifObject Aggregate Buffer Speculation Match Probes Dof Ecb EcbLayout Privilege Dispatch DispatchSafe DispatchTotal.
From stdpp Require Import gmap list.
#[local] Open Scope Z_scope.
#[local] Open Scope sprog_scope.

(** * The depth of the recursion *)

Section Depth.
Context {E : probe_env}.

Lemma bind_ext {X A B} (m : sprog X A) (f g : A -> sprog X B) x : (forall a y, f a y = g a y) -> sbind m f x = sbind m g x.
Proof. intros H. unfold sbind. destruct (m x) as [[a y]|]; [apply H|done]. Qed.

Section Same.
Context (error error' : Z -> sprog pworld unit) (p : probe).
Context (Hsame : p_id p <> p_id dtrace_error_probe -> forall s x, error s x = error' s x).

Lemma finish_ext s e n c x : finish_ecb error s p e n c x = finish_ecb error' s p e n c x.
Proof.
  unfold finish_ecb. apply bind_ext. intros flags y. destruct (has flags _); [done|]. destruct (has flags _); [|done]. apply bind_ext. intros _ y1. destruct (Z.eqb_spec (p_id p) (p_id dtrace_error_probe)); [done|]. apply bind_ext. intros _ y2. apply bind_ext. intros _ y3. by apply Hsame.
Qed.

Lemma fire_ecb_ext arg0 now e ms x : fire_ecb error p arg0 now e ms x = fire_ecb error' p arg0 now e ms x.
Proof.
  unfold fire_ecb, fire_seen, fire_reserved. cbv zeta. do 3 (apply bind_ext; intros ? ?). destruct (negb _); [done|]. apply bind_ext. intros dead ?. destruct dead; [done|]. apply bind_ext. intros [offs oms] ?. destruct (offs <? 0); [done|].
  apply bind_ext. intros tomax ?. apply bind_ext. intros [go ms'] ?. destruct (negb go); [done|]. apply bind_ext. intros [n c] ?. unfold sbind. by rewrite finish_ext.
Qed.

Lemma fire_ecbs_ext arg0 now es : forall ms x, fire_ecbs error p arg0 now es ms x = fire_ecbs error' p arg0 now es ms x.
Proof. induction es as [|e es IH]; intros ms x; cbn [fire_ecbs]; [done|]. unfold sbind. rewrite fire_ecb_ext. destruct (fire_ecb _ _ _ _ _ _ _) as [[ms' y]|]; [apply IH|done]. Qed.
End Same.

Lemma dtrace_probe_ext n n' p arg0 x :
  (p_id p <> p_id dtrace_error_probe -> forall s y, dtrace_probe n dtrace_error_probe s y = dtrace_probe n' dtrace_error_probe s y) -> dtrace_probe (S n) p arg0 x = dtrace_probe (S n') p arg0 x.
Proof.
  intros H. cbn [dtrace_probe]. apply bind_ext. intros cache y. destruct (_ && _); [done|]. destruct pv_quiesce; [done|]. do 2 (apply bind_ext; intros ? ?). unfold sbind. rewrite (fire_ecbs_ext _ (dtrace_probe n' dtrace_error_probe)); done.
Qed.
End Depth.

(** * Sequences of firings *)

Section History.
Context {E : probe_env}.

(** Probes fire one after the other on the CPU, each with its first argument. *)
Fixpoint fire_all (fires : list (probe * Z)) : sprog pworld unit :=
  match fires with
  | [] => sret tt
  | (p, arg0) :: fires => dtrace_probe 2 p arg0 ~; fire_all fires
  end.

Definition concerned_by (fires : list (probe * Z)) (t : Z) : Prop := exists p arg0, (p, arg0) ∈ fires /\ concerned p arg0 t.

Lemma fire_all_run {HE : probe_env_ok E} fires : forall w,
  p_provider dtrace_error_probe = dtrace_provider -> winv w -> watched dtrace_error_probe w -> (forall p arg0, (p, arg0) ∈ fires -> watched p w) ->
  runs (fire_all fires) w (fun _ w' => fine_for (concerned_by fires) w w').
Proof.
  induction fires as [|[p arg0] fires IH]; intros w Hprov Hw Herr Hp; cbn [fire_all]; [by apply runs_ret, fine_refl|]. eapply runs_bind; [apply (probe_run 0 p arg0 w); [done..|by eapply Hp; left|done]|].
  intros u w1 H1. cbn beta in H1. eapply runs_weaken; [apply IH; [done|apply H1|by eapply watched_later|]|].
  - intros p' arg' Hin. eapply watched_later; [exact H1|]. eapply Hp. by right.
  - intros u' w2 H2. apply (fine_trans _ w w1 w2 Hw); [eapply fine_sub; [|exact H1]|eapply fine_sub; [|exact H2]].
    + intros t Ht. exists p, arg0. split; [by left|done].
    + intros t (p' & arg' & Hin & Ht). exists p', arg'. split; [by right|done].
Qed.
End History.

(** * A system of two consumers *)

(** setx v, %r1; ret %r1 *)
Definition const_prog (v : Z) : dtrace_difo := Difo [DIF_INSTR_FMT 37 0 0 1; DIF_INSTR_RET 1] [v] 0 0 [] (DifType 0 0 0 8) 1 0.

(** Records of 8 bytes after the EPID; the action has the address [self]. *)
Definition demo_act (self kind size : Z) (dp : option dtrace_difo) : pact := PAct (Action self kind false None (RecDesc kind size 8 8 0 (inl 0) 0) None) dp.

Definition demo_ecb (epid s : Z) (size : Z) (pred : option (dtrace_difo * Z)) (acts : list pact) : pecb := PEcb (Ecb epid 8 size size None None None s 0 None 0) pred acts.

(** The user's consumer traces 42 if a predicate holds; root's traces through a bad pointer, so that the ERROR probe
    fires, and stops the process. *)
Definition user_ecb : pecb := demo_ecb 1 0x100 16 (Some (const_prog 1, 0)) [demo_act 11 DTRACEACT_DIFEXPR 8 (Some (const_prog 42))].
Definition stop_ecb : pecb := demo_ecb 1 0x200 8 None [demo_act 21 DTRACEACT_STOP 0 None].
Definition fault_ecb : pecb := demo_ecb 2 0x200 16 None [demo_act 22 DTRACEACT_DIFEXPR 8 (Some demo_prog)].
Definition error_ecb (s : Z) : pecb := demo_ecb 3 s 16 None [demo_act 31 DTRACEACT_DIFEXPR 8 (Some (const_prog 7))].

Definition demo_user : cred_t := Cred 1000 1000 1000 1000 1000 1000 0.
Definition demo_probe_env (thread_cred : cred_t) : probe_env := {|
  pv_dif := demo_env; pv_cpu := 0; pv_thread := Thread (Some thread_cred) true; pv_regs := demo_regs; pv_tup := demo_tup; pv_mstate := no_scratch;
  pv_onintr := false; pv_quiesce := false; pv_disallow := false; pv_vtime := true; pv_helpers := false;
  pv_clock := fun n => Z.of_nat n * 1000000000; pv_patience := 2;
  dtrace_deadman_timeout := 30000000000; dtrace_chill_interval := 1000000000; dtrace_chill_max := 500000000;
  dtrace_provider := 1; dtrace_probeid_begin := 1; dtrace_error_probe := Probe 3 1 0 0 false 0 [error_ecb 0x100; error_ecb 0x200];
  dtps_usermode := fun _ _ _ => true; dtrace_getpcstack := fun _ _ _ _ m => m; dtrace_getupcstack := fun _ _ m => m; dtrace_action_ustack := fun _ _ _ m => (false, m)
|}.

#[export] Instance demo_probe_env_ok cr : probe_env_ok (demo_probe_env cr).
Proof.
  split; try exact _; cbn; try done.
  - split; [done|]. repeat constructor; unfold is_u; lia.
  - intros n. exists 0%nat. split; [lia|]. rewrite Nat.add_0_r. replace (Z.of_nat (S n) * 1000000000 - Z.of_nat n * 1000000000) with 1000000000 by lia. by vm_compute.
Qed.

Definition demo_consumer (act tomax : Z) (cr : dtrace_cred_t) : consumer :=
  Consumer act 0 cr prog_vstate 0 [Some 16; Some 16; Some 16] [] [Buffer 0 256 0 0 tomax (tomax + 0x1000) 0 0 0 0 0] 0 0 [small_buf] 0 0.

(** The user's consumer, which has no rights, and root's. *)
Definition demo_world (act : Z) : pworld :=
  PWorld {[ 0x100 := demo_consumer act 0x10000 (DCred (Some demo_user) 0 0 0); 0x200 := demo_consumer DTRACE_ACTIVITY_ACTIVE 0x20000 (state_cred [] None) ]}
    (Mach (fun _ => 0) 0 0) (PThread 0 0 0 0 false false) false 0 0 0 [].

Definition demo_probe : probe := Probe 10 5 0 0 true 0 [user_ecb; fault_ecb; stop_ecb].

Section Demo.
Context (cr : cred_t).
#[local] Existing Instance demo_probe_env.

Lemma prog_vars_ok : @vars_ok (demo_probe_env cr) prog_vstate.
Proof. destruct demo_emulation_ok as [[[_ r2 r3] _ c3 c4 c5 c6] _ _ _ _ _ _]. by split. Qed.

Lemma demo_con_ok act tomax c : 0 < tomax < 2 ^ 32 -> @con_ok (demo_probe_env cr) (demo_consumer act tomax c).
Proof.
  intros Ht. split; [apply prog_vars_ok| |exists small_buf; split; [done|apply small_buf_inv]]. eexists. split; [reflexivity|]. split; [split|..]; cbn; (done || lia).
Qed.

Lemma demo_winv act : @winv (demo_probe_env cr) (demo_world act).
Proof.
  split; [|intros a; unfold is_u; cbn; lia|cbn; lia]. intros s c Hc. cbn in Hc. apply lookup_insert_Some in Hc as [[_ <-]|[_ Hc]]; [by apply demo_con_ok|]. apply lookup_singleton_Some in Hc as [_ <-]. by apply demo_con_ok.
Qed.

Lemma const_difo_ok v : is_u64 v -> difo_ok prog_vstate (const_prog v).
Proof.
  intros Hv. assert (Hval : dtrace_difo_validate 16384 (const_prog v) prog_vstate DIF_DIR_NREGS true = (0, const_prog v)) by (by vm_compute). split; [apply (difo_validate_accepted _ _ _ _ _ _ Hval)|by apply Forall_singleton| |].
  - intros pc i o Hpc Ho. destruct pc as [|[|pc]]; [..|discriminate Hpc]; injection Hpc as <-; vm_compute in Ho; injection Ho as <-; exact I.
  - repeat split; intros (pc & i & Hpc & Ho); (destruct pc as [|[|pc]]; [..|discriminate Hpc]; injection Hpc as <-; vm_compute in Ho; discriminate Ho).
Qed.

Lemma prog_difo_ok : difo_ok prog_vstate demo_prog.
Proof.
  assert (Hval : dtrace_difo_validate 16384 demo_prog prog_vstate DIF_DIR_NREGS true = (0, demo_prog)) by (by vm_compute). destruct demo_emulation_ok as [_ _ Hint _ _ _ Hv]. split; [apply (difo_validate_accepted _ _ _ _ _ _ Hval)|done|done|].
  repeat split; intros (pc & i & Hpc & Ho); (destruct pc as [|[|[|[|[|[|pc]]]]]]; [..|discriminate Hpc]; injection Hpc as <-; vm_compute in Ho; discriminate Ho).
Qed.

(** An action of the example that records the value of an expression. *)
Lemma expr_act_ok epid s pred self dp k : difo_ok prog_vstate dp -> act_ok prog_vstate (demo_ecb epid s 16 pred [demo_act self DTRACEACT_DIFEXPR 8 (Some dp)]) k (demo_act self DTRACEACT_DIFEXPR 8 (Some dp)).
Proof.
  intros Hdp. split; [unfold rec_fits; cbn; lia|right; apply list_elem_of_In; vm_compute; tauto|by intros ? [= <-]| |by intros [?|?]|done]. intros _. exists dp. split; [done|]. intros _. apply list_elem_of_In. vm_compute. tauto.
Qed.

Lemma expr_ecb_ok p act tomax c epid s pred self dp :
  dcr_cred c <> None \/ c = state_cred [] None -> p_predcache p = 0 -> (forall d id, pred = Some (d, id) -> difo_ok prog_vstate d) -> difo_ok prog_vstate dp ->
  ecb_ok p (demo_consumer act tomax c) (demo_ecb epid s 16 pred [demo_act self DTRACEACT_DIFEXPR 8 (Some dp)]).
Proof.
  intros Hc Hp Hpred Hdp. split; [split; cbn; [unfold Buffer.align_ok; lia|lia|lia]|destruct Hc as [Hc| ->]; [by left|by right]| |].
  - intros d id Hd. split; [by eapply Hpred|by left].
  - intros [|i] a Ha; [injection Ha as <-; by apply expr_act_ok|done].
Qed.

Lemma stop_ecb_ok p act tomax c : dcr_cred c <> None \/ c = state_cred [] None -> ecb_ok p (demo_consumer act tomax c) stop_ecb.
Proof.
  intros Hc. split; [split; cbn; [unfold Buffer.align_ok; lia|lia|lia]|destruct Hc as [Hc| ->]; [by left|by right]|done|]. intros [|i] a Ha; [injection Ha as <-|done]. split; [unfold rec_fits; cbn; lia|right; apply list_elem_of_In; vm_compute; tauto|done| |by intros [?|?]|done].
  intros Hk. apply list_elem_of_In in Hk. vm_compute in Hk. intuition discriminate.
Qed.

Lemma demo_watched act : @watched (demo_probe_env cr) demo_probe (demo_world act).
Proof.
  split; [done|]. intros e He. apply list_elem_of_In in He. destruct He as [<-|[<-|[<-|[]]]]; eexists; (split; [reflexivity|]).
  - apply expr_ecb_ok; [by left|done|intros d id [= <- <-]|]; by apply const_difo_ok.
  - apply expr_ecb_ok; [by right|done|done|apply prog_difo_ok].
  - apply stop_ecb_ok. by right.
Qed.

Lemma demo_error_watched act : @watched (demo_probe_env cr) (@dtrace_error_probe (demo_probe_env cr)) (demo_world act).
Proof.
  split; [done|]. intros e He. apply list_elem_of_In in He. destruct He as [<-|[<-|[]]]; eexists; (split; [reflexivity|]); apply expr_ecb_ok; try done; try (by apply const_difo_ok); [by left|by right].
Qed.
End Demo.

(** What the example does: the user's record holds 42 after its EPID; root's bad pointer gives an ERROR record with 7,
    then the record of the ECB that stopped the process. *)
Example demo_records :
  match @fire_all (demo_probe_env demo_user) [(demo_probe, 0)] (demo_world DTRACE_ACTIVITY_ACTIVE) with
  | Some (_, w) => map (m_mem (pw_m w)) (seqZ 0x10000 16) = [1; 0; 0; 0; 0; 0; 0; 0; 42; 0; 0; 0; 0; 0; 0; 0] /\
      map (m_mem (pw_m w)) (seqZ 0x20000 24) = [3; 0; 0; 0; 0; 0; 0; 0; 7; 0; 0; 0; 0; 0; 0; 0; 1; 0; 0; 0; 0; 0; 0; 0] /\ pw_log w = [(0x200, EvError 2 1 8 1); (0x200, EvStop)]
  | None => False
  end.
Proof. vm_compute. done. Qed.

(** * Properties *)



(** C23: a firing leaves a consumer as it is, with its buffers, speculations, aggregations and variables, if the consumer has no
    ECB on the probe, or the probe is one of the dtrace provider and fires for another consumer, or the probe is another one and
    the consumer is not active; ERROR probes that fire on the way do not reach it either. *)
Theorem firing_spares_unconcerned (E : probe_env) fuel s p arg0 w w' :
  p_provider dtrace_error_probe = dtrace_provider -> unconcerned s p arg0 w -> dtrace_probe fuel p arg0 w = Some (tt, w') -> pw_cons w' !! s = pw_cons w !! s.
Proof. intros Herr Hu Hrun. exact (spared_probe s fuel Herr p arg0 w Hu tt w' Hrun). Qed.

(** The user's consumer is not yet active. *)
Lemma firing_spares_unconcerned_witness :
  match @dtrace_probe (demo_probe_env demo_user) 2 demo_probe 0 (demo_world DTRACE_ACTIVITY_WARMUP) with
  | Some (_, w') => pw_cons w' !! 0x100 = pw_cons (demo_world DTRACE_ACTIVITY_WARMUP) !! 0x100
  | None => False
  end.
Proof.
  destruct (@dtrace_probe (demo_probe_env demo_user) 2 demo_probe 0 (demo_world DTRACE_ACTIVITY_WARMUP)) as [[[] w']|] eqn:Hrun; [|vm_compute in Hrun; discriminate Hrun].
  apply (firing_spares_unconcerned (demo_probe_env demo_user) 2 0x100 demo_probe 0 (demo_world DTRACE_ACTIVITY_WARMUP) w'); [reflexivity| |exact Hrun].
  right. right. split; [discriminate|]. intros c Hc. injection Hc as <-. discriminate.
Defined.

(** C24: in a firing the process is stopped or sent a signal, the CPU held up, the system stopped at a breakpoint or made to
    panic only by actions of consumers whose credentials allow it, and only while destructive actions are not disallowed; the
    thread and the panic flag change in no other way, and no credential changes. *)
Theorem destructive_actions_privileged (E : probe_env) fuel p arg0 w w' :
  dtrace_probe fuel p arg0 w = Some (tt, w') ->
  (forall s, cred_of s w' = cred_of s w) /\ exists new, pw_log w' = pw_log w ++ new /\ Forall (fun sev => allowed sev.1 sev.2 w) new /\ logged w w' new.
Proof. apply (lawful_probe fuel p arg0 w). Qed.

(** Root's consumer stops the process. *)
Lemma destructive_actions_privileged_witness :
  match @dtrace_probe (demo_probe_env demo_user) 2 demo_probe 0 (demo_world DTRACE_ACTIVITY_ACTIVE) with
  | Some (_, w') => th_stop (pw_th w') = true /\ exists new, pw_log w' = pw_log (demo_world DTRACE_ACTIVITY_ACTIVE) ++ new /\ Forall (fun sev => @allowed (demo_probe_env demo_user) sev.1 sev.2 (demo_world DTRACE_ACTIVITY_ACTIVE)) new
  | None => False
  end.
Proof.
  assert (Hstop : (fun r => th_stop (pw_th r.2)) <$> @dtrace_probe (demo_probe_env demo_user) 2 demo_probe 0 (demo_world DTRACE_ACTIVITY_ACTIVE) = Some true) by (vm_compute; reflexivity).
  destruct (@dtrace_probe (demo_probe_env demo_user) 2 demo_probe 0 (demo_world DTRACE_ACTIVITY_ACTIVE)) as [[[] w']|] eqn:Hrun; [|discriminate Hstop].
  destruct (destructive_actions_privileged (demo_probe_env demo_user) 2 demo_probe 0 (demo_world DTRACE_ACTIVITY_ACTIVE) w' Hrun) as [_ (new & Hlog & Hall & _)].
  injection Hstop as Hstop. split; [exact Hstop|]. exists new. split; [exact Hlog|exact Hall].
Defined.

(** C29: faults in the actions of an ERROR probe fire no further probe, so that two activations of dtrace_probe() are enough:
    with more the result is the same, whatever the probes and the consumers. *)
Theorem error_probe_depth (E : probe_env) n p arg0 w : dtrace_probe (S (S n)) p arg0 w = dtrace_probe 2 p arg0 w.
Proof. apply dtrace_probe_ext. intros _ s y. by apply dtrace_probe_ext. Qed.

(** A predicate whose emulation ends without a fault lets the actions run exactly if the low 32 bits of its value are
    not all zero; the predicate 0x100000000 is false. *)
Theorem predicate_low_word (E : probe_env) s p e ms w dp id v ms' w' :
  pe_pred e = Some (dp, id) -> p_predcache p = DTRACE_CACHEIDNONE -> emulate s dp ms w = Some ((v, ms'), w') -> has (m_flags (pw_m w')) CPU_DTRACE_ERROR = false ->
  fire_pred s p e ms w = Some ((negb (v mod 2 ^ 32 =? 0), ms'), w').
Proof.
  intros He Hp Hrun Hok. assert (Hz : (s32 v =? 0) = (v mod 2 ^ 32 =? 0)) by (apply eq_true_iff_eq; rewrite !Z.eqb_eq; unfold s32, u32; zcase; lia).
  unfold fire_pred. rewrite He. unfold sbind at 1. rewrite Hrun. unfold erred, get_flags, sgets, sbind, sret. rewrite Hok, Hp, Hz. by destruct (v mod 2 ^ 32 =? 0).
Qed.

Lemma predicate_low_word_witness :
  match @emulate (demo_probe_env demo_user) 0x100 (const_prog (2 ^ 32)) no_scratch (demo_world DTRACE_ACTIVITY_ACTIVE) with
  | Some (v, ms', w') => v = 2 ^ 32 /\ @fire_pred (demo_probe_env demo_user) 0x100 demo_probe (demo_ecb 1 0x100 16 (Some (const_prog (2 ^ 32), 0)) []) no_scratch (demo_world DTRACE_ACTIVITY_ACTIVE) = Some ((false, ms'), w')
  | None => False
  end.
Proof.
  assert (Hres : (fun r => (r.1.1, has (m_flags (pw_m r.2)) CPU_DTRACE_ERROR)) <$> @emulate (demo_probe_env demo_user) 0x100 (const_prog (2 ^ 32)) no_scratch (demo_world DTRACE_ACTIVITY_ACTIVE) = Some (2 ^ 32, false)) by (vm_compute; reflexivity).
  destruct (@emulate (demo_probe_env demo_user) 0x100 (const_prog (2 ^ 32)) no_scratch (demo_world DTRACE_ACTIVITY_ACTIVE)) as [[[v ms'] w']|] eqn:Hrun; [|discriminate Hres].
  injection Hres as Hv Hf. split; [exact Hv|].
  rewrite (predicate_low_word (demo_probe_env demo_user) 0x100 demo_probe (demo_ecb 1 0x100 16 (Some (const_prog (2 ^ 32), 0)) []) no_scratch (demo_world DTRACE_ACTIVITY_ACTIVE) (const_prog (2 ^ 32)) 0 v ms' w' eq_refl eq_refl Hrun Hf).
  rewrite Hv. reflexivity.
Defined.
