(* ===== verification/Consumer.v ===== *)
(** The life of a consumer (driver/dtrace.c, dtrace_state_create() to dtrace_state_destroy()).

    A consumer is created inactive, gets its options, and is started: dtrace_state_go() allocates speculations, buffers and the
    space of dynamic variables, halving sizes when memory is short, starts the cleaner and the deadman, fires BEGIN and becomes
    active.  An exit() makes it drain; dtrace_state_stop() fires END.  Destruction disables its ECBs and frees everything.

    There is no anonymous state: dtrace_dof_property() has no source of properties on Linux, so that dtrace_anon.dta_state
    is always NULL.  Functions of other components act through the class [consumer_env]. *)
From S2P Require Import Prelude StateProg Dif Ecb SafeMem Buffer DynVar Privilege.
From stdpp Require Import gmap list.
#[local] Open Scope Z_scope.
#[local] Open Scope sprog_scope.

(** * Options *)

Definition DTRACEOPT_BUFSIZE : Z := 0.
Definition DTRACEOPT_BUFPOLICY : Z := 1.
Definition DTRACEOPT_DYNVARSIZE : Z := 2.
Definition DTRACEOPT_AGGSIZE : Z := 3.
Definition DTRACEOPT_SPECSIZE : Z := 4.
Definition DTRACEOPT_NSPEC : Z := 5.
Definition DTRACEOPT_CLEANRATE : Z := 7.
Definition DTRACEOPT_CPU : Z := 8.
Definition DTRACEOPT_BUFRESIZE : Z := 9.
Definition DTRACEOPT_GRABANON : Z := 10.
Definition DTRACEOPT_AGGRATE : Z := 15.
Definition DTRACEOPT_SWITCHRATE : Z := 16.
Definition DTRACEOPT_STATUSRATE : Z := 17.
Definition DTRACEOPT_DESTRUCTIVE : Z := 18.
Definition DTRACEOPT_MAX : Z := 27.
Definition DTRACEOPT_UNSET : Z := -2.
Definition DTRACEOPT_BUFPOLICY_RING : Z := 0.
Definition DTRACEOPT_BUFPOLICY_FILL : Z := 1.
Definition DTRACEOPT_BUFPOLICY_SWITCH : Z := 2.
Definition DTRACEOPT_BUFRESIZE_AUTO : Z := 0.
Definition DTRACEOPT_BUFRESIZE_MANUAL : Z := 1.

Definition E2BIG : Z := 7.
Definition EINVAL : Z := 22.
Definition EBUSY : Z := 16.
Definition EACCES : Z := 13.
Definition ENOENT : Z := 2.
Definition ENOSPC : Z := 28.
Definition INT_MAX : Z := 2 ^ 31 - 1.
Definition LONG_MAX : Z := 2 ^ 63 - 1.

(** * The state *)

Inductive activity := INACTIVE | WARMUP | ACTIVE | DRAINING | COOLDOWN | STOPPED | KILLED.

#[export] Instance activity_eq_dec : EqDecision activity.
Proof. solve_decision. Defined.

(** What a consumer has been seen to do: the firing of its BEGIN and END probes and of others, a cleaning, the end of an ECB. *)
Inductive life_event := LBegin | LEnd | LProbe (id : Z) | LClean | LEcb (i : nat).

#[export] Instance life_event_eq_dec : EqDecision life_event.
Proof. solve_decision. Defined.

(** An ECB: whether the provider of its probe has DTRACE_PRIV_KERNEL, if it has a probe. *)
Abbreviation ecb_slot := (option (option bool)).

(** The part of a dtrace_state_t that concerns its life.  A speculation is the address of its array of buffers, 0 if there
    is none, and the array.  [ds_live] are the live allocations of the kernel. *)
Record dts := Dts {
  ds_activity : activity;
  ds_options : list Z;
  ds_cred : dtrace_cred_t;
  ds_destructive : bool;
  ds_speculates : bool;
  ds_aggs : bool;                   (** dts_aggregations != NULL *)
  ds_needed : Z;
  ds_ecbs : list ecb_slot;
  ds_reserve : Z;
  ds_bufs : Z * list dtrace_buffer; (** address and contents of dts_buffer *)
  ds_aggbufs : Z * list dtrace_buffer;
  ds_spec : Z;                      (** dts_speculations *)
  ds_specs : list (Z * list dtrace_buffer);
  ds_nspec : Z;
  ds_dyn : dtrace_dstate;
  ds_cleaner : option Z;            (** the interval of the cyclic, if it runs *)
  ds_deadman : option Z;
  ds_alive : Z;
  ds_laststatus : Z;
  ds_live : live_heap;
  ds_log : list life_event
}.

Definition with_activity (a : activity) (d : dts) : dts :=
  Dts a (ds_options d) (ds_cred d) (ds_destructive d) (ds_speculates d) (ds_aggs d) (ds_needed d) (ds_ecbs d) (ds_reserve d) (ds_bufs d) (ds_aggbufs d) (ds_spec d) (ds_specs d) (ds_nspec d) (ds_dyn d) (ds_cleaner d) (ds_deadman d) (ds_alive d) (ds_laststatus d) (ds_live d) (ds_log d).
Definition with_options (l : list Z) (d : dts) : dts :=
  Dts (ds_activity d) l (ds_cred d) (ds_destructive d) (ds_speculates d) (ds_aggs d) (ds_needed d) (ds_ecbs d) (ds_reserve d) (ds_bufs d) (ds_aggbufs d) (ds_spec d) (ds_specs d) (ds_nspec d) (ds_dyn d) (ds_cleaner d) (ds_deadman d) (ds_alive d) (ds_laststatus d) (ds_live d) (ds_log d).
Definition with_cred (c : dtrace_cred_t) (d : dts) : dts :=
  Dts (ds_activity d) (ds_options d) c (ds_destructive d) (ds_speculates d) (ds_aggs d) (ds_needed d) (ds_ecbs d) (ds_reserve d) (ds_bufs d) (ds_aggbufs d) (ds_spec d) (ds_specs d) (ds_nspec d) (ds_dyn d) (ds_cleaner d) (ds_deadman d) (ds_alive d) (ds_laststatus d) (ds_live d) (ds_log d).
Definition with_ecbs (l : list ecb_slot) (d : dts) : dts :=
  Dts (ds_activity d) (ds_options d) (ds_cred d) (ds_destructive d) (ds_speculates d) (ds_aggs d) (ds_needed d) l (ds_reserve d) (ds_bufs d) (ds_aggbufs d) (ds_spec d) (ds_specs d) (ds_nspec d) (ds_dyn d) (ds_cleaner d) (ds_deadman d) (ds_alive d) (ds_laststatus d) (ds_live d) (ds_log d).
Definition with_reserve (n : Z) (d : dts) : dts :=
  Dts (ds_activity d) (ds_options d) (ds_cred d) (ds_destructive d) (ds_speculates d) (ds_aggs d) (ds_needed d) (ds_ecbs d) n (ds_bufs d) (ds_aggbufs d) (ds_spec d) (ds_specs d) (ds_nspec d) (ds_dyn d) (ds_cleaner d) (ds_deadman d) (ds_alive d) (ds_laststatus d) (ds_live d) (ds_log d).
Definition with_bufs (l : list dtrace_buffer) (d : dts) : dts :=
  Dts (ds_activity d) (ds_options d) (ds_cred d) (ds_destructive d) (ds_speculates d) (ds_aggs d) (ds_needed d) (ds_ecbs d) (ds_reserve d) ((ds_bufs d).1, l) (ds_aggbufs d) (ds_spec d) (ds_specs d) (ds_nspec d) (ds_dyn d) (ds_cleaner d) (ds_deadman d) (ds_alive d) (ds_laststatus d) (ds_live d) (ds_log d).
Definition with_aggbufs (l : list dtrace_buffer) (d : dts) : dts :=
  Dts (ds_activity d) (ds_options d) (ds_cred d) (ds_destructive d) (ds_speculates d) (ds_aggs d) (ds_needed d) (ds_ecbs d) (ds_reserve d) (ds_bufs d) ((ds_aggbufs d).1, l) (ds_spec d) (ds_specs d) (ds_nspec d) (ds_dyn d) (ds_cleaner d) (ds_deadman d) (ds_alive d) (ds_laststatus d) (ds_live d) (ds_log d).
Definition with_spec (a : Z) (l : list (Z * list dtrace_buffer)) (n : Z) (d : dts) : dts :=
  Dts (ds_activity d) (ds_options d) (ds_cred d) (ds_destructive d) (ds_speculates d) (ds_aggs d) (ds_needed d) (ds_ecbs d) (ds_reserve d) (ds_bufs d) (ds_aggbufs d) a l n (ds_dyn d) (ds_cleaner d) (ds_deadman d) (ds_alive d) (ds_laststatus d) (ds_live d) (ds_log d).
Definition with_dyn (x : dtrace_dstate) (d : dts) : dts :=
  Dts (ds_activity d) (ds_options d) (ds_cred d) (ds_destructive d) (ds_speculates d) (ds_aggs d) (ds_needed d) (ds_ecbs d) (ds_reserve d) (ds_bufs d) (ds_aggbufs d) (ds_spec d) (ds_specs d) (ds_nspec d) x (ds_cleaner d) (ds_deadman d) (ds_alive d) (ds_laststatus d) (ds_live d) (ds_log d).
Definition with_cyclics (c m : option Z) (d : dts) : dts :=
  Dts (ds_activity d) (ds_options d) (ds_cred d) (ds_destructive d) (ds_speculates d) (ds_aggs d) (ds_needed d) (ds_ecbs d) (ds_reserve d) (ds_bufs d) (ds_aggbufs d) (ds_spec d) (ds_specs d) (ds_nspec d) (ds_dyn d) c m (ds_alive d) (ds_laststatus d) (ds_live d) (ds_log d).
Definition with_times (alive last : Z) (d : dts) : dts :=
  Dts (ds_activity d) (ds_options d) (ds_cred d) (ds_destructive d) (ds_speculates d) (ds_aggs d) (ds_needed d) (ds_ecbs d) (ds_reserve d) (ds_bufs d) (ds_aggbufs d) (ds_spec d) (ds_specs d) (ds_nspec d) (ds_dyn d) (ds_cleaner d) (ds_deadman d) alive last (ds_live d) (ds_log d).
Definition with_live (l : live_heap) (d : dts) : dts :=
  Dts (ds_activity d) (ds_options d) (ds_cred d) (ds_destructive d) (ds_speculates d) (ds_aggs d) (ds_needed d) (ds_ecbs d) (ds_reserve d) (ds_bufs d) (ds_aggbufs d) (ds_spec d) (ds_specs d) (ds_nspec d) (ds_dyn d) (ds_cleaner d) (ds_deadman d) (ds_alive d) (ds_laststatus d) l (ds_log d).
Definition with_event (e : life_event) (d : dts) : dts :=
  Dts (ds_activity d) (ds_options d) (ds_cred d) (ds_destructive d) (ds_speculates d) (ds_aggs d) (ds_needed d) (ds_ecbs d) (ds_reserve d) (ds_bufs d) (ds_aggbufs d) (ds_spec d) (ds_specs d) (ds_nspec d) (ds_dyn d) (ds_cleaner d) (ds_deadman d) (ds_alive d) (ds_laststatus d) (ds_live d) (ds_log d ++ [e]).

Definition opt_in (l : list Z) (o : Z) : Z := nth (Z.to_nat o) l DTRACEOPT_UNSET.
Definition opt (o : Z) (d : dts) : Z := opt_in (ds_options d) o.
Definition set_opt (o v : Z) (d : dts) : dts := with_options (<[Z.to_nat o := v]> (ds_options d)) d.

Definition sizeof_buffer : Z := 64.
Definition sizeof_speculation : Z := 16.

(** * The environment *)

(** The allocator, the CPUs, the functions of other components and tunables. *)
Class consumer_env := ConsumerEnv {
  ce_pick : Z -> live_heap -> Z;           (** 0: no memory *)
  ce_cpus : list Z;                        (** cpu_list *)
  ce_ncpu : nat;                           (** NCPU *)
  ce_cpu : Z;                              (** cpu_get_id() *)
  ce_priv : bool;                          (** PRIV_POLICY_ONLY(CRED(), PRIV_ALL) *)
  ce_now : Z;                              (** dtrace_gethrtime() *)
  ce_mem : mach;
  ce_sink : Z;
  ce_destructive_disallow : bool;
  ce_nspec_default : Z; ce_specsize_default : Z; ce_strsize_default : Z; ce_stackframes_default : Z; ce_ustackframes_default : Z;
  ce_cleanrate_default : Z; ce_aggrate_default : Z; ce_switchrate_default : Z; ce_statusrate_default : Z; ce_jstackframes_default : Z; ce_jstackstrsize_default : Z;
  ce_statusrate_max : Z; ce_cleanrate_min : Z; ce_cleanrate_max : Z; ce_deadman_interval : Z; ce_deadman_user : Z; ce_dstate_defsize : Z;
  dtrace_enabling_prime : dts -> dts;
  ce_end_ecbs : dts -> list (Z * Z);       (** dte_needed and dte_alignment of the consumer's ECBs on the END probe *)
  ce_fire : life_event -> dts -> option dts   (** dtrace_probe() with the consumer as argument *)
}.

Section Life.
Context {E : consumer_env}.

Abbreviation prog := (sprog dts).

Definition get_dts : prog dts := sgets Some.

(** KM_SLEEP: the allocator waits until there is memory. *)
Definition zalloc_sleep (size : Z) : prog Z :=
  d <~ get_dts;
  let '(a, live) := kmem_zalloc ce_pick size (ds_live d) in
  sassert (negb (a =? 0)) ~; sputs (with_live live) ~; sret a.

(** KM_NOSLEEP *)
Definition zalloc (size : Z) : prog Z :=
  d <~ get_dts;
  let '(a, live) := kmem_zalloc ce_pick size (ds_live d) in
  sputs (with_live live) ~; sret a.

(** kmem_free(), which takes NULL. *)
Definition free_live (a size : Z) : prog unit :=
  if a =? 0 then sret tt
  else d <~ get_dts; live <~ sgets (fun _ => kmem_free a size (ds_live d)); sputs (with_live live).

Definition null_buf : dtrace_buffer := Buffer 0 0 0 0 0 0 0 0 0 0 0.
Definition bufsize : Z := Z.of_nat ce_ncpu * sizeof_buffer.

(** * Creation *)

Definition default_options : list Z :=
  let set '(o, v) (l : list Z) := <[Z.to_nat o := v]> l in
  fold_right set (replicate (Z.to_nat DTRACEOPT_MAX) DTRACEOPT_UNSET)
    [(DTRACEOPT_BUFPOLICY, DTRACEOPT_BUFPOLICY_SWITCH); (DTRACEOPT_BUFRESIZE, DTRACEOPT_BUFRESIZE_AUTO); (DTRACEOPT_NSPEC, ce_nspec_default);
     (DTRACEOPT_SPECSIZE, ce_specsize_default); (DTRACEOPT_CPU, DTRACE_CPUALL); (DTRACEOPT_STRSIZE, ce_strsize_default);
     (DTRACEOPT_STACKFRAMES, ce_stackframes_default); (DTRACEOPT_USTACKFRAMES, ce_ustackframes_default); (DTRACEOPT_CLEANRATE, ce_cleanrate_default);
     (DTRACEOPT_AGGRATE, ce_aggrate_default); (DTRACEOPT_SWITCHRATE, ce_switchrate_default); (DTRACEOPT_STATUSRATE, ce_statusrate_default);
     (DTRACEOPT_JSTACKFRAMES, ce_jstackframes_default); (DTRACEOPT_JSTACKSTRSIZE, ce_jstackstrsize_default)].

(** The zeroed structure in a kernel with the allocations [live]; [sizeof_state]: sizeof (dtrace_state_t). *)
Definition zero_state (live : live_heap) : dts :=
  Dts INACTIVE [] (DCred None 0 0 0) false false false 0 [] 0 (0, []) (0, []) 0 [] 0 (DState 0 0 0 0) None None 0 0 live [].

Definition dtrace_state_create (rules : list dsec_item_t) (sizeof_state : Z) (cr : option cred_t) (live : live_heap) : option dts :=
  let m : prog unit :=
    zalloc_sleep sizeof_state ~;
    a <~ zalloc_sleep bufsize;
    b <~ zalloc_sleep bufsize;
    sputs (fun d => Dts INACTIVE default_options (state_cred rules cr) false false false 0 [] 0
      (a, replicate ce_ncpu null_buf) (b, replicate ce_ncpu null_buf) 0 [] 0 (DState 0 0 0 0) None None 0 0 (ds_live d) []) in
  snd <$> m (zero_state live).

(** * Options *)

(** [option] is unsigned. *)
Definition dtrace_state_option (option val : Z) : prog Z :=
  d <~ get_dts;
  if negb (bool_decide (ds_activity d = INACTIVE)) then sret EBUSY
  else if DTRACEOPT_MAX <=? option then sret EINVAL
  else if negb (option =? DTRACEOPT_CPU) && (val <? 0) then sret EINVAL
  else if option =? DTRACEOPT_DESTRUCTIVE then
    if ce_destructive_disallow then sret EACCES
    else
      sputs (fun d => with_cred (DCred (dcr_cred (ds_cred d)) 1 (dcr_visible (ds_cred d)) (dcr_action (ds_cred d))) d) ~;
      sputs (set_opt option val) ~; sret 0
  else
    let sized := (option =? DTRACEOPT_BUFSIZE) || (option =? DTRACEOPT_DYNVARSIZE) || (option =? DTRACEOPT_AGGSIZE) || (option =? DTRACEOPT_SPECSIZE) || (option =? DTRACEOPT_STRSIZE) in
    let val := if sized && (LONG_MAX <=? val) then LONG_MAX - 2 ^ 27 + 1 else val in
    sputs (set_opt option val) ~; sret 0.

(** * Buffers *)

(** The buffers of a kind: the principal ones, those of the aggregations, or of a speculation. *)
Inductive buf_kind := KPrincipal | KAgg | KSpec (i : nat).

Definition kind_opt (k : buf_kind) : Z := match k with KPrincipal => DTRACEOPT_BUFSIZE | KAgg => DTRACEOPT_AGGSIZE | KSpec _ => DTRACEOPT_SPECSIZE end.
Definition kind_bufs (k : buf_kind) (d : dts) : list dtrace_buffer :=
  match k with KPrincipal => (ds_bufs d).2 | KAgg => (ds_aggbufs d).2 | KSpec i => match ds_specs d !! i with Some sp => sp.2 | None => [] end end.
Definition put_kind (k : buf_kind) (l : list dtrace_buffer) (d : dts) : dts :=
  match k with
  | KPrincipal => with_bufs l d
  | KAgg => with_aggbufs l d
  | KSpec i => with_spec (ds_spec d) (alter (fun sp => (sp.1, l)) i (ds_specs d)) (ds_nspec d) d
  end.

Definition buf_flags (k : buf_kind) (d : dts) : Z :=
  match k with
  | KPrincipal =>
      Z.lor (if opt DTRACEOPT_BUFPOLICY d =? DTRACEOPT_BUFPOLICY_RING then DTRACEBUF_RING else 0)
        (Z.lor (if opt DTRACEOPT_BUFPOLICY d =? DTRACEOPT_BUFPOLICY_FILL then DTRACEBUF_FILL else 0) DTRACEBUF_INACTIVE)
  | KAgg => 0
  | KSpec _ => DTRACEBUF_NOSWITCH
  end.

(** The loop over sizes (its condition compares unsigned numbers); the result has the size that was tried last, if the option is set to it. *)
Fixpoint buffer_loop (fuel : nat) (manual : bool) (reserve flags cpu size : Z) (s : alloc_state) : option (Z * option Z * alloc_state) :=
  match fuel with
  | O => None
  | S fuel =>
      if u64 size <? 8 then Some (ENOMEM, None, s)
      else
        let size := size - Z.land size 7 in
        if size <? reserve then Some (E2BIG, None, s)
        else
          match dtrace_buffer_alloc ce_pick ce_priv ce_cpus size flags cpu s with
          | None => None
          | Some (rval, s) =>
              if negb (rval =? ENOMEM) then Some (rval, Some size, s)
              else if manual then Some (rval, None, s)
              else buffer_loop fuel manual reserve flags cpu (Z.shiftr size 1) s
          end
  end.

Definition dtrace_state_buffer (k : buf_kind) : prog Z :=
  d <~ get_dts;
  sassert (bool_decide (ds_activity d = INACTIVE)) ~;
  let o := opt (kind_opt k) d in
  if (o =? DTRACEOPT_UNSET) || (o =? 0) then sret 0
  else
    let cpu := if opt DTRACEOPT_CPU d =? DTRACEOPT_UNSET then 0 else s32 (opt DTRACEOPT_CPU d) in
    r <~ sgets (fun _ => buffer_loop 64 (opt DTRACEOPT_BUFRESIZE d =? DTRACEOPT_BUFRESIZE_MANUAL) (ds_reserve d) (buf_flags k d) cpu o (kind_bufs k d, ds_live d));
    let '(rval, size, (bufs, live)) := r in
    sputs (put_kind k bufs) ~;
    sputs (with_live live) ~;
    (match size with Some size => sputs (set_opt (kind_opt k) size) | None => sret tt end) ~;
    sret rval.

Fixpoint spec_buffers (ids : list nat) : prog Z :=
  match ids with
  | [] => sret 0
  | i :: ids => rval <~ dtrace_state_buffer (KSpec i); if negb (rval =? 0) then sret rval else spec_buffers ids
  end.

Definition dtrace_state_buffers : prog Z :=
  rval <~ dtrace_state_buffer KPrincipal;
  if negb (rval =? 0) then sret rval
  else
    rval <~ dtrace_state_buffer KAgg;
    if negb (rval =? 0) then sret rval
    else d <~ get_dts; spec_buffers (seq 0 (Z.to_nat (ds_nspec d))).

(** dts_reserve has 32 bits. *)
Definition dtrace_state_prereserve : prog unit :=
  sputs (with_reserve 0) ~;
  d <~ get_dts;
  if negb (opt DTRACEOPT_BUFPOLICY d =? DTRACEOPT_BUFPOLICY_FILL) then sret tt
  else sputs (with_reserve (fold_left (fun n '(needed, align) => u32 (n + (needed + align))) (ce_end_ecbs d) 0)).

(** * Starting *)

(** How a part of dtrace_state_go() ends: it goes on, or by a goto. *)
Inductive step := Go | Out (rval : Z) | Err (rval : Z).

Definition then_ (m : prog step) (k : prog step) : prog step := r <~ m; match r with Go => k | r => sret r end.

(** Arrays of buffers for the speculations. *)
Fixpoint spec_arrays (ids : list nat) : prog step :=
  match ids with
  | [] => sret Go
  | i :: ids =>
      a <~ zalloc bufsize;
      if a =? 0 then sret (Err ENOMEM)
      else
        sputs (fun d => with_spec (ds_spec d) (<[i := (a, replicate ce_ncpu null_buf)]> (ds_specs d)) (ds_nspec d) d) ~;
        spec_arrays ids
  end.

Definition go_specs : prog step :=
  d <~ get_dts;
  let nspec := opt DTRACEOPT_NSPEC d in
  sassert (negb (nspec =? DTRACEOPT_UNSET)) ~;
  if INT_MAX <? nspec then sret (Out ENOMEM)
  else
    a <~ zalloc (nspec * sizeof_speculation);
    if a =? 0 then sret (Out ENOMEM)
    else
      sputs (with_spec a (replicate (Z.to_nat nspec) (0, [])) nspec) ~;
      spec_arrays (seq 0 (Z.to_nat nspec)).

(** Sizes that are not needed become 0; buffers that are needed have one. *)
Definition go_sizes : prog step :=
  d <~ get_dts;
  (if (opt DTRACEOPT_AGGSIZE d =? DTRACEOPT_UNSET) || (opt DTRACEOPT_AGGSIZE d =? 0) then sret tt
   else if negb (ds_aggs d) then sputs (set_opt DTRACEOPT_AGGSIZE 0)
   else if (opt DTRACEOPT_BUFSIZE d =? DTRACEOPT_UNSET) || (u64 (opt DTRACEOPT_BUFSIZE d) <? ds_needed d) then sputs (set_opt DTRACEOPT_BUFSIZE (s64 (ds_needed d)))
   else sret tt) ~;
  d <~ get_dts;
  (if (opt DTRACEOPT_SPECSIZE d =? DTRACEOPT_UNSET) || (opt DTRACEOPT_SPECSIZE d =? 0) || ds_speculates d then sret tt
   else sputs (set_opt DTRACEOPT_SPECSIZE 0)) ~;
  d <~ get_dts;
  if (negb (ds_needed d =? 0) && (opt DTRACEOPT_BUFSIZE d <? 8)) || (ds_speculates d && (opt DTRACEOPT_SPECSIZE d <? 8)) || (ds_aggs d && (opt DTRACEOPT_AGGSIZE d <? 8))
  then sret (Out ENOSPC) else sret Go.

(** One try of dtrace_dstate_init(). *)
Definition try_dstate (size : Z) : prog Z :=
  d <~ get_dts;
  let zalloc n := let a := ce_pick n (ds_live d) in if a =? 0 then None else Some a in
  r <~ sgets (fun _ => dtrace_dstate_init ce_sink ce_ncpu zalloc (dtds_chunksize (ds_dyn d)) (u64 size) ce_mem);
  match r with
  | inl e => sret e
  | inr x => sputs (with_dyn (dy_ds x)) ~; sputs (with_live ((dtds_base (dy_ds x), dtds_size (dy_ds x)) :: ds_live d)) ~; sret 0
  end.

Fixpoint dyn_loop (fuel : nat) (manual : bool) (size : Z) : prog (Z * step) :=
  match fuel with
  | O => sfail
  | S fuel =>
      rval <~ try_dstate size;
      if rval =? 0 then sret (size, Go)
      else if manual then sret (size, Err rval)
      else
        let size := Z.shiftr size 1 in
        if size =? 0 then sputs (set_opt DTRACEOPT_DYNVARSIZE 0) ~; sret (0, Err rval) else dyn_loop fuel manual size
  end.

Definition go_dyn : prog step :=
  d <~ get_dts;
  let size := if opt DTRACEOPT_DYNVARSIZE d =? DTRACEOPT_UNSET then ce_dstate_defsize else opt DTRACEOPT_DYNVARSIZE d in
  r <~ dyn_loop 64 (opt DTRACEOPT_BUFRESIZE d =? DTRACEOPT_BUFRESIZE_MANUAL) size;
  let '(size, s) := r in
  match s with Go => sputs (set_opt DTRACEOPT_DYNVARSIZE size) ~; sret Go | s => sret s end.

Definition clamp_rates (d : dts) : dts :=
  let d := if ce_statusrate_max <? opt DTRACEOPT_STATUSRATE d then set_opt DTRACEOPT_STATUSRATE ce_statusrate_max d else d in
  let d := if opt DTRACEOPT_CLEANRATE d =? 0 then set_opt DTRACEOPT_CLEANRATE ce_cleanrate_max d else d in
  let d := if opt DTRACEOPT_CLEANRATE d <? ce_cleanrate_min then set_opt DTRACEOPT_CLEANRATE ce_cleanrate_min d else d in
  if ce_cleanrate_max <? opt DTRACEOPT_CLEANRATE d then set_opt DTRACEOPT_CLEANRATE ce_cleanrate_max d else d.

Definition fire (ev : life_event) : prog unit :=
  d <~ get_dts; d' <~ sgets (fun _ => ce_fire ev (with_event ev d)); sputs (fun _ => d').

(** Cyclics, BEGIN, activation. *)
Definition go_begin : prog step :=
  sputs clamp_rates ~;
  sputs (fun d => with_times ce_now ce_now (with_cyclics (Some (opt DTRACEOPT_CLEANRATE d)) (Some ce_deadman_interval) d)) ~;
  sputs (with_activity WARMUP) ~;
  d <~ get_dts;
  b <~ sgets (fun _ => zlookup (ds_bufs d).2 ce_cpu);
  sassert (has_flag b DTRACEBUF_INACTIVE) ~;
  sputs (with_bufs (<[Z.to_nat ce_cpu := Buffer.set_flags (Z.ldiff (dtb_flags b) DTRACEBUF_INACTIVE) b]> (ds_bufs d).2)) ~;
  fire LBegin ~;
  d <~ get_dts;
  sassert (bool_decide (ds_activity d = WARMUP) || bool_decide (ds_activity d = DRAINING)) ~;
  (if bool_decide (ds_activity d = WARMUP) then sputs (with_activity ACTIVE) else sret tt) ~;
  sputs (fun d => with_bufs (imap (fun i b => if bool_decide (Z.of_nat i ∈ ce_cpus) then dtrace_buffer_activate b else b) (ds_bufs d).2) d) ~;
  sret Go.

(** dtrace_buffer_free() *)
Definition free_bufs (k : buf_kind) : prog unit :=
  d <~ get_dts;
  r <~ sgets (fun _ => dtrace_buffer_free (kind_bufs k d) (ds_live d));
  sputs (put_kind k r.1) ~; sputs (with_live r.2).

(** Speculations are freed until one has no array. *)
Fixpoint free_specs (ids : list nat) : prog unit :=
  match ids with
  | [] => sret tt
  | i :: ids =>
      d <~ get_dts;
      sp <~ sgets (fun _ => ds_specs d !! i);
      if sp.1 =? 0 then sret tt
      else free_bufs (KSpec i) ~; free_live sp.1 bufsize ~; free_specs ids
  end.

(** err: *)
Definition go_undo : prog unit :=
  free_bufs KPrincipal ~;
  free_bufs KAgg ~;
  d <~ get_dts;
  if ds_nspec d =? 0 then sassert (ds_spec d =? 0)
  else
    sassert (negb (ds_spec d =? 0)) ~;
    free_specs (seq 0 (Z.to_nat (ds_nspec d))) ~;
    free_live (ds_spec d) (ds_nspec d * sizeof_speculation) ~;
    sputs (with_spec 0 [] 0).

Definition go_body : prog step :=
  sputs dtrace_enabling_prime ~;
  d <~ get_dts;
  if ds_destructive d && (dcr_destructive (ds_cred d) =? 0) then sret (Out EACCES)
  else
    dtrace_state_prereserve ~;
    then_ go_specs
    (d <~ get_dts;
     if negb (opt DTRACEOPT_GRABANON d =? DTRACEOPT_UNSET) then sret (Out ENOENT)
     else
       then_ go_sizes
       (rval <~ dtrace_state_buffers;
        if negb (rval =? 0) then sret (Err rval) else then_ go_dyn go_begin)).

Definition dtrace_state_go : prog Z :=
  d <~ get_dts;
  if negb (bool_decide (ds_activity d = INACTIVE)) then sret EBUSY
  else
    r <~ go_body;
    match r with Go => sret 0 | Out rval => sret rval | Err rval => go_undo ~; sret rval end.

(** * Cyclics, stopping *)

Definition dtrace_state_clean : prog unit :=
  d <~ get_dts; if bool_decide (ds_activity d = INACTIVE) then sret tt else sputs (with_event LClean).

Definition dtrace_state_deadman : prog unit :=
  d <~ get_dts;
  if ce_deadman_user <=? s64 (ce_now - ds_laststatus d) then sret tt else sputs (with_times ce_now (ds_laststatus d)).

Definition dtrace_state_stop : prog Z :=
  d <~ get_dts;
  if negb (bool_decide (ds_activity d = ACTIVE)) && negb (bool_decide (ds_activity d = DRAINING)) then sret EINVAL
  else
    sputs (with_activity DRAINING) ~;
    sputs (with_activity COOLDOWN) ~;
    sputs (with_reserve 0) ~;
    fire LEnd ~;
    sputs (with_activity STOPPED) ~;
    sret 0.

(** * Destruction *)

(** One of the passes over the ECBs: all, or only those on probes of the kernel. *)
Fixpoint ecb_pass (kernel : bool) (ids : list nat) : prog unit :=
  match ids with
  | [] => sret tt
  | i :: ids =>
      d <~ get_dts;
      slot <~ sgets (fun _ => ds_ecbs d !! i);
      (match slot with
       | Some e => if kernel && bool_decide (e = Some false) then sret tt else sputs (with_ecbs (<[i := None]> (ds_ecbs d))) ~; sputs (with_event (LEcb i))
       | None => sret tt
       end) ~;
      ecb_pass kernel ids
  end.

Fixpoint free_spec_bufs (ids : list nat) : prog unit := match ids with [] => sret tt | i :: ids => free_bufs (KSpec i) ~; free_spec_bufs ids end.
Fixpoint free_spec_arrays (l : list (Z * list dtrace_buffer)) : prog unit := match l with [] => sret tt | sp :: l => free_live sp.1 bufsize ~; free_spec_arrays l end.

(** Retained enablings, static variables, formats, the identifiers of aggregations and the arrays of ECBs and aggregations are
    not part of [dts]. *)
Definition dtrace_state_destroy : prog unit :=
  d <~ get_dts;
  (if bool_decide (ds_activity d = ACTIVE) || bool_decide (ds_activity d = DRAINING) then sputs (with_activity KILLED) else sret tt) ~;
  let ids := seq 0 (length (ds_ecbs d)) in
  ecb_pass true ids ~;
  ecb_pass false ids ~;
  free_bufs KPrincipal ~;
  free_bufs KAgg ~;
  free_spec_bufs (seq 0 (Z.to_nat (ds_nspec d))) ~;
  sputs (with_cyclics None None) ~;
  d <~ get_dts;
  live <~ sgets (fun _ => fold_left (fun o '(a, n) => match o with Some live => kmem_free a n live | None => None end) (dtrace_dstate_fini (ds_dyn d)) (Some (ds_live d)));
  sputs (with_live live) ~;
  free_live (ds_bufs d).1 bufsize ~;
  free_live (ds_aggbufs d).1 bufsize ~;
  free_spec_arrays (take (Z.to_nat (ds_nspec d)) (ds_specs d)) ~;
  free_live (ds_spec d) (ds_nspec d * sizeof_speculation).
End Life.
