(* ===== verification/ConsumerMem.v ===== *)
(** Memory of a consumer: what its buffers and speculations hold, and that starting takes all of it or nothing. *)
From S2P Require Import Prelude StateProg Dif SafeMem Buffer DynVar Privilege Consumer.
From stdpp Require Import gmap list.
#[local] Open Scope Z_scope.
#[local] Open Scope sprog_scope.

(** * Blocks *)

(** The allocations a list of buffers holds. *)
Definition own (b : dtrace_buffer) : live_heap := areas (dtb_size b) b.
Definition blocks (l : list dtrace_buffer) : live_heap := concat (map own l).

Definition idle (b : dtrace_buffer) : Prop := no_buffer b /\ dtb_size b = 0.

(** dtrace_buffer_free() accepts it. *)
Definition freeable (b : dtrace_buffer) : Prop := idle b \/ dtb_tomax b <> 0 /\ (has_flag b DTRACEBUF_NOSWITCH = true -> dtb_xamot b = 0).

Lemma own_none b : no_buffer b -> own b = [].
Proof. intros [H1 H2]. unfold own, areas. by rewrite H1, H2. Qed.

Lemma blocks_idle l : Forall idle l -> blocks l = [].
Proof. induction 1 as [|b l [Hb _] _ IH]; [done|]. unfold blocks in *. cbn. by rewrite IH, own_none. Qed.

Lemma blocks_insert l i b b' : l !! i = Some b -> own b = [] -> blocks (<[i := b']> l) ≡ₚ own b' ++ blocks l.
Proof.
  revert i. induction l as [|a l IH]; intros [|i] Hi Hb; [done|done| |]; cbn in Hi.
  - injection Hi as ->. unfold blocks. cbn. by rewrite Hb.
  - unfold blocks in *. cbn. rewrite (IH i Hi Hb). rewrite !app_assoc. by rewrite (Permutation_app_comm (own a)).
Qed.

(** Buffers that change from none to [size] bytes on the CPUs [cpus]. *)
Lemma blocks_held size cpus : forall l l', NoDup cpus -> length l' = length l ->
  (forall cp, In cp cpus -> exists b b', zlookup l cp = Some b /\ no_buffer b /\ zlookup l' cp = Some b' /\ dtb_size b' = size) ->
  (forall cp, ~ In cp cpus -> zlookup l' cp = zlookup l cp) -> blocks l' ≡ₚ held size l' cpus ++ blocks l.
Proof.
  induction cpus as [|cp cpus IH]; intros l l' Hnd Hlen Hin Hout.
  - assert (l' = l) as ->; [|done]. apply list_eq. intros i. specialize (Hout (Z.of_nat i) (fun H => H)). rewrite !zlookup_nat in Hout by lia. by rewrite Nat2Z.id in Hout.
  - pose proof (NoDup_cons_1_1 _ _ Hnd) as Hni. rewrite list_elem_of_In in Hni. apply NoDup_cons_1_2 in Hnd. destruct (Hin cp (or_introl eq_refl)) as (b & b' & Hb & Hno & Hb' & Hsz). pose proof (zlookup_nonneg _ _ _ Hb) as Hcp.
    rewrite (IH (<[Z.to_nat cp := b']> l) l' Hnd).
    + assert (Hl : l !! Z.to_nat cp = Some b) by (by rewrite <- zlookup_nat). rewrite (blocks_insert l _ b b' Hl (own_none b Hno)). unfold held. cbn [map concat]. unfold areas_at at 2. rewrite Hb'. unfold own. rewrite Hsz. rewrite !app_assoc. by rewrite (Permutation_app_comm (concat _)).
    + by rewrite length_insert.
    + intros c Hc. destruct (Hin c (or_intror Hc)) as (d & d' & Hd & Hdn & Hd' & Hds). exists d, d'. split_and!; try done. rewrite zlookup_insert_ne; [done|done|]. by intros ->.
    + intros c Hc. destruct (decide (c = cp)) as [->|Hne].
      * rewrite Hb'. symmetry. eapply zlookup_insert_eq, Hb.
      * rewrite zlookup_insert_ne by done. apply Hout. by intros [?|?].
Qed.

(** * Freeing *)

Lemma free_one_spec b live r : freeable b -> live ≡ₚ own b ++ r -> exists b' live', free_one b live = Some (b', live') /\ live' ≡ₚ r /\ idle b'.
Proof.
  intros Hf Hl. unfold free_one. destruct (Z.eqb_spec (dtb_tomax b) 0) as [H0|H0].
  - destruct Hf as [[[_ Hx] Hs]|[? _]]; [|done]. rewrite Hx, Hs. exists b, live. split; [done|]. rewrite own_none in Hl by done. done.
  - destruct Hf as [[[? _] _]|[_ Hx]]; [done|]. unfold own, areas in Hl. destruct (Z.eqb_spec (dtb_tomax b) 0); [done|]. destruct (Z.eqb_spec (dtb_xamot b) 0) as [Hx0|Hx0]; cbn [negb app] in *.
    + destruct (kmem_free_spec _ _ _ _ Hl) as (l1 & -> & Hl1). by eexists _, l1.
    + destruct (has_flag b DTRACEBUF_NOSWITCH); [by rewrite Hx in Hx0|]. destruct (kmem_free_spec _ _ _ _ Hl) as (l1 & -> & Hl1). destruct (kmem_free_spec _ _ _ _ Hl1) as (l2 & -> & Hl2). by eexists _, l2.
Qed.

Lemma buffer_free_spec l : forall live r, Forall freeable l -> live ≡ₚ blocks l ++ r -> exists l' live', dtrace_buffer_free l live = Some (l', live') /\ live' ≡ₚ r /\ Forall idle l' /\ length l' = length l.
Proof.
  induction l as [|b l IH]; intros live r Hf Hl; [by exists [], live|]. apply Forall_cons in Hf as [Hb Hf]. unfold blocks in Hl. cbn in Hl. rewrite <- app_assoc in Hl. cbn [dtrace_buffer_free].
  destruct (free_one_spec b live _ Hb Hl) as (b' & l1 & -> & Hl1 & Hi). destruct (IH l1 r Hf Hl1) as (l' & l2 & -> & Hl2 & Hi2 & Hlen). exists (b' :: l'), l2. split; [done|]. split; [done|]. split; [by constructor|cbn; by f_equal].
Qed.

(** * Buffers that stay where they are *)

(** Memory of a buffer, and whether it can be switched. *)
Definition place (b : dtrace_buffer) : Z * Z * Z * bool := (dtb_tomax b, dtb_xamot b, dtb_size b, has_flag b DTRACEBUF_NOSWITCH).
Definition in_place (b b' : dtrace_buffer) : Prop := place b' = place b.
Definition all_in_place (l l' : list dtrace_buffer) : Prop := Forall2 in_place l l'.

#[export] Instance in_place_preorder : PreOrder in_place.
Proof. split; [done|]. intros x y z H1 H2. unfold in_place in *. congruence. Qed.

Lemma place_flags b f : Z.land f DTRACEBUF_NOSWITCH = Z.land (dtb_flags b) DTRACEBUF_NOSWITCH -> in_place b (Buffer.set_flags f b).
Proof. intros H. unfold in_place, place, has_flag. cbn. by rewrite H. Qed.

Lemma land_lor_other f g n : Z.land g n = 0 -> Z.land (Z.lor f g) n = Z.land f n.
Proof. intros H. rewrite Z.land_lor_distr_l, H. apply Z.lor_0_r. Qed.

Lemma land_ldiff_other f g n : Z.land g n = 0 -> Z.land (Z.ldiff f g) n = Z.land f n.
Proof.
  intros H. apply Z.bits_inj'. intros i Hi. rewrite !Z.land_spec, Z.ldiff_spec. assert (Hb : Z.testbit g i && Z.testbit n i = false) by (rewrite <- Z.land_spec, H; apply Z.bits_0). destruct (Z.testbit f i), (Z.testbit g i), (Z.testbit n i); done.
Qed.

Lemma all_refl l : all_in_place l l.
Proof. by apply Forall_Forall2_diag, Forall_true. Qed.

Lemma all_insert l i b b' : l !! i = Some b -> in_place b b' -> all_in_place l (<[i := b']> l).
Proof.
  intros Hi Hb. apply Forall2_same_length_lookup_2; [by rewrite length_insert|]. intros j x y Hx Hy. apply list_lookup_insert_Some in Hy as [(<- & -> & _)|[_ Hy]]; [rewrite Hi in Hx; by injection Hx as <-|]. rewrite Hx in Hy. by injection Hy as <-.
Qed.

#[export] Instance all_in_place_preorder : PreOrder all_in_place.
Proof. split; [intros l; apply all_refl|]. intros l1 l2 l3 H1 H2. unfold all_in_place in *. revert l3 H2. induction H1; intros l3 H2; inversion H2; subst; constructor; [by etrans|by apply IHForall2]. Qed.

Lemma place_own b b' : in_place b b' -> own b' = own b.
Proof. intros H. unfold in_place, place in H. injection H as H1 H2 H3 _. unfold own, areas. by rewrite H1, H2, H3. Qed.

Lemma place_freeable b b' : in_place b b' -> freeable b -> freeable b'.
Proof. intros H. unfold in_place, place in H. injection H as H1 H2 H3 H4. unfold freeable, idle, no_buffer. rewrite H1, H2, H3, H4. done. Qed.

Lemma all_blocks l l' : all_in_place l l' -> blocks l' = blocks l.
Proof. intros H. unfold blocks. f_equal. induction H; [done|]. cbn [map]. f_equal; [by apply place_own|done]. Qed.

Lemma all_freeable l l' : all_in_place l l' -> Forall freeable l -> Forall freeable l'.
Proof. intros H. induction H as [|b b' l l' Hb H IH]; intros Hf; [done|]. apply Forall_cons in Hf as [H1 H2]. constructor; [by eapply place_freeable|by apply IH]. Qed.

(** * Sizes *)

Section Sizes.
Context {E : consumer_env}.

(** The CPUs of the system. *)
Record cpus_ok : Prop := {
  co_nodup : NoDup ce_cpus;
  co_range : forall cp, In cp ce_cpus -> 0 <= cp < Z.of_nat ce_ncpu
}.
Context (Hcpus : cpus_ok).

(** Buffers after an allocation of [size] bytes each. *)
Definition given (size flags cpu : Z) (l : list dtrace_buffer) : Prop :=
  length l = ce_ncpu /\ Forall (fun b => idle b \/ allocated size flags b) l /\ forall cp, In cp ce_cpus -> targeted cpu cp = true -> exists b, zlookup l cp = Some b /\ allocated size flags b.

Lemma idle_lookup l cp : Forall idle l -> length l = ce_ncpu -> In cp ce_cpus -> exists b, zlookup l cp = Some b /\ idle b.
Proof.
  intros Hl Hlen Hcp. pose proof (co_range Hcpus cp Hcp) as Hr. rewrite zlookup_nat by lia. destruct (lookup_lt_is_Some_2 l (Z.to_nat cp)) as [b Hb]; [lia|]. exists b. split; [done|]. by eapply Forall_lookup_1.
Qed.

(** A list whose elements are in the same places as another's. *)
Lemma same_length {A} (l l' : list A) : (forall i, is_Some (l' !! i) <-> is_Some (l !! i)) -> length l' = length l.
Proof. intros H. apply Nat.le_antisymm; apply Nat.nlt_ge; intros Hlt; apply lookup_lt_is_Some_2 in Hlt; apply H in Hlt; apply lookup_lt_is_Some_1 in Hlt; lia. Qed.

Lemma alloc_idle size flags cpu l live :
  Forall idle l -> length l = ce_ncpu -> exists rc l' live', dtrace_buffer_alloc ce_pick ce_priv ce_cpus size flags cpu (l, live) = Some (rc, (l', live')) /\ live' ≡ₚ blocks l' ++ live /\
    ((rc = 0 /\ given size flags cpu l') \/ ((rc = ENOMEM \/ rc = EFBIG) /\ Forall idle l' /\ length l' = ce_ncpu)).
Proof.
  intros Hl Hlen. destruct (buffer_alloc_spec ce_pick ce_priv ce_cpus size flags cpu l live (co_nodup Hcpus)) as (rc & l' & live' & Hrun & Hkeep & Hcase).
  { apply List.Forall_forall. intros cp Hcp _. destruct (idle_lookup l cp Hl Hlen Hcp) as (b & Hb & Hi & _). by exists b. }
  assert (Hone : forall P : dtrace_buffer -> Prop, (forall cp, In cp ce_cpus -> targeted cpu cp = true -> exists b, zlookup l' cp = Some b /\ P b) -> length l' = length l /\ Forall (fun b => idle b \/ P b) l').
  { intros P HP. assert (Hat : forall i, (exists b, l' !! i = Some b /\ P b) \/ l' !! i = l !! i).
    { intros i. destruct (in_dec Z.eq_dec (Z.of_nat i) ce_cpus) as [Hi|Hi]; [destruct (targeted cpu (Z.of_nat i)) eqn:Ht|]; [left|right|right].
      - destruct (HP _ Hi Ht) as (b & Hb & Hp). rewrite zlookup_nat, Nat2Z.id in Hb by lia. by exists b.
      - specialize (Hkeep (Z.of_nat i)). rewrite !zlookup_nat, Nat2Z.id in Hkeep by lia. apply Hkeep. intros [_ ?]. congruence.
      - specialize (Hkeep (Z.of_nat i)). rewrite !zlookup_nat, Nat2Z.id in Hkeep by lia. apply Hkeep. by intros [? _]. }
    assert (Hlen' : length l' = length l).
    { apply same_length. intros i. destruct (in_dec Z.eq_dec (Z.of_nat i) ce_cpus) as [Hi|Hi].
      - destruct (idle_lookup l _ Hl Hlen Hi) as (b & Hb & _). rewrite zlookup_nat, Nat2Z.id in Hb by lia. destruct (Hat i) as [(b' & -> & _)| ->]; rewrite ?Hb; split; by eexists.
      - specialize (Hkeep (Z.of_nat i)). rewrite !zlookup_nat, Nat2Z.id in Hkeep by lia. rewrite Hkeep; [done|]. by intros [? _]. }
    split; [done|]. apply Forall_lookup_2. intros i b Hb. destruct (Hat i) as [(b' & Hb' & Hp)|He]; [rewrite Hb in Hb'; injection Hb' as <-; by right|]. left. rewrite He in Hb. by eapply Forall_lookup_1. }
  assert (Hblocks : forall sz, (forall cp, In cp ce_cpus -> targeted cpu cp = true -> exists b, zlookup l' cp = Some b /\ dtb_size b = sz) -> length l' = length l -> blocks l' ≡ₚ held sz l' (List.filter (targeted cpu) ce_cpus)).
  { intros sz Hsz Hle. rewrite (blocks_held sz (List.filter (targeted cpu) ce_cpus) l l'), (blocks_idle l Hl), app_nil_r; [done|apply NoDup_ListNoDup, List.NoDup_filter, NoDup_ListNoDup, Hcpus|done| |].
    - intros cp Hcp. apply filter_In in Hcp as [Hcp Ht]. destruct (idle_lookup l cp Hl Hlen Hcp) as (b & Hb & Hi & _). destruct (Hsz cp Hcp Ht) as (b' & Hb' & Hs). by exists b, b'.
    - intros cp Hcp. apply Hkeep. rewrite filter_In in Hcp. done. }
  exists rc, l', live'. split; [exact Hrun|]. destruct Hcase as [(-> & Hlive & Hall)|[(-> & Hlive & Hall)|(-> & -> & -> & _)]].
  - destruct (Hone _ Hall) as [Hle Hf]. split; [|left; split; [done|]; split; [congruence|by split]]. rewrite Hlive, (Hblocks size); [done| |done]. intros cp Hcp Ht. destruct (Hall cp Hcp Ht) as (b & Hb & _ & Hs & _). by exists b.
  - assert (Hall' : forall cp, In cp ce_cpus -> targeted cpu cp = true -> exists b, zlookup l' cp = Some b /\ idle b) by (intros cp Hcp Ht; destruct (Hall cp Hcp Ht) as (b & Hb & Hn & Hs); by exists b). destruct (Hone _ Hall') as [Hle Hf].
    assert (Hid : Forall idle l') by (eapply Forall_impl; [exact Hf|]; by intros b [?|?]). split; [by rewrite Hlive, (blocks_idle l' Hid)|]. right. split; [by left|]. split; [done|congruence].
  - split; [by rewrite (blocks_idle l Hl)|]. right. split; [by right|]. by split.
Qed.

(** The sizes that are tried: each a multiple of 8 and at most half of the one before. *)
Lemma round_down size : 8 <= size -> let n := size - Z.land size 7 in n mod 8 = 0 /\ 8 <= n <= size.
Proof. intros Hs. cbv zeta. change 7 with (Z.ones 3). rewrite Z.land_ones by lia. change (2 ^ 3) with 8. lia. Qed.

(** The outcome of the loop over sizes. *)
Definition sized (reserve flags cpu size : Z) (live : live_heap) (res : Z * option Z * alloc_state) : Prop :=
  let '(rc, osz, (l, live')) := res in live' ≡ₚ blocks l ++ live /\
  ((rc = 0 /\ exists sz, osz = Some sz /\ given sz flags cpu l /\ 8 <= sz <= size /\ sz mod 8 = 0 /\ reserve <= sz) \/
   ((rc = ENOMEM \/ rc = E2BIG \/ rc = EFBIG) /\ Forall idle l /\ length l = ce_ncpu /\ (forall sz, osz = Some sz -> 8 <= sz <= size))).

Lemma buffer_loop_spec manual reserve flags cpu : forall fuel size l live, (0 < fuel)%nat -> size < 2 ^ Z.of_nat fuel -> 0 <= size < 2 ^ 64 ->
  Forall idle l -> length l = ce_ncpu -> exists res, buffer_loop fuel manual reserve flags cpu size (l, live) = Some res /\ sized reserve flags cpu size live res.
Proof.
  induction fuel as [|fuel IH]; intros size l live Hf Hs Hu Hl Hlen; [lia|]. cbn [buffer_loop]. rewrite (u64_id size Hu).
  assert (Hfail : forall rc, rc = ENOMEM \/ rc = E2BIG -> sized reserve flags cpu size live (rc, None, (l, live))).
  { intros rc Hrc. split; [by rewrite (blocks_idle l Hl)|]. right. split; [tauto|]. by split_and!. }
  destruct (Z.ltb_spec size 8) as [|Hs8]; [eexists; split; [reflexivity|apply Hfail; by left]|]. pose proof (round_down size Hs8) as [Hm Hr]. cbv zeta in *. set (n := size - Z.land size 7) in *.
  destruct (Z.ltb_spec n reserve) as [|Hres]; [eexists; split; [reflexivity|apply Hfail; by right]|]. destruct (alloc_idle n flags cpu l live Hl Hlen) as (rc & l1 & live1 & -> & Hlive & Hcase).
  destruct (Z.eqb_spec rc ENOMEM) as [->|Hne]; cbn [negb].
  - destruct Hcase as [[? _]|(_ & Hl1 & Hlen1)]; [discriminate|]. rewrite (blocks_idle l1 Hl1) in Hlive. cbn [app] in Hlive.
    destruct manual; [eexists; split; [reflexivity|]; split; [by rewrite (blocks_idle l1 Hl1)|right; split; [by left|by split_and!]]|].
    destruct (IH (Z.shiftr n 1) l1 live1) as (res & Hrun & Hsized); [| | |done|done|].
    + destruct fuel; [cbn in Hs; lia|lia].
    + rewrite Z.shiftr_div_pow2 by lia. rewrite Nat2Z.inj_succ, Z.pow_succ_r in Hs by lia. change (2 ^ 1) with 2. apply Z.div_lt_upper_bound; lia.
    + rewrite Z.shiftr_div_pow2 by lia. change (2 ^ 1) with 2. lia.
    + exists res. split; [exact Hrun|]. assert (Hhalf : Z.shiftr n 1 <= size) by (rewrite Z.shiftr_div_pow2 by lia; change (2 ^ 1) with 2; lia). destruct res as [[rc osz] [l2 live2]]. destruct Hsized as [H1 H2]. split; [by rewrite H1, Hlive|].
      destruct H2 as [(-> & sz & -> & Hg & Hsz & ?)|(Hrc & ? & ? & Ho)]; [left; split; [done|]; exists sz; split_and!; try done; lia|right; split_and!; try done]; intros sz Hsz; specialize (Ho sz Hsz); lia.
  - eexists. split; [reflexivity|]. split; [exact Hlive|]. destruct Hcase as [[-> Hg]|([->| ->] & Hl1 & Hlen1)]; [left; split; [done|]; exists n; split_and!; (done || lia)|done|]. right. split; [tauto|]. split_and!; try done. intros sz [= <-]. lia.
Qed.
End Sizes.
