(* ===== verification/ConsumerGo.v ===== *)
(** Starting a consumer: dtrace_state_go() takes all the memory it needs, or gives everything back. *)
From S2P Require Import Prelude StateProg Dif SafeMem Buffer DynVar DynInit Privilege Consumer ConsumerMem.
From stdpp Require Import gmap list.
#[local] Open Scope Z_scope.
#[local] Open Scope sprog_scope.

Section Go.
Context {E : consumer_env}.

(** * What a consumer holds *)

Definition spec_own (sp : Z * list dtrace_buffer) : live_heap := (if sp.1 =? 0 then [] else [(sp.1, bufsize)]) ++ blocks sp.2.
Definition specs_own (l : list (Z * list dtrace_buffer)) : live_heap := concat (map spec_own l).

(** The allocations dtrace_state_go() made. *)
Definition mine (d : dts) : live_heap :=
  blocks (ds_bufs d).2 ++ blocks (ds_aggbufs d).2 ++ specs_own (ds_specs d) ++ (if ds_spec d =? 0 then [] else [(ds_spec d, ds_nspec d * sizeof_speculation)]) ++ dtrace_dstate_fini (ds_dyn d).

Definition kind_ok (k : buf_kind) (d : dts) : Prop := match k with KSpec i => is_Some (ds_specs d !! i) | _ => True end.

Lemma specs_put i l : forall specs, is_Some (specs !! i) -> specs_own (alter (fun sp => (sp.1, l)) i specs) ≡ₚ blocks l ++ specs_own (alter (fun sp => (sp.1, [])) i specs).
Proof.
  induction i as [|i IH]; intros [|sp specs] [x Hx]; try done; unfold specs_own in *; cbn [alter list_alter map concat].
  - unfold spec_own at 1 3. cbn [fst snd]. change (blocks []) with (@nil (Z * Z)). rewrite app_nil_r, !app_assoc. by rewrite (Permutation_app_comm (blocks l)).
  - rewrite IH by (by exists x). rewrite !app_assoc. by rewrite (Permutation_app_comm (spec_own sp)).
Qed.

(** The blocks of one kind of buffers, and the others. *)
Lemma mine_put k l d : kind_ok k d -> mine (put_kind k l d) ≡ₚ blocks l ++ mine (put_kind k [] d).
Proof.
  intros Hk. destruct k as [| |i]; unfold mine; cbn [put_kind with_bufs with_aggbufs with_spec ds_bufs ds_aggbufs ds_specs ds_spec ds_nspec ds_dyn snd].
  - done.
  - change (blocks []) with (@nil (Z * Z)). apply Permutation_app_swap_app.
  - rewrite (specs_put i l _ Hk). rewrite <- !app_assoc. rewrite (Permutation_app_swap_app (blocks (ds_aggbufs d).2)). apply Permutation_app_swap_app.
Qed.

Lemma put_same k d : kind_ok k d -> put_kind k (kind_bufs k d) d = d.
Proof.
  intros Hk. destruct d. destruct k as [| |i]; cbn in *; [unfold with_bufs; cbn; by rewrite <- surjective_pairing|unfold with_aggbufs; cbn; by rewrite <- surjective_pairing|]. destruct Hk as [sp Hsp]. rewrite Hsp. unfold with_spec. cbn. f_equal. apply list_eq. intros j. destruct (decide (i = j)) as [<-|Hne]; [rewrite list_lookup_alter_eq, Hsp; by destruct sp|by rewrite list_lookup_alter_ne].
Qed.

Lemma mine_kind k d : kind_ok k d -> mine d ≡ₚ blocks (kind_bufs k d) ++ mine (put_kind k [] d).
Proof. intros Hk. rewrite <- (put_same k d Hk) at 1. by apply mine_put. Qed.

(** What the steps before BEGIN do not change. *)
Record kept (d d' : dts) : Prop := {
  kp_activity : ds_activity d' = ds_activity d;
  kp_log : ds_log d' = ds_log d;
  kp_cred : ds_cred d' = ds_cred d;
  kp_reserve : ds_reserve d' = ds_reserve d;
  kp_ecbs : ds_ecbs d' = ds_ecbs d /\ ds_needed d' = ds_needed d /\ ds_aggs d' = ds_aggs d /\ ds_speculates d' = ds_speculates d;
  kp_cyclics : ds_cleaner d' = ds_cleaner d /\ ds_deadman d' = ds_deadman d;
  kp_arrays : (ds_bufs d').1 = (ds_bufs d).1 /\ (ds_aggbufs d').1 = (ds_aggbufs d).1
}.

#[export] Instance kept_preorder : PreOrder kept.
Proof. split; [by intros d; split|]. intros x y z [a1 a2 a3 a4 a5 a6 a7] [b1 b2 b3 b4 b5 b6 b7]. split; [congruence|congruence|congruence|congruence|..]; intuition congruence. Qed.

(** A speculation with its buffers. *)
Definition full (sp : Z * list dtrace_buffer) : Prop := sp.1 <> 0 /\ length sp.2 = ce_ncpu /\ Forall freeable sp.2.

Definition row_ok (l : list dtrace_buffer) : Prop := length l = ce_ncpu /\ Forall freeable l.

(** The consumer holds [mine], and [r] is what others hold. *)
Record mem_ok (r : live_heap) (d : dts) : Prop := {
  mo_opts : length (ds_options d) = Z.to_nat DTRACEOPT_MAX;
  mo_bufs : row_ok (ds_bufs d).2;
  mo_agg : row_ok (ds_aggbufs d).2;
  mo_specs : exists l n, ds_specs d = l ++ replicate n (0, []) /\ Forall full l;
  mo_nspec : 0 <= ds_nspec d /\ length (ds_specs d) = Z.to_nat (ds_nspec d);
  mo_null : ds_spec d = 0 <-> ds_nspec d = 0;
  mo_heap : ds_live d ≡ₚ mine d ++ r
}.

(** Every speculation has its array. *)
Definition arrays_there (d : dts) : Prop := Forall (fun sp => sp.1 <> 0) (ds_specs d).

(** What a consumer was given at its creation. *)
Definition arrays (d : dts) : live_heap := [((ds_bufs d).1, bufsize); ((ds_aggbufs d).1, bufsize)].

(** All memory stays where it is. *)
Record moved (d d' : dts) : Prop := {
  mv_bufs : (ds_bufs d').1 = (ds_bufs d).1 /\ all_in_place (ds_bufs d).2 (ds_bufs d').2;
  mv_agg : (ds_aggbufs d').1 = (ds_aggbufs d).1 /\ all_in_place (ds_aggbufs d).2 (ds_aggbufs d').2;
  mv_specs : Forall2 (fun sp sp' : Z * list dtrace_buffer => sp'.1 = sp.1 /\ all_in_place sp.2 sp'.2) (ds_specs d) (ds_specs d');
  mv_spec : ds_spec d' = ds_spec d /\ ds_nspec d' = ds_nspec d;
  mv_live : ds_dyn d' = ds_dyn d /\ ds_live d' = ds_live d;
  mv_opts : length (ds_options d') = length (ds_options d)
}.

Lemma moved_row l l' : all_in_place l l' -> row_ok l -> row_ok l'.
Proof. intros H [H1 H2]. split; [by rewrite <- (Forall2_length _ _ _ H)|by eapply all_freeable]. Qed.

Lemma moved_full (l l' : list (Z * list dtrace_buffer)) : Forall2 (fun sp sp' : Z * list dtrace_buffer => sp'.1 = sp.1 /\ all_in_place sp.2 sp'.2) l l' -> Forall full l -> Forall full l'.
Proof. intros H. induction H as [|sp sp' l l' [H1 H2] H IH]; intros Hf; [done|]. apply Forall_cons in Hf as [(f1 & f2) Hf]. constructor; [|by apply IH]. split; [congruence|]. by apply (moved_row sp.2). Qed.

Lemma moved_own (l l' : list (Z * list dtrace_buffer)) : Forall2 (fun sp sp' : Z * list dtrace_buffer => sp'.1 = sp.1 /\ all_in_place sp.2 sp'.2) l l' -> specs_own l' = specs_own l.
Proof. intros H. unfold specs_own. f_equal. induction H as [|sp sp' l l' [H1 H2] H IH]; [done|]. cbn [map]. f_equal; [|done]. unfold spec_own. by rewrite H1, (all_blocks _ _ H2). Qed.

Lemma moved_mem r d d' : moved d d' -> mem_ok r d -> mem_ok r d'.
Proof.
  intros [[v1 v1'] [v2 v2'] v3 [v4 v4'] [v5 v5'] v6] [m1 m2 m3 (l & n & Hs & Hf) [m5 m5'] m6 m7]. split; rewrite ?v4, ?v4', ?v5', ?v6; try done.
  - by eapply moved_row.
  - by eapply moved_row.
  - rewrite Hs in v3. apply Forall2_app_inv_l in v3 as (l' & l2 & H1 & H2 & ->). exists l', n. split; [|by eapply moved_full]. f_equal. clear -H2. revert l2 H2. induction n as [|n IH]; intros l2 H2; inversion H2; subst; [done|]. cbn. f_equal; [|by apply IH].
    destruct y as [a b]. destruct H1 as [H1 H1']. cbn in *. subst. inversion H1'. done.
  - split; [done|]. by rewrite <- (Forall2_length _ _ _ v3).
  - rewrite m7. unfold mine. by rewrite (all_blocks _ _ v1'), (all_blocks _ _ v2'), (moved_own _ _ v3), v4, v4', v5.
Qed.

Lemma moved_there d d' : moved d d' -> arrays_there d -> arrays_there d'.
Proof. intros Hv. pose proof (mv_specs _ _ Hv) as H. unfold arrays_there. induction H as [|sp sp' l l' [H1 _] H IH]; intros Hf; [done|]. apply Forall_cons in Hf as [f1 Hf]. constructor; [congruence|by apply IH]. Qed.

Lemma moved_arrays d d' : moved d d' -> arrays d' = arrays d.
Proof. intros [[v1 _] [v2 _] _ _ _ _]. unfold arrays. by rewrite v1, v2. Qed.

Lemma moved_specs_refl (l : list (Z * list dtrace_buffer)) : Forall2 (fun sp sp' : Z * list dtrace_buffer => sp'.1 = sp.1 /\ all_in_place sp.2 sp'.2) l l.
Proof. apply Forall_Forall2_diag, Forall_true. intros sp. split; [done|apply all_refl]. Qed.

Lemma freeable_idle l : Forall idle l -> Forall freeable l.
Proof. intros H. eapply Forall_impl; [exact H|]. intros b Hb. by left. Qed.

(** New buffers of a kind. *)
Lemma mem_put r k l live d d' : mem_ok r d -> kind_ok k d -> (forall i sp, k = KSpec i -> ds_specs d !! i = Some sp -> sp.1 <> 0) -> row_ok l -> live ≡ₚ blocks l ++ mine (put_kind k [] d) ++ r ->
  d' = with_live live (put_kind k l d) -> mem_ok r d'.
Proof.
  intros [m1 m2 m3 m4 m5 m6 m7] Hk Hfull Hl Hlive ->. assert (Hh : live ≡ₚ mine (put_kind k l d) ++ r) by (by rewrite Hlive, (mine_put k l d Hk), app_assoc). destruct k as [| |i]; (split; try done).
  - destruct m4 as (full_l & n & Hs & Hf). cbn. destruct Hk as [sp Hsp]. pose proof (Hfull i sp eq_refl Hsp) as Hne. rewrite Hs in Hsp |- *. destruct (decide (i < length full_l)%nat) as [Hlt|Hge].
    + exists (alter (fun sp => (sp.1, l)) i full_l), n. split; [by rewrite alter_app_l|]. apply Forall_alter; [done|]. intros y Hy Hfy. destruct Hfy as (? & _ & _). by split.
    + exfalso. rewrite lookup_app_r in Hsp by lia. apply lookup_replicate in Hsp as [-> _]. done.
  - cbn. by rewrite length_alter.
Qed.

Lemma free_bufs_run r k d :
  mem_ok r d -> kind_ok k d -> row_ok (kind_bufs k d) -> (forall i sp, k = KSpec i -> ds_specs d !! i = Some sp -> sp.1 <> 0) ->
  runs (free_bufs k) d (fun _ d' => exists l, d' = with_live (ds_live d') (put_kind k l d) /\ mem_ok r d' /\ Forall idle l).
Proof.
  intros Hm Hk [Hlen Hf] Hfull. unfold free_bufs, get_dts. eapply bind_gets; [reflexivity|]. assert (Hh : ds_live d ≡ₚ blocks (kind_bufs k d) ++ mine (put_kind k [] d) ++ r) by (by rewrite (mo_heap _ _ Hm), (mine_kind k d Hk), app_assoc).
  destruct (buffer_free_spec _ _ _ Hf Hh) as (l & live & Hrun & Hlive & Hidle & Hll). eapply bind_gets; [exact Hrun|]. apply bind_puts. apply runs_puts. exists l. split; [done|]. split; [|done].
  eapply (mem_put r k l live d); [done|done|done|split; [by rewrite Hll|by apply freeable_idle]| |done]. by rewrite Hlive, (blocks_idle l Hidle).
Qed.

Lemma free_live_run a n live' d : ds_live d ≡ₚ (a, n) :: live' -> a <> 0 -> runs (free_live a n) d (fun _ d' => d' = with_live (ds_live d') d /\ ds_live d' ≡ₚ live').
Proof.
  intros Hl Ha. unfold free_live, get_dts. destruct (Z.eqb_spec a 0); [done|]. eapply bind_gets; [reflexivity|]. destruct (kmem_free_spec _ _ _ _ Hl) as (l & Hk & Hp). eapply bind_gets; [exact Hk|]. by apply runs_puts.
Qed.

(** * Undoing *)

Lemma free_specs_run : forall l pre n R d, ds_specs d = pre ++ l ++ replicate n (0, []) -> Forall full l -> ds_live d ≡ₚ specs_own l ++ R ->
  runs (free_specs (seq (length pre) (length l + n))) d (fun _ d' => exists specs, d' = with_live (ds_live d') (with_spec (ds_spec d) specs (ds_nspec d) d) /\ ds_live d' ≡ₚ R).
Proof.
  induction l as [|sp l IH]; intros pre n R d Hs Hf Hl.
  - destruct n as [|n]; cbn [length Nat.add seq free_specs]; [apply runs_ret; exists (ds_specs d); by destruct d|]. eapply bind_gets; [reflexivity|]. eapply (bind_gets _ _ _ (0, [])); [rewrite Hs; by rewrite lookup_app_r, Nat.sub_diag by lia|]. cbn. apply runs_ret. exists (ds_specs d). by destruct d.
  - apply Forall_cons in Hf as [(Hne & Hlen & Hfr) Hf]. cbn [length Nat.add seq free_specs]. assert (Hk : ds_specs d !! length pre = Some sp) by (rewrite Hs; by rewrite lookup_app_r, Nat.sub_diag by lia). eapply bind_gets; [reflexivity|]. eapply bind_gets; [exact Hk|]. destruct (Z.eqb_spec sp.1 0); [done|].
    unfold free_bufs, get_dts. apply bind_assoc. eapply bind_gets; [reflexivity|]. cbn [kind_bufs]. rewrite Hk.
    assert (Hl' : ds_live d ≡ₚ blocks sp.2 ++ (sp.1, bufsize) :: specs_own l ++ R). { rewrite Hl. unfold specs_own, spec_own. cbn [map concat]. destruct (Z.eqb_spec sp.1 0); [done|]. cbn. by rewrite <- !app_assoc, Permutation_middle. }
    destruct (buffer_free_spec _ _ _ Hfr Hl') as (bufs & live & Hrun & Hlive & Hidle & Hll). apply bind_assoc. eapply bind_gets; [exact Hrun|]. apply bind_assoc. apply bind_puts. apply bind_puts. set (d1 := with_live _ _). assert (Hd1 : ds_live d1 ≡ₚ (sp.1, bufsize) :: specs_own l ++ R) by exact Hlive.
    eapply runs_bind; [by apply (free_live_run sp.1 bufsize _ d1 Hd1)|]. intros u d2 [He2 Hl2]. cbn beta in *. replace (S (length pre)) with (length (pre ++ [(sp.1, bufs)])) by (rewrite length_app; cbn; lia).
    eapply runs_weaken; [apply (IH (pre ++ [(sp.1, bufs)]) n R d2)|].
    + rewrite He2. cbn. rewrite Hs. rewrite alter_app_r_alt, Nat.sub_diag by lia. cbn. by rewrite <- app_assoc.
    + done.
    + exact Hl2.
    + intros u' d3 (specs & He3 & Hl3). exists specs. split; [|done]. rewrite He3, He2. done.
Qed.

(** No speculations, no buffers. *)
Record bare (d : dts) : Prop := {
  ba_bufs : Forall idle (ds_bufs d).2;
  ba_agg : Forall idle (ds_aggbufs d).2;
  ba_spec : ds_spec d = 0 /\ ds_nspec d = 0 /\ ds_specs d = []
}.

Lemma go_undo_run r d :
  mem_ok r d -> dtds_base (ds_dyn d) = 0 -> runs go_undo d (fun _ d' => kept d d' /\ mem_ok r d' /\ bare d' /\ ds_live d' ≡ₚ r /\ ds_options d' = ds_options d).
Proof.
  intros Hm Hdyn. unfold go_undo. eapply runs_bind; [by apply (free_bufs_run r KPrincipal d Hm); [|apply Hm|]|]. intros u d1 (l1 & He1 & Hm1 & Hi1). eapply runs_bind; [by apply (free_bufs_run r KAgg d1 Hm1); [|apply Hm1|]|]. intros u2 d2 (l2 & He2 & Hm2 & Hi2). cbn beta in *.
  assert (Hk : kept d d2 /\ ds_options d2 = ds_options d /\ ds_dyn d2 = ds_dyn d /\ ds_spec d2 = ds_spec d /\ ds_nspec d2 = ds_nspec d /\ ds_specs d2 = ds_specs d /\ (ds_bufs d2).2 = l1 /\ (ds_aggbufs d2).2 = l2) by (rewrite He2, He1; by split_and!).
  destruct Hk as (Hk & Ho & Hdy & Hsp & Hns & Hss & Hb1 & Hb2). pose proof Hm2 as [m1 m2 m3 (l & n & Hs & Hfull) [m5 m5'] m6 m7].
  assert (Hmine : mine d2 = specs_own l ++ if ds_spec d2 =? 0 then [] else [(ds_spec d2, ds_nspec d2 * sizeof_speculation)]).
  { unfold mine, dtrace_dstate_fini. rewrite Hb1, Hb2, (blocks_idle l1 Hi1), (blocks_idle l2 Hi2), Hdy, Hdyn, Hs. cbn [app Z.eqb]. rewrite app_nil_r. f_equal. unfold specs_own. rewrite map_app, concat_app. clear. induction n as [|n IH]; [by rewrite app_nil_r|]. cbn. exact IH. }
  unfold get_dts. eapply bind_gets; [reflexivity|]. destruct (Z.eqb_spec (ds_nspec d2) 0) as [H0|H0].
  - pose proof (proj2 m6 H0) as Hs0. rewrite H0 in m5'. apply length_zero_iff_nil in m5'. assert (Hl0 : l = []) by (destruct l; [done|by rewrite m5' in Hs]). exists tt, d2. split; [unfold sassert; by rewrite Hs0|]. split; [done|]. split; [done|]. split; [split; [by rewrite Hb1|by rewrite Hb2|by split_and!]|]. split; [|done].
    rewrite m7, Hmine, Hs0, Hl0. done.
  - assert (Hne : ds_spec d2 <> 0) by (intros ?; by apply H0, m6). apply bind_assert; [by destruct (Z.eqb_spec (ds_spec d2) 0)|]. rewrite Hmine in m7. destruct (Z.eqb_spec (ds_spec d2) 0); [done|]. rewrite <- app_assoc in m7.
    rewrite <- m5', Hs, length_app, length_replicate. eapply runs_bind; [by apply (free_specs_run l [] n _ d2 Hs Hfull m7)|]. intros u3 d3 (specs & He3 & Hl3). cbn beta in *. eapply runs_bind; [by apply (free_live_run (ds_spec d2) (ds_nspec d2 * sizeof_speculation) r d3)|].
    intros u4 d4 [He4 Hl4]. apply runs_puts. assert (Hrest : forall d5, d5 = with_spec 0 [] 0 d4 -> kept d d5 /\ (ds_bufs d5).2 = l1 /\ (ds_aggbufs d5).2 = l2 /\ ds_live d5 = ds_live d4 /\ ds_options d5 = ds_options d /\ ds_dyn d5 = ds_dyn d).
    { intros d5 ->. rewrite He4, He3. cbn. destruct Hk as [k1 k2 k3 k4 k5 k6 k7]. by split_and!. }
    destruct (Hrest _ eq_refl) as (Hk5 & Hb5 & Hb5' & Hl5 & Ho5 & Hd5). split; [done|]. rewrite Hl5. split; [|split; [split; [by rewrite Hb5|by rewrite Hb5'|by split_and!]|by split]].
    split; [by rewrite Ho5, <- Ho|rewrite Hb5, <- Hb1; apply m2|rewrite Hb5', <- Hb2; apply m3|by exists [], 0%nat|done|done|]. unfold mine, dtrace_dstate_fini. rewrite Hb5, Hb5', (blocks_idle l1 Hi1), (blocks_idle l2 Hi2), Hd5, Hdyn, Hl5. exact Hl4.
Qed.

(** * Sizes *)

Definition opt_range (v : Z) : Prop := v = DTRACEOPT_UNSET \/ 0 <= v < 2 ^ 63.

(** Options as dtrace_state_option() lets them be, all CPUs traced, and at least one speculation. *)
Record opts_ok (l : list Z) : Prop := {
  oo_len : length l = Z.to_nat DTRACEOPT_MAX;
  oo_sizes : forall o, o ∈ [DTRACEOPT_BUFSIZE; DTRACEOPT_AGGSIZE; DTRACEOPT_SPECSIZE; DTRACEOPT_DYNVARSIZE] -> opt_range (opt_in l o);
  oo_nspec : 1 <= opt_in l DTRACEOPT_NSPEC < 2 ^ 63;
  oo_cpu : opt_in l DTRACEOPT_CPU = DTRACE_CPUALL
}.

Lemma opt_set l o o' v : length l = Z.to_nat DTRACEOPT_MAX -> 0 <= o < DTRACEOPT_MAX -> 0 <= o' -> opt_in (<[Z.to_nat o := v]> l) o' = if decide (o' = o) then v else opt_in l o'.
Proof.
  intros Hl Ho Ho'. unfold opt_in, DTRACEOPT_MAX in *. destruct (decide (o' = o)) as [->|Hne].
  - rewrite (nth_lookup_Some _ _ _ v); [done|]. apply list_lookup_insert_eq. lia.
  - rewrite !nth_lookup. rewrite list_lookup_insert_ne; [done|]. lia.
Qed.

Definition size_opts : list Z := [DTRACEOPT_BUFSIZE; DTRACEOPT_AGGSIZE; DTRACEOPT_SPECSIZE; DTRACEOPT_DYNVARSIZE].

Lemma size_opts_range o : o ∈ size_opts -> 0 <= o < DTRACEOPT_MAX /\ o <> DTRACEOPT_NSPEC /\ o <> DTRACEOPT_CPU /\ o <> DTRACEOPT_BUFRESIZE /\ o <> DTRACEOPT_GRABANON.
Proof. unfold size_opts, DTRACEOPT_BUFSIZE, DTRACEOPT_AGGSIZE, DTRACEOPT_SPECSIZE, DTRACEOPT_DYNVARSIZE, DTRACEOPT_MAX, DTRACEOPT_NSPEC, DTRACEOPT_CPU, DTRACEOPT_BUFRESIZE, DTRACEOPT_GRABANON. rewrite !elem_of_cons, elem_of_nil. lia. Qed.

(** A size is set. *)
Lemma opts_set l o v : opts_ok l -> o ∈ size_opts -> opt_range v -> opts_ok (<[Z.to_nat o := v]> l).
Proof.
  intros [o1 o2 o3 o4] Ho Hv. pose proof (size_opts_range o Ho) as (Hr & Hn & Hc & _). split; [by rewrite length_insert|..].
  - intros o' Ho'. rewrite opt_set; [|done|done|apply (size_opts_range o' Ho')]. destruct (decide (o' = o)); [done|by apply o2].
  - rewrite opt_set by done. by destruct (decide (DTRACEOPT_NSPEC = o)).
  - rewrite opt_set by done. by destruct (decide (DTRACEOPT_CPU = o)).
Qed.

Lemma kind_opt_size k : kind_opt k ∈ size_opts.
Proof. unfold size_opts. rewrite !elem_of_cons. destruct k; cbn; tauto. Qed.

Context (Hcpus : cpus_ok).

Lemma given_row size flags cpu l : given size flags cpu l -> size <> 0 -> row_ok l.
Proof.
  intros (Hlen & Hf & _) Hs. split; [done|]. eapply Forall_impl; [exact Hf|]. intros b [Hb|(Ht & _ & Hfl & _ & _ & Hx)]; [by left|right]. split; [done|]. unfold has_flag. rewrite Hfl. intros Hn. apply negb_true_iff, Z.eqb_neq in Hn.
  destruct (Z.eq_dec (dtb_xamot b) 0) as [|Hx0]; [done|]. apply Hx in Hx0. done.
Qed.

(** What the allocation of one kind of buffers leaves. *)
Definition after_buffer (k : buf_kind) (d : dts) (rval : Z) (d' : dts) : Prop :=
  exists l live opts, d' = with_options opts (with_live live (put_kind k l d)) /\ opts_ok opts /\ (forall o, 0 <= o -> o <> kind_opt k -> opt_in opts o = opt_in (ds_options d) o) /\ row_ok l /\
    (rval = 0 -> ((opt (kind_opt k) d = DTRACEOPT_UNSET \/ opt (kind_opt k) d = 0) /\ l = kind_bufs k d /\ opts = ds_options d) \/
       (given (opt_in opts (kind_opt k)) (buf_flags k d) DTRACE_CPUALL l /\ 8 <= opt_in opts (kind_opt k) <= opt (kind_opt k) d /\ opt_in opts (kind_opt k) mod 8 = 0 /\ ds_reserve d <= opt_in opts (kind_opt k))) /\
    (rval <> 0 -> Forall idle l).

Lemma state_buffer_run r k d :
  mem_ok r d -> ds_activity d = INACTIVE -> opts_ok (ds_options d) -> kind_ok k d -> (forall i sp, k = KSpec i -> ds_specs d !! i = Some sp -> sp.1 <> 0) ->
  Forall idle (kind_bufs k d) -> length (kind_bufs k d) = ce_ncpu -> runs (dtrace_state_buffer k) d (fun rval d' => mem_ok r d' /\ after_buffer k d rval d').
Proof.
  intros Hm Hact Ho Hk Hfull Hidle Hlen. unfold dtrace_state_buffer, get_dts. eapply bind_gets; [reflexivity|]. apply bind_assert; [by apply bool_decide_eq_true_2|]. cbv zeta. pose proof (oo_sizes _ Ho (kind_opt k) (kind_opt_size k)) as Hrange. change (opt_in (ds_options d) (kind_opt k)) with (opt (kind_opt k) d) in Hrange.
  assert (Hrow : row_ok (kind_bufs k d)) by (split; [done|by apply freeable_idle]). destruct (_ || _) eqn:Hz.
  - apply runs_ret. split; [done|]. exists (kind_bufs k d), (ds_live d), (ds_options d). split; [rewrite (put_same k d Hk); by destruct d|]. split_and!; try done. intros _. left. split; [|done]. apply orb_true_iff in Hz as [Hz|Hz]; apply Z.eqb_eq in Hz; tauto.
  - apply orb_false_iff in Hz as [Hz1 Hz2]. apply Z.eqb_neq in Hz1, Hz2. destruct Hrange as [?|Hrange]; [done|]. assert (Hcpu : (if opt DTRACEOPT_CPU d =? DTRACEOPT_UNSET then 0 else s32 (opt DTRACEOPT_CPU d)) = DTRACE_CPUALL) by (unfold opt; by rewrite (oo_cpu _ Ho)). rewrite Hcpu.
    destruct (buffer_loop_spec Hcpus (opt DTRACEOPT_BUFRESIZE d =? DTRACEOPT_BUFRESIZE_MANUAL) (ds_reserve d) (buf_flags k d) DTRACE_CPUALL 64 (opt (kind_opt k) d) (kind_bufs k d) (ds_live d)) as ([[rc osz] [l live]] & Hrun & Hlive & Hcase); [lia|lia|lia|done|done|].
    eapply bind_gets; [exact Hrun|]. cbn beta iota. apply bind_puts. apply bind_puts. rewrite (mo_heap _ _ Hm), (mine_kind k d Hk), (blocks_idle _ Hidle) in Hlive. cbn [app] in Hlive. assert (Hlrow : row_ok l).
    { destruct Hcase as [(_ & sz & _ & Hg & Hsz & _)|(_ & Hi & Hll & _)]; [eapply given_row; [exact Hg|lia]|split; [done|by apply freeable_idle]]. }
    assert (Hm' : forall opts, opts_ok opts -> mem_ok r (with_options opts (with_live live (put_kind k l d)))).
    { intros opts Hopts. destruct (mem_put r k l live d _ Hm Hk Hfull Hlrow Hlive eq_refl) as [m1 m2 m3 m4 m5 m6 m7]. split; try done. apply Hopts. }
    assert (Hset : forall sz, 8 <= sz <= opt (kind_opt k) d -> opts_ok (<[Z.to_nat (kind_opt k) := sz]> (ds_options d)) /\ (forall o, 0 <= o -> o <> kind_opt k -> opt_in (<[Z.to_nat (kind_opt k) := sz]> (ds_options d)) o = opt_in (ds_options d) o) /\ opt_in (<[Z.to_nat (kind_opt k) := sz]> (ds_options d)) (kind_opt k) = sz).
    { intros sz Hsz. pose proof (size_opts_range _ (kind_opt_size k)) as (Hr & _). split; [apply opts_set; [done|apply kind_opt_size|right; lia]|]. split; [|rewrite opt_set by (apply Ho || lia); by destruct (decide (kind_opt k = kind_opt k))]. intros o H0 Hne. rewrite opt_set by (apply Ho || lia). by destruct (decide (o = kind_opt k)). }
    destruct osz as [sz|].
    + apply bind_puts. apply runs_ret. assert (Hsz : 8 <= sz <= opt (kind_opt k) d) by (destruct Hcase as [(_ & z & [= <-] & _ & ? & _)|(_ & _ & _ & H)]; [done|by apply H]). destruct (Hset sz Hsz) as (Hok & Hoth & Hthis). set (opts := <[Z.to_nat (kind_opt k) := sz]> (ds_options d)) in *.
      assert (He : set_opt (kind_opt k) sz (with_live live (put_kind k l d)) = with_options opts (with_live live (put_kind k l d))) by (by destruct k). rewrite He. split; [by apply Hm'|]. exists l, live, opts. split_and!; try done.
      * intros ->. right. rewrite Hthis. destruct Hcase as [(_ & z & [= <-] & Hg & H1 & H2 & H3)|([H|[H|H]] & _)]; [split_and!; (done || lia)|discriminate..].
      * intros Hne. by destruct Hcase as [[? _]|(_ & Hi & _)].
    + apply bind_ret. apply runs_ret. assert (He : with_live live (put_kind k l d) = with_options (ds_options d) (with_live live (put_kind k l d))) by (by destruct k). rewrite He. split; [by apply Hm'|]. exists l, live, (ds_options d). split_and!; try done.
      * intros ->. destruct Hcase as [(_ & z & Hn & _)|([H|[H|H]] & _)]; discriminate.
      * intros Hne. by destruct Hcase as [[? _]|(_ & Hi & _)].
Qed.

(** Options but those in [l] are the same. *)
Definition opts_but (l : list Z) (o1 o2 : list Z) : Prop := forall o, 0 <= o -> o ∉ l -> opt_in o2 o = opt_in o1 o.

(** Only options [l], speculations and memory change. *)
Definition specs_changed (l : list Z) (d d' : dts) : Prop :=
  exists specs live opts, d' = with_options opts (with_live live (with_spec (ds_spec d) specs (ds_nspec d) d)) /\ opts_ok opts /\ opts_but l (ds_options d) opts.

(** Speculations whose buffers have not been allocated. *)
Definition waiting (ids : list nat) (d : dts) : Prop := forall i, In i ids -> exists sp, ds_specs d !! i = Some sp /\ sp.1 <> 0 /\ Forall idle sp.2 /\ length sp.2 = ce_ncpu.

Lemma spec_buffers_run r : forall ids d, NoDup ids -> mem_ok r d -> ds_activity d = INACTIVE -> opts_ok (ds_options d) -> waiting ids d ->
  runs (spec_buffers ids) d (fun rval d' => mem_ok r d' /\ specs_changed [DTRACEOPT_SPECSIZE] d d').
Proof.
  induction ids as [|i ids IH]; intros d Hnd Hm Hact Ho Hw; cbn [spec_buffers].
  - apply runs_ret. split; [done|]. exists (ds_specs d), (ds_live d), (ds_options d). split; [by destruct d|]. by split.
  - pose proof (NoDup_cons_1_1 _ _ Hnd) as Hni. rewrite list_elem_of_In in Hni. apply NoDup_cons_1_2 in Hnd. destruct (Hw i (or_introl eq_refl)) as (sp & Hsp & Hne & Hidle & Hlen).
    eapply runs_bind; [apply (state_buffer_run r (KSpec i) d); try done; [by exists sp|intros j sp' [= <-] Hj; by rewrite Hsp in Hj; injection Hj as <-|cbn; by rewrite Hsp|cbn; by rewrite Hsp]|].
    intros rval d1 [Hm1 (l & live & opts & He & Hopts & Hoth & _)]. assert (Hch : specs_changed [DTRACEOPT_SPECSIZE] d d1).
    { eexists _, live, opts. split; [exact He|]. split; [done|]. intros o H0 Hno. apply Hoth; [done|]. intros ->. apply Hno. by left. }
    destruct (negb _); [apply runs_ret; by split|]. eapply runs_weaken; [apply IH; [done|done|by rewrite He|by rewrite He|]|].
    + intros j Hj. destruct (Hw j (or_intror Hj)) as (sp' & Hsp' & Hr). exists sp'. split; [|done]. rewrite He. cbn. rewrite list_lookup_alter_ne; [done|]. by intros ->.
    + intros rval' d2 [Hm2 (specs2 & live2 & opts2 & He2 & Ho2 & Hb2)]. split; [done|]. exists specs2, live2, opts2. split; [by rewrite He2, He|]. split; [done|]. intros o H0 Hno. rewrite Hb2 by done. rewrite He. cbn. apply Hoth; [done|]. intros ->. apply Hno. by left.
Qed.

(** All buffers: on success the principal ones are there, unless their size is not set. *)
Definition buffers_there (d : dts) (d' : dts) : Prop :=
  8 <= opt DTRACEOPT_BUFSIZE d -> given (opt DTRACEOPT_BUFSIZE d') (buf_flags KPrincipal d) DTRACE_CPUALL (ds_bufs d').2 /\ 8 <= opt DTRACEOPT_BUFSIZE d' <= opt DTRACEOPT_BUFSIZE d /\
    opt DTRACEOPT_BUFSIZE d' mod 8 = 0 /\ ds_reserve d <= opt DTRACEOPT_BUFSIZE d'.

Lemma buffers_run r d :
  mem_ok r d -> ds_activity d = INACTIVE -> opts_ok (ds_options d) -> Forall idle (ds_bufs d).2 -> Forall idle (ds_aggbufs d).2 -> waiting (seq 0 (Z.to_nat (ds_nspec d))) d ->
  runs dtrace_state_buffers d (fun rval d' => mem_ok r d' /\ kept d d' /\ ds_dyn d' = ds_dyn d /\ opts_ok (ds_options d') /\ opts_but [DTRACEOPT_BUFSIZE; DTRACEOPT_AGGSIZE; DTRACEOPT_SPECSIZE] (ds_options d) (ds_options d') /\ (rval = 0 -> buffers_there d d')).
Proof.
  intros Hm Hact Ho Hb Ha Hw. unfold dtrace_state_buffers. eapply runs_bind; [by apply (state_buffer_run r KPrincipal d); try done; apply Hm|]. intros rval d1 [Hm1 (l1 & live1 & opts1 & He1 & Ho1 & Hb1 & Hr1 & Hok1 & _)].
  assert (Hbut1 : opts_but [DTRACEOPT_BUFSIZE; DTRACEOPT_AGGSIZE; DTRACEOPT_SPECSIZE] (ds_options d) opts1) by (intros o H0 Hno; apply Hb1; [done|]; intros ->; apply Hno; by left).
  destruct (Z.eqb_spec rval 0) as [->|Hne]; cbn [negb]; [|apply runs_ret; split; [done|]; rewrite He1; by split_and!]. specialize (Hok1 eq_refl).
  eapply runs_bind; [apply (state_buffer_run r KAgg d1); try done; [by rewrite He1..|apply Hm1]|]. intros rval2 d2 [Hm2 (l2 & live2 & opts2 & He2 & Ho2 & Hb2 & Hr2 & _ & _)]. assert (Hopts1 : ds_options d1 = opts1) by (by rewrite He1). rewrite Hopts1 in Hb2.
  assert (Hbut2 : opts_but [DTRACEOPT_BUFSIZE; DTRACEOPT_AGGSIZE; DTRACEOPT_SPECSIZE] (ds_options d) opts2) by (intros o H0 Hno; rewrite Hb2; [by apply Hbut1|done|]; intros ->; apply Hno; right; by left).
  destruct (Z.eqb_spec rval2 0) as [->|Hne]; cbn [negb]; [|apply runs_ret; split; [done|]; rewrite He2, He1; by split_and!]. unfold get_dts. eapply bind_gets; [reflexivity|].
  eapply runs_weaken; [apply (spec_buffers_run r); [apply NoDup_seq|done|by rewrite He2, He1|by rewrite He2|rewrite He2, He1; exact Hw]|]. intros rval3 d3 [Hm3 (specs & live3 & opts3 & He3 & Ho3 & Hb3)]. assert (Hopts2 : ds_options d2 = opts2) by (by rewrite He2). rewrite Hopts2 in Hb3. split; [done|].
  assert (Hsh : kept d d3 /\ ds_dyn d3 = ds_dyn d /\ ds_options d3 = opts3 /\ (ds_bufs d3).2 = l1) by (rewrite He3, He2, He1; by split_and!). destruct Hsh as (Hk & Hdy & Hop & Hbu). split; [done|]. split; [done|]. rewrite Hop. split; [done|]. split.
  - intros o H0 Hno. rewrite Hb3; [by apply Hbut2|done|]. rewrite list_elem_of_singleton. intros ->. apply Hno. right; right; by left.
  - intros _ H8. change (opt DTRACEOPT_BUFSIZE d3) with (opt_in (ds_options d3) DTRACEOPT_BUFSIZE). rewrite Hop, Hbu. assert (Hsame : opt_in opts3 DTRACEOPT_BUFSIZE = opt_in opts1 DTRACEOPT_BUFSIZE) by (rewrite Hb3, Hb2; [done|done|done|done|by rewrite list_elem_of_singleton]). rewrite Hsame.
    destruct Hok1 as [([Hz|Hz] & _)|Hg]; [change (kind_opt KPrincipal) with DTRACEOPT_BUFSIZE in Hz; unfold DTRACEOPT_UNSET in Hz; lia|change (kind_opt KPrincipal) with DTRACEOPT_BUFSIZE in Hz; lia|]. exact Hg.
Qed.

(** * Speculations *)

Definition ready (sp : Z * list dtrace_buffer) : Prop := sp.1 <> 0 /\ Forall idle sp.2 /\ length sp.2 = ce_ncpu.

Lemma ready_full l : Forall ready l -> Forall full l.
Proof. intros H. eapply Forall_impl; [exact H|]. intros sp (H1 & H2 & H3). split; [done|]. split; [done|by apply freeable_idle]. Qed.

Lemma specs_own_zero l n : specs_own (l ++ replicate n (0, [])) = specs_own l.
Proof. unfold specs_own. rewrite map_app, concat_app. induction n as [|n IH]; [by rewrite app_nil_r|]. exact IH. Qed.

Lemma null_row : Forall idle (replicate ce_ncpu null_buf).
Proof. by apply Forall_replicate. Qed.

Lemma specs_own_new l a : a <> 0 -> specs_own (l ++ [(a, replicate ce_ncpu null_buf)]) ≡ₚ (a, bufsize) :: specs_own l.
Proof.
  intros Ha. unfold specs_own. rewrite map_app, concat_app. cbn [map concat]. unfold spec_own at 2. cbn [fst snd]. destruct (Z.eqb_spec a 0); [done|]. rewrite (blocks_idle _ null_row). cbn. by rewrite <- Permutation_cons_append.
Qed.

Lemma perm_third {A} (x : A) l1 l2 l3 l4 r : x :: (l1 ++ l2 ++ l3 ++ l4) ++ r ≡ₚ (l1 ++ l2 ++ (x :: l3) ++ l4) ++ r.
Proof. rewrite <- !app_assoc. rewrite (app_assoc l1 l2), (app_assoc l1 l2). apply Permutation_middle. Qed.

Lemma perm_last {A} (x : A) l1 l2 l3 l4 : l1 ++ l2 ++ l3 ++ l4 ++ [x] ≡ₚ x :: l1 ++ l2 ++ l3 ++ l4 ++ [].
Proof. rewrite app_nil_r, !app_assoc. symmetry. apply Permutation_cons_append. Qed.

Lemma zalloc_run n d : runs (zalloc n) d (fun a d' => (a = 0 /\ d' = d) \/ (a <> 0 /\ d' = with_live ((a, n) :: ds_live d) d)).
Proof.
  unfold zalloc, get_dts. eapply bind_gets; [reflexivity|]. unfold kmem_zalloc. destruct (Z.eqb_spec (ce_pick n (ds_live d)) 0) as [Hz|Hz]; apply bind_puts; apply runs_ret; [left; split; [done|by destruct d]|by right].
Qed.

Lemma spec_arrays_run r : forall n l d, ds_specs d = l ++ replicate n (0, []) -> Forall ready l -> mem_ok r d ->
  runs (spec_arrays (seq (length l) n)) d (fun s d' => (s = Go \/ s = Err ENOMEM) /\ mem_ok r d' /\ (exists specs live, d' = with_live live (with_spec (ds_spec d) specs (ds_nspec d) d)) /\ (s = Go -> Forall ready (ds_specs d'))).
Proof.
  induction n as [|n IH]; intros l d Hs Hl Hm; cbn [seq spec_arrays].
  - apply runs_ret. split; [by left|]. split; [done|]. split; [exists (ds_specs d), (ds_live d); by destruct d|]. intros _. rewrite Hs. cbn. by rewrite app_nil_r.
  - eapply runs_bind; [apply zalloc_run|]. intros a d1 [[-> ->]|[Ha ->]]; cbn [Z.eqb].
    + apply runs_ret. split; [by right|]. split; [done|]. split; [exists (ds_specs d), (ds_live d); by destruct d|done].
    + destruct (Z.eqb_spec a 0); [done|]. apply bind_puts. set (sp := (a, replicate ce_ncpu null_buf)). set (d2 := with_spec _ _ _ _).
      assert (Hs2 : ds_specs d2 = (l ++ [sp]) ++ replicate n (0, [])) by (unfold d2; cbn; rewrite Hs, insert_app_r_alt, Nat.sub_diag, <- app_assoc by lia; done).
      assert (Hl2 : Forall ready (l ++ [sp])) by (apply Forall_app; split; [done|]; apply Forall_singleton; split; [done|]; split; [apply null_row|apply length_replicate]).
      assert (Hm2 : mem_ok r d2).
      { destruct Hm as [m1 m2 m3 m4 [m5 m5'] m6 m7]. split; try done.
        - exists (l ++ [sp]), n. split; [exact Hs2|by apply ready_full].
        - split; [exact m5|]. change (length (ds_specs d2) = Z.to_nat (ds_nspec d)). rewrite Hs2, <- m5', Hs, !length_app, !length_replicate. cbn. lia.
        - change (ds_live d2) with ((a, bufsize) :: ds_live d). rewrite m7. unfold mine. change (ds_bufs d2) with (ds_bufs d). change (ds_aggbufs d2) with (ds_aggbufs d). change (ds_spec d2) with (ds_spec d). change (ds_nspec d2) with (ds_nspec d). change (ds_dyn d2) with (ds_dyn d).
          pose proof (specs_own_new l a Ha) as Hnew. fold sp in Hnew. rewrite Hs2, Hs, !specs_own_zero, Hnew. apply perm_third. }
      replace (S (length l)) with (length (l ++ [sp])) by (rewrite length_app; cbn; lia). eapply runs_weaken; [apply (IH (l ++ [sp]) d2 Hs2 Hl2 Hm2)|]. intros s' d' (H1 & H2 & (specs & live & H3) & H4). split; [done|]. split; [done|]. split; [|done]. exists specs, live. by rewrite H3.
Qed.

(** The outcome of the allocation of speculations. *)
Definition after_specs (d : dts) (s : step) (d' : dts) : Prop :=
  (exists a specs n live, d' = with_live live (with_spec a specs n d)) /\
  match s with
  | Go => waiting (seq 0 (Z.to_nat (ds_nspec d'))) d'
  | Out rval => rval = ENOMEM /\ d' = d
  | Err rval => rval = ENOMEM
  end.

Lemma go_specs_run r d : mem_ok r d -> bare d -> opts_ok (ds_options d) -> runs go_specs d (fun s d' => mem_ok r d' /\ after_specs d s d').
Proof.
  intros Hm [b1 b2 (b3 & b4 & b5)] Ho. unfold go_specs, get_dts. eapply bind_gets; [reflexivity|]. pose proof (oo_nspec _ Ho) as Hn. change (opt_in (ds_options d) DTRACEOPT_NSPEC) with (opt DTRACEOPT_NSPEC d) in Hn. cbv zeta. set (n := opt DTRACEOPT_NSPEC d) in *. apply bind_assert; [unfold DTRACEOPT_UNSET; lia|].
  assert (Hout : mem_ok r d /\ after_specs d (Out ENOMEM) d) by (split; [done|]; split; [exists (ds_spec d), (ds_specs d), (ds_nspec d), (ds_live d); by destruct d|done]).
  destruct (_ <? _); [by apply runs_ret|]. eapply runs_bind; [apply zalloc_run|]. intros a d1 [[-> ->]|[Ha ->]]; cbn [Z.eqb]; [by apply runs_ret|]. destruct (Z.eqb_spec a 0); [done|]. apply bind_puts. set (d2 := with_spec _ _ _ _).
  assert (Hm2 : mem_ok r d2).
  { destruct Hm as [m1 m2 m3 m4 m5 m6 m7]. split; try done.
    - exists [], (Z.to_nat n). by split.
    - cbn. rewrite length_replicate. lia.
    - cbn. lia.
    - change (ds_live d2) with ((a, n * sizeof_speculation) :: ds_live d). rewrite m7. unfold mine. change (ds_bufs d2) with (ds_bufs d). change (ds_aggbufs d2) with (ds_aggbufs d). change (ds_spec d2) with a. change (ds_nspec d2) with n. change (ds_dyn d2) with (ds_dyn d).
      change (ds_specs d2) with ([] ++ replicate (Z.to_nat n) (0, @nil dtrace_buffer)). rewrite specs_own_zero, b5, b3. destruct (Z.eqb_spec a 0); [done|]. change (specs_own []) with (@nil (Z * Z)). apply (perm_third _ _ _ []). }
  eapply runs_weaken; [apply (spec_arrays_run r (Z.to_nat n) [] d2 eq_refl (Forall_nil_2 _) Hm2)|]. intros s d' (Hs & Hm' & (specs & live & He) & Hr). split; [done|]. split; [exists a, specs, n, live; by rewrite He|]. destruct Hs as [->| ->]; [|done].
  specialize (Hr eq_refl). intros i Hi. apply in_seq in Hi. destruct (mo_nspec _ _ Hm') as [_ Hlen]. destruct (lookup_lt_is_Some_2 (ds_specs d') i) as [sp Hsp]; [lia|]. exists sp. split; [done|]. exact (Forall_lookup_1 _ _ _ _ Hr Hsp).
Qed.

(** * Sizes and dynamic variables *)

Lemma mem_options r opts d : opts_ok opts -> mem_ok r d -> mem_ok r (with_options opts d).
Proof. intros Ho [m1 m2 m3 m4 m5 m6 m7]. split; try done. apply Ho. Qed.

Lemma go_sizes_run d : opts_ok (ds_options d) -> 0 <= ds_needed d < 2 ^ 63 ->
  runs go_sizes d (fun s d' => (s = Go \/ s = Out ENOSPC) /\ (exists opts, d' = with_options opts d) /\ opts_ok (ds_options d') /\ opts_but size_opts (ds_options d) (ds_options d') /\
    (8 <= opt DTRACEOPT_BUFSIZE d -> 8 <= opt DTRACEOPT_BUFSIZE d')).
Proof.
  intros Ho Hn. unfold go_sizes, get_dts. eapply bind_gets; [reflexivity|]. cbv zeta.
  assert (Hstep : forall d0 o v, o ∈ size_opts -> opt_range v -> opts_ok (ds_options d0) -> opts_ok (ds_options (set_opt o v d0)) /\ opts_but size_opts (ds_options d0) (ds_options (set_opt o v d0)) /\ (o <> DTRACEOPT_BUFSIZE -> opt DTRACEOPT_BUFSIZE (set_opt o v d0) = opt DTRACEOPT_BUFSIZE d0) /\ opt o (set_opt o v d0) = v).
  { intros d0 o v Hso Hv Hok. pose proof (size_opts_range o Hso) as (Hr & _). split; [by apply opts_set|]. unfold set_opt, opt. cbn [ds_options with_options]. split; [|split].
    - intros o' H0 Hno. rewrite opt_set by (apply Hok || done). destruct (decide (o' = o)) as [->|]; [done|done].
    - intros Hne. rewrite opt_set by (apply Hok || done). destruct (decide (DTRACEOPT_BUFSIZE = o)) as [He|]; [by destruct Hne|reflexivity].
    - rewrite opt_set by (apply Hok || lia). by destruct (decide (o = o)). }
  eapply (runs_bind _ _ _ (fun _ d1 => (exists opts, d1 = with_options opts d) /\ opts_ok (ds_options d1) /\ opts_but size_opts (ds_options d) (ds_options d1) /\ (8 <= opt DTRACEOPT_BUFSIZE d -> 8 <= opt DTRACEOPT_BUFSIZE d1))).
  { assert (Hid : (exists opts, d = with_options opts d) /\ opts_ok (ds_options d) /\ opts_but size_opts (ds_options d) (ds_options d) /\ (8 <= opt DTRACEOPT_BUFSIZE d -> 8 <= opt DTRACEOPT_BUFSIZE d)) by (split; [exists (ds_options d); by destruct d|]; by split_and!).
    destruct (_ || _); [by apply runs_ret|]. destruct (negb (ds_aggs d)).
    - apply runs_puts. destruct (Hstep d DTRACEOPT_AGGSIZE 0) as (H1 & H2 & H3 & _); [unfold size_opts; rewrite !elem_of_cons; tauto|right; lia|done|]. split; [by eexists|]. split; [done|]. split; [done|]. by rewrite H3.
    - destruct (_ || _) eqn:Hc; [|by apply runs_ret]. apply runs_puts. rewrite (s64_id (ds_needed d)) by lia. destruct (Hstep d DTRACEOPT_BUFSIZE (ds_needed d)) as (H1 & H2 & _ & H4); [unfold size_opts; rewrite !elem_of_cons; tauto|right; lia|done|]. split; [by eexists|]. split; [done|]. split; [done|]. rewrite H4. intros H8.
      apply orb_true_iff in Hc as [Hc|Hc]; [apply Z.eqb_eq in Hc; unfold DTRACEOPT_UNSET in Hc; lia|]. apply Z.ltb_lt in Hc. destruct (oo_sizes _ Ho DTRACEOPT_BUFSIZE) as [Hu|Hu]; [rewrite !elem_of_cons; tauto|unfold opt in H8; unfold DTRACEOPT_UNSET in Hu; lia|]. unfold opt in *. rewrite u64_id in Hc by (unfold is_u; lia). lia. }
  intros u d1 ((opts1 & He1) & Ho1 & Hb1 & H81). cbn beta. eapply bind_gets; [reflexivity|].
  eapply (runs_bind _ _ _ (fun _ d2 => (exists opts, d2 = with_options opts d) /\ opts_ok (ds_options d2) /\ opts_but size_opts (ds_options d) (ds_options d2) /\ (8 <= opt DTRACEOPT_BUFSIZE d -> 8 <= opt DTRACEOPT_BUFSIZE d2))).
  { destruct (_ || _ || _); [apply runs_ret; by split; [exists opts1|]|]. apply runs_puts. destruct (Hstep d1 DTRACEOPT_SPECSIZE 0) as (H1 & H2 & H3 & _); [unfold size_opts; rewrite !elem_of_cons; tauto|right; lia|done|]. split; [eexists; by rewrite He1|]. split; [done|]. split; [intros o H0 Hno; rewrite H2 by done; by apply Hb1|]. by rewrite H3. }
  intros u2 d2 H2. eapply bind_gets; [reflexivity|]. destruct (_ || _ || _); apply runs_ret; (split; [tauto|done]).
Qed.

(** The allocator keeps away from the end of memory. *)
Definition dyn_room (cs : Z) : Prop :=
  0 <= cs < 2 ^ 62 /\ forall size live, 0 <= size -> ce_pick (space_size cs size) live <> 0 -> room ce_sink ce_ncpu cs size (ce_pick (space_size cs size) live) ce_mem.

Lemma try_dstate_run r size d :
  mem_ok r d -> dtds_base (ds_dyn d) = 0 -> dyn_room (dtds_chunksize (ds_dyn d)) -> 0 <= size < 2 ^ 63 ->
  runs (try_dstate size) d (fun rc d' => (rc = ENOMEM /\ d' = d) \/ (rc = 0 /\ mem_ok r d' /\ exists x live, d' = with_live live (with_dyn x d))).
Proof.
  intros Hm Hb [Hcs Hroom] Hsz. unfold try_dstate, get_dts. eapply bind_gets; [reflexivity|]. cbv zeta. rewrite (u64_id size) by (unfold is_u; lia). set (cs := dtds_chunksize (ds_dyn d)) in *. set (n := space_size cs size). set (zalloc := fun n => if ce_pick n (ds_live d) =? 0 then None else Some (ce_pick n (ds_live d))).
  destruct (Z.eqb_spec (ce_pick n (ds_live d)) 0) as [Hz|Hz].
  - assert (Hzn : zalloc n = None) by (unfold zalloc; by rewrite Hz). eapply bind_gets; [apply (init_fails ce_sink ce_ncpu zalloc cs size ce_mem Hzn); [lia|]|].
    { unfold chunk_size, DTRACE_DYNVAR_CHUNKSIZE, sizeof_dynhash. destruct (cs =? 0); lia. } apply runs_ret. by left.
  - assert (Hzn : zalloc n = Some (ce_pick n (ds_live d))) by (unfold zalloc; by destruct (Z.eqb_spec (ce_pick n (ds_live d)) 0)). pose proof (Hroom size (ds_live d) (proj1 Hsz) Hz) as Hr. destruct (init_run ce_sink ce_ncpu zalloc cs size _ ce_mem Hzn Hr) as (L & x & Hx & Hp).
    eapply bind_gets; [exact Hx|]. cbn beta iota. apply bind_puts. apply bind_puts. apply runs_ret. right. split; [done|]. split; [|by eexists _, _]. destruct (ps_space _ _ _ _ _ _ _ _ Hp) as [Hbase Hsize]. destruct Hm as [m1 m2 m3 m4 m5 m6 m7]. split; try done.
    assert (Hmine : mine (with_live ((dtds_base (dy_ds x), dtds_size (dy_ds x)) :: ds_live d) (with_dyn (dy_ds x) d)) ≡ₚ (dtds_base (dy_ds x), dtds_size (dy_ds x)) :: mine d).
    { unfold mine, dtrace_dstate_fini. cbn [ds_bufs ds_aggbufs ds_specs ds_spec ds_nspec ds_dyn with_live with_dyn]. rewrite Hb, Hbase. cbn [Z.eqb]. destruct (Z.eqb_spec (ce_pick n (ds_live d)) 0); [done|]. apply perm_last. }
    transitivity ((dtds_base (dy_ds x), dtds_size (dy_ds x)) :: mine d ++ r); [by constructor|]. by rewrite Hmine.
Qed.

Lemma dyn_loop_run r manual d : mem_ok r d -> opts_ok (ds_options d) -> dtds_base (ds_dyn d) = 0 -> dyn_room (dtds_chunksize (ds_dyn d)) -> forall fuel size, (0 < fuel)%nat -> 0 <= size < 2 ^ Z.of_nat fuel -> size < 2 ^ 63 ->
  runs (dyn_loop fuel manual size) d (fun p d' => mem_ok r d' /\ ((p.2 = Go /\ 0 <= p.1 <= size /\ exists x live, d' = with_live live (with_dyn x d)) \/ (p.2 = Err ENOMEM /\ exists opts, d' = with_options opts d /\ opts_ok opts))).
Proof.
  intros Hm Ho Hb Hroom. induction fuel as [|fuel IH]; intros size Hf Hs Hs63; [lia|]. cbn [dyn_loop]. eapply runs_bind; [apply (try_dstate_run r size d Hm Hb Hroom); lia|]. intros rc d1 [[-> ->]|(-> & Hm1 & Hx)]; cbn [Z.eqb].
  - assert (Herr : mem_ok r d /\ exists opts, d = with_options opts d /\ opts_ok opts) by (split; [done|]; exists (ds_options d); split; [by destruct d|done]). change (ENOMEM =? 0) with false. cbv iota. destruct manual; [apply runs_ret; split; [done|right; split; [done|apply Herr]]|]. cbv zeta.
    assert (Hhalf : 0 <= Z.shiftr size 1 <= size /\ (size <> 0 -> Z.shiftr size 1 < size)) by (rewrite Z.shiftr_div_pow2 by lia; change (2 ^ 1) with 2; lia). destruct (Z.eqb_spec (Z.shiftr size 1) 0) as [H0|H0].
    + apply bind_puts. apply runs_ret. assert (Hoz : opts_ok (<[Z.to_nat DTRACEOPT_DYNVARSIZE := 0]> (ds_options d))) by (apply opts_set; [done|unfold size_opts; rewrite !elem_of_cons; tauto|right; lia]). split; [by apply mem_options|]. right. split; [done|]. by eexists.
    + assert (Hlt : Z.shiftr size 1 < 2 ^ Z.of_nat fuel). { rewrite Z.shiftr_div_pow2 by lia. change (2 ^ 1) with 2. rewrite Nat2Z.inj_succ, Z.pow_succ_r in Hs by lia. apply Z.div_lt_upper_bound; lia. }
      eapply runs_weaken; [apply IH; [|lia|lia]|]. { destruct fuel; [change (2 ^ Z.of_nat 0) with 1 in Hlt; lia|lia]. } intros p d' (H1 & [(H2 & H3 & H4)|H2]); (split; [done|]); [left; split; [done|]; split; [lia|done]|by right].
  - apply runs_ret. split; [done|]. left. split; [done|]. cbn. split; [lia|done].
Qed.

Lemma size_opt_dyn : DTRACEOPT_DYNVARSIZE ∈ size_opts.
Proof. unfold size_opts. rewrite !elem_of_cons. tauto. Qed.

Lemma go_dyn_run r d :
  mem_ok r d -> opts_ok (ds_options d) -> dtds_base (ds_dyn d) = 0 -> dyn_room (dtds_chunksize (ds_dyn d)) -> 0 <= ce_dstate_defsize < 2 ^ 63 ->
  runs go_dyn d (fun s d' => mem_ok r d' /\ ((s = Go /\ exists x live opts, d' = with_options opts (with_live live (with_dyn x d)) /\ opts_ok opts) \/ (s = Err ENOMEM /\ exists opts, d' = with_options opts d /\ opts_ok opts))).
Proof.
  intros Hm Ho Hb Hroom Hdef. unfold go_dyn, get_dts. eapply bind_gets; [reflexivity|]. cbv zeta. set (size := if opt DTRACEOPT_DYNVARSIZE d =? DTRACEOPT_UNSET then _ else _).
  assert (Hsize : 0 <= size < 2 ^ 63). { unfold size. destruct (Z.eqb_spec (opt DTRACEOPT_DYNVARSIZE d) DTRACEOPT_UNSET) as [|Hne]; [done|]. destruct (oo_sizes _ Ho DTRACEOPT_DYNVARSIZE size_opt_dyn) as [?|?]; [done|done]. }
  eapply runs_bind; [apply (dyn_loop_run r _ d Hm Ho Hb Hroom 64 size); lia|]. intros [size' s'] d1 [Hm1 [(Hs & Hsz & x & live & He)|(Hs & opts & He & Hopts)]]; cbn [fst snd] in *; subst s'.
  - apply bind_puts. apply runs_ret. assert (Hod : ds_options d1 = ds_options d) by (by rewrite He). assert (Hoz : opts_ok (<[Z.to_nat DTRACEOPT_DYNVARSIZE := size']> (ds_options d))) by (apply opts_set; [done|apply size_opt_dyn|right; lia]). split; [unfold set_opt; rewrite Hod; by apply mem_options|]. left. split; [done|]. exists x, live. eexists. split; [|exact Hoz]. unfold set_opt. rewrite Hod, He. done.
  - apply runs_ret. split; [done|]. right. split; [done|]. by exists opts.
Qed.

(** * BEGIN *)

(** What the consumer is like when its BEGIN probe fires: every buffer has [sz] bytes, and only that of this CPU is in use. *)
Record begun (r : live_heap) (sz : Z) (d : dts) : Prop := {
  bg_activity : ds_activity d = WARMUP;
  bg_log : exists l, ds_log d = l ++ [LBegin];
  bg_bufs : forall cp, In cp ce_cpus -> exists b, zlookup (ds_bufs d).2 cp = Some b /\ dtb_tomax b <> 0 /\ dtb_size b = sz /\ has_flag b DTRACEBUF_INACTIVE = negb (cp =? ce_cpu);
  bg_size : 8 <= sz /\ sz mod 8 = 0 /\ ds_reserve d <= sz;
  bg_mem : mem_ok r d;
  bg_there : arrays_there d;
  bg_cyclics : ds_cleaner d = Some (opt DTRACEOPT_CLEANRATE d) /\ (ce_cleanrate_min <= ce_cleanrate_max -> ce_cleanrate_min <= opt DTRACEOPT_CLEANRATE d <= ce_cleanrate_max) /\ ds_deadman d = Some ce_deadman_interval;
  bg_alive : ds_alive d = ce_now
}.

(** The end of dtrace_state_go(). *)
Definition wake (d : dts) : dts :=
  let d := if bool_decide (ds_activity d = WARMUP) then with_activity ACTIVE d else d in
  with_bufs (imap (fun i b => if bool_decide (Z.of_nat i ∈ ce_cpus) then dtrace_buffer_activate b else b) (ds_bufs d).2) d.

(** The rest of dtrace_state_go() when BEGIN has fired: its assertion holds, or nothing returns. *)
Definition woken {A} (a : A) (fired : option dts) : option (A * dts) :=
  match fired with Some d => if bool_decide (ds_activity d = WARMUP) || bool_decide (ds_activity d = DRAINING) then Some (a, wake d) else None | None => None end.

Lemma flag_cleared f : Z.land (Z.ldiff f DTRACEBUF_INACTIVE) DTRACEBUF_INACTIVE = 0.
Proof. apply Z.bits_inj'. intros n Hn. rewrite Z.land_spec, Z.ldiff_spec, Z.bits_0. by destruct (Z.testbit f n), (Z.testbit DTRACEBUF_INACTIVE n). Qed.

Lemma flags_inactive d : Z.land (buf_flags KPrincipal d) DTRACEBUF_INACTIVE <> 0.
Proof. cbn [buf_flags]. destruct (_ =? _), (_ =? _); by vm_compute. Qed.

Lemma blocks_same l i b b' : l !! i = Some b -> own b' = own b -> blocks (<[i := b']> l) = blocks l.
Proof. intros Hi Ho. unfold blocks. rewrite list_fmap_insert. f_equal. apply list_insert_id. rewrite list_lookup_fmap, Hi. cbn. by rewrite Ho. Qed.

Lemma clamp_options d : exists opts, clamp_rates d = with_options opts d.
Proof.
  assert (Hset : forall o v d0, (exists opts, d0 = with_options opts d) -> exists opts, set_opt o v d0 = with_options opts d) by (intros o v d0 [opts ->]; by eexists). assert (Hid : exists opts, d = with_options opts d) by (exists (ds_options d); by destruct d).
  unfold clamp_rates. cbv zeta. repeat match goal with |- exists opts, (if ?b then _ else _) = _ => destruct b end; repeat (apply Hset); try done; repeat match goal with |- exists opts, (if ?b then _ else _) = _ => destruct b; try apply Hset end; done.
Qed.

Lemma clamp_length d : length (ds_options (clamp_rates d)) = length (ds_options d).
Proof.
  assert (Hset : forall o v d0, length (ds_options (set_opt o v d0)) = length (ds_options d0)) by (intros o v d0; unfold set_opt; cbn [ds_options with_options]; apply length_insert).
  unfold clamp_rates. cbv zeta. repeat match goal with |- length (ds_options (if ?b then _ else _)) = _ => destruct b; rewrite ?Hset end; done.
Qed.

Lemma clamp_clean d : length (ds_options d) = Z.to_nat DTRACEOPT_MAX -> ce_cleanrate_min <= ce_cleanrate_max -> ce_cleanrate_min <= opt DTRACEOPT_CLEANRATE (clamp_rates d) <= ce_cleanrate_max.
Proof.
  intros Hl Hle. assert (Hset : forall v d0, length (ds_options d0) = Z.to_nat DTRACEOPT_MAX -> opt DTRACEOPT_CLEANRATE (set_opt DTRACEOPT_CLEANRATE v d0) = v /\ length (ds_options (set_opt DTRACEOPT_CLEANRATE v d0)) = Z.to_nat DTRACEOPT_MAX).
  { intros v d0 H0. unfold opt, set_opt. cbn [ds_options with_options]. rewrite opt_set, length_insert by done. by destruct (decide (DTRACEOPT_CLEANRATE = DTRACEOPT_CLEANRATE)). }
  unfold clamp_rates. cbv zeta. set (d1 := if _ <? opt DTRACEOPT_STATUSRATE d then _ else _). assert (H1 : length (ds_options d1) = Z.to_nat DTRACEOPT_MAX) by (unfold d1; destruct (_ <? _); [unfold set_opt; cbn [ds_options with_options]; by rewrite length_insert|done]). clearbody d1.
  set (d2 := if opt DTRACEOPT_CLEANRATE d1 =? 0 then _ else _). assert (H2 : length (ds_options d2) = Z.to_nat DTRACEOPT_MAX) by (unfold d2; destruct (_ =? _); [by apply Hset|done]). clearbody d2.
  set (d3 := if opt DTRACEOPT_CLEANRATE d2 <? _ then _ else _). assert (H3 : length (ds_options d3) = Z.to_nat DTRACEOPT_MAX /\ ce_cleanrate_min <= opt DTRACEOPT_CLEANRATE d3).
  { unfold d3. destruct (Z.ltb_spec (opt DTRACEOPT_CLEANRATE d2) ce_cleanrate_min); [|done]. destruct (Hset ce_cleanrate_min d2 H2) as [-> ->]. done. }
  clearbody d3. destruct H3 as [H3 H4]. destruct (Z.ltb_spec ce_cleanrate_max (opt DTRACEOPT_CLEANRATE d3)); [|lia]. destruct (Hset ce_cleanrate_max d3 H3) as [-> _]. lia.
Qed.

Context (Hhere : In ce_cpu ce_cpus).

Lemma go_begin_run r sz flags d :
  mem_ok r d -> arrays_there d -> given sz flags DTRACE_CPUALL (ds_bufs d).2 -> Z.land flags DTRACEBUF_INACTIVE <> 0 -> 8 <= sz -> sz mod 8 = 0 -> ds_reserve d <= sz ->
  exists d1, begun r sz d1 /\ arrays d1 = arrays d /\ ds_log d1 = ds_log d ++ [LBegin] /\ go_begin d = woken Go (ce_fire LBegin d1).
Proof.
  intros Hm Hthere (Hlen & _ & Hall) Hfl H8 Hm8 Hres. assert (Ht : forall cp, targeted DTRACE_CPUALL cp = true) by done. destruct (Hall ce_cpu Hhere (Ht ce_cpu)) as (b & Hb & Hal). destruct (clamp_options d) as [opts Hcl]. pose proof (clamp_clean d (mo_opts _ _ Hm)) as Hclean.
  pose proof (zlookup_nonneg _ _ _ Hb) as Hcpu0. set (b' := Buffer.set_flags (Z.ldiff (dtb_flags b) DTRACEBUF_INACTIVE) b). set (dw := with_activity WARMUP (with_times ce_now ce_now (with_cyclics (Some (opt DTRACEOPT_CLEANRATE (clamp_rates d))) (Some ce_deadman_interval) (clamp_rates d)))).
  assert (Hbufs : ds_bufs dw = ds_bufs d) by (unfold dw; by rewrite Hcl). set (db := with_bufs (<[Z.to_nat ce_cpu := b']> (ds_bufs d).2) dw). exists (with_event LBegin db).
  assert (Hflag : has_flag b DTRACEBUF_INACTIVE = true) by (unfold has_flag; destruct Hal as (_ & _ & -> & _); by apply negb_true_iff, Z.eqb_neq).
  assert (Hmv : moved d (with_event LBegin db)).
  { unfold db, dw. rewrite Hcl. split; [|split; [done|reflexivity]|apply moved_specs_refl|done|done|].
    - split; [done|]. cbn. eapply all_insert; [rewrite <- zlookup_nat by done; exact Hb|]. apply place_flags. by apply land_ldiff_other.
    - change (length (ds_options (with_options opts d)) = length (ds_options d)). rewrite <- Hcl. apply clamp_length. }
  split; [split|split; [by apply moved_arrays|split]].
  - done.
  - by eexists.
  - intros cp Hcp. cbn. destruct (Z.eqb_spec cp ce_cpu) as [->|Hne].
    + exists b'. split; [by eapply zlookup_insert_eq|]. destruct Hal as (H1 & H2 & _). split; [done|]. split; [done|]. unfold has_flag, b'. cbn [dtb_flags Buffer.set_flags]. by rewrite flag_cleared.
    + destruct (Hall cp Hcp (Ht cp)) as (c & Hc & H1 & H2 & H3 & _). exists c. split; [by rewrite zlookup_insert_ne|]. split; [done|]. split; [done|]. unfold has_flag. rewrite H3. by apply negb_true_iff, Z.eqb_neq.
  - split; [done|]. split; [done|]. change (ds_reserve (with_event LBegin db)) with (ds_reserve (clamp_rates d)). by rewrite Hcl.
  - by apply (moved_mem r d).
  - by apply (moved_there d).
  - split; [done|]. split; [exact Hclean|done].
  - done.
  - change (ds_log (with_event LBegin db)) with (ds_log (clamp_rates d) ++ [LBegin]). by rewrite Hcl.
  - unfold go_begin, fire, get_dts, sbind, sputs, sgets, sret. fold dw. rewrite Hbufs, Hb. unfold sassert at 1. rewrite Hflag. fold b' db. unfold woken. destruct (ce_fire LBegin (with_event LBegin db)) as [d2|]; [|done]. unfold sassert, wake. destruct (_ || _); [|done]. by destruct (bool_decide (ds_activity d2 = WARMUP)).
Qed.
End Go.
