(* ===== verification/ConsumerLife.v ===== *)
(** What the life of a consumer promises: dtrace_state_go() as a whole, the order of activities, destruction. *)
From S2P Require Import Prelude StateProg Dif SafeMem Buffer DynVar DynInit Privilege Dispatch DispatchSafe Consumer ConsumerMem ConsumerGo.
From stdpp Require Import gmap list.
#[local] Open Scope Z_scope.
#[local] Open Scope sprog_scope.

(** A firing for the consumer leaves its activity, or an exit() makes it drain, or the deadman kills it. *)
Definition act_moves (a b : activity) : Prop := b = a \/ (b = DRAINING /\ (a = WARMUP \/ a = ACTIVE)) \/ b = KILLED.

(** What starting relies on: matching changes only what depends on ECBs; firings move the activity as above, leave memory
    where it is, and know nothing of options and the log. *)
Class consumer_env_ok (E : consumer_env) : Prop := {
  ceo_cpus : cpus_ok;
  ceo_here : In ce_cpu ce_cpus;
  ceo_defsize : 0 <= ce_dstate_defsize < 2 ^ 63;
  ceo_defaults : 1 <= ce_nspec_default < 2 ^ 63 /\ 0 <= ce_specsize_default < 2 ^ 63;
  ceo_prime d : exists destructive speculates aggs needed ecbs, 0 <= needed < 2 ^ 63 /\
    dtrace_enabling_prime d = Dts (ds_activity d) (ds_options d) (ds_cred d) destructive speculates aggs needed ecbs (ds_reserve d) (ds_bufs d) (ds_aggbufs d)
      (ds_spec d) (ds_specs d) (ds_nspec d) (ds_dyn d) (ds_cleaner d) (ds_deadman d) (ds_alive d) (ds_laststatus d) (ds_live d) (ds_log d);
  ceo_fire ev d d' : ce_fire ev d = Some d' -> act_moves (ds_activity d) (ds_activity d') /\ ds_log d' = ds_log d /\ ds_options d' = ds_options d /\ moved d d'
}.

Section Life.
Context {E : consumer_env} {HE : consumer_env_ok E}.

(** A consumer that has not been started. *)
Record unstarted (r : live_heap) (d : dts) : Prop := {
  fr_activity : ds_activity d = INACTIVE;
  fr_mem : mem_ok r d;
  fr_bare : bare d;
  fr_opts : opts_ok (ds_options d);
  fr_dyn : dtds_base (ds_dyn d) = 0 /\ dyn_room (dtds_chunksize (ds_dyn d))
}.

(** It was not started: all memory is given back, or (no buffers for what is needed, or a wish for anonymous state) the
    speculations stay. *)
Definition refused (r : live_heap) (d : dts) (rval : Z) (d' : dts) : Prop :=
  rval <> 0 /\ ds_activity d' = INACTIVE /\ ds_log d' = ds_log d /\ arrays d' = arrays d /\ opts_ok (ds_options d') /\ mem_ok r d' /\ arrays_there d' /\ ((bare d' /\ ds_live d' ≡ₚ r) \/ rval = ENOENT \/ rval = ENOSPC).

Definition body_post (r : live_heap) (d : dts) (s : step) (d' : dts) : Prop :=
  ds_activity d' = INACTIVE /\ ds_log d' = ds_log d /\ arrays d' = arrays d /\ opts_ok (ds_options d') /\ mem_ok r d' /\
  match s with
  | Go => False
  | Out rval => rval <> 0 /\ arrays_there d' /\ ((bare d' /\ ds_live d' ≡ₚ r) \/ rval = ENOENT \/ rval = ENOSPC)
  | Err rval => rval <> 0 /\ dtds_base (ds_dyn d') = 0
  end.

(** [m] ends with a goto, or comes to BEGIN and then goes on. *)
Definition begins (r : live_heap) (d0 : dts) (m : sprog dts step) (d : dts) : Prop :=
  runs m d (body_post r d0) \/
  exists sz d1, begun r sz d1 /\ arrays d1 = arrays d0 /\ ds_log d1 = ds_log d0 ++ [LBegin] /\ m d = woken Go (ce_fire LBegin d1).

Lemma begins_bind {A} r d0 (m : sprog dts A) (f : A -> sprog dts step) d P : runs m d P -> (forall a d', P a d' -> begins r d0 (f a) d') -> begins r d0 (sbind m f) d.
Proof.
  intros (a & d' & Hm & HP) Hf. destruct (Hf a d' HP) as [(s & d2 & Hs & Hq)|(sz & d1 & Hb & Har & Hl & Hgo)].
  - left. exists s, d2. split; [unfold sbind; by rewrite Hm|done].
  - right. exists sz, d1. split; [done|]. split; [done|]. split; [done|]. unfold sbind. rewrite Hm. exact Hgo.
Qed.

Lemma begins_get r d0 (f : dts -> sprog dts step) d : begins r d0 (f d) d -> begins r d0 (sbind get_dts f) d.
Proof. done. Qed.

Lemma begins_ret r d0 s d : body_post r d0 s d -> begins r d0 (sret s) d.
Proof. intros H. left. by apply runs_ret. Qed.

Lemma begins_then r d0 m k d P : runs m d P -> (forall s d', P s d' -> s <> Go -> body_post r d0 s d') -> (forall d', P Go d' -> begins r d0 k d') -> begins r d0 (then_ m k) d.
Proof.
  intros Hm Hs Hk. unfold then_. eapply begins_bind; [exact Hm|]. intros s d' HP. destruct s; [by apply Hk|apply begins_ret, Hs; done..].
Qed.

Lemma bare_live r d : mem_ok r d -> bare d -> dtds_base (ds_dyn d) = 0 -> ds_live d ≡ₚ r.
Proof. intros Hm [b1 b2 (b3 & b4 & b5)] Hb. rewrite (mo_heap _ _ Hm). unfold mine, dtrace_dstate_fini. by rewrite (blocks_idle _ b1), (blocks_idle _ b2), b3, b5, Hb. Qed.

Lemma prime_unstarted r d : unstarted r d -> unstarted r (dtrace_enabling_prime d) /\ arrays (dtrace_enabling_prime d) = arrays d /\ ds_log (dtrace_enabling_prime d) = ds_log d /\ ds_options (dtrace_enabling_prime d) = ds_options d /\ 0 <= ds_needed (dtrace_enabling_prime d) < 2 ^ 63.
Proof.
  intros [f1 [m1 m2 m3 m4 m5 m6 m7] [b1 b2 b3] f4 f5]. destruct (ceo_prime d) as (x1 & x2 & x3 & x4 & x5 & Hn & ->). split; [|done]. split; try done; by split.
Qed.

Lemma bare_there d : bare d -> arrays_there d.
Proof. intros [_ _ (_ & _ & H)]. unfold arrays_there. by rewrite H. Qed.

Lemma runs_both {A} (m : sprog dts A) d P Q : runs m d P -> after m d Q -> runs m d (fun a d' => P a d' /\ Q a d').
Proof. intros (a & d' & Hm & HP) HQ. exists a, d'. split; [done|]. split; [done|]. by apply HQ. Qed.

(** Arrays of buffers stay. *)
Definition rows (d d' : dts) : Prop := arrays d' = arrays d /\ (arrays_there d -> arrays_there d').

#[local] Instance rows_preorder : PreOrder rows.
Proof. split; [done|]. intros x y z [H1 H2] [H3 H4]. split; [congruence|tauto]. Qed.

Lemma rows_kind k l : within rows (sputs (put_kind k l)).
Proof. apply within_puts. intros d. destruct k as [| |i]; [done|done|]. split; [done|]. unfold arrays_there. intros H. by apply Forall_alter. Qed.
Lemma rows_get : within rows get_dts.
Proof. apply within_gets. exact _. Qed.
#[local] Hint Extern 3 (within rows (sputs _)) => apply within_puts; intros ?; by split : prog.
#[local] Hint Resolve rows_kind rows_get : prog.

Lemma rows_buffer k : within rows (dtrace_state_buffer k).
Proof. unfold dtrace_state_buffer. prog_walk. Qed.
Lemma rows_try size : within rows (try_dstate size).
Proof. unfold try_dstate. prog_walk. Qed.
#[local] Hint Resolve rows_buffer rows_try : prog.
Lemma rows_spec_buffers ids : within rows (spec_buffers ids).
Proof. induction ids; cbn [spec_buffers]; prog_walk. Qed.
Lemma rows_dyn_loop fuel manual : forall size, within rows (dyn_loop fuel manual size).
Proof. induction fuel as [|fuel IH]; intros size; cbn [dyn_loop]; prog_walk. Qed.
#[local] Hint Resolve rows_spec_buffers rows_dyn_loop : prog.
Lemma rows_buffers : within rows dtrace_state_buffers.
Proof. unfold dtrace_state_buffers. prog_walk. Qed.
Lemma rows_dyn : within rows go_dyn.
Proof. unfold go_dyn. prog_walk. Qed.

(** From the allocation of buffers on. *)
Lemma go_buffers_begins r d0 d :
  mem_ok r d -> arrays_there d -> arrays d = arrays d0 -> ds_activity d = INACTIVE -> ds_log d = ds_log d0 -> opts_ok (ds_options d) -> Forall idle (ds_bufs d).2 -> Forall idle (ds_aggbufs d).2 -> waiting (seq 0 (Z.to_nat (ds_nspec d))) d ->
  dtds_base (ds_dyn d) = 0 -> dyn_room (dtds_chunksize (ds_dyn d)) -> 8 <= opt DTRACEOPT_BUFSIZE d ->
  begins r d0 (rval <~ dtrace_state_buffers; if negb (rval =? 0) then sret (Err rval) else then_ go_dyn go_begin) d.
Proof.
  intros Hm Hth Har Hact Hlog Ho Hb Ha Hw Hdy Hroom H8. eapply begins_bind; [apply runs_both; [apply (buffers_run ceo_cpus r d Hm Hact Ho Hb Ha Hw)|apply rows_buffers]|]. intros rval d1 [(Hm1 & Hk & Hdy1 & Ho1 & _ & Hthere) [Har1 Hth1]]. specialize (Hth1 Hth). pose proof Hk as [k1 k2 _ k4 _ _ _]. destruct (Z.eqb_spec rval 0) as [->|Hne]; cbn [negb].
  - destruct (Hthere eq_refl H8) as (Hg & Hsz & Hmod & Hres). eapply begins_then; [apply runs_both; [apply (go_dyn_run r d1 Hm1 Ho1); [by rewrite Hdy1|by rewrite Hdy1|apply ceo_defsize]|apply rows_dyn]|..].
    + intros s d2 [(Hm2 & [[-> _]|(-> & opts & He & Hoo)]) [Har2 _]] Hs; [done|]. split; [by rewrite He; cbn; rewrite k1|]. split; [by rewrite He; cbn; rewrite k2|]. split; [congruence|]. split; [by rewrite He|]. split; [done|]. split; [done|]. rewrite He. cbn. by rewrite Hdy1.
    + intros d2 [(Hm2 & [(_ & x & live & opts & He & Hoo)|(Hno & _)]) [Har2 Hth2]]; [|discriminate Hno]. right. exists (opt DTRACEOPT_BUFSIZE d1).
      destruct (go_begin_run ceo_here r (opt DTRACEOPT_BUFSIZE d1) (buf_flags KPrincipal d) d2 Hm2 (Hth2 Hth1)) as (d3 & Hbg & Har3 & Hl3 & Hgo); [by rewrite He|apply flags_inactive|lia|done|rewrite He; cbn; by rewrite k4|].
      exists d3. split; [done|]. split; [congruence|]. split; [rewrite Hl3, He; cbn; by rewrite k2, Hlog|exact Hgo].
  - apply begins_ret. split; [by rewrite k1|]. split; [by rewrite k2|]. split; [congruence|]. split; [done|]. split; [done|]. split; [done|]. by rewrite Hdy1.
Qed.

Lemma go_body_begins r d : unstarted r d -> 8 <= opt DTRACEOPT_BUFSIZE d -> begins r d go_body d.
Proof.
  intros Hf H8. unfold go_body. destruct (prime_unstarted r d Hf) as (Hf1 & Har1 & Hl1 & Ho1 & Hn1). eapply (begins_bind r d _ _ d (fun _ d' => d' = dtrace_enabling_prime d)); [by apply runs_puts|]. intros u d1 ->. set (d1 := dtrace_enabling_prime d) in *. clearbody d1. destruct Hf1 as [f1 f2 f3 f4 [f5 f6]].
  apply begins_get. destruct (_ && _).
  { apply begins_ret. split; [done|]. split; [done|]. split; [done|]. split; [done|]. split; [done|]. split; [done|]. split; [by apply bare_there|]. left. split; [done|by apply bare_live]. }
  eapply (begins_bind r d _ _ d1 (fun _ d' => exists n, d' = with_reserve n d1)).
  { unfold dtrace_state_prereserve, get_dts. apply bind_puts. eapply bind_gets; [reflexivity|]. destruct (negb _); [apply runs_ret; by exists 0|]. apply runs_puts. by eexists. }
  intros u2 d2 [n ->]. assert (Hm2 : mem_ok r (with_reserve n d1)) by (destruct f2; by split). assert (Hb2 : bare (with_reserve n d1)) by (destruct f3; by split). eapply begins_then; [apply (go_specs_run r _ Hm2 Hb2 f4)|..].
  { intros s d3 (Hm3 & (a & specs & k & live & He) & Hs) Hne. split; [by rewrite He|]. split; [by rewrite He|]. split; [by rewrite He|]. split; [by rewrite He|]. split; [done|]. destruct s as [|rval|rval]; [done| |].
    - destruct Hs as [-> ->]. split; [done|]. split; [by apply bare_there|]. left. split; [done|by apply bare_live].
    - rewrite Hs. split; [done|]. by rewrite He. }
  intros d3 (Hm3 & (a & specs & k & live & He) & Hw). apply begins_get.
  assert (Hsh : ds_activity d3 = INACTIVE /\ ds_log d3 = ds_log d /\ ds_options d3 = ds_options d /\ ds_needed d3 = ds_needed d1 /\ ds_dyn d3 = ds_dyn d1 /\ ds_bufs d3 = ds_bufs d1 /\ ds_aggbufs d3 = ds_aggbufs d1) by (rewrite He; by split_and!). destruct Hsh as (s1 & s2 & s3 & s4 & s5 & s6 & s7).
  assert (Hth3 : arrays_there d3).
  { apply Forall_lookup_2. intros i sp Hi. destruct (Hw i) as (sp' & Hi' & Hne & _); [apply in_seq; split; [lia|]; destruct (mo_nspec _ _ Hm3) as [_ <-]; by apply lookup_lt_Some in Hi|]. rewrite Hi in Hi'. by injection Hi' as <-. }
  assert (Har3 : arrays d3 = arrays d) by (unfold arrays; rewrite s6, s7; exact Har1).
  assert (Ho3 : opts_ok (ds_options d3)) by (rewrite s3, <- Ho1; done).
  destruct (negb _). { apply begins_ret. split; [done|]. split; [done|]. split; [done|]. split; [done|]. split; [done|]. split; [done|]. split; [done|]. right. by left. }
  eapply begins_then; [apply (go_sizes_run d3 Ho3); by rewrite s4|..].
  { intros s d4 ([->| ->] & (opts & He4) & Ho4 & _) Hne; [done|]. split; [by rewrite He4|]. split; [by rewrite He4|]. split; [by rewrite He4|]. split; [done|]. split; [rewrite He4; apply mem_options; [by rewrite He4 in Ho4|done]|]. split; [done|]. split; [by rewrite He4|]. right. by right. }
  intros d4 (_ & (opts & He4) & Ho4 & _ & H84). assert (Hm4 : mem_ok r d4) by (rewrite He4; apply mem_options; [by rewrite He4 in Ho4|done]). destruct f3 as [b1 b2 _].
  apply go_buffers_begins; [done|by rewrite He4|by rewrite He4|by rewrite He4|by rewrite He4|done|rewrite He4; cbn; by rewrite s6|rewrite He4; cbn; by rewrite s7|by rewrite He4|rewrite He4; cbn; by rewrite s5|rewrite He4; cbn; by rewrite s5|]. apply H84. unfold opt. by rewrite s3.
Qed.

Lemma state_go_cases r d : unstarted r d -> 8 <= opt DTRACEOPT_BUFSIZE d ->
  (exists rval d', dtrace_state_go d = Some (rval, d') /\ refused r d rval d') \/
  (exists sz d1, begun r sz d1 /\ arrays d1 = arrays d /\ ds_log d1 = ds_log d ++ [LBegin] /\
    dtrace_state_go d = woken 0 (ce_fire LBegin d1)).
Proof.
  intros Hf H8. assert (Hgo : dtrace_state_go d = (r <~ go_body; match r with Go => sret 0 | Out rval => sret rval | Err rval => go_undo ~; sret rval end) d). { unfold dtrace_state_go, get_dts, sbind at 1, sgets. by rewrite (fr_activity _ _ Hf). }
  destruct (go_body_begins r d Hf H8) as [(s & d1 & Hrun & Ha & Hl & Har & Ho & Hm & Hs)|(sz & d1 & Hb & Har & Hl & Hk)].
  - left. unfold sbind at 1 in Hgo. rewrite Hrun in Hgo. destruct s as [|rval|rval]; [done| |].
    + exists rval, d1. split; [exact Hgo|]. destruct Hs as (H1 & H2 & H3). by split_and!.
    + destruct Hs as [H1 H2]. destruct (go_undo_run r d1 Hm H2) as (u & d2 & Hu & Hkept & Hm2 & Hb2 & Hl2 & Ho2). exists rval, d2. split; [rewrite Hgo; unfold sbind; by rewrite Hu|]. destruct Hkept as [k1 k2 _ _ _ _ [k7 k7']]. split; [done|]. split; [by rewrite k1|]. split; [by rewrite k2|]. split; [rewrite <- Har; unfold arrays; by rewrite k7, k7'|]. split; [by rewrite Ho2|]. split; [done|]. split; [by apply bare_there|]. by left.
  - right. exists sz, d1. split; [done|]. split; [done|]. split; [done|]. rewrite Hgo. unfold sbind. rewrite Hk. unfold woken. destruct (ce_fire LBegin d1) as [d2|]; [|done]. by destruct (_ || _).
Qed.

(** What comes of BEGIN: the consumer runs, its memory is where it was. *)
Lemma wake_moved d : moved d (wake d).
Proof.
  unfold wake. set (d1 := if bool_decide (ds_activity d = WARMUP) then with_activity ACTIVE d else d). assert (H1 : ds_bufs d1 = ds_bufs d /\ ds_aggbufs d1 = ds_aggbufs d /\ ds_specs d1 = ds_specs d /\ ds_spec d1 = ds_spec d /\ ds_nspec d1 = ds_nspec d /\ ds_dyn d1 = ds_dyn d /\ ds_live d1 = ds_live d /\ ds_options d1 = ds_options d) by (unfold d1; by destruct (bool_decide _)). clearbody d1.
  destruct H1 as (h1 & h2 & h3 & h4 & h5 & h6 & h7 & h8). split; cbn; rewrite ?h1, ?h2, ?h3, ?h4, ?h5, ?h6, ?h7, ?h8; [|split; [done|reflexivity]|apply moved_specs_refl|done|done|done]. split; [done|]. apply Forall2_same_length_lookup_2; [by rewrite length_imap|]. intros i x y Hx Hy. rewrite list_lookup_imap, Hx in Hy. injection Hy as <-. destruct (bool_decide _); [|reflexivity].
  unfold dtrace_buffer_activate. destruct (negb _); [|reflexivity]. apply place_flags. by apply land_ldiff_other.
Qed.

(** * Activities *)

(** Before BEGIN nothing of this changes. *)
Definition still (d d' : dts) : Prop := ds_activity d' = ds_activity d /\ ds_log d' = ds_log d.

#[local] Instance still_preorder : PreOrder still.
Proof. split; [done|]. intros x y z [H1 H2] [H3 H4]. split; congruence. Qed.

Lemma still_puts g : (forall d, still d (g d)) -> within still (sputs g).
Proof. intros H. by apply within_puts. Qed.
#[local] Hint Extern 3 (within still (sputs _)) => apply still_puts; intros ?; split; reflexivity : prog.

Lemma still_kind k l d : still d (put_kind k l d).
Proof. by destruct k. Qed.
Lemma still_put_kind k l : within still (sputs (put_kind k l)).
Proof. apply still_puts. intros d. apply still_kind. Qed.
Lemma still_get : within still get_dts.
Proof. apply within_gets. exact _. Qed.
#[local] Hint Resolve still_put_kind still_get : prog.

Lemma still_free_live a n : within still (free_live a n).
Proof. unfold free_live. prog_walk. Qed.
Lemma still_zalloc n : within still (zalloc n).
Proof. unfold zalloc. prog_walk. Qed.
Lemma still_free_bufs k : within still (free_bufs k).
Proof. unfold free_bufs. prog_walk. Qed.
Lemma still_buffer k : within still (dtrace_state_buffer k).
Proof. unfold dtrace_state_buffer. prog_walk. Qed.
#[local] Hint Resolve still_free_live still_zalloc still_free_bufs still_buffer : prog.

Lemma still_spec_buffers ids : within still (spec_buffers ids).
Proof. induction ids; cbn [spec_buffers]; prog_walk. Qed.
Lemma still_free_specs ids : within still (free_specs ids).
Proof. induction ids; cbn [free_specs]; prog_walk. Qed.
Lemma still_spec_arrays ids : within still (spec_arrays ids).
Proof. induction ids; cbn [spec_arrays]; prog_walk. Qed.
Lemma still_try size : within still (try_dstate size).
Proof. unfold try_dstate. prog_walk. Qed.
#[local] Hint Resolve still_spec_buffers still_free_specs still_spec_arrays still_try : prog.

Lemma still_dyn_loop fuel manual : forall size, within still (dyn_loop fuel manual size).
Proof. induction fuel as [|fuel IH]; intros size; cbn [dyn_loop]; prog_walk. Qed.
#[local] Hint Resolve still_dyn_loop : prog.

Lemma still_undo : within still go_undo.
Proof. unfold go_undo. prog_walk. Qed.
Lemma still_go_dyn : within still go_dyn.
Proof. unfold go_dyn. prog_walk. Qed.
Lemma still_sizes : within still go_sizes.
Proof. unfold go_sizes. prog_walk. Qed.
Lemma still_specs : within still go_specs.
Proof. unfold go_specs. prog_walk. Qed.
Lemma still_buffers : within still dtrace_state_buffers.
Proof. unfold dtrace_state_buffers. prog_walk. Qed.
Lemma still_prereserve : within still dtrace_state_prereserve.
Proof. unfold dtrace_state_prereserve. prog_walk. Qed.
#[local] Hint Resolve still_undo still_go_dyn still_sizes still_specs still_buffers still_prereserve : prog.

(** BEGIN was fired, and the consumer is on its way. *)
Definition gone (d d' : dts) : Prop := ds_log d' = ds_log d ++ [LBegin] /\ (ds_activity d' = ACTIVE \/ ds_activity d' = DRAINING).

(** A part of dtrace_state_go(): nothing yet, or BEGIN. *)
Definition going (d : dts) (s : step) (d' : dts) : Prop := match s with Go => gone d d' | _ => still d d' end.

Lemma going_step {A} (m : sprog dts A) (f : A -> sprog dts step) d : within still m -> (forall a d', after (f a) d' (going d')) -> after (sbind m f) d (going d).
Proof.
  intros Hm Hf. apply after_bind. eapply after_weaken; [apply Hm|]. intros a d1 [H1 H2]. eapply after_weaken; [apply Hf|]. intros s d2 Hg. destruct s; unfold going, gone, still in *; rewrite ?H1, ?H2 in Hg; done.
Qed.

Lemma going_then m k d : within still m -> (forall d', after k d' (going d')) -> after (then_ m k) d (going d).
Proof. intros Hm Hk. unfold then_. apply going_step; [done|]. intros s d'. destruct s; [apply Hk|by apply after_ret..]. Qed.

Lemma fire_after ev d : after (fire ev) d (fun _ d' => act_moves (ds_activity d) (ds_activity d') /\ ds_log d' = ds_log d ++ [ev] /\ ds_options d' = ds_options d /\ moved d d').
Proof.
  unfold fire, get_dts. apply after_bind, after_gets. intros x [= <-]. apply after_bind, after_gets. intros d' Hf. apply after_puts. destruct (ceo_fire _ _ _ Hf) as (H1 & H2 & H3 & [v1 v2 v3 v4 v5 v6]). by split_and!.
Qed.

Lemma going_begin d : after go_begin d (going d).
Proof.
  unfold go_begin. apply after_bind, after_puts. apply after_bind, after_puts. apply after_bind, after_puts. destruct (clamp_options d) as [opts ->]. apply after_bind, after_gets. intros d1 [= <-]. apply after_bind, after_gets. intros b Hb. apply after_bind, after_assert. intros _. apply after_bind, after_puts.
  apply after_bind. eapply after_weaken; [apply fire_after|]. intros u d2 (_ & Hlog & _). apply after_bind, after_gets. intros x [= <-]. apply after_bind, after_assert. intros Hact. apply orb_true_iff in Hact. rewrite !bool_decide_eq_true in Hact.
  apply after_bind. apply (after_weaken _ _ (fun _ d3 => ds_log d3 = ds_log d2 /\ (ds_activity d3 = ACTIVE \/ ds_activity d3 = DRAINING))).
  - destruct Hact as [Ha|Ha]; rewrite Ha; cbn; [apply after_puts; split; [done|by left]|apply after_ret; split; [done|by right]].
  - intros u3 d3 [H1 H2]. apply after_bind, after_puts. apply after_ret. split; [|done]. cbn. by rewrite H1, Hlog.
Qed.

Lemma go_after d : after dtrace_state_go d (fun _ d' => (ds_activity d = INACTIVE /\ gone d d') \/ still d d').
Proof.
  unfold dtrace_state_go. apply after_bind. apply after_gets. intros x [= <-]. destruct (bool_decide_reflect (ds_activity d = INACTIVE)) as [Ha|_]; cbn [negb]; [|apply after_ret; by right].
  assert (Hb : after go_body d (going d)).
  { unfold go_body. apply going_step. { apply still_puts. intros y. destruct (ceo_prime y) as (x1 & x2 & x3 & x4 & x5 & _ & ->). done. } intros _ d1. apply going_step; [prog_walk|]. intros y d2. destruct (_ && _); [by apply after_ret|]. apply going_step; [prog_walk|]. intros _ d3. apply going_then; [prog_walk|]. intros d4. apply going_step; [prog_walk|]. intros z d5.
    destruct (negb _); [by apply after_ret|]. apply going_then; [prog_walk|]. intros d6. apply going_step; [prog_walk|]. intros rval d7. destruct (negb _); [by apply after_ret|]. apply going_then; [prog_walk|]. intros d8. apply going_begin. }
  apply after_bind. eapply after_weaken; [exact Hb|]. intros s d1 Hg. destruct s; [apply after_ret; left; by split|apply after_ret; by right|]. apply after_bind. eapply after_weaken; [apply still_undo|]. intros u d2 H2. apply after_ret. right. by etrans.
Qed.

Lemma stop_after d : after dtrace_state_stop d (fun rval d' => (rval = 0 /\ (ds_activity d = ACTIVE \/ ds_activity d = DRAINING) /\ ds_activity d' = STOPPED /\ ds_log d' = ds_log d ++ [LEnd] /\ ds_options d' = ds_options d /\ moved d d') \/ (rval = EINVAL /\ d' = d)).
Proof.
  unfold dtrace_state_stop. apply after_bind, after_gets. intros x [= <-]. destruct (_ && _) eqn:Hc; [apply after_ret; by right|]. apply after_bind, after_puts. apply after_bind, after_puts. apply after_bind, after_puts. apply after_bind. eapply after_weaken; [apply fire_after|]. intros u d1 (_ & Hl & Ho & [v1 v2 v3 v4 v5 v6]). apply after_bind, after_puts. apply after_ret. left. split; [done|].
  split; [|by split_and!]. apply andb_false_iff in Hc. rewrite !negb_false_iff, !bool_decide_eq_true in Hc. done.
Qed.

Lemma option_after o v d : after (dtrace_state_option o v) d (fun _ d' => still d d' /\ (ds_activity d <> INACTIVE -> d' = d)).
Proof.
  intros rval d' H. unfold dtrace_state_option, get_dts, sbind at 1, sgets in H. destruct (bool_decide_reflect (ds_activity d = INACTIVE)) as [Ha|Ha]; cbn [negb] in H.
  - split; [|done]. cbv zeta in H. repeat match type of H with (if ?b then _ else _) _ = _ => destruct b end; unfold sbind, sputs, sret in H; by injection H as _ <-.
  - unfold sret in H. injection H as _ <-. by split.
Qed.
End Life.
