(* ===== verification/ConsumerEnd.v ===== *)
(** The end of a consumer: dtrace_state_destroy() destroys every ECB once, those on probes of the kernel first, and gives all
    memory back. *)
From S2P Require Import Prelude StateProg Dif SafeMem Buffer DynVar DynInit Privilege Consumer ConsumerMem ConsumerGo.
From stdpp Require Import gmap list.
#[local] Open Scope Z_scope.
#[local] Open Scope sprog_scope.

Section End_.
Context {E : consumer_env}.

(** * ECBs *)

(** A pass destroys the ECB [i]. *)
Definition ends (kernel : bool) (ecbs : list ecb_slot) (i : nat) : bool :=
  match ecbs !! i with Some (Some e) => negb (kernel && bool_decide (e = Some false)) | _ => false end.

(** The ECBs in the order of their destruction. *)
Definition end_order (ecbs : list ecb_slot) : list nat :=
  let ids := seq 0 (length ecbs) in
  List.filter (ends true ecbs) ids ++ List.filter (fun i => ends false ecbs i && negb (ends true ecbs i)) ids.

Definition ended (ecbs : list ecb_slot) (evs : list life_event) (d : dts) : dts :=
  Dts (ds_activity d) (ds_options d) (ds_cred d) (ds_destructive d) (ds_speculates d) (ds_aggs d) (ds_needed d) ecbs (ds_reserve d) (ds_bufs d) (ds_aggbufs d) (ds_spec d) (ds_specs d) (ds_nspec d) (ds_dyn d) (ds_cleaner d) (ds_deadman d) (ds_alive d) (ds_laststatus d) (ds_live d) (ds_log d ++ evs).

Lemma ended_id d : ended (ds_ecbs d) [] d = d.
Proof. destruct d. unfold ended. cbn. by rewrite app_nil_r. Qed.

(** [l2] is [l1] after a pass over [ids]. *)
Definition passed (kernel : bool) (ids : list nat) (l1 l2 : list ecb_slot) : Prop :=
  length l2 = length l1 /\ forall i, l2 !! i = if bool_decide (i ∈ ids) && ends kernel l1 i then Some None else l1 !! i.

Lemma ends_insert kernel l i j : i <> j -> ends kernel (<[i := None]> l) j = ends kernel l j.
Proof. intros Hij. unfold ends. by rewrite list_lookup_insert_ne. Qed.

Lemma ecb_pass_run kernel : forall ids d, NoDup ids -> (forall i, i ∈ ids -> (i < length (ds_ecbs d))%nat) ->
  exists l, ecb_pass kernel ids d = Some (tt, ended l (map LEcb (List.filter (ends kernel (ds_ecbs d)) ids)) d) /\ passed kernel ids (ds_ecbs d) l.
Proof.
  induction ids as [|i ids IH]; intros d Hnd Hin.
  { exists (ds_ecbs d). cbn. rewrite ended_id. done. }
  apply NoDup_cons in Hnd as [Hni Hnd]. destruct (lookup_lt_is_Some_2 (ds_ecbs d) i) as [slot Hs]; [apply Hin; set_solver|]. cbn [ecb_pass]. unfold get_dts, sbind, sgets, sputs, sret. cbv beta iota. rewrite Hs.
  destruct (ends kernel (ds_ecbs d) i) eqn:He.
  - set (d1 := with_event (LEcb i) (with_ecbs (<[i := None]> (ds_ecbs d)) d)). destruct (IH d1 Hnd) as (l & Hrun & Hlen & Hat). { intros j Hj. cbn. rewrite length_insert. apply Hin. set_solver. }
    assert (Hext : List.filter (ends kernel (ds_ecbs d1)) ids = List.filter (ends kernel (ds_ecbs d)) ids) by (apply List.filter_ext_in; intros j Hj; apply ends_insert; intros ->; apply Hni; by apply list_elem_of_In). rewrite Hext in Hrun.
    exists l. split.
    + unfold ends in He. rewrite Hs in He. destruct slot as [e|]; [|done]. apply negb_true_iff in He. rewrite He. unfold sbind, sputs. fold d1. rewrite Hrun. cbn [List.filter]. assert (Hk : ends kernel (ds_ecbs d) i = true) by (unfold ends; rewrite Hs, He; done). rewrite Hk. f_equal. f_equal. unfold ended, d1. cbn. by rewrite <- app_assoc.
    + split; [by rewrite Hlen; cbn; rewrite length_insert|]. intros j. rewrite Hat. cbn [ds_ecbs d1 with_event with_ecbs]. destruct (decide (i = j)) as [<-|Hij].
      * rewrite He, (bool_decide_eq_false_2 (i ∈ ids)) by done. rewrite bool_decide_eq_true_2 by set_solver. cbn. apply list_lookup_insert_eq, Hin. set_solver.
      * rewrite (ends_insert _ _ _ _ Hij), list_lookup_insert_ne by done. replace (bool_decide (j ∈ i :: ids)) with (bool_decide (j ∈ ids)); [done|]. apply bool_decide_ext. set_solver.
  - destruct (IH d Hnd) as (l & Hrun & Hlen & Hat). { intros j Hj. apply Hin. set_solver. }
    exists l. split.
    + cbn [List.filter]. rewrite He, <- Hrun. unfold ends in He. rewrite Hs in He. destruct slot as [e|]; [|done]. apply negb_false_iff in He. by rewrite He.
    + split; [done|]. intros j. rewrite Hat. destruct (decide (i = j)) as [<-|Hij]; [by rewrite He, !andb_false_r|]. replace (bool_decide (j ∈ i :: ids)) with (bool_decide (j ∈ ids)); [done|]. apply bool_decide_ext. set_solver.
Qed.

Lemma passes_run d : exists l, (ecb_pass true (seq 0 (length (ds_ecbs d))) ~; ecb_pass false (seq 0 (length (ds_ecbs d)))) d = Some (tt, ended l (map LEcb (end_order (ds_ecbs d))) d) /\ length l = length (ds_ecbs d) /\ Forall (eq None) l.
Proof.
  set (ids := seq 0 (length (ds_ecbs d))). assert (Hin : forall i, i ∈ ids <-> (i < length (ds_ecbs d))%nat) by (intros i; unfold ids; rewrite elem_of_seq; lia). pose proof (NoDup_seq 0 (length (ds_ecbs d))) as Hnd. fold ids in Hnd.
  destruct (ecb_pass_run true ids d Hnd) as (l1 & Hr1 & Hl1 & Ha1); [intros i; apply Hin|]. set (d1 := ended _ _ d) in Hr1. destruct (ecb_pass_run false ids d1 Hnd) as (l2 & Hr2 & Hl2 & Ha2); [intros i Hi; cbn; rewrite Hl1; by apply Hin|].
  assert (Hsel : List.filter (ends false (ds_ecbs d1)) ids = List.filter (fun i => ends false (ds_ecbs d) i && negb (ends true (ds_ecbs d) i)) ids).
  { apply List.filter_ext_in. intros i Hi. apply list_elem_of_In in Hi. unfold ends at 1. cbn [ds_ecbs d1 ended]. rewrite Ha1, bool_decide_eq_true_2 by done. cbn [andb]. destruct (ends true (ds_ecbs d) i); [by rewrite andb_false_r|]. by rewrite andb_true_r. }
  exists l2. split; [|split; [by rewrite Hl2|]].
  - unfold sbind. rewrite Hr1, Hr2, Hsel. unfold end_order. fold ids. f_equal. f_equal. unfold ended, d1. cbn. by rewrite <- app_assoc, map_app.
  - apply Forall_lookup_2. intros i x Hx. assert (Hi : i ∈ ids) by (apply Hin; rewrite <- Hl1; change l1 with (ds_ecbs d1); rewrite <- Hl2; by eapply lookup_lt_Some). rewrite Ha2, bool_decide_eq_true_2 in Hx by done. cbn [andb] in Hx. unfold ends in Hx. destruct (ds_ecbs d1 !! i) as [[e|]|]; cbn in Hx; congruence.
Qed.

(** Every live ECB is in the order, once. *)
Lemma end_order_all ecbs : NoDup (end_order ecbs) /\ forall i, i ∈ end_order ecbs <-> exists e, ecbs !! i = Some (Some e).
Proof.
  assert (Hel : forall i, i ∈ end_order ecbs <-> exists e, ecbs !! i = Some (Some e)).
  { intros i. unfold end_order. cbv zeta. rewrite elem_of_app, !list_elem_of_In, !filter_In, <- list_elem_of_In, elem_of_seq. unfold ends. split.
    - intros [[_ H]|[_ H]]; destruct (ecbs !! i) as [[e|]|] eqn:He; try done; by exists e.
    - intros [e He]. pose proof (lookup_lt_Some _ _ _ He). rewrite He. destruct (negb _); [left|right]; (split; [lia|done]). }
  split; [|done]. unfold end_order. cbv zeta. apply NoDup_app. split; [apply NoDup_ListNoDup, List.NoDup_filter, NoDup_ListNoDup, NoDup_seq|]. split; [|apply NoDup_ListNoDup, List.NoDup_filter, NoDup_ListNoDup, NoDup_seq].
  intros i H1 H2. apply list_elem_of_In, filter_In in H1 as [_ H1]. apply list_elem_of_In, filter_In in H2 as [_ H2]. rewrite H1, andb_false_r in H2. done.
Qed.

(** * Memory *)

Lemma spec_row r d i sp : mem_ok r d -> ds_specs d !! i = Some sp -> sp.1 <> 0 -> row_ok sp.2.
Proof.
  intros Hm Hi Hne. destruct (mo_specs _ _ Hm) as (l & n & Hs & Hf). rewrite Hs in Hi. apply lookup_app_Some in Hi as [Hi|[_ Hi]]; [|by apply lookup_replicate in Hi as [-> _]]. by destruct (Forall_lookup_1 _ _ _ _ Hf Hi) as (_ & ? & ?).
Qed.

(** The buffers of speculations are freed one after the other. *)
Lemma free_spec_bufs_run r : forall n i d, mem_ok r d -> arrays_there d -> (i + n = length (ds_specs d))%nat -> (forall j sp, (j < i)%nat -> ds_specs d !! j = Some sp -> Forall idle sp.2) ->
  runs (free_spec_bufs (seq i n)) d (fun _ d' => exists specs, d' = with_live (ds_live d') (with_spec (ds_spec d) specs (ds_nspec d) d) /\ mem_ok r d' /\ arrays_there d' /\ Forall (fun sp => Forall idle sp.2) specs).
Proof.
  induction n as [|n IH]; intros i d Hm Ha Hn Hidle; cbn [seq free_spec_bufs].
  { apply runs_ret. exists (ds_specs d). split; [by destruct d|]. split; [done|]. split; [done|]. apply Forall_lookup_2. intros j sp Hj. apply (Hidle j sp); [apply lookup_lt_Some in Hj; lia|done]. }
  destruct (lookup_lt_is_Some_2 (ds_specs d) i) as [sp Hsp]; [lia|]. pose proof (Forall_lookup_1 _ _ _ _ Ha Hsp) as Hne. cbn beta in Hne. eapply runs_bind; [apply (free_bufs_run r (KSpec i) d Hm)|].
  { by exists sp. } { cbn. rewrite Hsp. by eapply spec_row. } { intros j y [= <-] Hy. rewrite Hsp in Hy. by injection Hy as <-. }
  intros u d1 (l & He & Hm1 & Hl). cbn beta in *. assert (Hs1 : ds_specs d1 = alter (fun sp => (sp.1, l)) i (ds_specs d)) by (by rewrite He). eapply runs_weaken; [apply (IH (S i) d1 Hm1)|].
  - unfold arrays_there. rewrite Hs1. by apply Forall_alter.
  - rewrite Hs1, length_alter. lia.
  - intros j y Hj Hy. rewrite Hs1 in Hy. destruct (decide (i = j)) as [<-|Hij]; [rewrite list_lookup_alter_eq, Hsp in Hy; by injection Hy as <-|]. rewrite list_lookup_alter_ne in Hy by done. apply (Hidle j); [lia|done].
  - intros u2 d2 (specs & He2 & Hrest). exists specs. split; [|done]. rewrite He2. rewrite He. done.
Qed.

Lemma free_spec_arrays_run : forall l R d, Forall (fun sp => sp.1 <> 0) l -> ds_live d ≡ₚ map (fun sp => (sp.1, bufsize)) l ++ R ->
  runs (free_spec_arrays l) d (fun _ d' => d' = with_live (ds_live d') d /\ ds_live d' ≡ₚ R).
Proof.
  induction l as [|sp l IH]; intros R d Hf Hl; cbn [free_spec_arrays]; [apply runs_ret; by destruct d|]. apply Forall_cons in Hf as [Hne Hf]. eapply runs_bind; [by apply (free_live_run sp.1 bufsize _ d Hl)|]. intros u d1 [He Hl1]. cbn beta in *.
  eapply runs_weaken; [by apply (IH R d1)|]. intros u2 d2 [He2 Hl2]. split; [|done]. rewrite He2, He. done.
Qed.

Lemma specs_own_idle l : Forall (fun sp => sp.1 <> 0) l -> Forall (fun sp => Forall idle sp.2) l -> specs_own l = map (fun sp => (sp.1, bufsize)) l.
Proof.
  induction l as [|sp l IH]; intros H1 H2; [done|]. apply Forall_cons in H1 as [Hne H1]. apply Forall_cons in H2 as [Hi H2]. unfold specs_own in *. cbn [map concat]. rewrite IH by done. unfold spec_own. rewrite (blocks_idle _ Hi). by destruct (Z.eqb_spec sp.1 0).
Qed.

Lemma fini_length ds : (length (dtrace_dstate_fini ds) <= 1)%nat.
Proof. unfold dtrace_dstate_fini. destruct (_ =? _); cbn; lia. Qed.

Lemma fini_run (l : live_heap) R d (Q : unit -> dts -> Prop) (k : sprog dts unit) : (length l <= 1)%nat -> ds_live d ≡ₚ l ++ R -> (forall live, live ≡ₚ R -> runs k (with_live live d) Q) ->
  runs (live <~ sgets (fun _ => fold_left (fun o '(a, n) => match o with Some live => kmem_free a n live | None => None end) l (Some (ds_live d))); sputs (with_live live) ~; k) d Q.
Proof.
  intros Hlen Hl Hk. destruct l as [|[a n] [|? ?]]; [| |cbn in Hlen; lia].
  - eapply bind_gets; [reflexivity|]. apply bind_puts. by apply Hk.
  - destruct (kmem_free_spec _ _ _ _ Hl) as (live & Hf & Hp). eapply bind_gets; [exact Hf|]. apply bind_puts. by apply Hk.
Qed.

(** The last part: nothing but arrays is left. *)
Lemma free_rest_run R d : Forall idle (ds_bufs d).2 -> Forall idle (ds_aggbufs d).2 -> arrays_there d -> Forall (fun sp => Forall idle sp.2) (ds_specs d) -> mem_ok (arrays d ++ R) d -> (ds_bufs d).1 <> 0 -> (ds_aggbufs d).1 <> 0 ->
  runs (live <~ sgets (fun _ => fold_left (fun o '(a, n) => match o with Some live => kmem_free a n live | None => None end) (dtrace_dstate_fini (ds_dyn d)) (Some (ds_live d)));
    sputs (with_live live) ~; free_live (ds_bufs d).1 bufsize ~; free_live (ds_aggbufs d).1 bufsize ~; free_spec_arrays (take (Z.to_nat (ds_nspec d)) (ds_specs d)) ~; free_live (ds_spec d) (ds_nspec d * sizeof_speculation)) d
    (fun _ d' => d' = with_live (ds_live d') d /\ ds_live d' ≡ₚ R).
Proof.
  intros H1 H2 H3 H4 Hm Hb Ha. destruct (mo_nspec _ _ Hm) as [_ Hns]. set (sp := if ds_spec d =? 0 then [] else [(ds_spec d, ds_nspec d * sizeof_speculation)]). set (sa := map (fun sp => (sp.1, bufsize)) (ds_specs d)).
  assert (Hl : ds_live d ≡ₚ dtrace_dstate_fini (ds_dyn d) ++ ((ds_bufs d).1, bufsize) :: ((ds_aggbufs d).1, bufsize) :: sa ++ sp ++ R).
  { rewrite (mo_heap _ _ Hm). unfold mine, arrays. rewrite (blocks_idle _ H1), (blocks_idle _ H2), (specs_own_idle _ H3 H4). fold sp sa. cbn [app]. solve_Permutation. }
  eapply (fini_run (dtrace_dstate_fini (ds_dyn d))); [apply fini_length|exact Hl|]. intros live Hlive. set (d1 := with_live live d).
  eapply runs_bind; [by apply (free_live_run (ds_bufs d).1 bufsize _ d1 Hlive)|]. intros u d2 [He2 Hl2]. cbn beta in *. eapply runs_bind; [by apply (free_live_run (ds_aggbufs d).1 bufsize _ d2 Hl2)|]. intros u2 d3 [He3 Hl3]. cbn beta in *.
  rewrite take_ge by lia. eapply runs_bind; [by apply (free_spec_arrays_run (ds_specs d) (sp ++ R) d3)|]. intros u3 d4 [He4 Hl4]. cbn beta in *. assert (He : d4 = with_live (ds_live d4) d) by (by rewrite He4, He3, He2). unfold sp in Hl4. destruct (Z.eqb_spec (ds_spec d) 0) as [H0|H0].
  - rewrite H0. unfold free_live. cbn. apply runs_ret. by split.
  - eapply runs_weaken; [by apply (free_live_run _ _ R d4 Hl4)|]. intros u5 d5 [He5 Hl5]. split; [|done]. rewrite He5, He. done.
Qed.

(** * Destruction *)

Definition destroyed (R : live_heap) (d d' : dts) : Prop :=
  ds_live d' ≡ₚ R /\ length (ds_ecbs d') = length (ds_ecbs d) /\ Forall (eq None) (ds_ecbs d') /\ ds_log d' = ds_log d ++ map LEcb (end_order (ds_ecbs d)) /\
  ds_cleaner d' = None /\ ds_deadman d' = None /\ ds_activity d' = (if bool_decide (ds_activity d = ACTIVE) || bool_decide (ds_activity d = DRAINING) then KILLED else ds_activity d).

Lemma mem_same r d d' : mem_ok r d -> (ds_options d', ds_bufs d', ds_aggbufs d', ds_spec d', ds_specs d', ds_nspec d', ds_dyn d', ds_live d') = (ds_options d, ds_bufs d, ds_aggbufs d, ds_spec d, ds_specs d, ds_nspec d, ds_dyn d, ds_live d) -> mem_ok r d'.
Proof. intros [m1 m2 m3 m4 m5 m6 m7] H. injection H as e1 e2 e3 e4 e5 e6 e7 e8. split; unfold mine; rewrite ?e1, ?e2, ?e3, ?e4, ?e5, ?e6, ?e7, ?e8; done. Qed.

(** The part after the ECBs. *)
Lemma destroy_memory R d : mem_ok (arrays d ++ R) d -> arrays_there d -> (ds_bufs d).1 <> 0 -> (ds_aggbufs d).1 <> 0 ->
  runs (free_bufs KPrincipal ~; free_bufs KAgg ~; free_spec_bufs (seq 0 (Z.to_nat (ds_nspec d))) ~; sputs (with_cyclics None None) ~;
    d <~ get_dts;
    live <~ sgets (fun _ => fold_left (fun o '(a, n) => match o with Some live => kmem_free a n live | None => None end) (dtrace_dstate_fini (ds_dyn d)) (Some (ds_live d)));
    sputs (with_live live) ~; free_live (ds_bufs d).1 bufsize ~; free_live (ds_aggbufs d).1 bufsize ~; free_spec_arrays (take (Z.to_nat (ds_nspec d)) (ds_specs d)) ~; free_live (ds_spec d) (ds_nspec d * sizeof_speculation)) d
    (fun _ d' => ds_live d' ≡ₚ R /\ ds_ecbs d' = ds_ecbs d /\ ds_log d' = ds_log d /\ ds_activity d' = ds_activity d /\ ds_cleaner d' = None /\ ds_deadman d' = None).
Proof.
  intros Hm Ha Hb Hg. eapply runs_bind; [by apply (free_bufs_run _ KPrincipal d Hm); [|apply Hm|]|]. intros u1 d1 (l1 & He1 & Hm1 & Hi1). cbn beta in *. eapply runs_bind; [by apply (free_bufs_run _ KAgg d1 Hm1); [|apply Hm1|]|]. intros u2 d2 (l2 & He2 & Hm2 & Hi2). cbn beta in *.
  assert (Hs2 : ds_specs d2 = ds_specs d /\ ds_nspec d2 = ds_nspec d) by (rewrite He2, He1; done). destruct Hs2 as [Hs2 Hn2]. eapply runs_bind; [apply (free_spec_bufs_run _ _ 0 d2 Hm2)|].
  { unfold arrays_there. by rewrite Hs2. } { rewrite Hs2. symmetry. apply Hm. } { intros j sp Hj. lia. }
  intros u3 d3 (specs & He3 & Hm3 & Ha3 & Hi3). cbn beta in *. apply bind_puts. set (d4 := with_cyclics None None d3). eapply bind_gets; [reflexivity|].
  assert (Hsh : (ds_bufs d4) = ((ds_bufs d).1, l1) /\ ds_aggbufs d4 = ((ds_aggbufs d).1, l2) /\ ds_specs d4 = specs /\ ds_ecbs d4 = ds_ecbs d /\ ds_log d4 = ds_log d /\ ds_activity d4 = ds_activity d) by (unfold d4; rewrite He3, He2, He1; done). destruct Hsh as (s1 & s2 & s3 & s4 & s5 & s6).
  eapply runs_weaken; [apply (free_rest_run R d4)|].
  - by rewrite s1.
  - by rewrite s2.
  - exact Ha3.
  - by rewrite s3.
  - replace (arrays d4) with (arrays d) by (unfold arrays; by rewrite s1, s2). by apply (mem_same _ d3).
  - by rewrite s1.
  - by rewrite s2.
  - intros u5 d5 [He5 Hl5]. split; [done|]. rewrite He5. by split_and!; [exact s4|exact s5|exact s6|..].
Qed.

Lemma state_destroy_run R d : mem_ok (arrays d ++ R) d -> arrays_there d -> (ds_bufs d).1 <> 0 -> (ds_aggbufs d).1 <> 0 -> runs dtrace_state_destroy d (fun _ d' => destroyed R d d').
Proof.
  intros Hm Ha Hb Hg. unfold dtrace_state_destroy. eapply bind_gets; [reflexivity|]. set (hot := bool_decide (ds_activity d = ACTIVE) || bool_decide (ds_activity d = DRAINING)). set (dk := if hot then with_activity KILLED d else d).
  apply (runs_bind _ _ _ (fun _ d' => d' = dk)); [unfold dk; destruct hot; [by apply runs_puts|by apply runs_ret]|]. intros u0 d0 ->. cbv zeta. assert (Hek : ds_ecbs dk = ds_ecbs d) by (unfold dk; by destruct hot). rewrite <- Hek. destruct (passes_run dk) as (l & Hp & Hlen & Hall). set (dm := ended _ _ dk) in Hp.
  assert (Hdm : (ds_options dm, ds_bufs dm, ds_aggbufs dm, ds_spec dm, ds_specs dm, ds_nspec dm, ds_dyn dm, ds_live dm) = (ds_options d, ds_bufs d, ds_aggbufs d, ds_spec d, ds_specs d, ds_nspec d, ds_dyn d, ds_live d)) by (unfold dm, dk; by destruct hot). assert (Hx : ds_bufs dm = ds_bufs d /\ ds_aggbufs dm = ds_aggbufs d /\ ds_specs dm = ds_specs d /\ ds_nspec dm = ds_nspec d) by (unfold dm, dk; by destruct hot). destruct Hx as (e2 & e3 & e5 & e6).
  destruct (destroy_memory R dm) as (u & d' & Hrun & Hl & Hecb & Hlog & Hact & Hc & Hd).
  { replace (arrays dm) with (arrays d) by (unfold arrays; by rewrite e2, e3). by apply (mem_same _ d). } { unfold arrays_there. by rewrite e5. } { by rewrite e2. } { by rewrite e3. }
  rewrite e6 in Hrun. exists u, d'. split.
  - unfold sbind at 1 in Hp. unfold sbind at 1. destruct (ecb_pass true _ dk) as [[u1 x]|]; [|done]. unfold sbind at 1. rewrite Hp. exact Hrun.
  - split; [done|]. rewrite Hecb, Hlog, Hact. cbn [dm ended ds_ecbs ds_log ds_activity]. rewrite <- Hek. split; [done|]. split; [done|]. split; [unfold dk; by destruct hot|]. split; [done|]. split; [done|]. unfold dk. fold hot. by destruct hot.
Qed.
End End_.
