(* ===== verification/ConsumerFire.v ===== *)
(** What the firing of a probe does to a consumer: its activity only moves on, and its buffers stay where they are.

    With this the functions of the file Dispatch can fire the BEGIN and END probes of a consumer as the files Consumer to
    ConsumerLife expect it. *)
From S2P Require Import Prelude StateProg Dif SafeMem DifEmulate DifSafety Aggregate Buffer Speculation Match Probes Dof Ecb Privilege DynVar Dispatch DispatchSafe Consumer ConsumerMem ConsumerGo ConsumerLife.
From stdpp Require Import gmap list.
#[local] Open Scope Z_scope.
#[local] Open Scope sprog_scope.

(** * Buffers stay in place *)

Lemma advance_place st offs total woffs b mem : match ring_advance st offs total woffs b mem with RingAt _ b' _ => in_place b b' | RingDrop b' => in_place b b' | RingFail => True end.
Proof.
  unfold ring_advance. destruct (advance_loop _ _ _ _ _ _) as [[w [|]]|]; [destruct (_ =? 0); [|done]| |done].
  - destruct (clear_loop _ _ _ _); [|done]. apply (transitivity (place_flags b (Z.ldiff (dtb_flags b) DTRACEBUF_WRAPPED) (land_ldiff_other _ DTRACEBUF_WRAPPED DTRACEBUF_NOSWITCH eq_refl))). done.
  - done.
Qed.

Lemma ring_place st needed align b mem : match ring_reserve st needed align b mem with RingAt _ b' _ => in_place b b' | RingDrop b' => in_place b b' | RingFail => True end.
Proof.
  unfold ring_reserve. destruct (_ || _); [|done]. destruct (_ <? _).
  - destruct (_ <? _); [done|]. destruct (clear_loop _ _ _ _) as [m|]; [|done]. pose proof (advance_place st 0 needed (if has_flag b DTRACEBUF_WRAPPED then if dtb_offset b <=? dtb_xamot_offset b then 0 else dtb_xamot_offset b else 0) (Buffer.set_flags (Z.lor (dtb_flags b) DTRACEBUF_WRAPPED) b) m) as H.
    destruct (ring_advance _ _ _ _ _ _); [| |done]; (etrans; [|exact H]; apply (place_flags b); by apply land_lor_other).
  - destruct (_ <? _); [done|]. apply advance_place.
Qed.

Lemma reserve_place st needed align ms b mem rv : dtrace_buffer_reserve st needed align ms b mem = Some rv -> in_place b (rv_buf rv).
Proof.
  unfold dtrace_buffer_reserve. destruct (has_flag b DTRACEBUF_INACTIVE); [by intros [= <-]|]. destruct (_ =? 0); [by intros [= <-]|]. destruct (negb _).
  { destruct (pad_loop _ _ _ _) as [[offs m]|]; [|done]. destruct (_ <? _); by intros [= <-]. }
  destruct (_ && _); [by intros [= <-]|]. assert (Hr : forall r, r = (if has_flag b DTRACEBUF_FILL then RingAt (dtb_offset b) b mem else ring_reserve st needed align b mem) -> match r with RingAt _ b' _ => in_place b b' | RingDrop b' => in_place b b' | RingFail => True end) by (intros r ->; destruct (has_flag b DTRACEBUF_FILL); [done|apply ring_place]).
  specialize (Hr _ eq_refl). destruct (if has_flag b DTRACEBUF_FILL then _ else _) as [b'|offs b' m|]; [by intros [= <-]| |done].
  destruct (pad_loop _ _ _ _) as [[o m2]|]; [|done]. destruct (_ && _); intros [= <-]; [|exact Hr]. etrans; [exact Hr|]. apply place_flags. by apply land_lor_other.
Qed.

(** Speculations. *)
Definition spec_in_place (sp sp' : dtrace_speculation_t) : Prop := all_in_place (dtsp_buffer sp) (dtsp_buffer sp').
Definition specs_in_place (l l' : list dtrace_speculation_t) : Prop := Forall2 spec_in_place l l'.

#[export] Instance specs_in_place_preorder : PreOrder specs_in_place.
Proof.
  split; [intros l; apply Forall_Forall2_diag, Forall_true; intros sp; apply all_refl|]. intros l1 l2 l3 H1. revert l3. induction H1; intros l3 H2; inversion H2; subst; constructor; [unfold spec_in_place in *; by etrans|by apply IHForall2].
Qed.

Lemma specs_insert l i sp sp' : l !! i = Some sp -> spec_in_place sp sp' -> specs_in_place l (<[i := sp']> l).
Proof.
  intros Hi Hb. apply Forall2_same_length_lookup_2; [by rewrite length_insert|]. intros j x y Hx Hy. apply list_lookup_insert_Some in Hy as [(<- & -> & _)|[_ Hy]]; [rewrite Hi in Hx; by injection Hx as <-|]. rewrite Hx in Hy. injection Hy as <-. apply all_refl.
Qed.

Lemma specs_alter l i f sp : l !! i = Some sp -> spec_in_place sp (f sp) -> specs_in_place l (alter f i l).
Proof.
  intros Hi Hb. apply Forall2_same_length_lookup_2; [by rewrite length_alter|]. intros j x y Hx Hy. destruct (decide (i = j)) as [<-|Hne].
  - rewrite list_lookup_alter_eq, Hi in Hy. rewrite Hi in Hx. injection Hx as <-. by injection Hy as <-.
  - rewrite list_lookup_alter_ne, Hx in Hy by done. injection Hy as <-. apply all_refl.
Qed.

Definition sys_in_place (s s' : spec_sys) : Prop := specs_in_place (dts_speculations s) (dts_speculations s') /\ all_in_place (dts_buffer s) (dts_buffer s').

#[export] Instance sys_in_place_preorder : PreOrder sys_in_place.
Proof. split; [intros s; split; reflexivity|]. intros x y z [H1 H2] [H3 H4]. split; by etrans. Qed.

Lemma set_spec_place s i sp sp' : dts_speculations s !! i = Some sp -> spec_in_place sp sp' -> sys_in_place s (set_spec i sp' s).
Proof. intros Hi H. split; [by eapply specs_insert|apply all_refl]. Qed.

Lemma which_found s cpu which sp b : which_spec s cpu which = Some (sp, b) -> dts_speculations s !! Z.to_nat (which - 1) = Some sp /\ dtsp_buffer sp !! cpu = Some b.
Proof. unfold which_spec. destruct (dts_speculations s !! _) as [x|]; [|done]. destruct (dtsp_buffer x !! cpu) eqn:E; [|done]. by intros [= <- <-]. Qed.

Lemma commit_data_place bst src dest mem dest' mem' : commit_data bst src dest mem = Some (dest', mem') -> in_place dest dest'.
Proof.
  unfold commit_data. destruct (dtrace_buffer_reserve _ _ _ _ _ _) as [rv|] eqn:Hr; [|done]. apply reserve_place in Hr. destruct (_ <? 0); [intros [= <- _]; by etrans; [exact Hr|]|]. destruct (commit_copy _ _ _ _); [|done]. intros [= <- _]. by etrans; [exact Hr|].
Qed.

Lemma commit_rest_place bst cpu i last s s' : commit_rest bst cpu i last s = Some s' -> sys_in_place s s'.
Proof.
  unfold commit_rest. destruct (dts_speculations s !! i) as [sp|] eqn:Hi; [|done]. destruct (dtsp_buffer sp !! cpu) as [src|] eqn:Hs; [|done]. destruct (dts_buffer s !! cpu) as [dest|] eqn:Hd; [|done]. destruct (commit_data _ _ _ _) as [[dest' mem']|] eqn:Hc; [|done]. apply commit_data_place in Hc.
  assert (H1 : sys_in_place s (set_dest cpu dest' mem' s)) by (split; [reflexivity|by eapply all_insert]). assert (H2 : spec_in_place sp (with_buffer cpu (commit_reset src) sp)) by (by eapply all_insert).
  destruct last; [destruct (decide _); [|done]|]; intros [= <-]; (etrans; [exact H1|]; eapply set_spec_place; [exact Hi|exact H2]).
Qed.

Lemma commit_place bst cpu which s s' : dtrace_speculation_commit bst cpu which s = Some s' -> sys_in_place s s'.
Proof.
  unfold dtrace_speculation_commit. destruct (_ =? 0); [by intros [= <-]|]. destruct (_ <? _); [by intros [= <-]|]. destruct (which_spec s cpu which) as [[sp src]|] eqn:Hw; [|done]. apply which_found in Hw as [Hi _]. destruct (commit_choice _ _); [by intros [= <-]|done|apply commit_rest_place|].
  intros H. apply commit_rest_place in H. etrans; [|exact H]. eapply set_spec_place; [exact Hi|apply all_refl].
Qed.

Lemma discard_place cpu which s s' : dtrace_speculation_discard cpu which s = Some s' -> sys_in_place s s'.
Proof.
  unfold dtrace_speculation_discard. destruct (_ =? 0); [by intros [= <-]|]. destruct (_ <? _); [by intros [= <-]|]. destruct (which_spec s cpu which) as [[sp b]|] eqn:Hw; [|done]. apply which_found in Hw as [Hi Hb]. destruct (discard_choice _ _); [by intros [= <-]|done|done|]. intros [= <-]. eapply set_spec_place; [exact Hi|]. by eapply all_insert.
Qed.

Lemma buffer_place cpu which s r s' : dtrace_speculation_buffer cpu which s = Some (r, s') -> sys_in_place s s'.
Proof.
  unfold dtrace_speculation_buffer. destruct (_ =? 0); [by intros [= _ <-]|]. destruct (_ <? _); [by intros [= _ <-]|]. destruct (which_spec s cpu which) as [[sp b]|] eqn:Hw; [|done]. apply which_found in Hw as [Hi _]. destruct (buffer_choice _ _); [by intros [= _ <-]|done|by intros [= _ <-]|]. intros [= _ <-]. eapply set_spec_place; [exact Hi|apply all_refl].
Qed.

(** * Activities move on *)

(** An exit() makes a consumer drain that is warming up or active; the deadman kills. *)
Definition act_code_moves (a b : Z) : Prop := b = a \/ (b = DTRACE_ACTIVITY_DRAINING /\ (a = DTRACE_ACTIVITY_WARMUP \/ a = DTRACE_ACTIVITY_ACTIVE)) \/ b = DTRACE_ACTIVITY_KILLED.

#[export] Instance act_code_preorder : PreOrder act_code_moves.
Proof.
  split; [by left|]. intros a b c [->|[[-> Ha]| ->]] H2; [done| |].
  - destruct H2 as [->|[[-> _]| ->]]; right; [left|left|right]; done.
  - destruct H2 as [->|[[_ [H|H]]| ->]]; [by right; right|discriminate H|discriminate H|by right; right].
Qed.

(** What a firing may make of a consumer. *)
Record con_tame (c c' : consumer) : Prop := {
  ct_activity : act_code_moves (c_activity c) (c_activity c');
  ct_specs : specs_in_place (c_specs c) (c_specs c');
  ct_bufs : all_in_place (c_bufs c) (c_bufs c')
}.

#[export] Instance con_tame_preorder : PreOrder con_tame.
Proof. split; [intros c; split; reflexivity|]. intros x y z [a1 a2 a3] [b1 b2 b3]. split; by etrans. Qed.

Definition tame (x x' : pworld) : Prop := forall s : Z, option_Forall2 con_tame (pw_cons x !! s) (pw_cons x' !! s).

#[export] Instance tame_preorder : PreOrder tame.
Proof.
  split; [intros x s; destruct (pw_cons x !! s); by constructor|]. intros x y z H1 H2 s. specialize (H1 s). specialize (H2 s). destruct H1 as [c c' H1|]; inversion H2; subst; constructor. by etrans.
Qed.

Lemma tame_same x x' : pw_cons x' = pw_cons x -> tame x x'.
Proof. intros H s. rewrite H. destruct (pw_cons x !! s); by constructor. Qed.

Lemma tame_set x s c c' : pw_cons x !! s = Some c -> con_tame c c' -> tame x (set_cons (<[s := c']> (pw_cons x)) x).
Proof. intros Hc Ht t. cbn. destruct (decide (s = t)) as [<-|Hne]; [rewrite lookup_insert_eq, Hc; by constructor|]. rewrite lookup_insert_ne by done. destruct (pw_cons x !! t); by constructor. Qed.

Section Tame.
Context {E : probe_env}.

Lemma tame_puts g : (forall x, pw_cons (g x) = pw_cons x) -> within tame (sputs g).
Proof. intros H. apply within_puts. intros x. by apply tame_same. Qed.
Lemma tame_m f : within tame (upd_m f).
Proof. by apply tame_puts. Qed.
Lemma tame_th f : within tame (upd_th f).
Proof. by apply tame_puts. Qed.
#[local] Hint Resolve tame_m tame_th : prog.
Lemma tame_flags f : within tame (raise_flags f).
Proof. apply tame_m. Qed.
Lemma tame_event t ev : within tame (sputs (add_event t ev)).
Proof. by apply tame_puts. Qed.
#[local] Hint Resolve tame_flags tame_event : prog.
Lemma tame_clock : within tame gethrtime.
Proof. unfold gethrtime. prog_walk. by apply tame_puts. Qed.
Lemma tame_ask r : within tame (ask r).
Proof. unfold ask. prog_walk. Qed.
#[local] Hint Resolve tame_clock tame_ask : prog.
Lemma tame_spin fuel now val : within tame (spin fuel now val).
Proof. induction fuel; cbn [spin]; prog_walk. Qed.
#[local] Hint Resolve tame_spin : prog.
Lemma tame_chill t ms val : within tame (dtrace_action_chill t ms val).
Proof. unfold dtrace_action_chill. prog_walk; apply tame_puts; [|done]. intros x. by destruct (_ <? _). Qed.
Lemma tame_panic t e : within tame (dtrace_action_panic t e).
Proof. unfold dtrace_action_panic. prog_walk. by apply tame_puts. Qed.
Lemma tame_breakpoint t e : within tame (dtrace_action_breakpoint t e).
Proof. unfold dtrace_action_breakpoint. prog_walk. Qed.
Lemma tame_stop t : within tame (dtrace_action_stop t).
Proof. unfold dtrace_action_stop. prog_walk. Qed.
Lemma tame_raise t sig : within tame (dtrace_action_raise t sig).
Proof. unfold dtrace_action_raise. prog_walk. Qed.
#[local] Hint Resolve tame_chill tame_panic tame_breakpoint tame_stop tame_raise : prog.

(** A change that fits the consumer as it is now. *)
Lemma tame_upd t f x : (forall c, pw_cons x !! t = Some c -> con_tame c (f c)) -> after (upd_con t f) x (fun _ x' => tame x x').
Proof. intros H. unfold upd_con, get_con. apply after_bind, after_gets. intros c Hc. apply after_puts. eapply tame_set; [exact Hc|by apply H]. Qed.

Lemma tame_con t f : (forall c, con_tame c (f c)) -> within tame (upd_con t f).
Proof. intros H x. apply tame_upd. intros c _. apply H. Qed.

Lemma tame_put_buf r b b' c : buf_of r c = Some b -> in_place b b' -> con_tame c (put_buf r b' c).
Proof.
  intros Hb Hp. destruct r as [|i]; cbn in *; split; try reflexivity.
  - by eapply all_insert.
  - cbn. destruct (c_specs c !! i) as [sp|] eqn:Hi; [|done]. eapply specs_alter; [exact Hi|]. by eapply all_insert.
Qed.

Lemma tame_then {A B} (m : sprog pworld A) (f : A -> sprog pworld B) x y : tame x y -> after m y (fun _ z => tame y z) -> (forall a, within tame (f a)) -> after (sbind m f) y (fun _ z => tame x z).
Proof. intros H Hm Hf. apply after_bind. eapply after_weaken; [exact Hm|]. intros a z Hz. eapply after_weaken; [apply Hf|]. intros b w Hw. exact (transitivity H (transitivity Hz Hw)). Qed.

Lemma tame_buf t r f : (forall b, in_place b (f b)) -> within tame (upd_buf t r f).
Proof.
  intros Hf x. unfold upd_buf, get_buf, get_con. apply after_bind, after_bind, after_gets. intros c Hc. apply after_gets. intros b Hb. apply tame_upd. intros c' Hc'. rewrite Hc in Hc'. injection Hc' as <-. by eapply tame_put_buf.
Qed.

Lemma tame_reserve t r e ms : within tame (reserve t r e ms).
Proof.
  intros x. unfold reserve, get_buf, get_con, get_m. apply after_bind, after_gets. intros c Hc. apply after_bind, after_bind, after_gets. intros c' Hc'. rewrite Hc in Hc'. injection Hc' as <-. apply after_gets. intros b Hb. apply after_bind, after_gets. intros m _. apply after_bind, after_gets. intros rv Hrv. apply reserve_place in Hrv.
  apply (tame_then _ _ x x); [reflexivity| |]; [|intros u; prog_walk]. apply tame_upd. intros c' Hc'. rewrite Hc in Hc'. injection Hc' as <-. by eapply tame_put_buf.
Qed.

Lemma tame_spec t sy x c m : pw_cons x !! t = Some c -> sys_in_place (spec_of c m) sy -> after (put_spec t sy) x (fun _ x' => tame x x').
Proof.
  intros Hc [H1 H2]. unfold put_spec. apply after_bind, after_gets. intros f _. apply (tame_then _ _ x x); [reflexivity| |]; [|intros u; prog_walk]. apply tame_upd. intros c' Hc'. rewrite Hc in Hc'. injection Hc' as <-. by split.
Qed.

Lemma tame_epid t r e offs : within tame (store_epid t r e offs).
Proof. unfold store_epid, get_buf, get_con. prog_walk. Qed.
Lemma tame_emulate t dp ms : within tame (emulate t dp ms).
Proof. unfold emulate, get_con. prog_walk. apply tame_con. intros c. split; reflexivity. Qed.
Lemma tame_erred : within tame erred.
Proof. unfold erred, get_flags. prog_walk. Qed.
#[local] Hint Resolve tame_reserve tame_epid tame_emulate tame_erred : prog.

Lemma tame_agg t acts k a x : within tame (fire_agg t acts k a x).
Proof. unfold fire_agg, call_aggregate, get_buf, get_con, get_m. prog_walk. apply tame_con. intros c. split; reflexivity. Qed.
Lemma tame_store t a dp x : within tame (store_value t a dp x).
Proof. unfold store_value, get_con. prog_walk. Qed.
Lemma tame_ustack t p a x : within tame (fire_ustack t p a x).
Proof. unfold fire_ustack, get_m. prog_walk. apply tame_con. intros c. split; reflexivity. Qed.

Lemma tame_speculate t e x : within tame (fire_speculate t e x).
Proof.
  intros w. unfold fire_speculate, get_con, get_m. apply after_bind, after_assert. intros _. apply after_bind, after_gets. intros c Hc. apply after_bind, after_gets. intros m _. apply after_bind, after_gets. intros [found sy] Hs. apply buffer_place in Hs.
  apply (tame_then _ _ w w); [reflexivity|by eapply tame_spec|]. intros u. prog_walk.
Qed.
Lemma tame_commit t e x : within tame (fire_commit t e x).
Proof.
  unfold fire_commit, get_con, get_m. apply within_bind; [exact _|prog_walk|]. intros _. apply within_bind; [exact _|prog_walk; by apply tame_buf|]. intros _ w. apply after_bind, after_gets. intros c Hc. apply after_bind, after_gets. intros m _. apply after_bind, after_gets. intros sy Hs. apply commit_place in Hs.
  apply (tame_then _ _ w w); [reflexivity|by eapply tame_spec|]. intros u. prog_walk.
Qed.
Lemma tame_discard t x : within tame (fire_discard t x).
Proof. intros w. unfold fire_discard, get_con, get_m. apply after_bind, after_gets. intros c Hc. apply after_bind, after_gets. intros m _. apply after_bind, after_gets. intros sy Hs. apply discard_place in Hs. by eapply tame_spec. Qed.

Lemma tame_exit t : within tame (fire_exit t).
Proof.
  intros w. unfold fire_exit, get_con. apply after_bind, after_gets. intros c Hc. destruct (_ =? DTRACE_ACTIVITY_COOLDOWN); [by apply after_ret|]. destruct (_ || _) eqn:Ha.
  - apply (tame_then _ _ w w); [reflexivity| |intros u; prog_walk]. apply tame_upd. intros c' Hc'. rewrite Hc in Hc'. injection Hc' as <-. split; try reflexivity. right. left. split; [done|]. apply orb_true_iff in Ha. rewrite !Z.eqb_eq in Ha. done.
  - apply (tame_then _ _ w w); [reflexivity|apply tame_flags|intros u; prog_walk].
Qed.
#[local] Hint Resolve tame_agg tame_store tame_ustack tame_speculate tame_commit tame_discard tame_exit : prog.

Lemma tame_plain t p arg0 e a x : within tame (fire_plain t p arg0 e a x).
Proof. unfold fire_plain, fire_stack. prog_walk. Qed.
Lemma tame_value t e a dp x : within tame (fire_value t e a dp x).
Proof. unfold fire_value. prog_walk. Qed.
#[local] Hint Resolve tame_plain tame_value : prog.
Lemma tame_action t p arg0 e k a x : within tame (fire_action t p arg0 e k a x).
Proof. unfold fire_action. prog_walk. Qed.
#[local] Hint Resolve tame_action : prog.
Lemma tame_actions t p arg0 e acts : forall k x, within tame (fire_actions t p arg0 e k acts x).
Proof. induction acts; cbn [fire_actions]; prog_walk. Qed.
Lemma tame_pred t p e ms : within tame (fire_pred t p e ms).
Proof. unfold fire_pred. prog_walk. Qed.
Lemma tame_deadman t now c : within tame (deadman t now c).
Proof. unfold deadman. prog_walk. apply tame_con. intros c'. split; try reflexivity. by right; right. Qed.
Lemma tame_finish error t p e n x : (forall u, within tame (error u)) -> within tame (finish_ecb error t p e n x).
Proof. intros He. unfold finish_ecb, get_flags. prog_walk; [by apply tame_buf|apply tame_con; intros c; split; reflexivity|by apply tame_buf]. Qed.
#[local] Hint Resolve tame_actions tame_pred tame_deadman tame_finish : prog.

Lemma tame_ecb error p arg0 now e ms : (forall u, within tame (error u)) -> within tame (fire_ecb error p arg0 now e ms).
Proof. intros He. unfold fire_ecb, fire_seen, fire_reserved, get_con. prog_walk. Qed.
Lemma tame_ecbs error p arg0 now es : (forall u, within tame (error u)) -> forall ms, within tame (fire_ecbs error p arg0 now es ms).
Proof. intros He. induction es; cbn [fire_ecbs]; prog_walk. by apply tame_ecb. Qed.

Lemma tame_probe fuel : forall p arg0, within tame (dtrace_probe fuel p arg0).
Proof. induction fuel as [|fuel IH]; intros p arg0; cbn [dtrace_probe]; prog_walk. by apply tame_ecbs. Qed.
End Tame.

(** * Firing for a consumer *)

Definition act_code (a : activity) : Z := match a with INACTIVE => 0 | WARMUP => 1 | ACTIVE => 2 | DRAINING => 3 | COOLDOWN => 4 | STOPPED => 5 | KILLED => 6 end.
Definition act_of (n : Z) : activity := if n =? 1 then WARMUP else if n =? 2 then ACTIVE else if n =? 3 then DRAINING else if n =? 4 then COOLDOWN else if n =? 5 then STOPPED else if n =? 6 then KILLED else INACTIVE.

Lemma act_of_code a : act_of (act_code a) = a.
Proof. by destruct a. Qed.

Lemma act_of_moves a n : act_code_moves (act_code a) n -> act_moves a (act_of n).
Proof. intros [->|[[-> Ha]| ->]]; [left; by rewrite act_of_code|right; left; split; [done|]; destruct Ha as [Ha|Ha]; destruct a; try discriminate Ha; auto|by right; right]. Qed.

(** The rest of the system: probes, the world without the consumer [s], what [dts] does not have of it, states of speculations. *)
Section Via.
Context {P : probe_env} (s : Z) (probe_of : life_event -> probe) (w0 : pworld) (c0 : consumer) (states : nat -> spec_state * bool).

Definition consumer_of (d : dts) : consumer :=
  Dispatch.Consumer (act_code (ds_activity d)) (ds_alive d) (ds_cred d) (c_vstate c0) (ds_reserve d) (c_sizes c0)
    (imap (fun i sp => Speculation (states i).1 (states i).2 sp.2) (ds_specs d)) (ds_bufs d).2 (c_busy c0) (c_unavail c0) (c_aggbufs c0) (c_dblerrors c0) (c_stkstroverflows c0).

Definition consumer_back (c : consumer) (d : dts) : dts :=
  with_spec (ds_spec d) (zip_with (fun sp sp' => (sp.1, dtsp_buffer sp')) (ds_specs d) (c_specs c)) (ds_nspec d) (with_bufs (c_bufs c) (with_activity (act_of (c_activity c)) d)).

(** dtrace_probe() for the consumer. *)
Definition fire_of (ev : life_event) (d : dts) : option dts :=
  match dtrace_probe 2 (probe_of ev) s (set_cons (<[s := consumer_of d]> (pw_cons w0)) w0) with
  | Some (_, w) => match pw_cons w !! s with Some c => Some (consumer_back c d) | None => None end
  | None => None
  end.

Lemma back_specs f (l : list (Z * list dtrace_buffer)) l' : (forall i sp, dtsp_buffer (f i sp) = sp.2) -> specs_in_place (imap f l) l' ->
  Forall2 (fun sp sp' : Z * list dtrace_buffer => sp'.1 = sp.1 /\ all_in_place sp.2 sp'.2) l (zip_with (fun sp sp' => (sp.1, dtsp_buffer sp')) l l').
Proof.
  intros Hf. revert f l' Hf. induction l as [|sp l IH]; intros f l' Hf H; cbn in H; inversion H as [|x y l1 l2 Hxy Hl]; subst; [constructor|]. cbn. constructor; [|by apply (IH (f ∘ S)); [intros i z; apply Hf|]].
  split; [done|]. unfold spec_in_place in Hxy. rewrite Hf in Hxy. exact Hxy.
Qed.

Lemma fire_of_law ev d d' : fire_of ev d = Some d' -> act_moves (ds_activity d) (ds_activity d') /\ ds_log d' = ds_log d /\ ds_options d' = ds_options d /\ moved d d'.
Proof.
  unfold fire_of. set (x := set_cons _ w0). destruct (dtrace_probe 2 (probe_of ev) s x) as [[u w]|] eqn:Hrun; [|done]. pose proof (tame_probe 2 (probe_of ev) s x u w Hrun s) as Ht. cbn [x set_cons pw_cons] in Ht. rewrite lookup_insert_eq in Ht. inversion Ht as [c c' [t1 t2 t3] Hc Hc'|]; subst. intros [= <-].
  split; [by apply act_of_moves|]. split; [done|]. split; [done|]. split; [split; [done|exact t3]|split; [done|reflexivity]| |done|done|done]. cbn. by apply back_specs in t2.
Qed.
End Via.
