(* ===== verification/ConsumerSteps.v ===== *)
(** The life of a consumer as a sequence of steps: the order of BEGIN and END, options that cannot change any more, and
    memory that is given back at the end. *)
From S2P Require Import Prelude StateProg Dif SafeMem Buffer DynVar DynInit Privilege Consumer ConsumerMem ConsumerGo ConsumerEnd ConsumerLife.
From stdpp Require Import gmap list.
#[local] Open Scope Z_scope.
#[local] Open Scope sprog_scope.

Section Steps.
Context {E : consumer_env} {HE : consumer_env_ok E}.

(** * Creation *)

Lemma default_opts_ok : opts_ok default_options.
Proof.
  destruct ceo_defaults as [H1 H2]. split; [reflexivity| |exact H1|reflexivity].
  intros o Ho. rewrite !elem_of_cons, elem_of_nil in Ho. destruct Ho as [->|[->|[->|[->|[]]]]]; [left; reflexivity|left; reflexivity|right; exact H2|left; reflexivity].
Qed.

Lemma zalloc_sleep_run n d a d' : zalloc_sleep n d = Some (a, d') -> a <> 0 /\ d' = with_live ((a, n) :: ds_live d) d.
Proof.
  unfold zalloc_sleep, get_dts, sbind, sgets, sassert, sputs, sret, kmem_zalloc. destruct (Z.eqb_spec (ce_pick n (ds_live d)) 0) as [He|He]; cbn; [done|]. destruct (Z.eqb_spec (ce_pick n (ds_live d)) 0); [done|]. cbn. by intros [= <- <-].
Qed.

Lemma state_create_fresh rules size cr live d : dtrace_state_create rules size cr live = Some d ->
  exists st, st <> 0 /\ ds_live d ≡ₚ arrays d ++ (st, size) :: live /\ ds_activity d = INACTIVE /\ ds_log d = [] /\ opts_ok (ds_options d) /\ bare d /\ ds_dyn d = DState 0 0 0 0 /\ (ds_bufs d).1 <> 0 /\ (ds_aggbufs d).1 <> 0 /\ length (ds_bufs d).2 = ce_ncpu /\ length (ds_aggbufs d).2 = ce_ncpu.
Proof.
  unfold dtrace_state_create. unfold sbind. destruct (zalloc_sleep size _) as [[st d1]|] eqn:H1; [|done]. apply zalloc_sleep_run in H1 as [Hst ->]. destruct (zalloc_sleep bufsize _) as [[a d2]|] eqn:H2; [|done]. apply zalloc_sleep_run in H2 as [Ha ->].
  destruct (zalloc_sleep bufsize _) as [[b d3]|] eqn:H3; [|done]. apply zalloc_sleep_run in H3 as [Hb ->]. cbn. intros [= <-]. exists st. cbn. split_and!; try done; [apply Permutation_swap|apply default_opts_ok|split; [apply null_row|apply null_row|done]|by rewrite length_replicate..].
Qed.

(** * Options *)

Lemma opts_insert l o v : opts_ok l -> 0 <= o < DTRACEOPT_MAX -> o <> DTRACEOPT_CPU -> 0 <= v < 2 ^ 63 -> (o = DTRACEOPT_NSPEC -> v <> 0) -> opts_ok (<[Z.to_nat o := v]> l).
Proof.
  intros [o1 o2 o3 o4] Ho Hc Hv Hn. split; [by rewrite length_insert| | |].
  - intros o' Ho'. pose proof (size_opts_range _ Ho') as [Hr _]. rewrite opt_set by (done || lia). destruct (decide _); [by right|by apply o2].
  - rewrite opt_set by (done || (unfold DTRACEOPT_NSPEC; lia)). destruct (decide _) as [<-|]; [|done]. specialize (Hn eq_refl). lia.
  - rewrite opt_set by (done || (unfold DTRACEOPT_CPU; lia)). by destruct (decide _) as [<-|].
Qed.

Lemma option_shape o v d : 0 <= o -> o <> DTRACEOPT_CPU -> v < 2 ^ 63 -> (o = DTRACEOPT_NSPEC -> v <> 0) -> opts_ok (ds_options d) ->
  after (dtrace_state_option o v) d (fun _ d' => exists opts cr, d' = with_options opts (with_cred cr d) /\ opts_ok opts).
Proof.
  intros Ho Hc Hv Hn Hok rval d' H. assert (Hsame : exists opts cr, d = with_options opts (with_cred cr d) /\ opts_ok opts) by (exists (ds_options d), (ds_cred d); by destruct d).
  unfold dtrace_state_option, get_dts, sbind, sgets, sputs, sret in H. destruct (negb _); [by injection H as _ <-|]. destruct (Z.leb_spec DTRACEOPT_MAX o); [by injection H as _ <-|]. destruct (negb _ && _) eqn:Hneg; [by injection H as _ <-|]. apply andb_false_iff in Hneg as [Hneg|Hneg]; [apply negb_false_iff, Z.eqb_eq in Hneg; done|]. apply Z.ltb_ge in Hneg.
  destruct (_ =? DTRACEOPT_DESTRUCTIVE).
  - destruct ce_destructive_disallow; injection H as _ <-; [done|]. eexists _, _. split; [reflexivity|]. by apply opts_insert.
  - cbv zeta in H. injection H as _ <-. eexists _, (ds_cred d). split; [by destruct d|]. apply opts_insert; [done|done|done| |].
    + destruct (_ && _); [|lia]. unfold LONG_MAX. lia.
    + intros Hns. destruct (_ && _); [by unfold LONG_MAX|by apply Hn].
Qed.

(** * Steps *)

(** Before it is started: no speculations are left from an earlier try, principal buffers of a certain size are wanted, and
    the allocator has room for dynamic variables. *)
Definition startable (d : dts) : Prop := bare d /\ 8 <= opt DTRACEOPT_BUFSIZE d /\ dtds_base (ds_dyn d) = 0 /\ dyn_room (dtds_chunksize (ds_dyn d)).

(** ECBs are created, with all that follows from their actions. *)
Definition matched (d d' : dts) : Prop :=
  exists destructive speculates aggs needed ecbs chunksize, d' = Dts (ds_activity d) (ds_options d) (ds_cred d) destructive speculates aggs needed ecbs (ds_reserve d) (ds_bufs d) (ds_aggbufs d)
    (ds_spec d) (ds_specs d) (ds_nspec d) (DState (dtds_base (ds_dyn d)) (dtds_size (ds_dyn d)) (dtds_hashsize (ds_dyn d)) chunksize) (ds_cleaner d) (ds_deadman d) (ds_alive d) (ds_laststatus d) (ds_live d) (ds_log d).

(** Options, matching, start, probes, cyclics and stop, in any order.  Only active consumers see probes of other providers. *)
Inductive life_step : dts -> dts -> Prop :=
| Life_option o v rval d d' : 0 <= o -> o <> DTRACEOPT_CPU -> v < 2 ^ 63 -> (o = DTRACEOPT_NSPEC -> v <> 0) -> dtrace_state_option o v d = Some (rval, d') -> life_step d d'
| Life_match d d' : ds_activity d = INACTIVE -> matched d d' -> life_step d d'
| Life_go rval d d' : (ds_activity d = INACTIVE -> startable d) -> dtrace_state_go d = Some (rval, d') -> life_step d d'
| Life_probe id d d' : ds_activity d = ACTIVE -> fire (LProbe id) d = Some (tt, d') -> life_step d d'
| Life_clean d d' : dtrace_state_clean d = Some (tt, d') -> life_step d d'
| Life_deadman d d' : dtrace_state_deadman d = Some (tt, d') -> life_step d d'
| Life_stop rval d d' : dtrace_state_stop d = Some (rval, d') -> life_step d d'.

Definition times (e : life_event) (d : dts) : nat := count_occ life_event_eq_dec (ds_log d) e.

(** How often BEGIN and END have been fired. *)
Definition in_order (d : dts) : Prop :=
  match ds_activity d with
  | INACTIVE => times LBegin d = 0%nat /\ times LEnd d = 0%nat
  | ACTIVE | DRAINING | KILLED => times LBegin d = 1%nat /\ times LEnd d = 0%nat
  | STOPPED => times LBegin d = 1%nat /\ times LEnd d = 1%nat
  | WARMUP | COOLDOWN => False
  end.

(** [R] is what others hold. *)
Record living (R : live_heap) (d : dts) : Prop := {
  lv_mem : mem_ok (arrays d ++ R) d;
  lv_there : arrays_there d;
  lv_bufs : (ds_bufs d).1 <> 0 /\ (ds_aggbufs d).1 <> 0;
  lv_opts : ds_activity d = INACTIVE -> opts_ok (ds_options d);
  lv_order : in_order d
}.

Lemma living_moved R d d' : living R d -> moved d d' -> (ds_activity d' = INACTIVE -> opts_ok (ds_options d')) -> in_order d' -> living R d'.
Proof.
  intros [l1 l2 l3 l4 l5] Hv Ho Hi. split; [rewrite (moved_arrays _ _ Hv); by eapply moved_mem|by eapply moved_there| |done|done]. destruct Hv as [[-> _] [-> _] _ _ _ _]. done.
Qed.

Lemma times_event e ev d d' : ds_log d' = ds_log d ++ [ev] -> times e d' = (times e d + if decide (ev = e) then 1 else 0)%nat.
Proof. intros H. unfold times. rewrite H, count_occ_app. cbn. destruct (life_event_eq_dec ev e), (decide (ev = e)); done. Qed.

Lemma order_same d d' : still d d' -> in_order d -> in_order d'.
Proof. intros [H1 H2]. unfold in_order, times. by rewrite H1, H2. Qed.

(** * Steps keep a consumer in order *)

(** A change of fields that neither memory nor the order of events depend on. *)
Lemma moved_fields d d' : (ds_bufs d', ds_aggbufs d', ds_specs d', ds_spec d', ds_nspec d') = (ds_bufs d, ds_aggbufs d, ds_specs d, ds_spec d, ds_nspec d) -> (ds_dyn d', ds_live d') = (ds_dyn d, ds_live d) -> length (ds_options d') = length (ds_options d) -> moved d d'.
Proof. intros H1 H2 H3. injection H1 as e1 e2 e3 e4 e5. injection H2 as e6 e7. split; rewrite ?e1, ?e2, ?e3, ?e4, ?e5, ?e6, ?e7; [split; [done|reflexivity]|split; [done|reflexivity]|apply moved_specs_refl|done|done|done]. Qed.

Lemma arrays_eq d d' : arrays d' = arrays d -> (ds_bufs d').1 = (ds_bufs d).1 /\ (ds_aggbufs d').1 = (ds_aggbufs d).1.
Proof. intros H. by injection H. Qed.

Lemma option_living R o v rval d d' : living R d -> 0 <= o -> o <> DTRACEOPT_CPU -> v < 2 ^ 63 -> (o = DTRACEOPT_NSPEC -> v <> 0) -> dtrace_state_option o v d = Some (rval, d') -> living R d'.
Proof.
  intros Hl Ho Hc Hv Hn Hrun. destruct (option_after o v d rval d' Hrun) as [Hst Hfr]. destruct (decide (ds_activity d = INACTIVE)) as [Ha|Ha]; [|by rewrite (Hfr Ha)].
  destruct (option_shape o v d Ho Hc Hv Hn (lv_opts _ _ Hl Ha) rval d' Hrun) as (opts & cr & He & Hok). apply (living_moved R d); [done| |by rewrite He|by eapply order_same; [|apply Hl]]. rewrite He. apply moved_fields; [done|done|]. cbn. by rewrite (oo_len _ Hok), (mo_opts _ _ (lv_mem _ _ Hl)).
Qed.

Lemma match_living R d d' : living R d -> ds_activity d = INACTIVE -> matched d d' -> living R d'.
Proof. intros [[m1 m2 m3 m4 m5 m6 m7] l2 l3 l4 l5] Ha (x1 & x2 & x3 & x4 & x5 & cs & ->). by split. Qed.

Lemma go_living R rval d d' : living R d -> startable d -> ds_activity d = INACTIVE -> dtrace_state_go d = Some (rval, d') -> living R d'.
Proof.
  intros Hl (Hbare & H8 & Hdyn) Ha Hrun. assert (Hf : unstarted (arrays d ++ R) d) by (split; [done|apply Hl|done|by apply Hl|done]). pose proof (lv_order _ _ Hl) as Hord. unfold in_order in Hord. rewrite Ha in Hord. destruct Hord as [Hb0 He0].
  destruct (state_go_cases _ d Hf H8) as [(rv & d2 & Hrun2 & _ & Ha2 & Hlog & Har & Ho & Hm & Hth & _)|(sz & d1 & Hbg & Har & Hlog & Hgo)].
  - rewrite Hrun in Hrun2. injection Hrun2 as <- <-. split; [by rewrite Har|done| |done|].
    + destruct (lv_bufs _ _ Hl) as [H1 H2]. destruct (arrays_eq _ _ Har) as [-> ->]. done.
    + unfold in_order, times. by rewrite Ha2, Hlog.
  - rewrite Hrun in Hgo. unfold woken in Hgo. destruct (ce_fire LBegin d1) as [d2|] eqn:Hfire; [|discriminate Hgo]. destruct (_ || _) eqn:Hact in Hgo; [|discriminate Hgo]. injection Hgo as _ ->. destruct (ceo_fire _ _ _ Hfire) as (_ & Hl2 & _ & Hv). pose proof (wake_moved d2) as Hw.
    apply orb_true_iff in Hact. rewrite !bool_decide_eq_true in Hact. assert (Hrun2 : ds_activity (wake d2) = ACTIVE \/ ds_activity (wake d2) = DRAINING) by (unfold wake; destruct Hact as [Hw2|Hw2]; rewrite Hw2; [by left|right; exact Hw2]). assert (Hlw : ds_log (wake d2) = ds_log d ++ [LBegin]) by (rewrite <- Hlog, <- Hl2; unfold wake; by destruct (bool_decide _)).
    assert (Hm : mem_ok (arrays d ++ R) (wake d2)) by (apply (moved_mem _ d2 _ Hw), (moved_mem _ d1 _ Hv), Hbg). assert (Harw : arrays (wake d2) = arrays d) by (rewrite (moved_arrays _ _ Hw), (moved_arrays _ _ Hv); exact Har).
    split; [by rewrite Harw|apply (moved_there d2 _ Hw), (moved_there d1 _ Hv), Hbg| | |].
    + destruct (lv_bufs _ _ Hl) as [H1 H2]. destruct (arrays_eq _ _ Harw) as [-> ->]. done.
    + intros Hno. destruct Hrun2 as [Hr|Hr]; rewrite Hr in Hno; discriminate.
    + unfold in_order. rewrite !(times_event _ _ _ _ Hlw), Hb0, He0. by destruct Hrun2 as [-> | ->].
Qed.

Lemma probe_living R id d d' : living R d -> ds_activity d = ACTIVE -> fire (LProbe id) d = Some (tt, d') -> living R d'.
Proof.
  intros Hl Ha Hrun. destruct (fire_after (LProbe id) d tt d' Hrun) as (Hmv & Hlog & _ & Hv). pose proof (lv_order _ _ Hl) as Hord. unfold in_order in Hord. rewrite Ha in Hord, Hmv. apply (living_moved R d); [done|done| |].
  - intros Hno. destruct Hmv as [H|[[H _]|H]]; rewrite H in Hno; discriminate.
  - unfold in_order. rewrite !(times_event _ _ _ _ Hlog). cbn. destruct Hord as [-> ->]. by destruct Hmv as [->|[[-> _]| ->]].
Qed.

Lemma clean_living R d d' : living R d -> dtrace_state_clean d = Some (tt, d') -> living R d'.
Proof.
  intros Hl. unfold dtrace_state_clean, get_dts, sbind, sgets, sputs, sret. destruct (bool_decide_reflect (ds_activity d = INACTIVE)) as [Ha|Ha]; intros [= <-]; [done|]. apply (living_moved R d); [done|by apply moved_fields|done|].
  pose proof (lv_order _ _ Hl) as Hord. unfold in_order in *. rewrite !(times_event _ LClean d (with_event LClean d) eq_refl). change (ds_activity (with_event LClean d)) with (ds_activity d). cbn [decide]. destruct (decide (LClean = LBegin)), (decide (LClean = LEnd)); try done. rewrite !Nat.add_0_r. exact Hord.
Qed.

Lemma deadman_living R d d' : living R d -> dtrace_state_deadman d = Some (tt, d') -> living R d'.
Proof.
  intros Hl. unfold dtrace_state_deadman, get_dts, sbind, sgets, sputs, sret. destruct (_ <=? _); intros [= <-]; [done|]. apply (living_moved R d); [done|by apply moved_fields|apply Hl|]. by apply (order_same d); [|apply Hl].
Qed.

Lemma stop_living R rval d d' : living R d -> dtrace_state_stop d = Some (rval, d') -> living R d'.
Proof.
  intros Hl Hrun. destruct (stop_after d rval d' Hrun) as [(_ & Ha & Ha' & Hlog & _ & Hv)|[_ ->]]; [|done]. pose proof (lv_order _ _ Hl) as Hord. unfold in_order in Hord. apply (living_moved R d); [done|done|by rewrite Ha'|]. unfold in_order. rewrite Ha', !(times_event _ _ _ _ Hlog). cbn. by destruct Ha as [Ha|Ha]; rewrite Ha in Hord; destruct Hord as [-> ->].
Qed.

Lemma life_step_living R d d' : living R d -> life_step d d' -> living R d'.
Proof.
  intros Hl Hs. destruct Hs as [o v rval d d' ? ? ? ? Hr|d d' ? Hr|rval d d' Hst Hr|id d d' ? Hr|d d' Hr|d d' Hr|rval d d' Hr].
  - by eapply option_living.
  - by eapply match_living.
  - destruct (decide (ds_activity d = INACTIVE)) as [Ha|Ha]; [by apply (go_living R rval d d' Hl (Hst Ha) Ha)|]. unfold dtrace_state_go, get_dts, sbind at 1, sgets in Hr. rewrite (bool_decide_eq_false_2 _ Ha) in Hr. unfold sret in Hr. cbn in Hr. by injection Hr as _ <-.
  - by eapply probe_living.
  - by eapply clean_living.
  - by eapply deadman_living.
  - by eapply stop_living.
Qed.

Lemma life_living R d d' : living R d -> rtc life_step d d' -> living R d'.
Proof. intros Hl Hs. revert Hl. induction Hs as [|x y z Hxy Hyz IH]; intros Hl; [done|]. by apply IH, (life_step_living R x). Qed.

Lemma create_living rules size cr live d : dtrace_state_create rules size cr live = Some d -> exists st, living ((st, size) :: live) d.
Proof.
  intros H. destruct (state_create_fresh _ _ _ _ _ H) as (st & _ & Hlive & Ha & Hlog & Ho & Hb & Hdy & h1 & h2 & n1 & n2). exists st. pose proof Hb as [b1 b2 (b3 & b4 & b5)]. split; [|by apply bare_there|done|done|unfold in_order, times; by rewrite Ha, Hlog].
  split; [apply Ho|split; [done|by apply freeable_idle]|split; [done|by apply freeable_idle]|exists [], 0%nat; by rewrite b5|by rewrite b4, b5|by rewrite b3, b4|]. rewrite Hlive. unfold mine, dtrace_dstate_fini. by rewrite (blocks_idle _ b1), (blocks_idle _ b2), b5, b3, Hdy.
Qed.

(** Where a consumer is in its life. *)
Definition stage (a : activity) : nat := match a with INACTIVE => 0 | WARMUP => 1 | ACTIVE => 2 | DRAINING => 3 | COOLDOWN => 4 | STOPPED | KILLED => 5 end.

Lemma life_step_forward R d d' : living R d -> life_step d d' -> (stage (ds_activity d) <= stage (ds_activity d'))%nat /\ (ds_activity d <> INACTIVE -> ds_options d' = ds_options d) /\ exists l, ds_log d' = ds_log d ++ l.
Proof.
  intros Hl Hs. destruct Hs as [o v rval d d' ? ? ? ? Hr|d d' ? Hr|rval d d' Hst Hr|id d d' Ha Hr|d d' Hr|d d' Hr|rval d d' Hr].
  - destruct (option_after o v d rval d' Hr) as [[-> ->] Hfr]. split; [done|]. split; [intros Hn; by rewrite (Hfr Hn)|]. exists []. by rewrite app_nil_r.
  - destruct Hr as (x1 & x2 & x3 & x4 & x5 & cs & ->). split; [done|]. split; [done|]. exists []. by rewrite app_nil_r.
  - destruct (go_after d rval d' Hr) as [(Ha & Hlog & Hact)|[H1 H2]].
    + rewrite Ha. split; [cbn; lia|]. split; [done|]. by eexists.
    + rewrite H1, H2. split; [done|]. split; [|exists []; by rewrite app_nil_r]. intros Hn. unfold dtrace_state_go, get_dts, sbind at 1, sgets in Hr. rewrite (bool_decide_eq_false_2 _ Hn) in Hr. cbn in Hr. by injection Hr as _ <-.
  - destruct (fire_after (LProbe id) d tt d' Hr) as (Hmv & Hlog & Ho & _). rewrite Ha in Hmv |- *. split; [destruct Hmv as [->|[[-> _]| ->]]; cbn; lia|]. split; [done|]. by eexists.
  - revert Hr. unfold dtrace_state_clean, get_dts, sbind, sgets, sputs, sret. destruct (bool_decide _); intros [= <-]; (split; [done|]; split; [done|]); [exists []; by rewrite app_nil_r|by eexists].
  - revert Hr. unfold dtrace_state_deadman, get_dts, sbind, sgets, sputs, sret. destruct (_ <=? _); intros [= <-]; (split; [done|]; split; [done|]); exists []; by rewrite app_nil_r.
  - destruct (stop_after d rval d' Hr) as [(_ & Ha & Ha' & Hlog & Ho & _)|[_ ->]]; [|split; [done|]; split; [done|]; exists []; by rewrite app_nil_r]. rewrite Ha'. split; [destruct Ha as [->| ->]; cbn; lia|]. split; [done|]. by eexists.
Qed.

Lemma life_forward R d d' : living R d -> rtc life_step d d' -> (stage (ds_activity d) <= stage (ds_activity d'))%nat /\ (ds_activity d <> INACTIVE -> ds_options d' = ds_options d).
Proof.
  intros Hl Hs. revert Hl. induction Hs as [|x y z Hxy Hyz IH]; intros Hl; [done|]. destruct (life_step_forward R x y Hl Hxy) as (H1 & H2 & _). destruct (IH (life_step_living R x y Hl Hxy)) as [H3 H4]. split; [lia|]. intros Hn. rewrite H4; [by apply H2|]. intros Hy. rewrite Hy in H1. destruct (ds_activity x); cbn in H1; (done || lia).
Qed.
End Steps.
