(* ===== verification/Lifetime.v ===== *)
(** The properties of a consumer's life, and a system in which the dispatch of probes fires its BEGIN and END. *)
From S2P Require Import Prelude StateProg Dif SafeMem DifEmulate DifSafety Aggregate Buffer Speculation Match Probes Dof Ecb EcbLayout DynVar DynInit Privilege Dispatch DispatchSafe DispatchTotal Firing Consumer ConsumerMem ConsumerGo ConsumerEnd ConsumerLife ConsumerFire ConsumerSteps.
From stdpp Require Import gmap list.
#[local] Open Scope Z_scope.

(** * Probes fired by dtrace_probe() *)

(** The environment [E], but with the dispatch of probes of the file Dispatch. *)
Definition firing_env {P : probe_env} (s : Z) (probe_of : life_event -> probe) (w0 : pworld) (c0 : consumer) (states : nat -> spec_state * bool) (E : consumer_env) : consumer_env := {|
  ce_pick := ce_pick; ce_cpus := ce_cpus; ce_ncpu := ce_ncpu; ce_cpu := ce_cpu; ce_priv := ce_priv; ce_now := ce_now; ce_mem := ce_mem; ce_sink := ce_sink;
  ce_destructive_disallow := ce_destructive_disallow; ce_nspec_default := ce_nspec_default; ce_specsize_default := ce_specsize_default; ce_strsize_default := ce_strsize_default;
  ce_stackframes_default := ce_stackframes_default; ce_ustackframes_default := ce_ustackframes_default; ce_cleanrate_default := ce_cleanrate_default; ce_aggrate_default := ce_aggrate_default;
  ce_switchrate_default := ce_switchrate_default; ce_statusrate_default := ce_statusrate_default; ce_jstackframes_default := ce_jstackframes_default; ce_jstackstrsize_default := ce_jstackstrsize_default;
  ce_statusrate_max := ce_statusrate_max; ce_cleanrate_min := ce_cleanrate_min; ce_cleanrate_max := ce_cleanrate_max; ce_deadman_interval := ce_deadman_interval; ce_deadman_user := ce_deadman_user;
  ce_dstate_defsize := ce_dstate_defsize; dtrace_enabling_prime := dtrace_enabling_prime; ce_end_ecbs := ce_end_ecbs;
  ce_fire := fire_of s probe_of w0 c0 states
|}.

#[export] Instance firing_env_ok {P : probe_env} s probe_of w0 c0 states (E : consumer_env) (HE : consumer_env_ok E) : consumer_env_ok (firing_env s probe_of w0 c0 states E).
Proof. destruct HE as [[h1 h1'] h2 h3 h4 h5 _]. split; try done. intros ev d d'. apply fire_of_law. Qed.

(** * A small system *)

(** Blocks of at most 4096 bytes; two CPUs, one speculation. *)
Definition small_pick (n : Z) (live : live_heap) : Z := if (n <=? 4096) && (Nat.ltb (length live) 100) then 0x10000 + 0x2000 * Z.of_nat (length live) else 0.

Definition small_env : consumer_env := {|
  ce_pick := small_pick; ce_cpus := [0; 1]; ce_ncpu := 2; ce_cpu := 0; ce_priv := true; ce_now := 0; ce_mem := demo_mach; ce_sink := 0x500;
  ce_destructive_disallow := false; ce_nspec_default := 1; ce_specsize_default := 32768; ce_strsize_default := 256;
  ce_stackframes_default := 20; ce_ustackframes_default := 20; ce_cleanrate_default := 9900990; ce_aggrate_default := 1000000000;
  ce_switchrate_default := 1000000000; ce_statusrate_default := 1000000000; ce_jstackframes_default := 50; ce_jstackstrsize_default := 512;
  ce_statusrate_max := 10000000000; ce_cleanrate_min := 200000; ce_cleanrate_max := 60000000000; ce_deadman_interval := 1000000000; ce_deadman_user := 30000000000;
  ce_dstate_defsize := 1048576;
  dtrace_enabling_prime := fun d => Dts (ds_activity d) (ds_options d) (ds_cred d) false true false 16 [Some (Some false); Some (Some true); None; Some None] (ds_reserve d) (ds_bufs d) (ds_aggbufs d)
    (ds_spec d) (ds_specs d) (ds_nspec d) (ds_dyn d) (ds_cleaner d) (ds_deadman d) (ds_alive d) (ds_laststatus d) (ds_live d) (ds_log d);
  ce_end_ecbs := fun _ => [(16, 8)];
  ce_fire := fun _ d => Some d
|}.

#[export] Instance small_env_ok : consumer_env_ok small_env.
Proof.
  split; cbn; try done; [split; [by apply (bool_decide_unpack _)|cbn; intros cp [<-|[<-|[]]]; lia]|by left|intros d; eexists _, _, _, _, _; split; [|reflexivity]; lia|].
  intros ev d d' [= <-]. split; [by left|]. split; [done|]. split; [done|]. by apply moved_fields.
Qed.

(** BEGIN and END trace a number; the probe 10 ends the consumer. *)
Definition small_probe (ev : life_event) : probe :=
  match ev with
  | LBegin => Probe 1 1 0 0 true 0 [demo_ecb 1 0x100 16 None [demo_act 11 DTRACEACT_DIFEXPR 8 (Some (const_prog 42))]]
  | LEnd => Probe 2 1 0 0 true 0 [demo_ecb 2 0x100 16 None [demo_act 12 DTRACEACT_DIFEXPR 8 (Some (const_prog 43))]]
  | _ => Probe 10 5 0 0 true 0 [demo_ecb 3 0x100 16 None [demo_act 13 DTRACEACT_EXIT 8 (Some (const_prog 0))]]
  end.

Definition small_world : pworld := PWorld ∅ (Mach (fun _ => 0) 0 0) (PThread 0 0 0 0 false false) false 0 0 0 [].
Definition small_system : consumer_env := @firing_env (demo_probe_env demo_user) 0x100 small_probe small_world (demo_consumer 0 0x10000 (state_cred [] None)) (fun _ => (DTRACESPEC_INACTIVE, false)) small_env.

Definition after_of {A} (m : option (A * dts)) : dts := match m with Some (_, d) => d | None => zero_state [] end.

Section Small.
#[local] Existing Instance small_system.

(** Create, set the sizes, start, a probe with exit(), stop. *)
Definition small_0 : dts := match dtrace_state_create [] 2048 None [] with Some d => d | None => zero_state [] end.
Definition small_1 : dts := after_of (dtrace_state_option DTRACEOPT_BUFSIZE 16384 small_0).
Definition small_2 : dts := after_of (dtrace_state_go small_1).
Definition small_3 : dts := after_of (fire (LProbe 10) small_2).
Definition small_4 : dts := after_of (dtrace_state_stop small_3).
Definition small_5 : dts := after_of (dtrace_state_destroy small_4).
End Small.

(** * Properties *)



(** C28: a consumer never goes back in its life (inactive, warming up, active, draining, cooling down, and last stopped or
    killed), and once it has been started none of its options changes any more. *)
Theorem consumer_forward (E : consumer_env) (HE : consumer_env_ok E) rules size cr live d0 d d' :
  dtrace_state_create rules size cr live = Some d0 -> rtc life_step d0 d -> rtc life_step d d' ->
  (stage (ds_activity d) <= stage (ds_activity d'))%nat /\ (ds_activity d <> INACTIVE -> ds_options d' = ds_options d).
Proof. intros Hc H1 H2. destruct (create_living _ _ _ _ _ Hc) as [st Hl]. exact (life_forward _ d d' (life_living _ _ _ Hl H1) H2). Qed.

(** C27: when dtrace_probe() fires a probe for a consumer, the consumer's activity stays, or turns from warming up or active to
    draining, or it is killed; no buffer, of a CPU or of a speculation, changes its memory, its size or that it can be
    switched; options and history are not touched.  This is what the life of a consumer relies on. *)
Theorem firing_fits_life (P : probe_env) s probe_of w0 c0 states ev d d' : fire_of s probe_of w0 c0 states ev d = Some d' ->
  act_moves (ds_activity d) (ds_activity d') /\ ds_log d' = ds_log d /\ ds_options d' = ds_options d /\ moved d d'.
Proof. apply fire_of_law. Qed.

(** The size of the buffers is that at BEGIN. *)
Lemma begun_size (E : consumer_env) {HE : consumer_env_ok E} r sz d1 d' cp b : begun r sz d1 -> woken 0 (ce_fire LBegin d1) = Some (0, d') -> In (Z.of_nat cp) ce_cpus -> (ds_bufs d').2 !! cp = Some b -> dtb_size b = sz.
Proof.
  intros Hb Hw Hcp Hl. unfold woken in Hw. destruct (ce_fire LBegin d1) as [d2|] eqn:Hf; [|discriminate Hw]. destruct (_ || _) in Hw; [|discriminate Hw]. injection Hw as <-. destruct (ceo_fire _ _ _ Hf) as (_ & _ & _ & Hv). destruct (bg_bufs _ _ _ Hb _ Hcp) as (b0 & Hb0 & _ & <- & _). rewrite zlookup_nat, Nat2Z.id in Hb0 by lia.
  destruct (mv_bufs _ _ Hv) as [_ Hp]. destruct (mv_bufs _ _ (wake_moved d2)) as [_ Hp2]. destruct (Forall2_lookup_l _ _ _ _ _ (transitivity Hp Hp2) Hb0) as (b' & Hb' & Hpl). rewrite Hl in Hb'. injection Hb' as <-. unfold in_place, place in Hpl. by injection Hpl.
Qed.

(** * The small system *)

Section SmallLife.
#[local] Existing Instance small_system.

Lemma small_system_ok : consumer_env_ok small_system.
Proof. apply firing_env_ok, small_env_ok. Qed.
#[local] Existing Instance small_system_ok.

Lemma small_room_all : dyn_room 0.
Proof.
  split; [lia|]. intros size live Hs Hp. assert (Hpick : 0x10000 <= ce_pick (space_size 0 size) live < 0x10000 + 0x2000 * 100 /\ space_size 0 size <= 4096).
  { revert Hp. change (@ce_pick small_system) with small_pick. unfold small_pick. destruct (Z.leb_spec (space_size 0 size) 4096); cbn [andb]; [|done]. destruct (Nat.ltb_spec (length live) 100); [lia|done]. }
  assert (320 <= space_size 0 size) by (unfold space_size; change (chunk_size 0 + sizeof_dynhash) with 320; lia). destruct Hpick as [Hp1 Hp2]. clear Hp. set (base := ce_pick _ _) in *. clearbody base. split; [cbn; lia|done|done|lia|change (chunk_size 0) with 256; lia|change (@ce_sink small_system) with 0x500; lia|]. intros a. apply u8_range.
Qed.

Lemma small_created : dtrace_state_create [] 2048 None [] = Some small_0.
Proof. by vm_compute. Qed.

Lemma small_bare : bare small_1.
Proof. split; [by vm_compute; repeat constructor..|by vm_compute]. Qed.

Lemma small_living : exists st, living [(st, 2048)] small_1 /\ rtc life_step small_0 small_1.
Proof.
  destruct (create_living _ _ _ _ _ small_created) as [st Hl]. exists st. assert (Hs : life_step small_0 small_1) by (apply (Life_option DTRACEOPT_BUFSIZE 16384 0); [done|done|done|done|by vm_compute]). split; [by apply (life_step_living _ small_0)|by apply rtc_once].
Qed.

Lemma small_started : life_step small_1 small_2.
Proof. apply (Life_go 0); [|by vm_compute]. intros _. split; [apply small_bare|]. split; [by vm_compute|]. split; [done|apply small_room_all]. Qed.

Lemma small_history : rtc life_step small_1 small_4.
Proof.
  apply rtc_l with small_2; [apply small_started|]. apply rtc_l with small_3; [apply (Life_probe 10); by vm_compute|]. apply rtc_once. apply (Life_stop 0). by vm_compute.
Qed.



Lemma consumer_forward_witness : ds_options small_4 = ds_options small_2.
Proof.
  apply (consumer_forward small_system small_system_ok [] 2048 None [] small_0 small_2 small_4).
  - exact small_created.
  - destruct small_living as (st & _ & H). apply rtc_r with small_1; [exact H|exact small_started].
  - apply rtc_l with small_3; [apply (Life_probe 10); by vm_compute|]. apply rtc_once. apply (Life_stop 0). by vm_compute.
  - by vm_compute.
Defined.

Lemma firing_fits_life_witness : act_moves ACTIVE (ds_activity small_3).
Proof. apply (firing_fits_life (demo_probe_env demo_user) 0x100 small_probe small_world (demo_consumer 0 0x10000 (state_cred [] None)) (fun _ => (DTRACESPEC_INACTIVE, false)) (LProbe 10) (with_event (LProbe 10) small_2) small_3). by vm_compute. Defined.

(** Without a buffer size the start is refused, but speculations stay; the next try forgets them: 144 bytes are lost each time. *)
Example go_again_leaks :
  let d1 := after_of (dtrace_state_go small_0) in let d2 := after_of (dtrace_state_go d1) in let d3 := after_of (dtrace_state_destroy d2) in
  (fst <$> dtrace_state_go small_0, fst <$> dtrace_state_go d1, ds_live d3) = (Some ENOSPC, Some ENOSPC, [(0x18000, 128); (0x16000, 16); (0x10000, 2048)]).
Proof. by vm_compute. Qed.

(** No speculations, and buffers that cannot be allocated: the assertion that dts_speculations is NULL fails. *)
Example no_speculations_assert :
  let d1 := after_of (dtrace_state_option DTRACEOPT_NSPEC 0 small_1) in let d2 := after_of (dtrace_state_option DTRACEOPT_BUFRESIZE DTRACEOPT_BUFRESIZE_MANUAL d1) in dtrace_state_go d2 = None.
Proof. by vm_compute. Qed.

(** Another CPU is traced than the one that fires BEGIN: the assertion on its buffer fails. *)
Example other_cpu_assert : dtrace_state_go (after_of (dtrace_state_option DTRACEOPT_CPU 1 small_1)) = None.
Proof. by vm_compute. Qed.
End SmallLife.
